(* ===== verification/_CoqProject ===== *)
-Q . S2P
Prelude.v
Param.v
Bytes.v
String.v
Asm.v
Segs.v
Swtch.v
State.v
Spinlock.v
Console.v
ConsoleSpec.v
Sched.v
SleepWake.v
Sleeplock.v
Bio.v
Memide.v
BioSpec.v
Hw.v
Irq.v
Ide.v
IdeSpec.v
Log.v
LogSpec.v
LogOps.v
Kalloc.v
Vm.v
VmSpec.v
VmUser.v
VmCopy.v
VmProps.v
Fs.v
FsSpec.v
Mkfs.v
MkfsSpec.v
MkfsRead.v
Mp.v
Pipe.v
PipeSpec.v
File.v
Proc.v
SchedSpec.v
ForkSpec.v
Consoledev.v
ConsoledevSpec.v
Sysarg.v
Exec.v
Bootmain.v
Sysfile.v
Sysproc.v
Trap.v
Trapasm.v
Main.v
Shape.v
ShapeFs.v
ShapeSys.v
TrapSpec.v
SignalSpec.v
SysargSpec.v
Ulib.v
Grep.v
Sh.v
ShSpec.v
Usys.v
ShRun.v
UserProgs.v
Umalloc.v
Uthread.v
UthreadHeap.v
