(* ===== verification/Prelude.v ===== *)
(** * xv6 with signals and user threads: a shallow embedding in Rocq

    The program is the teaching operating system xv6 for x86, extended with a
    framework of signals and alarms in the kernel and a library of user-level
    threads on top of it. This library models the kernel and the user programs as
    executable definitions translated from the C sources, and proves what makes
    them correct.

    ** The program and its parts

    Hardware traps enter trap() (trap.c), which serves system calls (syscall.c,
    sysproc.c, sysfile.c), the clock, the disk, the keyboard and the serial line,
    and on the way back to user mode delivers pending signals (handling_signal).
    Processes (proc.c) are created by fork(), replaced by exec() (exec.c) and
    scheduled in turn; they wait on channels (sleep, wakeup) under spin locks
    (spinlock.c) and sleep locks (sleeplock.c). Their memory consists of page
    tables (vm.c) over pages of the allocator (kalloc.c). Files (file.c) are pipes
    (pipe.c), devices (console.c) or inodes (fs.c); the file system writes through
    a redo log (log.c), which writes through the buffer cache (bio.c), which
    reads and writes through a disk driver (memide.c or ide.c). At start-up the
    processors are found in the firmware's tables (mp.c) and the interrupt
    controllers and timers set up (picirq.c, ioapic.c, lapic.c, timer.c); before that
    the boot loader (bootmain.c) has put the kernel in memory, and main() (main.c)
    starts the other processors. The disk image comes from mkfs.c. User programs use ulib.c, printf.c and umalloc.c; init.c starts sh.c, which runs the
    others; uthread.c switches threads inside one process on the alarm signal.

    ** Files

    - Prelude.v: integers of 32 bits, the state-and-outcome monad with its loops
      and its rules, searching, counting.
    - Param.v: the constants of the headers. Bytes.v: little-endian words.
      String.v: string.c over a byte memory.
    - Asm.v: registers, stack and instructions of the processor; Swtch.v: swtch.S.
      Segs.v: segment descriptors (mmu.h), seginit() and the task state of vm.c.
    - State.v: the structs and global variables of the kernel as one record
      [kstate], as seen by one CPU.
    - Spinlock.v: spinlock.c, sequentially on [kstate], and instruction by
      instruction for any number of CPUs ([Interleaved]). Sched.v: sched, yield,
      sleep, wakeup, kill of proc.c, as one CPU runs them; SleepWake.v: the statements
      of sleep, wakeup and kill by any number of processes in any order. Sleeplock.v:
      sleeplock.c.
    - Bio.v: bio.c over the class [IdeDriver]; Memide.v: memide.c and its instance
      of that class; BioSpec.v: the cache's invariant and contract.
    - Hw.v: accesses to devices as a history, which the devices answer as they like;
      Irq.v: picirq.c, ioapic.c, lapic.c, timer.c; Mp.v: mp.c; Ide.v: ide.c;
      IdeSpec.v: the controller's interface and the driver's queue.
    - Log.v: log.c; LogSpec.v, LogOps.v: the log's contract, with the disk as the
      history of its writes, so that a crash is a prefix of it.
    - Kalloc.v: kalloc.c. Vm.v: vm.c; VmSpec.v, VmUser.v, VmCopy.v, VmProps.v: its
      page tables, address spaces and theorems.
    - Fs.v: fs.c; FsSpec.v: files as byte sequences. Mkfs.v: mkfs.c; MkfsSpec.v,
      MkfsRead.v: the image, as the kernel reads it. Pipe.v, PipeSpec.v: pipe.c.
      File.v: file.c.
    - Console.v, ConsoleSpec.v: console output (console.c, uart.c). Consoledev.v,
      ConsoledevSpec.v: the keyboard (kbd.c) and the line editor (console.c).
    - Proc.v: the rest of proc.c, signals included; SchedSpec.v: a pass of the
      scheduler; ForkSpec.v: fork().
    - Sysarg.v, SysargSpec.v: the argument fetchers of syscall.c. Exec.v: exec.c.
      Sysfile.v, Sysproc.v: the system calls. Trap.v: trap.c, the dispatch of
      syscall.c and the C side of trapasm.S; Trapasm.v: the vectors and trapasm.S as
      instructions. TrapSpec.v: delivery of signals; SignalSpec.v: their registration
      and sending.
    - Bootmain.v: bootmain.c. Main.v: main.c. Shape.v, ShapeFs.v, ShapeSys.v: the
      lengths of the kernel's tables and the pointers between them, kept by every
      routine and system call; what a failed exec() leaves alone.
    - Ulib.v: ulib.c and printf.c. Grep.v: the search of grep.c. Sh.v, ShSpec.v: the
      parser of sh.c. Usys.v: programs as trees of system calls, and machines to run
      them on; ShRun.v: the rest of sh.c; UserProgs.v: cat.c, echo.c, wc.c, ls.c,
      ln.c, mkdir.c, rm.c, kill.c, init.c, zombie.c and main() of grep.c.
      Umalloc.v: umalloc.c. Uthread.v: uthread.c over the class [Malloc];
      UthreadHeap.v: the two together, in one memory.

    ** Conventions

    A C function is a definition of the same name. A function that changes state
    is a computation of the monad [M]: it returns, panics, gives the CPU away
    ([Switch], with what is needed to resume it; the [_resume] definitions are the
    code after the switch), spins on a lock, faults, or runs out of fuel.
    Unsigned arithmetic wraps with [u32], signed with [s32]. Pointers into static
    tables are indices; memory is a map from addresses to bytes, and structures
    that the C code overlays on it (the free list, page tables, user stacks) are
    read and written there byte by byte. The global [proc] is [k_proc].
    Linker symbols ([end_], [data_]), the contents of device ports, and code that
    is not part of the sources are arguments.

    ** Fuel

    Loops over tables run over the list of their indices and need no fuel. The
    loops that follow pointers or offsets ([loop]) get fuel computed from their
    range (pages between two addresses, bytes left to transfer) or as an argument;
    the theorems show that the computed fuel is always enough, or state how much
    is. The parser of the shell gets fuel linear in the length of the line, which
    is shown to suffice for every line. User programs may run for ever; a theorem
    about one says what it ends with when it is given enough steps ([yields]), and
    so that it ends.

    ** What the theorems show

    - Concurrency: mutual exclusion of spin locks under every interleaving; the
      nesting of pushcli and popcli; no wakeup between the test of a condition and the
      wait in sleep() is lost, under every interleaving; every runnable process is
      dispatched in each pass of the scheduler; swtch() keeps each context whole.
    - Storage: the buffer cache is transparent and recycles least recently used
      buffers; a transaction is atomic whatever disk write the machine stops
      after, in commit as in recovery; begin_op, log_write and end_op maintain it;
      readi() reads the bytes writei() wrote, through the indirect block; the disk
      driver's queue and interrupts amount to a disk that serves one request after
      the other, errors of the controller included; the kernel finds on the image of
      mkfs the files of the host, and its free blocks and inodes.
    - Memory: the free list, page tables, allocation, copying and freeing of
      address spaces: which bytes change, that no page is lost or shared, and that
      failure means lack of memory.
    - Processes: fork() yields an equal but separate process; a failed exec() leaves
      the process as it was; signals are registered and sent as asked, and their
      handlers run once each, in order, and then the interrupted code; a trap saves
      and restores every register; system call arguments are taken from the process's
      own memory or refused.
    - Devices and pipes: pipes are bounded queues of bytes; console output is the
      formatted text; keyboard input passes a line editor.
    - Start-up: the boot loader puts every segment of the kernel in its place; the
      processors of the firmware's table are known, get their segments and, when the
      interrupts of the universal startup algorithm start them, a stack of their own;
      the lines enabled are the ones that interrupt.
    - User programs: grep's matcher decides its language; the shell's parser
      terminates and inverts printing, and the shell runs the programs of a line
      with the descriptors it denotes; wc counts; malloc() and free() keep a heap of
      disjoint blocks; the thread library resumes the runnable thread its lottery
      draws, and live threads have disjoint stacks; numbers printed are read back.

    Definitions that are not mentioned in a theorem are the rest of their
    component, translated so that the component is complete.

    ** What the theorems rely on

    Devices, and a processor that has not been started, are functions of the history of
    the accesses made so far. What a theorem relies on about them is a named hypothesis
    of its section: the controller of the disk (IdeSpec.v, Bootmain.v), the universal
    startup algorithm (Main.v), the interrupt controllers (Irq.v). The C functions that
    the entry code of traps calls are a parameter of Trapasm.v. The shell is run on a
    kernel of its own (Usys.v), whose fork and pipe succeed.

    ** Not modelled

    bootasm.S, entry.S, entryother.S and initcode.S, which switch the modes of the
    processor or issue a few instructions: their effect is part of the definitions that
    come after them. The stubs of usys.S: a system call is an event of the user programs.
    The weak ordering of memory between processors. The buffer cache is proved against
    the interface of a driver that returns when the disk is done (memide.c); ide.c,
    which sleeps meanwhile, is proved on its own. A kernel routine runs on [kstate] as
    one CPU sees it, without the others in between; interleavings are those of
    Spinlock.v and SleepWake.v. Messages that uthread.c prints for tracing. The host's
    side of mkfs.c, its files apart. Test programs. *)

From stdpp Require Export base gmap strings numbers relations functions list.
From Corelib Require Export ssreflect.

#[global] Set Default Goal Selector "!".
#[global] Open Scope Z_scope.

(** ** Machine integers

    C integers are integers of [Z] with the wrap-around of their width written
    out: [u32] is the value of a [uint] after an arithmetic operation, [s32]
    the value of an [int] with the same bits. *)

Definition u8 (z : Z) : Z := z mod 2 ^ 8.
Definition u16 (z : Z) : Z := z mod 2 ^ 16.
Definition u32 (z : Z) : Z := z mod 2 ^ 32.
Definition s32 (z : Z) : Z :=
  if u32 z <? 2 ^ 31 then u32 z else u32 z - 2 ^ 32.

Arguments u8 : simpl never.
Arguments u16 : simpl never.
Arguments u32 : simpl never.
Arguments s32 : simpl never.

(** ** Outcomes of a kernel computation

    [Ok]: the C function returned. [Panic]: it called panic(), which never
    returns. [Switch]: it gave the CPU away through swtch() in the recorded
    state, for a reason of type [C] that holds what is needed to resume it.
    [Spin]: it spins on a lock another CPU holds. [Fault]: the hardware raised
    a page fault in kernel mode. [NoFuel]: the bound chosen for a loop was too
    small; the theorems show it is not reached. *)

Inductive outcome (C S A : Type) : Type :=
| Ok (a : A) (s : S)
| Panic (msg : string)
| Switch (why : C) (s : S)
| Spin
| Fault (addr : Z)
| NoFuel.
Arguments Ok {C S A} _ _.
Arguments Panic {C S A} _.
Arguments Switch {C S A} _ _.
Arguments Spin {C S A}.
Arguments Fault {C S A} _.
Arguments NoFuel {C S A}.

(** The state monad over [outcome], with stdpp's monad notations. *)

Definition M (C S A : Type) : Type := S → outcome C S A.

#[global] Instance M_ret C S : MRet (M C S) := λ A a s, Ok a s.
#[global] Instance M_bind C S : MBind (M C S) := λ A B f m s,
  match m s with
  | Ok a s' => f a s'
  | Panic msg => Panic msg
  | Switch why s' => Switch why s'
  | Spin => Spin
  | Fault a => Fault a
  | NoFuel => NoFuel
  end.

Section monad.
Context {C S : Type}.

Definition panic {A} (msg : string) : M C S A := λ _, Panic msg.
Definition gets {A} (f : S → A) : M C S A := λ s, Ok (f s) s.
Definition modify (f : S → S) : M C S unit := λ s, Ok tt (f s).
Definition spin {A} : M C S A := λ _, Spin.
Definition fault {A} (a : Z) : M C S A := λ _, Fault a.
Definition nofuel {A} : M C S A := λ _, NoFuel.

(** [when b m]: [if(b) m;] *)
Definition when (b : bool) (m : M C S unit) : M C S unit :=
  if b then m else mret tt.

(** [scan l body]: a for loop over the indices [l] whose body may leave it
    early ([return] or [goto]) with a value. *)
Fixpoint scan {I A} (l : list I) (body : I → M C S (option A)) :
    M C S (option A) :=
  match l with
  | [] => mret None
  | i :: l' =>
      r ← body i;
      match r with
      | Some a => mret (Some a)
      | None => scan l' body
      end
  end.

(** [for_each l body]: a for loop over the indices [l] that never breaks. *)
Fixpoint for_each {I} (l : list I) (body : I → M C S unit) : M C S unit :=
  match l with
  | [] => mret tt
  | i :: l' => body i;; for_each l' body
  end.

(** [loop fuel body x]: [for(;;)] over the loop variables [x]; the body
    continues with new values ([inl]) or leaves with a result ([inr]). *)
Fixpoint loop {X A} (fuel : nat) (body : X → M C S (X + A)) (x : X) : M C S A :=
  match fuel with
  | O => nofuel
  | Datatypes.S fuel' =>
      r ← body x;
      match r with
      | inl x' => loop fuel' body x'
      | inr a => mret a
      end
  end.

(** ** Total-correctness triples

    [wp m Q s]: run from [s], [m] returns (no panic, no sleep, no fault, enough
    fuel) and result and final state satisfy [Q]. *)

Definition wp {A} (m : M C S A) (Q : A → S → Prop) (s : S) : Prop :=
  match m s with Ok a s' => Q a s' | _ => False end.

Lemma wp_Ok {A} (m : M C S A) Q s :
  wp m Q s ↔ ∃ a s', m s = Ok a s' ∧ Q a s'.
Proof. rewrite /wp. destruct (m s); naive_solver. Qed.

Lemma wp_intro {A} (m : M C S A) (Q : A → S → Prop) s a s' :
  m s = Ok a s' → Q a s' → wp m Q s.
Proof. rewrite /wp => -> //. Qed.

Lemma wp_bind {A B} (m : M C S A) (f : A → M C S B) Q s :
  wp (m ≫= f) Q s ↔ wp m (λ a s', wp (f a) Q s') s.
Proof. rewrite /wp /mbind /M_bind. by destruct (m s). Qed.

Lemma wp_ret {A} (a : A) Q s : wp (mret a : M C S A) Q s ↔ Q a s.
Proof. done. Qed.

Lemma wp_mono {A} (m : M C S A) (P Q : A → S → Prop) s :
  wp m P s → (∀ a s', P a s' → Q a s') → wp m Q s.
Proof. rewrite /wp. destruct (m s); eauto. Qed.

Lemma bind_Ok {A B} (m : M C S A) (f : A → M C S B) s a s' :
  m s = Ok a s' → (m ≫= f) s = f a s'.
Proof. by rewrite /mbind /M_bind => ->. Qed.

Lemma bind_Ok_inv {A B} (m : M C S A) (f : A → M C S B) s b s' :
  (m ≫= f) s = Ok b s' → ∃ a s1, m s = Ok a s1 ∧ f a s1 = Ok b s'.
Proof. rewrite /mbind /M_bind. destruct (m s); naive_solver. Qed.

Lemma bind_gets {A B} (g : S → A) (f : A → M C S B) s :
  (gets g ≫= f) s = f (g s) s.
Proof. done. Qed.

Lemma bind_modify {B} (g : S → S) (f : unit → M C S B) s :
  (modify g ≫= f) s = f tt (g s).
Proof. done. Qed.

Lemma bind_ret {A B} (a : A) (f : A → M C S B) s :
  (mret a ≫= f) s = f a s.
Proof. done. Qed.

Lemma for_each_app {I} (l1 l2 : list I) (body : I → M C S unit) s s' :
  for_each l1 body s = Ok tt s' →
  for_each (l1 ++ l2) body s = for_each l2 body s'.
Proof.
  revert s. induction l1 as [|i l1 IH]; intros s; simpl.
  - by intros [= ->].
  - intros ([] & s1 & H1 & H2)%bind_Ok_inv. rewrite (bind_Ok _ _ _ _ _ H1). eauto.
Qed.

(** A for loop whose body maintains an invariant indexed by the part of the
    list already treated. *)
Lemma wp_for_each {I} (l : list I) (body : I → M C S unit)
    (Inv : list I → S → Prop) s :
  Inv [] s →
  (∀ done i todo s1, l = done ++ i :: todo → Inv done s1 →
     wp (body i) (λ _ s2, Inv (done ++ [i]) s2) s1) →
  wp (for_each l body) (λ _ s', Inv l s') s.
Proof.
  intros H0 Hstep.
  enough (∀ todo done s1, l = done ++ todo → Inv done s1 →
            wp (for_each todo body) (λ _ s', Inv l s') s1) as HH by exact (HH l [] s eq_refl H0).
  induction todo as [|i todo IH]; intros done s1 -> HI; simpl.
  - by rewrite app_nil_r.
  - apply wp_bind. eapply wp_mono; [by eapply Hstep|]. simpl. intros [] s2 HI2.
    apply (IH (done ++ [i])); [by rewrite -app_assoc|done].
Qed.

(** A search loop: the body skips every index before the first one it stops at. *)
Lemma scan_skip {I A} (l : list I) (body : I → M C S (option A)) s :
  (∀ i, i ∈ l → body i s = Ok None s) → scan l body s = Ok None s.
Proof.
  induction l as [|i l IH]; simpl; [done|]. intros H.
  rewrite (bind_Ok _ _ s None s); [apply H; set_solver|]. apply IH. set_solver.
Qed.

Lemma scan_stop {I A} (l1 : list I) i l2 (body : I → M C S (option A)) s a s' :
  (∀ j, j ∈ l1 → body j s = Ok None s) → body i s = Ok (Some a) s' →
  scan (l1 ++ i :: l2) body s = Ok (Some a) s'.
Proof.
  intros H Hi. induction l1 as [|j l1 IH]; simpl.
  - by rewrite (bind_Ok _ _ _ _ _ Hi).
  - rewrite (bind_Ok _ _ s None s); [apply H; set_solver|]. apply IH. set_solver.
Qed.

Lemma loop_S {X A} fuel (body : X → M C S (X + A)) x s x' s' :
  body x s = Ok (inl x') s' →
  loop (Datatypes.S fuel) body x s = loop fuel body x' s'.
Proof. intros H. simpl. by rewrite (bind_Ok _ _ _ _ _ H). Qed.

Lemma loop_done {X A} fuel (body : X → M C S (X + A)) x s a s' :
  body x s = Ok (inr a) s' →
  loop (Datatypes.S fuel) body x s = Ok a s'.
Proof. intros H. simpl. by rewrite (bind_Ok _ _ _ _ _ H). Qed.

(** A body that leaves the loop, whatever it does before. *)
Lemma loop_exit {X A B} fuel (body : X → M C S (X + A)) x s (m : M C S B) (g : B → A) :
  body x s = (m ≫= λ b, mret (inr (g b))) s →
  loop (Datatypes.S fuel) body x s = (m ≫= λ b, mret (g b)) s.
Proof. intros H. rewrite /= {1}/mbind /M_bind H /mbind /M_bind. by destruct (m s). Qed.

Lemma bind_assoc {A B D} (m : M C S A) (f : A → M C S B) (g : B → M C S D) s :
  ((m ≫= f) ≫= g) s = (m ≫= λ a, f a ≫= g) s.
Proof. rewrite /mbind /M_bind. by destruct (m s). Qed.

Lemma bind_ret_r {A} (m : M C S A) s : (m ≫= mret) s = m s.
Proof. rewrite /mbind /M_bind. by destruct (m s). Qed.

(** The value and the final state of a run that returned. *)
Definition value_or {A} (d : A) (o : outcome C S A) : A :=
  match o with Ok a _ => a | _ => d end.
Definition state_or {A} (s : S) (o : outcome C S A) : S :=
  match o with Ok _ s' => s' | _ => s end.

End monad.

Arguments M_bind : simpl never.

(** ** Searching a table

    [first P l]: the index of the first element satisfying [P]; the loops over
    a table that stop at the first match are specified with it. *)

Definition first {A} (P : A → bool) (l : list A) : option nat :=
  fst <$> list_find (λ x, P x = true) l.

Lemma first_Some {A} (P : A → bool) l i :
  first P l = Some i ↔
  ∃ x, l !! i = Some x ∧ P x = true ∧
       ∀ j y, l !! j = Some y → (j < i)%nat → P y = false.
Proof.
  rewrite /first fmap_Some. split.
  - intros ([j x] & (H1 & H2 & H3)%list_find_Some & ->). exists x. split_and!; [done..|].
    intros k y Hk Hlt. apply not_true_iff_false. by apply (H3 k).
  - intros (x & H1 & H2 & H3). exists (i, x). split; [|done].
    apply list_find_Some. split_and!; [done..|]. intros k y Hk Hlt.
    by rewrite (H3 k y Hk Hlt).
Qed.

Lemma first_None {A} (P : A → bool) l :
  first P l = None ↔ ∀ i x, l !! i = Some x → P x = false.
Proof.
  rewrite /first fmap_None list_find_None Forall_lookup. split; intros H i x Hi.
  - apply not_true_iff_false. eauto.
  - rewrite (H _ _ Hi) //.
Qed.

Lemma seq_split_at i n :
  (i < n)%nat → seq 0 n = seq 0 i ++ i :: seq (S i) (n - S i).
Proof.
  intros H. replace n with (i + S (n - S i))%nat at 1 by lia.
  rewrite seq_app. simpl. done.
Qed.

Lemma elem_of_rev {A} (x : A) l : x ∈ rev l ↔ x ∈ l.
Proof. by rewrite !list_elem_of_In -in_rev. Qed.

Lemma length_omap_le {A B} (f : A → option B) l : (length (omap f l) ≤ length l)%nat.
Proof. induction l as [|x l IH]; [done|]. cbn. destruct (f x); cbn; lia. Qed.

(** The values of a map with keys in an interval. *)
Lemma map_values_list {A} (m : gmap Z A) (lo hi : Z) :
  ∃ L, Z.of_nat (length L) ≤ Z.max 0 (hi - lo) ∧ ∀ i x, m !! i = Some x → lo ≤ i < hi → x ∈ L.
Proof.
  exists (omap (λ i, m !! i) (seqZ lo (hi - lo))). split.
  - pose proof (length_omap_le (λ i, m !! i) (seqZ lo (hi - lo))) as HL. rewrite length_seqZ in HL. lia.
  - intros i x Hi Hr. apply list_elem_of_omap. exists i. split; [|done]. apply elem_of_seqZ. lia.
Qed.

(** Distinct elements of a list are no more than its length. *)
Lemma nodup_length {A} (l L : list A) : NoDup l → (∀ x, x ∈ l → x ∈ L) → (length l ≤ length L)%nat.
Proof. intros Hl Hin. by apply submseteq_length, NoDup_submseteq. Qed.

Lemma last_cons_cons {A} (a d : A) l : List.last (a :: l) d = List.last l a.
Proof.
  revert a d. induction l as [|b l IH]; intros a d; [done|].
  change (List.last (b :: l) d = List.last (b :: l) a). by rewrite !IH.
Qed.

Lemma last_app_cons {A} (a d : A) l1 l2 : List.last (l1 ++ a :: l2) d = List.last l2 a.
Proof.
  revert d. induction l1 as [|b l1 IH]; intros d; [apply last_cons_cons|].
  rewrite -app_comm_cons last_cons_cons. apply IH.
Qed.
