(* ===== verification/Param.v ===== *)
(** * Constants and macros: param.h, memlayout.h, mmu.h, buf.h, stat.h, fcntl.h

    The configuration constants of the kernel and the address arithmetic of
    the paging hardware, with the identities the other components use. *)

From S2P Require Import Prelude.

(** ** param.h *)

Definition NPROC : nat := 64.
Definition KSTACKSIZE : Z := 4096.
Definition NCPU : nat := 8.
Definition NOFILE : nat := 16.
Definition NFILE : nat := 100.
Definition NINODE : nat := 50.
Definition NDEV : Z := 10.
Definition ROOTDEV : Z := 1.
Definition MAXARG : nat := 32.
Definition MAXOPBLOCKS : Z := 10.
Definition LOGSIZE : Z := MAXOPBLOCKS * 3.
Definition NBUF : nat := 30.
Definition FSSIZE : Z := 1000.

(** ** proc.h, signals *)

Definition NUMSIG : nat := 32.
Definition defualtHandlerAdd : Z := 0xFFFF.
Definition SIGALRM : nat := 14.

(** ** memlayout.h *)

Definition EXTMEM : Z := 0x100000.
Definition PHYSTOP : Z := 0xE000000.
Definition DEVSPACE : Z := 0xFE000000.
Definition KERNBASE : Z := 0x80000000.
Definition KERNLINK : Z := KERNBASE + EXTMEM.
Definition V2P (a : Z) : Z := u32 (a - KERNBASE).
Definition P2V (a : Z) : Z := u32 (a + KERNBASE).

(** ** mmu.h *)

Definition FL_IF : Z := 0x200.
Definition DPL_USER : Z := 3.
Definition SEG_KCODE : Z := 1.
Definition SEG_KDATA : Z := 2.
Definition SEG_KCPU : Z := 3.
Definition SEG_UCODE : Z := 4.
Definition SEG_UDATA : Z := 5.
Definition SEG_TSS : Z := 6.

Definition NPDENTRIES : Z := 1024.
Definition NPTENTRIES : Z := 1024.
Definition PGSIZE : Z := 4096.
Definition PTXSHIFT : Z := 12.
Definition PDXSHIFT : Z := 22.

Definition PDX (va : Z) : Z := Z.land (Z.shiftr (u32 va) PDXSHIFT) 0x3FF.
Definition PTX (va : Z) : Z := Z.land (Z.shiftr (u32 va) PTXSHIFT) 0x3FF.

(** [& ~(PGSIZE-1)] on a [uint]. *)
Definition PGROUNDDOWN (a : Z) : Z := Z.land (u32 a) (u32 (Z.lnot (PGSIZE - 1))).
Definition PGROUNDUP (sz : Z) : Z :=
  Z.land (u32 (sz + PGSIZE - 1)) (u32 (Z.lnot (PGSIZE - 1))).

Definition PTE_P : Z := 0x001.
Definition PTE_W : Z := 0x002.
Definition PTE_U : Z := 0x004.
Definition PTE_ADDR (pte : Z) : Z := Z.land (u32 pte) (u32 (Z.lnot 0xFFF)).
Definition PTE_FLAGS (pte : Z) : Z := Z.land (u32 pte) 0xFFF.

(** ** buf.h, stat.h, fcntl.h *)

Definition B_VALID : Z := 0x2.
Definition B_DIRTY : Z := 0x4.

Definition T_DIR : Z := 1.
Definition T_FILE : Z := 2.
Definition T_DEV : Z := 3.

Definition O_RDONLY : Z := 0x000.
Definition O_WRONLY : Z := 0x001.
Definition O_RDWR : Z := 0x002.
Definition O_CREATE : Z := 0x200.

(** ** traps.h *)

Definition T_SYSCALL : Z := 64.
Definition T_IRQ0 : Z := 32.
Definition IRQ_TIMER : Z := 0.
Definition IRQ_KBD : Z := 1.
Definition IRQ_COM1 : Z := 4.
Definition IRQ_IDE : Z := 14.
Definition IRQ_ERROR : Z := 19.
Definition IRQ_SPURIOUS : Z := 31.

Arguments V2P : simpl never.
Arguments P2V : simpl never.
Arguments PDX : simpl never.
Arguments PTX : simpl never.
Arguments PGROUNDDOWN : simpl never.
Arguments PGROUNDUP : simpl never.
Arguments PTE_ADDR : simpl never.
Arguments PTE_FLAGS : simpl never.

(** ** Page arithmetic *)

Lemma u32_id z : 0 ≤ z < 2 ^ 32 → u32 z = z.
Proof. intros. rewrite /u32 Z.mod_small //. Qed.

Lemma u32_bound z : 0 ≤ u32 z < 2 ^ 32.
Proof. apply Z.mod_pos_bound. lia. Qed.

Lemma land_page_mask z : 0 ≤ z < 2 ^ 32 → Z.land z 0xFFFFF000 = z - z mod PGSIZE.
Proof.
  intros Hz.
  assert (Z.land z 0xFFFFF000 = Z.ldiff z (Z.ones 12)) as ->.
  { apply Z.bits_inj'. intros n Hn. rewrite Z.land_spec Z.ldiff_spec.
    destruct (decide (n < 32)).
    - assert (Z.testbit 0xFFFFF000 n = negb (Z.testbit (Z.ones 12) n)) as ->; [|done].
      assert (n = 0 ∨ n = 1 ∨ n = 2 ∨ n = 3 ∨ n = 4 ∨ n = 5 ∨ n = 6 ∨ n = 7 ∨ n = 8
        ∨ n = 9 ∨ n = 10 ∨ n = 11 ∨ n = 12 ∨ n = 13 ∨ n = 14 ∨ n = 15 ∨ n = 16 ∨ n = 17
        ∨ n = 18 ∨ n = 19 ∨ n = 20 ∨ n = 21 ∨ n = 22 ∨ n = 23 ∨ n = 24 ∨ n = 25 ∨ n = 26
        ∨ n = 27 ∨ n = 28 ∨ n = 29 ∨ n = 30 ∨ n = 31) as Hc by lia.
      by repeat (destruct Hc as [->|Hc]; [reflexivity|]); subst.
    - rewrite (Z.bits_above_log2 z n); [lia| |done].
      destruct (decide (z = 0)) as [->|]; [simpl; lia|].
      apply Z.log2_lt_pow2; [lia|]. assert (2 ^ 32 ≤ 2 ^ n) by (apply Z.pow_le_mono_r; lia). lia. }
  rewrite Z.ldiff_ones_r; [lia|]. rewrite Z.shiftr_div_pow2; [lia|].
  rewrite Z.shiftl_mul_pow2; [lia|]. unfold PGSIZE. change (2 ^ 12) with 4096.
  rewrite Z.mod_eq; lia.
Qed.

Lemma PGROUNDDOWN_eq a : 0 ≤ a < 2 ^ 32 → PGROUNDDOWN a = a - a mod PGSIZE.
Proof.
  intros. rewrite /PGROUNDDOWN u32_id //. change (u32 (Z.lnot (PGSIZE - 1))) with 0xFFFFF000.
  by apply land_page_mask.
Qed.

Lemma PGROUNDUP_eq sz :
  0 ≤ sz → sz + PGSIZE - 1 < 2 ^ 32 →
  PGROUNDUP sz = (sz + PGSIZE - 1) / PGSIZE * PGSIZE.
Proof.
  unfold PGSIZE. intros. rewrite /PGROUNDUP u32_id; [unfold PGSIZE; lia|].
  change (u32 (Z.lnot (PGSIZE - 1))) with 0xFFFFF000.
  rewrite land_page_mask; [unfold PGSIZE; lia|]. unfold PGSIZE. rewrite Z.mod_eq; lia.
Qed.
