(* ===== verification/Bytes.v ===== *)
(** * Bytes and words

    Little-endian words inside byte sequences: the fields of on-disk structures
    and of memory, read and written the way the casts of the source do on the
    x86. *)

From S2P Require Import Prelude Param.

(** The bytes of a word, least significant first, and back. *)
Definition le4 (v : Z) : list Z :=
  [v mod 256; v / 2 ^ 8 mod 256; v / 2 ^ 16 mod 256; v / 2 ^ 24 mod 256].
Definition of_le4 (b0 b1 b2 b3 : Z) : Z := b0 + b1 * 2 ^ 8 + b2 * 2 ^ 16 + b3 * 2 ^ 24.

Definition le2 (v : Z) : list Z := [v mod 256; v / 2 ^ 8 mod 256].
Definition of_le2 (b0 b1 : Z) : Z := b0 + b1 * 2 ^ 8.

(** Byte, [ushort] and [uint] at an offset of a byte array. *)
Definition get8 (off : nat) (l : list Z) : Z := default 0 (l !! off).
Definition get16 (off : nat) (l : list Z) : Z := of_le2 (get8 off l) (get8 (off + 1) l).
Definition get32 (off : nat) (l : list Z) : Z :=
  of_le4 (get8 off l) (get8 (off + 1) l) (get8 (off + 2) l) (get8 (off + 3) l).

(** Stores of a sequence of bytes, a [ushort] and a [uint] at an offset; also
    memmove() into a byte array. *)
Definition set_bytes (off : nat) (src l : list Z) : list Z := list_inserts off src l.
Definition set16 (off : nat) (v : Z) (l : list Z) : list Z := set_bytes off (le2 v) l.
Definition set32 (off : nat) (v : Z) (l : list Z) : list Z := set_bytes off (le4 v) l.
Definition get_bytes (off n : nat) (l : list Z) : list Z := take n (drop off l).

(** The value of a [short] with the given bits. *)
Definition s16 (z : Z) : Z := if u16 z <? 2 ^ 15 then u16 z else u16 z - 2 ^ 16.

(** ** Round trips *)

Lemma of_le4_le4 v :
  of_le4 (v mod 256) (v / 2 ^ 8 mod 256) (v / 2 ^ 16 mod 256) (v / 2 ^ 24 mod 256) = u32 v.
Proof. rewrite /of_le4 /u32. Z.to_euclidean_division_equations. lia. Qed.

Lemma of_le2_le2 v : of_le2 (v mod 256) (v / 2 ^ 8 mod 256) = u16 v.
Proof. rewrite /of_le2 /u16. Z.to_euclidean_division_equations. lia. Qed.

Lemma s32_u32 z : s32 (u32 z) = s32 z.
Proof. rewrite /s32 /u32 Z.mod_mod //. Qed.

Lemma s32_id z : - 2 ^ 31 ≤ z < 2 ^ 31 → s32 z = z.
Proof.
  intros H. rewrite /s32 /u32. destruct (decide (0 ≤ z)).
  - rewrite Z.mod_small; [lia|]. replace (z <? 2 ^ 31) with true by lia. done.
  - replace (z mod 2 ^ 32) with (z + 2 ^ 32) by (Z.to_euclidean_division_equations; lia).
    replace (z + 2 ^ 32 <? 2 ^ 31) with false by lia. lia.
Qed.

Lemma length_set_bytes off src l : length (set_bytes off src l) = length l.
Proof. apply length_inserts. Qed.

Lemma get8_set_in off src l k :
  (off ≤ k < off + length src)%nat → (off + length src ≤ length l)%nat →
  get8 k (set_bytes off src l) = get8 (k - off) src.
Proof. intros. rewrite /get8 /set_bytes list_lookup_inserts //. lia. Qed.

Lemma get8_set_out off src l k :
  (k < off ∨ off + length src ≤ k)%nat → get8 k (set_bytes off src l) = get8 k l.
Proof.
  intros [H|H]; rewrite /get8 /set_bytes.
  - by rewrite list_lookup_inserts_lt.
  - by rewrite list_lookup_inserts_ge.
Qed.

Lemma get32_set32 off v l : (off + 4 ≤ length l)%nat → get32 off (set32 off v l) = u32 v.
Proof.
  intros H. rewrite /get32 /set32 !get8_set_in /=; [lia..|].
  replace (off - off)%nat with 0%nat by lia. replace (off + 1 - off)%nat with 1%nat by lia.
  replace (off + 2 - off)%nat with 2%nat by lia. replace (off + 3 - off)%nat with 3%nat by lia.
  apply of_le4_le4.
Qed.

Lemma get16_set16 off v l : (off + 2 ≤ length l)%nat → get16 off (set16 off v l) = u16 v.
Proof.
  intros H. rewrite /get16 /set16 !get8_set_in /=; [lia..|].
  replace (off - off)%nat with 0%nat by lia. replace (off + 1 - off)%nat with 1%nat by lia.
  apply of_le2_le2.
Qed.

Lemma get32_set_out off src l k :
  (k + 4 ≤ off ∨ off + length src ≤ k)%nat → get32 k (set_bytes off src l) = get32 k l.
Proof. intros H. rewrite /get32 !get8_set_out //; lia. Qed.

Lemma get16_set_out off src l k :
  (k + 2 ≤ off ∨ off + length src ≤ k)%nat → get16 k (set_bytes off src l) = get16 k l.
Proof. intros H. rewrite /get16 !get8_set_out //; lia. Qed.

Lemma get32_set32_ne off v l k :
  (k + 4 ≤ off ∨ off + 4 ≤ k)%nat → get32 k (set32 off v l) = get32 k l.
Proof. intros H. by apply get32_set_out. Qed.

Lemma length_set32 off v l : length (set32 off v l) = length l.
Proof. apply length_inserts. Qed.
Lemma length_set16 off v l : length (set16 off v l) = length l.
Proof. apply length_inserts. Qed.

#[export] Hint Rewrite length_set32 length_set16 length_set_bytes : bytes.
