(* ===== verification/String.v ===== *)
(** * Memory and string functions: string.c

    A memory is a finite map from addresses to bytes; bytes never written read
    as zero. The functions run their loops on it, address by address. *)

From S2P Require Import Prelude Param Bytes.

Definition mem := gmap Z Z.

Definition byte (m : mem) (a : Z) : Z := default 0 (m !! a).

(** The [n] bytes from [a] on. *)
Definition bytes (m : mem) (a : Z) (n : nat) : list Z := (λ k, byte m (a + Z.of_nat k)) <$> seq 0 n.

(** A word in memory. *)
Definition load32 (m : mem) (a : Z) : Z :=
  of_le4 (byte m a) (byte m (a + 1)) (byte m (a + 2)) (byte m (a + 3)).

Fixpoint store (m : mem) (a : Z) (l : list Z) : mem :=
  match l with
  | [] => m
  | b :: l' => store (<[a := b]> m) (a + 1) l'
  end.

Definition store32 (m : mem) (a v : Z) : mem := store m a (le4 v).

(** ** memset *)

(** [rep stosb] and [rep stosl] of x86.h. *)
Fixpoint stosb (m : mem) (addr data : Z) (cnt : nat) : mem :=
  match cnt with
  | O => m
  | S cnt' => stosb (<[addr := u8 data]> m) (addr + 1) data cnt'
  end.

Fixpoint stosl (m : mem) (addr data : Z) (cnt : nat) : mem :=
  match cnt with
  | O => m
  | S cnt' => stosl (store32 m addr data) (addr + 4) data cnt'
  end.

Definition memset (m : mem) (dst c n : Z) : mem :=
  if (Z.rem (s32 dst) 4 =? 0) && (n mod 4 =? 0) then
    let c := Z.land c 0xff in
    stosl m dst (Z.lor (Z.shiftl c 24) (Z.lor (Z.shiftl c 16) (Z.lor (Z.shiftl c 8) c))) (Z.to_nat (n / 4))
  else stosb m dst c (Z.to_nat n).

(** ** memcmp, memmove, memcpy *)

Fixpoint memcmp (m : mem) (s1 s2 : Z) (n : nat) : Z :=
  match n with
  | O => 0
  | S n' =>
      if negb (byte m s1 =? byte m s2) then byte m s1 - byte m s2
      else memcmp m (s1 + 1) (s2 + 1) n'
  end.

(** [while(n-- > 0) *d++ = *s++;] and [while(n-- > 0) *--d = *--s;] *)
Fixpoint copy_up (m : mem) (d s : Z) (n : nat) : mem :=
  match n with
  | O => m
  | S n' => copy_up (<[d := byte m s]> m) (d + 1) (s + 1) n'
  end.

Fixpoint copy_down (m : mem) (d s : Z) (n : nat) : mem :=
  match n with
  | O => m
  | S n' => copy_down (<[d - 1 := byte m (s - 1)]> m) (d - 1) (s - 1) n'
  end.

Definition memmove (m : mem) (dst src n : Z) : mem :=
  if (src <? dst) && (src + n >? dst)
  then copy_down m (dst + n) (src + n) (Z.to_nat n)
  else copy_up m dst src (Z.to_nat n).

Definition memcpy (m : mem) (dst src n : Z) : mem := memmove m dst src n.

(** ** Strings *)

Fixpoint strncmp (m : mem) (p q : Z) (n : nat) : Z :=
  match n with
  | O => 0
  | S n' =>
      if negb (byte m p =? 0) && (byte m p =? byte m q) then strncmp m (p + 1) (q + 1) n'
      else byte m p - byte m q
  end.

(** The two loops of strncpy(): [n] is the count before each [n--]. *)
Fixpoint zero_fill (m : mem) (s : Z) (n : nat) : mem :=
  match n with
  | O => m
  | S n' => zero_fill (<[s := 0]> m) (s + 1) n'
  end.

Fixpoint strncpy_loop (m : mem) (s t : Z) (n : nat) : mem :=
  match n with
  | O => m
  | S n' =>
      let c := byte m t in
      let m := <[s := c]> m in
      if c =? 0 then zero_fill m (s + 1) n' else strncpy_loop m (s + 1) (t + 1) n'
  end.

Definition strncpy (m : mem) (s t n : Z) : mem := strncpy_loop m s t (Z.to_nat n).

(** [while(--n > 0 && ( *s++ = *t++) != 0);  *s = 0;] *)
Fixpoint safestrcpy_loop (m : mem) (s t : Z) (n : nat) : mem :=
  match n with
  | O => <[s := 0]> m
  | S n' =>
      let c := byte m t in
      let m := <[s := c]> m in
      if c =? 0 then <[s + 1 := 0]> m else safestrcpy_loop m (s + 1) (t + 1) n'
  end.

Definition safestrcpy (m : mem) (s t n : Z) : mem :=
  if n <=? 0 then m else safestrcpy_loop m s t (Z.to_nat (n - 1)).

(** [n] of strlen(), searching at most [fuel] bytes. *)
Fixpoint strlen_from (m : mem) (s : Z) (n fuel : nat) : option Z :=
  match fuel with
  | O => None
  | S fuel' => if byte m (s + Z.of_nat n) =? 0 then Some (Z.of_nat n) else strlen_from m s (S n) fuel'
  end.

Definition strlen (fuel : nat) (m : mem) (s : Z) : option Z := strlen_from m s 0 fuel.

Arguments load32 : simpl never.
Arguments store32 : simpl never.
Arguments memset : simpl never.
Arguments memmove : simpl never.

(** ** Lemmas on memory *)

Lemma byte_insert m a v b : byte (<[a := v]> m) b = if bool_decide (b = a) then v else byte m b.
Proof.
  rewrite /byte. case_bool_decide as E; [subst; by rewrite lookup_insert_eq|].
  by rewrite lookup_insert_ne; [congruence|].
Qed.

Lemma byte_store m a l b :
  byte (store m a l) b =
  if bool_decide (a ≤ b < a + Z.of_nat (length l)) then default 0 (l !! Z.to_nat (b - a)) else byte m b.
Proof.
  revert m a. induction l as [|x l IH]; intros m a; simpl.
  { rewrite bool_decide_eq_false_2 //. lia. }
  rewrite IH. destruct (decide (b = a)) as [->|Hne].
  - rewrite bool_decide_eq_false_2; [lia|]. rewrite bool_decide_eq_true_2; [lia|].
    by rewrite byte_insert bool_decide_eq_true_2 // Z.sub_diag.
  - destruct (decide (a ≤ b < a + Z.of_nat (S (length l)))) as [Hin|Hout].
    + rewrite !bool_decide_eq_true_2; [lia..|].
      replace (Z.to_nat (b - a)) with (S (Z.to_nat (b - (a + 1)))) by lia. done.
    + rewrite !bool_decide_eq_false_2; [lia..|]. rewrite byte_insert bool_decide_eq_false_2 //.
Qed.

Lemma load32_store32 m a v : load32 (store32 m a v) a = u32 v.
Proof.
  rewrite /load32 /store32 !byte_store /= !bool_decide_eq_true_2; [lia..|].
  replace (Z.to_nat (a - a)) with 0%nat by lia. replace (Z.to_nat (a + 1 - a)) with 1%nat by lia.
  replace (Z.to_nat (a + 2 - a)) with 2%nat by lia. replace (Z.to_nat (a + 3 - a)) with 3%nat by lia.
  apply of_le4_le4.
Qed.

Lemma load32_frame m m' a : (∀ k, a ≤ k < a + 4 → byte m' k = byte m k) → load32 m' a = load32 m a.
Proof. intros H. rewrite /load32 !H //; lia. Qed.

Lemma byte_store32_out m a v b : ¬ (a ≤ b < a + 4) → byte (store32 m a v) b = byte m b.
Proof. intros H. rewrite /store32 byte_store bool_decide_eq_false_2 //. Qed.

Lemma load32_store32_ne m a v b : (b + 4 ≤ a ∨ a + 4 ≤ b) → load32 (store32 m a v) b = load32 m b.
Proof. intros H. apply load32_frame. intros k Hk. apply byte_store32_out. lia. Qed.

(** ** memset *)

Lemma byte_stosb m a d n b :
  byte (stosb m a d n) b = if bool_decide (a ≤ b < a + Z.of_nat n) then u8 d else byte m b.
Proof.
  revert m a. induction n as [|n IH]; intros m a; simpl.
  { rewrite bool_decide_eq_false_2 //. lia. }
  rewrite IH byte_insert. destruct (decide (b = a)) as [->|Hne].
  - rewrite bool_decide_eq_false_2; [lia|]. rewrite !bool_decide_eq_true_2 //. lia.
  - rewrite (bool_decide_eq_false_2 (b = a)) //.
    by rewrite (bool_decide_ext (a + 1 ≤ b < a + 1 + Z.of_nat n) (a ≤ b < a + Z.of_nat (S n))); [lia|].
Qed.

Lemma byte_stosl m a d n b :
  byte (stosl m a d n) b =
  if bool_decide (a ≤ b < a + 4 * Z.of_nat n) then default 0 (le4 d !! Z.to_nat ((b - a) mod 4)) else byte m b.
Proof.
  revert m a. induction n as [|n IH]; intros m a; simpl stosl.
  { rewrite bool_decide_eq_false_2 //. lia. }
  rewrite IH. destruct (decide (a ≤ b < a + 4)) as [Hin|Hout].
  - rewrite bool_decide_eq_false_2; [lia|]. rewrite bool_decide_eq_true_2; [lia|].
    rewrite /store32 byte_store bool_decide_eq_true_2; [simpl; lia|]. by rewrite Z.mod_small; [lia|].
  - rewrite byte_store32_out //.
    rewrite (bool_decide_ext (a + 4 ≤ b < a + 4 + 4 * Z.of_nat n) (a ≤ b < a + 4 * Z.of_nat (S n))); [lia|].
    replace ((b - (a + 4)) mod 4) with ((b - a) mod 4); [done|].
    replace (b - a) with (b - (a + 4) + 1 * 4) by lia. by rewrite Z.mod_add.
Qed.

Lemma le4_fill c :
  0 ≤ c < 256 → le4 (Z.lor (Z.shiftl c 24) (Z.lor (Z.shiftl c 16) (Z.lor (Z.shiftl c 8) c))) = [c; c; c; c].
Proof.
  intros Hc. assert (forallb (λ c, bool_decide (le4 (Z.lor (Z.shiftl c 24) (Z.lor (Z.shiftl c 16)
    (Z.lor (Z.shiftl c 8) c))) = [c; c; c; c])) (seqZ 0 256) = true) as H by by vm_compute.
  rewrite forallb_forall in H. specialize (H c). rewrite -list_elem_of_In elem_of_seqZ in H.
  exact (bool_decide_eq_true_1 _ (H Hc)).
Qed.

Lemma byte_memset m dst c n b :
  0 ≤ n →
  byte (memset m dst c n) b = if bool_decide (dst ≤ b < dst + n) then u8 c else byte m b.
Proof.
  intros Hn. rewrite /memset. destruct (_ && _) eqn:E.
  - apply andb_true_iff in E as [_ E%Z.eqb_eq].
    assert (Z.land c 0xff = u8 c) as -> by (rewrite /u8 -(Z.land_ones c 8) //).
    assert (0 ≤ u8 c < 256) as Hc by (rewrite /u8; apply Z.mod_pos_bound; lia).
    rewrite byte_stosl le4_fill //.
    assert (4 * Z.of_nat (Z.to_nat (n / 4)) = n) as -> by (Z.to_euclidean_division_equations; lia).
    case_bool_decide; [|done].
    assert (0 ≤ (b - dst) mod 4 < 4) by (apply Z.mod_pos_bound; lia).
    destruct (Z.to_nat _) as [|[|[|[|k]]]] eqn:Ek; [done..|lia].
  - rewrite byte_stosb. by rewrite Z2Nat.id.
Qed.

(** ** memmove *)

Lemma byte_copy_up m d s n a :
  (d ≤ s ∨ s + Z.of_nat n ≤ d) →
  byte (copy_up m d s n) a = if bool_decide (d ≤ a < d + Z.of_nat n) then byte m (s + (a - d)) else byte m a.
Proof.
  revert m d s. induction n as [|n IH]; intros m d s Hds; simpl.
  { rewrite bool_decide_eq_false_2 //. lia. }
  rewrite IH; [lia|]. destruct (decide (a = d)) as [->|Hne].
  - rewrite bool_decide_eq_false_2; [lia|]. rewrite bool_decide_eq_true_2; [lia|].
    rewrite byte_insert bool_decide_eq_true_2 //. f_equal. lia.
  - rewrite (bool_decide_ext (d + 1 ≤ a < d + 1 + Z.of_nat n) (d ≤ a < d + Z.of_nat (S n))); [lia|].
    rewrite !byte_insert (bool_decide_eq_false_2 (a = d)) //.
    case_bool_decide; [|done]. rewrite bool_decide_eq_false_2; [lia|]. f_equal. lia.
Qed.

Lemma byte_copy_down m d s n a :
  s ≤ d →
  byte (copy_down m d s n) a = if bool_decide (d - Z.of_nat n ≤ a < d) then byte m (s + (a - d)) else byte m a.
Proof.
  revert m d s. induction n as [|n IH]; intros m d s Hds; simpl.
  { rewrite bool_decide_eq_false_2 //. lia. }
  rewrite IH; [lia|]. destruct (decide (a = d - 1)) as [->|Hne].
  - rewrite bool_decide_eq_false_2; [lia|]. rewrite bool_decide_eq_true_2; [lia|].
    rewrite byte_insert bool_decide_eq_true_2 //. f_equal. lia.
  - rewrite (bool_decide_ext (d - 1 - Z.of_nat n ≤ a < d - 1) (d - Z.of_nat (S n) ≤ a < d)); [lia|].
    rewrite !byte_insert (bool_decide_eq_false_2 (a = d - 1)) //.
    case_bool_decide; [|done]. rewrite bool_decide_eq_false_2; [lia|]. f_equal. lia.
Qed.

Lemma byte_memmove m dst src n a :
  0 ≤ n →
  byte (memmove m dst src n) a = if bool_decide (dst ≤ a < dst + n) then byte m (src + (a - dst)) else byte m a.
Proof.
  intros Hn. rewrite /memmove. destruct (_ && _) eqn:E.
  - rewrite byte_copy_down; [lia|].
    rewrite (bool_decide_ext (dst + n - Z.of_nat (Z.to_nat n) ≤ a < dst + n) (dst ≤ a < dst + n)); [lia|].
    case_bool_decide; [|done]. f_equal. lia.
  - rewrite byte_copy_up; [lia|]. by rewrite Z2Nat.id.
Qed.

(** ** Strings *)

Lemma strncmp_zero m p q n :
  strncmp m p q n = 0 ↔
  ∃ k, (k ≤ n)%nat ∧ (∀ j, (j < k)%nat → byte m (p + Z.of_nat j) = byte m (q + Z.of_nat j) ∧ byte m (p + Z.of_nat j) ≠ 0) ∧
    (k = n ∨ byte m (p + Z.of_nat k) = 0 ∧ byte m (q + Z.of_nat k) = 0).
Proof.
  revert p q. induction n as [|n IH]; intros p q; simpl.
  { split; [|done]. intros _. exists 0%nat. split; [done|]. split; [lia|by left]. }
  destruct (negb (byte m p =? 0) && (byte m p =? byte m q)) eqn:E.
  - rewrite IH. split.
    + intros (k & Hk & Hj & He). exists (S k). split; [lia|]. split.
      * intros [|j] Hlt; [rewrite !Z.add_0_r; lia|].
        replace (p + Z.of_nat (S j)) with (p + 1 + Z.of_nat j) by lia.
        replace (q + Z.of_nat (S j)) with (q + 1 + Z.of_nat j) by lia. apply Hj. lia.
      * destruct He as [->|He]; [by left|right].
        replace (p + Z.of_nat (S k)) with (p + 1 + Z.of_nat k) by lia.
        by replace (q + Z.of_nat (S k)) with (q + 1 + Z.of_nat k) by lia.
    + intros ([|k] & Hk & Hj & He).
      { rewrite !Z.add_0_r in He. destruct He as [?|[? ?]]; lia. }
      exists k. split; [lia|]. split.
      * intros j Hlt. replace (p + 1 + Z.of_nat j) with (p + Z.of_nat (S j)) by lia.
        replace (q + 1 + Z.of_nat j) with (q + Z.of_nat (S j)) by lia. apply Hj. lia.
      * destruct He as [He|He]; [left; lia|right].
        replace (p + 1 + Z.of_nat k) with (p + Z.of_nat (S k)) by lia.
        by replace (q + 1 + Z.of_nat k) with (q + Z.of_nat (S k)) by lia.
  - split.
    + intros He. exists 0%nat. split; [lia|]. split; [lia|]. right. rewrite !Z.add_0_r.
      apply andb_false_iff in E. lia.
    + intros ([|k] & Hk & Hj & He); [rewrite !Z.add_0_r in He; lia|].
      specialize (Hj 0%nat ltac:(lia)). rewrite !Z.add_0_r in Hj. apply andb_false_iff in E. lia.
Qed.

Lemma safestrcpy_loop_out m s t n a :
  ¬ (s ≤ a < s + Z.of_nat n + 1) → byte (safestrcpy_loop m s t n) a = byte m a.
Proof.
  revert m s t. induction n as [|n IH]; intros m s t Ha; simpl.
  - rewrite byte_insert bool_decide_eq_false_2 //. lia.
  - destruct (_ =? 0).
    + rewrite !byte_insert !bool_decide_eq_false_2 //; lia.
    + rewrite IH; [lia|]. rewrite byte_insert bool_decide_eq_false_2 //. lia.
Qed.

(** The copy is the source up to its NUL or to [n] bytes, then a NUL. *)
Lemma safestrcpy_loop_in m s t n :
  (t + Z.of_nat n ≤ s ∨ s + Z.of_nat n < t) →
  ∃ k, (k ≤ n)%nat ∧ byte (safestrcpy_loop m s t n) (s + Z.of_nat k) = 0 ∧
    (k = n ∨ byte m (t + Z.of_nat k) = 0) ∧
    ∀ j, (j < k)%nat → byte (safestrcpy_loop m s t n) (s + Z.of_nat j) = byte m (t + Z.of_nat j) ∧
                       byte m (t + Z.of_nat j) ≠ 0.
Proof.
  revert m s t. induction n as [|n IH]; intros m s t Hst; simpl.
  - exists 0%nat. split; [done|]. rewrite Z.add_0_r byte_insert bool_decide_eq_true_2 //.
    split; [done|]. split; [by left|lia].
  - destruct (Z.eqb_spec (byte m t) 0) as [E|E].
    + exists 0%nat. split; [lia|]. rewrite !Z.add_0_r !byte_insert bool_decide_eq_false_2; [lia|].
      rewrite bool_decide_eq_true_2 //. split; [done|]. split; [by right|lia].
    + destruct (IH (<[s := byte m t]> m) (s + 1) (t + 1)) as (k & Hk & H0 & He & Hj); [lia|].
      assert (∀ i, (i < n)%nat → byte (<[s := byte m t]> m) (t + 1 + Z.of_nat i) = byte m (t + Z.of_nat (S i))) as Hm.
      { intros i Hi. rewrite byte_insert bool_decide_eq_false_2; [lia|]. f_equal. lia. }
      exists (S k). split; [lia|]. replace (s + Z.of_nat (S k)) with (s + 1 + Z.of_nat k) by lia.
      split; [done|]. split.
      * destruct (decide (k = n)) as [->|Hkn]; [by left|]. right. rewrite -Hm; [lia|]. by destruct He.
      * intros [|j] Hlt.
        -- rewrite !Z.add_0_r safestrcpy_loop_out; [lia|]. by rewrite byte_insert bool_decide_eq_true_2.
        -- destruct (Hj j) as [E1 E2]; [lia|]. rewrite Hm in E1, E2; [lia..|].
           by replace (s + Z.of_nat (S j)) with (s + 1 + Z.of_nat j) by lia.
Qed.

Lemma strlen_from_Some m s n k fuel :
  (∀ j, (j < k)%nat → byte m (s + Z.of_nat (n + j)) ≠ 0) → byte m (s + Z.of_nat (n + k)) = 0 → (k < fuel)%nat →
  strlen_from m s n fuel = Some (Z.of_nat (n + k)).
Proof.
  revert n k. induction fuel as [|fuel IH]; intros n k Hj Hz Hf; [lia|]. simpl.
  destruct k as [|k].
  - rewrite Nat.add_0_r in Hz |- *. by rewrite Hz.
  - pose proof (Hj 0%nat ltac:(lia)) as Hn. rewrite Nat.add_0_r in Hn.
    destruct (Z.eqb_spec (byte m (s + Z.of_nat n)) 0); [done|].
    rewrite (IH (S n) k); [|by rewrite -Nat.add_succ_comm in Hz|lia|by rewrite -Nat.add_succ_comm].
    intros j Hlt. replace (S n + j)%nat with (n + S j)%nat by lia. apply Hj. lia.
Qed.

(** ** Main properties *)

(** memmove() copies [n] bytes correctly whether or not the two areas
    overlap: each byte of the destination is what the source byte was before the
    call, and no other byte changes. *)
Theorem memmove_correct m dst src n a :
  0 ≤ n →
  byte (memmove m dst src n) a = if bool_decide (dst ≤ a < dst + n) then byte m (src + (a - dst)) else byte m a.
Proof. apply byte_memmove. Qed.

Lemma memmove_correct_witness : byte (memmove (store ∅ 0 [1; 2; 3; 4]) 1 0 3) 3 = 3.
Proof. rewrite (memmove_correct _ 1 0 3 3); [lia|]. vm_compute. reflexivity. Defined.

(** memset() with four-byte stores writes the same bytes as with one-byte
    stores: the low byte of [c] everywhere in the area and nothing outside. *)
Theorem memset_correct m dst c n b :
  0 ≤ n →
  byte (memset m dst c n) b = if bool_decide (dst ≤ b < dst + n) then u8 c else byte m b.
Proof. apply byte_memset. Qed.

Lemma memset_correct_witness : byte (memset ∅ 8 257 8) 11 = 1.
Proof. rewrite (memset_correct _ 8 257 8 11); [lia|]. vm_compute. reflexivity. Defined.

(** safestrcpy() NUL-terminates its destination within [n] bytes, copies
    the source up to its NUL or to [n - 1] bytes, and writes nothing else. *)
Theorem safestrcpy_correct m s t n :
  0 < n → (t + n ≤ s ∨ s + n ≤ t) →
  (∃ k, 0 ≤ k < n ∧ byte (safestrcpy m s t n) (s + k) = 0 ∧
    (k = n - 1 ∨ byte m (t + k) = 0) ∧
    ∀ j, 0 ≤ j < k → byte (safestrcpy m s t n) (s + j) = byte m (t + j) ∧ byte m (t + j) ≠ 0) ∧
  ∀ a, ¬ (s ≤ a < s + n) → byte (safestrcpy m s t n) a = byte m a.
Proof.
  intros Hn Hst. rewrite /safestrcpy. replace (n <=? 0) with false by lia. split.
  - destruct (safestrcpy_loop_in m s t (Z.to_nat (n - 1))) as (k & Hk & H0 & He & Hj); [lia|].
    exists (Z.of_nat k). split; [lia|]. split; [done|]. split; [destruct He as [->|?]; [left; lia|by right]|].
    intros j Hlt. specialize (Hj (Z.to_nat j) ltac:(lia)). by rewrite Z2Nat.id in Hj; [lia|].
  - intros a Ha. apply safestrcpy_loop_out. lia.
Qed.

Lemma safestrcpy_correct_witness :
  ∃ k, 0 ≤ k < 4 ∧ byte (safestrcpy (store ∅ 100 [65; 66; 67; 68; 69]) 0 100 4) (0 + k) = 0.
Proof.
  destruct (safestrcpy_correct (store ∅ 100 [65; 66; 67; 68; 69]) 0 100 4) as [(k & Hk & H0 & _) _]; [lia|lia|].
  exists k. split; [exact Hk|exact H0].
Defined.
