(* ===== verification/Asm.v ===== *)
(** * Assembly code

    The instructions that trapasm.S, vectors.S and swtch.S use, on a processor with
    its registers and the memory its addresses name. A call of a C function is given
    by the function [cfun]: what the machine looks like when it has returned. *)

From S2P Require Import Prelude Param Bytes String.

Create HintDb asm.

(** ** The processor *)

Inductive reg := EAX | ECX | EDX | EBX | ESP | EBP | ESI | EDI.
Inductive sreg := CS | DS | ES | FS | GS | SS.

Record mach := Mach {
  r_eax : Z; r_ecx : Z; r_edx : Z; r_ebx : Z; r_esp : Z; r_ebp : Z; r_esi : Z; r_edi : Z;
  s_cs : Z; s_ds : Z; s_es : Z; s_fs : Z; s_gs : Z; s_ss : Z;
  eip : Z; eflags : Z;
  mm : mem
}.

Definition getr (r : reg) (m : mach) : Z :=
  match r with
  | EAX => r_eax m | ECX => r_ecx m | EDX => r_edx m | EBX => r_ebx m
  | ESP => r_esp m | EBP => r_ebp m | ESI => r_esi m | EDI => r_edi m
  end.

Definition setr (r : reg) (v : Z) (m : mach) : mach :=
  let 'Mach a c d b sp bp si di cs ds es fs gs ss ip fl me := m in
  match r with
  | EAX => Mach v c d b sp bp si di cs ds es fs gs ss ip fl me
  | ECX => Mach a v d b sp bp si di cs ds es fs gs ss ip fl me
  | EDX => Mach a c v b sp bp si di cs ds es fs gs ss ip fl me
  | EBX => Mach a c d v sp bp si di cs ds es fs gs ss ip fl me
  | ESP => Mach a c d b v bp si di cs ds es fs gs ss ip fl me
  | EBP => Mach a c d b sp v si di cs ds es fs gs ss ip fl me
  | ESI => Mach a c d b sp bp v di cs ds es fs gs ss ip fl me
  | EDI => Mach a c d b sp bp si v cs ds es fs gs ss ip fl me
  end.

Definition gets_ (r : sreg) (m : mach) : Z :=
  match r with CS => s_cs m | DS => s_ds m | ES => s_es m | FS => s_fs m | GS => s_gs m | SS => s_ss m end.

Definition sets (r : sreg) (v : Z) (m : mach) : mach :=
  let 'Mach a c d b sp bp si di cs ds es fs gs ss ip fl me := m in
  match r with
  | CS => Mach a c d b sp bp si di v ds es fs gs ss ip fl me
  | DS => Mach a c d b sp bp si di cs v es fs gs ss ip fl me
  | ES => Mach a c d b sp bp si di cs ds v fs gs ss ip fl me
  | FS => Mach a c d b sp bp si di cs ds es v gs ss ip fl me
  | GS => Mach a c d b sp bp si di cs ds es fs v ss ip fl me
  | SS => Mach a c d b sp bp si di cs ds es fs gs v ip fl me
  end.

Definition set_eip (v : Z) (m : mach) : mach :=
  let 'Mach a c d b sp bp si di cs ds es fs gs ss _ fl me := m in Mach a c d b sp bp si di cs ds es fs gs ss v fl me.
Definition set_eflags (v : Z) (m : mach) : mach :=
  let 'Mach a c d b sp bp si di cs ds es fs gs ss ip _ me := m in Mach a c d b sp bp si di cs ds es fs gs ss ip v me.
Definition set_mm (me : mem) (m : mach) : mach :=
  let 'Mach a c d b sp bp si di cs ds es fs gs ss ip fl _ := m in Mach a c d b sp bp si di cs ds es fs gs ss ip fl me.

(** The current privilege level. *)
Definition cpl (m : mach) : Z := Z.land (s_cs m) 3.

(** ** The stack *)

Definition push (v : Z) (m : mach) : mach :=
  let a := u32 (r_esp m - 4) in setr ESP a (set_mm (store32 (mm m) a v) m).

Definition top (m : mach) : Z := load32 (mm m) (r_esp m).
Definition drop4 (m : mach) : mach := setr ESP (u32 (r_esp m + 4)) m.

(** ** Instructions *)

Inductive instr :=
| Pushl (r : reg) | PushlI (v : Z) | PushlS (r : sreg) | Pushal
| Popl (r : reg) | PoplS (r : sreg) | Popal
| MovlLd (off : Z) (base dst : reg)
| MovlSt (src base : reg)
| Movl (src dst : reg) | MovlI (v : Z) (dst : reg)
| MovwI (v : Z) (dst : reg) | MovwS (src : reg) (dst : sreg)
| AddlI (v : Z) (dst : reg)
| Call (f : string)
| Ret | Iret.

Definition pushal (m : mach) : mach :=
  push (r_edi m) (push (r_esi m) (push (r_ebp m) (push (r_esp m)
    (push (r_ebx m) (push (r_edx m) (push (r_ecx m) (push (r_eax m) m))))))).

Definition pop_to (r : reg) (m : mach) : mach := setr r (top m) (drop4 m).
Definition pop_seg (r : sreg) (m : mach) : mach := sets r (top m mod 2 ^ 16) (drop4 m).

(** The saved esp is skipped. *)
Definition popal (m : mach) : mach :=
  pop_to EAX (pop_to ECX (pop_to EDX (pop_to EBX (drop4 (pop_to EBP (pop_to ESI (pop_to EDI m))))))).

Definition ret (m : mach) : mach := set_eip (top m) (drop4 m).

(** iret to code of the same privilege keeps the stack; to less privileged code it
    takes the stack from the frame as well. *)
Definition iret (m : mach) : mach :=
  let old := cpl m in
  let m := set_eip (top m) (drop4 m) in
  let m := pop_seg CS m in
  let m := set_eflags (top m) (drop4 m) in
  if cpl m =? old then m else
  let sp := top m in
  setr ESP sp (pop_seg SS (drop4 m)).

Section run.
Context (cfun : string → mach → mach).

Definition step (i : instr) (m : mach) : mach :=
  match i with
  | Pushl r => push (getr r m) m
  | PushlI v => push v m
  | PushlS r => push (gets_ r m) m
  | Pushal => pushal m
  | Popl r => pop_to r m
  | PoplS r => pop_seg r m
  | Popal => popal m
  | MovlLd off base dst => setr dst (load32 (mm m) (u32 (getr base m + off))) m
  | MovlSt src base => set_mm (store32 (mm m) (getr base m) (getr src m)) m
  | Movl src dst => setr dst (getr src m) m
  | MovlI v dst => setr dst v m
  | MovwI v dst => setr dst (getr dst m - getr dst m mod 2 ^ 16 + v mod 2 ^ 16) m
  | MovwS src dst => sets dst (getr src m mod 2 ^ 16) m
  | AddlI v dst => setr dst (u32 (getr dst m + v)) m
  | Call f => cfun f m
  | Ret => ret m
  | Iret => iret m
  end.

Definition run (p : list instr) (m : mach) : mach := foldl (λ m i, step i m) m p.

Lemma run_app p q m : run (p ++ q) m = run q (run p m).
Proof. apply foldl_app. Qed.

End run.

(** ** What a push leaves alone *)

Lemma r_eax_push v m : r_eax (push v m) = r_eax m.
Proof. by destruct m. Qed.
Lemma r_ecx_push v m : r_ecx (push v m) = r_ecx m.
Proof. by destruct m. Qed.
Lemma r_edx_push v m : r_edx (push v m) = r_edx m.
Proof. by destruct m. Qed.
Lemma r_ebx_push v m : r_ebx (push v m) = r_ebx m.
Proof. by destruct m. Qed.
Lemma r_ebp_push v m : r_ebp (push v m) = r_ebp m.
Proof. by destruct m. Qed.
Lemma r_esi_push v m : r_esi (push v m) = r_esi m.
Proof. by destruct m. Qed.
Lemma r_edi_push v m : r_edi (push v m) = r_edi m.
Proof. by destruct m. Qed.
Lemma s_cs_push v m : s_cs (push v m) = s_cs m.
Proof. by destruct m. Qed.
Lemma s_ds_push v m : s_ds (push v m) = s_ds m.
Proof. by destruct m. Qed.
Lemma s_es_push v m : s_es (push v m) = s_es m.
Proof. by destruct m. Qed.
Lemma s_fs_push v m : s_fs (push v m) = s_fs m.
Proof. by destruct m. Qed.
Lemma s_gs_push v m : s_gs (push v m) = s_gs m.
Proof. by destruct m. Qed.
Lemma s_ss_push v m : s_ss (push v m) = s_ss m.
Proof. by destruct m. Qed.
Lemma eip_push v m : eip (push v m) = eip m.
Proof. by destruct m. Qed.
Lemma eflags_push v m : eflags (push v m) = eflags m.
Proof. by destruct m. Qed.

#[export] Hint Rewrite r_eax_push r_ecx_push r_edx_push r_ebx_push r_ebp_push r_esi_push r_edi_push
  s_cs_push s_ds_push s_es_push s_fs_push s_gs_push s_ss_push eip_push eflags_push : asm.

Lemma r_esp_push v m : r_esp (push v m) = u32 (r_esp m - 4).
Proof. by destruct m. Qed.
Lemma r_esp_setr a m : r_esp (setr ESP a m) = a.
Proof. by destruct m. Qed.

(** ** Pushing many words *)

Definition pushes (vs : list Z) (m : mach) : mach := foldl (λ m v, push v m) m vs.

(** Word [k] of the frame at [a]. *)
Definition word (me : mem) (a : Z) (k : Z) : Z := load32 me (a + 4 * k).

Lemma pushes_spec vs m :
  4 * Z.of_nat (length vs) ≤ r_esp m < 2 ^ 32 →
  let a := r_esp m - 4 * Z.of_nat (length vs) in
  ∃ me, pushes vs m = setr ESP a (set_mm me m) ∧
    (∀ k v, vs !! k = Some v → load32 me (r_esp m - 4 * Z.of_nat k - 4) = u32 v) ∧
    (∀ b, ¬ (a ≤ b < r_esp m) → byte me b = byte (mm m) b).
Proof.
  revert m. induction vs as [|v vs IH]; intros m Hm; cbn [length] in *.
  { exists (mm m). rewrite Z.mul_0_r Z.sub_0_r. split_and!; [by destruct m|done|done]. }
  set (a1 := r_esp m - 4). assert (push v m = setr ESP a1 (set_mm (store32 (mm m) a1 v) m)) as E1.
  { rewrite /push u32_id; [lia|]. done. }
  cbn [pushes foldl]. rewrite E1. set (m1 := setr ESP _ _). fold (pushes vs m1).
  assert (r_esp m1 = a1 ∧ mm m1 = store32 (mm m) a1 v) as [Es Em] by by destruct m.
  destruct (IH m1) as (me & -> & Hw & Ho); [lia|]. exists me. rewrite Es Em in Hw, Ho |- *. split_and!.
  - rewrite /m1 /a1. destruct m. cbn [setr set_mm r_esp]. f_equal. lia.
  - intros [|k] w Hk; [|replace (r_esp m - 4 * Z.of_nat (S k) - 4) with (a1 - 4 * Z.of_nat k - 4) by lia; by apply Hw].
    injection Hk as <-. rewrite -(load32_store32 (mm m) a1 v). rewrite Z.mul_0_r Z.sub_0_r. fold a1.
    apply load32_frame. intros b Hb. apply Ho. lia.
  - intros b Hb. rewrite Ho; [lia|]. apply byte_store32_out. lia.
Qed.

(** ** Popping many words *)

Lemma mm_setr r v m : mm (setr r v m) = mm m.
Proof. by destruct m, r. Qed.
Lemma mm_sets r v m : mm (sets r v m) = mm m.
Proof. by destruct m, r. Qed.
Lemma setr_esp_twice a b m : setr ESP a (setr ESP b m) = setr ESP a m.
Proof. by destruct m. Qed.

(** The stack pointer goes up by words, without wrapping around. *)
Definition room (a n : Z) : Prop := 0 ≤ a ∧ a + n < 2 ^ 32.

Lemma drop4_at a m : room a 4 → drop4 (setr ESP a m) = setr ESP (a + 4) m.
Proof. intros [H0 H1]. destruct m. cbn [drop4 setr r_esp]. rewrite u32_id //. lia. Qed.

Lemma pop_to_at r a m : r ≠ ESP → room a 4 → pop_to r (setr ESP a m) = setr ESP (a + 4) (setr r (load32 (mm m) a) m).
Proof. intros Hr Ha. rewrite /pop_to (drop4_at a m Ha) /top. by destruct m, r. Qed.

Lemma pop_seg_at r a m : room a 4 → pop_seg r (setr ESP a m) = setr ESP (a + 4) (sets r (load32 (mm m) a mod 2 ^ 16) m).
Proof. intros Ha. rewrite /pop_seg (drop4_at a m Ha) /top. by destruct m, r. Qed.

(** The registers popal restores from the frame at [a]. *)
Definition pop_regs (a : Z) (m : mach) : mach :=
  let w := word (mm m) a in
  setr EAX (w 7) (setr ECX (w 6) (setr EDX (w 5) (setr EBX (w 4) (setr EBP (w 2) (setr ESI (w 1) (setr EDI (w 0) m)))))).

Lemma popal_at a m : room a 32 → popal (setr ESP a m) = setr ESP (a + 32) (pop_regs a m).
Proof.
  intros [H0 H1]. assert (∀ n, 0 ≤ n ≤ 28 → room (a + n) 4) as Hr by (rewrite /room; lia). rewrite /popal /pop_regs.
  pose proof (Hr 0 ltac:(lia)) as R0. rewrite Z.add_0_r in R0. rewrite (pop_to_at EDI) //.
  rewrite (pop_to_at ESI) //; [by apply (Hr 4)|]. rewrite -Z.add_assoc (pop_to_at EBP) //; [by apply (Hr 8)|].
  rewrite -Z.add_assoc (drop4_at (a + (4 + (4 + 4)))); [by apply (Hr 12)|].
  rewrite -Z.add_assoc (pop_to_at EBX) //; [by apply (Hr 16)|]. rewrite -Z.add_assoc (pop_to_at EDX) //; [by apply (Hr 20)|].
  rewrite -Z.add_assoc (pop_to_at ECX) //; [by apply (Hr 24)|]. rewrite -Z.add_assoc (pop_to_at EAX) //; [by apply (Hr 28)|].
  rewrite !mm_setr /word. rewrite -Z.add_assoc. rewrite Z.mul_0_r Z.add_0_r. done.
Qed.

(** iret with the words [w] at [a]. *)
Definition irets (a : Z) (m : mach) : mach :=
  let w := word (mm m) a in set_eflags (w 2) (sets CS (w 1 mod 2 ^ 16) (set_eip (w 0) m)).

Lemma iret_at a m :
  room a 20 →
  iret (setr ESP a m) =
    if Z.land (word (mm m) a 1 mod 2 ^ 16) 3 =? cpl m then setr ESP (a + 12) (irets a m)
    else setr ESP (word (mm m) a 3) (sets SS (word (mm m) a 4 mod 2 ^ 16) (irets a m)).
Proof.
  intros [H0 H1]. rewrite /iret. assert (u32 (a + 4) = a + 4) as U0 by (apply u32_id; lia).
  assert (u32 (a + 4 + 4) = a + 8) as U4 by (rewrite u32_id; lia). assert (u32 (a + 8 + 4) = a + 12) as U8 by (rewrite u32_id; lia).
  assert (u32 (a + 12 + 4) = a + 16) as U12 by (rewrite u32_id; lia).
  destruct m. cbn [setr drop4 set_eip pop_seg sets set_eflags s_cs r_esp mm].
  rewrite /cpl /irets /word. cbn [setr drop4 set_eip pop_seg sets set_eflags s_cs r_esp mm].
  rewrite /top. cbn [setr drop4 set_eip pop_seg sets set_eflags s_cs r_esp mm]. rewrite U0 U4 U8 U12.
  replace (a + 4 * 0) with a by lia. change (4 * 1) with 4. change (4 * 2) with 8. change (4 * 3) with 12. change (4 * 4) with 16.
  by destruct (_ =? _).
Qed.

(** The low half a movw leaves in a register. *)
Lemma movw_low x v : 0 ≤ v < 2 ^ 16 → (x - x mod 2 ^ 16 + v mod 2 ^ 16) mod 2 ^ 16 = v.
Proof. intros. Z.to_euclidean_division_equations. lia. Qed.
