(* ===== verification/Segs.v ===== *)
(** * Segment descriptors: mmu.h, seginit() and the task state of switchuvm()

    The descriptor table of a processor, as bit fields, and what the processor reads
    from it. The per-processor variables [cpu] and [proc] are words of the segment
    that %gs selects. *)

From S2P Require Import Prelude Param Bytes String.

(** ** Descriptors *)

Definition NSEGS : nat := 7.

Definition STA_X : Z := 0x8.
Definition STA_W : Z := 0x2.
Definition STA_R : Z := 0x2.
Definition STS_T32A : Z := 0x9.

Record segdesc := Segdesc {
  lim_15_0 : Z; base_15_0 : Z; base_23_16 : Z; sd_type : Z; sd_s : Z; sd_dpl : Z; sd_p : Z;
  lim_19_16 : Z; sd_avl : Z; sd_rsv1 : Z; sd_db : Z; sd_g : Z; base_31_24 : Z
}.

(** Each field keeps as many bits as it has. *)
Definition SEG (type base lim dpl : Z) : segdesc :=
  Segdesc (Z.land (Z.shiftr lim 12) 0xffff) (Z.land (u32 base) 0xffff) (Z.land (Z.shiftr (u32 base) 16) 0xff)
    (type mod 2 ^ 4) 1 (dpl mod 2 ^ 2) 1 (Z.shiftr (u32 lim) 28) 0 0 1 1 (Z.shiftr (u32 base) 24).

Definition SEG16 (type base lim dpl : Z) : segdesc :=
  Segdesc (Z.land lim 0xffff) (Z.land (u32 base) 0xffff) (Z.land (Z.shiftr (u32 base) 16) 0xff)
    (type mod 2 ^ 4) 1 (dpl mod 2 ^ 2) 1 (Z.shiftr (u32 lim) 16 mod 2 ^ 4) 0 0 1 0 (Z.shiftr (u32 base) 24).

Definition set_sd_s (v : Z) (d : segdesc) : segdesc :=
  Segdesc (lim_15_0 d) (base_15_0 d) (base_23_16 d) (sd_type d) v (sd_dpl d) (sd_p d)
    (lim_19_16 d) (sd_avl d) (sd_rsv1 d) (sd_db d) (sd_g d) (base_31_24 d).

Definition no_seg : segdesc := Segdesc 0 0 0 0 0 0 0 0 0 0 0 0 0.

(** The segment as the processor reads it: the address of its first byte, and the
    offset of its last. *)
Definition seg_base (d : segdesc) : Z := base_15_0 d + base_23_16 d * 2 ^ 16 + base_31_24 d * 2 ^ 24.
Definition seg_limit (d : segdesc) : Z :=
  let l := lim_15_0 d + lim_19_16 d * 2 ^ 16 in if sd_g d =? 1 then l * 2 ^ 12 + (2 ^ 12 - 1) else l.

(** The operand of lgdt and lidt: a limit, and an address in two halves. *)
Definition pseudo_desc (p size : Z) : list Z := [u16 (size - 1); u16 p; u16 (Z.shiftr (u32 p) 16)].

(** ** A processor's table and task state *)

(** Offsets in struct cpu; in struct taskstate esp0 is at 4, ss0 at 8 and iomb at 102. *)
Definition sizeof_cpu : Z := 188.
Definition cpu_ts : Z := 8.
Definition cpu_gdt : Z := 112.
Definition cpu_cpu : Z := 180.
Definition sizeof_segdesc : Z := 8.
Definition sizeof_taskstate : Z := 104.

(** The table of the processor, the operands loaded in gdtr, gs and tr, and memory. *)
Record pcpu := Pcpu { pc_gdt : list segdesc; pc_gdtr : list Z; pc_gs : Z; pc_tr : Z; pc_mem : mem }.

(** The descriptor a selector names. *)
Definition desc (x : pcpu) (sel : Z) : segdesc := default no_seg (pc_gdt x !! Z.to_nat (Z.shiftr sel 3)).

(** The variables [cpu] and [proc] are %gs:0 and %gs:4. *)
Definition gs_addr (x : pcpu) (off : Z) : Z := u32 (seg_base (desc x (pc_gs x)) + off).

Definition set_gs_word (off v : Z) (x : pcpu) : pcpu :=
  Pcpu (pc_gdt x) (pc_gdtr x) (pc_gs x) (pc_tr x) (store32 (pc_mem x) (gs_addr x off) v).

(** seginit() on the processor whose struct cpu is at [c]. *)
Definition seginit (c : Z) (x : pcpu) : pcpu :=
  let gdt := pc_gdt x in
  let gdt := <[Z.to_nat SEG_KCODE := SEG (Z.lor STA_X STA_R) 0 0xffffffff 0]> gdt in
  let gdt := <[Z.to_nat SEG_KDATA := SEG STA_W 0 0xffffffff 0]> gdt in
  let gdt := <[Z.to_nat SEG_UCODE := SEG (Z.lor STA_X STA_R) 0 0xffffffff DPL_USER]> gdt in
  let gdt := <[Z.to_nat SEG_UDATA := SEG STA_W 0 0xffffffff DPL_USER]> gdt in
  let gdt := <[Z.to_nat SEG_KCPU := SEG STA_W (c + cpu_cpu) 8 0]> gdt in
  let x := Pcpu gdt (pseudo_desc (c + cpu_gdt) (Z.of_nat NSEGS * sizeof_segdesc)) (Z.shiftl SEG_KCPU 3) (pc_tr x) (pc_mem x) in
  set_gs_word 4 0 (set_gs_word 0 c x).

(** The offset of [kstack] in struct proc. *)
Definition proc_kstack : Z := 8.

(** The task state segment set up by switchuvm(), in the struct cpu [cpu] points to and
    with the kernel stack of the process [proc] points to. *)
Definition switchuvm_ts (x : pcpu) : pcpu :=
  let c := load32 (pc_mem x) (gs_addr x 0) in
  let gdt := <[Z.to_nat SEG_TSS := SEG16 STS_T32A (c + cpu_ts) (sizeof_taskstate - 1) 0]> (pc_gdt x) in
  let gdt := alter (set_sd_s 0) (Z.to_nat SEG_TSS) gdt in
  let m := store (pc_mem x) (c + cpu_ts + 8) (le2 (Z.shiftl SEG_KDATA 3)) in
  let kstack := load32 m (load32 m (gs_addr x 4) + proc_kstack) in
  let m := store32 m (c + cpu_ts + 4) (kstack + KSTACKSIZE) in
  let m := store m (c + cpu_ts + 102) (le2 0xFFFF) in
  Pcpu gdt (pc_gdtr x) (pc_gs x) (Z.shiftl SEG_TSS 3) m.

(** ** What the processor reads *)

Lemma seg_base_SEG type base lim dpl : 0 ≤ base < 2 ^ 32 → seg_base (SEG type base lim dpl) = base.
Proof.
  intros Hb. rewrite /seg_base /SEG. cbn [base_15_0 base_23_16 base_31_24]. rewrite u32_id //.
  change 0xffff with (Z.ones 16). change 0xff with (Z.ones 8). rewrite !Z.land_ones // !Z.shiftr_div_pow2 //.
  Z.to_euclidean_division_equations. lia.
Qed.

Lemma seg_base_SEG16 type base lim dpl : 0 ≤ base < 2 ^ 32 → seg_base (SEG16 type base lim dpl) = base.
Proof. apply (seg_base_SEG type base lim dpl). Qed.

(** The limit of a normal segment is rounded up to whole pages. *)
Lemma seg_limit_SEG type base lim dpl :
  0 ≤ lim < 2 ^ 32 → seg_limit (SEG type base lim dpl) = lim / 2 ^ 12 * 2 ^ 12 + (2 ^ 12 - 1).
Proof.
  intros Hl. rewrite /seg_limit /SEG. cbn [lim_15_0 lim_19_16 sd_g]. rewrite u32_id //.
  change (1 =? 1) with true. cbn match. change 0xffff with (Z.ones 16). rewrite !Z.land_ones // !Z.shiftr_div_pow2 //.
  Z.to_euclidean_division_equations. lia.
Qed.

(** The base a pseudo descriptor names. *)
Lemma pseudo_base p size : 0 ≤ p < 2 ^ 32 → ∃ a b, pseudo_desc p size = [u16 (size - 1); a; b] ∧ a + b * 2 ^ 16 = p.
Proof.
  intros Hp. eexists _, _. split; [reflexivity|]. rewrite u32_id // Z.shiftr_div_pow2 // /u16.
  Z.to_euclidean_division_equations. lia.
Qed.

(** The table and the memory in the end. *)
Definition tss_seg (c : Z) : segdesc := set_sd_s 0 (SEG16 STS_T32A (c + cpu_ts) (sizeof_taskstate - 1) 0).

(** The same for a struct cpu at [c] and a kernel stack at [kstack]. *)
Definition task_state (c kstack : Z) (x : pcpu) : pcpu :=
  let gdt := <[Z.to_nat SEG_TSS := SEG16 STS_T32A (c + cpu_ts) (sizeof_taskstate - 1) 0]> (pc_gdt x) in
  let gdt := alter (set_sd_s 0) (Z.to_nat SEG_TSS) gdt in
  let m := store (pc_mem x) (c + cpu_ts + 8) (le2 (Z.shiftl SEG_KDATA 3)) in
  let m := store32 m (c + cpu_ts + 4) (kstack + KSTACKSIZE) in
  let m := store m (c + cpu_ts + 102) (le2 0xFFFF) in
  Pcpu gdt (pc_gdtr x) (pc_gs x) (Z.shiftl SEG_TSS 3) m.

(** A scheduler that has set [proc] to a process outside its struct cpu. *)
Definition outside (c p : Z) : Prop := p + proc_kstack + 4 ≤ c ∨ c + sizeof_cpu ≤ p + proc_kstack.

Lemma segments_table c kstack x :
  length (pc_gdt x) = NSEGS →
  ∃ d0, pc_gdt (task_state c kstack (seginit c x)) =
    [d0; SEG (Z.lor STA_X STA_R) 0 0xffffffff 0; SEG STA_W 0 0xffffffff 0; SEG STA_W (c + cpu_cpu) 8 0;
     SEG (Z.lor STA_X STA_R) 0 0xffffffff DPL_USER; SEG STA_W 0 0xffffffff DPL_USER; tss_seg c].
Proof.
  intros Hl. destruct x as [g r gs tr m]. cbn [pc_gdt] in Hl.
  do 7 (destruct g as [|? g]; [done|]). destruct g; [|done]. by eexists.
Qed.

Lemma seginit_gs c x off :
  length (pc_gdt x) = NSEGS → 0 ≤ c → c + sizeof_cpu < 2 ^ 32 → 0 ≤ off < 8 →
  gs_addr (seginit c x) off = c + cpu_cpu + off.
Proof.
  intros Hl H0 H1 Ho. rewrite /sizeof_cpu in H1. rewrite /gs_addr.
  assert (desc (seginit c x) (pc_gs (seginit c x)) = SEG STA_W (c + cpu_cpu) 8 0) as ->.
  { destruct x as [g r gs tr m]. cbn [pc_gdt] in Hl. do 7 (destruct g as [|? g]; [done|]). by destruct g. }
  rewrite /cpu_cpu seg_base_SEG; [lia|]. apply u32_id. lia.
Qed.

Lemma seginit_mem c x :
  length (pc_gdt x) = NSEGS → 0 ≤ c → c + sizeof_cpu < 2 ^ 32 →
  pc_mem (seginit c x) = store32 (store32 (pc_mem x) (c + cpu_cpu) c) (c + cpu_cpu + 4) 0.
Proof.
  intros Hl H0 H1. pose proof (seginit_gs c x 0 Hl H0 H1) as G0. pose proof (seginit_gs c x 4 Hl H0 H1) as G4.
  rewrite -G4; [lia|]. rewrite -(Z.add_0_r (c + cpu_cpu)) -G0; [lia|]. done.
Qed.

Lemma load32_store_out m b l a :
  a + 4 ≤ b ∨ b + Z.of_nat (length l) ≤ a → load32 (store m b l) a = load32 m a.
Proof. intros H. apply load32_frame. intros k Hk. rewrite byte_store bool_decide_eq_false_2 //. lia. Qed.

Lemma byte_store_in m b l a k : a = b + Z.of_nat k → (k < length l)%nat → byte (store m b l) a = default 0 (l !! k).
Proof. intros -> Hk. rewrite byte_store bool_decide_eq_true_2; [lia|]. do 2 f_equal. lia. Qed.

Lemma byte_store_out m b l a : ¬ (b ≤ a < b + Z.of_nat (length l)) → byte (store m b l) a = byte m a.
Proof. intros H. by rewrite byte_store bool_decide_eq_false_2. Qed.

(** The task state in memory. *)
Lemma ts_words c kstack y :
  let m := pc_mem (task_state c kstack y) in
  load32 m (c + cpu_ts + 4) = u32 (kstack + KSTACKSIZE) ∧
  of_le2 (byte m (c + cpu_ts + 8)) (byte m (c + cpu_ts + 9)) = Z.shiftl SEG_KDATA 3 ∧
  of_le2 (byte m (c + cpu_ts + 102)) (byte m (c + cpu_ts + 103)) = 0xFFFF ∧
  ∀ a, c + cpu_cpu ≤ a → load32 m a = load32 (pc_mem y) a.
Proof.
  cbn [pc_mem task_state]. rewrite /cpu_ts /cpu_cpu. split_and!.
  - rewrite load32_store_out; [lia|]. apply load32_store32.
  - rewrite !(byte_store_out _ (c + 8 + 102)); [cbn [length le2]; lia..|]. rewrite !byte_store32_out; [lia..|].
    rewrite (byte_store_in _ _ _ (c + 8 + 8) 0); [lia|simpl; lia|]. by rewrite (byte_store_in _ _ _ (c + 8 + 9) 1); [lia|simpl; lia|].
  - rewrite (byte_store_in _ _ _ (c + 8 + 102) 0); [lia|simpl; lia|]. by rewrite (byte_store_in _ _ _ (c + 8 + 103) 1); [lia|simpl; lia|].
  - intros a Ha. rewrite load32_store_out; [cbn [length le2]; lia|]. rewrite load32_store32_ne; [lia|].
    rewrite load32_store_out //. cbn [length le2]. lia.
Qed.

(** What the scheduler and switchuvm() do between them. *)
Lemma switchuvm_ts_eq c p x :
  length (pc_gdt x) = NSEGS → 0 ≤ c → c + sizeof_cpu < 2 ^ 32 → 0 ≤ p < 2 ^ 32 → outside c p →
  switchuvm_ts (set_gs_word 4 p (seginit c x)) =
    task_state c (load32 (pc_mem x) (p + proc_kstack)) (set_gs_word 4 p (seginit c x)).
Proof.
  intros Hl H0 H1 Hp Ho. pose proof (seginit_gs c x 0 Hl H0 H1) as G0. pose proof (seginit_gs c x 4 Hl H0 H1) as G4.
  rewrite /outside /proc_kstack /sizeof_cpu in Ho, H1. set (y := set_gs_word 4 p (seginit c x)).
  assert (∀ o, gs_addr y o = gs_addr (seginit c x) o) as Gy by done.
  assert (pc_mem y = store32 (store32 (store32 (pc_mem x) (c + cpu_cpu) c) (c + cpu_cpu + 4) 0) (c + cpu_cpu + 4) p) as My.
  { unfold y. cbn [pc_mem set_gs_word]. rewrite G4; [lia|]. by rewrite seginit_mem. }
  rewrite /switchuvm_ts !Gy G0; [lia|]. rewrite G4; [lia|]. rewrite Z.add_0_r /cpu_cpu in My |- *.
  assert (load32 (pc_mem y) (c + 180) = c) as ->.
  { rewrite My. do 2 (rewrite load32_store32_ne; [lia|]). rewrite load32_store32 u32_id //. lia. }
  cbv zeta. rewrite (load32_store_out _ _ _ (c + 180 + 4)); [rewrite /cpu_ts; cbn [length le2]; lia|].
  assert (load32 (pc_mem y) (c + 180 + 4) = p) as -> by by rewrite My load32_store32 u32_id.
  rewrite load32_store_out; [rewrite /cpu_ts /proc_kstack; cbn [length le2]; lia|].
  assert (load32 (pc_mem y) (p + proc_kstack) = load32 (pc_mem x) (p + proc_kstack)) as ->; [|done].
  rewrite My /proc_kstack. do 3 (rewrite load32_store32_ne; [lia|]). done.
Qed.

(** A flat segment of privilege [dpl]. *)
Definition flat (x : pcpu) (n type dpl : Z) : Prop :=
  ∃ d, pc_gdt x !! Z.to_nat n = Some d ∧ seg_base d = 0 ∧ seg_limit d = 2 ^ 32 - 1 ∧ sd_dpl d = dpl ∧ sd_type d = type ∧ sd_p d = 1.

(** C36: seginit(), the scheduler's assignment to [proc] and switchuvm() give the processor
    the segments the kernel relies on. Code and data segments span the address space, the
    user's with privilege 3; %gs addresses [cpu] and [proc] of this processor's struct
    cpu, which are set; gdtr holds the table. A trap from user mode then finds the kernel
    stack of the process in the task state segment, which grants no I/O ports. *)
Theorem segments_set_up c p x :
  length (pc_gdt x) = NSEGS → 0 ≤ c → c + sizeof_cpu < 2 ^ 32 → 0 ≤ p < 2 ^ 32 → outside c p →
  let kstack := load32 (pc_mem x) (p + proc_kstack) in
  0 ≤ kstack < 2 ^ 32 - KSTACKSIZE →
  let z := switchuvm_ts (set_gs_word 4 p (seginit c x)) in
  (flat z SEG_KCODE (Z.lor STA_X STA_R) 0 ∧ flat z SEG_KDATA STA_W 0 ∧
   flat z SEG_UCODE (Z.lor STA_X STA_R) DPL_USER ∧ flat z SEG_UDATA STA_W DPL_USER) ∧
  (gs_addr z 0 = c + cpu_cpu ∧ gs_addr z 4 = c + cpu_cpu + 4 ∧ 8 ≤ seg_limit (desc z (pc_gs z)) ∧
   load32 (pc_mem z) (gs_addr z 0) = c ∧ load32 (pc_mem z) (gs_addr z 4) = p) ∧
  (∃ a b, pc_gdtr z = [u16 (8 * Z.of_nat NSEGS - 1); a; b] ∧ a + b * 2 ^ 16 = c + cpu_gdt) ∧
  let t := desc z (pc_tr z) in
  seg_base t = c + cpu_ts ∧ seg_limit t = sizeof_taskstate - 1 ∧ sd_s t = 0 ∧
  load32 (pc_mem z) (seg_base t + 4) = kstack + KSTACKSIZE ∧
  of_le2 (byte (pc_mem z) (seg_base t + 8)) (byte (pc_mem z) (seg_base t + 9)) = Z.shiftl SEG_KDATA 3 ∧
  seg_limit t < of_le2 (byte (pc_mem z) (seg_base t + 102)) (byte (pc_mem z) (seg_base t + 103)).
Proof.
  intros Hl H0 H1 Hp Hout kstack Hk. rewrite switchuvm_ts_eq //. fold kstack. set (y := set_gs_word 4 p (seginit c x)).
  intros z. destruct (segments_table c kstack x Hl) as [d0 Hg]. change (pc_gdt (task_state c kstack (seginit c x))) with (pc_gdt z) in Hg.
  pose proof (seginit_gs c x 0 Hl H0 H1) as G0. pose proof (seginit_gs c x 4 Hl H0 H1) as G4.
  assert (∀ o, gs_addr z o = gs_addr (seginit c x) o) as Gz.
  { intros o. rewrite /gs_addr /desc Hg. destruct x as [g r gs tr m]. cbn [pc_gdt] in Hl.
    do 7 (destruct g as [|? g]; [done|]). by destruct g. }
  cbv zeta. rewrite !Gz G0; [lia|]. rewrite G4; [lia|]. rewrite Z.add_0_r.
  assert (desc z (pc_tr z) = tss_seg c) as Ht by by rewrite /desc Hg. rewrite Ht.
  assert (seg_base (tss_seg c) = c + cpu_ts) as Eb.
  { rewrite /sizeof_cpu in H1. apply (seg_base_SEG16 STS_T32A (c + cpu_ts) (sizeof_taskstate - 1) 0). rewrite /cpu_ts. lia. }
  rewrite Eb. destruct (ts_words c kstack y) as (Hk1 & Hk2 & Hk3 & Hk4). fold z in Hk1, Hk2, Hk3, Hk4.
  assert (pc_mem y = store32 (pc_mem (seginit c x)) (c + cpu_cpu + 4) p) as My by (rewrite -G4; [lia|done]).
  pose proof H1 as H1'. rewrite /sizeof_cpu in H1'. split_and!.
  1-4: by rewrite /flat Hg; eexists; split_and!; [reflexivity|..].
  - done.
  - done.
  - by rewrite /desc Hg.
  - rewrite Hk4; [lia|]. rewrite My (seginit_mem c x) //. do 2 (rewrite load32_store32_ne; [lia|]). rewrite load32_store32 u32_id //. lia.
  - rewrite Hk4; [lia|]. by rewrite My load32_store32 u32_id.
  - apply pseudo_base. rewrite /cpu_gdt. lia.
  - done.
  - done.
  - done.
  - rewrite Hk1 u32_id //. assert (KSTACKSIZE = 4096) by done. lia.
  - exact Hk2.
  - by rewrite Hk3.
Qed.

Lemma segments_set_up_witness :
  let x := Pcpu (replicate NSEGS no_seg) [] 0 0 (store32 ∅ 0x80110008 0x8dffe000) in
  let z := switchuvm_ts (set_gs_word 4 0x80110000 (seginit 0x80112000 x)) in
  load32 (pc_mem z) (gs_addr z 4) = 0x80110000 ∧
  load32 (pc_mem z) (seg_base (desc z (pc_tr z)) + 4) = 0x8dfff000.
Proof.
  destruct (segments_set_up 0x80112000 0x80110000 (Pcpu (replicate NSEGS no_seg) [] 0 0 (store32 ∅ 0x80110008 0x8dffe000)))
    as (_ & (_ & _ & _ & _ & Hp) & _ & _ & _ & _ & Hs & _); [done|done|done|done|by left|by vm_compute|].
  split; [exact Hp|]. exact Hs.
Defined.
