(* ===== verification/Swtch.v ===== *)
(** * Context switches: swtch.S

    swtch() leaves the callee-saved registers on the stack it is called on, as a struct
    context, and takes them from another stack. *)

From S2P Require Import Prelude Param Bytes String Asm.

Definition swtch : list instr :=
  [MovlLd 4 ESP EAX; MovlLd 8 ESP EDX;
   Pushl EBP; Pushl EBX; Pushl ESI; Pushl EDI;
   MovlSt ESP EAX; Movl EDX ESP;
   Popl EDI; Popl ESI; Popl EBX; Popl EBP; Ret].

(** struct context (proc.h). *)
Record context := Context { cx_edi : Z; cx_esi : Z; cx_ebx : Z; cx_ebp : Z; cx_eip : Z }.

Definition context_at (me : mem) (a : Z) : context :=
  Context (word me a 0) (word me a 1) (word me a 2) (word me a 3) (word me a 4).

(** The registers of a context. *)
Definition context_of (m : mach) (ip : Z) : context := Context (r_edi m) (r_esi m) (r_ebx m) (r_ebp m) ip.

Lemma context_at_ext me me' a : (∀ b, a ≤ b < a + 20 → byte me' b = byte me b) → context_at me' a = context_at me a.
Proof.
  intros H. assert (∀ k, 0 ≤ k ≤ 4 → word me' a k = word me a k) as Hw.
  { intros k Hk. apply load32_frame. intros b Hb. apply H. lia. }
  rewrite /context_at !Hw //; lia.
Qed.

(** A call of swtch(old, new): the return address and the arguments are on the stack,
    and the stack, [*old] and the new context do not overlap. *)
Record called (m : mach) (old new : Z) : Prop := {
  ca_stack : 16 ≤ r_esp m ∧ r_esp m + 12 < 2 ^ 32;
  ca_old : load32 (mm m) (r_esp m + 4) = old;
  ca_new : load32 (mm m) (r_esp m + 8) = new;
  ca_room : room new 20;
  ca_apart : (old + 4 ≤ r_esp m - 16 ∨ r_esp m + 4 ≤ old) ∧ (new + 20 ≤ old ∨ old + 4 ≤ new) ∧
             (new + 20 ≤ r_esp m - 16 ∨ r_esp m ≤ new);
  ca_regs : Forall (λ v, 0 ≤ v < 2 ^ 32) [r_edi m; r_esi m; r_ebx m; r_ebp m]
}.

Section swtch.
Context (cfun : string → mach → mach).

(** The stack is switched after four pushes. *)
Lemma swtch_pushes m old new :
  called m old new →
  ∃ me, run cfun swtch m =
      run cfun [Popl EDI; Popl ESI; Popl EBX; Popl EBP; Ret]
        (setr ESP new (set_mm (store32 me old (r_esp m - 16)) (setr EDX new (setr EAX old m)))) ∧
    context_at me (r_esp m - 16) = context_of m (load32 (mm m) (r_esp m)) ∧
    ∀ b, ¬ (r_esp m - 16 ≤ b < r_esp m) → byte me b = byte (mm m) b.
Proof.
  intros [[Hs0 Hs1] Ho Hn _ _ Hregs]. set (sp := r_esp m) in *. set (m0 := setr EDX new (setr EAX old m)).
  assert (r_esp m0 = sp ∧ mm m0 = mm m) as [E0 Em] by by destruct m.
  destruct (pushes_spec [r_ebp m; r_ebx m; r_esi m; r_edi m] m0) as (me & Hp & Hw & Hout); [rewrite E0 /=; lia|].
  rewrite E0 in Hp, Hw, Hout. rewrite Em in Hout. change (4 * Z.of_nat (length [r_ebp m; r_ebx m; r_esi m; r_edi m])) with 16 in *.
  exists me. split_and!; [| |exact Hout].
  - assert (run cfun (take 6 swtch) m = pushes [r_ebp m; r_ebx m; r_esi m; r_edi m] m0) as H6.
    { cbn [take swtch run foldl step getr]. fold sp. rewrite u32_id; [lia|]. rewrite Ho.
      assert (r_esp (setr EAX old m) = sp ∧ mm (setr EAX old m) = mm m) as [-> ->] by by destruct m. rewrite u32_id; [lia|]. rewrite Hn.
      fold m0. cbn [pushes foldl]. autorewrite with asm. by destruct m. }
    rewrite -(take_drop 6 swtch) run_app H6 Hp. cbn [drop swtch run foldl step getr]. f_equal. by destruct m.
  - decompose_Forall. rewrite /context_at /context_of /word. f_equal.
    + rewrite -(u32_id (r_edi m)) // -(Hw 3%nat) //. f_equal. lia.
    + rewrite -(u32_id (r_esi m)) // -(Hw 2%nat) //. f_equal. lia.
    + rewrite -(u32_id (r_ebx m)) // -(Hw 1%nat) //. f_equal. lia.
    + rewrite -(u32_id (r_ebp m)) // -(Hw 0%nat) //. f_equal. lia.
    + replace (r_esp m - 16 + 4 * 4) with (r_esp m) by lia. apply load32_frame. intros b Hb. apply Hout. lia.
Qed.

Lemma swtch_Ok m old new :
  called m old new →
  let m' := run cfun swtch m in
  context_of m' (eip m') = context_at (mm m) new ∧ r_esp m' = new + 20 ∧
  load32 (mm m') old = r_esp m - 16 ∧
  context_at (mm m') (r_esp m - 16) = context_of m (load32 (mm m) (r_esp m)) ∧
  ∀ b, ¬ (r_esp m - 16 ≤ b < r_esp m) → ¬ (old ≤ b < old + 4) → byte (mm m') b = byte (mm m) b.
Proof.
  intros HC m'. destruct (swtch_pushes m old new HC) as (me & Hr & Hctx & Hout). fold m' in Hr.
  destruct HC as [[Hs0 Hs1] _ _ [Hn0 Hn1] (Ha1 & Ha2 & Ha3) _]. set (me' := store32 me old (r_esp m - 16)) in *.
  set (x := set_mm me' (setr EDX new (setr EAX old m))) in Hr. assert (mm x = me') as Ex by by destruct m.
  assert (m' = set_eip (word me' new 4) (setr ESP (new + 20)
    (setr EBP (word me' new 3) (setr EBX (word me' new 2) (setr ESI (word me' new 1) (setr EDI (word me' new 0) x)))))) as Em.
  { rewrite Hr /run. cbn [foldl step]. rewrite (pop_to_at EDI) //; [unfold room; lia|]. rewrite (pop_to_at ESI) //; [unfold room; lia|].
    rewrite (pop_to_at EBX) //; [unfold room; lia|]. rewrite (pop_to_at EBP) //; [unfold room; lia|].
    rewrite /ret drop4_at; [unfold room; lia|]. rewrite !mm_setr Ex /word /top. rewrite r_esp_setr !mm_setr Ex -!Z.add_assoc.
    rewrite Z.mul_0_r Z.add_0_r. reflexivity. }
  assert (∀ b, ¬ (r_esp m - 16 ≤ b < r_esp m) → ¬ (old ≤ b < old + 4) → byte me' b = byte (mm m) b) as Hb.
  { intros b H1 H2. rewrite /me' byte_store32_out //. by apply Hout. }
  assert (mm m' = me') as -> by by rewrite Em; destruct x. split_and!.
  - rewrite -(context_at_ext (mm m) me' new); [|by rewrite Em; destruct x]. intros b Hbn. apply Hb; lia.
  - by rewrite Em; destruct x.
  - rewrite /me' load32_store32 u32_id //. lia.
  - rewrite -Hctx. apply context_at_ext. intros b Hbn. rewrite /me' byte_store32_out //. lia.
  - exact Hb.
Qed.

(** C25: swtch() resumes the other context, and this one can be resumed. It saves the
    callee-saved registers and the return address as a struct context whose address goes
    to [*old], and continues with the registers, stack and return address of the new
    context. A later swtch() to the saved context, from any stack, returns to the caller
    of the first one with its callee-saved registers, on its stack. *)
Theorem swtch_roundtrip m old new m2 old2 :
  called m old new →
  let m1 := run cfun swtch m in
  (context_of m1 (eip m1) = context_at (mm m) new ∧ r_esp m1 = new + 20 ∧ load32 (mm m1) old = r_esp m - 16) ∧
  (called m2 old2 (r_esp m - 16) →
   (∀ b, r_esp m - 16 ≤ b < r_esp m + 4 → byte (mm m2) b = byte (mm m1) b) →
   let m3 := run cfun swtch m2 in
   context_of m3 (eip m3) = context_of m (load32 (mm m) (r_esp m)) ∧ r_esp m3 = r_esp m + 4 ∧
   ∀ b, ¬ (r_esp m2 - 16 ≤ b < r_esp m2) → ¬ (old2 ≤ b < old2 + 4) → byte (mm m3) b = byte (mm m2) b).
Proof.
  intros HC m1. destruct (swtch_Ok m old new HC) as (E1 & E2 & E3 & E4 & _). fold m1 in E1, E2, E3, E4. split; [done|].
  intros HC2 Hkeep m3. destruct (swtch_Ok m2 old2 _ HC2) as (F1 & F2 & _ & _ & F5). fold m3 in F1, F2, F5. split_and!; [|lia|done].
  rewrite F1 -E4. apply context_at_ext. intros b Hb. apply Hkeep. lia.
Qed.

End swtch.

(** From one stack to another and back. *)
Definition demo_stack (sp old new : Z) : mem := store32 (store32 (store32 ∅ sp 0x80104000) (sp + 4) old) (sp + 8) new.

Definition demo_from : mach := Mach 0 0 0 3 0x8000 4 5 6 8 16 16 24 24 16 0x80103000 0 (demo_stack 0x8000 0x9000 0xa000).
Definition demo_back : mach := Mach 0 0 0 7 0xb000 7 7 7 8 16 16 24 24 16 0x80103000 0
  (store32 (store32 (mm (run (λ _ m, m) swtch demo_from)) 0xb004 0x9004) 0xb008 0x7ff0).

Lemma swtch_roundtrip_witness :
  let m3 := run (λ _ m, m) swtch demo_back in
  context_of m3 (eip m3) = Context 6 5 3 4 0x80104000 ∧ r_esp m3 = 0x8004.
Proof.
  destruct (swtch_roundtrip (λ _ m, m) demo_from 0x9000 0xa000 demo_back 0x9004) as [_ H].
  { split; [by vm_compute|by vm_compute|by vm_compute|by split|cbn; lia|by decompose_Forall; vm_compute]. }
  destruct H as (H1 & H2 & _).
  - split; [by vm_compute|by vm_compute|by vm_compute|by split|cbn; lia|by decompose_Forall; vm_compute].
  - intros b Hb. cbn [r_esp demo_from] in Hb. unfold demo_back. cbn [mm].
    rewrite byte_store32_out; [lia|]. rewrite byte_store32_out; [lia|]. reflexivity.
  - assert (context_of demo_from (load32 (mm demo_from) (r_esp demo_from)) = Context 6 5 3 4 0x80104000) as E by by vm_compute.
    cbv zeta. rewrite H1 H2. split; [exact E|reflexivity].
Defined.
