(* ===== verification/State.v ===== *)
(** * The kernel's data: structs and global variables

    One Record per C struct and one Inductive per C enum, and [kstate], the
    kernel's data segment as seen by one CPU: the CPU's own interrupt state and
    current process, the spin locks and sleep locks (kept in tables indexed by
    the lock's owner, since a lock is identified by its address), the process
    table, physical memory and the page allocator, the buffer cache and the
    disk behind it, the log, the inode cache, the open-file table, the pipes
    and the clock. Pointers into a static table are indices into it; addresses
    of pages are kernel virtual addresses. *)

From S2P Require Import Prelude Param.

(** ** Identities of locks and sleep channels *)

(** The owner of a sleep lock: a buffer of [bcache.buf] or an inode of
    [icache.inode]. *)
Inductive slid : Set :=
| SlBuf (i : nat)
| SlInode (i : nat).

(** The spin locks of the kernel: the static ones, the one in each pipe and the
    one protecting each sleep lock. *)
Inductive lockid : Set :=
| LkPtable | LkKmem | LkBcache | LkLog | LkIcache | LkFtable
| LkTicks | LkCons | LkIde
| LkPipe (a : Z)
| LkSleep (sl : slid).

(** The addresses processes sleep on. *)
Inductive chan : Set :=
| ChSleep (sl : slid)      (* a struct sleeplock *)
| ChLog                    (* &log *)
| ChBuf (i : nat)          (* a struct buf *)
| ChPipeR (a : Z)          (* &p->nread *)
| ChPipeW (a : Z)          (* &p->nwrite *)
| ChTicks                  (* &ticks *)
| ChProc (i : nat)         (* a struct proc *)
| ChInput.                 (* &input.r *)

#[global] Instance slid_eq_dec : EqDecision slid.
Proof. solve_decision. Defined.
#[global] Instance lockid_eq_dec : EqDecision lockid.
Proof. solve_decision. Defined.
#[global] Instance chan_eq_dec : EqDecision chan.
Proof. solve_decision. Defined.

#[global] Instance slid_countable : Countable slid.
Proof.
  refine (inj_countable'
    (λ x, match x with SlBuf i => inl i | SlInode i => inr i end)
    (λ x, match x with inl i => SlBuf i | inr i => SlInode i end) _).
  by intros [].
Defined.

#[global] Instance lockid_countable : Countable lockid.
Proof.
  refine (inj_countable'
    (λ x, match x with
          | LkPtable => inl 0%nat | LkKmem => inl 1%nat | LkBcache => inl 2%nat
          | LkLog => inl 3%nat | LkIcache => inl 4%nat | LkFtable => inl 5%nat
          | LkTicks => inl 6%nat | LkCons => inl 7%nat | LkIde => inl 8%nat
          | LkPipe a => inr (inl a) | LkSleep sl => inr (inr sl) end)
    (λ x, match x with
          | inl 0%nat => LkPtable | inl 1%nat => LkKmem | inl 2%nat => LkBcache
          | inl 3%nat => LkLog | inl 4%nat => LkIcache | inl 5%nat => LkFtable
          | inl 6%nat => LkTicks | inl 7%nat => LkCons | inl _ => LkIde
          | inr (inl a) => LkPipe a | inr (inr sl) => LkSleep sl end) _).
  by intros [].
Defined.

(** ** Locks and CPUs *)

(** struct spinlock, without the name and the call stack kept for debugging. *)
Record spinlock := Spinlock { locked : bool; lk_cpu : option nat }.

Definition unlocked : spinlock := Spinlock false None.

(** struct sleeplock. *)
Record sleeplock := Sleeplock { sl_locked : bool; sl_pid : Z }.

(** struct cpu: the interrupt-enable flag of eflags and the pushcli nesting. *)
Record cpu := Cpu {
  cpu_id : nat;
  ncli : Z;
  intena : bool;
  eflags_IF : bool
}.

(** ** Processes *)

Inductive procstate := UNUSED | EMBRYO | SLEEPING | RUNNABLE | RUNNING | ZOMBIE.

#[global] Instance procstate_eq_dec : EqDecision procstate.
Proof. solve_decision. Defined.

(** struct trapframe (x86.h). *)
Record trapframe := Trapframe {
  tf_edi : Z; tf_esi : Z; tf_ebp : Z; tf_oesp : Z;
  tf_ebx : Z; tf_edx : Z; tf_ecx : Z; tf_eax : Z;
  tf_gs : Z; tf_fs : Z; tf_es : Z; tf_ds : Z;
  tf_trapno : Z; tf_err : Z; tf_eip : Z; tf_cs : Z;
  tf_eflags : Z; tf_esp : Z; tf_ss : Z
}.

Definition zero_tf : trapframe := Trapframe 0 0 0 0 0 0 0 0 0 0 0 0 0 0 0 0 0 0 0.

(** struct context: where swtch() resumes the kernel thread. A fresh process
    starts in forkret(). *)
Inductive context := CtxForkret | CtxSched.

(** struct proc. The trap frame is held by value; [p_kstack] is the page it
    lives in. *)
Record proc := Proc {
  p_sz : Z;
  p_pgdir : Z;
  p_kstack : Z;
  p_state : procstate;
  p_pid : Z;
  p_parent : option nat;
  p_tf : trapframe;
  p_context : context;
  p_chan : option chan;
  p_killed : bool;
  p_ofile : list (option nat);
  p_cwd : option nat;
  p_name : list Z;
  p_pending : list Z;
  p_sighandlers : list Z;
  p_procHandlingSigNow : Z;
  p_tfToRestore : Z;
  p_sigretAdd : Z;
  p_alarm_ticks_num : Z
}.

(** A process-table slot as the zeroed data segment has it. *)
Definition zero_proc : proc :=
  Proc 0 0 0 UNUSED 0 None zero_tf CtxSched None false
       (replicate NOFILE None) None [] (replicate NUMSIG 0) (replicate NUMSIG 0)
       0 0 0 0.

(** ** Buffers, log, inodes *)

(** struct buf; [prev] and [next] are indices into [bcache], where index [NBUF]
    is [bcache.head]. *)
Record buf := Buf {
  b_flags : Z;
  b_dev : Z;
  b_blockno : Z;
  b_refcnt : Z;
  b_prev : nat;
  b_next : nat;
  b_data : list Z
}.

(** struct logheader and struct log. *)
Record logheader := Logheader { lh_n : Z; lh_block : list Z }.

Record log := Log {
  log_start : Z;
  log_size : Z;
  log_outstanding : Z;
  log_committing : bool;
  log_dev : Z;
  log_lh : logheader
}.

(** struct superblock (fs.h). *)
Record superblock := Superblock {
  sb_size : Z; sb_nblocks : Z; sb_ninodes : Z; sb_nlog : Z;
  sb_logstart : Z; sb_inodestart : Z; sb_bmapstart : Z
}.

(** struct inode (file.h). *)
Record inode := Inode {
  i_dev : Z; i_inum : Z; i_ref : Z; i_flags : Z;
  i_type : Z; i_major : Z; i_minor : Z; i_nlink : Z; i_size : Z;
  i_addrs : list Z
}.

(** ** Open files and pipes *)

Inductive ftype := FD_NONE | FD_PIPE | FD_INODE.

#[global] Instance ftype_eq_dec : EqDecision ftype.
Proof. solve_decision. Defined.

(** struct file (file.h). *)
Record file := File {
  f_type : ftype;
  f_ref : Z;
  f_readable : bool;
  f_writable : bool;
  f_pipe : Z;
  f_ip : option nat;
  f_off : Z
}.

(** struct pipe (pipe.c), without its lock. *)
Record pipe := Pipe {
  pi_data : list Z;
  nread : Z;
  nwrite : Z;
  readopen : bool;
  writeopen : bool
}.

(** ** The whole state *)

(** Process table: [ptable.proc], [nextpid], [initproc]. *)
Record ptable_st := Ptable {
  pt_proc : list proc;
  pt_nextpid : Z;
  pt_initproc : option nat
}.

(** Memory: the bytes of kernel-mapped physical memory, by kernel virtual
    address; the head of the allocator's free list and its [use_lock] flag. *)
Record mem_st := Mem {
  mem_bytes : gmap Z Z;
  km_freelist : Z;
  km_use_lock : bool
}.

(** Buffer cache ([NBUF] buffers and the list head) and disk. [dk_trace] is the
    history of completed block writes, oldest first; the code never reads it. *)
Record bio_st := Bio {
  bc_bufs : list buf;
  dk_blocks : gmap Z (list Z);
  dk_size : Z;
  dk_trace : list (Z * list Z)
}.

Record fs_st := Fs {
  fs_sb : superblock;
  fs_icache : list inode
}.

Record file_st := Files {
  ft_file : list file;
  ft_pipes : gmap Z pipe
}.

(** The console: [cons.locking], [panicked] and the struct [input] of console.c,
    the CGA text memory and cursor, whether there is a serial port and the
    characters sent to it, oldest first, and the keyboard's [shift]. *)
Record cons_st := Cons {
  cons_locking : bool;
  panicked : bool;
  input_buf : list Z;
  input_r : Z;
  input_w : Z;
  input_e : Z;
  crt : list Z;
  crt_pos : Z;
  uart : bool;
  uart_out : list Z;
  kbd_shift : Z
}.

(** The registers switchuvm() and switchkvm() load, the page-table base and the
    kernel stack pointer in the task state segment, the scheduler's page table
    [kpgdir], and the devices. *)
Record hw_st := Hw {
  hw_cr3 : Z; hw_esp0 : Z; kpgdir : Z;
  hw_cons : cons_st
}.

Record kstate := KState {
  k_cpu : cpu;
  k_proc : option nat;
  k_locks : gmap lockid spinlock;
  k_slocks : gmap slid sleeplock;
  k_pt : ptable_st;
  k_mem : mem_st;
  k_bio : bio_st;
  k_log : log;
  k_fs : fs_st;
  k_files : file_st;
  k_ticks : Z;
  k_hw : hw_st
}.

Definition set_cpu (v : cpu) (s : kstate) : kstate :=
  KState v (k_proc s) (k_locks s) (k_slocks s) (k_pt s) (k_mem s) (k_bio s)
         (k_log s) (k_fs s) (k_files s) (k_ticks s) (k_hw s).
Definition set_proc (v : option nat) (s : kstate) : kstate :=
  KState (k_cpu s) v (k_locks s) (k_slocks s) (k_pt s) (k_mem s) (k_bio s)
         (k_log s) (k_fs s) (k_files s) (k_ticks s) (k_hw s).
Definition set_locks (v : gmap lockid spinlock) (s : kstate) : kstate :=
  KState (k_cpu s) (k_proc s) v (k_slocks s) (k_pt s) (k_mem s) (k_bio s)
         (k_log s) (k_fs s) (k_files s) (k_ticks s) (k_hw s).
Definition set_slocks (v : gmap slid sleeplock) (s : kstate) : kstate :=
  KState (k_cpu s) (k_proc s) (k_locks s) v (k_pt s) (k_mem s) (k_bio s)
         (k_log s) (k_fs s) (k_files s) (k_ticks s) (k_hw s).
Definition set_pt (v : ptable_st) (s : kstate) : kstate :=
  KState (k_cpu s) (k_proc s) (k_locks s) (k_slocks s) v (k_mem s) (k_bio s)
         (k_log s) (k_fs s) (k_files s) (k_ticks s) (k_hw s).
Definition set_mem (v : mem_st) (s : kstate) : kstate :=
  KState (k_cpu s) (k_proc s) (k_locks s) (k_slocks s) (k_pt s) v (k_bio s)
         (k_log s) (k_fs s) (k_files s) (k_ticks s) (k_hw s).
Definition set_bio (v : bio_st) (s : kstate) : kstate :=
  KState (k_cpu s) (k_proc s) (k_locks s) (k_slocks s) (k_pt s) (k_mem s) v
         (k_log s) (k_fs s) (k_files s) (k_ticks s) (k_hw s).
Definition set_log (v : log) (s : kstate) : kstate :=
  KState (k_cpu s) (k_proc s) (k_locks s) (k_slocks s) (k_pt s) (k_mem s) (k_bio s)
         v (k_fs s) (k_files s) (k_ticks s) (k_hw s).
Definition set_fs (v : fs_st) (s : kstate) : kstate :=
  KState (k_cpu s) (k_proc s) (k_locks s) (k_slocks s) (k_pt s) (k_mem s) (k_bio s)
         (k_log s) v (k_files s) (k_ticks s) (k_hw s).
Definition set_files (v : file_st) (s : kstate) : kstate :=
  KState (k_cpu s) (k_proc s) (k_locks s) (k_slocks s) (k_pt s) (k_mem s) (k_bio s)
         (k_log s) (k_fs s) v (k_ticks s) (k_hw s).
Definition set_ticks (v : Z) (s : kstate) : kstate :=
  KState (k_cpu s) (k_proc s) (k_locks s) (k_slocks s) (k_pt s) (k_mem s) (k_bio s)
         (k_log s) (k_fs s) (k_files s) v (k_hw s).
Definition set_hw (v : hw_st) (s : kstate) : kstate :=
  KState (k_cpu s) (k_proc s) (k_locks s) (k_slocks s) (k_pt s) (k_mem s) (k_bio s)
         (k_log s) (k_fs s) (k_files s) (k_ticks s) v.

(** Why a kernel thread switches to the scheduler, with the local variables it
    needs when it is resumed: sleep(chan, lk) and sched()'s saved [intena]. *)
Inductive switch :=
| SwSleep (ch : chan) (lk : lockid) (intena : bool)
| SwYield (intena : bool)
| SwExit.

(** Kernel computations. *)
Abbreviation K := (M switch kstate).

(** Setters change one field only, so two states built by setters are equal as
    soon as their fields are. *)
Lemma kstate_eq s s' :
  k_cpu s = k_cpu s' → k_proc s = k_proc s' → k_locks s = k_locks s' →
  k_slocks s = k_slocks s' → k_pt s = k_pt s' → k_mem s = k_mem s' →
  k_bio s = k_bio s' → k_log s = k_log s' → k_fs s = k_fs s' →
  k_files s = k_files s' → k_ticks s = k_ticks s' → k_hw s = k_hw s' → s = s'.
Proof. destruct s, s'; simpl; congruence. Qed.

(** The state after booting with zeroed data. *)
Definition boot_state : kstate :=
  KState (Cpu 0 0 false false) None ∅ ∅
         (Ptable (replicate NPROC zero_proc) 1 None)
         (Mem ∅ 0 false)
         (Bio (replicate (S NBUF) (Buf 0 0 0 0 0 0 (replicate 512 0))) ∅ 0 [])
         (Log 0 0 0 false 0 (Logheader 0 (replicate 30 0)))
         (Fs (Superblock 0 0 0 0 0 0 0)
             (replicate NINODE (Inode 0 0 0 0 0 0 0 0 0 (replicate 13 0))))
         (Files (replicate NFILE (File FD_NONE 0 false false 0 None 0)) ∅)
         0 (Hw 0 0 0 (Cons false false (replicate 128 0) 0 0 0 (replicate 2000 0) 0 false [] 0)).
