(* ===== verification/Spinlock.v ===== *)
(** * Spin locks: spinlock.c

    The counted interrupt disabling of pushcli()/popcli(), acquire() and
    release() as one CPU executes them ([Spinlock] operations on [kstate]), and
    the same code at the grain of its memory accesses, interleaved over any
    number of CPUs ([Interleaved]), where mutual exclusion is proved. *)

From S2P Require Import Prelude Param State.

(** ** The operations *)

Definition lock_of (s : kstate) (lk : lockid) : spinlock :=
  default unlocked (k_locks s !! lk).

Definition initlock (lk : lockid) : K unit :=
  modify (λ s, set_locks (delete lk (k_locks s)) s).

Definition push_cpu (c : cpu) : cpu :=
  Cpu (cpu_id c) (ncli c + 1)
      (if ncli c =? 0 then eflags_IF c else intena c) false.

Definition pushcli : K unit :=
  modify (λ s, set_cpu (push_cpu (k_cpu s)) s).

Definition pop_cpu (c : cpu) : cpu :=
  Cpu (cpu_id c) (ncli c - 1) (intena c)
      (if (ncli c - 1 =? 0) && intena c then true else eflags_IF c).

Definition popcli : K unit :=
  c ← gets k_cpu;
  if eflags_IF c then panic "popcli - interruptible"
  else if ncli c - 1 <? 0 then panic "popcli"
  else modify (λ s, set_cpu (pop_cpu (k_cpu s)) s).

(** [lock->locked && lock->cpu == cpu] *)
Definition holding_lock (l : spinlock) (c : nat) : bool :=
  locked l && bool_decide (lk_cpu l = Some c).

Definition holding (lk : lockid) : K bool :=
  gets (λ s, holding_lock (lock_of s lk) (cpu_id (k_cpu s))).

Definition acquire (lk : lockid) : K unit :=
  pushcli;;
  h ← holding lk;
  if h then panic "acquire" else
  l ← gets (λ s, lock_of s lk);
  if locked l then spin else
  modify (λ s, set_locks (<[lk := Spinlock true (Some (cpu_id (k_cpu s)))]> (k_locks s)) s).

Definition release (lk : lockid) : K unit :=
  h ← holding lk;
  if negb h then panic "release" else
  modify (λ s, set_locks (delete lk (k_locks s)) s);;
  popcli.

(** getcallerpcs(v, pcs): follow the chain of saved frame pointers; [ld] reads
    a word of memory. *)
Fixpoint callerpcs (ld : Z → Z) (n : nat) (ebp : Z) : list Z :=
  match n with
  | O => []
  | S n' =>
      if (ebp =? 0) || (ebp <? KERNBASE) || (ebp =? 0xffffffff)
      then replicate n 0
      else ld (u32 (ebp + 4)) :: callerpcs ld n' (ld ebp)
  end.

Definition getcallerpcs (ld : Z → Z) (v : Z) : list Z :=
  callerpcs ld 10 (u32 (v - 8)).

(** ** Critical sections *)

(** A CPU whose interrupts are off while it holds locks. *)
Definition cpu_ok (c : cpu) : Prop :=
  0 ≤ ncli c ∧ (0 < ncli c → eflags_IF c = false).

(** The state inside a critical section of [lk] entered from [s], and the one
    after it: only the stale [intena] may have changed. *)
Definition enter (lk : lockid) (s : kstate) : kstate :=
  set_locks (<[lk := Spinlock true (Some (cpu_id (k_cpu s)))]> (k_locks s))
            (set_cpu (push_cpu (k_cpu s)) s).

Definition crit_cpu (c : cpu) : cpu :=
  Cpu (cpu_id c) (ncli c)
      (if ncli c =? 0 then eflags_IF c else intena c) (eflags_IF c).

Definition crit (s : kstate) : kstate := set_cpu (crit_cpu (k_cpu s)) s.

(** A sequence of pushcli() and popcli() calls. *)
Inductive cli_call := Push | Pop.

Fixpoint run_cli (cs : list cli_call) : K unit :=
  match cs with
  | [] => mret tt
  | Push :: cs' => pushcli;; run_cli cs'
  | Pop :: cs' => popcli;; run_cli cs'
  end.

(** Nesting depth reached by a sequence; [None] when a popcli() is unmatched. *)
Fixpoint cli_depth (d : nat) (cs : list cli_call) : option nat :=
  match cs with
  | [] => Some d
  | Push :: cs' => cli_depth (S d) cs'
  | Pop :: cs' => match d with O => None | S d' => cli_depth d' cs' end
  end.

(** ** Lemmas *)

Lemma push_cpu_ok c : cpu_ok c → cpu_ok (push_cpu c).
Proof. rewrite /cpu_ok /=. intros []. split; [lia|done]. Qed.

Lemma crit_cpu_ok c : cpu_ok c → cpu_ok (crit_cpu c).
Proof. done. Qed.

Lemma crit_cpu_idemp c : crit_cpu (crit_cpu c) = crit_cpu c.
Proof. rewrite /crit_cpu /=. by destruct (ncli c =? 0). Qed.

Lemma crit_idemp s : crit (crit s) = crit s.
Proof. rewrite /crit /= crit_cpu_idemp //. Qed.

(** Interrupts are restored when the section ends. *)
Lemma pop_push_cpu c : cpu_ok c → pop_cpu (push_cpu c) = crit_cpu c.
Proof.
  intros [H0 H1]. rewrite /pop_cpu /push_cpu /crit_cpu /=. f_equal; [lia|].
  replace (ncli c + 1 - 1) with (ncli c) by lia.
  destruct (Z.eqb_spec (ncli c) 0); simpl.
  - by destruct (eflags_IF c).
  - rewrite H1 //. lia.
Qed.

Lemma acquire_Ok lk s : k_locks s !! lk = None → acquire lk s = Ok tt (enter lk s).
Proof.
  intros H. rewrite /acquire /pushcli bind_modify /holding bind_gets /=.
  rewrite /lock_of /= H /= bind_gets /= H /=. done.
Qed.

Lemma release_entered lk s s' :
  k_locks s !! lk = None → cpu_ok (k_cpu s) →
  k_cpu s' = push_cpu (k_cpu s) →
  k_locks s' = <[lk := Spinlock true (Some (cpu_id (k_cpu s)))]> (k_locks s) →
  release lk s' = Ok tt (set_cpu (crit_cpu (k_cpu s)) (set_locks (k_locks s) s')).
Proof.
  intros Hnone Hok Hc Hl.
  rewrite /release /holding bind_gets /lock_of Hl lookup_insert_eq /= Hc.
  rewrite /holding_lock /= bool_decide_eq_true_2 //= bind_modify.
  rewrite Hl delete_insert_id //. rewrite /popcli bind_gets /= Hc /=.
  destruct Hok as [H0 H1].
  replace (ncli (k_cpu s) + 1 - 1 <? 0) with false by lia.
  rewrite /modify /= Hc pop_push_cpu //.
Qed.

Lemma bind_acquire {B} lk (f : unit → K B) s :
  k_locks s !! lk = None → (acquire lk ≫= f) s = f tt (enter lk s).
Proof. intros. by rewrite (bind_Ok _ _ _ _ _ (acquire_Ok _ _ _)). Qed.

Lemma bind_release {B} lk (f : unit → K B) s s' :
  k_locks s !! lk = None → cpu_ok (k_cpu s) →
  k_cpu s' = push_cpu (k_cpu s) →
  k_locks s' = <[lk := Spinlock true (Some (cpu_id (k_cpu s)))]> (k_locks s) →
  (release lk ≫= f) s' = f tt (set_cpu (crit_cpu (k_cpu s)) (set_locks (k_locks s) s')).
Proof. intros. by rewrite (bind_Ok _ _ _ _ _ (release_entered _ s _ _ _ _ _)). Qed.

Lemma release_enter lk s :
  k_locks s !! lk = None → cpu_ok (k_cpu s) → release lk (enter lk s) = Ok tt (crit s).
Proof. intros. rewrite (release_entered lk s) //. Qed.

(** ** pushcli and popcli match *)

(** A CPU at nesting depth [d] that had interrupt flag [f] at depth zero. *)
Definition cli_inv (d : nat) (f : bool) (c : cpu) : Prop :=
  ncli c = Z.of_nat d ∧
  eflags_IF c = (if d is O then f else false) ∧
  (d ≠ 0%nat → intena c = f).

Lemma push_cli_inv d f c : cli_inv d f c → cli_inv (S d) f (push_cpu c).
Proof.
  intros (Hn & Hf & Hi). rewrite /cli_inv /push_cpu /= Hn.
  split_and!; [lia|done|intros _]. destruct d; simpl; [done|by apply Hi].
Qed.

Lemma pop_cli_inv d f c : cli_inv (S d) f c → cli_inv d f (pop_cpu c).
Proof.
  intros (Hn & Hf & Hi). rewrite /cli_inv /pop_cpu /= Hn Hf Hi //.
  replace (Z.of_nat (S d) - 1) with (Z.of_nat d) by lia.
  split_and!; [lia| |done]. destruct d; [by destruct f|done].
Qed.

Lemma popcli_Ok d f s :
  cli_inv (S d) f (k_cpu s) → popcli s = Ok tt (set_cpu (pop_cpu (k_cpu s)) s).
Proof.
  intros (Hn & Hf & _). rewrite /popcli bind_gets Hf.
  by replace (ncli (k_cpu s) - 1 <? 0) with false by lia.
Qed.

Lemma run_cli_inv cs d f s :
  cli_inv d f (k_cpu s) →
  match cli_depth d cs with
  | Some d' => ∃ c', run_cli cs s = Ok tt (set_cpu c' s) ∧ cli_inv d' f c' ∧
                     cpu_id c' = cpu_id (k_cpu s)
  | None => ∃ msg, run_cli cs s = Panic msg
  end.
Proof.
  revert d s. induction cs as [|[] cs IH]; intros d s Hinv; simpl.
  - exists (k_cpu s). split_and!; [by destruct s|done|done].
  - rewrite /pushcli bind_modify.
    specialize (IH (S d) (set_cpu (push_cpu (k_cpu s)) s) (push_cli_inv _ _ _ Hinv)).
    by destruct (cli_depth (S d) cs).
  - destruct d as [|d].
    + destruct Hinv as (Hn & Hf & _).
      rewrite /popcli /mbind /M_bind /= Hn. destruct (eflags_IF (k_cpu s)); eauto.
    + rewrite (bind_Ok _ _ _ _ _ (popcli_Ok _ _ _ Hinv)).
      specialize (IH d (set_cpu (pop_cpu (k_cpu s)) s) (pop_cli_inv _ _ _ Hinv)).
      by destruct (cli_depth d cs).
Qed.

(** ** Interleaved execution

    The memory accesses of acquire() and release() on one lock, executed by
    any number of CPUs in any order. [l_pc c] is where CPU [c] is in the code. *)

Module Interleaved.

Inductive pc :=
| Idle          (* outside acquire/release, not holding the lock *)
| AHold1        (* acquire: after pushcli, about to read lk->locked in holding *)
| AHold2        (* acquire: about to read lk->cpu in holding *)
| AXchg         (* acquire: spinning on xchg *)
| ASetCpu       (* acquire: xchg returned 0, about to set lk->cpu *)
| Crit          (* acquire has returned *)
| RHold1        (* release: about to read lk->locked in holding *)
| RHold2        (* release: about to read lk->cpu in holding *)
| RClear        (* release: about to clear lk->cpu *)
| RStore        (* release: about to store 0 in lk->locked *)
| RPop          (* release: about to call popcli *)
| Panicked.

Record sys := Sys {
  l_locked : bool;
  l_cpu : option nat;
  l_pc : nat → pc;
  l_hw : nat → cpu
}.

Definition goto (c : nat) (p : pc) (st : sys) : sys :=
  Sys (l_locked st) (l_cpu st) (<[c := p]> (l_pc st)) (l_hw st).
Definition set_hw (c : nat) (h : cpu) (st : sys) : sys :=
  Sys (l_locked st) (l_cpu st) (l_pc st) (<[c := h]> (l_hw st)).
Definition set_lcpu (o : option nat) (st : sys) : sys :=
  Sys (l_locked st) o (l_pc st) (l_hw st).
Definition set_locked (b : bool) (st : sys) : sys :=
  Sys b (l_cpu st) (l_pc st) (l_hw st).

Inductive lock_step (c : nat) (st : sys) : sys → Prop :=
| step_other h :
    (* code between critical sections runs on [c]; it leaves balanced pushclis *)
    l_pc st c = Idle → cpu_ok h → lock_step c st (set_hw c h st)
| step_acquire :
    l_pc st c = Idle →
    lock_step c st (goto c AHold1 (set_hw c (push_cpu (l_hw st c)) st))
| step_ahold1 :
    l_pc st c = AHold1 →
    lock_step c st (goto c (if l_locked st then AHold2 else AXchg) st)
| step_ahold2 :
    l_pc st c = AHold2 →
    lock_step c st (goto c (if bool_decide (l_cpu st = Some c) then Panicked else AXchg) st)
| step_xchg :
    l_pc st c = AXchg →
    lock_step c st (goto c (if l_locked st then AXchg else ASetCpu) (set_locked true st))
| step_setcpu :
    l_pc st c = ASetCpu → lock_step c st (goto c Crit (set_lcpu (Some c) st))
| step_release :
    l_pc st c = Crit → lock_step c st (goto c RHold1 st)
| step_rhold1 :
    l_pc st c = RHold1 →
    lock_step c st (goto c (if l_locked st then RHold2 else Panicked) st)
| step_rhold2 :
    l_pc st c = RHold2 →
    lock_step c st (goto c (if bool_decide (l_cpu st = Some c) then RClear else Panicked) st)
| step_rclear :
    l_pc st c = RClear → lock_step c st (goto c RStore (set_lcpu None st))
| step_rstore :
    l_pc st c = RStore → lock_step c st (goto c RPop (set_locked false st))
| step_rpop :
    l_pc st c = RPop →
    lock_step c st
      (if eflags_IF (l_hw st c) || (ncli (l_hw st c) - 1 <? 0) then goto c Panicked st
       else goto c Idle (set_hw c (pop_cpu (l_hw st c)) st)).

Definition any_step (st st' : sys) : Prop := ∃ c, lock_step c st st'.

Definition init (st : sys) : Prop :=
  l_locked st = false ∧ l_cpu st = None ∧
  ∀ c, l_pc st c = Idle ∧ cpu_ok (l_hw st c).

(** The CPUs between the successful xchg and the store that frees the lock. *)
Definition owns (p : pc) : bool :=
  match p with ASetCpu | Crit | RHold1 | RHold2 | RClear | RStore => true | _ => false end.
Definition named (p : pc) : bool :=
  match p with Crit | RHold1 | RHold2 | RClear => true | _ => false end.

Record inv (st : sys) : Prop := {
  inv_owner c : owns (l_pc st c) = true → l_locked st = true;
  inv_unique c c' : owns (l_pc st c) = true → owns (l_pc st c') = true → c = c';
  inv_named c : named (l_pc st c) = true ↔ l_cpu st = Some c;
  inv_free : l_locked st = true → ∃ c, owns (l_pc st c) = true;
  inv_hw c : cpu_ok (l_hw st c) ∧ (l_pc st c ≠ Idle → 0 < ncli (l_hw st c));
  inv_nopanic c : l_pc st c ≠ Panicked
}.

(** A step of [c] that keeps the lock word, [lk->cpu] and who owns the lock. *)
Lemma inv_local c st st' :
  inv st → l_locked st' = l_locked st → l_cpu st' = l_cpu st →
  (∀ c', c ≠ c' → l_pc st' c' = l_pc st c' ∧ l_hw st' c' = l_hw st c') →
  owns (l_pc st' c) = owns (l_pc st c) → named (l_pc st' c) = named (l_pc st c) →
  l_pc st' c ≠ Panicked →
  cpu_ok (l_hw st' c) → (l_pc st' c ≠ Idle → 0 < ncli (l_hw st' c)) → inv st'.
Proof.
  intros [Ho Hu Hn Hf Hh Hp] El Ec Eoth Eo En Hnp Hok Hcli.
  assert (∀ c', owns (l_pc st' c') = owns (l_pc st c') ∧
                named (l_pc st' c') = named (l_pc st c')) as E.
  { intros c'. destruct (decide (c = c')) as [<-|Hne]; [done|].
    by destruct (Eoth c' Hne) as [-> _]. }
  split.
  - intros c'. rewrite (proj1 (E c')) El. apply Ho.
  - intros c1 c2. rewrite (proj1 (E c1)) (proj1 (E c2)). apply Hu.
  - intros c'. rewrite (proj2 (E c')) Ec. apply Hn.
  - rewrite El. intros [c' Hc']%Hf. exists c'. by rewrite (proj1 (E c')).
  - intros c'. destruct (decide (c = c')) as [<-|Hne]; [done|].
    destruct (Eoth c' Hne) as [-> ->]. apply Hh.
  - intros c'. destruct (decide (c = c')) as [<-|Hne]; [done|].
    destruct (Eoth c' Hne) as [-> _]. apply Hp.
Qed.

(** A step of [c], the only CPU that owns the lock before or after it. *)
Lemma inv_owner_step c st st' :
  inv st →
  (∀ c', c ≠ c' → owns (l_pc st c') = false) →
  (∀ c', c ≠ c' → l_pc st' c' = l_pc st c' ∧ l_hw st' c' = l_hw st c') →
  l_locked st' = owns (l_pc st' c) →
  l_cpu st' = (if named (l_pc st' c) then Some c else None) →
  l_pc st' c ≠ Panicked →
  cpu_ok (l_hw st' c) → (l_pc st' c ≠ Idle → 0 < ncli (l_hw st' c)) → inv st'.
Proof.
  intros [Ho Hu Hn Hf Hh Hp] Honly Eoth El Ec Hnp Hok Hcli.
  assert (∀ c', c ≠ c' → owns (l_pc st' c') = false ∧ named (l_pc st' c') = false) as E.
  { intros c' Hne. destruct (Eoth c' Hne) as [-> _]. specialize (Honly c' Hne).
    split; [done|]. by destruct (l_pc st c'). }
  split.
  - intros c'. destruct (decide (c = c')) as [<-|Hne]; [by rewrite El|].
    by rewrite (proj1 (E c' Hne)).
  - intros c1 c2. destruct (decide (c = c1)) as [<-|Hne1]; last by rewrite (proj1 (E c1 Hne1)).
    destruct (decide (c = c2)) as [<-|Hne2]; [done|]. by rewrite (proj1 (E c2 Hne2)).
  - intros c'. destruct (decide (c = c')) as [<-|Hne].
    + rewrite Ec. by destruct (named (l_pc st' c)).
    + rewrite (proj2 (E c' Hne)) Ec. split; [done|]. destruct (named _); naive_solver.
  - rewrite El. eauto.
  - intros c'. destruct (decide (c = c')) as [<-|Hne]; [done|].
    destruct (Eoth c' Hne) as [-> ->]. apply Hh.
  - intros c'. destruct (decide (c = c')) as [<-|Hne]; [done|].
    destruct (Eoth c' Hne) as [-> _]. apply Hp.
Qed.

(** Discharge the side conditions of these lemmas for a step of [c] at [E]. *)
Ltac side_conditions E :=
  simpl; rewrite ?fn_lookup_insert ?E //;
  try (intros ? ?; by rewrite ?fn_lookup_insert_ne).

Lemma inv_step c st st' : inv st → lock_step c st st' → inv st'.
Proof.
  intros Hinv Hstep. pose proof Hinv as [Ho Hu Hn Hf Hh Hp].
  destruct (Hh c) as [Hok Hcli].
  assert (owns (l_pc st c) = true → ∀ c', c ≠ c' → owns (l_pc st c') = false) as Hsole.
  { intros Hc c' Hne. destruct (owns (l_pc st c')) eqn:Hc'; [|done].
    by destruct Hne; apply Hu. }
  destruct Hstep as [h E Hh'|E|E|E|E|E|E|E|E|E|E|E]; rewrite E in Hcli Hsole.
  - apply (inv_local c st); side_conditions E.
  - apply (inv_local c st); side_conditions E; [by apply push_cpu_ok|].
    intros _. simpl. destruct Hok. lia.
  - apply (inv_local c st); side_conditions E; destruct (l_locked st); auto.
  - assert (l_cpu st ≠ Some c) by (rewrite -Hn E //).
    rewrite bool_decide_eq_false_2 //. apply (inv_local c st); side_conditions E; auto.
  - destruct (l_locked st) eqn:El.
    { apply (inv_local c st); side_conditions E; auto. }
    assert (∀ c', owns (l_pc st c') = false) as Hno.
    { intros c'. destruct (owns (l_pc st c')) eqn:Hc'; [|done]. by apply Ho in Hc'. }
    apply (inv_owner_step c st); side_conditions E; auto.
    destruct (l_cpu st) as [c'|] eqn:Ec; [|done].
    specialize (Hno c'). pose proof (proj2 (Hn c') eq_refl). by destruct (l_pc st c').
  - apply (inv_owner_step c st); side_conditions E; auto. apply (Ho c). by rewrite E.
  - apply (inv_local c st); side_conditions E; auto.
  - rewrite (Ho c); [by rewrite E|]. apply (inv_local c st); side_conditions E; auto.
  - rewrite bool_decide_eq_true_2; [apply Hn; by rewrite E|].
    apply (inv_local c st); side_conditions E; auto.
  - apply (inv_owner_step c st); side_conditions E; auto. apply (Ho c). by rewrite E.
  - apply (inv_owner_step c st); side_conditions E; auto.
    destruct (l_cpu st) as [c'|] eqn:Ec; [|done]. pose proof (proj2 (Hn c') eq_refl) as Ec'.
    destruct (decide (c = c')) as [<-|Hne]; [by rewrite E in Ec'|].
    pose proof (Hsole eq_refl c' Hne). by destruct (l_pc st c').
  - assert (0 < ncli (l_hw st c)) by auto. destruct Hok as [Hn0 Hif].
    rewrite Hif //=. replace (ncli (l_hw st c) - 1 <? 0) with false by lia.
    apply (inv_local c st); side_conditions E. rewrite /cpu_ok /pop_cpu /=.
    rewrite Hif //. split; [lia|]. intros ?.
    by replace (ncli (l_hw st c) - 1 =? 0) with false by lia.
Qed.

Lemma inv_init st : init st → inv st.
Proof.
  intros (El & Ec & Hall). split; try (intros c'; destruct (Hall c') as [E ?]; by rewrite ?E).
  - intros c'. destruct (Hall c') as [-> _]. rewrite Ec. by split.
  - by rewrite El.
Qed.

Lemma inv_reach st st' : init st → rtc any_step st st' → inv st'.
Proof.
  intros Hi Hr. apply inv_init in Hi. induction Hr as [|st1 st2 st3 [c Hs] _ IH]; [done|].
  eauto using inv_step.
Qed.

End Interleaved.

(** ** Main properties *)

(** pushcli() and popcli() match. From a CPU holding no locks, a sequence
    of calls without an unmatched popcli() returns, changes nothing but the
    CPU's interrupt state, leaves [ncli] at the nesting depth and interrupts
    disabled exactly while the depth is positive (at depth zero they are as they
    were at the start); an unmatched popcli() panics. *)
Theorem pushcli_popcli_match (cs : list cli_call) (s : kstate) :
  ncli (k_cpu s) = 0 →
  match cli_depth 0 cs with
  | Some d => ∃ c', run_cli cs s = Ok tt (set_cpu c' s) ∧ ncli c' = Z.of_nat d ∧
                eflags_IF c' = (if d is O then eflags_IF (k_cpu s) else false)
  | None => ∃ msg, run_cli cs s = Panic msg
  end.
Proof.
  intros Hn.
  pose proof (run_cli_inv cs 0 (eflags_IF (k_cpu s)) s) as H.
  destruct (cli_depth 0 cs) as [d|].
  - destruct H as (c' & Hr & (Hn' & Hf & _) & _); [by split_and!|]. eauto.
  - apply H. by split_and!.
Qed.

Lemma pushcli_popcli_match_witness :
  ∃ c', run_cli [Push; Push; Pop] boot_state = Ok tt (set_cpu c' boot_state) ∧
        ncli c' = 1 ∧ eflags_IF c' = false.
Proof. exact (pushcli_popcli_match [Push; Push; Pop] boot_state eq_refl). Defined.

(** C5: mutual exclusion. In every state reachable by interleaving the memory
    accesses of acquire() and release() over any number of CPUs, at most one CPU
    is inside its critical section, it is the one recorded in [lk->cpu], its
    interrupts are off, and no CPU has panicked in acquire(), release() or
    popcli(). *)
Theorem spinlock_mutual_exclusion (st st' : Interleaved.sys) :
  Interleaved.init st → rtc Interleaved.any_step st st' →
  (∀ c c', Interleaved.l_pc st' c = Interleaved.Crit →
           Interleaved.l_pc st' c' = Interleaved.Crit → c = c') ∧
  (∀ c, Interleaved.l_pc st' c = Interleaved.Crit →
        Interleaved.l_locked st' = true ∧ Interleaved.l_cpu st' = Some c ∧
        eflags_IF (Interleaved.l_hw st' c) = false) ∧
  (∀ c, Interleaved.l_pc st' c ≠ Interleaved.Panicked).
Proof.
  intros Hi Hr. destruct (Interleaved.inv_reach _ _ Hi Hr) as [Ho Hu Hn Hf Hh Hp].
  split_and!; [| |done].
  - intros c c' Hc Hc'. apply Hu; by rewrite ?Hc ?Hc'.
  - intros c Hc. destruct (Hh c) as [[_ Hif] Hcli]. split_and!.
    + apply (Ho c). by rewrite Hc.
    + apply Hn. by rewrite Hc.
    + apply Hif, Hcli. by rewrite Hc.
Qed.

Lemma spinlock_mutual_exclusion_witness :
  ∃ st', rtc Interleaved.any_step
           (Interleaved.Sys false None (λ _, Interleaved.Idle) (λ c, Cpu c 0 false true)) st' ∧
    Interleaved.l_pc st' 0%nat = Interleaved.Crit ∧ Interleaved.l_locked st' = true ∧
    Interleaved.l_pc st' 1%nat = Interleaved.AXchg.
Proof.
  set (st := Interleaved.Sys false None (λ _, Interleaved.Idle) (λ c, Cpu c 0 false true)).
  eexists. assert (∀ P Q : Prop, P → (P → Q) → P ∧ Q) as Hand by tauto. apply Hand.
  - eapply rtc_l; [exists 0%nat; by apply Interleaved.step_acquire|].
    eapply rtc_l; [exists 1%nat; by apply Interleaved.step_acquire|].
    eapply rtc_l; [exists 0%nat; by apply Interleaved.step_ahold1|].
    eapply rtc_l; [exists 1%nat; by apply Interleaved.step_ahold1|].
    eapply rtc_l; [exists 0%nat; by apply Interleaved.step_xchg|].
    eapply rtc_l; [exists 1%nat; by apply Interleaved.step_xchg|].
    eapply rtc_l; [exists 0%nat; by apply Interleaved.step_setcpu|].
    apply rtc_refl.
  - intros Hr. apply (spinlock_mutual_exclusion st) in Hr as (_ & Hc & _).
    + destruct (Hc 0%nat) as (Hl & _ & _); [done|]. split; [done|]. split; [exact Hl|done].
    + split_and!; [done|done|]. intros c. split; [done|]. split; simpl; lia.
Defined.
