(* ===== verification/Console.v ===== *)
(** * Console output: console.c, uart.c

    Characters go to the serial port ([uart_out] is what was sent) and to the
    CGA text screen, whose memory and hardware cursor are [crt] and [crt_pos];
    cprintf() formats into them under [cons.lock]. *)

From S2P Require Import Prelude Param Bytes State Spinlock.

(** ** Access to the console's variables *)

Definition cons_of (s : kstate) : cons_st := hw_cons (k_hw s).

Definition set_cons (v : cons_st) (s : kstate) : kstate :=
  set_hw (Hw (hw_cr3 (k_hw s)) (hw_esp0 (k_hw s)) (kpgdir (k_hw s)) v) s.

Definition updcons (f : cons_st → cons_st) : K unit := modify (λ s, set_cons (f (cons_of s)) s).

Definition set_crt (c : list Z) (pos : Z) (x : cons_st) : cons_st :=
  Cons (cons_locking x) (panicked x) (input_buf x) (input_r x) (input_w x) (input_e x)
       c pos (uart x) (uart_out x) (kbd_shift x).
Definition set_uart_out (l : list Z) (x : cons_st) : cons_st :=
  Cons (cons_locking x) (panicked x) (input_buf x) (input_r x) (input_w x) (input_e x)
       (crt x) (crt_pos x) (uart x) l (kbd_shift x).
Definition set_uart (b : bool) (x : cons_st) : cons_st :=
  Cons (cons_locking x) (panicked x) (input_buf x) (input_r x) (input_w x) (input_e x)
       (crt x) (crt_pos x) b (uart_out x) (kbd_shift x).
Definition set_locking (b : bool) (x : cons_st) : cons_st :=
  Cons b (panicked x) (input_buf x) (input_r x) (input_w x) (input_e x)
       (crt x) (crt_pos x) (uart x) (uart_out x) (kbd_shift x).

(** The characters of a string literal. *)
Fixpoint chars (s : string) : list Z :=
  match s with
  | EmptyString => []
  | String.String a s' => Z.of_nat (Ascii.nat_of_ascii a) :: chars s'
  end.

Definition newline : Z := 10.

(** ** The serial port *)

(** uartputc(c), after the bounded wait for the transmitter. *)
Definition uartputc (c : Z) : K unit :=
  x ← gets cons_of;
  when (uart x) (updcons (λ x, set_uart_out (uart_out x ++ [u8 c]) x)).

(** uartinit(); [status] is the line status port at boot. *)
Definition uartinit (status : Z) : K unit :=
  if status =? 0xFF then mret tt else
  updcons (set_uart true);;
  for_each (chars "xv6..." ++ [newline]) uartputc.

(** ** The screen *)

Definition BACKSPACE : Z := 0x100.
Definition COLS : Z := 80.
Definition cell (c : Z) : Z := Z.lor (Z.land c 0xff) 0x0700.

(** Cursor and memory after the character is placed. *)
Definition cga_place (c pos : Z) (crt : list Z) : Z * list Z :=
  if c =? newline then (pos + (COLS - pos mod COLS), crt)
  else if c =? BACKSPACE then (if pos >? 0 then pos - 1 else pos, crt)
  else (pos + 1, <[Z.to_nat pos := cell c]> crt).

(** [memmove(crt, crt+80, ...)] of 23 rows and [memset] of the rest of the 24. *)
Definition cga_scroll (pos : Z) (crt : list Z) : list Z :=
  let crt := list_inserts 0 (take (23 * 80) (drop 80 crt)) crt in
  list_inserts (Z.to_nat pos) (replicate (Z.to_nat (24 * COLS - pos)) 0) crt.

Definition cgaputc (c : Z) : K unit :=
  x ← gets cons_of;
  let '(pos, mem) := cga_place c (crt_pos x) (crt x) in
  if (pos <? 0) || (pos >? 25 * COLS) then panic "pos under/overflow" else
  let '(pos, mem) :=
    if pos / COLS >=? 24 then (pos - COLS, cga_scroll (pos - COLS) mem) else (pos, mem) in
  updcons (set_crt (<[Z.to_nat pos := cell 32]> mem) (u16 pos)).

Definition consputc (c : Z) : K unit :=
  x ← gets cons_of;
  if panicked x then spin else
  (if c =? BACKSPACE then uartputc 8;; uartputc 32;; uartputc 8 else uartputc c);;
  cgaputc c.

(** ** Formatted output *)

(** [digits[x % base]] *)
Definition digit (d : Z) : Z := if d <? 10 then 48 + d else 87 + d.

(** [do buf[i++] = digits[x % base]; while((x /= base) != 0);] *)
Fixpoint digits_up (fuel : nat) (x base : Z) : list Z :=
  match fuel with
  | O => []
  | S fuel' =>
      digit (x mod base) :: (if x / base =? 0 then [] else digits_up fuel' (x / base) base)
  end.

(** A 32-bit number has at most 32 digits in base 2 and more. *)
Definition printint_chars (xx base : Z) (sign : bool) : list Z :=
  let neg := sign && (xx <? 0) in
  let x := if neg then u32 (- xx) else u32 xx in
  rev (digits_up 32 x base ++ (if neg then [45] else [])).

Definition printint (xx base : Z) (sign : bool) : K unit :=
  for_each (printint_chars xx base sign) consputc.

(** The arguments after the format: words and strings ([None] is null). An
    argument of the wrong kind is undefined in C. *)
Inductive arg := AInt (v : Z) | AStr (s : option (list Z)).

Definition cprintf_conv (c : Z) (args : list arg) : K (list arg) :=
  if c =? 100 then
    match args with
    | AInt v :: args' => printint (s32 v) 10 true;; mret args'
    | _ => fault 0
    end
  else if (c =? 120) || (c =? 112) then
    match args with
    | AInt v :: args' => printint (s32 v) 16 false;; mret args'
    | _ => fault 0
    end
  else if c =? 115 then
    match args with
    | AStr o :: args' => for_each (default (chars "(null)") o) consputc;; mret args'
    | _ => fault 0
    end
  else if c =? 37 then consputc 37;; mret args
  else consputc 37;; consputc c;; mret args.

Fixpoint cprintf_loop (fmt : list Z) (args : list arg) : K unit :=
  match fmt with
  | [] => mret tt
  | c :: fmt' =>
      if negb (c =? 37) then consputc c;; cprintf_loop fmt' args else
      match fmt' with
      | [] => mret tt
      | c' :: fmt'' => args' ← cprintf_conv c' args; cprintf_loop fmt'' args'
      end
  end.

Definition cprintf (fmt : list Z) (args : list arg) : K unit :=
  x ← gets cons_of;
  when (cons_locking x) (acquire LkCons);;
  cprintf_loop fmt args;;
  when (cons_locking x) (release LkCons).

