(* ===== verification/ConsoleSpec.v ===== *)
(** * Console output: the cursor stays on the screen, the text reaches the port

    Whatever is printed, the cursor stays within the first 24 rows, so the
    check in cgaputc() never fails; and cprintf() sends exactly the formatted
    text to the serial port. *)

From S2P Require Import Prelude Param Bytes State Spinlock Console.

(** ** The screen *)

Definition CRT_CELLS : nat := 2000.

Record cons_ok (x : cons_st) : Prop := {
  co_live : panicked x = false;
  co_cells : length (crt x) = CRT_CELLS;
  co_pos : 0 ≤ crt_pos x < 24 * COLS
}.

(** [x'] is the console after printing [out] on [x]. *)
Record printed (out : list Z) (x x' : cons_st) : Prop := {
  pr_ok : cons_ok x';
  pr_out : uart_out x' = uart_out x ++ (if uart x then out else []);
  pr_uart : uart x' = uart x;
  pr_locking : cons_locking x' = cons_locking x;
  pr_input : input_buf x' = input_buf x ∧ input_r x' = input_r x ∧ input_w x' = input_w x ∧ input_e x' = input_e x;
  pr_shift : kbd_shift x' = kbd_shift x
}.

Lemma printed_nil x : cons_ok x → printed [] x x.
Proof. intros. split; try done. destruct (uart x); by rewrite app_nil_r. Qed.

Lemma printed_trans o1 o2 x y z : printed o1 x y → printed o2 y z → printed (o1 ++ o2) x z.
Proof.
  intros [_ A1 A2 A3 (B1 & B2 & B3 & B4) A4] [Hz C1 C2 C3 (D1 & D2 & D3 & D4) C4]. split; [done|..|congruence].
  - rewrite C1 A1 A2 -app_assoc. f_equal. by destruct (uart x).
  - congruence.
  - congruence.
  - split_and!; congruence.
Qed.

Lemma cga_place_spec c pos (mem : list Z) :
  0 ≤ pos < 24 * COLS → length mem = CRT_CELLS →
  let '(pos', mem') := cga_place c pos mem in 0 ≤ pos' ≤ 24 * COLS ∧ length mem' = CRT_CELLS.
Proof.
  intros Hpos Hlen. rewrite /cga_place /COLS in Hpos |- *.
  destruct (c =? newline); [|destruct (c =? BACKSPACE)].
  - split; [|done]. pose proof (Z.mod_pos_bound pos 80). Z.to_euclidean_division_equations; lia.
  - split; [|done]. destruct (Z.gtb_spec pos 0); lia.
  - rewrite length_insert. split; [lia|done].
Qed.

Lemma cga_scroll_length pos (mem : list Z) : length (cga_scroll pos mem) = length mem.
Proof. rewrite /cga_scroll !length_inserts //. Qed.

Lemma set_cons_twice x y s : set_cons y (set_cons x s) = set_cons y s.
Proof. done. Qed.

Lemma set_cons_id s : set_cons (cons_of s) s = s.
Proof. by destruct s as [? ? ? ? ? ? ? ? ? ? ? []]. Qed.

Lemma cgaputc_Ok c s :
  cons_ok (cons_of s) → ∃ x', cgaputc c s = Ok tt (set_cons x' s) ∧ printed [] (cons_of s) x'.
Proof.
  intros [Hl Hc Hp]. rewrite /cgaputc bind_gets.
  pose proof (cga_place_spec c (crt_pos (cons_of s)) (crt (cons_of s)) Hp Hc) as Hpl.
  destruct (cga_place _ _ _) as [pos mem]. destruct Hpl as [Hpos Hmem].
  assert ((pos <? 0) || (pos >? 25 * COLS) = false) as ->.
  { apply orb_false_iff. rewrite Z.ltb_ge Z.gtb_ltb Z.ltb_ge. rewrite /COLS in Hpos |- *. lia. }
  set (r := if _ >=? _ then _ else _).
  assert (0 ≤ r.1 < 24 * COLS ∧ length r.2 = CRT_CELLS) as [Hr1 Hr2].
  { rewrite /r /COLS in Hpos |- *. rewrite Z.geb_leb. destruct (Z.leb_spec 24 (pos / 80)) as [Hge|Hlt]; simpl.
    - rewrite cga_scroll_length. split; [|done]. Z.to_euclidean_division_equations; lia.
    - split; [|done]. Z.to_euclidean_division_equations; lia. }
  destruct r as [pos' mem']. simpl in Hr1, Hr2. rewrite /updcons /modify. eexists. split; [done|].
  split; try done; simpl.
  - split; simpl; [done|rewrite length_insert //|]. rewrite /u16 Z.mod_small //. rewrite /COLS in Hr1. lia.
  - destruct (uart _); by rewrite app_nil_r.
Qed.

(** ** Characters *)

(** What a character is on the serial line. *)
Definition echo (c : Z) : list Z := if c =? BACKSPACE then [8; 32; 8] else [u8 c].

Lemma uartputc_Ok c s :
  cons_ok (cons_of s) → ∃ x', uartputc c s = Ok tt (set_cons x' s) ∧ printed [u8 c] (cons_of s) x'.
Proof.
  intros Hok. rewrite /uartputc bind_gets /when. destruct (uart (cons_of s)) eqn:Hu.
  - eexists. split; [done|]. destruct Hok. split; try done; simpl; by rewrite Hu.
  - exists (cons_of s). rewrite set_cons_id. split; [done|]. split; try done. by rewrite Hu app_nil_r.
Qed.

Lemma print_seq {A} (m1 : K unit) (m2 : K A) o1 o2 a s :
  (∃ x', m1 s = Ok tt (set_cons x' s) ∧ printed o1 (cons_of s) x') →
  (∀ s', cons_ok (cons_of s') → ∃ x', m2 s' = Ok a (set_cons x' s') ∧ printed o2 (cons_of s') x') →
  ∃ x', (m1;; m2) s = Ok a (set_cons x' s) ∧ printed (o1 ++ o2) (cons_of s) x'.
Proof.
  intros (x1 & H1 & P1) H2. destruct (H2 (set_cons x1 s)) as (x2 & H2' & P2); [apply P1|].
  exists x2. rewrite (bind_Ok _ _ _ _ _ H1) H2'. split; [done|]. by apply (printed_trans _ _ _ x1).
Qed.

Lemma consputc_Ok c s :
  cons_ok (cons_of s) → ∃ x', consputc c s = Ok tt (set_cons x' s) ∧ printed (echo c) (cons_of s) x'.
Proof.
  intros Hok. rewrite /consputc bind_gets (co_live _ Hok). rewrite -(app_nil_r (echo c)).
  apply print_seq; [|intros; by apply cgaputc_Ok]. rewrite /echo. destruct (c =? BACKSPACE); [|by apply uartputc_Ok].
  apply (print_seq _ _ [u8 8] [32; 8]); [by apply uartputc_Ok|]. intros s1 Hok1.
  apply (print_seq _ _ [u8 32] [8]); [by apply uartputc_Ok|]. intros s2 Hok2. by apply (uartputc_Ok 8).
Qed.

Lemma consputs_Ok l s :
  cons_ok (cons_of s) →
  ∃ x', for_each l consputc s = Ok tt (set_cons x' s) ∧ printed (concat (echo <$> l)) (cons_of s) x'.
Proof.
  revert s. induction l as [|c l IH]; intros s Hok; simpl.
  { exists (cons_of s). rewrite set_cons_id. split; [done|]. by apply printed_nil. }
  by apply print_seq; [apply consputc_Ok|].
Qed.

(** ** Formatted output *)

(** The text of a format with its arguments. *)
Definition conv_text (c : Z) (args : list arg) : option (list Z * list arg) :=
  if c =? 100 then
    match args with AInt v :: l => Some (printint_chars (s32 v) 10 true, l) | _ => None end
  else if (c =? 120) || (c =? 112) then
    match args with AInt v :: l => Some (printint_chars (s32 v) 16 false, l) | _ => None end
  else if c =? 115 then
    match args with AStr o :: l => Some (default (chars "(null)") o, l) | _ => None end
  else if c =? 37 then Some ([37], args)
  else Some ([37; c], args).

Fixpoint format (fmt : list Z) (args : list arg) : option (list Z) :=
  match fmt with
  | [] => Some []
  | c :: fmt' =>
      if negb (c =? 37) then cons c <$> format fmt' args else
      match fmt' with
      | [] => Some []
      | c' :: fmt'' =>
          '(out, args') ← conv_text c' args;
          app out <$> format fmt'' args'
      end
  end.

Lemma print_ret {A} (a : A) s :
  cons_ok (cons_of s) → ∃ x', (mret a : K A) s = Ok a (set_cons x' s) ∧ printed [] (cons_of s) x'.
Proof. intros Hok. exists (cons_of s). rewrite set_cons_id. split; [done|]. by apply printed_nil. Qed.

Lemma cprintf_conv_Ok c args out args' s :
  conv_text c args = Some (out, args') → cons_ok (cons_of s) →
  ∃ x', cprintf_conv c args s = Ok args' (set_cons x' s) ∧ printed (concat (echo <$> out)) (cons_of s) x'.
Proof.
  rewrite /conv_text /cprintf_conv. intros Ht Hok.
  assert (∀ l, ∃ x', (for_each l consputc;; mret args') s = Ok args' (set_cons x' s) ∧
                     printed (concat (echo <$> l)) (cons_of s) x') as Hputs.
  { intros l. rewrite -(app_nil_r (concat _)). apply print_seq; [by apply consputs_Ok|]. intros. by apply print_ret. }
  destruct (c =? 100); [destruct args as [|[v|o] l]; simplify_eq; apply Hputs|].
  destruct ((c =? 120) || (c =? 112)); [destruct args as [|[v|o] l]; simplify_eq; apply Hputs|].
  destruct (c =? 115); [destruct args as [|[v|o] l]; simplify_eq; apply Hputs|].
  destruct (c =? 37); simplify_eq.
  - apply (print_seq _ _ (echo 37) []); [by apply consputc_Ok|]. intros. by apply print_ret.
  - apply (print_seq _ _ (echo 37) (echo c ++ [])); [by apply consputc_Ok|]. intros s1 Hok1.
    apply print_seq; [by apply consputc_Ok|]. intros. by apply print_ret.
Qed.

Lemma cprintf_loop_Ok fmt args out s :
  format fmt args = Some out → cons_ok (cons_of s) →
  ∃ x', cprintf_loop fmt args s = Ok tt (set_cons x' s) ∧ printed (concat (echo <$> out)) (cons_of s) x'.
Proof.
  remember (length fmt) as n eqn:Hn. revert fmt args out s Hn.
  induction (lt_wf n) as [n _ IH]. intros [|c fmt] args out s -> Hf Hok.
  { injection Hf as <-. by apply print_ret. }
  simpl in Hf |- *. destruct (negb (c =? 37)).
  - destruct (format fmt args) as [o|] eqn:Ho; [|done]. injection Hf as <-. rewrite fmap_cons.
    apply print_seq; [by apply consputc_Ok|]. intros s1 Hok1. eapply IH; [|done..]. simpl. lia.
  - destruct fmt as [|c' fmt]; [injection Hf as <-; by apply print_ret|].
    destruct (conv_text c' args) as [[o1 args1]|] eqn:Hc; [|done]. simpl in Hf.
    destruct (format fmt args1) as [o2|] eqn:Ho; [|done]. injection Hf as <-.
    destruct (cprintf_conv_Ok c' args o1 args1 s Hc Hok) as (x1 & H1 & P1).
    rewrite (bind_Ok _ _ _ _ _ H1) fmap_app concat_app.
    destruct (IH (length fmt)) with (fmt := fmt) (args := args1) (out := o2) (s := set_cons x1 s) as (x2 & H2 & P2);
      [simpl; lia|done..|apply P1|].
    exists x2. rewrite H2. split; [done|]. by apply (printed_trans _ _ _ x1).
Qed.

(** cprintf() after consoleinit(), as a critical section of [cons.lock]. *)
Lemma cprintf_Ok fmt args out s :
  format fmt args = Some out → cons_ok (cons_of s) → k_locks s !! LkCons = None → cpu_ok (k_cpu s) →
  ∃ x' c', cprintf fmt args s = Ok tt (set_cons x' (set_cpu c' s)) ∧
           printed (concat (echo <$> out)) (cons_of s) x' ∧
           (c' = k_cpu s ∨ c' = crit_cpu (k_cpu s)).
Proof.
  intros Hf Hok Hl Hc. rewrite /cprintf bind_gets /when. destruct (cons_locking (cons_of s)).
  - rewrite (bind_Ok _ _ _ _ _ (acquire_Ok _ _ Hl)).
    destruct (cprintf_loop_Ok fmt args out (enter LkCons s) Hf Hok) as (x' & H1 & P).
    exists x', (crit_cpu (k_cpu s)). split_and!; [|done|by right].
    rewrite (bind_Ok _ _ _ _ _ H1) (release_entered LkCons s) //.
  - destruct (cprintf_loop_Ok fmt args out s Hf Hok) as (x' & H1 & P).
    exists x', (k_cpu s). split_and!; [|done|by left]. rewrite bind_ret (bind_Ok _ _ _ _ _ H1).
    by destruct s.
Qed.

(** cprintf() never trips the cursor check of cgaputc(): the cursor stays on
    the first 24 rows whatever is printed. It sends the formatted text, as
    [format] defines it, to the serial port and leaves the input side of the
    console and [cons.lock] as they were. *)
Theorem cprintf_correct fmt args out s :
  format fmt args = Some out → cons_ok (cons_of s) → k_locks s !! LkCons = None → cpu_ok (k_cpu s) →
  ∃ s', cprintf fmt args s = Ok tt s' ∧ printed (concat (echo <$> out)) (cons_of s) (cons_of s') ∧
        k_locks s' = k_locks s ∧ ncli (k_cpu s') = ncli (k_cpu s).
Proof.
  intros Hf Hok Hl Hc. destruct (cprintf_Ok fmt args out s Hf Hok Hl Hc) as (x' & c' & H1 & P & Hc').
  eexists. split; [exact H1|]. split_and!; [done|done|]. simpl. by destruct Hc' as [-> | ->].
Qed.

Lemma cprintf_correct_witness :
  ∃ s', cprintf (chars "pid %d: %x") [AInt (-7); AInt 255] boot_state = Ok tt s' ∧
        uart_out (cons_of s') = [] ∧ cons_ok (cons_of s').
Proof.
  destruct (cprintf_correct (chars "pid %d: %x") [AInt (-7); AInt 255] (chars "pid -7: ff") boot_state)
    as (s' & H1 & P & _).
  - vm_compute. reflexivity.
  - split; [reflexivity..|]. vm_compute. split; [discriminate|reflexivity].
  - reflexivity.
  - split; [simpl; lia|reflexivity].
  - exists s'. split; [exact H1|]. split; [exact (pr_out _ _ _ P)|exact (pr_ok _ _ _ P)].
Defined.
