(* ===== verification/Sched.v ===== *)
(** * Scheduling primitives: sched, yield, sleep, wakeup, kill (proc.c)

    A kernel thread leaves the CPU through swtch(): the [Switch] outcome holds
    the state in which it does; [sleep_resume] and [yield_resume] are the code
    that runs when the scheduler switches back to it. *)

From S2P Require Import Prelude Param State Spinlock.

(** ** Access to the process table *)

Definition procs (s : kstate) : list proc := pt_proc (k_pt s).

Definition set_procs (l : list proc) (s : kstate) : kstate :=
  set_pt (Ptable l (pt_nextpid (k_pt s)) (pt_initproc (k_pt s))) s.

Definition set_state (st : procstate) (p : proc) : proc :=
  Proc (p_sz p) (p_pgdir p) (p_kstack p) st (p_pid p) (p_parent p) (p_tf p)
       (p_context p) (p_chan p) (p_killed p) (p_ofile p) (p_cwd p) (p_name p)
       (p_pending p) (p_sighandlers p) (p_procHandlingSigNow p) (p_tfToRestore p)
       (p_sigretAdd p) (p_alarm_ticks_num p).
Definition set_chan (ch : option chan) (p : proc) : proc :=
  Proc (p_sz p) (p_pgdir p) (p_kstack p) (p_state p) (p_pid p) (p_parent p) (p_tf p)
       (p_context p) ch (p_killed p) (p_ofile p) (p_cwd p) (p_name p)
       (p_pending p) (p_sighandlers p) (p_procHandlingSigNow p) (p_tfToRestore p)
       (p_sigretAdd p) (p_alarm_ticks_num p).
Definition set_killed (b : bool) (p : proc) : proc :=
  Proc (p_sz p) (p_pgdir p) (p_kstack p) (p_state p) (p_pid p) (p_parent p) (p_tf p)
       (p_context p) (p_chan p) b (p_ofile p) (p_cwd p) (p_name p)
       (p_pending p) (p_sighandlers p) (p_procHandlingSigNow p) (p_tfToRestore p)
       (p_sigretAdd p) (p_alarm_ticks_num p).

(** [proc->f] through the per-CPU current process; a null pointer faults. *)
Definition cur : K nat :=
  o ← gets k_proc;
  match o with Some i => mret i | None => fault 0 end.

Definition getproc (i : nat) : K proc :=
  l ← gets procs;
  match l !! i with Some p => mret p | None => fault 0 end.

Definition updproc (i : nat) (f : proc → proc) : K unit :=
  modify (λ s, set_procs (alter f i (procs s)) s).

(** ** wakeup *)

(** One iteration of the loop of wakeup1(). *)
Definition wake (ch : chan) (p : proc) : proc :=
  if bool_decide (p_state p = SLEEPING ∧ p_chan p = Some ch)
  then set_state RUNNABLE p else p.

Definition wakeup1 (ch : chan) : K unit :=
  modify (λ s, set_procs (wake ch <$> procs s) s).

Definition wakeup (ch : chan) : K unit :=
  acquire LkPtable;;
  wakeup1 ch;;
  release LkPtable.

(** ** sched, sleep, yield *)

(** The checks of sched() before it calls swtch(). *)
Definition sched_checks : K unit :=
  h ← holding LkPtable;
  if negb h then panic "sched ptable.lock" else
  c ← gets k_cpu;
  if negb (ncli c =? 1) then panic "sched locks" else
  i ← cur;
  p ← getproc i;
  if bool_decide (p_state p = RUNNING) then panic "sched running" else
  if eflags_IF c then panic "sched interruptible" else
  mret tt.

(** swtch(&proc->context, cpu->scheduler), with [intena] saved. *)
Definition swtch {A} (why : bool → switch) : K A :=
  λ s, Switch (why (intena (k_cpu s))) s.

Definition sched {A} (why : bool → switch) : K A :=
  sched_checks;;
  swtch why.

(** After swtch() returns in sched(): restore [cpu->intena]. *)
Definition sched_resume (ie : bool) : K unit :=
  modify (λ s, set_cpu (Cpu (cpu_id (k_cpu s)) (ncli (k_cpu s)) ie
                            (eflags_IF (k_cpu s))) s).

(** sleep() up to the switch, on one processor; SleepWake.v has its statements
    interleaved with those of other processors. *)
Definition sleep {A} (ch : chan) (lk : lockid) : K A :=
  o ← gets k_proc;
  match o with
  | None => panic "sleep"
  | Some i =>
      (if bool_decide (lk ≠ LkPtable) then acquire LkPtable;; release lk else mret tt);;
      updproc i (λ p, set_state SLEEPING (set_chan (Some ch) p));;
      sched (SwSleep ch lk)
  end.

(** sleep() after sched() returns: tidy up and reacquire the original lock. *)
Definition sleep_resume (lk : lockid) (ie : bool) : K unit :=
  sched_resume ie;;
  i ← cur;
  updproc i (set_chan None);;
  if bool_decide (lk ≠ LkPtable) then release LkPtable;; acquire lk else mret tt.

Definition yield {A} : K A :=
  acquire LkPtable;;
  i ← cur;
  updproc i (set_state RUNNABLE);;
  sched SwYield.

Definition yield_resume (ie : bool) : K unit :=
  sched_resume ie;;
  release LkPtable.

(** ** kill *)

Definition kill (pid : Z) : K Z :=
  acquire LkPtable;;
  r ← scan (seq 0 NPROC) (λ i,
    p ← getproc i;
    if p_pid p =? pid then
      updproc i (set_killed true);;
      when (bool_decide (p_state p = SLEEPING)) (updproc i (set_state RUNNABLE));;
      release LkPtable;;
      mret (Some 0)
    else mret None);
  match r with
  | Some v => mret v
  | None => release LkPtable;; mret (-1)
  end.

(** ** Lemmas *)

Lemma set_procs_procs s l : procs (set_procs l s) = l.
Proof. done. Qed.

Lemma procs_crit s : procs (crit s) = procs s.
Proof. done. Qed.

Lemma wakeup_Ok ch s :
  k_locks s !! LkPtable = None → cpu_ok (k_cpu s) →
  wakeup ch s = Ok tt (set_procs (wake ch <$> procs s) (crit s)).
Proof.
  intros Hl Hok. rewrite /wakeup (bind_Ok _ _ _ _ _ (acquire_Ok _ _ Hl)).
  rewrite /wakeup1 bind_modify (release_entered _ s) //.
Qed.

(** Waking the sleepers of [ch]. *)
Definition woken (ch : chan) (s : kstate) : kstate := set_procs (wake ch <$> procs s) s.

Lemma crit_enter lk s : cpu_ok (k_cpu s) → crit (enter lk s) = enter lk s.
Proof.
  intros [Hn _]. rewrite /crit /enter /crit_cpu /push_cpu /=.
  rewrite (proj2 (Z.eqb_neq (ncli (k_cpu s) + 1) 0)); [lia|done].
Qed.

Lemma wakeup_enter ch lk s :
  lk ≠ LkPtable → k_locks s !! LkPtable = None → cpu_ok (k_cpu s) →
  wakeup ch (enter lk s) = Ok tt (enter lk (woken ch s)).
Proof.
  intros Hne Hl Hok. rewrite wakeup_Ok; [by rewrite /= lookup_insert_ne|by apply push_cpu_ok|].
  rewrite crit_enter //.
Qed.

(** The sleeper of [sleep_Switch], seen from the table. *)
Definition asleep (ch : chan) (p : proc) : proc := set_state SLEEPING (set_chan (Some ch) p).

Lemma sched_checks_Ok s i p :
  k_locks s !! LkPtable = Some (Spinlock true (Some (cpu_id (k_cpu s)))) →
  ncli (k_cpu s) = 1 → eflags_IF (k_cpu s) = false →
  k_proc s = Some i → procs s !! i = Some p → p_state p ≠ RUNNING →
  sched_checks s = Ok tt s.
Proof.
  intros Hl Hn Hf Hp Hi Hs.
  rewrite /sched_checks /holding bind_gets /lock_of Hl /holding_lock /=.
  rewrite bool_decide_eq_true_2 //= bind_gets Hn /=.
  rewrite /cur /mbind /M_bind /gets /= Hp /= /getproc /mbind /M_bind /gets /= Hi /=.
  rewrite bool_decide_eq_false_2 //= Hf //.
Qed.

(** sleep() called inside the critical section of [lk], entered from [s] with
    no other lock held: it leaves the CPU with [lk] free, [ptable.lock] held and
    the process asleep on [ch]. *)
Lemma sleep_Switch {A} ch lk s i p :
  lk ≠ LkPtable → k_locks s !! lk = None → k_locks s !! LkPtable = None →
  ncli (k_cpu s) = 0 → k_proc s = Some i → procs s !! i = Some p →
  sleep (A := A) ch lk (enter lk s) =
    Switch (SwSleep ch lk (eflags_IF (k_cpu s)))
      (set_procs (alter (asleep ch) i (procs s)) (enter LkPtable (crit s))).
Proof.
  intros Hne Hlk Hpt Hn Hp Hi. rewrite /sleep bind_gets /= Hp.
  rewrite bool_decide_eq_true_2 //.
  assert (LkPtable ≠ lk) by congruence.
  assert ((acquire LkPtable;; release lk) (enter lk s) =
          Ok tt (enter LkPtable (crit s))) as Hsw.
  { rewrite (bind_Ok _ _ _ tt (enter LkPtable (enter lk s))).
    - apply acquire_Ok. rewrite /= lookup_insert_ne //.
    - rewrite /release /holding bind_gets /lock_of /= lookup_insert_ne //.
      rewrite lookup_insert_eq /holding_lock /= bool_decide_eq_true_2 //= bind_modify.
      rewrite /popcli bind_gets /= Hn /= /modify /=.
      rewrite /enter /crit /pop_cpu /push_cpu /crit_cpu /= Hn /=.
      do 2 f_equal. apply kstate_eq; simpl; try done.
      rewrite delete_insert_ne // delete_insert_id //. }
  rewrite (bind_Ok _ _ _ _ _ Hsw) /updproc bind_modify /sched. rewrite (bind_Ok _ _ _ tt
    (set_procs (alter (asleep ch) i (procs s)) (enter LkPtable (crit s)))).
  - apply (sched_checks_Ok _ i (asleep ch p)); simpl; rewrite ?Hn ?lookup_insert_eq //.
    rewrite set_procs_procs list_lookup_alter_eq /= Hi //.
  - rewrite /swtch /= Hn //.
Qed.

(** What kill() does to the process it finds. *)
Definition kill_proc (p : proc) : proc :=
  if bool_decide (p_state p = SLEEPING)
  then set_state RUNNABLE (set_killed true p) else set_killed true p.

Lemma getproc_Ok i s p : procs s !! i = Some p → getproc i s = Ok p s.
Proof. rewrite /getproc bind_gets => -> //. Qed.

(** A search through the process table under [ptable.lock]. *)
Lemma scan_procs_first {A} (P : proc → bool) (body : nat → K (option A)) s :
  length (procs s) = NPROC →
  (∀ i p, procs s !! i = Some p → P p = false → body i s = Ok None s) →
  match first P (procs s) with
  | Some i => ∀ a s', body i s = Ok (Some a) s' → scan (seq 0 NPROC) body s = Ok (Some a) s'
  | None => scan (seq 0 NPROC) body s = Ok None s
  end.
Proof.
  intros Hlen Hskip. destruct (first P (procs s)) as [i|] eqn:Hf.
  - apply first_Some in Hf as (x & Hi & HP & Hbefore). intros a s' Hbody.
    pose proof (lookup_lt_Some _ _ _ Hi).
    rewrite (seq_split_at i); [lia|]. apply scan_stop; [|done].
    intros j Hj%elem_of_seq. destruct (lookup_lt_is_Some_2 (procs s) j) as [y Hy]; [lia|].
    apply (Hskip j y); [done|]. apply (Hbefore j); [done|lia].
  - rewrite first_None in Hf. apply scan_skip. intros j Hj%elem_of_seq.
    destruct (lookup_lt_is_Some_2 (procs s) j) as [y Hy]; [lia|]. eauto.
Qed.

Lemma kill_unfold pid s :
  k_locks s !! LkPtable = None → cpu_ok (k_cpu s) → length (procs s) = NPROC →
  kill pid s =
  match first (λ p, p_pid p =? pid) (procs s) with
  | Some i => Ok 0 (set_procs (alter kill_proc i (procs s)) (crit s))
  | None => Ok (-1) (crit s)
  end.
Proof.
  intros Hl Hok Hlen. rewrite /kill (bind_Ok _ _ _ _ _ (acquire_Ok _ _ Hl)).
  match goal with |- (scan _ ?b ≫= _) _ = _ => set (body := b) end.
  pose proof (scan_procs_first (λ p, p_pid p =? pid) body (enter LkPtable s) Hlen) as Hscan.
  change (procs (enter LkPtable s)) with (procs s) in Hscan.
  destruct (first _ (procs s)) as [i|] eqn:Hf.
  - pose proof Hf as (p & Hi & HP & _)%first_Some.
    rewrite (bind_Ok _ _ _ (Some 0) (set_procs (alter kill_proc i (procs s)) (crit s))); [|done].
    apply Hscan.
    + intros j q Hj Hq. rewrite /body (bind_Ok _ _ _ _ _ (getproc_Ok j (enter LkPtable s) q Hj)) Hq //.
    + rewrite /body (bind_Ok _ _ _ _ _ (getproc_Ok i (enter LkPtable s) p Hi)) HP.
      rewrite /updproc bind_modify /when.
      assert (∀ f, kill_proc p = f p → alter kill_proc i (procs s) = alter f i (procs s)) as Halt.
      { intros f Hfp. apply list_alter_ext; [|done]. intros x. rewrite Hi. by intros [= <-]. }
      rewrite /kill_proc in Halt. destruct (bool_decide (p_state p = SLEEPING)) eqn:Hsl.
      * rewrite bind_modify (bind_release _ _ s) //.
        rewrite set_procs_procs list_alter_alter_eq (Halt (set_state RUNNABLE ∘ set_killed true)) //.
      * rewrite bind_ret (bind_release _ _ s) //.
        rewrite (Halt (set_killed true)) //.
  - rewrite (bind_Ok _ _ _ None (enter LkPtable s)).
    + apply Hscan. intros j q Hj Hq.
      rewrite /body (bind_Ok _ _ _ _ _ (getproc_Ok j (enter LkPtable s) q Hj)) Hq //.
    + rewrite (bind_release _ _ s) //.
Qed.

(** ** Main properties *)

(** On one processor, with another that calls wakeup(): a process that calls sleep(ch, lk) inside the critical
    section of [lk] leaves the CPU with [lk] free, [ptable.lock] still held and
    itself SLEEPING on [ch]. Until the scheduler releases [ptable.lock] a
    wakeup() on another CPU spins; from then on every wakeup(ch) makes the
    process RUNNABLE, and a wakeup on any other channel leaves it asleep. *)
Theorem sleep_wakeup_not_lost ch lk s i p (s' : kstate) (c : cpu) :
  lk ≠ LkPtable → k_locks s !! lk = None → k_locks s !! LkPtable = None →
  ncli (k_cpu s) = 0 → k_proc s = Some i → procs s !! i = Some p →
  cpu_ok c → cpu_id c ≠ cpu_id (k_cpu s) →
  (∃ why, sleep (A := unit) ch lk (enter lk s) = Switch why s') →
  k_locks s' !! lk = None ∧
  (∃ q, procs s' !! i = Some q ∧ p_state q = SLEEPING ∧ p_chan q = Some ch) ∧
  wakeup ch (set_cpu c s') = Spin ∧
  ∀ ch', ∃ s2 q,
    wakeup ch' (set_cpu c (set_locks (delete LkPtable (k_locks s')) s')) = Ok tt s2 ∧
    procs s2 !! i = Some q ∧
    p_state q = (if bool_decide (ch' = ch) then RUNNABLE else SLEEPING).
Proof.
  intros Hne Hlk Hpt Hn Hp Hi Hc Hid [why Hs].
  rewrite (sleep_Switch ch lk s i p) // in Hs. injection Hs as _ <-.
  set (s1 := set_procs _ _).
  assert (procs s1 !! i = Some (asleep ch p)) as Hq.
  { rewrite /s1 set_procs_procs list_lookup_alter_eq Hi //. }
  split_and!.
  - simpl. rewrite lookup_insert_ne; [congruence|done].
  - exists (asleep ch p). by split_and!.
  - rewrite /wakeup /acquire /pushcli /holding /lock_of /mbind /M_bind /= lookup_insert_eq.
    rewrite /holding_lock /= bool_decide_eq_false_2; [congruence|]. by rewrite /= lookup_insert_eq.
  - intros ch'. eexists _, _. rewrite wakeup_Ok //=; [by rewrite lookup_delete_eq|].
    split; [done|]. split.
    + rewrite set_procs_procs list_lookup_fmap. change (procs _) with (procs s1).
      rewrite Hq //.
    + rewrite /wake /=. destruct (decide (ch' = ch)) as [->|Hch].
      * by rewrite !bool_decide_eq_true_2.
      * rewrite !bool_decide_eq_false_2 //. naive_solver.
Qed.

(** The boot state with the process of slot 0 running on CPU 0. *)
Definition one_proc : kstate :=
  set_proc (Some 0%nat) (set_procs (<[0%nat := set_state RUNNING zero_proc]> (procs boot_state)) boot_state).

Lemma sleep_wakeup_not_lost_witness :
  let s' := set_procs (alter (asleep ChLog) 0%nat (procs one_proc))
              (enter LkPtable (crit one_proc)) in
  wakeup ChLog (set_cpu (Cpu 1 0 false true) s') = Spin.
Proof.
  intros s'.
  refine (proj1 (proj2 (proj2 (sleep_wakeup_not_lost ChLog LkLog one_proc 0
    (set_state RUNNING zero_proc) s' (Cpu 1 0 false true) _ _ _ _ _ _ _ _ _)))); try done.
  eexists. by apply (sleep_Switch ChLog LkLog one_proc 0 (set_state RUNNING zero_proc)).
Defined.

(** kill(pid) marks the first table entry with that pid as killed, making it
    RUNNABLE if it was asleep, and returns 0; without such an entry it changes
    nothing and returns -1. In both cases [ptable.lock] is free again and the
    interrupt nesting is unchanged. *)
Theorem kill_correct pid s :
  k_locks s !! LkPtable = None → cpu_ok (k_cpu s) → length (procs s) = NPROC →
  match first (λ p, p_pid p =? pid) (procs s) with
  | Some i => kill pid s = Ok 0 (set_procs (alter kill_proc i (procs s)) (crit s))
  | None => kill pid s = Ok (-1) (crit s)
  end.
Proof. intros. rewrite kill_unfold //. by destruct (first _ _). Qed.

Lemma kill_correct_witness : kill 7 one_proc = Ok (-1) (crit one_proc).
Proof. exact (kill_correct 7 one_proc eq_refl (conj (Z.le_refl 0) (λ _, eq_refl)) eq_refl). Defined.
