(* ===== verification/SleepWake.v ===== *)
(** * sleep() and wakeup() among processors

    The statements of sleep(), wakeup() and kill() (proc.c), executed by any number of
    processes in any order, one statement at a time: the routines of Sched.v run on one
    processor, here the others run between any two of their statements. A lock is taken
    and given back in one step, as the mutual exclusion of spinlock.c allows; interrupts,
    which are off while a lock is held, have no part in it.

    The clients are those of pipe.c, log.c, ide.c, sleeplock.c, sysproc.c, console.c and
    of wait() and exit(): one takes the lock of a condition and calls sleep() until the
    condition holds, another takes the lock, makes the condition true and calls wakeup()
    (or wakeup1(), when the lock is [ptable.lock]). No wakeup is lost. *)

From S2P Require Import Prelude Param State.

(** Where a process is. *)
Inductive pc :=
| Idle         (* holding neither lock *)
| Test         (* holding the lock of the condition: while(!condition) *)
| SAcquire     (* sleep: if(lk != &ptable.lock) acquire(&ptable.lock) *)
| SRelease     (* sleep: release(lk) *)
| SChan        (* sleep: proc->chan = chan *)
| SState       (* sleep: proc->state = SLEEPING *)
| SSched       (* sleep: sched() *)
| Off          (* switched away in sched() *)
| SUnchan      (* sleep: proc->chan = 0 *)
| SRelease2    (* sleep: if(lk != &ptable.lock) release(&ptable.lock) *)
| SAcquire2    (* sleep: acquire(lk) *)
| Done         (* the loop is left, the lock is held *)
| Set_         (* holding the lock: about to make the condition true *)
| WAcquire     (* wakeup: acquire(&ptable.lock) *)
| WScan (k : nat) (* wakeup1: at the process k of the table *)
| WRelease     (* wakeup: release(&ptable.lock) *)
| Leave        (* release(lk) *)
| KScan (k : nat) (* kill: at the process with the pid *)
| KRelease     (* kill: release(&ptable.lock) *)
| Panicked.

(** Who holds each lock, the condition, and of each process where it is, [state] and
    [chan]. *)
Record sys := Sys {
  w_lock : lockid → option nat;
  w_cond : bool;
  w_pc : nat → pc;
  w_state : nat → procstate;
  w_chan : nat → option chan
}.

Definition goto (i : nat) (p : pc) (st : sys) : sys :=
  Sys (w_lock st) (w_cond st) (<[i := p]> (w_pc st)) (w_state st) (w_chan st).
Definition set_lock (l : lockid) (o : option nat) (st : sys) : sys :=
  Sys (<[l := o]> (w_lock st)) (w_cond st) (w_pc st) (w_state st) (w_chan st).
Definition set_cond (b : bool) (st : sys) : sys :=
  Sys (w_lock st) b (w_pc st) (w_state st) (w_chan st).
Definition set_pstate (i : nat) (v : procstate) (st : sys) : sys :=
  Sys (w_lock st) (w_cond st) (w_pc st) (<[i := v]> (w_state st)) (w_chan st).
Definition set_pchan (i : nat) (o : option chan) (st : sys) : sys :=
  Sys (w_lock st) (w_cond st) (w_pc st) (w_state st) (<[i := o]> (w_chan st)).

(** acquire() of the process [i], which is at [p] then; it spins on a lock that another
    holds. *)
Definition take_lock (l : lockid) (i : nat) (p : pc) (st : sys) : option sys :=
  match w_lock st l with
  | None => Some (goto i p (set_lock l (Some i) st))
  | Some j => if bool_decide (j = i) then Some (goto i Panicked st) else None
  end.

Definition free_lock (l : lockid) (i : nat) (p : pc) (st : sys) : option sys :=
  if bool_decide (w_lock st l = Some i) then Some (goto i p (set_lock l None st))
  else Some (goto i Panicked st).

Section system.
(** The condition's lock, and the channel processes sleep on. *)
Context (lk : lockid) (ch : chan).

(** sched(), with its checks. The scheduler the processor goes on with releases
    [ptable.lock] in the end. *)
Definition sched_step (i : nat) (st : sys) : option sys :=
  if bool_decide (w_lock st LkPtable ≠ Some i) then Some (goto i Panicked st)
  else if bool_decide (lk ≠ LkPtable ∧ w_lock st lk = Some i) then Some (goto i Panicked st)
  else if bool_decide (w_state st i = RUNNING) then Some (goto i Panicked st)
  else Some (goto i Off (set_lock LkPtable None st)).

(** The scheduler, holding [ptable.lock], switches to a process that is RUNNABLE. *)
Definition resume_step (i : nat) (st : sys) : option sys :=
  if bool_decide (w_state st i = RUNNABLE) then take_lock LkPtable i SUnchan (set_pstate i RUNNING st)
  else None.

Definition sleep_step (i : nat) (st : sys) : option sys :=
  match w_pc st i with
  | SAcquire => if bool_decide (lk ≠ LkPtable) then take_lock LkPtable i SRelease st else Some (goto i SChan st)
  | SRelease => free_lock lk i SChan st
  | SChan => Some (goto i SState (set_pchan i (Some ch) st))
  | SState => Some (goto i SSched (set_pstate i SLEEPING st))
  | SSched => sched_step i st
  | Off => resume_step i st
  | SUnchan => Some (goto i (if bool_decide (lk ≠ LkPtable) then SRelease2 else Test) (set_pchan i None st))
  | SRelease2 => free_lock LkPtable i SAcquire2 st
  | SAcquire2 => take_lock lk i Test st
  | _ => None
  end.

(** [if(p->state == SLEEPING && p->chan == chan) p->state = RUNNABLE;] *)
Definition wake1 (k : nat) (st : sys) : sys :=
  if bool_decide (w_state st k = SLEEPING ∧ w_chan st k = Some ch) then set_pstate k RUNNABLE st else st.

Definition wakeup_step (i : nat) (st : sys) : option sys :=
  match w_pc st i with
  | WAcquire => if bool_decide (lk ≠ LkPtable) then take_lock LkPtable i (WScan 0) st else Some (goto i (WScan 0) st)
  | WScan k =>
      if (k <? NPROC)%nat then Some (goto i (WScan (S k)) (wake1 k st))
      else Some (goto i (if bool_decide (lk ≠ LkPtable) then WRelease else Leave) st)
  | WRelease => free_lock LkPtable i Leave st
  | _ => None
  end.

Definition kill_at_step (i : nat) (st : sys) : option sys :=
  match w_pc st i with
  | KScan k => Some (goto i KRelease (if bool_decide (w_state st k = SLEEPING) then set_pstate k RUNNABLE st else st))
  | KRelease => free_lock LkPtable i Idle st
  | _ => None
  end.

(** What a process does next, where it has a choice; one that waits may give up, as the
    loops of piperead(), consoleread() and sys_sleep() do when it was killed. *)
Inductive action := Wait | Wake | Kill (k : nat) | GiveUp | Use (b : bool) | Go.

Definition next_step (i : nat) (a : action) (st : sys) : option sys :=
  match w_pc st i, a with
  | Idle, Wait => take_lock lk i Test st
  | Idle, Wake => take_lock lk i Set_ st
  | Idle, Kill k => take_lock LkPtable i (KScan k) st
  | Test, Go => Some (goto i (if w_cond st then Done else SAcquire) st)
  | Test, GiveUp => Some (goto i Leave st)
  | Done, Use b => Some (goto i Leave (set_cond b st))
  | Set_, Go => Some (goto i WAcquire (set_cond true st))
  | Leave, Go => free_lock lk i Idle st
  | (WAcquire | WScan _ | WRelease), Go => wakeup_step i st
  | (KScan _ | KRelease), Go => kill_at_step i st
  | _, Go => sleep_step i st
  | _, _ => None
  end.

Definition any_step (st st' : sys) : Prop := ∃ i a, (i < NPROC)%nat ∧ next_step i a st = Some st'.

Fixpoint run_steps (l : list (nat * action)) (st : sys) : option sys :=
  match l with
  | [] => Some st
  | (i, a) :: l' =>
      if (i <? NPROC)%nat then match next_step i a st with Some st' => run_steps l' st' | None => None end else None
  end.

Definition initial (st : sys) : Prop :=
  (∀ l, w_lock st l = None) ∧ ∀ i, w_pc st i = Idle ∧ w_state st i ≠ SLEEPING.

(** ** The invariant *)

(** The locks a process holds. *)
Definition in_lk (p : pc) : bool :=
  match p with
  | Test | SAcquire | SRelease | Done | Set_ | WAcquire | WScan _ | WRelease | Leave => true
  | _ => false
  end.

Definition in_ptable (p : pc) : bool :=
  match p with
  | SRelease | SChan | SState | SSched | SUnchan | SRelease2 | WScan _ | WRelease | KScan _ | KRelease => true
  | _ => false
  end.

Definition holds (p : pc) (l : lockid) : Prop :=
  l = lk ∧ in_lk p = true ∨ l = LkPtable ∧ in_ptable p = true.

(** On the way to sleep with the lock of the condition released, or asleep. *)
Definition falls_asleep (st : sys) (i : nat) : Prop :=
  match w_pc st i with
  | SChan | SState | SSched => True
  | Off => w_state st i = SLEEPING
  | _ => False
  end.

(** A process in wakeup() that has yet to look at the process [i]. *)
Definition will_wake (p : pc) (i : nat) : Prop :=
  match p with WAcquire => True | WScan k => (k ≤ i)%nat | _ => False end.

(** What holds of one process. *)
Definition local_ok (st : sys) (i : nat) : Prop :=
  match w_pc st i with
  | SAcquire => w_cond st = false ∧ w_state st i ≠ SLEEPING
  | SRelease => w_cond st = false ∧ w_state st i ≠ SLEEPING ∧ lk ≠ LkPtable
  | SState => w_chan st i = Some ch ∧ w_state st i ≠ SLEEPING
  | SSched => w_chan st i = Some ch ∧ w_state st i = SLEEPING
  | Off => w_chan st i = Some ch
  | SRelease2 | SAcquire2 | WRelease => lk ≠ LkPtable ∧ w_state st i ≠ SLEEPING
  | Done => w_cond st = true ∧ w_state st i ≠ SLEEPING
  | Panicked => False
  | _ => w_state st i ≠ SLEEPING
  end.

Record wakeup_ok (st : sys) : Prop := {
  wo_locks l i : w_lock st l = Some i ↔ holds (w_pc st i) l;
  wo_local i : local_ok st i;
  wo_procs i : (NPROC ≤ i)%nat → w_pc st i = Idle;
  wo_wake i : w_cond st = true → falls_asleep st i → ∃ j, will_wake (w_pc st j) i
}.

(** A lock has one holder. *)
Lemma holders st i j l : wakeup_ok st → holds (w_pc st i) l → holds (w_pc st j) l → i = j.
Proof. intros HI Hi%(wo_locks _ HI) Hj%(wo_locks _ HI). congruence. Qed.

Lemma holder_lk st i j : wakeup_ok st → in_lk (w_pc st i) = true → in_lk (w_pc st j) = true → i = j.
Proof. intros HI Hi Hj. apply (holders st i j lk HI); by left. Qed.

Lemma holder_ptable st i j : wakeup_ok st → in_ptable (w_pc st i) = true → in_ptable (w_pc st j) = true → i = j.
Proof. intros HI Hi Hj. apply (holders st i j LkPtable HI); by right. Qed.

(** What the statements do to the locks. *)
Definition locks_ok (i : nat) (p : pc) (st : sys) (lock : lockid → option nat) : Prop :=
  ∀ l j, lock l = Some j ↔ holds (<[i := p]> (w_pc st) j) l.

Lemma locks_same i p st : wakeup_ok st → (∀ l, holds p l ↔ holds (w_pc st i) l) → locks_ok i p st (w_lock st).
Proof.
  intros HI Hp l j. rewrite (wo_locks _ HI). destruct (decide (i = j)) as [<-|Hne].
  - by rewrite fn_lookup_insert Hp.
  - by rewrite fn_lookup_insert_ne.
Qed.

Lemma locks_acquire i p st l0 :
  wakeup_ok st → w_lock st l0 = None → (∀ l, holds p l ↔ l = l0 ∨ holds (w_pc st i) l) → locks_ok i p st (<[l0 := Some i]> (w_lock st)).
Proof.
  intros HI Hfree Hp l j. destruct (decide (l0 = l)) as [<-|Hl].
  - rewrite fn_lookup_insert. destruct (decide (i = j)) as [<-|Hne].
    + rewrite fn_lookup_insert Hp. naive_solver.
    + rewrite fn_lookup_insert_ne // -(wo_locks _ HI). naive_solver.
  - rewrite fn_lookup_insert_ne // (wo_locks _ HI). destruct (decide (i = j)) as [<-|Hne].
    + rewrite fn_lookup_insert Hp. naive_solver.
    + by rewrite fn_lookup_insert_ne.
Qed.

Lemma locks_release i p st l0 :
  wakeup_ok st → holds (w_pc st i) l0 → (∀ l, holds p l ↔ l ≠ l0 ∧ holds (w_pc st i) l) → locks_ok i p st (<[l0 := None]> (w_lock st)).
Proof.
  intros HI Hhas Hp l j. destruct (decide (l0 = l)) as [<-|Hl].
  - rewrite fn_lookup_insert. split; [done|]. destruct (decide (i = j)) as [<-|Hne].
    + rewrite fn_lookup_insert Hp. naive_solver.
    + rewrite fn_lookup_insert_ne //. intros Hj. by destruct Hne; apply (holders st i j l0).
  - rewrite fn_lookup_insert_ne // (wo_locks _ HI). destruct (decide (i = j)) as [<-|Hne].
    + rewrite fn_lookup_insert Hp. naive_solver.
    + by rewrite fn_lookup_insert_ne.
Qed.

(** A step of [i] that changes neither the condition nor the other processes. *)
Record private (i : nat) (p : pc) (st st' : sys) : Prop := {
  pv_pc j : w_pc st' j = <[i := p]> (w_pc st) j;
  pv_cond : w_cond st' = w_cond st;
  pv_state j : i ≠ j → w_state st' j = w_state st j;
  pv_chan j : i ≠ j → w_chan st' j = w_chan st j
}.

Lemma inv_private i p st st' :
  wakeup_ok st → (i < NPROC)%nat → private i p st st' → locks_ok i p st (w_lock st') → local_ok st' i →
  (falls_asleep st' i → w_cond st = true → falls_asleep st i) →
  (∀ j, (j < NPROC)%nat → falls_asleep st' j → will_wake (w_pc st i) j → will_wake p j) → wakeup_ok st'.
Proof.
  intros HI Hi [Ep Ec Es Eh] Hl Hok Hf Hw.
  assert (∀ j, i ≠ j → w_pc st' j = w_pc st j) as Epj by (intros j Hj; by rewrite Ep fn_lookup_insert_ne).
  split.
  - intros l j. rewrite Ep. apply Hl.
  - intros j. destruct (decide (i = j)) as [<-|Hj]; [done|]. pose proof (wo_local _ HI j) as Hlj.
    rewrite /local_ok Epj // Ec Es // Eh //.
  - intros j Hj. rewrite Epj; [lia|]. by apply (wo_procs _ HI).
  - intros j Hc Ha. rewrite Ec in Hc.
    assert (falls_asleep st j) as Hb.
    { destruct (decide (i = j)) as [<-|Hj]; [by apply Hf|]. by rewrite /falls_asleep Epj // Es // in Ha. }
    destruct (wo_wake _ HI j Hc Hb) as [k Hk]. exists k. rewrite Ep. destruct (decide (i = k)) as [<-|Hk'].
    + rewrite fn_lookup_insert. apply Hw; [|done|done]. destruct (decide (j < NPROC)%nat); [done|].
      rewrite /falls_asleep (wo_procs _ HI j) in Hb; [lia|done].
    + by rewrite fn_lookup_insert_ne.
Qed.

(** The step leads to a state where [i] is in order and no wakeup has been dropped. *)
Definition safe_move (i : nat) (p : pc) (st st' : sys) : Prop :=
  local_ok st' i ∧ (falls_asleep st' i → w_cond st = true → falls_asleep st i) ∧
  ∀ j, (j < NPROC)%nat → falls_asleep st' j → will_wake (w_pc st i) j → will_wake p j.

Lemma inv_local_step i p st st' :
  wakeup_ok st → (i < NPROC)%nat → private i p st st' → w_lock st' = w_lock st →
  (∀ l, holds p l ↔ holds (w_pc st i) l) → safe_move i p st st' → wakeup_ok st'.
Proof.
  intros HI Hi Hpv El Hp (H1 & H2 & H3). apply (inv_private i p st st'); [done..| |done|done|done].
  rewrite El. by apply locks_same.
Qed.

Lemma inv_acquire l i p st st' :
  wakeup_ok st → (i < NPROC)%nat → take_lock l i p st = Some st' → ¬ holds (w_pc st i) l →
  (∀ l', holds p l' ↔ l' = l ∨ holds (w_pc st i) l') → safe_move i p st (goto i p st) → wakeup_ok st'.
Proof.
  intros HI Hi Ha Hno Hp (H1 & H2 & H3). rewrite /take_lock in Ha. destruct (w_lock st l) as [j|] eqn:El.
  - case_bool_decide; [|done]. subst j. by destruct Hno; apply (wo_locks _ HI).
  - injection Ha as <-. apply (inv_private i p st); [done..|by apply locks_acquire|done|done|done].
Qed.

Lemma inv_release l i p st st' :
  wakeup_ok st → (i < NPROC)%nat → free_lock l i p st = Some st' → holds (w_pc st i) l →
  (∀ l', holds p l' ↔ l' ≠ l ∧ holds (w_pc st i) l') → safe_move i p st (goto i p st) → wakeup_ok st'.
Proof.
  intros HI Hi Ha Hhas Hp (H1 & H2 & H3). rewrite /free_lock in Ha.
  rewrite bool_decide_eq_true_2 in Ha; [by apply (wo_locks _ HI)|]. injection Ha as <-.
  apply (inv_private i p st); [done..|by apply locks_release|done|done|done].
Qed.

(** The side conditions of these lemmas, for a step of a process at [E]. *)
Ltac where_ E :=
  rewrite /safe_move /local_ok /falls_asleep /holds /= ?fn_lookup_insert ?E /=;
  try solve [intuition (congruence || lia)].

(** A process at the end of sleep()'s first half leaves its processor to the scheduler. *)
Lemma sched_inv i st st' :
  wakeup_ok st → (i < NPROC)%nat → w_pc st i = SSched → sched_step i st = Some st' → wakeup_ok st'.
Proof.
  intros HI Hi E. pose proof (wo_local _ HI i) as Hok. rewrite /local_ok E in Hok. destruct Hok as [Hc Hs].
  assert (holds (w_pc st i) LkPtable) as Hpt by (rewrite E; by right).
  rewrite /sched_step bool_decide_eq_false_2; [intros Hn; by apply Hn, (wo_locks _ HI)|].
  rewrite bool_decide_eq_false_2. { rewrite (wo_locks _ HI) E /holds /=. intuition congruence. }
  rewrite bool_decide_eq_false_2; [congruence|]. intros [= <-].
  apply (inv_private i Off st); [done|done|done| | | |]; where_ E. apply locks_release; [done..|]. where_ E.
Qed.

(** The scheduler resumes one. *)
Lemma scheduled_inv i st st' :
  wakeup_ok st → (i < NPROC)%nat → w_pc st i = Off →
  take_lock LkPtable i SUnchan (set_pstate i RUNNING st) = Some st' → wakeup_ok st'.
Proof.
  intros HI Hi E Ha. pose proof (wo_local _ HI i) as Hok. rewrite /local_ok E in Hok.
  assert (wakeup_ok (set_pstate i RUNNING st)) as HI'.
  { apply (inv_local_step i Off st); [done|done| |done| |]; where_ E. split; [|done| |done].
    - intros j. destruct (decide (i = j)) as [<-|]; [by rewrite fn_lookup_insert|by rewrite fn_lookup_insert_ne].
    - intros j Hj. by rewrite /= fn_lookup_insert_ne. }
  apply (inv_acquire LkPtable i SUnchan (set_pstate i RUNNING st)); [done..| | |]; where_ E.
Qed.

Lemma sleep_inv i st st' : wakeup_ok st → (i < NPROC)%nat → sleep_step i st = Some st' → wakeup_ok st'.
Proof.
  intros HI Hi. pose proof (wo_local _ HI i) as Hok. rewrite /sleep_step. rewrite /local_ok in Hok.
  destruct (w_pc st i) eqn:E; try done.
  - case_bool_decide as Hl; intros Hs.
    + apply (inv_acquire LkPtable i SRelease st); [done..| | |]; where_ E.
    + injection Hs as <-. apply (inv_local_step i SChan st); [done..| |]; where_ E.
  - intros Hs. apply (inv_release lk i SChan st); [done..| | |]; where_ E.
  - intros [= <-]. apply (inv_local_step i SState st); [done|done| |done| |]; where_ E.
    split; [done|done|done|]. intros j Hj. by rewrite /= fn_lookup_insert_ne.
  - intros [= <-]. apply (inv_local_step i SSched st); [done|done| |done| |]; where_ E.
    split; [done|done| |done]. intros j Hj. by rewrite /= fn_lookup_insert_ne.
  - apply sched_inv; [done..|by rewrite E].
  - rewrite /resume_step. case_bool_decide as Hr; [|done]. apply scheduled_inv; [done..|by rewrite E].
  - intros [= <-]. case_bool_decide as Hl.
    + apply (inv_local_step i SRelease2 st); [done|done| |done| |]; where_ E.
      split; [done|done|done|]. intros j Hj. by rewrite /= fn_lookup_insert_ne.
    + apply (inv_local_step i Test st); [done|done| |done| |]; where_ E.
      split; [done|done|done|]. intros j Hj. by rewrite /= fn_lookup_insert_ne.
  - intros Hs. apply (inv_release LkPtable i SAcquire2 st); [done..| | |]; where_ E.
  - intros Hs. apply (inv_acquire lk i Test st); [done..| | |]; where_ E.
Qed.

(** A process that sleeps is made RUNNABLE by one that holds [ptable.lock]. *)
Lemma rouse_inv i k st :
  wakeup_ok st → in_ptable (w_pc st i) = true → w_pc st i ≠ SSched → w_state st k = SLEEPING → wakeup_ok (set_pstate k RUNNABLE st).
Proof.
  intros HI Hi Hne Hs. pose proof (wo_local _ HI k) as Hk. rewrite /local_ok in Hk.
  assert (w_pc st k = Off) as Ek.
  { destruct (w_pc st k) eqn:E; try (by intuition congruence). destruct Hne. rewrite -E. f_equal.
    apply (holder_ptable st); [done|done|by rewrite E]. }
  split; [apply HI| |apply HI|].
  - intros j. pose proof (wo_local _ HI j) as Hj. rewrite /local_ok /= in Hj |- *.
    destruct (decide (k = j)) as [<-|]; [by rewrite Ek in Hj |- *|by rewrite fn_lookup_insert_ne].
  - intros j Hc Ha. apply (wo_wake _ HI j Hc). rewrite /falls_asleep /= in Ha |- *.
    destruct (decide (k = j)) as [<-|]; [by rewrite Ek|by rewrite fn_lookup_insert_ne in Ha].
Qed.

(** The process wakeup1() has looked at does not sleep. *)
Lemma wake1_inv i k st :
  wakeup_ok st → w_pc st i = WScan k → wakeup_ok (wake1 k st) ∧ ¬ falls_asleep (wake1 k st) k.
Proof.
  intros HI E. assert (in_ptable (w_pc st i) = true) as Hi by by rewrite E. rewrite /wake1.
  assert (∀ st', w_pc st' = w_pc st → w_state st' k ≠ SLEEPING → ¬ falls_asleep st' k) as Hno.
  { intros st' Ep Hs. rewrite /falls_asleep Ep. destruct (w_pc st k) eqn:Ek; try tauto;
      (assert (i = k) as <- by (apply (holder_ptable st); [done|done|by rewrite Ek]); congruence). }
  case_bool_decide as Hb.
  - split; [apply (rouse_inv i); [done|done|congruence|apply Hb]|]. apply Hno; [done|]. by rewrite /= fn_lookup_insert.
  - split; [done|]. destruct (decide (w_state st k = SLEEPING)) as [Hs|Hs]; [|by apply Hno].
    pose proof (wo_local _ HI k) as Hk. rewrite /local_ok /falls_asleep in Hk |- *. intros Ha.
    destruct (w_pc st k) eqn:Ek; try done; by intuition congruence.
Qed.

Lemma wakeup_inv i st st' : wakeup_ok st → (i < NPROC)%nat → wakeup_step i st = Some st' → wakeup_ok st'.
Proof.
  intros HI Hi. pose proof (wo_local _ HI i) as Hok. rewrite /wakeup_step. rewrite /local_ok in Hok.
  destruct (w_pc st i) eqn:E; try done.
  - case_bool_decide as Hl; intros Hs.
    + apply (inv_acquire LkPtable i (WScan 0) st); [done..| | |]; where_ E.
    + injection Hs as <-. apply (inv_local_step i (WScan 0) st); [done..| |]; where_ E.
  - destruct (Nat.ltb_spec k NPROC) as [Hk|Hk]; intros [= <-].
    + destruct (wake1_inv i k st HI E) as [HI1 Hno]. set (st1 := wake1 k st) in *.
      assert (w_pc st1 i = WScan k) as E1 by (rewrite /st1 /wake1; by case_bool_decide).
      apply (inv_local_step i (WScan (S k)) st1); [done..| |]; where_ E1. split_and!; [|done|].
      * pose proof (wo_local _ HI1 i) as Hok1. by rewrite /local_ok E1 in Hok1.
      * intros j _ Ha Hkj. destruct (decide (j = k)) as [->|]; [|lia]. destruct Hno. rewrite /falls_asleep.
        destruct (decide (i = k)) as [<-|Hne]; [by rewrite fn_lookup_insert in Ha|by rewrite fn_lookup_insert_ne in Ha].
    + case_bool_decide as Hl; [apply (inv_local_step i WRelease st)|apply (inv_local_step i Leave st)]; try done; where_ E.
  - intros Hs. apply (inv_release LkPtable i Leave st); [done..| | |]; where_ E.
Qed.

Lemma kill_inv i st st' : wakeup_ok st → (i < NPROC)%nat → kill_at_step i st = Some st' → wakeup_ok st'.
Proof.
  intros HI Hi. rewrite /kill_at_step. destruct (w_pc st i) eqn:E; try done.
  - intros [= <-]. set (st1 := if bool_decide _ then _ else _).
    assert (wakeup_ok st1) as HI1.
    { unfold st1. case_bool_decide as Hs; [|done]. by apply (rouse_inv i); rewrite ?E. }
    assert (w_pc st1 i = KScan k) as E1 by (unfold st1; by case_bool_decide).
    pose proof (wo_local _ HI1 i) as Hok. rewrite /local_ok E1 in Hok.
    apply (inv_local_step i KRelease st1); [done..| |]; where_ E1.
  - pose proof (wo_local _ HI i) as Hok. rewrite /local_ok E in Hok.
    intros Hs. apply (inv_release LkPtable i Idle st); [done..| | |]; where_ E.
Qed.

(** The holder of the lock changes the condition; who makes it true calls wakeup(). *)
Lemma cond_inv i p b st :
  wakeup_ok st → (i < NPROC)%nat → w_pc st i = Set_ ∧ p = WAcquire ∨ w_pc st i = Done ∧ p = Leave → 
  wakeup_ok (goto i p (set_cond b st)).
Proof.
  intros HI Hi E. pose proof (wo_local _ HI i) as Hok. rewrite /local_ok in Hok.
  assert (in_lk (w_pc st i) = true) as Hlk by by destruct E as [[-> _]|[-> _]].
  assert (w_state st i ≠ SLEEPING) as Hs by by destruct E as [[E _]|[E _]]; rewrite E in Hok; [|destruct Hok].
  split.
  - apply (locks_same i p st HI). intros l. destruct E as [[-> ->]|[-> ->]]; done.
  - intros j. rewrite /local_ok /=. destruct (decide (i = j)) as [<-|Hj].
    { rewrite fn_lookup_insert. by destruct E as [[_ ->]|[_ ->]]. }
    rewrite fn_lookup_insert_ne //. pose proof (wo_local _ HI j) as Hj'. rewrite /local_ok in Hj'.
    destruct (w_pc st j) eqn:Ej; try done; destruct Hj; apply (holder_lk st); by rewrite ?Ej.
  - intros j Hj. rewrite /= fn_lookup_insert_ne; [lia|]. by apply (wo_procs _ HI).
  - intros j Hb Ha. destruct E as [[E ->]|[E ->]].
    { exists i. by rewrite /= fn_lookup_insert. }
    rewrite E in Hok. assert (falls_asleep st j) as Hf.
    { rewrite /falls_asleep /= in Ha |- *. destruct (decide (i = j)) as [<-|]; [by rewrite fn_lookup_insert in Ha|by rewrite fn_lookup_insert_ne in Ha]. }
    destruct (wo_wake _ HI j (proj1 Hok) Hf) as [k Hk]. exists k. rewrite /= fn_lookup_insert_ne //. intros <-. by rewrite E in Hk.
Qed.

Lemma step_inv i a st st' : wakeup_ok st → (i < NPROC)%nat → next_step i a st = Some st' → wakeup_ok st'.
Proof.
  intros HI Hi. pose proof (wo_local _ HI i) as Hok. rewrite /local_ok in Hok.
  pose proof (sleep_inv i st st' HI Hi) as Hsleep. pose proof (wakeup_inv i st st' HI Hi) as Hwakeup. pose proof (kill_inv i st st' HI Hi) as Hkill.
  rewrite /next_step. destruct (w_pc st i) eqn:E, a; try done; intros Hs.
  - apply (inv_acquire lk i Test st); [done..| | |]; where_ E.
  - apply (inv_acquire lk i Set_ st); [done..| | |]; where_ E.
  - apply (inv_acquire LkPtable i (KScan k) st); [done..| | |]; where_ E.
  - injection Hs as <-. apply (inv_local_step i Leave st); [done..| |]; where_ E.
  - injection Hs as <-. destruct (w_cond st) eqn:Ec;
      [apply (inv_local_step i Done st)|apply (inv_local_step i SAcquire st)]; try done; where_ E.
  - injection Hs as <-. apply cond_inv; auto.
  - injection Hs as <-. apply cond_inv; auto.
  - apply (inv_release lk i Idle st); [done..| | |]; where_ E.
Qed.

Lemma init_inv st : initial st → wakeup_ok st.
Proof.
  intros [Hl Hall]. split.
  - intros l i. destruct (Hall i) as [-> _]. rewrite Hl /holds /=. intuition congruence.
  - intros i. rewrite /local_ok. by destruct (Hall i) as [-> ?].
  - intros i _. apply Hall.
  - intros i _. rewrite /falls_asleep. by destruct (Hall i) as [-> _].
Qed.

Lemma reach_inv st st' : initial st → rtc any_step st st' → wakeup_ok st'.
Proof.
  intros Hi Hr. apply init_inv in Hi. induction Hr as [|st1 st2 st3 (i & a & Hlt & Hs) _ IH]; [done|].
  by apply IH, (step_inv i a st1).
Qed.

(** The holder of [ptable.lock] can go on, and so can that of the other lock when
    [ptable.lock] is free. *)
Lemma holder_goes_on l i st :
  wakeup_ok st → w_lock st l = Some i → l = LkPtable ∨ w_lock st LkPtable = None → ∃ a, is_Some (next_step i a st).
Proof.
  intros HI Hl Hpt. pose proof Hl as Hh. apply (wo_locks _ HI) in Hh. pose proof (wo_local _ HI i) as Hok.
  assert (w_pc st i = Done → ∃ a, is_Some (next_step i a st)) as Hdone.
  { intros E. exists (Use true). by rewrite /next_step E. }
  rewrite /local_ok in Hok. destruct (w_pc st i) eqn:E; try (by destruct Hh as [[_ [=]]|[_ [=]]]); try (by apply Hdone);
    exists Go; rewrite /next_step E /sleep_step /wakeup_step /kill_at_step /free_lock /sched_step ?E; repeat case_bool_decide; try done;
    try (by destruct (k <? NPROC)%nat); rewrite /take_lock.
  all: assert (w_lock st LkPtable = None) as -> by (destruct Hpt as [->|]; [destruct Hh as [[H1 H2]|[H1 H2]]; simpl in H2; congruence|done]); done.
Qed.

Lemma waker_holds st i j : wakeup_ok st → will_wake (w_pc st j) i → w_lock st lk = Some j.
Proof. intros HI Hw. apply (wo_locks _ HI). left. split; [done|]. by destruct (w_pc st j). Qed.

(** C26: no wakeup is lost, whatever the order in which the processes execute the
    statements of sleep(), wakeup() and kill(). A process that sleeps does so on its
    channel; if its condition has become true in the meantime, the process that made it
    true still holds the lock of the condition and its wakeup() has yet to look at the
    sleeper, so when the lock is free nobody sleeps whose condition holds. wakeup1() never
    runs while a process is between the acquire(&ptable.lock) of its sleep() and sched().
    sleep()'s callers leave their loop with the condition true and the lock held. Nobody
    panics, and of the processes that hold a lock one can always go on. *)
Theorem no_lost_wakeup st st' :
  initial st → rtc any_step st st' →
  (∀ i, w_pc st' i = Off → w_state st' i = SLEEPING →
     w_chan st' i = Some ch ∧
     (w_cond st' = true → ∃ j, w_lock st' lk = Some j ∧ will_wake (w_pc st' j) i)) ∧
  (∀ i j k, w_pc st' j = WScan k → ¬ falls_asleep st' i ∨ w_pc st' i = Off) ∧
  (∀ i, w_pc st' i = Done → w_cond st' = true ∧ w_lock st' lk = Some i) ∧
  (∀ i, w_pc st' i ≠ Panicked) ∧
  (∀ l j, w_lock st' l = Some j → ∃ l' i a, w_lock st' l' = Some i ∧ is_Some (next_step i a st')).
Proof.
  intros Hi Hr. pose proof (reach_inv st st' Hi Hr) as HI. split_and!.
  - intros i E Hs. pose proof (wo_local _ HI i) as Hok. rewrite /local_ok E in Hok. split; [done|]. intros Hc.
    destruct (wo_wake _ HI i Hc) as [j Hj]; [by rewrite /falls_asleep E|]. exists j. split; [by apply (waker_holds st' i)|done].
  - intros i j k E. rewrite /falls_asleep. destruct (w_pc st' i) eqn:Ei; auto; left; intros _;
      (assert (i = j) as -> by (apply (holder_ptable st'); [done|by rewrite Ei|by rewrite E]); congruence).
  - intros i E. pose proof (wo_local _ HI i) as Hok. rewrite /local_ok E in Hok. split; [apply Hok|].
    apply (wo_locks _ HI). left. by rewrite E.
  - intros i E. pose proof (wo_local _ HI i) as Hok. by rewrite /local_ok E in Hok.
  - intros l j Hl. destruct (w_lock st' LkPtable) as [i|] eqn:Ept.
    + destruct (holder_goes_on LkPtable i st') as [a Ha]; [done|done|by left|]. by exists LkPtable, i, a.
    + destruct (holder_goes_on l j st') as [a Ha]; [done|done|by right|]. by exists l, j, a.
Qed.

Lemma run_reach l st st' : run_steps l st = Some st' → rtc any_step st st'.
Proof.
  revert st. induction l as [|[i a] l IH]; intros st; simpl; [intros [= <-]; apply rtc_refl|].
  destruct (Nat.ltb_spec i NPROC); [|done]. destruct (next_step i a st) as [st1|] eqn:E; [|done].
  intros Hr. apply (rtc_l _ _ st1); [by exists i, a|by apply IH].
Qed.

End system.

(** ** An instance: begin_op() waits for the log, and end_op() comes in between *)

Definition demo_init : sys := Sys (λ _, None) false (λ _, Idle) (λ _, RUNNABLE) (λ _, None).

(** Process 1 makes the condition true as soon as process 0 has released the lock, before
    that one is on its channel. *)
Definition demo_steps : list (nat * action) :=
  [(0, Wait); (0, Go); (0, Go); (0, Go); (1, Wake); (1, Go); (0, Go); (0, Go); (0, Go)]%nat.

Lemma no_lost_wakeup_witness :
  let st := default demo_init (run_steps LkLog ChLog demo_steps demo_init) in
  w_pc st 0%nat = Off ∧ w_state st 0%nat = SLEEPING ∧ w_cond st = true ∧
  ∃ j, w_lock st LkLog = Some j ∧ will_wake (w_pc st j) 0.
Proof.
  intros st. destruct (no_lost_wakeup LkLog ChLog demo_init st) as [H _].
  - split; [reflexivity|]. intros i. split; [reflexivity|discriminate].
  - apply (run_reach LkLog ChLog demo_steps). vm_compute. reflexivity.
  - split_and!; [reflexivity..|]. apply (H 0%nat); reflexivity.
Defined.
