(* ===== verification/Sleeplock.v ===== *)
(** * Sleep locks: sleeplock.c

    acquiresleep() gives the CPU away while the lock is taken; its loop is
    [acquiresleep_loop], entered again by [acquiresleep_resume] when a wakeup
    lets the process run. *)

From S2P Require Import Prelude Param State Spinlock Sched.

Definition slock_of (s : kstate) (sl : slid) : sleeplock :=
  default (Sleeplock false 0) (k_slocks s !! sl).

Definition initsleeplock (sl : slid) : K unit :=
  initlock (LkSleep sl);;
  modify (λ s, set_slocks (delete sl (k_slocks s)) s).

(** The while loop of acquiresleep() and what follows it. *)
Definition acquiresleep_loop (sl : slid) : K unit :=
  l ← gets (λ s, slock_of s sl);
  if sl_locked l then sleep (ChSleep sl) (LkSleep sl) else
  i ← cur;
  p ← getproc i;
  modify (λ s, set_slocks (<[sl := Sleeplock true (p_pid p)]> (k_slocks s)) s);;
  release (LkSleep sl).

Definition acquiresleep (sl : slid) : K unit :=
  acquire (LkSleep sl);;
  acquiresleep_loop sl.

Definition acquiresleep_resume (sl : slid) (ie : bool) : K unit :=
  sleep_resume (LkSleep sl) ie;;
  acquiresleep_loop sl.

Definition releasesleep (sl : slid) : K unit :=
  acquire (LkSleep sl);;
  modify (λ s, set_slocks (delete sl (k_slocks s)) s);;
  wakeup (ChSleep sl);;
  release (LkSleep sl).

Definition holdingsleep (sl : slid) : K bool :=
  acquire (LkSleep sl);;
  l ← gets (λ s, slock_of s sl);
  release (LkSleep sl);;
  mret (sl_locked l).

(** ** Running with no spin lock held

    [calm s]: the CPU holds no spin lock, no other CPU does, interrupts nesting
    is zero and a process of the table is running. This is the situation in
    which system calls enter the file system. *)

Record calm (s : kstate) : Prop := {
  calm_locks : k_locks s = ∅;
  calm_ncli : ncli (k_cpu s) = 0;
  calm_proc : ∃ i p, k_proc s = Some i ∧ procs s !! i = Some p
}.

(** States that differ at most in the CPU's stale [intena] and in processes that
    were asleep and have been made runnable. *)
Definition woke (p p' : proc) : Prop :=
  p' = p ∨ (p_state p = SLEEPING ∧ p' = set_state RUNNABLE p).

Definition settled (s s' : kstate) : Prop :=
  ∃ ie l, Forall2 woke (procs s) l ∧
    s' = set_cpu (Cpu (cpu_id (k_cpu s)) (ncli (k_cpu s)) ie (eflags_IF (k_cpu s)))
           (set_procs l s).

(** ** Lemmas *)

Lemma calm_cpu_ok s : calm s → cpu_ok (k_cpu s).
Proof. intros [_ Hn _]. split; lia. Qed.

Lemma calm_free s lk : calm s → k_locks s !! lk = None.
Proof. intros [-> _ _]. apply lookup_empty. Qed.

Lemma acquiresleep_Ok sl s i p :
  k_locks s !! LkSleep sl = None → cpu_ok (k_cpu s) →
  sl_locked (slock_of s sl) = false → k_proc s = Some i → procs s !! i = Some p →
  acquiresleep sl s =
    Ok tt (set_slocks (<[sl := Sleeplock true (p_pid p)]> (k_slocks s)) (crit s)).
Proof.
  intros Hl Hok Hf Hp Hi. rewrite /acquiresleep bind_acquire // /acquiresleep_loop bind_gets.
  change (slock_of (enter _ s) sl) with (slock_of s sl). rewrite Hf.
  rewrite /cur /mbind /M_bind /gets /= Hp /=. rewrite (getproc_Ok _ _ p) //=.
  by rewrite (release_entered _ s).
Qed.

(** Taking a sleep lock that is held suspends the process on the lock. *)
Lemma acquiresleep_blocks sl s i p :
  k_locks s !! LkSleep sl = None → k_locks s !! LkPtable = None → ncli (k_cpu s) = 0 →
  sl_locked (slock_of s sl) = true → k_proc s = Some i → procs s !! i = Some p →
  acquiresleep sl s =
    Switch (SwSleep (ChSleep sl) (LkSleep sl) (eflags_IF (k_cpu s)))
      (set_procs (alter (asleep (ChSleep sl)) i (procs s)) (enter LkPtable (crit s))).
Proof.
  intros Hl Hpt Hn Hf Hp Hi. rewrite /acquiresleep bind_acquire // /acquiresleep_loop bind_gets.
  change (slock_of (enter _ s) sl) with (slock_of s sl). rewrite Hf.
  by rewrite (sleep_Switch _ _ s i p).
Qed.

Lemma releasesleep_Ok sl s :
  k_locks s !! LkSleep sl = None → k_locks s !! LkPtable = None → cpu_ok (k_cpu s) →
  releasesleep sl s =
    Ok tt (set_procs (wake (ChSleep sl) <$> procs s)
             (set_slocks (delete sl (k_slocks s)) (crit s))).
Proof.
  intros Hl Hpt Hok. rewrite /releasesleep bind_acquire // bind_modify.
  rewrite (bind_Ok _ _ _ _ _ (wakeup_Ok _ _ _ _)).
  - rewrite /= lookup_insert_ne //.
  - by apply push_cpu_ok.
  - destruct Hok as [H0 H1]. rewrite (release_entered _ s) //=.
    rewrite /crit_cpu /push_cpu /=. by replace (ncli (k_cpu s) + 1 =? 0) with false by lia.
Qed.

Lemma holdingsleep_Ok sl s :
  k_locks s !! LkSleep sl = None → cpu_ok (k_cpu s) →
  holdingsleep sl s = Ok (sl_locked (slock_of s sl)) (crit s).
Proof.
  intros Hl Hok. rewrite /holdingsleep bind_acquire // bind_gets.
  by rewrite (bind_release _ _ s).
Qed.

Lemma woke_trans p1 p2 p3 : woke p1 p2 → woke p2 p3 → woke p1 p3.
Proof. rewrite /woke. intros [->|[? ->]] [->|[? ->]]; naive_solver. Qed.

Lemma woke_wake ch p : woke p (wake ch p).
Proof. rewrite /wake /woke. case_bool_decide; naive_solver. Qed.

Lemma settled_refl s : settled s s.
Proof.
  exists (intena (k_cpu s)), (procs s). split.
  - apply Forall_Forall2_diag, Forall_forall. by left.
  - by destruct s as [[] ? ? ? [] ? ? ? ? ? ? ?].
Qed.

Lemma settled_trans s1 s2 s3 : settled s1 s2 → settled s2 s3 → settled s1 s3.
Proof.
  intros (ie & l & Hl & ->) (ie' & l' & Hl' & ->). exists ie', l'. split; [|done].
  exact (Forall2_trans _ _ _ _ _ _ woke_trans Hl Hl').
Qed.

#[global] Instance settled_preorder : PreOrder settled.
Proof. split; [exact settled_refl|exact settled_trans]. Qed.

Lemma settled_crit s : settled s (crit s).
Proof.
  exists (if ncli (k_cpu s) =? 0 then eflags_IF (k_cpu s) else intena (k_cpu s)), (procs s). split.
  - apply Forall_Forall2_diag, Forall_forall. by left.
  - by destruct s as [[] ? ? ? [] ? ? ? ? ? ? ?].
Qed.

Lemma settled_wake ch s : settled s (set_procs (wake ch <$> procs s) (crit s)).
Proof.
  eexists _, _. split; [|done]. apply Forall2_fmap_r, Forall_Forall2_diag, Forall_forall.
  intros. apply woke_wake.
Qed.

(** Everything but the interrupt state and the process table is unchanged. *)
Lemma settled_fields s s' :
  settled s s' →
  k_proc s' = k_proc s ∧ k_locks s' = k_locks s ∧ k_slocks s' = k_slocks s ∧
  k_mem s' = k_mem s ∧ k_bio s' = k_bio s ∧ k_log s' = k_log s ∧ k_fs s' = k_fs s ∧
  k_files s' = k_files s ∧ k_ticks s' = k_ticks s ∧ k_hw s' = k_hw s.
Proof. by intros (ie & l & _ & ->). Qed.

Lemma settled_calm s s' : settled s s' → calm s → calm s'.
Proof.
  intros (ie & l & Hl & ->) [Hlk Hn (i & p & Hp & Hi)]. split; simpl; [done..|].
  destruct (Forall2_lookup_l _ _ _ _ _ Hl Hi) as (p' & Hp' & _). eauto.
Qed.

(** The process table keeps its size; pids and parents are unchanged. *)
Lemma settled_procs s s' i p :
  settled s s' → procs s !! i = Some p → ∃ p', procs s' !! i = Some p' ∧ woke p p'.
Proof. intros (ie & l & Hl & ->) Hi. exact (Forall2_lookup_l _ _ _ _ _ Hl Hi). Qed.

#[global] Instance set_slocks_settled v : Proper (settled ==> settled) (set_slocks v).
Proof. intros s s' (ie & l & Hl & ->). by exists ie, l. Qed.
#[global] Instance set_bio_settled v : Proper (settled ==> settled) (set_bio v).
Proof. intros s s' (ie & l & Hl & ->). by exists ie, l. Qed.
#[global] Instance set_log_settled v : Proper (settled ==> settled) (set_log v).
Proof. intros s s' (ie & l & Hl & ->). by exists ie, l. Qed.
#[global] Instance set_fs_settled v : Proper (settled ==> settled) (set_fs v).
Proof. intros s s' (ie & l & Hl & ->). by exists ie, l. Qed.
#[global] Instance set_files_settled v : Proper (settled ==> settled) (set_files v).
Proof. intros s s' (ie & l & Hl & ->). by exists ie, l. Qed.
#[global] Instance set_mem_settled v : Proper (settled ==> settled) (set_mem v).
Proof. intros s s' (ie & l & Hl & ->). by exists ie, l. Qed.

(** States that differ at most in the CPU's stale [intena]: the effect of a
    critical section that does nothing. [memonly]: only memory changed besides. *)
Definition stale (s s' : kstate) : Prop :=
  ∃ ie, s' = set_cpu (Cpu (cpu_id (k_cpu s)) (ncli (k_cpu s)) ie (eflags_IF (k_cpu s))) s.

Definition memonly (s s' : kstate) : Prop := stale (set_mem (k_mem s') s) s'.

#[global] Instance stale_preorder : PreOrder stale.
Proof.
  split.
  - intros s. exists (intena (k_cpu s)). destruct s as [[] ? ? ? ? ? ? ? ? ? ? ?]. done.
  - intros s1 s2 s3 [ie ->] [ie' ->]. by exists ie'.
Qed.

Lemma stale_crit s : stale s (crit s).
Proof. by eexists. Qed.

Lemma stale_settled s s' : stale s s' → settled s s'.
Proof.
  intros [ie ->]. exists ie, (procs s). split; [|by destruct s as [? ? ? ? [] ? ? ? ? ? ? ?]].
  apply Forall2_same_length_lookup. split; [done|]. intros i p q -> [= ->]. by left.
Qed.

#[global] Instance set_mem_stale v : Proper (stale ==> stale) (set_mem v).
Proof. intros s1 s2 [ie ->]. by exists ie. Qed.

#[global] Instance memonly_preorder : PreOrder memonly.
Proof.
  split.
  - intros s. rewrite /memonly. destruct s. reflexivity.
  - intros s1 s2 s3 [ie H1] [ie' H2]. exists ie'. rewrite H2 H1. by destruct s1, s3.
Qed.

Lemma memonly_stale v s s' : stale (set_mem v s) s' → memonly s s'.
Proof. intros [ie ->]. by exists ie. Qed.

Lemma memonly_set v s : memonly s (set_mem v s).
Proof. exists (intena (k_cpu s)). by destruct s as [[] ? ? ? ? ? ? ? ? ? ? ?]. Qed.

Lemma memonly_fields s s' :
  memonly s s' →
  k_proc s' = k_proc s ∧ k_locks s' = k_locks s ∧ k_slocks s' = k_slocks s ∧ k_pt s' = k_pt s ∧
  k_bio s' = k_bio s ∧ k_log s' = k_log s ∧ k_fs s' = k_fs s ∧ k_files s' = k_files s ∧
  k_ticks s' = k_ticks s ∧ k_hw s' = k_hw s.
Proof. intros [ie ->]. done. Qed.

Lemma memonly_cpu_ok s s' : memonly s s' → cpu_ok (k_cpu s) → cpu_ok (k_cpu s').
Proof. intros [ie ->]. done. Qed.

Lemma memonly_locks lk s s' : memonly s s' → k_locks s !! lk = None → k_locks s' !! lk = None.
Proof. intros [ie ->]. done. Qed.
