(* ===== verification/Bio.v ===== *)
(** * Buffer cache: bio.c, over a disk driver

    The doubly linked LRU list of buffers (binit, bget, brelse), bread and
    bwrite. The driver's iderw() is an interface, [IdeDriver]: the operation and
    what the buffer cache relies on; memide.c implements it below and ide.c in
    its own file. *)

From S2P Require Import Prelude Param State Spinlock Sched Sleeplock.

Definition BSIZE : Z := 512.

(** ** Buffers of the cache *)

Definition bufs (s : kstate) : list buf := bc_bufs (k_bio s).

Definition set_bufs (l : list buf) (s : kstate) : kstate :=
  set_bio (Bio l (dk_blocks (k_bio s)) (dk_size (k_bio s)) (dk_trace (k_bio s))) s.

(** A block of the disk; blocks never written read as zeroes. *)
Definition dblock (s : kstate) (b : Z) : list Z :=
  default (replicate 512 0) (dk_blocks (k_bio s) !! b).

Definition set_flags (v : Z) (b : buf) : buf :=
  Buf v (b_dev b) (b_blockno b) (b_refcnt b) (b_prev b) (b_next b) (b_data b).
Definition set_refcnt (v : Z) (b : buf) : buf :=
  Buf (b_flags b) (b_dev b) (b_blockno b) v (b_prev b) (b_next b) (b_data b).
Definition set_prev (v : nat) (b : buf) : buf :=
  Buf (b_flags b) (b_dev b) (b_blockno b) (b_refcnt b) v (b_next b) (b_data b).
Definition set_next (v : nat) (b : buf) : buf :=
  Buf (b_flags b) (b_dev b) (b_blockno b) (b_refcnt b) (b_prev b) v (b_data b).
Definition set_data (v : list Z) (b : buf) : buf :=
  Buf (b_flags b) (b_dev b) (b_blockno b) (b_refcnt b) (b_prev b) (b_next b) v.

Definition getbuf (i : nat) : K buf :=
  l ← gets bufs;
  match l !! i with Some b => mret b | None => fault 0 end.

Definition updbuf (i : nat) (f : buf → buf) : K unit :=
  modify (λ s, set_bufs (alter f i (bufs s)) s).

(** [&bcache.head] *)
Definition head : nat := NBUF.

(** ** binit *)

(** The body of the loop of binit(). *)
Definition binit_one (b : nat) : K unit :=
  h ← getbuf head;
  updbuf b (set_next (b_next h));;
  updbuf b (set_prev head);;
  initsleeplock (SlBuf b);;
  updbuf (b_next h) (set_prev b);;
  updbuf head (set_next b).

Definition binit : K unit :=
  initlock LkBcache;;
  updbuf head (set_prev head);;
  updbuf head (set_next head);;
  for_each (seq 0 NBUF) binit_one.

(** ** The driver interface *)

(** What iderw(b) needs: the caller holds the buffer's lock and no spin lock,
    and the block is on disk 1. *)
Record ide_pre (i : nat) (b : buf) (s : kstate) : Prop := {
  ide_calm : calm s;
  ide_buf : bufs s !! i = Some b;
  ide_held : sl_locked (slock_of s (SlBuf i)) = true;
  ide_dev : b_dev b = 1;
  ide_range : 0 ≤ b_blockno b < dk_size (k_bio s);
  ide_fssize : b_blockno b < FSSIZE
}.

(** The disk after [b] has been written: its block replaced, and the write
    recorded at the end of the history. *)
Definition disk_write (b : buf) (s : kstate) : kstate :=
  set_bio (Bio (bufs s) (<[b_blockno b := b_data b]> (dk_blocks (k_bio s)))
               (dk_size (k_bio s)) (dk_trace (k_bio s) ++ [(b_blockno b, b_data b)])) s.

Class IdeDriver := {
  iderw : nat → K unit;
  (** "Else if B_VALID is not set, read buf from disk, set B_VALID." *)
  iderw_read i b s :
    ide_pre i b s → b_flags b = 0 →
    ∃ s', iderw i s = Ok tt s' ∧
      settled (set_bufs (<[i := set_flags B_VALID (set_data (dblock s (b_blockno b)) b)]> (bufs s)) s) s';
  (** "If B_DIRTY is set, write buf to disk, clear B_DIRTY, set B_VALID." *)
  iderw_write i b s :
    ide_pre i b s → b_flags b = Z.lor B_VALID B_DIRTY →
    ∃ s', iderw i s = Ok tt s' ∧
      settled (set_bufs (<[i := set_flags B_VALID b]> (bufs s)) (disk_write b s)) s'
}.

(** ** bget, bread, bwrite, brelse *)

Section bio.
Context `{IdeDriver}.

(** First loop of bget(): is the block already cached? *)
Definition bget_hit (dev blockno : Z) (b : nat) : K (nat + option nat) :=
  if bool_decide (b = head) then mret (inr None) else
  x ← getbuf b;
  if (b_dev x =? dev) && (b_blockno x =? blockno) then
    updbuf b (set_refcnt (u32 (b_refcnt x + 1)));;
    release LkBcache;;
    acquiresleep (SlBuf b);;
    mret (inr (Some b))
  else mret (inl (b_next x)).

(** Second loop: recycle an unused, clean buffer. *)
Definition bget_recycle (dev blockno : Z) (b : nat) : K (nat + option nat) :=
  if bool_decide (b = head) then mret (inr None) else
  x ← getbuf b;
  if (b_refcnt x =? 0) && (Z.land (b_flags x) B_DIRTY =? 0) then
    updbuf b (λ x, Buf 0 dev blockno 1 (b_prev x) (b_next x) (b_data x));;
    release LkBcache;;
    acquiresleep (SlBuf b);;
    mret (inr (Some b))
  else mret (inl (b_prev x)).

(** The bound on both loops: the list has [NBUF] buffers and its head. *)
Definition list_fuel : nat := S (S NBUF).

Definition bget (dev blockno : Z) : K nat :=
  acquire LkBcache;;
  h ← getbuf head;
  r ← loop list_fuel (bget_hit dev blockno) (b_next h);
  match r with
  | Some b => mret b
  | None =>
      h ← getbuf head;
      r ← loop list_fuel (bget_recycle dev blockno) (b_prev h);
      match r with
      | Some b => mret b
      | None => panic "bget: no buffers"
      end
  end.

Definition bread (dev blockno : Z) : K nat :=
  b ← bget dev blockno;
  x ← getbuf b;
  when (Z.land (b_flags x) B_VALID =? 0) (iderw b);;
  mret b.

Definition bwrite (b : nat) : K unit :=
  h ← holdingsleep (SlBuf b);
  if negb h then panic "bwrite" else
  updbuf b (λ x, set_flags (Z.lor (b_flags x) B_DIRTY) x);;
  iderw b.

(** Unlink [b] and put it at the front of the list, pointer by pointer. *)
Definition move_front (b : nat) : K unit :=
  x ← getbuf b;
  updbuf (b_next x) (set_prev (b_prev x));;
  x ← getbuf b;
  updbuf (b_prev x) (set_next (b_next x));;
  h ← getbuf head;
  updbuf b (set_next (b_next h));;
  updbuf b (set_prev head);;
  h ← getbuf head;
  updbuf (b_next h) (set_prev b);;
  updbuf head (set_next b).

Definition brelse (b : nat) : K unit :=
  h ← holdingsleep (SlBuf b);
  if negb h then panic "brelse" else
  releasesleep (SlBuf b);;
  acquire LkBcache;;
  updbuf b (λ x, set_refcnt (u32 (b_refcnt x - 1)) x);;
  x ← getbuf b;
  when (b_refcnt x =? 0) (move_front b);;
  release LkBcache.

End bio.

(** ** The linked list

    [linked bs c]: following [next] from each element of [c] gives the element
    after it, and [prev] leads back. The cache's list is the cycle that starts
    and ends at the head. *)

Definition nxt (bs : list buf) (i : nat) : option nat := b_next <$> bs !! i.
Definition prv (bs : list buf) (i : nat) : option nat := b_prev <$> bs !! i.

Fixpoint linked (bs : list buf) (c : list nat) : Prop :=
  match c with
  | a :: ((b :: _) as c') => nxt bs a = Some b ∧ prv bs b = Some a ∧ linked bs c'
  | _ => True
  end.

(** [dll bs l]: the list runs through the buffers in the order [l], most
    recently used first. *)
Record dll (bs : list buf) (l : list nat) : Prop := {
  dll_len : length bs = S NBUF;
  dll_perm : l ≡ₚ seq 0 NBUF;
  dll_linked : linked bs (head :: l ++ [head])
}.

Lemma linked_app bs c1 a c2 :
  linked bs (c1 ++ a :: c2) ↔ linked bs (c1 ++ [a]) ∧ linked bs (a :: c2).
Proof.
  induction c1 as [|x c1 IH]; [naive_solver|].
  destruct c1 as [|y c1]; simpl in *; naive_solver.
Qed.

Lemma linked_prefix bs c1 c2 : linked bs (c1 ++ c2) → linked bs c1.
Proof.
  induction c1 as [|x c1 IH]; [done|].
  destruct c1 as [|y c1]; simpl in *; naive_solver.
Qed.

Lemma linked_tail bs a c : linked bs (a :: c) → linked bs c.
Proof. destruct c; [done|]. by intros (_ & _ & ?). Qed.

(** The list only depends on [next] of its elements but the last and on [prev]
    of its elements but the first. *)
Lemma linked_frame bs bs' x c y :
  (∀ i, i ∈ x :: c → nxt bs' i = nxt bs i) →
  (∀ i, i ∈ c ++ [y] → prv bs' i = prv bs i) →
  linked bs (x :: c ++ [y]) → linked bs' (x :: c ++ [y]).
Proof.
  revert x. induction c as [|z c IH]; intros x Hn Hp; simpl in *.
  - rewrite Hn ?Hp //; set_solver.
  - rewrite Hn ?Hp; [set_solver..|]. intros (? & ? & ?). split_and!; [done..|].
    apply IH; set_solver.
Qed.

Lemma nxt_set_next bs i j v :
  nxt (alter (set_next v) j bs) i = if bool_decide (i = j) then (λ _, v) <$> bs !! i else nxt bs i.
Proof.
  rewrite /nxt list_lookup_alter. case_decide; subst.
  - rewrite bool_decide_eq_true_2 //. by destruct (bs !! i).
  - rewrite bool_decide_eq_false_2 //. congruence.
Qed.

Lemma prv_set_prev bs i j v :
  prv (alter (set_prev v) j bs) i = if bool_decide (i = j) then (λ _, v) <$> bs !! i else prv bs i.
Proof.
  rewrite /prv list_lookup_alter. case_decide; subst.
  - rewrite bool_decide_eq_true_2 //. by destruct (bs !! i).
  - rewrite bool_decide_eq_false_2 //. congruence.
Qed.

(** Other updates keep the pointers. *)
Lemma nxt_alter bs i j f : (∀ b, b_next (f b) = b_next b) → nxt (alter f j bs) i = nxt bs i.
Proof.
  intros Hf. rewrite /nxt list_lookup_alter. case_decide; [subst|done].
  destruct (bs !! i); simpl; by rewrite ?Hf.
Qed.
Lemma prv_alter bs i j f : (∀ b, b_prev (f b) = b_prev b) → prv (alter f j bs) i = prv bs i.
Proof.
  intros Hf. rewrite /prv list_lookup_alter. case_decide; [subst|done].
  destruct (bs !! i); simpl; by rewrite ?Hf.
Qed.

(** *** Moving a buffer to the front *)

(** [b->next->prev = b->prev; b->prev->next = b->next;] *)
Definition unlink_bufs (pv nx : nat) (bs : list buf) : list buf :=
  alter (set_next nx) pv (alter (set_prev pv) nx bs).

(** [b->next = head.next; b->prev = &head; head.next->prev = b; head.next = b;] *)
Definition push_bufs (b h1 : nat) (bs : list buf) : list buf :=
  alter (set_next b) head (alter (set_prev b) h1
    (alter (set_prev head) b (alter (set_next h1) b bs))).

Lemma nxt_unlink bs pv nx i :
  nxt (unlink_bufs pv nx bs) i = if bool_decide (i = pv) then (λ _, nx) <$> bs !! i else nxt bs i.
Proof.
  rewrite /unlink_bufs nxt_set_next nxt_alter // list_lookup_alter.
  case_bool_decide; [|done]. case_decide; by destruct (bs !! _) eqn:E; subst; rewrite ?E.
Qed.

Lemma prv_unlink bs pv nx i :
  prv (unlink_bufs pv nx bs) i = if bool_decide (i = nx) then (λ _, pv) <$> bs !! i else prv bs i.
Proof. rewrite /unlink_bufs prv_alter // prv_set_prev //. Qed.

Lemma linked_unlink bs l1 b l2 pv nx :
  NoDup (head :: l1 ++ b :: l2) → (∀ i, i ∈ head :: l1 ++ b :: l2 → is_Some (bs !! i)) →
  linked bs (head :: l1 ++ b :: l2 ++ [head]) →
  prv bs b = Some pv → nxt bs b = Some nx →
  linked (unlink_bufs pv nx bs) (head :: (l1 ++ l2) ++ [head]).
Proof.
  intros Hnd Hin Hl Hpv Hnx.
  assert (∃ p1, head :: l1 = p1 ++ [pv]) as [p1 Hp1].
  { destruct (exists_last (l := head :: l1)) as (p1 & x & Hx); [done|].
    exists p1. rewrite Hx. rewrite app_comm_cons Hx -app_assoc /= in Hl.
    apply linked_app in Hl as [_ (_ & Hb & _)]. congruence. }
  assert (∃ n2, l2 ++ [head] = nx :: n2) as [n2 Hn2].
  { destruct (l2 ++ [head]) as [|x n2] eqn:Hx; [by destruct l2|]. exists n2. f_equal.
    rewrite app_comm_cons in Hl. apply linked_app in Hl as [_ (Hb & _)]. congruence. }
  rewrite -app_assoc Hn2 app_comm_cons Hp1 -app_assoc /=.
  rewrite app_comm_cons Hp1 Hn2 -app_assoc /= in Hl.
  apply linked_app in Hl as [Hl1 (_ & _ & _ & _ & Hl2)].
  assert (pv ∈ head :: l1) as Hpvin by (rewrite Hp1; set_solver).
  assert (nx ∈ l2 ++ [head]) as Hnxin by (rewrite Hn2; set_solver).
  assert (pv ∉ l2 ∧ (nx ∉ l1) ∧ pv ∉ p1) as (Hd1 & Hd2 & Hd3).
  { rewrite app_comm_cons Hp1 in Hnd. split_and!.
    - apply NoDup_app in Hnd as (_ & Hdis & _). intros Hx. apply (Hdis pv); set_solver.
    - rewrite -Hp1 in Hnd. apply NoDup_cons in Hnd as [Hh Hnd].
      apply NoDup_app in Hnd as (_ & Hdis & _). intros Hx.
      apply elem_of_app in Hnxin as [?|?%list_elem_of_singleton]; [|set_solver].
      apply (Hdis nx); set_solver.
    - apply NoDup_app in Hnd as (Hnd & _). apply NoDup_app in Hnd as (_ & Hdis & _).
      intros Hx. apply (Hdis pv); set_solver. }
  apply linked_app. split; [|split_and!].
  - destruct p1 as [|x p1]; [done|]. simpl in Hp1. injection Hp1 as <- Hp1.
    simpl in *. apply (linked_frame bs); [| |done].
    + intros i Hi. rewrite nxt_unlink bool_decide_eq_false_2 //. set_solver.
    + intros i Hi. rewrite prv_unlink bool_decide_eq_false_2 //. set_solver.
  - rewrite nxt_unlink bool_decide_eq_true_2 //.
    destruct (Hin pv) as [x ->]; [set_solver|done].
  - rewrite prv_unlink bool_decide_eq_true_2 //.
    destruct (Hin nx) as [x ->]; [set_solver|done].
  - destruct l2 as [|y l2]; simpl in Hn2; injection Hn2 as Hnx' <-; [done|]. subst nx.
    apply (linked_frame bs); [| |done].
    + intros i Hi. rewrite nxt_unlink bool_decide_eq_false_2 //. set_solver.
    + intros i Hi. rewrite prv_unlink bool_decide_eq_false_2 //. intros ->.
      apply elem_of_app in Hi as [Hi|Hi%list_elem_of_singleton].
      * apply NoDup_cons in Hnd as [_ Hnd]. apply NoDup_app in Hnd as (_ & _ & Hnd).
        inversion_clear Hnd as [|? ? ? Hnd']. by inversion_clear Hnd'.
      * subst. apply NoDup_cons in Hnd as [Hh _]. set_solver.
Qed.

Lemma linked_push bs b h1 l :
  NoDup (head :: b :: l) → (∀ i, i ∈ head :: b :: l → is_Some (bs !! i)) →
  linked bs (head :: l ++ [head]) → nxt bs head = Some h1 →
  linked (push_bufs b h1 bs) (head :: b :: l ++ [head]).
Proof.
  intros Hnd Hin Hl Hh1.
  assert (b ≠ head ∧ b ∉ l) as [Hbh Hbl].
  { apply NoDup_cons in Hnd as [? [??]%NoDup_cons]. set_solver. }
  assert (∃ r, l ++ [head] = h1 :: r) as [r Hr].
  { destruct (l ++ [head]) as [|x r] eqn:Hx; [by destruct l|].
    destruct Hl as [? _]. exists r. congruence. }
  assert (∀ i, i ∈ l → nxt (push_bufs b h1 bs) i = nxt bs i) as Hn.
  { intros i Hi. rewrite /push_bufs nxt_set_next bool_decide_eq_false_2.
    { intros ->. apply NoDup_cons in Hnd as [Hnd _]. set_solver. }
    rewrite nxt_alter // nxt_alter // nxt_set_next bool_decide_eq_false_2 //. set_solver. }
  assert (∀ i, i ≠ b → i ≠ h1 → prv (push_bufs b h1 bs) i = prv bs i) as Hp.
  { intros i ??. rewrite /push_bufs prv_alter // prv_set_prev bool_decide_eq_false_2 //.
    rewrite prv_set_prev bool_decide_eq_false_2 // prv_alter //. }
  destruct (Hin head) as [xh Exh]; [set_solver|]. destruct (Hin b) as [xb Exb]; [set_solver|].
  destruct (Hin h1) as [x1 Ex1].
  { assert (h1 ∈ l ++ [head]) by (rewrite Hr; set_solver). set_solver. }
  assert (h1 ≠ b).
  { intros ->. assert (b ∈ l ++ [head]) by (rewrite Hr; set_solver). set_solver. }
  simpl. rewrite Hr. split_and!.
  - rewrite /nxt /push_bufs list_lookup_alter_eq !list_lookup_alter Exh.
    repeat case_decide; simplify_eq; rewrite ?Exh ?Exb ?Ex1 //.
  - rewrite /prv /push_bufs !list_lookup_alter Exb.
    repeat case_decide; simplify_eq; done.
  - rewrite /nxt /push_bufs !list_lookup_alter Exb.
    repeat case_decide; simplify_eq; done.
  - rewrite /prv /push_bufs !list_lookup_alter Ex1. repeat case_decide; simplify_eq; rewrite ?Exh ?Exb ?Ex1 //.
  - destruct l as [|y l]; simpl in Hr; injection Hr as Hy <-; [done|]. subst h1.
    destruct Hl as (_ & _ & Hl). apply (linked_frame bs); [done| |done].
    apply NoDup_cons in Hnd as [Hnh [_ Hnd]%NoDup_cons].
    apply NoDup_cons in Hnd as [Hny Hnd].
    intros i Hi. apply Hp; intros ->; set_solver.
Qed.

(** What a buffer holds besides its links. *)
Definition bcore (b : buf) : Z * Z * Z * Z * list Z :=
  (b_flags b, b_dev b, b_blockno b, b_refcnt b, b_data b).

Lemma bcore_alter f (i : nat) (bs : list buf) :
  (∀ x, bcore (f x) = bcore x) → bcore <$> alter f i bs = bcore <$> bs.
Proof.
  intros Hf. apply list_eq. intros j. rewrite !list_lookup_fmap list_lookup_alter.
  case_decide; [subst|done]. destruct (bs !! j); simpl; by rewrite ?Hf.
Qed.

Lemma bcore_unlink pv nx bs : bcore <$> unlink_bufs pv nx bs = bcore <$> bs.
Proof. by rewrite /unlink_bufs !bcore_alter. Qed.

Lemma bcore_push b h1 bs : bcore <$> push_bufs b h1 bs = bcore <$> bs.
Proof. by rewrite /push_bufs !bcore_alter. Qed.

Lemma getbuf_Ok i b s : bufs s !! i = Some b → getbuf i s = Ok b s.
Proof. intros Hb. rewrite /getbuf bind_gets Hb //. Qed.

Lemma dll_nodup bs l : dll bs l → NoDup (head :: l).
Proof.
  intros Hl. apply NoDup_cons. split.
  - rewrite (dll_perm _ _ Hl) elem_of_seq /head. lia.
  - rewrite (dll_perm _ _ Hl). apply NoDup_seq.
Qed.

Lemma dll_is_Some bs l i : dll bs l → i ∈ head :: l → is_Some (bs !! i).
Proof.
  intros Hl Hi. apply lookup_lt_is_Some. rewrite (dll_len _ _ Hl).
  apply elem_of_cons in Hi as [->|Hi]; [rewrite /head; lia|].
  rewrite (dll_perm _ _ Hl) elem_of_seq in Hi. lia.
Qed.

Lemma length_unlink pv nx bs : length (unlink_bufs pv nx bs) = length bs.
Proof. by rewrite /unlink_bufs !length_alter. Qed.

Lemma length_push b h1 bs : length (push_bufs b h1 bs) = length bs.
Proof. by rewrite /push_bufs !length_alter. Qed.

Lemma move_front_Ok s l1 b l2 :
  dll (bufs s) (l1 ++ b :: l2) →
  ∃ bs', move_front b s = Ok tt (set_bufs bs' s) ∧
    bcore <$> bs' = bcore <$> bufs s ∧ dll bs' (b :: l1 ++ l2).
Proof.
  intros Hl. pose proof (dll_nodup _ _ Hl) as Hnd.
  destruct (dll_is_Some _ _ b Hl) as [x Hx]; [set_solver|].
  set (bs1 := alter (set_prev (b_prev x)) (b_next x) (bufs s)).
  assert (∃ x1, bs1 !! b = Some x1 ∧ b_next x1 = b_next x ∧ b_prev x1 = b_prev x) as (x1 & Hx1 & Hn1 & Hp1).
  { subst bs1. rewrite list_lookup_alter Hx. case_decide as E; rewrite ?E ?Hx; eauto. }
  set (bs2 := unlink_bufs (b_prev x) (b_next x) (bufs s)).
  assert (linked bs2 (head :: (l1 ++ l2) ++ [head])) as Hl2.
  { apply (linked_unlink _ _ b).
    - done.
    - intros i. by apply dll_is_Some.
    - pose proof (dll_linked _ _ Hl) as Hk. by rewrite -app_assoc /= in Hk.
    - by rewrite /prv Hx.
    - by rewrite /nxt Hx. }
  assert (∀ i, i ∈ head :: b :: (l1 ++ l2) → is_Some (bs2 !! i)) as Hin.
  { intros i Hi. apply lookup_lt_is_Some. rewrite length_unlink. apply lookup_lt_is_Some.
    apply (dll_is_Some _ _ _ Hl). set_solver. }
  destruct (Hin head) as [h Hh]; [set_solver|].
  assert (b ≠ head) by (apply NoDup_cons in Hnd as [? _]; set_solver).
  exists (push_bufs b (b_next h) bs2). split; [|split].
  - rewrite /move_front (bind_Ok _ _ _ _ _ (getbuf_Ok _ _ _ Hx)) bind_modify.
    rewrite (bind_Ok _ _ _ _ _ (getbuf_Ok b x1 _ _)); [exact Hx1|]. rewrite bind_modify Hn1 Hp1.
    rewrite (bind_Ok _ _ _ _ _ (getbuf_Ok head h _ _)); [exact Hh|]. rewrite 2!bind_modify.
    rewrite (bind_Ok _ _ _ _ _ (getbuf_Ok head h _ _)).
    { change (alter (set_prev head) b (alter (set_next (b_next h)) b bs2) !! head = Some h).
      rewrite list_lookup_alter_ne; [done|]. rewrite list_lookup_alter_ne; done. }
    by rewrite bind_modify.
  - by rewrite bcore_push bcore_unlink.
  - split.
    + by rewrite length_push length_unlink (dll_len _ _ Hl).
    + rewrite -(dll_perm _ _ Hl). by rewrite Permutation_middle.
    + apply linked_push; [|done|done|by rewrite /nxt Hh].
      by rewrite Permutation_middle.
Qed.

(** *** Walking the list *)

Lemma linked_hd bs a c z : linked bs (a :: c ++ [z]) → nxt bs a = Some (List.hd z c).
Proof. by destruct c; intros (? & _). Qed.

Lemma linked_last bs z c a : linked bs (z :: c ++ [a]) → prv bs a = Some (List.last c z).
Proof.
  revert z. induction c as [|b c IH]; intros z; [by intros (_ & ? & _)|].
  intros (_ & _ & Hl). by rewrite (IH _ Hl) last_cons_cons.
Qed.

Definition bmatch (dev blockno : Z) (x : buf) : bool :=
  (b_dev x =? dev) && (b_blockno x =? blockno).

(** A buffer bget() may recycle. *)
Definition bfree (x : buf) : bool :=
  (b_refcnt x =? 0) && (Z.land (b_flags x) B_DIRTY =? 0).

Section walk.
Context `{IdeDriver}.

Lemma hit_walk dev bn s c z n :
  linked (bufs s) (c ++ [z]) → head ∉ c →
  (∀ i x, i ∈ c → bufs s !! i = Some x → bmatch dev bn x = false) →
  loop (length c + n) (bget_hit dev bn) (List.hd z c) s = loop n (bget_hit dev bn) z s.
Proof.
  induction c as [|i c IH]; intros Hl Hh Hm; [done|].
  pose proof (linked_hd _ _ _ _ Hl) as Hn. rewrite /nxt in Hn.
  destruct (bufs s !! i) as [x|] eqn:Hx; [|done]. injection Hn as Hn.
  rewrite (loop_S (length c + n) _ i s (b_next x) s).
  - rewrite /bget_hit bool_decide_eq_false_2; [set_solver|].
    rewrite (bind_Ok _ _ _ _ _ (getbuf_Ok _ _ _ Hx)). move: (Hm i x). rewrite /bmatch => -> //.
    set_solver.
  - rewrite Hn. apply IH; [|set_solver..]. by destruct c; [|destruct Hl as (_ & _ & ?)].
Qed.

Lemma recycle_walk dev bn s z c n :
  linked (bufs s) (z :: c) → head ∉ c →
  (∀ i x, i ∈ c → bufs s !! i = Some x → bfree x = false) →
  loop (length c + n) (bget_recycle dev bn) (List.last c z) s = loop n (bget_recycle dev bn) z s.
Proof.
  induction c as [|i c IH] using rev_ind; intros Hl Hh Hm; [done|].
  pose proof (linked_last _ _ _ _ Hl) as Hn. rewrite /prv in Hn.
  destruct (bufs s !! i) as [x|] eqn:Hx; [|done]. injection Hn as Hn.
  rewrite last_last. replace (length (c ++ [i]) + n)%nat with (S (length c + n)) by (rewrite length_app /=; lia).
  rewrite (loop_S (length c + n) _ i s (b_prev x) s).
  - rewrite /bget_recycle bool_decide_eq_false_2; [set_solver|].
    rewrite (bind_Ok _ _ _ _ _ (getbuf_Ok _ _ _ Hx)). move: (Hm i x). rewrite /bfree => -> //.
    set_solver.
  - rewrite Hn. apply IH; [|set_solver..].
    by apply (linked_prefix _ (z :: c) [i]).
Qed.

Lemma hit_head dev bn n s : loop (S n) (bget_hit dev bn) head s = Ok None s.
Proof. apply loop_done. by rewrite /bget_hit bool_decide_eq_true_2. Qed.

Lemma recycle_head dev bn n s : loop (S n) (bget_recycle dev bn) head s = Ok None s.
Proof. apply loop_done. by rewrite /bget_recycle bool_decide_eq_true_2. Qed.

(** bget() once it has chosen [b]: update it, leave the critical section, lock
    the buffer. *)
Definition bget_take (f : buf → buf) (b : nat) : K nat :=
  updbuf b f;; release LkBcache;; acquiresleep (SlBuf b);; mret b.

Lemma bget_take_bind {A} f b (g : nat → A) s :
  (bget_take f b ≫= λ b', mret (g b')) s =
  (updbuf b f;; release LkBcache;; acquiresleep (SlBuf b);; mret (g b)) s.
Proof.
  rewrite /bget_take !bind_assoc. rewrite /mbind /M_bind.
  destruct (updbuf _ _ _) as [? s1| | | | |]; [|done..].
  destruct (release _ _) as [? s2| | | | |]; [|done..].
  by destruct (acquiresleep _ _).
Qed.

(** The first buffer of the list [l] that satisfies [P]. *)
Definition lookup_buf (P : buf → bool) (bs : list buf) (l : list nat) : option nat :=
  find (λ i, if bs !! i is Some x then P x else false) l.

Lemma lookup_buf_Some P bs l i :
  lookup_buf P bs l = Some i →
  ∃ l1 l2 x, l = l1 ++ i :: l2 ∧ bs !! i = Some x ∧ P x = true ∧
    ∀ j y, j ∈ l1 → bs !! j = Some y → P y = false.
Proof.
  rewrite /lookup_buf. induction l as [|j l IH]; simpl; [done|].
  destruct (bs !! j) as [y|] eqn:Hy; [destruct (P y) eqn:HP|].
  - intros [= ->]. exists [], l, y. set_solver.
  - intros (l1 & l2 & x & -> & Hx & HPx & Hl1)%IH. exists (j :: l1), l2, x. split_and!; [done..|].
    intros k z [->|Hk]%elem_of_cons; [congruence|eauto].
  - intros (l1 & l2 & x & -> & Hx & HPx & Hl1)%IH. exists (j :: l1), l2, x. split_and!; [done..|].
    intros k z [->|Hk]%elem_of_cons; [congruence|eauto].
Qed.

Lemma lookup_buf_None P bs l :
  lookup_buf P bs l = None → ∀ i x, i ∈ l → bs !! i = Some x → P x = false.
Proof.
  rewrite /lookup_buf. intros Hn i x Hi Hx.
  apply list_elem_of_In in Hi. pose proof (find_none _ _ Hn _ Hi) as H1. by rewrite /= Hx in H1.
Qed.

Lemma hit_loop dev bn s l :
  dll (bufs s) l →
  loop list_fuel (bget_hit dev bn) (List.hd head l) s =
    match lookup_buf (bmatch dev bn) (bufs s) l with
    | Some i => (bget_take (λ x, set_refcnt (u32 (b_refcnt x + 1)) x) i ≫= λ b, mret (Some b)) s
    | None => Ok None s
    end.
Proof.
  intros Hl. pose proof (dll_nodup _ _ Hl) as [Hh _]%NoDup_cons.
  assert (length l = NBUF) as Hlen by (rewrite (dll_perm _ _ Hl) length_seq //).
  destruct Hl as [_ _ Hl%linked_tail].
  destruct (lookup_buf _ _ _) as [i|] eqn:Hf.
  - apply lookup_buf_Some in Hf as (l1 & l2 & x & -> & Hx & HP & Hl1).
    rewrite length_app /= in Hlen. replace list_fuel with (length l1 + S (S (S (length l2))))%nat
      by (rewrite /list_fuel; lia).
    replace (List.hd head (l1 ++ i :: l2)) with (List.hd i l1) by (by destruct l1).
    rewrite -app_assoc /= in Hl.
    rewrite hit_walk; [by apply linked_app in Hl as [? _]|set_solver|done|].
    apply loop_exit. rewrite /bget_hit bool_decide_eq_false_2; [set_solver|].
    rewrite (bind_Ok _ _ _ _ _ (getbuf_Ok _ _ _ Hx)). rewrite /bmatch in HP. rewrite HP.
    rewrite bget_take_bind /updbuf !bind_modify.
    rewrite (list_alter_ext (set_refcnt (u32 (b_refcnt x + 1))) (λ x, set_refcnt (u32 (b_refcnt x + 1)) x) _ (bufs s)) //.
    intros y Hy. rewrite Hx in Hy. by injection Hy as ->.
  - replace list_fuel with (length l + 2)%nat by (rewrite /list_fuel; lia).
    rewrite hit_walk //. intros i x. by apply lookup_buf_None.
Qed.

Lemma recycle_loop dev bn s l :
  dll (bufs s) l →
  loop list_fuel (bget_recycle dev bn) (List.last l head) s =
    match lookup_buf bfree (bufs s) (rev l) with
    | Some i => (bget_take (λ x, Buf 0 dev bn 1 (b_prev x) (b_next x) (b_data x)) i
                   ≫= λ b, mret (Some b)) s
    | None => Ok None s
    end.
Proof.
  intros Hl. pose proof (dll_nodup _ _ Hl) as [Hh _]%NoDup_cons.
  assert (length l = NBUF) as Hlen by (rewrite (dll_perm _ _ Hl) length_seq //).
  destruct Hl as [_ _ Hl]. rewrite app_comm_cons in Hl. apply linked_prefix in Hl.
  destruct (lookup_buf _ _ _) as [i|] eqn:Hf.
  - apply lookup_buf_Some in Hf as (l2 & l1 & x & Hrev & Hx & HP & Hl2).
    apply (f_equal (@rev nat)) in Hrev. rewrite rev_involutive rev_app_distr /= -app_assoc /= in Hrev.
    subst l. rewrite length_app /= !length_rev in Hlen.
    replace list_fuel with (length (rev l2) + S (S (S (length l1))))%nat
      by (rewrite /list_fuel length_rev; lia).
    rewrite app_comm_cons in Hl. apply linked_app in Hl as [_ Hl].
    replace (List.last (rev l1 ++ i :: rev l2) head) with (List.last (rev l2) i).
    2:{ by rewrite last_app_cons. }
    rewrite recycle_walk; [done|set_solver| |].
    { intros j y. rewrite elem_of_rev. apply Hl2. }
    apply loop_exit. rewrite /bget_recycle bool_decide_eq_false_2; [set_solver|].
    rewrite (bind_Ok _ _ _ _ _ (getbuf_Ok _ _ _ Hx)). rewrite /bfree in HP. rewrite HP.
    by rewrite bget_take_bind.
  - replace list_fuel with (length l + 2)%nat by (rewrite /list_fuel; lia).
    rewrite recycle_walk //. intros i x Hi. apply (lookup_buf_None _ _ _ Hf). by rewrite elem_of_rev.
Qed.

(** bget() as a search of the list of buffers. *)
Lemma bget_unfold dev bn s l :
  k_locks s !! LkBcache = None → dll (bufs s) l →
  bget dev bn s =
    match lookup_buf (bmatch dev bn) (bufs s) l with
    | Some i => bget_take (λ x, set_refcnt (u32 (b_refcnt x + 1)) x) i (enter LkBcache s)
    | None =>
        match lookup_buf bfree (bufs s) (rev l) with
        | Some i => bget_take (λ x, Buf 0 dev bn 1 (b_prev x) (b_next x) (b_data x)) i
                      (enter LkBcache s)
        | None => Panic "bget: no buffers"
        end
    end.
Proof.
  intros Hlk Hl. destruct (dll_is_Some _ _ head Hl) as [h Hh]; [set_solver|].
  pose proof (linked_hd _ _ _ _ (dll_linked _ _ Hl)) as Hn. rewrite /nxt Hh in Hn. injection Hn as Hn.
  pose proof (linked_last _ _ _ _ (dll_linked _ _ Hl)) as Hp. rewrite /prv Hh in Hp. injection Hp as Hp.
  rewrite /bget bind_acquire //.
  rewrite (bind_Ok _ _ _ _ _ (getbuf_Ok head h (enter _ s) Hh)) Hn.
  rewrite {1}/mbind /M_bind (hit_loop _ _ (enter LkBcache s) l) //.
  change (bufs (enter _ s)) with (bufs s).
  destruct (lookup_buf _ _ l) as [i|].
  - rewrite /mbind /M_bind. by destruct (bget_take _ _ _).
  - rewrite (bind_Ok _ _ _ _ _ (getbuf_Ok head h (enter _ s) Hh)) Hp.
    rewrite {1}/mbind /M_bind (recycle_loop _ _ (enter LkBcache s) l) //.
    change (bufs (enter _ s)) with (bufs s).
    destruct (lookup_buf _ _ (rev l)) as [i|]; [|done].
    rewrite /mbind /M_bind. by destruct (bget_take _ _ _).
Qed.

(** The buffer [i] locked by the current process. *)
Definition locked_by (i : nat) (p : proc) (s : kstate) : kstate :=
  set_slocks (<[SlBuf i := Sleeplock true (p_pid p)]> (k_slocks s)) s.

Lemma bget_take_Ok f i s j p :
  calm s → sl_locked (slock_of s (SlBuf i)) = false → k_proc s = Some j → procs s !! j = Some p →
  bget_take f i (enter LkBcache s) =
    Ok i (locked_by i p (set_bufs (alter f i (bufs s)) (crit s))).
Proof.
  intros Hc Hf Hj Hp. rewrite /bget_take /updbuf bind_modify.
  rewrite (bind_release _ _ s) //; [by apply calm_free|by apply calm_cpu_ok|].
  rewrite (bind_Ok _ _ _ _ _ (acquiresleep_Ok _ _ j p _ _ _ _ _)) //=.
  - by apply calm_free.
  - by apply calm_cpu_ok.
  - by rewrite /crit /= crit_cpu_idemp.
Qed.

(** A buffer in use by another process: bget() sleeps until it is released. *)
Lemma bget_take_blocks f i s j p :
  calm s → sl_locked (slock_of s (SlBuf i)) = true → k_proc s = Some j → procs s !! j = Some p →
  ∃ s', bget_take f i (enter LkBcache s) =
    Switch (SwSleep (ChSleep (SlBuf i)) (LkSleep (SlBuf i)) (eflags_IF (k_cpu s))) s' ∧
    bufs s' = alter f i (bufs s).
Proof.
  intros Hc Hf Hj Hp. rewrite /bget_take /updbuf bind_modify.
  rewrite (bind_release _ _ s) //; [by apply calm_free|by apply calm_cpu_ok|].
  rewrite {1}/mbind /M_bind (acquiresleep_blocks _ _ j p) //=; [by apply calm_free..|by apply calm_ncli|].
  by eexists.
Qed.

End walk.

(** ** binit *)

(** What the loop of binit() has built after treating [done]. *)
Record binit_inv (s : kstate) (done : list nat) (s' : kstate) : Prop := {
  bn_linked : linked (bufs s') (head :: rev done ++ [head]);
  bn_len : length (bufs s') = length (bufs s);
  bn_core : bcore <$> bufs s' = bcore <$> bufs s;
  bn_unlocked i : i ∈ done → sl_locked (slock_of s' (SlBuf i)) = false;
  bn_locks lk : k_locks s !! lk = None → k_locks s' !! lk = None;
  bn_rest : s' = set_locks (k_locks s') (set_slocks (k_slocks s') (set_bufs (bufs s') s))
}.

Lemma binit_one_step s done b s1 :
  length (bufs s) = S NBUF → NoDup (head :: b :: rev done) → (∀ i, i ∈ head :: b :: rev done → (i < S NBUF)%nat) →
  binit_inv s done s1 → wp (binit_one b) (λ _ s2, binit_inv s (done ++ [b]) s2) s1.
Proof.
  intros Hlen Hnd Hin [I1 I2 I3 I4 I5 I6].
  destruct (bufs s1 !! head) as [h|] eqn:Hh.
  2:{ apply lookup_ge_None in Hh. rewrite I2 Hlen /head in Hh. lia. }
  apply (wp_intro _ _ _ tt (set_locks (delete (LkSleep (SlBuf b)) (k_locks s1))
    (set_slocks (delete (SlBuf b) (k_slocks s1)) (set_bufs (push_bufs b (b_next h) (bufs s1)) s1)))).
  - rewrite /binit_one (bind_Ok _ _ _ _ _ (getbuf_Ok _ _ _ Hh)). reflexivity.
  - split; simpl.
    + rewrite rev_app_distr /=. apply linked_push; [done| |done|by rewrite /nxt Hh].
      intros i Hi. apply lookup_lt_is_Some. rewrite I2 Hlen. by apply Hin.
    + by rewrite length_push.
    + by rewrite bcore_push.
    + intros i [Hi|Hi%list_elem_of_singleton]%elem_of_app; [|subst i].
      * rewrite /slock_of /=. destruct (decide (i = b)) as [->|]; [by rewrite lookup_delete_eq|].
        rewrite lookup_delete_ne; [congruence|]. by apply I4.
      * by rewrite /slock_of /= lookup_delete_eq.
    + intros lk Hlk. apply lookup_delete_None. right. by apply I5.
    + apply kstate_eq; simpl; first [done | by rewrite I6].
Qed.

Lemma binit_Ok s :
  length (bufs s) = S NBUF →
  ∃ s', binit s = Ok tt s' ∧ binit_inv s (seq 0 NBUF) s' ∧ dll (bufs s') (rev (seq 0 NBUF)).
Proof.
  intros Hlen. assert (is_Some (bufs s !! head)) as [h Hh].
  { apply lookup_lt_is_Some. rewrite Hlen /head. lia. }
  enough (wp binit (λ _ s', binit_inv s (seq 0 NBUF) s') s) as ([] & s' & Hrun & Hs')%wp_Ok.
  { exists s'. split_and!; [done..|]. destruct Hs' as [I1 I2 I3 I4 I5 I6]. split; [lia| |done].
    symmetry. apply Permutation_rev. }
  rewrite /binit /initlock /updbuf /wp !bind_modify.
  apply wp_for_each.
  - split; simpl.
    + rewrite /nxt /prv /= !list_lookup_alter_eq Hh //=.
    + by rewrite !length_alter.
    + by rewrite !bcore_alter.
    + set_solver.
    + intros lk Hlk. apply lookup_delete_None. by right.
    + done.
  - intros done b todo s1 Hseq. apply binit_one_step; [done|..].
    + apply NoDup_cons. split.
      * rewrite elem_of_cons elem_of_rev. intros [<-|Hd].
        -- assert (head ∈ seq 0 NBUF) by (rewrite Hseq; set_solver). rewrite elem_of_seq /head in H. lia.
        -- assert (head ∈ seq 0 NBUF) by (rewrite Hseq; set_solver). rewrite elem_of_seq /head in H. lia.
      * pose proof (NoDup_seq 0 NBUF) as Hnd. rewrite Hseq in Hnd.
        rewrite -Permutation_rev. rewrite -Permutation_middle in Hnd.
        apply NoDup_cons in Hnd as [Hb Hnd]. apply NoDup_cons. split; [set_solver|].
        by apply NoDup_app in Hnd as (? & _).
    + intros i [->|Hi]%elem_of_cons; [rewrite /head; lia|].
      assert (i ∈ seq 0 NBUF).
      { rewrite Hseq. apply elem_of_cons in Hi as [->|Hi]; [set_solver|]. rewrite elem_of_rev in Hi. set_solver. }
      rewrite elem_of_seq in H. lia.
Qed.
