(* ===== verification/Memide.v ===== *)
(** * The memory disk: memide.c

    ideinit() and iderw() of the disk kept in memory, and the proof that iderw()
    meets the driver interface of the buffer cache. The disk's bytes are held
    block by block, [memdisk + b->blockno*BSIZE] being block [b_blockno]. *)

From S2P Require Import Prelude Param State Spinlock Sched Sleeplock Bio.

Module Memide.

(** [img_size] is [_binary_fs_img_size], from the linked file system image. *)
Definition ideinit (img : gmap Z (list Z)) (img_size : Z) : K unit :=
  modify (λ s, set_bio (Bio (bufs s) img (u32 img_size / BSIZE) (dk_trace (k_bio s))) s).

(** [memmove(p, b->data, BSIZE)] and [memmove(b->data, p, BSIZE)]. *)
Definition write_block (i : nat) : K unit :=
  b ← getbuf i;
  modify (disk_write b).

Definition read_block (i : nat) : K unit :=
  b ← getbuf i;
  d ← gets (λ s, dblock s (b_blockno b));
  updbuf i (set_data d).

Definition iderw (i : nat) : K unit :=
  h ← holdingsleep (SlBuf i);
  if negb h then panic "iderw: buf not locked" else
  b ← getbuf i;
  if Z.land (b_flags b) (Z.lor B_VALID B_DIRTY) =? B_VALID then panic "iderw: nothing to do" else
  if negb (b_dev b =? 1) then panic "iderw: request not for disk 1" else
  disksize ← gets (λ s, dk_size (k_bio s));
  if b_blockno b >=? disksize then panic "iderw: block out of range" else
  (if negb (Z.land (b_flags b) B_DIRTY =? 0) then
     updbuf i (λ b, set_flags (Z.land (b_flags b) (Z.lnot B_DIRTY)) b);;
     write_block i
   else read_block i);;
  updbuf i (λ b, set_flags (Z.lor (b_flags b) B_VALID) b).

Lemma alter_alter_insert (bs : list buf) i b f g :
  bs !! i = Some b → alter g i (alter f i bs) = <[i := g (f b)]> bs.
Proof.
  intros Hb. apply list_eq. intros k. destruct (decide (k = i)) as [->|Hne].
  - rewrite !list_lookup_alter_eq Hb list_lookup_insert_eq //. by apply lookup_lt_Some in Hb.
  - rewrite !list_lookup_alter_ne ?list_lookup_insert_ne //; congruence.
Qed.

Lemma iderw_checks i b s :
  ide_pre i b s → (Z.land (b_flags b) (Z.lor B_VALID B_DIRTY) =? B_VALID) = false →
  iderw i s =
    ((if negb (Z.land (b_flags b) B_DIRTY =? 0) then
       updbuf i (λ b, set_flags (Z.land (b_flags b) (Z.lnot B_DIRTY)) b);; write_block i
     else read_block i);;
    updbuf i (λ b, set_flags (Z.lor (b_flags b) B_VALID) b)) (crit s).
Proof.
  intros [Hc Hb Hh Hd Hr _] Hf.
  rewrite /iderw (bind_Ok _ _ _ _ _ (holdingsleep_Ok _ _ _ _)); [by apply calm_free|by apply calm_cpu_ok|].
  rewrite Hh /= (bind_Ok _ _ _ _ _ (getbuf_Ok i b (crit s) Hb)) Hf Hd /= bind_gets.
  change (dk_size (k_bio (crit s))) with (dk_size (k_bio s)).
  replace (b_blockno b >=? dk_size (k_bio s)) with false by lia. done.
Qed.

#[export] Instance memide : IdeDriver.
Proof.
  refine {| Bio.iderw := iderw |}.
  - intros i b s Hpre Hf. pose proof (ide_buf _ _ _ Hpre) as Hb.
    rewrite (iderw_checks i b) // Hf //=. eexists. split.
    + rewrite /read_block bind_assoc (bind_Ok _ _ _ _ _ (getbuf_Ok i b (crit s) Hb)).
      rewrite bind_assoc bind_gets bind_modify. done.
    + rewrite /= (alter_alter_insert _ _ _ _ _ Hb) /= Hf.
      exact (set_bio_settled _ _ _ (settled_crit s)).
  - intros i b s Hpre Hf. pose proof (ide_buf _ _ _ Hpre) as Hb.
    rewrite (iderw_checks i b) // Hf //=. eexists. split.
    + rewrite bind_assoc bind_modify /write_block bind_assoc.
      rewrite (bind_Ok _ _ _ _ _ (getbuf_Ok i (set_flags B_VALID b) _ _)).
      { by rewrite /bufs /= list_lookup_alter_eq Hb /= Hf. }
      rewrite bind_modify. done.
    + rewrite /disk_write /= (alter_alter_insert _ _ _ _ _ Hb) /= Hf.
      exact (set_bio_settled _ _ _ (settled_crit s)).
Defined.

End Memide.
