(* ===== verification/BioSpec.v ===== *)
(** * Buffer cache: what bio.c promises to its clients

    The invariant of the cache, the contents of the disk as seen through it, and
    the specification of bread(), bwrite() and brelse() for a process that holds
    a set of buffers. Readers see every block as last written through the cache
    whether or not it has reached the disk, at most one buffer caches a block,
    and buffers are recycled least recently used first, never while in use or
    dirty. *)

From S2P Require Import Prelude Param State Spinlock Sched Sleeplock Bio Memide.

(** ** The contents of the disk through the cache *)

(** [x] caches block [b] of disk 1. *)
Definition caches (b : Z) (x : buf) : Prop := b_dev x = 1 ∧ b_blockno x = b.

(** Block [b] as bread() returns it. *)
Definition blk (s : kstate) (b : Z) : list Z :=
  match list_find (caches b) (take NBUF (bufs s)) with
  | Some (_, x) => b_data x
  | None => dblock s b
  end.

(** Block [b] is pinned in the cache, waiting to be written. *)
Definition dirty (s : kstate) (b : Z) : Prop :=
  ∃ i x, (i < NBUF)%nat ∧ bufs s !! i = Some x ∧ caches b x ∧ b_flags x = Z.lor B_VALID B_DIRTY.

Definition on_disk (s : kstate) (b : Z) : Prop := 0 ≤ b < dk_size (k_bio s) ∧ b < FSSIZE.

(** ** The invariant

    [H] is the set of buffers some process holds. *)

Record buf_ok (H : gset nat) (s : kstate) (i : nat) (x : buf) : Prop := {
  ok_len : length (b_data x) = 512%nat;
  ok_lock : sl_locked (slock_of s (SlBuf i)) = bool_decide (i ∈ H);
  ok_ref : b_refcnt x = if bool_decide (i ∈ H) then 1 else 0;
  ok_flags : (b_flags x = 0 ∧ b_dev x = 0 ∧ i ∉ H) ∨
             (b_dev x = 1 ∧ on_disk s (b_blockno x) ∧
              (b_flags x = B_VALID ∨ b_flags x = Z.lor B_VALID B_DIRTY));
  ok_coherent : i ∉ H → b_flags x = B_VALID → b_data x = dblock s (b_blockno x)
}.

Record bio_inv (H : gset nat) (s : kstate) : Prop := {
  bi_calm : calm s;
  bi_dll : ∃ l, dll (bufs s) l;
  bi_buf i x : (i < NBUF)%nat → bufs s !! i = Some x → buf_ok H s i x;
  bi_uniq i j x y b : (i < NBUF)%nat → (j < NBUF)%nat →
    bufs s !! i = Some x → bufs s !! j = Some y → caches b x → caches b y → i = j;
  bi_disk b : length (dblock s b) = 512%nat;
  bi_held i : i ∈ H → (i < NBUF)%nat
}.

(** States that differ only in the buffer cache, the buffers' locks and what
    [settled] allows. *)
Definition bio_only (s s' : kstate) : Prop :=
  settled (set_slocks (k_slocks s') (set_bio (k_bio s') s)) s' ∧
  ∀ n, k_slocks s' !! SlInode n = k_slocks s !! SlInode n.

(** The effect of an operation from [s] to [s']: the view becomes [V], the
    pinned blocks [D], the disk [B] with history [T]; the buffers of [J] keep
    what they hold. *)
Record bio_post (J : gset nat) (s s' : kstate) (V : Z → list Z) (D : Z → Prop)
    (B : gmap Z (list Z)) (T : list (Z * list Z)) : Prop := {
  bp_only : bio_only s s';
  bp_blk b : blk s' b = V b;
  bp_dirty b : dirty s' b ↔ D b;
  bp_blocks : dk_blocks (k_bio s') = B;
  bp_trace : dk_trace (k_bio s') = T;
  bp_size : dk_size (k_bio s') = dk_size (k_bio s);
  bp_held i : i ∈ J → bcore <$> bufs s' !! i = bcore <$> bufs s !! i
}.

(** An operation that changes nothing a client sees. *)
Definition bio_same (J : gset nat) (s s' : kstate) : Prop :=
  bio_post J s s' (blk s) (dirty s) (dk_blocks (k_bio s)) (dk_trace (k_bio s)).

(** bread() finds a buffer: the block is cached or a buffer can be recycled. *)
Definition room (s : kstate) (b : Z) : Prop :=
  ∃ i x, (i < NBUF)%nat ∧ bufs s !! i = Some x ∧ (caches b x ∨ bfree x = true).

(** ** Lemmas *)

Lemma bio_only_refl s : bio_only s s.
Proof. split; [|done]. destruct s; apply settled_refl. Qed.

Lemma bio_only_trans s1 s2 s3 : bio_only s1 s2 → bio_only s2 s3 → bio_only s1 s3.
Proof.
  intros [H1 H1'] [H2 H2']. split; [|intros n; by rewrite H2'].
  transitivity (set_slocks (k_slocks s3) (set_bio (k_bio s3) s2)); [|done].
  change (set_slocks (k_slocks s3) (set_bio (k_bio s3) s1)) with
    (set_slocks (k_slocks s3) (set_bio (k_bio s3) (set_slocks (k_slocks s2) (set_bio (k_bio s2) s1)))).
  by apply set_slocks_settled, set_bio_settled.
Qed.

Lemma settled_bio_only s s' : settled s s' → bio_only s s'.
Proof.
  intros Hs. pose proof (settled_fields _ _ Hs) as (_ & _ & Hl & _ & Hb & _).
  rewrite /bio_only Hl Hb. split; [|done]. by destruct s.
Qed.

Lemma bio_only_set_bio v s : bio_only s (set_bio v (crit s)).
Proof. split; [|done]. exact (set_bio_settled v _ _ (settled_crit s)). Qed.

Lemma caches_inj b c x : caches b x → caches c x → b = c.
Proof. intros [_ <-] [_ <-]. done. Qed.

Lemma blk_cached H s i x b :
  bio_inv H s → (i < NBUF)%nat → bufs s !! i = Some x → caches b x → blk s b = b_data x.
Proof.
  intros HI Hi Hx Hc. rewrite /blk. destruct (list_find _ _) as [[j y]|] eqn:Hf.
  - apply list_find_Some in Hf as (Hy & Hcy & _).
    apply lookup_take_Some in Hy as [Hy Hj].
    assert (i = j) as -> by by apply (bi_uniq _ _ HI i j x y b). congruence.
  - apply list_find_None in Hf. rewrite Forall_lookup in Hf.
    destruct (Hf i x); [|done]. by rewrite lookup_take_lt.
Qed.

Lemma blk_uncached s b :
  (∀ i x, (i < NBUF)%nat → bufs s !! i = Some x → ¬ caches b x) → blk s b = dblock s b.
Proof.
  intros Hn. rewrite /blk. destruct (list_find _ _) as [[j y]|] eqn:Hf; [|done].
  apply list_find_Some in Hf as (Hy & Hcy & _). apply lookup_take_Some in Hy as [Hy Hj].
  destruct (Hn _ _ Hj Hy Hcy).
Qed.

(** *** One buffer changes

    [bstep i x x' s s']: buffer [i] goes from [x] to [x'], and no other buffer,
    no lock of another buffer and no block other than the one [x'] caches. *)
Record bstep (i : nat) (x x' : buf) (s s' : kstate) : Prop := {
  st_lt : (i < NBUF)%nat;
  st_old : bufs s !! i = Some x;
  st_new : bufs s' !! i = Some x';
  st_bufs j : j ≠ i → bcore <$> bufs s' !! j = bcore <$> bufs s !! j;
  st_locks j : j ≠ i → slock_of s' (SlBuf j) = slock_of s (SlBuf j);
  st_disk b : ¬ caches b x' → dblock s' b = dblock s b;
  st_size : dk_size (k_bio s') = dk_size (k_bio s)
}.

Lemma bcore_lookup s s' j y' :
  bcore <$> bufs s' !! j = bcore <$> bufs s !! j → bufs s' !! j = Some y' →
  ∃ y, bufs s !! j = Some y ∧ bcore y = bcore y'.
Proof. intros H E. rewrite E in H. destruct (bufs s !! j) as [y|] eqn:E0; [|done]. simpl in H. exists y. split; congruence. Qed.

Lemma bcore_fields x y :
  bcore x = bcore y →
  b_flags x = b_flags y ∧ b_dev x = b_dev y ∧ b_blockno x = b_blockno y ∧
  b_refcnt x = b_refcnt y ∧ b_data x = b_data y.
Proof. rewrite /bcore. naive_solver. Qed.

Lemma bcore_caches b x y : bcore x = bcore y → (caches b x ↔ caches b y).
Proof. intros (_ & Hd & Hb & _)%bcore_fields. by rewrite /caches Hd Hb. Qed.

Section bstep.
Context (H H' : gset nat) (i : nat) (x x' : buf) (s s' : kstate).
Context (HI : bio_inv H s) (Hst : bstep i x x' s s').
Context (Hu : ∀ b j y, j ≠ i → (j < NBUF)%nat → bufs s !! j = Some y → caches b y → ¬ caches b x').

Lemma bstep_inv :
  calm s' → (∃ l, dll (bufs s') l) → buf_ok H' s' i x' →
  (∀ j, j ≠ i → (j ∈ H' ↔ j ∈ H)) →
  (∀ b, caches b x' → length (dblock s' b) = 512%nat) →
  bio_inv H' s'.
Proof.
  intros Hc Hl Hok HH Hd. split; [done|done|..].
  - intros j y Hj Hy. destruct (decide (j = i)) as [->|Hne].
    { rewrite (st_new _ _ _ _ _ Hst) in Hy. by injection Hy as <-. }
    destruct (bcore_lookup _ _ _ _ (st_bufs _ _ _ _ _ Hst j Hne) Hy) as (y0 & Hy0 & Hcore).
    destruct (bcore_fields _ _ Hcore) as (E1 & E2 & E3 & E4 & E5).
    destruct (bi_buf _ _ HI j y0 Hj Hy0) as [O1 O2 O3 O4 O5].
    assert (bool_decide (j ∈ H') = bool_decide (j ∈ H)) as HHj by (apply bool_decide_ext, HH, Hne).
    split.
    + congruence.
    + by rewrite HHj -O2 (st_locks _ _ _ _ _ Hst).
    + by rewrite HHj -O3.
    + rewrite (HH j Hne) -E1 -E2 -E3 /on_disk (st_size _ _ _ _ _ Hst). exact O4.
    + rewrite (HH j Hne) -E1 -E3 -E5. intros HjH Hf. rewrite (O5 HjH Hf).
      destruct O4 as [(Hz & _)|(Hdev & _)]; [rewrite Hz in Hf; done|].
      symmetry. apply (st_disk _ _ _ _ _ Hst). apply (Hu _ j y0); [done..|]. by split.
  - intros j k y z b Hj Hk Hy Hz Hcy Hcz.
    destruct (decide (j = i)) as [->|Hji], (decide (k = i)) as [->|Hki]; [done|..].
    + destruct (bcore_lookup _ _ _ _ (st_bufs _ _ _ _ _ Hst k Hki) Hz) as (z0 & Hz0 & Ez).
      destruct (Hu b k z0 Hki Hk Hz0); [by apply (bcore_caches _ _ _ Ez)|].
      rewrite (st_new _ _ _ _ _ Hst) in Hy. by injection Hy as ->.
    + destruct (bcore_lookup _ _ _ _ (st_bufs _ _ _ _ _ Hst j Hji) Hy) as (y0 & Hy0 & Ey).
      destruct (Hu b j y0 Hji Hj Hy0); [by apply (bcore_caches _ _ _ Ey)|].
      rewrite (st_new _ _ _ _ _ Hst) in Hz. by injection Hz as ->.
    + destruct (bcore_lookup _ _ _ _ (st_bufs _ _ _ _ _ Hst j Hji) Hy) as (y0 & Hy0 & Ey).
      destruct (bcore_lookup _ _ _ _ (st_bufs _ _ _ _ _ Hst k Hki) Hz) as (z0 & Hz0 & Ez).
      apply (bi_uniq _ _ HI j k y0 z0 b); [done..|by apply (bcore_caches _ _ _ Ey)|by apply (bcore_caches _ _ _ Ez)].
  - intros b. destruct (decide (b_dev x' = 1 ∧ b_blockno x' = b)) as [Hcb|Hcb]; [by apply Hd|].
    rewrite (st_disk _ _ _ _ _ Hst) //. apply (bi_disk _ _ HI).
  - intros j Hj. destruct (decide (j = i)) as [->|Hne]; [apply Hst|].
    apply (bi_held _ _ HI). by apply HH.
Qed.

(** Blocks not cached by [x'] look the same, if [x] did not hide the disk's. *)
Lemma bstep_blk b :
  bio_inv H' s' → ¬ caches b x' → (caches b x → b_data x = dblock s b) → blk s' b = blk s b.
Proof.
  intros HI' Hn Hx.
  destruct (list_find (caches b) (take NBUF (bufs s'))) as [[j y]|] eqn:Hf.
  - apply list_find_Some in Hf as ([Hy Hj]%lookup_take_Some & Hcy & _).
    rewrite (blk_cached H' s' j y b) //.
    assert (j ≠ i) as Hne.
    { intros ->. rewrite (st_new _ _ _ _ _ Hst) in Hy. injection Hy as ->. done. }
    destruct (bcore_lookup _ _ _ _ (st_bufs _ _ _ _ _ Hst j Hne) Hy) as (y0 & Hy0 & Ey).
    rewrite (blk_cached H s j y0 b) //; [by apply (bcore_caches _ _ _ Ey)|].
    by destruct (bcore_fields _ _ Ey) as (_ & _ & _ & _ & ->).
  - assert (blk s' b = dblock s' b) as -> by by rewrite /blk Hf.
    rewrite (st_disk _ _ _ _ _ Hst) //.
    destruct (list_find (caches b) (take NBUF (bufs s))) as [[j y]|] eqn:Hf'.
    + apply list_find_Some in Hf' as ([Hy Hj]%lookup_take_Some & Hcy & _).
      rewrite (blk_cached H s j y b) //. destruct (decide (j = i)) as [->|Hne].
      { rewrite (st_old _ _ _ _ _ Hst) in Hy. injection Hy as ->. by rewrite Hx. }
      pose proof (st_bufs _ _ _ _ _ Hst j Hne) as He. rewrite Hy in He.
      destruct (bufs s' !! j) as [y'|] eqn:Hy'; [|done]. simpl in He. assert (bcore y = bcore y') as Ey by congruence.
      apply list_find_None in Hf. rewrite Forall_lookup in Hf.
      destruct (Hf j y'); [by rewrite lookup_take_lt|]. by apply (bcore_caches _ _ _ Ey).
    + by rewrite /blk Hf'.
Qed.

Lemma bstep_dirty b :
  dirty s' b ↔ (caches b x' ∧ b_flags x' = Z.lor B_VALID B_DIRTY) ∨
    (dirty s b ∧ ¬ (caches b x ∧ b_flags x = Z.lor B_VALID B_DIRTY)).
Proof.
  split.
  - intros (j & y & Hj & Hy & Hcy & Hfy). destruct (decide (j = i)) as [->|Hne].
    { rewrite (st_new _ _ _ _ _ Hst) in Hy. injection Hy as ->. by left. }
    right. destruct (bcore_lookup _ _ _ _ (st_bufs _ _ _ _ _ Hst j Hne) Hy) as (y0 & Hy0 & Ey).
    split.
    + exists j, y0. split_and!; [done..|by apply (bcore_caches _ _ _ Ey)|].
      by destruct (bcore_fields _ _ Ey) as (-> & _).
    + intros [Hcx _]. apply Hne. apply (bi_uniq _ _ HI j i y0 x b); [done|apply Hst|done|apply Hst| |done].
      by apply (bcore_caches _ _ _ Ey).
  - intros [[Hc Hf]|[(j & y & Hj & Hy & Hcy & Hfy) Hn]].
    { exists i, x'. split_and!; [apply Hst|apply Hst|done|done]. }
    destruct (decide (j = i)) as [->|Hne].
    { destruct Hn. rewrite (st_old _ _ _ _ _ Hst) in Hy. injection Hy as ->. done. }
    pose proof (st_bufs _ _ _ _ _ Hst j Hne) as He. rewrite Hy in He.
    destruct (bufs s' !! j) as [y'|] eqn:Hy'; [|done]. simpl in He. assert (bcore y = bcore y') as Ey by congruence.
    exists j, y'. split_and!; [done..|by apply (bcore_caches _ _ _ Ey)|].
    by destruct (bcore_fields _ _ Ey) as (<- & _).
Qed.

End bstep.

(** *** Links *)

Lemma linked_ext bs bs' c :
  (∀ i, nxt bs' i = nxt bs i) → (∀ i, prv bs' i = prv bs i) → linked bs c → linked bs' c.
Proof.
  intros Hn Hp. induction c as [|a [|b c] IH]; [done..|].
  intros (H1 & H2 & H3). split; [by rewrite Hn|]. split; [by rewrite Hp|]. by apply IH.
Qed.

Lemma dll_alter f i bs l :
  (∀ x, b_next (f x) = b_next x) → (∀ x, b_prev (f x) = b_prev x) →
  dll bs l → dll (alter f i bs) l.
Proof.
  intros Hn Hp [H1 H2 H3]. split; [by rewrite length_alter|done|].
  apply (linked_ext bs); [|intros; by apply prv_alter|done]. intros. by apply nxt_alter.
Qed.

Lemma dll_lt bs l i : dll bs l → (i ∈ l ↔ (i < NBUF)%nat).
Proof. intros Hl. rewrite (dll_perm _ _ Hl) elem_of_seq. lia. Qed.

Lemma dll_lookup bs l i : dll bs l → (i < NBUF)%nat → is_Some (bs !! i).
Proof. intros Hl Hi. apply (dll_is_Some _ l _ Hl). apply elem_of_cons. right. by apply (dll_lt _ _ _ Hl). Qed.

Lemma bmatch_caches b x : bmatch 1 b x = true ↔ caches b x.
Proof. rewrite /bmatch /caches andb_true_iff !Z.eqb_eq //. Qed.

(** *** The buffers a process holds *)

Section held.
Context (H : gset nat) (s : kstate) (i : nat) (x : buf).
Context (HI : bio_inv H s) (HiH : i ∈ H) (Hx : bufs s !! i = Some x).

Lemma held_lt : (i < NBUF)%nat.
Proof. exact (bi_held _ _ HI _ HiH). Qed.

Lemma held_caches : caches (b_blockno x) x.
Proof.
  destruct (bi_buf _ _ HI i x held_lt Hx) as [_ _ _ Hf _]. split; [|done]. naive_solver.
Qed.

Lemma held_other b j y :
  j ≠ i → (j < NBUF)%nat → bufs s !! j = Some y → caches b y → ¬ caches b x.
Proof. intros Hne Hj Hy Hcy Hcx. apply Hne. by apply (bi_uniq _ _ HI j i y x b); try apply held_lt. Qed.

(** The holder of a buffer changes its data or flags, or the driver its block. *)
Lemma held_step x' s' B T :
  bstep i x x' s s' → calm s' → (∃ l, dll (bufs s') l) →
  slock_of s' (SlBuf i) = slock_of s (SlBuf i) →
  b_dev x' = b_dev x → b_blockno x' = b_blockno x → b_refcnt x' = b_refcnt x →
  length (b_data x') = 512%nat →
  (b_flags x' = B_VALID ∨ b_flags x' = Z.lor B_VALID B_DIRTY) →
  length (dblock s' (b_blockno x)) = 512%nat →
  bio_only s s' → dk_blocks (k_bio s') = B → dk_trace (k_bio s') = T →
  bio_inv H s' ∧
  bio_post (H ∖ {[i]}) s s' (<[b_blockno x := b_data x']> (blk s))
    (λ c, (c = b_blockno x ∧ b_flags x' = Z.lor B_VALID B_DIRTY) ∨ (c ≠ b_blockno x ∧ dirty s c)) B T.
Proof.
  intros Hst Hc Hl Hlk Ed Eb Er Hlen Hf Hdl Ho HB HT.
  assert (∀ b, caches b x' ↔ caches b x) as Hcx by (intros b; by rewrite /caches Ed Eb).
  assert (∀ b j y, j ≠ i → (j < NBUF)%nat → bufs s !! j = Some y → caches b y → ¬ caches b x') as Hu.
  { intros b j y ????. rewrite Hcx. by apply (held_other b j y). }
  assert (∀ c, caches c x ↔ c = b_blockno x) as Hcb.
  { intros c. pose proof held_caches as [? _]. rewrite /caches. naive_solver. }
  assert (bio_inv H s') as HI'.
  { apply (bstep_inv H H i x x' s s'); [done..| |done|].
    - destruct (bi_buf _ _ HI i x held_lt Hx) as [O1 O2 O3 O4 O5].
      split; [done|by rewrite Hlk|by rewrite Er| |done].
      right. rewrite Ed Eb /on_disk (st_size _ _ _ _ _ Hst).
      by destruct O4 as [(_ & _ & [])|(? & ? & _)].
    - intros b. by rewrite Hcx Hcb => ->. }
  split; [done|]. split; [done| | |done|done|apply Hst|].
  - intros b. destruct (decide (b = b_blockno x)) as [->|Hne].
    + rewrite fn_lookup_insert. apply (blk_cached H s' i x'); [done|apply held_lt|apply Hst|].
      by rewrite Hcx Hcb.
    + rewrite fn_lookup_insert_ne; [congruence|]. apply (bstep_blk H H i x x' s s' HI Hst Hu b HI'); by rewrite ?Hcx Hcb.
  - intros b. rewrite (bstep_dirty H i x x' s s' HI Hst Hu) Hcx Hcb.
    destruct (decide (b = b_blockno x)) as [->|Hne]; [|clear -Hne; tauto].
    split; [|clear; tauto]. intros [?|[Hd Hn]]; [by left|]. exfalso. apply Hn. split; [done|].
    destruct Hd as (j & y & Hj & Hy & Hcy & Hfy).
    assert (j = i) as -> by (apply (bi_uniq _ _ HI j i y x (b_blockno x)); try done; [apply held_lt|by rewrite Hcb]).
    congruence.
  - intros j [Hj Hji%not_elem_of_singleton]%elem_of_difference. by apply (st_bufs _ _ _ _ _ Hst).
Qed.

(** An assignment to a field of a held buffer. *)
Lemma held_upd f :
  (∀ y, b_next (f y) = b_next y) → (∀ y, b_prev (f y) = b_prev y) →
  (∀ y, b_dev (f y) = b_dev y) → (∀ y, b_blockno (f y) = b_blockno y) →
  (∀ y, b_refcnt (f y) = b_refcnt y) → length (b_data (f x)) = 512%nat →
  (b_flags (f x) = B_VALID ∨ b_flags (f x) = Z.lor B_VALID B_DIRTY) →
  let s' := set_bufs (alter f i (bufs s)) s in
  bufs s' !! i = Some (f x) ∧ bio_inv H s' ∧
  bio_post (H ∖ {[i]}) s s' (<[b_blockno x := b_data (f x)]> (blk s))
    (λ c, (c = b_blockno x ∧ b_flags (f x) = Z.lor B_VALID B_DIRTY) ∨ (c ≠ b_blockno x ∧ dirty s c))
    (dk_blocks (k_bio s)) (dk_trace (k_bio s)).
Proof.
  intros Hn Hp Hd Hb Hr Hlen Hf s'. assert (bufs s' !! i = Some (f x)) as Hx'.
  { subst s'. by rewrite /bufs /= list_lookup_alter_eq Hx. }
  split; [done|]. destruct (bi_dll _ _ HI) as [l Hl]. apply held_step; try done.
  - split; [apply held_lt|done|done| |done|done|done]. intros j Hj. subst s'.
    rewrite /bufs /= list_lookup_alter_ne; [congruence|done].
  - by destruct (bi_calm _ _ HI).
  - exists l. by apply dll_alter.
  - apply (bi_disk _ _ HI).
  - split; [|done]. destruct s; apply settled_refl.
Qed.

End held.

(** *** bread *)

Section ops.
Context `{IdeDriver}.

Lemma calm_set_bio v s : calm s → calm (set_bio v s).
Proof. by intros []. Qed.
Lemma calm_set_slocks v s : calm s → calm (set_slocks v s).
Proof. by intros []. Qed.
Lemma calm_crit s : calm s → calm (crit s).
Proof. apply settled_calm, settled_crit. Qed.

Lemma slock_insert_eq s i v : slock_of (set_slocks (<[SlBuf i := v]> (k_slocks s)) s) (SlBuf i) = v.
Proof. by rewrite /slock_of /= lookup_insert_eq. Qed.
Lemma slock_insert_ne s i j v :
  j ≠ i → slock_of (set_slocks (<[SlBuf i := v]> (k_slocks s)) s) (SlBuf j) = slock_of s (SlBuf j).
Proof. intros. by rewrite /slock_of /= lookup_insert_ne; [congruence|]. Qed.

Lemma bio_only_locked i p s bs :
  bio_only s (locked_by i p (set_bufs bs (crit s))).
Proof.
  split; [|intros n; by rewrite /= lookup_insert_ne].
  simpl. apply set_slocks_settled. change (set_bufs bs (crit s)) with (set_bio (k_bio (set_bufs bs s)) (crit s)).
  apply set_bio_settled, settled_crit.
Qed.

(** The buffer taken by bget(), described by its new contents. *)
Lemma bstep_take i x f s p :
  (i < NBUF)%nat → bufs s !! i = Some x →
  bstep i x (f x) s (locked_by i p (set_bufs (alter f i (bufs s)) (crit s))).
Proof.
  intros Hi Hx. split; [done|done|..|done|done].
  - by rewrite /bufs /= list_lookup_alter_eq Hx.
  - intros j Hj. rewrite /bufs /= list_lookup_alter_ne; [congruence|done].
  - intros j Hj. by rewrite /locked_by slock_insert_ne.
Qed.

Lemma calm_take i f s p : calm s → calm (locked_by i p (set_bufs (alter f i (bufs s)) (crit s))).
Proof. intros. by apply calm_set_slocks, calm_set_bio, calm_crit. Qed.

(** The block is cached: its buffer is returned. *)
Lemma bread_hit H0 s b i x p j :
  bio_inv H0 s → k_proc s = Some j → procs s !! j = Some p →
  (i < NBUF)%nat → bufs s !! i = Some x → caches b x → i ∉ H0 →
  ∃ s', bread 1 b s = Ok i s' ∧ bufs s' !! i = Some (set_refcnt 1 x) ∧
    bio_inv ({[i]} ∪ H0) s' ∧ bio_same H0 s s'.
Proof.
  intros HI Hj Hp Hi Hx Hc HiH. pose proof (bi_calm _ _ HI) as Hcalm.
  destruct (bi_dll _ _ HI) as [l Hl]. destruct (bi_buf _ _ HI i x Hi Hx) as [O1 O2 O3 O4 O5].
  rewrite bool_decide_eq_false_2 // in O2 O3.
  set (f := λ x, set_refcnt (u32 (b_refcnt x + 1)) x).
  assert (f x = set_refcnt 1 x) as Hfx by by rewrite /f O3.
  set (s' := locked_by i p (set_bufs (alter f i (bufs s)) (crit s))).
  pose proof (bstep_take i x f s p Hi Hx) as Hst. rewrite Hfx -/s' in Hst.
  assert (b_flags x = B_VALID ∨ b_flags x = Z.lor B_VALID B_DIRTY) as Hfl.
  { destruct O4 as [(_ & ? & _)|(_ & _ & ?)]; [destruct Hc; congruence|done]. }
  assert (∀ c k y, k ≠ i → (k < NBUF)%nat → bufs s !! k = Some y → caches c y → ¬ caches c (set_refcnt 1 x)) as Hu.
  { intros c k y Hne Hk Hy Hcy Hcx. apply Hne. by apply (bi_uniq _ _ HI k i y x c). }
  assert (bio_inv ({[i]} ∪ H0) s') as HI'.
  { apply (bstep_inv H0 _ i x (set_refcnt 1 x) s s'); [done..|by apply calm_take| | |set_solver|].
    - exists l. by apply dll_alter.
    - split; simpl; [done| | |right|].
      + rewrite /s' slock_insert_eq /= bool_decide_eq_true_2 //. set_solver.
      + rewrite bool_decide_eq_true_2 //. set_solver.
      + destruct O4 as [(_ & ? & _)|?]; [destruct Hc; congruence|done].
      + set_solver.
    - intros c _. apply (bi_disk _ _ HI). }
  exists s'. split_and!; [|by apply Hst|done|].
  - rewrite /bread. rewrite (bind_Ok _ _ _ i s').
    { rewrite (bget_unfold _ _ _ l); [by apply calm_free|done|].
      destruct (lookup_buf _ _ _) as [k|] eqn:Hf.
      - apply lookup_buf_Some in Hf as (l1 & l2 & y & -> & Hy & HP & _).
        assert (k = i) as ->.
        { apply (bi_uniq _ _ HI k i y x b); [|done..|by apply bmatch_caches|done].
          apply (dll_lt _ _ _ Hl). set_solver. }
        by rewrite (bget_take_Ok _ _ _ j p).
      - exfalso. apply bmatch_caches in Hc. rewrite (lookup_buf_None _ _ _ Hf i x) // in Hc.
        by apply (dll_lt _ _ _ Hl). }
    rewrite (bind_Ok _ _ _ _ _ (getbuf_Ok i _ s' (st_new _ _ _ _ _ Hst))) /=.
    by destruct Hfl as [-> | ->].
  - split; [apply bio_only_locked| | |done|done|done|].
    + intros c. destruct (decide (c = b)) as [->|Hne].
      * rewrite (blk_cached _ _ i (set_refcnt 1 x) b HI' Hi) //; [apply Hst|].
        by rewrite (blk_cached _ _ i x b HI Hi).
      * assert (¬ caches c x) by (intros ?; apply Hne; by apply (caches_inj _ _ x)).
        by apply (bstep_blk H0 ({[i]} ∪ H0) i x (set_refcnt 1 x)).
    + intros c. rewrite (bstep_dirty H0 i x (set_refcnt 1 x) s s' HI Hst Hu) /=.
      rewrite /dirty /caches /=. clear -Hx Hi. destruct (decide (b_dev x = 1 ∧ b_blockno x = c ∧ b_flags x = Z.lor B_VALID B_DIRTY)) as [(?&?&?)|]; [|tauto].
      split; [|tauto]. intros _. by exists i, x.
    + intros k Hk. apply (st_bufs _ _ _ _ _ Hst). intros ->. done.
Qed.

(** A buffer bget() recycles is unused and clean: evicting it loses nothing. *)
Lemma free_clean H0 s i x :
  bio_inv H0 s → (i < NBUF)%nat → bufs s !! i = Some x → bfree x = true →
  i ∉ H0 ∧ b_flags x ≠ Z.lor B_VALID B_DIRTY ∧ ∀ c, caches c x → b_data x = dblock s c.
Proof.
  intros HI Hi Hx (Hr%Z.eqb_eq & Hf%Z.eqb_eq)%andb_true_iff.
  destruct (bi_buf _ _ HI i x Hi Hx) as [O1 O2 O3 O4 O5].
  assert (i ∉ H0) as HiH by (case_bool_decide; [congruence|done]).
  assert (b_flags x ≠ Z.lor B_VALID B_DIRTY) as Hnd by (intros E; by rewrite E in Hf).
  split_and!; [done..|]. intros c [Hd <-]. apply O5; [done|].
  destruct O4 as [(_ & ? & _)|(_ & _ & [?|?])]; [congruence|done|done].
Qed.

Definition filled (b : Z) (d : list Z) (x : buf) : buf :=
  Buf B_VALID 1 b 1 (b_prev x) (b_next x) d.

Lemma bread_miss_run H0 s l b i x p j :
  bio_inv H0 s → dll (bufs s) l → k_proc s = Some j → procs s !! j = Some p → on_disk s b →
  (∀ k y, (k < NBUF)%nat → bufs s !! k = Some y → ¬ caches b y) →
  lookup_buf bfree (bufs s) (rev l) = Some i → bufs s !! i = Some x → i ∉ H0 → (i < NBUF)%nat →
  ∃ s', bread 1 b s = Ok i s' ∧ settled (locked_by i p (set_bufs (alter (filled b (dblock s b)) i (bufs s)) (crit s))) s'.
Proof.
  intros HI Hl Hj Hp Hb Hn Hf Hx HiH Hi. pose proof (bi_calm _ _ HI) as Hcalm.
  destruct (bi_buf _ _ HI i x Hi Hx) as [_ O2 _ _ _]. rewrite bool_decide_eq_false_2 // in O2.
  set (f := λ x, Buf 0 1 b 1 (b_prev x) (b_next x) (b_data x)).
  set (s1 := locked_by i p (set_bufs (alter f i (bufs s)) (crit s))).
  pose proof (bstep_take i x f s p Hi Hx) as Hst. rewrite -/s1 in Hst.
  destruct (iderw_read i (f x) s1) as (s' & Hrw & Hs'); [|done|].
  { split; [by apply calm_take|apply Hst| |done|apply Hb|apply Hb].
    by rewrite /s1 /locked_by slock_insert_eq. }
  exists s'. split.
  - rewrite /bread (bind_Ok _ _ _ i s1).
    { rewrite (bget_unfold _ _ _ l); [by apply calm_free|done|].
      destruct (lookup_buf (bmatch _ _) _ _) as [k|] eqn:Hk.
      - apply lookup_buf_Some in Hk as (l1 & l2 & y & -> & Hy & HP & _).
        destruct (Hn k y); [|done|by apply bmatch_caches].
        apply (dll_lt _ _ _ Hl). set_solver.
      - rewrite Hf. by rewrite (bget_take_Ok _ _ _ j p). }
    rewrite (bind_Ok _ _ _ _ _ (getbuf_Ok i _ s1 (st_new _ _ _ _ _ Hst))) /=.
    by rewrite (bind_Ok _ _ _ _ _ Hrw).
  - etransitivity; [|exact Hs'].
    replace (<[i:=_]> (bufs s1)) with (alter (filled b (dblock s b)) i (bufs s)); [apply settled_refl|].
    apply list_eq. intros k. destruct (decide (k = i)) as [->|Hki].
    + rewrite list_lookup_alter_eq Hx list_lookup_insert_eq //. 
      rewrite /s1 /bufs /= length_alter. by apply lookup_lt_Some in Hx.
    + rewrite list_lookup_alter_ne ?list_lookup_insert_ne; [congruence..|].
      rewrite /s1 /bufs /= list_lookup_alter_ne; [congruence|done].
Qed.

Lemma bstep_settled i x x' s s1 s' : bstep i x x' s s1 → settled s1 s' → bstep i x x' s s'.
Proof.
  intros [] (_ & _ & Hsl & _ & Hb & _)%settled_fields.
  by split; rewrite /slock_of /bufs /dblock ?Hb ?Hsl.
Qed.

Lemma bread_miss H0 s b :
  bio_inv H0 s → on_disk s b →
  (∀ k y, (k < NBUF)%nat → bufs s !! k = Some y → ¬ caches b y) →
  (∃ k y, (k < NBUF)%nat ∧ bufs s !! k = Some y ∧ bfree y = true) →
  ∃ i x s', bread 1 b s = Ok i s' ∧ i ∉ H0 ∧
    bufs s' !! i = Some (filled b (dblock s b) x) ∧
    bio_inv ({[i]} ∪ H0) s' ∧ bio_same H0 s s'.
Proof.
  intros HI Hb Hn (k0 & y0 & Hk0 & Hy0 & Hfree0). pose proof (bi_calm _ _ HI) as [_ _ (j & p & Hj & Hp)].
  destruct (bi_dll _ _ HI) as [l Hl].
  destruct (lookup_buf bfree (bufs s) (rev l)) as [i|] eqn:Hf.
  2:{ rewrite (lookup_buf_None _ _ _ Hf k0 y0) // in Hfree0. rewrite elem_of_rev. by apply (dll_lt _ _ _ Hl). }
  pose proof (lookup_buf_Some _ _ _ _ Hf) as (l1 & l2 & x & Hrev & Hx & HP & _).
  assert (i < NBUF)%nat as Hi.
  { apply (dll_lt _ _ _ Hl). rewrite -elem_of_rev Hrev. set_solver. }
  destruct (free_clean _ _ _ _ HI Hi Hx HP) as (HiH & Hnd & Hclean).
  destruct (bread_miss_run H0 s l b i x p j) as (s' & Hrun & Hs'); [done..|].
  exists i, x, s'. split; [done|]. split; [done|].
  pose proof (bstep_settled _ _ _ _ _ _ (bstep_take i x (filled b (dblock s b)) s p Hi Hx) Hs') as Hst.
  assert (∀ c, caches c (filled b (dblock s b) x) ↔ c = b) as Hcf.
  { intros c. rewrite /caches /=. naive_solver. }
  assert (∀ c k y, k ≠ i → (k < NBUF)%nat → bufs s !! k = Some y → caches c y → ¬ caches c (filled b (dblock s b) x)) as Hu.
  { intros c k y _ Hk Hy Hc. rewrite Hcf. intros ->. by apply (Hn k y). }
  pose proof (settled_fields _ _ Hs') as (_ & _ & Hsl & _ & Hbio & _).
  assert (∀ c, dblock s' c = dblock s c) as Hdb by (intros c; by rewrite /dblock Hbio).
  assert (bio_inv ({[i]} ∪ H0) s') as HI'.
  { apply (bstep_inv H0 _ i x (filled b (dblock s b) x) s s'); [done..| | | |set_solver|].
    - apply (settled_calm _ _ Hs'). apply calm_take, HI.
    - exists l. rewrite /bufs Hbio. by apply dll_alter.
    - split; simpl; [apply (bi_disk _ _ HI)| | |right|].
      + rewrite /slock_of Hsl /= lookup_insert_eq /= bool_decide_eq_true_2 //. set_solver.
      + rewrite bool_decide_eq_true_2 //. set_solver.
      + split; [done|]. split; [by rewrite /on_disk Hbio|by left].
      + set_solver.
    - intros c _. rewrite Hdb. apply (bi_disk _ _ HI). }
  split_and!; [apply Hst|done|].
  split; [| | |by rewrite Hbio..|].
  - exact (bio_only_trans _ _ _ (bio_only_locked _ _ _ _) (settled_bio_only _ _ Hs')).
  - intros c. destruct (decide (c = b)) as [->|Hne].
    + rewrite (blk_cached _ _ i _ b HI' Hi (st_new _ _ _ _ _ Hst)) ?Hcf //.
      by rewrite blk_uncached.
    + apply (bstep_blk H0 ({[i]} ∪ H0) i x (filled b (dblock s b) x)); [done..|by rewrite Hcf|apply Hclean].
  - intros c. rewrite (bstep_dirty H0 i x _ s s' HI Hst Hu) /=. naive_solver.
  - intros k Hk. apply (st_bufs _ _ _ _ _ Hst). intros ->. done.
Qed.

(** bread() returns, locked, a buffer with the current contents of the block. *)
Lemma bread_Ok H0 s b :
  bio_inv H0 s → on_disk s b → room s b →
  (∀ i x, i ∈ H0 → bufs s !! i = Some x → ¬ caches b x) →
  ∃ i x s', bread 1 b s = Ok i s' ∧ i ∉ H0 ∧ bufs s' !! i = Some x ∧ caches b x ∧ b_data x = blk s b ∧
    (b_flags x = Z.lor B_VALID B_DIRTY ↔ dirty s b) ∧
    bio_inv ({[i]} ∪ H0) s' ∧ bio_same H0 s s'.
Proof.
  intros HI Hb Hr Hfree. pose proof (bi_calm _ _ HI) as [_ _ (j & p & Hj & Hp)].
  destruct (list_find (caches b) (take NBUF (bufs s))) as [[i x]|] eqn:Hf.
  - apply list_find_Some in Hf as ([Hx Hi]%lookup_take_Some & Hcx & _).
    assert (i ∉ H0) as HiH by (intros HiH; by apply (Hfree i x)).
    destruct (bread_hit H0 s b i x p j) as (s' & Hrun & Hx' & HI' & Hp'); [done..|].
    exists i, (set_refcnt 1 x), s'. split_and!; [done..| | |done|done].
    + by rewrite (blk_cached _ _ i x b HI Hi).
    + simpl. split; [by exists i, x|]. intros (k & y & Hk & Hy & Hcy & Hfy).
      assert (k = i) as -> by by apply (bi_uniq _ _ HI k i y x b). congruence.
  - apply list_find_None in Hf. rewrite Forall_lookup in Hf.
    assert (∀ k y, (k < NBUF)%nat → bufs s !! k = Some y → ¬ caches b y) as Hn.
    { intros k y Hk Hy. apply (Hf k). by rewrite lookup_take_lt. }
    destruct (bread_miss H0 s b HI Hb Hn) as (i & x & s' & Hrun & HiH & Hx' & HI' & Hp').
    { destruct Hr as (k & y & Hk & Hy & [Hc|Hfr]); [by destruct (Hn k y)|eauto]. }
    exists i, (filled b (dblock s b) x), s'. split_and!; [done..| | |done|done].
    + by rewrite blk_uncached.
    + simpl. split; [done|]. intros (k & y & Hk & Hy & Hcy & _). by destruct (Hn k y).
Qed.

(** *** bwrite *)

Lemma bwrite_Ok H0 s i x :
  bio_inv H0 s → i ∈ H0 → bufs s !! i = Some x →
  ∃ s', bwrite i s = Ok tt s' ∧ bufs s' !! i = Some (set_flags B_VALID x) ∧ bio_inv H0 s' ∧
    bio_post (H0 ∖ {[i]}) s s' (blk s) (λ c, dirty s c ∧ c ≠ b_blockno x)
      (<[b_blockno x := b_data x]> (dk_blocks (k_bio s)))
      (dk_trace (k_bio s) ++ [(b_blockno x, b_data x)]).
Proof.
  intros HI HiH Hx. pose proof (bi_calm _ _ HI) as Hcalm. destruct (bi_dll _ _ HI) as [l Hl].
  pose proof (held_lt _ _ _ HI HiH) as Hi. pose proof (held_caches _ _ _ _ HI HiH Hx) as Hc.
  destruct (bi_buf _ _ HI i x Hi Hx) as [O1 O2 O3 O4 O5]. rewrite bool_decide_eq_true_2 // in O2 O3.
  destruct O4 as [(_ & _ & [])|(Hdev & Hrange & Hfl)]; [done|].
  set (f := λ x, set_flags (Z.lor (b_flags x) B_DIRTY) x).
  set (s1 := set_bufs (alter f i (bufs s)) (crit s)).
  assert (bufs s1 !! i = Some (f x)) as Hx1 by by rewrite /s1 /bufs /= list_lookup_alter_eq Hx.
  destruct (iderw_write i (f x) s1) as (s' & Hrw & Hs').
  { split; [by apply calm_set_bio, calm_crit|done|done|done|apply Hrange|apply Hrange]. }
  { simpl. by destruct Hfl as [-> | ->]. }
  pose proof (settled_fields _ _ Hs') as (_ & _ & Hsl & _ & Hbio & _).
  assert (bufs s' = alter (set_flags B_VALID) i (bufs s)) as Hbs.
  { rewrite /bufs Hbio /=. apply list_eq. intros k. destruct (decide (k = i)) as [->|Hki].
    - rewrite list_lookup_insert_eq; [by apply lookup_lt_Some in Hx1|].
      by rewrite list_lookup_alter_eq Hx.
    - rewrite list_lookup_insert_ne; [congruence|].
      rewrite !list_lookup_alter_ne; [congruence..|done]. }
  assert (bufs s' !! i = Some (set_flags B_VALID x)) as Hx' by by rewrite Hbs list_lookup_alter_eq Hx.
  exists s'. split; [|split; [done|]].
  { rewrite /bwrite (bind_Ok _ _ _ _ _ (holdingsleep_Ok _ _ _ _)); [by apply calm_free|by apply calm_cpu_ok|].
    by rewrite O2 /= bind_modify. }
  destruct (held_step H0 s i x HI HiH Hx (set_flags B_VALID x) s'
              (<[b_blockno x := b_data x]> (dk_blocks (k_bio s)))
              (dk_trace (k_bio s) ++ [(b_blockno x, b_data x)])) as [HI' [P1 P2 P3 P4 P5 P6 P7]];
    try done; [..|split; [done|]].
  - split; try done.
    + intros k Hk. rewrite Hbs list_lookup_alter_ne; [congruence|done].
    + intros k Hk. by rewrite /slock_of Hsl.
    + intros b Hb. rewrite /dblock Hbio /= lookup_insert_ne //. intros <-. by apply Hb.
    + by rewrite Hbio.
  - apply (settled_calm _ _ Hs'). by apply calm_set_bio, calm_set_bio, calm_set_bio, calm_crit.
  - exists l. rewrite Hbs. by apply dll_alter.
  - by rewrite /slock_of Hsl.
  - by left.
  - by rewrite /dblock Hbio /= lookup_insert_eq.
  - eapply bio_only_trans; [|exact (settled_bio_only _ _ Hs')].
    apply bio_only_set_bio.
  - by rewrite Hbio.
  - by rewrite Hbio.
  - split; [done| | |done..].
    + intros b. rewrite P2 /=. destruct (decide (b = b_blockno x)) as [->|Hne].
      * by rewrite fn_lookup_insert (blk_cached H0 s i x).
      * by rewrite fn_lookup_insert_ne; [congruence|].
    + intros b. rewrite P3 /=. naive_solver.
Qed.

(** *** brelse *)

(** The buffer's lock is free and a process waiting for it is runnable. *)
Definition unlocked (i : nat) (s : kstate) : kstate :=
  set_procs (wake (ChSleep (SlBuf i)) <$> procs s) (set_slocks (delete (SlBuf i) (k_slocks s)) (crit s)).

Lemma brelse_run H0 s i x l1 l2 :
  bio_inv H0 s → i ∈ H0 → bufs s !! i = Some x → dll (bufs s) (l1 ++ i :: l2) →
  ∃ bs', brelse i s = Ok tt (set_bufs bs' (unlocked i s)) ∧
    bcore <$> bs' = bcore <$> alter (set_refcnt 0) i (bufs s) ∧ dll bs' (i :: l1 ++ l2).
Proof.
  intros HI HiH Hx Hl. pose proof (bi_calm _ _ HI) as Hcalm.
  pose proof (held_lt _ _ _ HI HiH) as Hi.
  destruct (bi_buf _ _ HI i x Hi Hx) as [_ O2 O3 _ _]. rewrite bool_decide_eq_true_2 // in O2 O3.
  set (s2 := unlocked i s). assert (calm s2) as Hcalm2.
  { apply (settled_calm (set_slocks (delete (SlBuf i) (k_slocks s)) s)); [|by apply calm_set_slocks].
    apply (settled_wake (ChSleep (SlBuf i)) (set_slocks _ s)). }
  set (f := λ x, set_refcnt (u32 (b_refcnt x - 1)) x).
  set (s3 := set_bufs (alter f i (bufs s)) (enter LkBcache s2)).
  assert (alter f i (bufs s) = alter (set_refcnt 0) i (bufs s)) as Hf.
  { apply list_alter_ext; [|done]. intros y Hy. rewrite Hx in Hy. injection Hy as <-. by rewrite /f O3. }
  assert (bufs s3 !! i = Some (f x)) as Hx3 by by rewrite /s3 /bufs /= list_lookup_alter_eq Hx.
  destruct (move_front_Ok s3 l1 i l2) as (bs' & Hmf & Hcore & Hl'); [by apply dll_alter|].
  exists bs'. split; [|split; [by rewrite Hcore -Hf|done]].
  rewrite /brelse (bind_Ok _ _ _ _ _ (holdingsleep_Ok _ _ _ _)); [by apply calm_free|by apply calm_cpu_ok|].
  rewrite O2 /= (bind_Ok _ _ _ _ _ (releasesleep_Ok _ _ _ _ _)); [by apply calm_free, calm_crit..|by apply calm_cpu_ok, calm_crit|].
  rewrite /= crit_idemp. change (set_procs _ _) with s2. rewrite bind_acquire; [by apply calm_free|].
  rewrite bind_modify. change (set_bufs _ (enter _ _)) with s3.
  rewrite (bind_Ok _ _ _ _ _ (getbuf_Ok i _ s3 Hx3)) /f /= O3 /=.
  rewrite (bind_Ok _ _ _ _ _ Hmf) (release_entered _ s2) //; [by apply calm_free|by apply calm_cpu_ok|].
  by rewrite /s2 /unlocked /= crit_cpu_idemp.
Qed.

Lemma bio_only_unlocked i s bs' : bio_only s (set_bufs bs' (unlocked i s)).
Proof.
  split; [|intros n; by rewrite /= lookup_delete_ne].
  exact (settled_wake (ChSleep (SlBuf i)) (set_slocks (delete (SlBuf i) (k_slocks s)) (set_bio (k_bio (set_bufs bs' s)) s))).
Qed.

Lemma brelse_Ok H0 s i x :
  bio_inv H0 s → i ∈ H0 → bufs s !! i = Some x →
  (b_flags x = B_VALID → b_data x = dblock s (b_blockno x)) →
  ∃ s', brelse i s = Ok tt s' ∧ bio_inv (H0 ∖ {[i]}) s' ∧ bio_same (H0 ∖ {[i]}) s s'.
Proof.
  intros HI HiH Hx Hcoh. destruct (bi_dll _ _ HI) as [l Hl].
  pose proof (held_lt _ _ _ HI HiH) as Hi. pose proof (held_caches _ _ _ _ HI HiH Hx) as Hc.
  destruct (list_elem_of_split l i) as (l1 & l2 & ->); [by apply (dll_lt _ _ _ Hl)|].
  destruct (brelse_run _ _ _ _ _ _ HI HiH Hx Hl) as (bs' & Hrun & Hcore & Hl').
  set (s' := set_bufs bs' (unlocked i s)) in *.
  assert (∀ k, bcore <$> bufs s' !! k = bcore <$> (alter (set_refcnt 0) i (bufs s) !! k)) as Hcores.
  { intros k. by rewrite -!list_lookup_fmap -Hcore. }
  destruct (bufs s' !! i) as [x'|] eqn:Hx'.
  2:{ specialize (Hcores i). by rewrite Hx' list_lookup_alter_eq Hx in Hcores. }
  assert (bcore x' = bcore (set_refcnt 0 x)) as Ex'.
  { specialize (Hcores i). rewrite Hx' list_lookup_alter_eq Hx /= in Hcores. congruence. }
  destruct (bcore_fields _ _ Ex') as (E1 & E2 & E3 & E4 & E5). simpl in *.
  assert (∀ b, caches b x' ↔ caches b x) as Hcx by (intros b; by rewrite /caches E2 E3).
  assert (bstep i x x' s s') as Hst.
  { split; try done.
    - intros k Hk. rewrite Hcores list_lookup_alter_ne; [congruence|done].
    - intros k Hk. rewrite /slock_of /= lookup_delete_ne; [congruence|done]. }
  assert (∀ b k y, k ≠ i → (k < NBUF)%nat → bufs s !! k = Some y → caches b y → ¬ caches b x') as Hu.
  { intros b k y ????. rewrite Hcx. by apply (held_other H0 s i x HI HiH Hx b k y). }
  destruct (bi_buf _ _ HI i x Hi Hx) as [O1 O2 O3 O4 O5].
  assert (bio_inv (H0 ∖ {[i]}) s') as HI'.
  { apply (bstep_inv H0 _ i x x' s s'); [done..| |by exists (i :: l1 ++ l2)| |set_solver|].
    - apply (settled_calm _ _ (proj1 (bio_only_unlocked i s bs'))). apply calm_set_slocks, calm_set_bio, HI.
    - split; rewrite ?E1 ?E2 ?E3 ?E4 ?E5; [done| | | |done].
      + rewrite /slock_of /= lookup_delete_eq bool_decide_eq_false_2 //. set_solver.
      + rewrite bool_decide_eq_false_2 //. set_solver.
      + destruct O4 as [(_ & _ & [])|?]; [done|by right].
    - intros b _. apply (bi_disk _ _ HI). }
  exists s'. split; [done|]. split; [done|]. split; [apply bio_only_unlocked| | |done|done|done|].
  - intros b. destruct (decide (b = b_blockno x)) as [->|Hne].
    + rewrite (blk_cached _ _ i x' _ HI' Hi Hx'); [by rewrite Hcx|]. by rewrite E5 (blk_cached _ _ i x _ HI Hi Hx).
    + assert (¬ caches b x) by (intros [_ <-]; done).
      apply (bstep_blk H0 _ i x x' s s' HI Hst Hu b HI'); [by rewrite Hcx|done].
  - intros b. rewrite (bstep_dirty H0 i x x' s s' HI Hst Hu) Hcx E1.
    destruct (decide (caches b x ∧ b_flags x = Z.lor B_VALID B_DIRTY)) as [[? ?]|?]; [|tauto].
    split; [|tauto]. intros _. by exists i, x.
  - intros k Hk. apply (st_bufs _ _ _ _ _ Hst). set_solver.
Qed.

End ops.

(** ** The cache after boot *)

(** No buffer has been used yet, and the disk is empty. *)
Record fresh_cache (s : kstate) : Prop := {
  fr_inv : bio_inv ∅ s;
  fr_dll : dll (bufs s) (rev (seq 0 NBUF));
  fr_core i x : bufs s !! i = Some x → bcore x = (0, 0, 0, 0, replicate 512 0);
  fr_blocks : dk_blocks (k_bio s) = ∅;
  fr_size : dk_size (k_bio s) = 1000
}.

Lemma bio_inv_fresh s l :
  calm s → dll (bufs s) l → (∀ b, length (dblock s b) = 512%nat) →
  (∀ i, (i < NBUF)%nat → sl_locked (slock_of s (SlBuf i)) = false) →
  (∀ i x, bufs s !! i = Some x → bcore x = (0, 0, 0, 0, replicate 512 0)) →
  bio_inv ∅ s.
Proof.
  intros Hc Hl Hd Hsl Hb. split; [done|by exists l|..|done|set_solver].
  - intros i x Hi Hx. specialize (Hb i x Hx). injection Hb as E1 E2 E3 E4 E5.
    split; rewrite ?E1 ?E2 ?E3 ?E4 ?E5; [done|by rewrite Hsl|done|by left|done].
  - intros i j x y b _ _ Hx _ [Hdev _]. specialize (Hb i x Hx). injection Hb as _ E2 _ _ _. congruence.
Qed.

(** A machine with one running process and an empty disk of 1000 blocks, after
    ideinit() of the memory disk and binit(). *)
Definition one_running : kstate :=
  set_proc (Some 0%nat) (set_procs (alter (set_state RUNNING) 0%nat (procs boot_state)) boot_state).

Definition booted : kstate :=
  match (Memide.ideinit ∅ 512000;; binit) one_running with Ok _ s => s | _ => one_running end.

Lemma booted_fresh : fresh_cache booted.
Proof.
  set (s0 := set_bio (Bio (bufs one_running) ∅ 1000 []) one_running).
  destruct (binit_Ok s0) as (s' & Hrun & [I1 I2 I3 I4 I5 I6] & Hl); [done|].
  enough (booted = s') as ->.
  2:{ rewrite /booted /Memide.ideinit bind_modify.
      change (match binit s0 with Ok _ s => s | _ => one_running end = s'). by rewrite Hrun. }
  assert (k_bio s' = Bio (bufs s') ∅ 1000 []) as Hbio by by rewrite I6.
  assert (∀ i x, bufs s' !! i = Some x → bcore x = (0, 0, 0, 0, replicate 512 0)) as Hcore.
  { intros i x Hx. apply (f_equal (.!! i)) in I3. rewrite !list_lookup_fmap Hx in I3.
    destruct (bufs s0 !! i) as [y|] eqn:Hy; [|done].
    apply lookup_replicate in Hy as [-> _]. by apply (inj Some) in I3. }
  split; [|done|done|by rewrite Hbio..].
  apply (bio_inv_fresh s' (rev (seq 0 NBUF))); [|exact Hl|..|done].
  - split.
    + apply map_eq. intros lk. rewrite lookup_empty. by apply I5.
    + by rewrite I6.
    + rewrite I6. by eexists 0%nat, _.
  - intros b. by rewrite /dblock Hbio lookup_empty.
  - intros i Hi. apply I4. rewrite elem_of_seq. lia.
Qed.

Section fresh.
Context (s : kstate) (Hf : fresh_cache s).

Lemma fresh_buf0 : ∃ x, bufs s !! 0%nat = Some x ∧ bfree x = true.
Proof.
  destruct (dll_lookup _ _ 0%nat (fr_dll _ Hf)) as [x Hx]; [rewrite /NBUF; lia|]. exists x. split; [done|].
  pose proof (fr_core _ Hf _ _ Hx) as E. injection E as E1 _ _ E4 _. by rewrite /bfree E1 E4.
Qed.

Lemma fresh_room b : room s b.
Proof.
  destruct fresh_buf0 as (x & Hx & Hfr). exists 0%nat, x. split; [rewrite /NBUF; lia|]. by split; [|right].
Qed.

Lemma fresh_uncached b i x : bufs s !! i = Some x → ¬ caches b x.
Proof. intros Hx [Hd _]. pose proof (fr_core _ Hf _ _ Hx) as E. injection E as _ E _ _ _. congruence. Qed.

Lemma fresh_dblock b : dblock s b = replicate 512 0.
Proof. by rewrite /dblock (fr_blocks _ Hf) lookup_empty. Qed.

Lemma fresh_blk b : blk s b = replicate 512 0.
Proof. rewrite blk_uncached; [|apply fresh_dblock]. intros i x _. apply fresh_uncached. Qed.

Lemma fresh_bread `{IdeDriver} :
  ∃ i x s', bread 1 5 s = Ok i s' ∧ bio_inv {[i]} s' ∧ bufs s' !! i = Some x ∧ b_blockno x = 5 ∧
    b_data x = replicate 512 0 ∧ dblock s' 5 = replicate 512 0.
Proof.
  destruct (bread_Ok ∅ s 5) as (i & x & s' & Hrun & _ & Hx & [_ Hc] & Hd & _ & HI' & Hp).
  - apply Hf.
  - rewrite /on_disk (fr_size _ Hf) /FSSIZE. lia.
  - apply fresh_room.
  - set_solver.
  - exists i, x, s'. rewrite union_empty_r_L in HI'. split_and!; [done..| |].
    + by rewrite Hd fresh_blk.
    + by rewrite /dblock (bp_blocks _ _ _ _ _ _ _ Hp) (fr_blocks _ Hf) lookup_empty.
Qed.

End fresh.

Section properties.
Context `{IdeDriver}.

(** C27: bread() of a block on the disk that this process does not hold yet
    returns a buffer it did not hold, now locked, with the block's current
    contents: the last data put in the cache, else what is on the disk. The
    contents of all blocks, the pinned blocks, the disk and the other held
    buffers are unchanged, and so is everything outside the cache. *)
Theorem bread_correct (H0 : gset nat) s b :
  bio_inv H0 s → on_disk s b → room s b →
  (∀ i x, i ∈ H0 → bufs s !! i = Some x → ¬ caches b x) →
  ∃ i x s', bread 1 b s = Ok i s' ∧ i ∉ H0 ∧ bufs s' !! i = Some x ∧ caches b x ∧
    b_data x = blk s b ∧ bio_inv ({[i]} ∪ H0) s' ∧ bio_same H0 s s'.
Proof. intros HI Hb Hr Hf. destruct (bread_Ok H0 s b) as (i & x & s' & ?); naive_solver. Qed.

(** bwrite() of a held buffer puts its data on the disk as the next write of
    the history and unpins it; readers see the same contents as before. *)
Theorem bwrite_correct (H0 : gset nat) s i x :
  bio_inv H0 s → i ∈ H0 → bufs s !! i = Some x →
  ∃ s', bwrite i s = Ok tt s' ∧ bio_inv H0 s' ∧
    bio_post (H0 ∖ {[i]}) s s' (blk s) (λ c, dirty s c ∧ c ≠ b_blockno x)
      (<[b_blockno x := b_data x]> (dk_blocks (k_bio s)))
      (dk_trace (k_bio s) ++ [(b_blockno x, b_data x)]).
Proof. intros HI Hi Hx. destruct (bwrite_Ok H0 s i x) as (s' & ? & _ & ?); eauto. Qed.

(** brelse() of a held buffer whose data is on the disk or pinned unlocks it
    and moves it to the front of the list, the order of the others unchanged;
    nothing a reader sees changes. *)
Theorem brelse_correct (H0 : gset nat) s i x l1 l2 :
  bio_inv H0 s → i ∈ H0 → bufs s !! i = Some x → dll (bufs s) (l1 ++ i :: l2) →
  (b_flags x = B_VALID → b_data x = dblock s (b_blockno x)) →
  ∃ s', brelse i s = Ok tt s' ∧ dll (bufs s') (i :: l1 ++ l2) ∧
    bio_inv (H0 ∖ {[i]}) s' ∧ bio_same (H0 ∖ {[i]}) s s'.
Proof.
  intros HI Hi Hx Hl Hcoh. destruct (brelse_Ok H0 s i x) as (s' & Hrun & HI' & Hs'); [done..|].
  destruct (brelse_run H0 s i x l1 l2) as (bs' & Hrun' & _ & Hl'); [done..|].
  rewrite Hrun' in Hrun. injection Hrun as <-. eexists. split; [exact Hrun'|]. by split.
Qed.

(** when no buffer holds the block, bget() recycles the least recently used
    buffer that is neither in use nor dirty; it panics exactly when there is
    none. *)
Theorem bget_recycles_lru (H0 : gset nat) s l dev bn :
  bio_inv H0 s → dll (bufs s) l →
  (∀ i x, (i < NBUF)%nat → bufs s !! i = Some x → bmatch dev bn x = false) →
  match lookup_buf bfree (bufs s) (rev l) with
  | Some i => ∃ s', bget dev bn s = Ok i s' ∧ i ∉ H0 ∧ dll (bufs s') l
  | None => bget dev bn s = Panic "bget: no buffers"
  end.
Proof.
  intros HI Hl Hn. pose proof (bi_calm _ _ HI) as Hc. rewrite (bget_unfold _ _ _ l); [by apply calm_free|done|].
  destruct (lookup_buf (bmatch _ _) _ _) as [k|] eqn:Hk.
  { apply lookup_buf_Some in Hk as (l1 & l2 & y & -> & Hy & HP & _).
    rewrite (Hn k y) // in HP. apply (dll_lt _ _ _ Hl). set_solver. }
  destruct (lookup_buf bfree _ _) as [i|] eqn:Hf; [|done].
  apply lookup_buf_Some in Hf as (l1 & l2 & x & Hrev & Hx & HP & _).
  assert (i < NBUF)%nat as Hi.
  { apply (dll_lt _ _ _ Hl). rewrite -elem_of_rev Hrev. set_solver. }
  destruct (free_clean _ _ _ _ HI Hi Hx HP) as (HiH & _ & _).
  pose proof Hc as [_ _ (j & p & Hj & Hp)].
  rewrite (bget_take_Ok _ _ _ j p); [done| |done|done|].
  - by rewrite (ok_lock _ _ _ _ (bi_buf _ _ HI i x Hi Hx)) bool_decide_eq_false_2.
  - eexists. split_and!; [done..|]. by apply dll_alter.
Qed.

End properties.

#[local] Existing Instance Memide.memide.

Lemma bread_correct_witness :
  ∃ i x s', bread 1 5 booted = Ok i s' ∧ bufs s' !! i = Some x ∧ b_data x = replicate 512 0.
Proof.
  generalize booted booted_fresh. intros s Hf.
  destruct (bread_correct ∅ s 5) as (i & x & s' & Hrun & _ & Hx & _ & Hd & _ & _).
  - apply Hf.
  - rewrite /on_disk (fr_size _ Hf) /FSSIZE. lia.
  - by apply fresh_room.
  - set_solver.
  - exists i, x, s'. by rewrite Hd fresh_blk.
Defined.

Lemma bwrite_correct_witness :
  ∃ i s1 s2, bread 1 5 booted = Ok i s1 ∧ bwrite i s1 = Ok tt s2 ∧
    dk_blocks (k_bio s2) !! 5 = Some (replicate 512 0).
Proof.
  generalize booted booted_fresh. intros s Hf.
  destruct (fresh_bread s Hf) as (i & x & s1 & Hrun & HI & Hx & Hb & Hd & _).
  destruct (bwrite_correct {[i]} s1 i x) as (s2 & Hrun2 & _ & Hp); [done|set_solver|done|].
  exists i, s1, s2. split; [done|]. split; [done|].
  by rewrite (bp_blocks _ _ _ _ _ _ _ Hp) Hb lookup_insert_eq Hd.
Defined.

Lemma brelse_correct_witness :
  ∃ i s1 s2, bread 1 5 booted = Ok i s1 ∧ brelse i s1 = Ok tt s2 ∧ bio_inv ∅ s2.
Proof.
  generalize booted booted_fresh. intros s Hf.
  destruct (fresh_bread s Hf) as (i & x & s1 & Hrun & HI & Hx & Hb & Hd & Hdb).
  destruct (bi_dll _ _ HI) as [l Hl]. assert (i ∈ ({[i]} : gset nat)) as Hi by set_solver.
  destruct (list_elem_of_split l i) as (l1 & l2 & ->); [by apply (dll_lt _ _ _ Hl), (bi_held _ _ HI)|].
  destruct (brelse_correct {[i]} s1 i x l1 l2) as (s2 & Hrun2 & _ & HI' & _); [done..|by rewrite Hb Hdb Hd|].
  exists i, s1, s2. split; [done|]. split; [done|]. by rewrite difference_diag_L in HI'.
Defined.

Lemma bget_recycles_lru_witness : ∃ s', bget 1 7 booted = Ok 0%nat s'.
Proof.
  generalize booted booted_fresh. intros s Hf.
  pose proof (bget_recycles_lru ∅ s (rev (seq 0 NBUF)) 1 7 (fr_inv _ Hf) (fr_dll _ Hf)) as Hp.
  destruct (fresh_buf0 s Hf) as (x & Hx & Hfr).
  rewrite rev_involutive /lookup_buf /= Hx Hfr in Hp. destruct Hp as (s' & Hrun & _); [|by exists s'].
  intros i y _ Hy. apply not_true_iff_false. rewrite bmatch_caches. by apply (fresh_uncached s Hf 7 i y).
Defined.
