(* ===== verification/Hw.v ===== *)
(** * The machine's devices as the kernel sees them

    What the code does to devices is the history of its accesses: bytes read from
    and written to ports (inb and outb of x86.h, and insl and outsl, whose words
    are given as bytes), words loaded from and stored to
    mapped registers. A device answers a read with any function of the history, so
    that nothing is assumed of it here. Next to the history, the variables the
    drivers and the start-up code share. *)

From S2P Require Import Prelude Param Bytes String.

Inductive access :=
| Out (port v : Z)
| In (port v : Z)
| Store (a v : Z)
| Load (a v : Z)
| OutS (port : Z) (bs : list Z)
| InS (port : Z) (bs : list Z).

(** struct cpu's [apicid] for each processor found; [lapic] is the address of the
    local APIC's registers or 0. *)
Record hwst := Hwst {
  hw_hist : list access;
  hw_mem : mem;
  irqmask : Z;
  lapic : Z;
  ismp : bool;
  ncpu : Z;
  cpus : list Z;
  ioapicid : Z
}.

Definition set_hist (h : list access) (s : hwst) : hwst :=
  Hwst h (hw_mem s) (irqmask s) (lapic s) (ismp s) (ncpu s) (cpus s) (ioapicid s).
Definition set_hwmem (m : mem) (s : hwst) : hwst :=
  Hwst (hw_hist s) m (irqmask s) (lapic s) (ismp s) (ncpu s) (cpus s) (ioapicid s).
Definition set_irqmask (v : Z) (s : hwst) : hwst :=
  Hwst (hw_hist s) (hw_mem s) v (lapic s) (ismp s) (ncpu s) (cpus s) (ioapicid s).
Definition set_lapic (v : Z) (s : hwst) : hwst :=
  Hwst (hw_hist s) (hw_mem s) (irqmask s) v (ismp s) (ncpu s) (cpus s) (ioapicid s).
Definition set_ismp (v : bool) (s : hwst) : hwst :=
  Hwst (hw_hist s) (hw_mem s) (irqmask s) (lapic s) v (ncpu s) (cpus s) (ioapicid s).
Definition set_cpus (n : Z) (l : list Z) (s : hwst) : hwst :=
  Hwst (hw_hist s) (hw_mem s) (irqmask s) (lapic s) (ismp s) n l (ioapicid s).
Definition set_ioapicid (v : Z) (s : hwst) : hwst :=
  Hwst (hw_hist s) (hw_mem s) (irqmask s) (lapic s) (ismp s) (ncpu s) (cpus s) v.

Definition W : Type → Type := M Empty_set hwst.

Definition note (a : access) (s : hwst) : hwst := set_hist (hw_hist s ++ [a]) s.

Definition record_ (a : access) : W unit := modify (note a).

(** The devices: what a read of a port, a read of so many words from it, and a load
    from a register return after a history of accesses. *)
Class Devices := {
  port_in : list access → Z → Z;
  port_ins : list access → Z → nat → list Z;
  reg_load : list access → Z → Z
}.

(** ** x86.h *)

Definition outb (port v : Z) : W unit := record_ (Out port (u8 v)).

Definition outsl (port : Z) (bs : list Z) : W unit := record_ (OutS port bs).

Section devices.
Context `{Devices}.

Definition inb (port : Z) : W Z :=
  v ← gets (λ s, u8 (port_in (hw_hist s) port));
  record_ (In port v);;
  mret v.

Definition insl (port : Z) (cnt : nat) : W (list Z) :=
  bs ← gets (λ s, port_ins (hw_hist s) port cnt);
  record_ (InS port bs);;
  mret bs.

Definition load_reg (a : Z) : W Z :=
  v ← gets (λ s, u32 (reg_load (hw_hist s) a));
  record_ (Load a v);;
  mret v.

End devices.

Definition store_reg (a v : Z) : W unit := record_ (Store a (u32 v)).

(** ** Rules *)

Lemma bind_outb {B} port v (k : unit → W B) s :
  (outb port v ≫= k) s = k () (note (Out port (u8 v)) s).
Proof. done. Qed.

Lemma bind_store {B} a v (k : unit → W B) s :
  (store_reg a v ≫= k) s = k () (note (Store a (u32 v)) s).
Proof. done. Qed.

Lemma bind_load `{Devices} {B} a (k : Z → W B) s :
  (load_reg a ≫= k) s =
    let v := u32 (reg_load (hw_hist s) a) in k v (note (Load a v) s).
Proof. done. Qed.

Lemma bind_inb `{Devices} {B} port (k : Z → W B) s :
  (inb port ≫= k) s =
    let v := u8 (port_in (hw_hist s) port) in k v (note (In port v) s).
Proof. done. Qed.
