(* ===== verification/Irq.v ===== *)
(** * Interrupt controllers and timers: picirq.c, ioapic.c, lapic.c, timer.c

    The drivers as histories of accesses, and what the accesses leave in the
    devices' registers. *)

From S2P Require Import Prelude Param Bytes String Hw.

(** ** picirq.c *)

Definition IO_PIC1 : Z := 0x20.
Definition IO_PIC2 : Z := 0xA0.
Definition IRQ_SLAVE : Z := 2.

Definition irqmask_init : Z := Z.land 0xFFFF (Z.lnot (Z.shiftl 1 IRQ_SLAVE)).

Definition picsetmask (mask : Z) : W unit :=
  modify (set_irqmask (u16 mask));;
  outb (IO_PIC1 + 1) (u16 mask);;
  outb (IO_PIC2 + 1) (Z.shiftr (u16 mask) 8).

Definition picenable (irq : Z) : W unit :=
  m ← gets irqmask;
  picsetmask (Z.land m (Z.lnot (Z.shiftl 1 irq))).

Definition picinit : W unit :=
  outb (IO_PIC1 + 1) 0xFF;;
  outb (IO_PIC2 + 1) 0xFF;;
  outb IO_PIC1 0x11;;
  outb (IO_PIC1 + 1) T_IRQ0;;
  outb (IO_PIC1 + 1) (Z.shiftl 1 IRQ_SLAVE);;
  outb (IO_PIC1 + 1) 0x3;;
  outb IO_PIC2 0x11;;
  outb (IO_PIC2 + 1) (T_IRQ0 + 8);;
  outb (IO_PIC2 + 1) IRQ_SLAVE;;
  outb (IO_PIC2 + 1) 0x3;;
  outb IO_PIC1 0x68;;
  outb IO_PIC1 0x0a;;
  outb IO_PIC2 0x68;;
  outb IO_PIC2 0x0a;;
  m ← gets irqmask;
  if negb (m =? 0xFFFF) then picsetmask m else mret ().

(** ** timer.c *)

Definition IO_TIMER1 : Z := 0x040.
Definition TIMER_FREQ : Z := 1193182.
Definition TIMER_DIV (x : Z) : Z := (TIMER_FREQ + x / 2) / x.
Definition TIMER_MODE : Z := IO_TIMER1 + 3.
Definition TIMER_SEL0 : Z := 0x00.
Definition TIMER_RATEGEN : Z := 0x04.
Definition TIMER_16BIT : Z := 0x30.

Definition timerinit : W unit :=
  outb TIMER_MODE (Z.lor (Z.lor TIMER_SEL0 TIMER_RATEGEN) TIMER_16BIT);;
  outb IO_TIMER1 (TIMER_DIV 100 mod 256);;
  outb IO_TIMER1 (TIMER_DIV 100 / 256);;
  picenable IRQ_TIMER.

(** ** ioapic.c *)

Definition IOAPIC : Z := 0xFEC00000.
Definition REG_ID : Z := 0x00.
Definition REG_VER : Z := 0x01.
Definition REG_TABLE : Z := 0x10.
Definition INT_DISABLED : Z := 0x00010000.

(** struct ioapic: the registers [reg] and [data]. *)
Definition ioapic_reg : Z := IOAPIC.
Definition ioapic_data : Z := IOAPIC + 16.

(** ** lapic.c *)

Definition ID : Z := 0x0020 / 4.
Definition VER : Z := 0x0030 / 4.
Definition TPR : Z := 0x0080 / 4.
Definition EOI : Z := 0x00B0 / 4.
Definition SVR : Z := 0x00F0 / 4.
Definition ENABLE : Z := 0x00000100.
Definition ESR : Z := 0x0280 / 4.
Definition ICRLO : Z := 0x0300 / 4.
Definition INIT : Z := 0x00000500.
Definition STARTUP : Z := 0x00000600.
Definition DELIVS : Z := 0x00001000.
Definition ASSERT : Z := 0x00004000.
Definition LEVEL : Z := 0x00008000.
Definition BCAST : Z := 0x00080000.
Definition ICRHI : Z := 0x0310 / 4.
Definition TIMER : Z := 0x0320 / 4.
Definition X1 : Z := 0x0000000B.
Definition PERIODIC : Z := 0x00020000.
Definition PCINT : Z := 0x0340 / 4.
Definition LINT0 : Z := 0x0350 / 4.
Definition LINT1 : Z := 0x0360 / 4.
Definition ERROR : Z := 0x0370 / 4.
Definition MASKED : Z := 0x00010000.
Definition TICR : Z := 0x0380 / 4.
Definition TDCR : Z := 0x03E0 / 4.

Definition CMOS_PORT : Z := 0x70.
Definition CMOS_RETURN : Z := 0x71.
Definition CMOS_STATA : Z := 0x0a.
Definition CMOS_STATB : Z := 0x0b.
Definition CMOS_UIP : Z := Z.shiftl 1 7.
Definition SECS : Z := 0x00.
Definition MINS : Z := 0x02.
Definition HOURS : Z := 0x04.
Definition DAY : Z := 0x07.
Definition MONTH : Z := 0x08.
Definition YEAR : Z := 0x09.

(** struct rtcdate *)
Record rtcdate := Rtcdate { second : Z; minute : Z; hour : Z; day : Z; month : Z; year : Z }.

#[global] Instance rtcdate_eq_dec : EqDecision rtcdate.
Proof. solve_decision. Defined.

Section drivers.
Context `{Devices}.

Definition ioapicread (reg : Z) : W Z :=
  store_reg ioapic_reg reg;;
  load_reg ioapic_data.

Definition ioapicwrite (reg data : Z) : W unit :=
  store_reg ioapic_reg reg;;
  store_reg ioapic_data data.

Definition ioapicinit_one (i : Z) : W unit :=
  ioapicwrite (REG_TABLE + 2 * i) (Z.lor INT_DISABLED (T_IRQ0 + i));;
  ioapicwrite (REG_TABLE + 2 * i + 1) 0.

(** Returns whether it complains with cprintf() that the id is not the one of the
    configuration table. *)
Definition ioapicinit : W bool :=
  mp ← gets ismp;
  if negb mp then mret false else
  v ← ioapicread REG_VER;
  let maxintr := Z.land (Z.shiftr v 16) 0xFF in
  d ← ioapicread REG_ID;
  let id := Z.shiftr d 24 in
  want ← gets ioapicid;
  for_each (seqZ 0 (maxintr + 1)) ioapicinit_one;;
  mret (negb (id =? want)).

Definition ioapicenable (irq cpunum : Z) : W unit :=
  mp ← gets ismp;
  if negb mp then mret () else
  ioapicwrite (REG_TABLE + 2 * irq) (T_IRQ0 + irq);;
  ioapicwrite (REG_TABLE + 2 * irq + 1) (Z.shiftl cpunum 24).

Definition lapic_at (index : Z) : W Z := gets (λ s, lapic s + 4 * index).

Definition lapicr (index : Z) : W Z := a ← lapic_at index; load_reg a.

Definition lapicw (index value : Z) : W unit :=
  a ← lapic_at index;
  store_reg a value;;
  lapicr ID;;
  mret ().

(** [while(lapic[ICRLO] & DELIVS);] *)
Definition lapic_wait (fuel : nat) : W unit :=
  loop fuel (λ _, v ← lapicr ICRLO;
                  if Z.land v DELIVS =? 0 then mret (inr ()) else mret (inl ())) ().

Definition lapicinit (fuel : nat) : W unit :=
  l ← gets lapic;
  if l =? 0 then mret () else
  lapicw SVR (Z.lor ENABLE (T_IRQ0 + IRQ_SPURIOUS));;
  lapicw TDCR X1;;
  lapicw TIMER (Z.lor PERIODIC (T_IRQ0 + IRQ_TIMER));;
  lapicw TICR 10000000;;
  lapicw LINT0 MASKED;;
  lapicw LINT1 MASKED;;
  v ← lapicr VER;
  (if 4 <=? Z.land (Z.shiftr v 16) 0xFF then lapicw PCINT MASKED else mret ());;
  lapicw ERROR (T_IRQ0 + IRQ_ERROR);;
  lapicw ESR 0;;
  lapicw ESR 0;;
  lapicw EOI 0;;
  lapicw ICRHI 0;;
  lapicw ICRLO (Z.lor (Z.lor BCAST INIT) LEVEL);;
  lapic_wait fuel;;
  lapicw TPR 0.

(** cpunum(), called with interrupts off. *)
Definition cpunum : W Z :=
  l ← gets lapic;
  if l =? 0 then mret 0 else
  v ← lapicr ID;
  let apicid := Z.shiftr v 24 in
  n ← gets ncpu;
  cs ← gets cpus;
  match list_find (λ a, a = apicid) (take (Z.to_nat n) cs) with
  | Some (i, _) => mret (Z.of_nat i)
  | None => panic "unknown apicid"
  end.

Definition lapiceoi : W unit :=
  l ← gets lapic;
  if negb (l =? 0) then lapicw EOI 0 else mret ().

Definition lapicstartap (apicid addr : Z) : W unit :=
  outb CMOS_PORT 0xF;;
  outb (CMOS_PORT + 1) 0x0A;;
  let wrv := P2V (Z.lor (Z.shiftl 0x40 4) 0x67) in
  modify (λ s, set_hwmem (store (hw_mem s) wrv (le2 0)) s);;
  modify (λ s, set_hwmem (store (hw_mem s) (wrv + 2) (le2 (Z.shiftr addr 4))) s);;
  lapicw ICRHI (Z.shiftl apicid 24);;
  lapicw ICRLO (Z.lor (Z.lor INIT LEVEL) ASSERT);;
  lapicw ICRLO (Z.lor INIT LEVEL);;
  for_each [0; 1] (λ _,
    lapicw ICRHI (Z.shiftl apicid 24);;
    lapicw ICRLO (Z.lor STARTUP (Z.shiftr addr 12))).

Definition cmos_read (reg : Z) : W Z :=
  outb CMOS_PORT reg;;
  inb CMOS_RETURN.

Definition fill_rtcdate : W rtcdate :=
  s ← cmos_read SECS;
  mi ← cmos_read MINS;
  h ← cmos_read HOURS;
  d ← cmos_read DAY;
  mo ← cmos_read MONTH;
  y ← cmos_read YEAR;
  mret (Rtcdate s mi h d mo y).

(** [CONV(x)] *)
Definition CONV (x : Z) : Z := u32 (Z.shiftr x 4 * 10 + Z.land x 0xf).

Definition cmostime_step : W (unit + rtcdate) :=
  t1 ← fill_rtcdate;
  a ← cmos_read CMOS_STATA;
  if negb (Z.land a CMOS_UIP =? 0) then mret (inl ()) else
  t2 ← fill_rtcdate;
  if bool_decide (t1 = t2) then mret (inr t1) else mret (inl ()).

Definition cmostime (fuel : nat) : W rtcdate :=
  sb ← cmos_read CMOS_STATB;
  let bcd := Z.land sb (Z.shiftl 1 2) =? 0 in
  t1 ← loop fuel (λ _, cmostime_step) ();
  let t := if bcd then Rtcdate (CONV (second t1)) (CONV (minute t1)) (CONV (hour t1))
                               (CONV (day t1)) (CONV (month t1)) (CONV (year t1))
           else t1 in
  mret (Rtcdate (second t) (minute t) (hour t) (day t) (month t) (u32 (year t + 2000))).

End drivers.

(** ** What the devices hold

    *** The 8259A

    The mask, the next initialization word it expects (0: none), and the words
    given to it: vector offset, cascade and mode. The first initialization word,
    recognized by bit 4, clears the mask. *)

Record pic := Pic { imr : Z; icw : nat; vector : Z; cascade : Z; icw4 : Z }.

Definition pic_access (base : Z) (p : pic) (a : access) : pic :=
  match a with
  | Out port v =>
      if port =? base then if Z.testbit v 4 then Pic 0 2 (vector p) (cascade p) (icw4 p) else p
      else if port =? base + 1 then
        match icw p with
        | 2%nat => Pic (imr p) 3 v (cascade p) (icw4 p)
        | 3%nat => Pic (imr p) 4 (vector p) v (icw4 p)
        | 4%nat => Pic (imr p) 0 (vector p) (cascade p) v
        | _ => Pic v (icw p) (vector p) (cascade p) (icw4 p)
        end
      else p
  | _ => p
  end.

(** The pair after the history of [s], from the state [p0] they were in at first. *)
Definition pic_of (base : Z) (p0 : pic) (s : hwst) : pic := foldl (pic_access base) p0 (hw_hist s).

Definition pics_ok (p1 p2 : pic) (s : hwst) : Prop :=
  0 ≤ irqmask s < 2 ^ 16 ∧
  pic_of IO_PIC1 p1 s = Pic (irqmask s mod 256) 0 T_IRQ0 (Z.shiftl 1 IRQ_SLAVE) 3 ∧
  pic_of IO_PIC2 p2 s = Pic (irqmask s / 256) 0 (T_IRQ0 + 8) IRQ_SLAVE 3.

(** Line [n] of the pair is let through. *)
Definition unmasked (p1 p2 : pic) (s : hwst) (n : Z) : bool :=
  negb (if n <? 8 then Z.testbit (imr (pic_of IO_PIC1 p1 s)) n else Z.testbit (imr (pic_of IO_PIC2 p2 s)) (n - 8)).

Lemma pic_of_out base p0 s port v : pic_of base p0 (note (Out port v) s) = pic_access base (pic_of base p0 s) (Out port v).
Proof. by rewrite /pic_of /= foldl_app. Qed.

Lemma unmasked_irqmask p1 p2 s n : pics_ok p1 p2 s → 0 ≤ n < 16 → unmasked p1 p2 s n = negb (Z.testbit (irqmask s) n).
Proof.
  intros (Hm & E1 & E2) Hn. rewrite /unmasked E1 E2 /=. f_equal. destruct (Z.ltb_spec n 8).
  - change 256 with (2 ^ 8). by rewrite Z.mod_pow2_bits_low.
  - change 256 with (2 ^ 8). rewrite Z.div_pow2_bits; [lia..|]. f_equal. lia.
Qed.

Lemma picsetmask_ok p1 p2 s mask :
  icw (pic_of IO_PIC1 p1 s) = 0%nat → icw (pic_of IO_PIC2 p2 s) = 0%nat → 0 ≤ mask < 2 ^ 16 →
  ∃ s', picsetmask mask s = Ok () s' ∧ irqmask s' = mask ∧
    pic_of IO_PIC1 p1 s' = (let p := pic_of IO_PIC1 p1 s in Pic (mask mod 256) 0 (vector p) (cascade p) (icw4 p)) ∧
    pic_of IO_PIC2 p2 s' = (let p := pic_of IO_PIC2 p2 s in Pic (mask / 256) 0 (vector p) (cascade p) (icw4 p)).
Proof.
  intros I1 I2 Hm. rewrite /picsetmask bind_modify bind_outb. eexists. split; [reflexivity|].
  assert (u16 mask = mask) as -> by (rewrite /u16 Z.mod_small; lia).
  split; [done|]. rewrite !pic_of_out.
  change (pic_of IO_PIC1 p1 (set_irqmask mask s)) with (pic_of IO_PIC1 p1 s).
  change (pic_of IO_PIC2 p2 (set_irqmask mask s)) with (pic_of IO_PIC2 p2 s).
  simpl. rewrite I1 I2. split; [done|]. f_equal. rewrite Z.shiftr_div_pow2 // /u8 Z.mod_small //.
  change (2 ^ 8) with 256. Z.to_euclidean_division_equations. lia.
Qed.

Lemma picinit_ok p1 p2 s :
  0 ≤ irqmask s < 0xFFFF → ∃ s', picinit s = Ok () s' ∧ pics_ok p1 p2 s' ∧ irqmask s' = irqmask s.
Proof.
  intros Hm. rewrite /picinit !bind_outb bind_gets.
  match goal with |- context [if negb (irqmask ?t =? _) then _ else _] => set (s1 := t) end.
  change (irqmask s1) with (irqmask s). rewrite (proj2 (Z.eqb_neq (irqmask s) 0xFFFF)); [lia|]. cbn [negb].
  assert (pic_of IO_PIC1 p1 s1 = Pic 0 0 T_IRQ0 (Z.shiftl 1 IRQ_SLAVE) 3) as E1 by by rewrite /s1 !pic_of_out.
  assert (pic_of IO_PIC2 p2 s1 = Pic 0 0 (T_IRQ0 + 8) IRQ_SLAVE 3) as E2 by by rewrite /s1 !pic_of_out.
  destruct (picsetmask_ok p1 p2 s1 (irqmask s)) as (s' & Hs & Em & F1 & F2); [by rewrite E1|by rewrite E2|lia|].
  exists s'. split; [done|]. rewrite /pics_ok Em F1 F2 E1 E2. split_and!; [lia|lia|done..].
Qed.

Lemma clear_bit_bound m irq : 0 ≤ m < 2 ^ 16 → 0 ≤ irq → 0 ≤ Z.land m (Z.lnot (Z.shiftl 1 irq)) < 2 ^ 16.
Proof.
  intros Hm _. set (x := Z.land m _).
  assert (x = x mod 2 ^ 16) as ->; [|by apply Z.mod_pos_bound].
  apply Z.bits_inj'. intros n Hn. rewrite Z.testbit_mod_pow2 //. destruct (Z.ltb_spec n 16); [done|].
  assert (m = m mod 2 ^ 16) as E by by rewrite Z.mod_small. by rewrite /x Z.land_spec E Z.mod_pow2_bits_high.
Qed.

Lemma picenable_ok p1 p2 s irq :
  pics_ok p1 p2 s → 0 ≤ irq < 16 →
  ∃ s', picenable irq s = Ok () s' ∧ pics_ok p1 p2 s' ∧
        ∀ n, 0 ≤ n < 16 → unmasked p1 p2 s' n = (n =? irq) || unmasked p1 p2 s n.
Proof.
  intros Hok Hi. pose proof Hok as (Hm & E1 & E2).
  pose proof (clear_bit_bound (irqmask s) irq Hm ltac:(lia)) as Hb.
  destruct (picsetmask_ok p1 p2 s _ ltac:(by rewrite E1) ltac:(by rewrite E2) Hb) as (s' & Hs & Em & F1 & F2).
  assert (pics_ok p1 p2 s') as Hok' by (rewrite /pics_ok Em F1 F2 E1 E2; done).
  exists s'. split_and!; [by rewrite /picenable bind_gets|done|]. intros n Hn.
  rewrite !unmasked_irqmask // Em -Z.ldiff_land Z.ldiff_spec Z.shiftl_1_l Z.pow2_bits_eqb; [lia|].
  rewrite (Z.eqb_sym n irq). by destruct (irq =? n), (Z.testbit (irqmask s) n).
Qed.

(** *** The I/O APIC

    The selected register and the registers written through the window. *)

Definition ioapic_access (x : Z * gmap Z Z) (a : access) : Z * gmap Z Z :=
  match a with
  | Store ad v =>
      if ad =? ioapic_reg then (v, x.2) else if ad =? ioapic_data then (x.1, <[x.1 := v]> x.2) else x
  | _ => x
  end.

Definition ioapic_of (x0 : Z * gmap Z Z) (s : hwst) : Z * gmap Z Z := foldl ioapic_access x0 (hw_hist s).

(** The two words of the redirection table for line [irq]. *)
Definition route (x0 : Z * gmap Z Z) (s : hwst) (irq : Z) : option Z * option Z :=
  ((ioapic_of x0 s).2 !! (REG_TABLE + 2 * irq), (ioapic_of x0 s).2 !! (REG_TABLE + 2 * irq + 1)).

Section routes.
Context `{Devices}.

Lemma ioapic_of_note x0 s a : ioapic_of x0 (note a s) = ioapic_access (ioapic_of x0 s) a.
Proof. by rewrite /ioapic_of /= foldl_app. Qed.

Lemma ioapicwrite_ok x0 s reg data :
  0 ≤ reg < 2 ^ 32 →
  ∃ s', ioapicwrite reg data s = Ok () s' ∧ (ioapic_of x0 s').2 = <[reg := u32 data]> (ioapic_of x0 s).2 ∧ ismp s' = ismp s.
Proof.
  intros Hr. rewrite /ioapicwrite bind_store. eexists. split; [reflexivity|].
  rewrite !ioapic_of_note /= u32_id //.
Qed.

(** Both words of one line. *)
Lemma ioapic_entry x0 s irq lo hi :
  0 ≤ irq < 256 →
  ∃ s', (ioapicwrite (REG_TABLE + 2 * irq) lo;; ioapicwrite (REG_TABLE + 2 * irq + 1) hi) s = Ok () s' ∧ ismp s' = ismp s ∧
        route x0 s' irq = (Some (u32 lo), Some (u32 hi)) ∧ ∀ j, j ≠ irq → route x0 s' j = route x0 s j.
Proof.
  intros Hi. destruct (ioapicwrite_ok x0 s (REG_TABLE + 2 * irq) lo) as (s1 & H1 & E1 & M1); [rewrite /REG_TABLE; lia|].
  destruct (ioapicwrite_ok x0 s1 (REG_TABLE + 2 * irq + 1) hi) as (s2 & H2 & E2 & M2); [rewrite /REG_TABLE; lia|].
  exists s2. rewrite (bind_Ok _ _ _ _ _ H1) /route E2 E1. split_and!; [done|congruence| |].
  - rewrite lookup_insert_eq lookup_insert_ne; [lia|]. by rewrite lookup_insert_eq.
  - intros j Hj. rewrite !lookup_insert_ne //; lia.
Qed.

Lemma lor_pow2 k x : 0 ≤ k → 0 ≤ x < 2 ^ k → Z.lor (2 ^ k) x = 2 ^ k + x.
Proof.
  intros Hk Hx. assert (Z.land (2 ^ k) x = 0) as E.
  { apply Z.bits_inj'. intros n Hn. rewrite Z.land_spec Z.pow2_bits_eqb // Z.bits_0. destruct (Z.eqb_spec k n) as [->|]; [|done].
    rewrite -(Z.mod_small x (2 ^ n) Hx) Z.mod_pow2_bits_high //. lia. }
  by rewrite -Z.lxor_lor // Z.add_nocarry_lxor.
Qed.

Lemma ioapicinit_loop x0 l s :
  (∀ i, i ∈ l → 0 ≤ i < 256) → NoDup l →
  ∃ s', for_each l ioapicinit_one s = Ok () s' ∧ ismp s' = ismp s ∧
        (∀ i, i ∈ l → route x0 s' i = (Some (INT_DISABLED + T_IRQ0 + i), Some 0)) ∧
        ∀ i, i ∉ l → route x0 s' i = route x0 s i.
Proof.
  revert s. induction l as [|i l IH]; intros s Hl Hnd.
  { exists s. split_and!; [done|done| |done]. by intros i ?%elem_of_nil. }
  apply NoDup_cons in Hnd as [Hni Hnd].
  destruct (ioapic_entry x0 s i (Z.lor INT_DISABLED (T_IRQ0 + i)) 0) as (s1 & H1 & M1 & E1 & F1); [apply Hl, list_elem_of_here|].
  destruct (IH s1) as (s2 & H2 & M2 & E2 & F2); [intros; apply Hl; by apply list_elem_of_further|done|].
  exists s2. simpl. rewrite (bind_Ok _ _ _ _ _ H1) H2. split_and!; [done|congruence| |].
  - intros j [->|Hj]%elem_of_cons; [|by apply E2]. rewrite F2 // E1.
    assert (0 ≤ i < 256) by apply Hl, list_elem_of_here.
    change INT_DISABLED with (2 ^ 16). rewrite lor_pow2 // /T_IRQ0; [lia|]. rewrite u32_id; [lia|]. by rewrite Z.add_assoc.
  - intros j [Hji Hjl]%not_elem_of_cons. rewrite F2 // F1 //.
Qed.

(** The number of lines the device says it has. *)
Definition lines_of (s : hwst) : Z :=
  let s := note (Store ioapic_reg REG_VER) s in Z.land (Z.shiftr (u32 (reg_load (hw_hist s) ioapic_data)) 16) 0xFF + 1.

Lemma lines_of_bound s : 1 ≤ lines_of s ≤ 256.
Proof.
  rewrite /lines_of. set (v := Z.shiftr _ 16). change 0xFF with (Z.ones 8). rewrite Z.land_ones //.
  pose proof (Z.mod_pos_bound v (2 ^ 8)). lia.
Qed.

(** C37: only what was enabled interrupts. picinit() leaves the pair of 8259As with
    their vectors, and masked as [irqmask] says, whatever state they were in;
    ioapicinit() disables every line the I/O APIC has. After that picenable(irq)
    lets through [irq] and no other line of the pair, and ioapicenable(irq, cpu)
    sends [irq] as vector [T_IRQ0 + irq] to [cpu] and leaves all other lines as
    they were. *)
Theorem interrupts_routed p1 p2 x0 s :
  0 ≤ irqmask s < 0xFFFF → ismp s = true →
  (∃ s', picinit s = Ok () s' ∧ pics_ok p1 p2 s') ∧
  (∃ b s', ioapicinit s = Ok b s' ∧ ∀ i, 0 ≤ i < lines_of s → route x0 s' i = (Some (INT_DISABLED + T_IRQ0 + i), Some 0)) ∧
  (∀ irq, 0 ≤ irq < 16 → pics_ok p1 p2 s →
     ∃ s', picenable irq s = Ok () s' ∧ pics_ok p1 p2 s' ∧
           ∀ n, 0 ≤ n < 16 → unmasked p1 p2 s' n = (n =? irq) || unmasked p1 p2 s n) ∧
  (∀ irq cpu, 0 ≤ irq < 256 → 0 ≤ cpu < 256 →
     ∃ s', ioapicenable irq cpu s = Ok () s' ∧ route x0 s' irq = (Some (T_IRQ0 + irq), Some (cpu * 2 ^ 24)) ∧
           ∀ j, j ≠ irq → route x0 s' j = route x0 s j).
Proof.
  intros Hm Hmp. split_and!.
  - destruct (picinit_ok p1 p2 s Hm) as (s' & ? & ? & _). eauto.
  - rewrite /ioapicinit bind_gets Hmp. cbn [negb]. rewrite /ioapicread !bind_assoc !bind_store !bind_load.
    cbv zeta. rewrite bind_assoc bind_store bind_load. cbv zeta. rewrite bind_gets.
    match goal with |- context [for_each ?l _] => set (L := l) end.
    match goal with |- context [(_ ≫= _) ?t] => set (s1 := t) end.
    assert (L = seqZ 0 (lines_of s)) as -> by done.
    destruct (ioapicinit_loop x0 (seqZ 0 (lines_of s)) s1) as (s2 & H2 & _ & E2 & _).
    { intros i Hi%elem_of_seqZ. pose proof (lines_of_bound s). lia. }
    { apply NoDup_seqZ. }
    rewrite (bind_Ok _ _ _ _ _ H2). eexists _, s2. split; [reflexivity|]. intros i Hi. apply E2, elem_of_seqZ. lia.
  - intros irq Hi Hok. by apply picenable_ok.
  - intros irq cpu Hi Hc. destruct (ioapic_entry x0 s irq (T_IRQ0 + irq) (Z.shiftl cpu 24)) as (s' & Hs & _ & E & F); [done|].
    exists s'. rewrite /ioapicenable bind_gets Hmp. split_and!; [done| |done]. rewrite E Z.shiftl_mul_pow2 //.
    by rewrite !u32_id /T_IRQ0; [lia..|].
Qed.

End routes.

(** *** The clock

    Two decimal digits as the clock keeps them. *)
Definition bcd (n : Z) : Z := n / 10 * 16 + n mod 10.

Lemma CONV_bcd n : 0 ≤ n < 100 → CONV (bcd n) = n.
Proof.
  intros Hn. rewrite /CONV /bcd. change 0xf with (Z.ones 4). rewrite Z.shiftr_div_pow2 // Z.land_ones //.
  change (2 ^ 4) with 16. rewrite u32_id; Z.to_euclidean_division_equations; lia.
Qed.

Section clock.
Context `{Devices} (rtc : Z → Z).
(** Register [r] of a clock that stands at [rtc]. *)
Hypothesis rtc_reads : ∀ h r, port_in (h ++ [Out CMOS_PORT r]) CMOS_RETURN = rtc r.
Hypothesis rtc_idle : Z.land (rtc CMOS_STATA) CMOS_UIP = 0.
Hypothesis rtc_bcd : Z.land (rtc CMOS_STATB) (Z.shiftl 1 2) = 0.
Hypothesis rtc_byte : ∀ r, 0 ≤ rtc r < 256.

Lemma cmos_read_ok reg s : 0 ≤ reg < 256 → ∃ s', cmos_read reg s = Ok (rtc reg) s'.
Proof.
  intros Hr. rewrite /cmos_read bind_outb. eexists. rewrite /inb bind_gets. simpl.
  assert (∀ x, 0 ≤ x < 256 → u8 x = x) as Hu by (intros; by rewrite /u8 Z.mod_small).
  rewrite Hu // rtc_reads Hu //.
Qed.

Lemma fill_ok s : ∃ s', fill_rtcdate s = Ok (Rtcdate (rtc SECS) (rtc MINS) (rtc HOURS) (rtc DAY) (rtc MONTH) (rtc YEAR)) s'.
Proof.
  rewrite /fill_rtcdate.
  destruct (cmos_read_ok SECS s) as [s1 H1]; [done|]. destruct (cmos_read_ok MINS s1) as [s2 H2]; [done|].
  destruct (cmos_read_ok HOURS s2) as [s3 H3]; [done|]. destruct (cmos_read_ok DAY s3) as [s4 H4]; [done|].
  destruct (cmos_read_ok MONTH s4) as [s5 H5]; [done|]. destruct (cmos_read_ok YEAR s5) as [s6 H6]; [done|].
  exists s6. by rewrite (bind_Ok _ _ _ _ _ H1) (bind_Ok _ _ _ _ _ H2) (bind_Ok _ _ _ _ _ H3) (bind_Ok _ _ _ _ _ H4)
    (bind_Ok _ _ _ _ _ H5) (bind_Ok _ _ _ _ _ H6).
Qed.

(** cmostime() reads the date off a clock that keeps it in decimal digits. *)
Lemma cmostime_ok fuel s t :
  (0 < fuel)%nat →
  Forall (λ x, 0 ≤ x < 100) [second t; minute t; hour t; day t; month t; year t] →
  rtc SECS = bcd (second t) → rtc MINS = bcd (minute t) → rtc HOURS = bcd (hour t) →
  rtc DAY = bcd (day t) → rtc MONTH = bcd (month t) → rtc YEAR = bcd (year t) →
  ∃ s', cmostime fuel s = Ok (Rtcdate (second t) (minute t) (hour t) (day t) (month t) (2000 + year t)) s'.
Proof.
  intros Hf HF E1 E2 E3 E4 E5 E6. rewrite /cmostime. destruct (cmos_read_ok CMOS_STATB s) as [s1 H1]; [done|].
  rewrite (bind_Ok _ _ _ _ _ H1) rtc_bcd Z.eqb_refl. destruct (fill_ok s1) as [s2 H2].
  destruct (cmos_read_ok CMOS_STATA s2) as [s3 H3]; [done|]. destruct (fill_ok s3) as [s4 H4].
  destruct fuel as [|fuel]; [lia|].
  rewrite (bind_Ok _ _ _ (Rtcdate (rtc SECS) (rtc MINS) (rtc HOURS) (rtc DAY) (rtc MONTH) (rtc YEAR)) s4).
  { apply loop_done. rewrite /cmostime_step (bind_Ok _ _ _ _ _ H2) (bind_Ok _ _ _ _ _ H3) rtc_idle Z.eqb_refl /=.
    rewrite (bind_Ok _ _ _ _ _ H4) bool_decide_eq_true_2 //. }
  exists s4. rewrite !Forall_cons in HF. destruct HF as (? & ? & ? & ? & ? & ? & _). simpl.
  rewrite E1 E2 E3 E4 E5 E6 !CONV_bcd // u32_id; [lia|]. by rewrite Z.add_comm.
Qed.

End clock.

(** Devices that answer nothing but zeroes, except that the I/O APIC has 24 lines. *)
#[local] Instance demo_devices : Devices := {
  port_in _ _ := 0;
  port_ins _ _ n := replicate (4 * n) 0;
  reg_load _ a := if a =? ioapic_data then 23 * 2 ^ 16 else 0
}.

Definition demo_hw : hwst := Hwst [] ∅ irqmask_init 0xFEE00000 true 2 [0; 1] 2.

Lemma interrupts_routed_witness :
  ∃ s', (picinit;; ioapicinit;; mret ()) demo_hw = Ok () s' ∧ route (0, ∅) s' 14 = (Some (2 ^ 16 + 46), Some 0) ∧
  ∃ s'', ioapicenable 14 1 s' = Ok () s'' ∧ route (0, ∅) s'' 14 = (Some 46, Some (2 ^ 24)).
Proof.
  eexists. split; [vm_compute; reflexivity|]. split; [vm_compute; reflexivity|].
  match goal with |- ∃ s'', ioapicenable 14 1 ?s = _ ∧ _ =>
    destruct (interrupts_routed (Pic 0 0 0 0 0) (Pic 0 0 0 0 0) (0, ∅) s) as (_ & _ & _ & H4) end;
    [by vm_compute|done|].
  destruct (H4 14 1) as (s2 & Hs & E & _); [lia|lia|]. exists s2. split; [exact Hs|exact E].
Defined.
