(* ===== verification/Ide.v ===== *)
(** * The IDE disk driver: ide.c

    The queue of requests and the programmed I/O of the driver that runs on real
    hardware. A request puts its process to sleep; the interrupt handler completes
    the first request of the queue and starts the next. *)

From S2P Require Import Prelude Param Bytes String State Spinlock Sched Sleeplock Bio Hw Irq.

Module Ide.

Definition SECTOR_SIZE : Z := 512.
Definition IDE_BSY : Z := 0x80.
Definition IDE_DRDY : Z := 0x40.
Definition IDE_DF : Z := 0x20.
Definition IDE_ERR : Z := 0x01.
Definition IDE_CMD_READ : Z := 0x20.
Definition IDE_CMD_WRITE : Z := 0x30.
Definition IDE_CMD_RDMUL : Z := 0xc4.
Definition IDE_CMD_WRMUL : Z := 0xc5.

(** The kernel's data, the devices, and the driver's own variables: [idequeue], the
    [qnext] fields of the buffers, [havedisk1]. *)
Record ist := Ist {
  i_k : kstate;
  i_hw : hwst;
  idequeue : option nat;
  qnext : gmap nat nat;
  havedisk1 : bool
}.

Definition set_ik (k : kstate) (s : ist) : ist := Ist k (i_hw s) (idequeue s) (qnext s) (havedisk1 s).
Definition set_ihw (h : hwst) (s : ist) : ist := Ist (i_k s) h (idequeue s) (qnext s) (havedisk1 s).
Definition set_idequeue (q : option nat) (s : ist) : ist := Ist (i_k s) (i_hw s) q (qnext s) (havedisk1 s).
Definition set_qnext (q : gmap nat nat) (s : ist) : ist := Ist (i_k s) (i_hw s) (idequeue s) q (havedisk1 s).
Definition set_havedisk1 (b : bool) (s : ist) : ist := Ist (i_k s) (i_hw s) (idequeue s) (qnext s) b.

Definition I : Type → Type := M switch ist.

(** The kernel's routines and the devices' in the driver. *)
Definition kern {A} (m : K A) : I A := λ s,
  match m (i_k s) with
  | Ok a k => Ok a (set_ik k s)
  | Panic msg => Panic msg
  | Switch w k => Switch w (set_ik k s)
  | Spin => Spin
  | Fault a => Fault a
  | NoFuel => NoFuel
  end.

Definition dev {A} (m : W A) : I A := λ s,
  match m (i_hw s) with
  | Ok a h => Ok a (set_ihw h s)
  | Panic msg => Panic msg
  | Switch w _ => match w : Empty_set with end
  | Spin => Spin
  | Fault a => Fault a
  | NoFuel => NoFuel
  end.

Section ide.
Context `{Devices} (fuel : nat).

(** [while(((r = inb(0x1f7)) & (IDE_BSY|IDE_DRDY)) != IDE_DRDY);] *)
Definition poll : W Z :=
  loop fuel (λ _, r ← inb 0x1f7;
                  if Z.land r (Z.lor IDE_BSY IDE_DRDY) =? IDE_DRDY then mret (inr r) else mret (inl ())) ().

Definition idewait (checkerr : bool) : W Z :=
  r ← poll;
  if checkerr && negb (Z.land r (Z.lor IDE_DF IDE_ERR) =? 0) then mret (-1) else mret 0.

Definition ideinit : I unit :=
  kern (initlock LkIde);;
  dev (picenable IRQ_IDE);;
  n ← gets (λ s, ncpu (i_hw s));
  dev (ioapicenable IRQ_IDE (n - 1));;
  dev (idewait false);;
  dev (outb 0x1f6 (Z.lor 0xe0 (Z.shiftl 1 4)));;
  o ← dev (scan (seq 0 1000) (λ _, v ← inb 0x1f7; mret (if negb (v =? 0) then Some () else None)));
  (match o with Some _ => modify (set_havedisk1 true) | None => mret () end);;
  dev (outb 0x1f6 (Z.lor 0xe0 (Z.shiftl 0 4))).

(** idestart(b), for a buffer of the cache. *)
Definition idestart (i : nat) : I unit :=
  b ← kern (getbuf i);
  if FSSIZE <=? b_blockno b then panic "incorrect blockno" else
  let sector_per_block := BSIZE / SECTOR_SIZE in
  let sector := s32 (b_blockno b * sector_per_block) in
  let read_cmd := if sector_per_block =? 1 then IDE_CMD_READ else IDE_CMD_RDMUL in
  let write_cmd := if sector_per_block =? 1 then IDE_CMD_WRITE else IDE_CMD_WRMUL in
  if 7 <? sector_per_block then panic "idestart" else
  dev (idewait false);;
  dev (outb 0x3f6 0);;
  dev (outb 0x1f2 sector_per_block);;
  dev (outb 0x1f3 (Z.land sector 0xff));;
  dev (outb 0x1f4 (Z.land (Z.shiftr sector 8) 0xff));;
  dev (outb 0x1f5 (Z.land (Z.shiftr sector 16) 0xff));;
  dev (outb 0x1f6 (Z.lor (Z.lor 0xe0 (Z.shiftl (Z.land (b_dev b) 1) 4)) (Z.land (Z.shiftr sector 24) 0x0f)));;
  if negb (Z.land (b_flags b) B_DIRTY =? 0) then
    dev (outb 0x1f7 write_cmd);;
    dev (outsl 0x1f0 (b_data b))
  else dev (outb 0x1f7 read_cmd).

Definition ideintr : I unit :=
  kern (acquire LkIde);;
  o ← gets idequeue;
  match o with
  | None => kern (release LkIde)
  | Some i =>
      modify (λ s, set_idequeue (qnext s !! i) s);;
      b ← kern (getbuf i);
      (if Z.land (b_flags b) B_DIRTY =? 0 then
         r ← dev (idewait true);
         if 0 <=? r then
           d ← dev (insl 0x1f0 (Z.to_nat (BSIZE / 4)));
           kern (updbuf i (set_data d))
         else mret ()
       else mret ());;
      kern (updbuf i (λ b, set_flags (Z.lor (b_flags b) B_VALID) b));;
      kern (updbuf i (λ b, set_flags (Z.land (b_flags b) (Z.lnot B_DIRTY)) b));;
      kern (wakeup (ChBuf i));;
      o' ← gets idequeue;
      (match o' with Some j => idestart j | None => mret () end);;
      kern (release LkIde)
  end.

(** The loop of iderw() to the end of the queue, from its buffer [p] on, and the
    link set there. *)
Definition append_step (i p : nat) : I (nat + unit) :=
  o ← gets (λ s, qnext s !! p);
  match o with
  | Some p' => mret (inl p')
  | None => modify (λ s, set_qnext (<[p := i]> (qnext s)) s);; mret (inr ())
  end.

Definition append (i : nat) : I unit :=
  modify (λ s, set_qnext (delete i (qnext s)) s);;
  o ← gets idequeue;
  match o with
  | None => modify (set_idequeue (Some i))
  | Some p => loop (S NBUF) (append_step i) p
  end.

(** [while((b->flags & (B_VALID|B_DIRTY)) != B_VALID) sleep(b, &idelock);] *)
Definition iderw_wait (i : nat) : I unit :=
  b ← kern (getbuf i);
  if Z.land (b_flags b) (Z.lor B_VALID B_DIRTY) =? B_VALID then kern (release LkIde)
  else kern (sleep (ChBuf i) LkIde).

Definition iderw (i : nat) : I unit :=
  h ← kern (holdingsleep (SlBuf i));
  if negb h then panic "iderw: buf not locked" else
  b ← kern (getbuf i);
  if Z.land (b_flags b) (Z.lor B_VALID B_DIRTY) =? B_VALID then panic "iderw: nothing to do" else
  hd ← gets havedisk1;
  if negb (b_dev b =? 0) && negb hd then panic "iderw: ide disk 1 not present" else
  kern (acquire LkIde);;
  append i;;
  o ← gets idequeue;
  (if bool_decide (o = Some i) then idestart i else mret ());;
  iderw_wait i.

(** iderw() after sleep() returns. *)
Definition iderw_resume (i : nat) (ie : bool) : I unit :=
  kern (sleep_resume LkIde ie);;
  iderw_wait i.

End ide.

End Ide.
