(* ===== verification/IdeSpec.v ===== *)
(** * What the IDE driver does

    The controller as its interface describes it (task file registers, commands,
    data port), the queue of requests, and the theorems: requests are served in
    order, and each of them as it would be on a disk without a queue. *)

From S2P Require Import Prelude Param Bytes String State Spinlock Sched Sleeplock Bio Hw Irq Ide.
Import Ide.

(** ** The controller *)

Inductive phase := Idle | Reading (drive sector : Z) | Writing (drive sector : Z).

(** Sectors by drive and number; those never written hold zeroes. *)
Notation disk := (gmap (Z * Z) (list Z)).
Definition content (D : disk) (drive sector : Z) : list Z := default (replicate 512 0) (D !! (drive, sector)).

Record ata := Ata { a_disk : disk; a_cnt : Z; a_lo : Z; a_mid : Z; a_hi : Z; a_dh : Z; a_phase : phase }.

Definition drive_of (x : ata) : Z := Z.land (Z.shiftr (a_dh x) 4) 1.
Definition sector_of (x : ata) : Z := a_lo x + a_mid x * 2 ^ 8 + a_hi x * 2 ^ 16 + Z.land (a_dh x) 0x0f * 2 ^ 24.

Definition set_phase (p : phase) (x : ata) : ata := Ata (a_disk x) (a_cnt x) (a_lo x) (a_mid x) (a_hi x) (a_dh x) p.

(** The effect of an access: a register is set, a command for one sector starts, the
    data of a sector is transferred. *)
Definition ata_access (x : ata) (a : access) : ata :=
  match a with
  | Out port v =>
      if port =? 0x1f2 then Ata (a_disk x) v (a_lo x) (a_mid x) (a_hi x) (a_dh x) (a_phase x)
      else if port =? 0x1f3 then Ata (a_disk x) (a_cnt x) v (a_mid x) (a_hi x) (a_dh x) (a_phase x)
      else if port =? 0x1f4 then Ata (a_disk x) (a_cnt x) (a_lo x) v (a_hi x) (a_dh x) (a_phase x)
      else if port =? 0x1f5 then Ata (a_disk x) (a_cnt x) (a_lo x) (a_mid x) v (a_dh x) (a_phase x)
      else if port =? 0x1f6 then Ata (a_disk x) (a_cnt x) (a_lo x) (a_mid x) (a_hi x) v (a_phase x)
      else if port =? 0x1f7 then
        if negb (a_cnt x =? 1) then x
        else if v =? IDE_CMD_READ then set_phase (Reading (drive_of x) (sector_of x)) x
        else if v =? IDE_CMD_WRITE then set_phase (Writing (drive_of x) (sector_of x)) x
        else x
      else x
  | OutS port bs =>
      if port =? 0x1f0 then
        match a_phase x with
        | Writing d n => Ata (<[(d, n) := bs]> (a_disk x)) (a_cnt x) (a_lo x) (a_mid x) (a_hi x) (a_dh x) Idle
        | _ => x
        end
      else x
  | InS port _ =>
      if port =? 0x1f0 then match a_phase x with Reading _ _ => set_phase Idle x | _ => x end else x
  | _ => x
  end.

Definition ata_of (x0 : ata) (h : hwst) : ata := foldl ata_access x0 (hw_hist h).

Lemma ata_of_note x0 a h : ata_of x0 (note a h) = ata_access (ata_of x0 h) a.
Proof. by rewrite /ata_of /= foldl_app. Qed.

(** ** Requests *)

Definition dirty (b : buf) : bool := negb (Z.land (b_flags b) B_DIRTY =? 0).

(** There is something to do for the buffer. *)
Definition todo (b : buf) : Prop := Z.land (b_flags b) (Z.lor B_VALID B_DIRTY) ≠ B_VALID ∧ 0 ≤ b_blockno b < FSSIZE.

Definition finished (b : buf) : buf := set_flags (Z.land (Z.lor (b_flags b) B_VALID) (Z.lnot B_DIRTY)) b.

(** The sector of a buffer. *)
Definition place (b : buf) : Z * Z := (Z.land (b_dev b) 1, b_blockno b).

(** A request served on a disk without a queue: a dirty buffer is written, another
    one read, unless the controller reports an error ([err]), which leaves its bytes as
    they were; the processes that wait for the buffer are woken. *)
Definition serve (x : disk * kstate) (r : nat * bool) : disk * kstate :=
  let '(D, k) := x in
  let '(i, err) := r in
  match bufs k !! i with
  | None => (D, k)
  | Some b =>
      let b' := if dirty b || err then b else set_data (content D (Z.land (b_dev b) 1) (b_blockno b)) b in
      (if dirty b then <[place b := b_data b]> D else D,
       crit (woken (ChBuf i) (set_bufs (<[i := finished b']> (bufs k)) k)))
  end.

(** The buffers of the queue, from its head [o] along the links. *)
Fixpoint linked (o : option nat) (nx : gmap nat nat) (q : list nat) : Prop :=
  match q with
  | [] => o = None
  | i :: q' => o = Some i ∧ linked (nx !! i) nx q'
  end.

(** The controller works on the first request; a write has reached the disk. *)
Definition started (D : disk) (b : buf) (x : ata) : Prop :=
  if dirty b then a_disk x = <[place b := b_data b]> D ∧ a_phase x = Idle
  else a_disk x = D ∧ a_phase x = Reading (Z.land (b_dev b) 1) (b_blockno b).

Record ide_inv (x0 : ata) (s : ist) (D : disk) (q : list nat) : Prop := {
  iv_linked : linked (idequeue s) (qnext s) q;
  iv_nodup : NoDup q;
  iv_todo : ∀ i, i ∈ q → ∃ b, bufs (i_k s) !! i = Some b ∧ todo b;
  iv_ata : match q with
           | [] => a_disk (ata_of x0 (i_hw s)) = D
           | i :: _ => ∃ b, bufs (i_k s) !! i = Some b ∧ started D b (ata_of x0 (i_hw s))
           end
}.

(** ** Rules *)

Lemma bind_kern {A B} (m : K A) (f : A → I B) s a k :
  m (i_k s) = Ok a k → (kern m ≫= f) s = f a (set_ik k s).
Proof. intros E. by rewrite /mbind /M_bind /kern E. Qed.

Lemma bind_dev {A B} (m : W A) (f : A → I B) s a h :
  m (i_hw s) = Ok a h → (dev m ≫= f) s = f a (set_ihw h s).
Proof. intros E. by rewrite /mbind /M_bind /dev E. Qed.

Lemma bind_dev_outb {B} port v (f : unit → I B) h s :
  (dev (outb port v) ≫= f) (set_ihw h s) = f () (set_ihw (note (Out port (u8 v)) h) s).
Proof. done. Qed.

(** The registers name the block. *)
Lemma registers_name b x :
  0 ≤ b_blockno b < FSSIZE →
  let n := b_blockno b in let d := Z.land (b_dev b) 1 in
  let y := Ata (a_disk x) 1 (u8 (Z.land n 0xff)) (u8 (Z.land (Z.shiftr n 8) 0xff)) (u8 (Z.land (Z.shiftr n 16) 0xff))
               (u8 (Z.lor (Z.lor 0xe0 (Z.shiftl d 4)) (Z.land (Z.shiftr n 24) 0x0f))) (a_phase x) in
  drive_of y = d ∧ sector_of y = n.
Proof.
  intros Hn n d. rewrite /FSSIZE in Hn. fold n in Hn.
  change 0xff with (Z.ones 8). change 0x0f with (Z.ones 4). rewrite !Z.shiftr_div_pow2 // !Z.land_ones //.
  rewrite (Z.div_small n (2 ^ 16)); [lia|]. rewrite (Z.div_small n (2 ^ 24)); [lia|].
  assert (∀ z, u8 (z mod 2 ^ 8) = z mod 2 ^ 8) as Hu by (intros; by rewrite /u8 Z.mod_mod).
  rewrite !Hu. rewrite /drive_of /sector_of. cbn [a_dh a_lo a_mid a_hi].
  assert (d = 0 ∨ d = 1) as Hd.
  { assert (d = b_dev b mod 2) as -> by exact (Z.land_ones (b_dev b) 1 ltac:(lia)).
    pose proof (Z.mod_pos_bound (b_dev b) 2). lia. }
  clearbody d. change (0 `mod` 2 ^ 8) with 0. change (0 `mod` 2 ^ 4) with 0.
  destruct Hd as [-> | ->]; (split; [done|]).
  - change (Z.land (u8 (Z.lor (Z.lor 224 (Z.shiftl 0 4)) 0)) 15) with 0. Z.to_euclidean_division_equations. lia.
  - change (Z.land (u8 (Z.lor (Z.lor 224 (Z.shiftl 1 4)) 0)) 15) with 0. Z.to_euclidean_division_equations. lia.
Qed.

(** *** The queue *)

Lemma linked_delete i o nx q : linked o nx q → i ∉ q → linked o (delete i nx) q.
Proof.
  revert o. induction q as [|j q IH]; intros o; simpl; [done|]. intros [-> Hq] [Hne Hi]%not_elem_of_cons.
  split; [done|]. rewrite lookup_delete_ne //. by apply IH.
Qed.

(** Walking to the end of the queue and adding [i] there. *)
Lemma append_loop i p q s n :
  linked (Some p) (qnext s) (p :: q) → NoDup (p :: q) → i ∉ p :: q → qnext s !! i = None → (length q < n)%nat →
  ∃ z, z ∈ p :: q ∧ loop n (append_step i) p s = Ok () (set_qnext (<[z := i]> (qnext s)) s) ∧
       linked (Some p) (<[z := i]> (qnext s)) (p :: q ++ [i]).
Proof.
  revert p n. induction q as [|j q IH]; intros p n [_ Hq] [Hp Hnd]%NoDup_cons [Hip Hi]%not_elem_of_cons Hnx Hn;
    (destruct n as [|n]; [simpl in Hn; lia|]); simpl in Hq.
  - exists p. split_and!; [apply list_elem_of_here| |].
    + apply loop_done. by rewrite /append_step bind_gets Hq bind_modify.
    + simpl. rewrite lookup_insert_eq. split_and!; [done|done|]. rewrite lookup_insert_ne //; congruence.
  - destruct Hq as [Ej Hq].
    destruct (IH j n) as (z & Hin & Hz & Hl); [done|done|done|done|simpl in Hn; lia|].
    exists z. rewrite (loop_S _ _ _ _ j s); [by rewrite /append_step bind_gets Ej|].
    split; [by apply list_elem_of_further|]. split; [done|]. split; [done|].
    rewrite lookup_insert_ne; [by intros ->|]. by rewrite Ej.
Qed.

Lemma append_ok i q s :
  linked (idequeue s) (qnext s) q → NoDup q → i ∉ q → (length q ≤ NBUF)%nat →
  ∃ s', append i s = Ok () s' ∧ i_k s' = i_k s ∧ i_hw s' = i_hw s ∧ havedisk1 s' = havedisk1 s ∧
        linked (idequeue s') (qnext s') (q ++ [i]) ∧ (idequeue s' = Some i ↔ q = []).
Proof.
  intros Hq Hnd Hi Hn. rewrite /append bind_modify bind_gets. cbn [idequeue set_qnext].
  pose proof (linked_delete i _ _ _ Hq Hi) as Hq'. destruct q as [|p q].
  - rewrite Hq. eexists. split; [reflexivity|]. simpl. rewrite lookup_delete_eq. done.
  - destruct Hq as [Eq Hq]. rewrite Eq in Hq' |- *.
    destruct (append_loop i p q (set_qnext (delete i (qnext s)) s) (S NBUF)) as (z & _ & Hz & Hl);
      [done|done|done|by rewrite /= lookup_delete_eq|simpl in Hn; lia|].
    rewrite Hz. eexists. split; [reflexivity|]. cbn [i_k i_hw havedisk1 idequeue qnext set_qnext]. rewrite Eq. split_and!; [done|done|done|done|].
    split; [|done]. intros [= ->]. by apply not_elem_of_cons in Hi as [? _].
Qed.

Section controller.
Context `{Devices} (x0 : ata) (patience fuel : nat).

(** The controller becomes ready when it has been asked often enough, and when its
    status shows no error what it delivers is the sector it was asked for. *)
Hypothesis ata_ready : ∀ h vs, (patience ≤ length vs)%nat →
  Z.land (u8 (port_in (h ++ (In 0x1f7 <$> vs)) 0x1f7)) (Z.lor IDE_BSY IDE_DRDY) = IDE_DRDY.
Hypothesis ata_data : ∀ h v d n, a_phase (ata_of x0 h) = Reading d n → Z.land v (Z.lor IDE_DF IDE_ERR) = 0 →
  port_ins (hw_hist (note (In 0x1f7 v) h)) 0x1f0 128 = content (a_disk (ata_of x0 h)) d n.
Hypothesis fuel_enough : (patience < fuel)%nat.

Lemma ata_of_polls vs h : foldl ata_access (ata_of x0 h) (In 0x1f7 <$> vs) = ata_of x0 h.
Proof. by induction vs. Qed.

(** The status the controller shows after a history of accesses. *)
Definition status (h : hwst) : Z := u8 (port_in (hw_hist h) 0x1f7).

(** Polling ends, and changes nothing in the controller. *)
Lemma poll_ok h : ∃ h', poll fuel h = Ok (status h') (note (In 0x1f7 (status h')) h') ∧ ata_of x0 h' = ata_of x0 h.
Proof.
  assert (∀ n vs, (length vs ≤ patience < n + length vs)%nat →
    ∃ h', loop n (λ _, r ← inb 0x1f7; if Z.land r (Z.lor IDE_BSY IDE_DRDY) =? IDE_DRDY then mret (inr r) else mret (inl ())) ()
              (set_hist (hw_hist h ++ (In 0x1f7 <$> vs)) h) = Ok (status h') (note (In 0x1f7 (status h')) h') ∧ ata_of x0 h' = ata_of x0 h) as Hl.
  { induction n as [|n IH]; intros vs Hn; [lia|]. set (h1 := set_hist _ h).
    assert (note (In 0x1f7 (status h1)) h1 = set_hist (hw_hist h ++ (In 0x1f7 <$> vs ++ [status h1])) h) as E1.
    { by rewrite /note /h1 /set_hist /= fmap_app app_assoc. }
    destruct (Z.eqb_spec (Z.land (status h1) (Z.lor IDE_BSY IDE_DRDY)) IDE_DRDY) as [E|E].
    - exists h1. split; [|by rewrite /ata_of /= foldl_app ata_of_polls].
      apply loop_done. rewrite bind_inb. cbv zeta. fold (status h1). by rewrite (proj2 (Z.eqb_eq _ _) E).
    - destruct (decide (patience ≤ length vs)%nat) as [Hp|Hp]; [by destruct E; apply ata_ready|].
      destruct (IH (vs ++ [status h1])) as (h' & Hr & Eh); [rewrite length_app /=; lia|]. exists h'. split; [|done].
      rewrite -Hr -E1. apply loop_S. rewrite bind_inb. cbv zeta. fold (status h1). by rewrite (proj2 (Z.eqb_neq _ _) E). }
  destruct (Hl fuel []) as (h' & Hr & E); [simpl; lia|]. exists h'. split; [|done].
  rewrite -Hr /poll. f_equal. destruct h. by rewrite /set_hist /= app_nil_r.
Qed.

(** The controller reports an error. *)
Definition failing (h : hwst) : bool := negb (Z.land (status h) (Z.lor IDE_DF IDE_ERR) =? 0).

Lemma idewait_ok c h :
  ∃ h', idewait fuel c h = Ok (if c && failing h' then -1 else 0) (note (In 0x1f7 (status h')) h') ∧ ata_of x0 h' = ata_of x0 h.
Proof.
  destruct (poll_ok h) as (h' & Hr & E). rewrite /idewait (bind_Ok _ _ _ _ _ Hr). exists h'. split; [|done].
  rewrite /failing. by destruct c, (Z.land (status h') (Z.lor IDE_DF IDE_ERR) =? 0).
Qed.

(** Starting a request. *)
Lemma idestart_ok i b s D :
  bufs (i_k s) !! i = Some b → 0 ≤ b_blockno b < FSSIZE → a_disk (ata_of x0 (i_hw s)) = D →
  ∃ h', idestart fuel i s = Ok () (set_ihw h' s) ∧ started D b (ata_of x0 h').
Proof.
  intros Hb Hn HD. rewrite /idestart.
  assert (kern (getbuf i) s = Ok b s) as Hg.
  { rewrite /kern (getbuf_Ok i b (i_k s) Hb). by destruct s. }
  rewrite (bind_Ok _ _ _ _ _ Hg) (proj2 (Z.leb_gt FSSIZE (b_blockno b))); [lia|].
  change (BSIZE / SECTOR_SIZE) with 1. rewrite Z.mul_1_r s32_id; [rewrite /FSSIZE in Hn; lia|]. cbn [Z.eqb Z.ltb Z.compare Pos.eqb Pos.compare Pos.compare_cont].
  destruct (idewait_ok false (i_hw s)) as (h1 & Hw & E1). cbn [andb] in Hw.
  rewrite (bind_dev _ _ _ _ _ Hw) !bind_dev_outb.
  match goal with |- context [set_ihw ?h s] => set (h2 := h) end.
  destruct (registers_name b (ata_of x0 (i_hw s)) Hn) as [Ed En]. cbv zeta in Ed, En. set (y := Ata _ _ _ _ _ _ _) in Ed, En.
  assert (ata_of x0 h2 = y) as E2 by by rewrite /h2 !ata_of_note E1.
  clearbody h2. rewrite /started /dirty. destruct (Z.land (b_flags b) B_DIRTY =? 0); cbn [negb].
  - exists (note (Out 0x1f7 IDE_CMD_READ) h2). split; [done|]. rewrite ata_of_note E2 /= -/y Ed En //.
  - exists (note (OutS 0x1f0 (b_data b)) (note (Out 0x1f7 IDE_CMD_WRITE) h2)). split; [done|].
    rewrite !ata_of_note E2 /= -/y /place Ed En HD //.
Qed.

Lemma getbuf_kern {B} i b (f : buf → I B) s : bufs (i_k s) !! i = Some b → (kern (getbuf i) ≫= f) s = f b s.
Proof. intros Hb. rewrite (bind_kern _ _ _ _ _ (getbuf_Ok i b (i_k s) Hb)). by destruct s. Qed.

Lemma updbuf_kern {B} i b g (f : unit → I B) s :
  bufs (i_k s) !! i = Some b → (kern (updbuf i g) ≫= f) s = f () (set_ik (set_bufs (<[i := g b]> (bufs (i_k s))) (i_k s)) s).
Proof.
  intros Hb. rewrite (bind_kern _ _ s () (set_bufs (alter g i (bufs (i_k s))) (i_k s))) //. do 3 f_equal.
  apply list_eq. intros j. destruct (decide (j = i)) as [->|Hne].
  - rewrite list_lookup_alter_eq Hb list_lookup_insert_eq //. by apply lookup_lt_Some in Hb.
  - rewrite list_lookup_alter_ne; [congruence|]. by rewrite list_lookup_insert_ne; [congruence|].
Qed.

(** The data part of ideintr(): a read takes the sector off the controller, unless
    there was an error. *)
Lemma ideintr_data {B} i b D (f : unit → I B) s :
  bufs (i_k s) !! i = Some b → started D b (ata_of x0 (i_hw s)) →
  ∃ h' h0, let err := failing h0 in
    let b' := if dirty b || err then b else set_data (content D (Z.land (b_dev b) 1) (b_blockno b)) b in
    a_disk (ata_of x0 h') = (if dirty b then <[place b := b_data b]> D else D) ∧
    ((if Z.land (b_flags b) B_DIRTY =? 0 then
        r ← dev (idewait fuel true);
        if 0 <=? r then d ← dev (insl 0x1f0 (Z.to_nat (BSIZE / 4))); kern (updbuf i (set_data d)) else mret ()
      else mret ()) ≫= f) s = f () (set_ik (set_bufs (<[i := b']> (bufs (i_k s))) (i_k s)) (set_ihw h' s)).
Proof.
  intros Hb Hst.
  assert (∀ h, f () (set_ik (set_bufs (<[i := b]> (bufs (i_k s))) (i_k s)) (set_ihw h s)) = f () (set_ihw h s)) as Hsame.
  { intros h. rewrite list_insert_id //. destruct s as [k h0 o nx hd]. f_equal. rewrite /set_ik /set_ihw /=. f_equal. by destruct k as [? ? ? ? ? ? []]. }
  rewrite /started /dirty in Hst |- *. destruct (Z.land (b_flags b) B_DIRTY =? 0); cbn [negb orb] in *.
  2:{ destruct Hst as [HD _]. exists (i_hw s), (i_hw s). split; [done|]. rewrite bind_ret Hsame. by destruct s. }
  destruct Hst as [HD Hp]. destruct (idewait_ok true (i_hw s)) as (h1 & Hw & E1). cbn [andb] in Hw.
  rewrite bind_assoc (bind_dev _ _ _ _ _ Hw). destruct (failing h1) eqn:He; cbn [Z.leb Z.compare].
  - exists (note (In 0x1f7 (status h1)) h1), h1. rewrite He. split; [by rewrite ata_of_note E1|]. by rewrite bind_ret Hsame.
  - set (h2 := note (In 0x1f7 (status h1)) h1) in *.
    assert (port_ins (hw_hist h2) 0x1f0 128 = content D (Z.land (b_dev b) 1) (b_blockno b)) as Hd.
    { rewrite -HD -E1. apply ata_data; [by rewrite E1|]. rewrite /failing negb_false_iff in He. by apply Z.eqb_eq. }
    set (d := content D _ _) in Hd |- *.
    exists (note (InS 0x1f0 d) h2), h1. rewrite He !ata_of_note E1 /= Hp. split; [done|]. rewrite bind_assoc.
    rewrite (bind_dev _ _ _ d (note (InS 0x1f0 d) h2)); [by rewrite /insl bind_gets Hd|]. by rewrite (updbuf_kern _ b).
Qed.

(** No spin lock of the driver's is taken. *)
Definition free_locks (k : kstate) : Prop :=
  k_locks k !! LkIde = None ∧ k_locks k !! LkPtable = None ∧ cpu_ok (k_cpu k).

(** The queue without its first request, and the next one started. *)
Lemma next_request s i q D0 D h k :
  ide_inv x0 s D0 (i :: q) → a_disk (ata_of x0 h) = D →
  (∀ j, j ≠ i → bufs k !! j = bufs (i_k s) !! j) →
  let s1 := Ist k h (qnext s !! i) (qnext s) (havedisk1 s) in
  ∃ h', (∀ B (f : unit → I B), ((match idequeue s1 with Some j => idestart fuel j | None => mret () end) ≫= f) s1 = f () (set_ihw h' s1)) ∧
        ide_inv x0 (set_ihw h' s1) D q.
Proof.
  intros [[Eq Hq] [Hni Hnd]%NoDup_cons Htd _] HD Hk s1.
  assert (∀ j, j ∈ q → ∃ b, bufs k !! j = Some b ∧ todo b) as Htd'.
  { intros j Hj. destruct (Htd j) as (b & Hb & Hj'); [by apply list_elem_of_further|]. exists b. split; [|done].
    rewrite Hk //. by intros ->. }
  destruct q as [|j q]; simpl in Hq.
  - exists h. split; [intros; cbn [idequeue s1]; by rewrite Hq bind_ret|]. split; [done|constructor|done|done].
  - destruct Hq as [Ej Hq]. destruct (Htd' j) as (b & Hb & Hj); [apply list_elem_of_here|].
    destruct (idestart_ok j b s1 D Hb) as (h' & Hs & Hst); [apply Hj|done|].
    exists h'. split.
    + intros B f. cbn [idequeue s1]. by rewrite Ej (bind_Ok _ _ _ _ _ Hs).
    + split; [done|done|done|]. by exists b.
Qed.

Lemma ideintr_ok s D i q :
  ide_inv x0 s D (i :: q) → free_locks (i_k s) →
  ∃ h s', ideintr fuel s = Ok () s' ∧ ide_inv x0 s' (serve (D, i_k s) (i, failing h)).1 q ∧ i_k s' = (serve (D, i_k s) (i, failing h)).2.
Proof.
  intros Hinv (HL1 & HL2 & Hcpu). pose proof (iv_ata _ _ _ _ Hinv) as (b & Hb & Hst). pose proof (iv_linked _ _ _ _ Hinv) as [Eq Hq].
  rewrite /ideintr (bind_kern _ _ s () (enter LkIde (i_k s))); [by apply acquire_Ok|].
  rewrite bind_gets. cbn [idequeue set_ik]. rewrite Eq bind_modify. set (s1 := set_idequeue _ _).
  assert (bufs (i_k s1) !! i = Some b) as Hb1 by exact Hb.
  rewrite (getbuf_kern i b) //.
  destruct (ideintr_data i b D (λ _,
    kern (updbuf i (λ b, set_flags (Z.lor (b_flags b) B_VALID) b));;
    kern (updbuf i (λ b, set_flags (Z.land (b_flags b) (Z.lnot B_DIRTY)) b));;
    kern (wakeup (ChBuf i));;
    o' ← gets idequeue;
    (match o' with Some j => idestart fuel j | None => mret () end);;
    kern (release LkIde)) s1 Hb1 Hst) as (h1 & h0 & HD & ->). set (b' := if dirty b || _ then b else _).
  set (l := bufs (i_k s)). assert (i < length l)%nat as Hi by by apply lookup_lt_Some in Hb.
  rewrite (updbuf_kern i b'); [by rewrite /= list_lookup_insert_eq|].
  rewrite (updbuf_kern i (set_flags (Z.lor (b_flags b') B_VALID) b')); [by rewrite /bufs /= list_lookup_insert_eq // length_insert|].
  set (L := <[i := finished b']> l). set (k1 := set_bufs L (i_k s)).
  match goal with |- context [(kern (wakeup _) ≫= _) ?t] =>
    assert (t = Ist (enter LkIde k1) h1 (qnext s !! i) (qnext s) (havedisk1 s)) as -> end.
  { rewrite /set_ik /set_ihw /= /k1 /L /set_bufs /bufs /= !list_insert_insert_eq //. }
  rewrite (bind_kern _ _ _ () (enter LkIde (woken (ChBuf i) k1))); [by apply wakeup_enter|]. rewrite bind_gets /set_ik.
  cbn [idequeue i_hw qnext havedisk1].
  destruct (next_request s i q D (if dirty b then <[place b := b_data b]> D else D) h1 (enter LkIde (woken (ChBuf i) k1)))
    as (h2 & Hnext & Hinv'); [done|done| |].
  { intros j Hj. rewrite /bufs /= list_lookup_insert_ne //. congruence. }
  exists h0. rewrite /serve Hb. fold b' l L k1. cbv beta. rewrite Hnext /kern. cbn [i_k set_ihw]. rewrite (release_enter LkIde (woken (ChBuf i) k1)) //.
  eexists. split; [reflexivity|]. split; [|done].
  destruct Hinv' as [I1 I2 I3 I4]. by split.
Qed.

Lemma request_start s D q i b :
  bufs (i_k s) !! i = Some b → todo b → (∀ j, j ∈ q → ∃ b, bufs (i_k s) !! j = Some b ∧ todo b) →
  linked (idequeue s) (qnext s) (q ++ [i]) → (idequeue s = Some i ↔ q = []) →
  match q with
  | [] => a_disk (ata_of x0 (i_hw s)) = D
  | j :: _ => ∃ b, bufs (i_k s) !! j = Some b ∧ started D b (ata_of x0 (i_hw s))
  end →
  NoDup (q ++ [i]) →
  ∃ h', (∀ B (f : unit → I B), ((if bool_decide (idequeue s = Some i) then idestart fuel i else mret ()) ≫= f) s = f () (set_ihw h' s)) ∧
        ide_inv x0 (set_ihw h' s) D (q ++ [i]).
Proof.
  intros Hb Hto Htd Hl Hempty Hat Hnd.
  assert (∀ j, j ∈ q ++ [i] → ∃ b, bufs (i_k s) !! j = Some b ∧ todo b) as Htd'.
  { intros j [Hj| ->%list_elem_of_singleton]%elem_of_app; [by apply Htd|by exists b]. }
  destruct q as [|p q].
  - destruct (idestart_ok i b s D Hb (proj2 Hto) Hat) as (h' & Hs & Hst). exists h'. split.
    + intros B f. rewrite bool_decide_eq_true_2; [by apply Hempty|]. by rewrite (bind_Ok _ _ _ _ _ Hs).
    + split; [done|done|done|]. by exists b.
  - exists (i_hw s). split.
    + intros B f. rewrite bool_decide_eq_false_2; [by intros ?%Hempty|]. rewrite bind_ret. by destruct s.
    + split; [done|done|done|exact Hat].
Qed.

(** A request: the buffer joins the queue, is started if the queue was empty, and
    its process sleeps on it. *)
Lemma iderw_ok s D q i b pi pr :
  ide_inv x0 s D q → calm (i_k s) → length (bufs (i_k s)) = S NBUF →
  bufs (i_k s) !! i = Some b → todo b → i ∉ q → sl_locked (slock_of (i_k s) (SlBuf i)) = true →
  b_dev b = 0 ∨ havedisk1 s = true → k_proc (i_k s) = Some pi → procs (i_k s) !! pi = Some pr →
  ∃ s', iderw fuel i s = Switch (SwSleep (ChBuf i) LkIde (eflags_IF (k_cpu (i_k s)))) s' ∧
        ide_inv x0 s' D (q ++ [i]) ∧ bufs (i_k s') = bufs (i_k s) ∧
        procs (i_k s') = alter (asleep (ChBuf i)) pi (procs (i_k s)).
Proof.
  intros [Hq Hnd Htd Hat] Hc Hlen Hb Hto Hni Hsl Hdev Hpi Hpr. pose proof (calm_cpu_ok _ Hc) as Hcpu.
  rewrite /iderw (bind_kern _ _ s _ _ (holdingsleep_Ok _ _ (calm_free _ _ Hc) Hcpu)) Hsl. cbn [negb].
  set (k1 := crit (i_k s)). rewrite (getbuf_kern i b) //. rewrite (proj2 (Z.eqb_neq _ _) (proj1 Hto)) bind_gets.
  assert (negb (b_dev b =? 0) && negb (havedisk1 (set_ik k1 s)) = false) as ->.
  { destruct Hdev as [->|Hd]; [done|]. by rewrite /= Hd andb_false_r. }
  rewrite (bind_kern _ _ (set_ik k1 s) () (enter LkIde k1)); [by apply acquire_Ok, (calm_free _ LkIde Hc)|].
  set (s1 := set_ik (enter LkIde k1) (set_ik k1 s)).
  destruct (append_ok i q s1) as (s2 & Ha & E1 & E2 & E3 & Hl & Hempty); [done|done|done| |].
  { assert (length (i :: q) ≤ length (seq 0 (S NBUF)))%nat as Hle; [|rewrite length_seq in Hle; cbn [length] in Hle; lia].
    apply nodup_length; [by constructor|]. intros j Hj. apply elem_of_seq. rewrite -Hlen. split; [lia|].
    apply elem_of_cons in Hj as [->|Hj]; [by apply lookup_lt_Some in Hb|].
    destruct (Htd j Hj) as (bj & Hbj & _). by apply lookup_lt_Some in Hbj. }
  rewrite (bind_Ok _ _ _ _ _ Ha) bind_gets.
  assert (∃ h', (∀ B (f : unit → I B), ((if bool_decide (idequeue s2 = Some i) then idestart fuel i else mret ()) ≫= f) s2 = f () (set_ihw h' s2)) ∧
                ide_inv x0 (set_ihw h' s2) D (q ++ [i])) as (h' & Hst & Hinv).
  { apply request_start with b; [by rewrite E1|done| |done|done|by rewrite E1 E2|].
    2: { apply NoDup_app. split_and!; [done|by intros j Hj ->%list_elem_of_singleton|apply NoDup_singleton]. }
    intros j Hj. destruct (Htd j Hj) as (bj & Hbj & ?). exists bj. by rewrite E1. }
  rewrite Hst /iderw_wait (getbuf_kern i b); [by rewrite /= E1|]. rewrite (proj2 (Z.eqb_neq _ _) (proj1 Hto)).
  rewrite /kern. cbn [i_k set_ihw]. rewrite E1. cbn [i_k set_ik s1].
  rewrite (sleep_Switch (ChBuf i) LkIde k1 pi pr) //; [by apply (calm_free _ LkIde Hc)|by apply (calm_free _ LkPtable Hc)|apply Hc|].
  eexists. split; [reflexivity|]. destruct Hinv as [I1 I2 I3 I4]. rewrite /= E1 in I3, I4.
  split_and!; [by split|done|done].
Qed.

(** *** What serving requests does to buffers and processes *)

(** Buffer [i] is valid and clean. *)
Definition complete (i : nat) (k : kstate) : Prop :=
  ∃ b, bufs k !! i = Some b ∧ Z.land (b_flags b) (Z.lor B_VALID B_DIRTY) = B_VALID.

Lemma finished_flags b : Z.land (b_flags (finished b)) (Z.lor B_VALID B_DIRTY) = B_VALID.
Proof.
  rewrite /finished /=. apply Z.bits_inj. intros n. change (Z.lor B_VALID B_DIRTY) with 6. rewrite !Z.land_spec Z.lor_spec.
  destruct (decide (n < 0)) as [Hn|Hn]; [by rewrite !(Z.testbit_neg_r _ n)|]. rewrite Z.lnot_spec; [lia|].
  rewrite /B_VALID /B_DIRTY. destruct (decide (n = 0)) as [->|]; [by rewrite andb_false_r|].
  destruct (decide (n = 1)) as [->|]; [by rewrite orb_true_r|]. destruct (decide (n = 2)) as [->|]; [by rewrite andb_false_r|].
  assert (∀ v, 0 ≤ v < 8 → Z.testbit v n = false) as Hz.
  { intros v Hv. apply Z.bits_above_log2; [lia|]. assert (Z.log2 v < 3); [|lia]. destruct (decide (v = 0)) as [->|]; [done|].
    apply Z.log2_lt_pow2; lia. }
  rewrite !(Hz 2) ?(Hz 4) ?(Hz 6) ?andb_false_r //.
Qed.

Lemma serve_bufs D k i e j :
  is_Some (bufs k !! i) → (j = i → complete i (serve (D, k) (i, e)).2) ∧ (j ≠ i → bufs (serve (D, k) (i, e)).2 !! j = bufs k !! j).
Proof.
  intros [b Hb]. rewrite /serve Hb /=. split.
  - intros _. eexists. split; [|apply finished_flags]. rewrite /bufs /=. apply list_lookup_insert_eq. by apply lookup_lt_Some in Hb.
  - intros Hne. rewrite /bufs /= list_lookup_insert_ne //. congruence.
Qed.

Lemma serve_dom D k r j : is_Some (bufs k !! j) → is_Some (bufs (serve (D, k) r).2 !! j).
Proof.
  destruct r as [i e]. rewrite /serve. destruct (bufs k !! i) as [b|] eqn:Hb; [|done]. rewrite /bufs /= list_lookup_insert.
  by case_decide.
Qed.

Lemma serve_pair x r : serve x r = ((serve x r).1, (serve x r).2).
Proof. by destruct (serve x r). Qed.

Lemma served_complete rs : ∀ D k i, (i ∈ rs.*1 ∨ complete i k) → (∀ j, j ∈ rs.*1 → is_Some (bufs k !! j)) → complete i (foldl serve (D, k) rs).2.
Proof.
  induction rs as [|[r e] rs IH]; intros D k i Hi Hdom; cbn [foldl].
  { destruct Hi as [?%elem_of_nil|?]; done. }
  rewrite serve_pair. apply IH.
  - destruct (decide (i = r)) as [->|Hne]; [right; by apply (serve_bufs D k r e r (Hdom r ltac:(set_solver)))|].
    destruct Hi as [Hi|(b & Hb & Hf)]; [left; set_solver|]. right. exists b. split; [|done].
    by rewrite (proj2 (serve_bufs D k r e i (Hdom r ltac:(set_solver)))).
  - intros j Hj. apply serve_dom, Hdom. set_solver.
Qed.

Lemma serve_procs D k i e : is_Some (bufs k !! i) → procs (serve (D, k) (i, e)).2 = wake (ChBuf i) <$> procs k.
Proof. intros [b Hb]. by rewrite /serve Hb. Qed.

Lemma wake_other ch p : ¬ (p_state p = SLEEPING ∧ p_chan p = Some ch) → wake ch p = p.
Proof. intros Hn. rewrite /wake. by case_bool_decide. Qed.

Lemma served_woken i rs : ∀ D k j p,
  (∀ r, r ∈ rs.*1 → is_Some (bufs k !! r)) → procs k !! j = Some p →
  (i ∈ rs.*1 ∧ p_state p = SLEEPING ∧ p_chan p = Some (ChBuf i) → procs (foldl serve (D, k) rs).2 !! j = Some (set_state RUNNABLE p)) ∧
  (p_state p = RUNNABLE → procs (foldl serve (D, k) rs).2 !! j = Some p).
Proof.
  induction rs as [|[r e] rs IH]; intros D k j p Hdom Hp; cbn [foldl]; [split; [by intros (?%elem_of_nil & _)|done]|].
  rewrite serve_pair. set (k1 := (serve (D, k) (r, e)).2). set (D1 := (serve (D, k) (r, e)).1).
  assert (∀ x, x ∈ rs.*1 → is_Some (bufs k1 !! x)) as Hdom1 by (intros x Hx; apply serve_dom, Hdom; set_solver).
  assert (procs k1 !! j = Some (wake (ChBuf r) p)) as Hp1 by (rewrite /k1 serve_procs; [apply Hdom; set_solver|]; by rewrite list_lookup_fmap Hp).
  destruct (IH D1 k1 j _ Hdom1 Hp1) as [IH1 IH2]. split.
  - intros (Hi & Hs & Hc). destruct (decide (i = r)) as [->|Hne].
    + assert (wake (ChBuf r) p = set_state RUNNABLE p) as Ew by (rewrite /wake; by rewrite bool_decide_eq_true_2).
      rewrite Ew in IH2. by apply IH2.
    + rewrite wake_other in IH1; [by intros [_ E]; rewrite Hc in E; congruence|]. apply IH1. set_solver.
  - intros Hr. rewrite wake_other in IH2; [by intros [E _]; rewrite Hr in E|]. by apply IH2.
Qed.

(** One interrupt after the other. *)
Fixpoint interrupts (n : nat) : I unit :=
  match n with
  | O => mret ()
  | S n' => ideintr fuel;; interrupts n'
  end.

Lemma interrupts_ok s D q :
  ide_inv x0 s D q → free_locks (i_k s) →
  ∃ s' hs, interrupts (length q) s = Ok () s' ∧ length hs = length q ∧
    ide_inv x0 s' (foldl serve (D, i_k s) (zip q (failing <$> hs))).1 [] ∧ i_k s' = (foldl serve (D, i_k s) (zip q (failing <$> hs))).2.
Proof.
  revert s D. induction q as [|i q IH]; intros s D Hinv Hfree; [by exists s, []|].
  destruct (ideintr_ok s D i q Hinv Hfree) as (h & s1 & H1 & Hinv1 & Ek). cbn [length interrupts].
  destruct (IH s1 _ Hinv1) as (s2 & hs & H2 & Hl & Hinv2 & Ek2).
  { rewrite Ek /serve. by destruct (bufs (i_k s) !! i). }
  exists s2, (h :: hs). rewrite (bind_Ok _ _ _ _ _ H1). cbn [fmap list_fmap zip zip_with foldl length].
  assert (((serve (D, i_k s) (i, failing h)).1, i_k s1) = serve (D, i_k s) (i, failing h)) as E by (rewrite Ek; by destruct (serve _ _)).
  rewrite E in Hinv2, Ek2. split_and!; [done|by rewrite Hl|done|done].
Qed.


End controller.

(** When the controller reports an error the data of a read is not taken, but the
    buffer is marked valid all the same. *)
Lemma ideintr_error `{Devices} (x0 : ata) (patience fuel : nat) s D i b :
  (∀ h vs, (patience ≤ length vs)%nat →
     Z.land (u8 (port_in (h ++ (In 0x1f7 <$> vs)) 0x1f7)) (Z.lor IDE_BSY IDE_DRDY) = IDE_DRDY) →
  (∀ h, Z.land (u8 (port_in h 0x1f7)) (Z.lor IDE_DF IDE_ERR) ≠ 0) → (patience < fuel)%nat →
  ide_inv x0 s D [i] → bufs (i_k s) !! i = Some b → b_flags b = 0 → free_locks (i_k s) →
  ∃ s', ideintr fuel s = Ok () s' ∧ bufs (i_k s') !! i = Some (set_flags B_VALID b).
Proof.
  intros Hready Herr Hfuel [[Eq Hq] _ _ _] Hb Hfl (HL1 & HL2 & Hcpu). simpl in Hq.
  destruct (idewait_ok x0 patience fuel Hready Hfuel true (i_hw s)) as (h1 & Hw & _).
  rewrite /failing (proj2 (Z.eqb_neq _ _) (Herr (hw_hist h1))) in Hw. cbn [negb andb] in Hw.
  rewrite /ideintr (bind_kern _ _ s () (enter LkIde (i_k s))); [by apply acquire_Ok|].
  rewrite bind_gets. cbn [idequeue set_ik]. rewrite Eq bind_modify. cbn [qnext]. rewrite Hq.
  rewrite (getbuf_kern i b) // Hfl. cbn [Z.land Z.eqb]. rewrite bind_assoc (bind_dev _ _ _ (-1) (note (In 0x1f7 (status h1)) h1)) //.
  cbn [Z.leb Z.compare]. rewrite bind_ret. set (h2 := note _ h1).
  assert (i < length (bufs (i_k s)))%nat as Hi by by apply lookup_lt_Some in Hb.
  rewrite (updbuf_kern i b) //. rewrite (updbuf_kern i (set_flags (Z.lor (b_flags b) B_VALID) b)); [by rewrite /bufs /= list_lookup_insert_eq|].
  set (L := <[i := set_flags B_VALID b]> (bufs (i_k s))). set (k1 := set_bufs L (i_k s)).
  match goal with |- context [(kern (wakeup _) ≫= _) ?t] => assert (t = Ist (enter LkIde k1) h2 None (qnext s) (havedisk1 s)) as -> end.
  { rewrite /set_ik /set_ihw /= /k1 /L /set_bufs /bufs /= Hfl list_insert_insert_eq //. }
  rewrite (bind_kern _ _ _ () (enter LkIde (woken (ChBuf i) k1))); [by apply wakeup_enter|]. rewrite bind_gets bind_ret /kern.
  cbn [i_k set_ik]. rewrite (release_enter LkIde (woken (ChBuf i) k1)) //. eexists. split; [reflexivity|].
  by rewrite /bufs /= list_lookup_insert_eq.
Qed.

(** ** A read and a write in the queue

    A controller that is always ready, with one sector written before. *)

Definition demo_ata : ata := Ata {[(1, 5) := replicate 512 7]} 0 0 0 0 0 Idle.

#[local] Instance demo_ide : Devices := {
  port_in _ _ := 0x40;
  port_ins h _ n :=
    let x := foldl ata_access demo_ata h in
    match a_phase x with Reading d s => content (a_disk x) d s | _ => replicate (4 * n) 0 end;
  reg_load _ _ := 0
}.

Definition demo_bufs : list buf :=
  <[3%nat := Buf 0 1 5 1 0 0 []]> (<[4%nat := Buf (Z.lor B_VALID B_DIRTY) 1 6 1 0 0 (replicate 512 9)]> (bufs boot_state)).

(** A process sleeps on each of them. *)
Definition sleeper (i : nat) : proc := asleep (ChBuf i) zero_proc.

(** Buffer 3 is being read, buffer 4 is to be written next. *)
Definition demo_queue : ist :=
  Ist (set_procs [sleeper 3; sleeper 4] (set_bufs demo_bufs boot_state))
      (Hwst [Out 0x1f2 1; Out 0x1f3 5; Out 0x1f4 0; Out 0x1f5 0; Out 0x1f6 0xf0; Out 0x1f7 0x20] ∅ irqmask_init 0 false 1 [0] 0)
      (Some 3%nat) {[3%nat := 4%nat]} true.

Lemma demo_queue_inv : ide_inv demo_ata demo_queue {[(1, 5) := replicate 512 7]} [3%nat; 4%nat].
Proof.
  split.
  - by vm_compute.
  - apply (bool_decide_unpack _). by vm_compute.
  - intros i Hi. apply elem_of_cons in Hi as [->|Hi].
    + eexists. split; [reflexivity|]. split; [done|]. by vm_compute.
    + apply list_elem_of_singleton in Hi as ->. eexists. split; [reflexivity|]. split; [done|]. by vm_compute.
  - eexists. split; [reflexivity|]. by vm_compute.
Qed.

