(* ===== verification/Log.v ===== *)
(** * The redo log: log.c

    begin_op(), end_op(), log_write(), commit() and recovery, over the buffer
    cache. The model follows the source statement by statement; crash safety is
    proved in LogSpec.v. *)

From S2P Require Import Prelude Param Bytes State Spinlock Sched Sleeplock Bio.

(** ** Fields of the log *)

Definition set_lh (v : logheader) (l : log) : log :=
  Log (log_start l) (log_size l) (log_outstanding l) (log_committing l) (log_dev l) v.
Definition set_outstanding (v : Z) (l : log) : log :=
  Log (log_start l) (log_size l) v (log_committing l) (log_dev l) (log_lh l).
Definition set_committing (v : bool) (l : log) : log :=
  Log (log_start l) (log_size l) (log_outstanding l) v (log_dev l) (log_lh l).

Definition updlog (f : log → log) : K unit := modify (λ s, set_log (f (k_log s)) s).

(** [log.lh.block[i]]; an index past the array is out of bounds. *)
Definition lh_block_get (i : nat) : K Z :=
  l ← gets k_log;
  match lh_block (log_lh l) !! i with Some b => mret b | None => fault 0 end.

Definition lh_block_set (i : nat) (b : Z) : K unit :=
  l ← gets k_log;
  if bool_decide (i < length (lh_block (log_lh l)))%nat then
    updlog (λ l, set_lh (Logheader (lh_n (log_lh l)) (<[i := b]> (lh_block (log_lh l)))) l)
  else fault 0.

Definition lh_n_set (n : Z) : K unit :=
  updlog (λ l, set_lh (Logheader n (lh_block (log_lh l))) l).

(** The indices [0 <= tail < log.lh.n]. *)
Definition tails : K (list nat) :=
  l ← gets k_log;
  mret (seq 0 (Z.to_nat (lh_n (log_lh l)))).

(** ** The header block

    struct logheader in the bytes of a block: [n], then [block]. *)

Definition hd_n (d : list Z) : Z := s32 (get32 0 d).
Definition hd_block (i : nat) (d : list Z) : Z := s32 (get32 (4 + 4 * i) d).
Definition hd_set_n (v : Z) (d : list Z) : list Z := set32 0 v d.
Definition hd_set_block (i : nat) (v : Z) (d : list Z) : list Z := set32 (4 + 4 * i) v d.

(** [sizeof(struct logheader)] *)
Definition sizeof_logheader : Z := 4 + 4 * LOGSIZE.

(** struct superblock in the bytes of block 1. *)
Definition sb_of (d : list Z) : superblock :=
  Superblock (get32 0 d) (get32 4 d) (get32 8 d) (get32 12 d) (get32 16 d) (get32 20 d) (get32 24 d).

Section log.
Context `{IdeDriver}.

(** [memmove(dst->data, src->data, BSIZE)] *)
Definition copy_data (dst src : nat) : K unit :=
  x ← getbuf src;
  updbuf dst (set_data (b_data x)).

(** readsb() of fs.c. *)
Definition readsb (dev : Z) : K superblock :=
  bp ← bread (u32 dev) 1;
  x ← getbuf bp;
  brelse bp;;
  mret (sb_of (b_data x)).

(** ** Recovery and commit *)

Definition install_one (tail : nat) : K unit :=
  l ← gets k_log;
  lbuf ← bread (u32 (log_dev l)) (u32 (log_start l + Z.of_nat tail + 1));
  b ← lh_block_get tail;
  dbuf ← bread (u32 (log_dev l)) (u32 b);
  copy_data dbuf lbuf;;
  bwrite dbuf;;
  brelse lbuf;;
  brelse dbuf.

Definition install_trans : K unit :=
  ts ← tails;
  for_each ts install_one.

Definition read_head : K unit :=
  l ← gets k_log;
  buf ← bread (u32 (log_dev l)) (u32 (log_start l));
  x ← getbuf buf;
  lh_n_set (hd_n (b_data x));;
  ts ← tails;
  for_each ts (λ i, lh_block_set i (hd_block i (b_data x)));;
  brelse buf.

Definition write_head_block (buf i : nat) : K unit :=
  b ← lh_block_get i;
  updbuf buf (λ x, set_data (hd_set_block i b (b_data x)) x).

Definition write_head : K unit :=
  l ← gets k_log;
  buf ← bread (u32 (log_dev l)) (u32 (log_start l));
  updbuf buf (λ x, set_data (hd_set_n (lh_n (log_lh l)) (b_data x)) x);;
  ts ← tails;
  for_each ts (write_head_block buf);;
  bwrite buf;;
  brelse buf.

Definition recover_from_log : K unit :=
  read_head;;
  install_trans;;
  lh_n_set 0;;
  write_head.

Definition initlog (dev : Z) : K unit :=
  if sizeof_logheader >=? BSIZE then panic "initlog: too big logheader" else
  initlock LkLog;;
  sb ← readsb dev;
  updlog (λ l, Log (s32 (sb_logstart sb)) (s32 (sb_nlog sb)) (log_outstanding l)
                   (log_committing l) dev (log_lh l));;
  recover_from_log.

Definition write_log_one (tail : nat) : K unit :=
  l ← gets k_log;
  to ← bread (u32 (log_dev l)) (u32 (log_start l + Z.of_nat tail + 1));
  b ← lh_block_get tail;
  from ← bread (u32 (log_dev l)) (u32 b);
  copy_data to from;;
  bwrite to;;
  brelse from;;
  brelse to.

Definition write_log : K unit :=
  ts ← tails;
  for_each ts write_log_one.

Definition commit : K unit :=
  l ← gets k_log;
  when (lh_n (log_lh l) >? 0)
    (write_log;;
     write_head;;
     install_trans;;
     lh_n_set 0;;
     write_head).

(** ** Operations *)

(** The body of the loop of begin_op(), re-entered when the process wakes up. *)
Definition begin_op_loop : K unit :=
  l ← gets k_log;
  if log_committing l then sleep ChLog LkLog
  else if lh_n (log_lh l) + (log_outstanding l + 1) * MAXOPBLOCKS >? LOGSIZE then sleep ChLog LkLog
  else
    updlog (set_outstanding (log_outstanding l + 1));;
    release LkLog.

Definition begin_op : K unit :=
  acquire LkLog;;
  begin_op_loop.

Definition begin_op_resume (ie : bool) : K unit :=
  sleep_resume LkLog ie;;
  begin_op_loop.

Definition end_op : K unit :=
  acquire LkLog;;
  l ← gets k_log;
  updlog (set_outstanding (log_outstanding l - 1));;
  if log_committing l then panic "log.committing" else
  do_commit ←
    (if log_outstanding l - 1 =? 0 then updlog (set_committing true);; mret true
     else wakeup ChLog;; mret false);
  release LkLog;;
  when do_commit
    (commit;;
     acquire LkLog;;
     updlog (set_committing false);;
     wakeup ChLog;;
     release LkLog).

(** The search loop of log_write(): the index where it stops. *)
Definition log_slot (b : Z) (lh : logheader) : nat :=
  default (Z.to_nat (lh_n lh)) (first (λ c, u32 c =? b) (take (Z.to_nat (lh_n lh)) (lh_block lh))).

Definition log_write (b : nat) : K unit :=
  l ← gets k_log;
  if (lh_n (log_lh l) >=? LOGSIZE) || (lh_n (log_lh l) >=? log_size l - 1)
  then panic "too big a transaction"
  else if log_outstanding l <? 1 then panic "log_write outside of trans"
  else
    acquire LkLog;;
    x ← getbuf b;
    l ← gets k_log;
    let i := log_slot (b_blockno x) (log_lh l) in
    lh_block_set i (s32 (b_blockno x));;
    when (Z.of_nat i =? lh_n (log_lh l)) (lh_n_set (lh_n (log_lh l) + 1));;
    updbuf b (λ x, set_flags (Z.lor (b_flags x) B_DIRTY) x);;
    release LkLog.

End log.
