(* ===== verification/LogSpec.v ===== *)
(** * Crash safety of the log

    What commit() and recover_from_log() do to the disk, write by write, and
    what a crash between any two writes leaves after recovery. The disk writes
    one block atomically; a crash loses memory and every later write. *)

From S2P Require Import Prelude Param Bytes State Spinlock Sched Sleeplock Bio BioSpec Log.

(** ** Composing operations of the cache *)

Lemma bio_only_fields s s' :
  bio_only s s' →
  k_proc s' = k_proc s ∧ k_locks s' = k_locks s ∧ k_mem s' = k_mem s ∧ k_log s' = k_log s ∧
  k_fs s' = k_fs s ∧ k_files s' = k_files s ∧ k_ticks s' = k_ticks s ∧ k_hw s' = k_hw s.
Proof. intros [Hs _]. by pose proof (settled_fields _ _ Hs) as (? & ? & _ & ? & _ & ? & ? & ? & ? & ?). Qed.

Lemma bio_only_log s s' : bio_only s s' → k_log s' = k_log s.
Proof. by intros (_ & _ & _ & ? & _)%bio_only_fields. Qed.

Lemma bio_post_trans J J' s1 s2 s3 V2 D2 B2 T2 V3 D3 B3 T3 :
  bio_post J s1 s2 V2 D2 B2 T2 → bio_post J' s2 s3 V3 D3 B3 T3 → J ⊆ J' →
  bio_post J s1 s3 V3 D3 B3 T3.
Proof.
  intros P Q HJ. split; [|apply Q..| |].
  - eapply bio_only_trans; [apply P|apply Q].
  - by rewrite (bp_size _ _ _ _ _ _ _ Q) (bp_size _ _ _ _ _ _ _ P).
  - intros i Hi. rewrite (bp_held _ _ _ _ _ _ _ Q); [by apply HJ|]. by apply P.
Qed.

Lemma bio_post_ext J s s' V D B T V' D' B' T' :
  bio_post J s s' V D B T → (∀ b, V b = V' b) → (∀ b, D b ↔ D' b) → B = B' → T = T' →
  bio_post J s s' V' D' B' T'.
Proof.
  intros P HV HD <- <-. split; [apply P|..|apply P|apply P|apply P|apply P].
  - intros b. rewrite -HV. apply P.
  - intros b. rewrite -HD. apply P.
Qed.

Lemma bio_post_sub J J' s s' V D B T : bio_post J s s' V D B T → J' ⊆ J → bio_post J' s s' V D B T.
Proof. intros P HJ. split; try apply P. intros i Hi. apply P, HJ, Hi. Qed.

Lemma on_disk_post J s s' V D B T b : bio_post J s s' V D B T → on_disk s b → on_disk s' b.
Proof. intros P. by rewrite /on_disk (bp_size _ _ _ _ _ _ _ P). Qed.

(** [b] is not in a held buffer. *)
Definition unheld (H : gset nat) (s : kstate) (b : Z) : Prop :=
  ∀ i x, i ∈ H → bufs s !! i = Some x → ¬ caches b x.

Lemma unheld_post J s s' V D B T b : bio_post J s s' V D B T → unheld J s b → unheld J s' b.
Proof.
  intros P Hu i x Hi Hx Hc. pose proof (bp_held _ _ _ _ _ _ _ P i Hi) as He.
  destruct (bcore_lookup _ _ _ _ He Hx) as (y & Hy & E). apply (Hu i y Hi Hy). by apply (bcore_caches _ _ _ E).
Qed.

(** What is neither held nor pinned is on the disk. *)
Lemma clean_blk H s b : bio_inv H s → unheld H s b → ¬ dirty s b → blk s b = dblock s b.
Proof.
  intros HI Hu Hd. destruct (list_find (caches b) (take NBUF (bufs s))) as [[i x]|] eqn:Hf.
  2:{ by rewrite /blk Hf. }
  apply list_find_Some in Hf as ([Hx Hi]%lookup_take_Some & Hc & _).
  rewrite (blk_cached H s i x b) //. destruct (bi_buf _ _ HI i x Hi Hx) as [_ _ _ O4 O5].
  destruct Hc as [Hdev <-]. apply O5.
  - intros HiH. by apply (Hu i x HiH Hx).
  - destruct O4 as [(_ & ? & _)|(_ & _ & [?|E])]; [congruence|done|]. destruct Hd. by exists i, x.
Qed.

Lemma blk_len H s b : bio_inv H s → length (blk s b) = 512%nat.
Proof.
  intros HI. destruct (list_find (caches b) (take NBUF (bufs s))) as [[i x]|] eqn:Hf; rewrite /blk Hf.
  - apply list_find_Some in Hf as ([Hx Hi]%lookup_take_Some & _ & _). by apply (bi_buf _ _ HI i x).
  - apply (bi_disk _ _ HI).
Qed.

Lemma room_dirty s b : dirty s b → room s b.
Proof. intros (i & x & Hi & Hx & Hc & _). exists i, x. eauto. Qed.

(** Counting: a buffer is free when the held and the pinned ones do not fill the
    cache. *)
Lemma room_count H s L b :
  bio_inv H s → (∀ c, dirty s c → c ∈ L) → (size H + length L < NBUF)%nat → room s b.
Proof.
  intros HI HL Hlt. destruct (bi_dll _ _ HI) as [l Hl].
  destruct (lookup_buf bfree (bufs s) (seq 0 NBUF)) as [i|] eqn:Hf.
  { apply lookup_buf_Some in Hf as (l1 & l2 & x & Hs & Hx & HP & _).
    exists i, x. assert (i ∈ seq 0 NBUF) by (rewrite Hs; set_solver).
    rewrite elem_of_seq in H0. split; [lia|]. eauto. }
  exfalso. set (bno := λ i, default 0 (b_blockno <$> bufs s !! i)).
  set (U := filter (λ i, i ∉ H) (seq 0 NBUF)).
  assert (∀ i, i ∈ U → ∃ x, bufs s !! i = Some x ∧ (i < NBUF)%nat ∧ caches (bno i) x ∧
     b_flags x = Z.lor B_VALID B_DIRTY) as HU.
  { intros i [HiH Hi%elem_of_seq]%list_elem_of_filter.
    destruct (dll_lookup _ _ i Hl) as [x Hx]; [lia|].
    pose proof (lookup_buf_None _ _ _ Hf i x) as Hnf. rewrite elem_of_seq in Hnf.
    destruct (bi_buf _ _ HI i x) as [_ _ O3 O4 _]; [lia|done|].
    rewrite bool_decide_eq_false_2 // in O3. rewrite /bfree O3 /= in Hnf. specialize (Hnf ltac:(lia) Hx).
    exists x. split; [done|]. split; [lia|]. rewrite /caches /bno Hx /=.
    destruct O4 as [(E & _)|(? & _ & [E|E])]; [by rewrite E in Hnf..|done]. }
  assert (NoDup (bno <$> U)) as Hnd.
  { apply NoDup_fmap_2_strong; [|apply NoDup_filter, NoDup_seq].
    intros i j (x & Hx & Hi & Hcx & _)%HU (y & Hy & Hj & Hcy & _)%HU E.
    apply (bi_uniq _ _ HI i j x y (bno i)); [done..|by rewrite E]. }
  assert (length (bno <$> U) ≤ length L)%nat as H1.
  { apply submseteq_length, NoDup_submseteq; [done|]. intros c (i & -> & Hi)%list_elem_of_fmap.
    destruct (HU i Hi) as (x & Hx & Hlt' & Hc & Hd). apply HL. by exists i, x. }
  rewrite length_fmap in H1.
  assert (NBUF ≤ size H + length U)%nat; [|lia].
  pose proof (size_list_to_set (C := gset nat) (seq 0 NBUF) (NoDup_seq 0 NBUF)) as E1.
  rewrite length_seq in E1.
  pose proof (size_list_to_set (C := gset nat) U (NoDup_filter _ _ (NoDup_seq 0 NBUF))) as E2.
  pose proof (size_union_alt H (list_to_set U)) as E3.
  pose proof (subseteq_size (list_to_set U ∖ H : gset nat) (list_to_set U)) as E4.
  pose proof (subseteq_size (list_to_set (seq 0 NBUF) : gset nat) (H ∪ list_to_set U)) as E5.
  rewrite E3 E1 in E5. rewrite E2 in E4.
  enough (list_to_set (seq 0 NBUF) ⊆ H ∪ list_to_set U) by (specialize (E5 ltac:(done)); specialize (E4 ltac:(set_solver)); lia).
  intros i Hi%elem_of_list_to_set. destruct (decide (i ∈ H)); [by apply elem_of_union_l|].
  apply elem_of_union_r, elem_of_list_to_set, list_elem_of_filter. done.
Qed.

(** ** One block written *)

Section ops.
Context `{IdeDriver}.

(** The effect of writing [d] to block [c], the buffers of [H] untouched. *)
Definition wrote (H : gset nat) (s s' : kstate) (c : Z) (d : list Z) : Prop :=
  bio_inv H s' ∧
  bio_post H s s' (<[c := d]> (blk s)) (λ b, dirty s b ∧ b ≠ c)
    (<[c := d]> (dk_blocks (k_bio s))) (dk_trace (k_bio s) ++ [(c, d)]).

(** [bwrite(buf); brelse(buf)] *)
Lemma write_release_Ok H0 s i x :
  bio_inv H0 s → i ∈ H0 → bufs s !! i = Some x →
  ∃ s1 s', bwrite i s = Ok tt s1 ∧ brelse i s1 = Ok tt s' ∧ bio_inv (H0 ∖ {[i]}) s' ∧
    bio_post (H0 ∖ {[i]}) s s' (blk s) (λ c, dirty s c ∧ c ≠ b_blockno x)
      (<[b_blockno x := b_data x]> (dk_blocks (k_bio s)))
      (dk_trace (k_bio s) ++ [(b_blockno x, b_data x)]).
Proof.
  intros HI Hi Hx. destruct (bwrite_Ok H0 s i x) as (s1 & Hw & Hx1 & HI1 & P1); [done..|].
  destruct (brelse_Ok H0 s1 i (set_flags B_VALID x)) as (s' & Hr & HI' & P2); [done..| |].
  { intros _. by rewrite /dblock (bp_blocks _ _ _ _ _ _ _ P1) /= lookup_insert_eq. }
  exists s1, s'. split_and!; [done..|].
  apply (bio_post_ext _ _ _ _ _ _ _ _ _ _ _ (bio_post_trans _ _ _ _ _ _ _ _ _ _ _ _ _ P1 P2 ltac:(done))).
  - intros b. apply P1.
  - intros b. apply P1.
  - apply P1.
  - apply P1.
Qed.

(** [memmove(dst->data, src->data); bwrite(dst); brelse(src); brelse(dst)] *)
Lemma copy_tail_Ok H0 s i j x y :
  bio_inv H0 s → i ∈ H0 → j ∈ H0 → i ≠ j → bufs s !! i = Some x → bufs s !! j = Some y →
  (b_flags y = B_VALID → b_data y = dblock s (b_blockno y)) →
  ∃ s', (copy_data i j;; bwrite i;; brelse j;; brelse i) s = Ok tt s' ∧
    bio_inv (H0 ∖ {[i; j]}) s' ∧
    bio_post (H0 ∖ {[i; j]}) s s' (<[b_blockno x := b_data y]> (blk s)) (λ b, dirty s b ∧ b ≠ b_blockno x)
      (<[b_blockno x := b_data y]> (dk_blocks (k_bio s)))
      (dk_trace (k_bio s) ++ [(b_blockno x, b_data y)]).
Proof.
  intros HI Hi Hj Hij Hx Hy Hcoh.
  pose proof (held_lt _ _ _ HI Hi) as Hilt. pose proof (held_lt _ _ _ HI Hj) as Hjlt.
  pose proof (held_caches _ _ _ _ HI Hi Hx) as Hcx. pose proof (held_caches _ _ _ _ HI Hj Hy) as Hcy.
  assert (b_blockno x ≠ b_blockno y) as Hne.
  { intros E. apply Hij. apply (bi_uniq _ _ HI i j x y (b_blockno x)); [done..|by rewrite E]. }
  set (s1 := set_bufs (alter (set_data (b_data y)) i (bufs s)) s).
  destruct (held_upd H0 s i x HI Hi Hx (set_data (b_data y))) as (Hx1 & HI1 & P1); [done..| | |].
  { apply (ok_len _ _ _ _ (bi_buf _ _ HI j y Hjlt Hy)). }
  { destruct (ok_flags _ _ _ _ (bi_buf _ _ HI i x Hilt Hx)) as [(_ & _ & [])|(_ & _ & ?)]; done. }
  rewrite -/s1 in Hx1 HI1 P1. simpl in P1.
  destruct (bwrite_Ok H0 s1 i (set_data (b_data y) x)) as (s2 & Hw & Hx2 & HI2 & P2); [done..|]. simpl in *.
  assert (j ∈ H0 ∖ {[i]}) as Hj' by set_solver.
  assert (∃ y2, bufs s2 !! j = Some y2 ∧ bcore y2 = bcore y) as (y2 & Hy2 & Ey2).
  { pose proof (bp_held _ _ _ _ _ _ _ P2 j Hj') as E2. rewrite (bp_held _ _ _ _ _ _ _ P1 j Hj') Hy /= in E2.
    destruct (bufs s2 !! j) as [y2|]; [|done]. exists y2. split; [done|]. by apply (inj Some) in E2. }
  destruct (bcore_fields _ _ Ey2) as (F1 & F2 & F3 & F4 & F5).
  destruct (brelse_Ok H0 s2 j y2) as (s3 & Hr3 & HI3 & P3); [done..| |].
  { rewrite F1 F3 F5. intros Hf. rewrite (Hcoh Hf).
    rewrite /dblock (bp_blocks _ _ _ _ _ _ _ P2) lookup_insert_ne //. }
  assert (i ∈ H0 ∖ {[j]}) as Hi' by set_solver.
  assert (∃ x3, bufs s3 !! i = Some x3 ∧ bcore x3 = bcore (set_flags B_VALID (set_data (b_data y) x)))
    as (x3 & Hx3 & Ex3).
  { pose proof (bp_held _ _ _ _ _ _ _ P3 i Hi') as E3. rewrite Hx2 /= in E3.
    destruct (bufs s3 !! i) as [x3|]; [|done]. exists x3. split; [done|]. by apply (inj Some) in E3. }
  destruct (bcore_fields _ _ Ex3) as (G1 & G2 & G3 & G4 & G5). simpl in *.
  destruct (brelse_Ok (H0 ∖ {[j]}) s3 i x3) as (s4 & Hr4 & HI4 & P4); [done..| |].
  { intros _. rewrite G3 G5 /dblock (bp_blocks _ _ _ _ _ _ _ P3) (bp_blocks _ _ _ _ _ _ _ P2) lookup_insert_eq //. }
  exists s4. split; [|split].
  - rewrite /copy_data bind_assoc (bind_Ok _ _ _ _ _ (getbuf_Ok j y s Hy)) bind_modify.
    rewrite (bind_Ok _ _ _ _ _ Hw) (bind_Ok _ _ _ _ _ Hr3). done.
  - by replace (H0 ∖ {[i; j]}) with (H0 ∖ {[j]} ∖ {[i]}) by set_solver.
  - assert (∀ b, blk s4 b = <[b_blockno x:=b_data y]> (blk s) b) as HV.
    { intros b. rewrite (bp_blk _ _ _ _ _ _ _ P4) (bp_blk _ _ _ _ _ _ _ P3) (bp_blk _ _ _ _ _ _ _ P2). apply P1. }
    assert (∀ b, dirty s4 b ↔ dirty s b ∧ b ≠ b_blockno x) as HD.
    { intros b. rewrite (bp_dirty _ _ _ _ _ _ _ P4) (bp_dirty _ _ _ _ _ _ _ P3) (bp_dirty _ _ _ _ _ _ _ P2).
      rewrite (bp_dirty _ _ _ _ _ _ _ P1). clear. tauto. }
    split.
    + eapply bio_only_trans; [apply P1|]. eapply bio_only_trans; [apply P2|].
      eapply bio_only_trans; [apply P3|apply P4].
    + done.
    + done.
    + rewrite (bp_blocks _ _ _ _ _ _ _ P4) (bp_blocks _ _ _ _ _ _ _ P3) (bp_blocks _ _ _ _ _ _ _ P2) //.
    + rewrite (bp_trace _ _ _ _ _ _ _ P4) (bp_trace _ _ _ _ _ _ _ P3) (bp_trace _ _ _ _ _ _ _ P2) //.
    + rewrite (bp_size _ _ _ _ _ _ _ P4) (bp_size _ _ _ _ _ _ _ P3) (bp_size _ _ _ _ _ _ _ P2) //.
    + intros k Hk. rewrite (bp_held _ _ _ _ _ _ _ P4 k); [set_solver|]. rewrite (bp_held _ _ _ _ _ _ _ P3 k); [set_solver|].
      rewrite (bp_held _ _ _ _ _ _ _ P2 k); [set_solver|]. apply P1. set_solver.
Qed.

(** A second buffer can be found while one more than [H] is held. *)
Definition room2 (H : gset nat) (s : kstate) (c : Z) : Prop :=
  dirty s c ∨ ∃ L, (∀ b, dirty s b → b ∈ L) ∧ (S (size H) + length L < NBUF)%nat.

Lemma bread2_Ok H0 s a c :
  bio_inv H0 s → on_disk s a → on_disk s c → a ≠ c → unheld H0 s a → unheld H0 s c →
  room s a → room2 H0 s c →
  ∃ i j x y s1 s2, bread 1 a s = Ok i s1 ∧ bread 1 c s1 = Ok j s2 ∧ i ≠ j ∧ i ∉ H0 ∧ j ∉ H0 ∧
    bufs s2 !! i = Some x ∧ bufs s2 !! j = Some y ∧ b_blockno x = a ∧ b_blockno y = c ∧
    b_data x = blk s a ∧ b_data y = blk s c ∧
    (b_flags x = B_VALID → b_data x = dblock s2 a) ∧ (b_flags y = B_VALID → b_data y = dblock s2 c) ∧
    bio_inv ({[i; j]} ∪ H0) s2 ∧ bio_same H0 s s2 ∧ k_log s1 = k_log s.
Proof.
  intros HI Ha Hc Hac Hua Huc Hra Hrc.
  destruct (bread_Ok H0 s a) as (i & x & s1 & Hr1 & Hi & Hx & Hcx & Hdx & Hfx & HI1 & P1); [done..|].
  assert (unheld ({[i]} ∪ H0) s1 c) as Hu1.
  { intros k z [Hk|Hk]%elem_of_union Hz.
    - apply elem_of_singleton in Hk as ->. rewrite Hx in Hz. injection Hz as <-. intros Hcz.
      by destruct (Hac (caches_inj _ _ _ Hcx Hcz)).
    - exact (unheld_post _ _ _ _ _ _ _ _ P1 Huc k z Hk Hz). }
  destruct (bread_Ok ({[i]} ∪ H0) s1 c) as (j & y & s2 & Hr2 & Hj & Hy & Hcy & Hdy & Hfy & HI2 & P2);
    [done|by apply (on_disk_post _ _ _ _ _ _ _ _ P1)| |done|].
  { destruct Hrc as [Hd|(L & HL & Hlt)].
    - apply room_dirty. by apply P1.
    - apply (room_count _ _ L _ HI1); [intros b Hb; apply HL; by apply P1|].
      rewrite size_union; [set_solver|]. rewrite size_singleton. lia. }
  assert (i ∈ {[i]} ∪ H0) as Hii by set_solver.
  pose proof (bp_held _ _ _ _ _ _ _ P2 i Hii) as Ei. rewrite Hx in Ei.
  destruct (bufs s2 !! i) as [x2|] eqn:Hx2; [|done]. apply (inj Some) in Ei.
  destruct (bcore_fields _ _ Ei) as (F1 & F2 & F3 & F4 & F5).
  assert (∀ b, dblock s2 b = dblock s b) as Hdb.
  { intros b. by rewrite /dblock (bp_blocks _ _ _ _ _ _ _ P2) (bp_blocks _ _ _ _ _ _ _ P1). }
  assert (∀ b, dirty s1 b ↔ dirty s b) as Hdd by apply P1.
  exists i, j, x2, y, s1, s2. split_and!; try done.
  - set_solver.
  - set_solver.
  - rewrite F3. by destruct Hcx.
  - by destruct Hcy.
  - by rewrite F5.
  - rewrite Hdy. apply P1.
  - rewrite F1 F5 Hdx Hdb. intros Hf. apply (clean_blk H0 s a HI Hua). intros Hd.
    apply Hfx in Hd. rewrite Hd in Hf. done.
  - rewrite Hdy Hdb (bp_blk _ _ _ _ _ _ _ P1). intros Hf. apply (clean_blk H0 s c HI Huc). intros Hd.
    apply Hdd, Hfy in Hd. rewrite Hd in Hf. done.
  - by replace ({[i; j]} ∪ H0) with ({[j]} ∪ ({[i]} ∪ H0)) by set_solver.
  - apply (bio_post_ext _ _ _ _ _ _ _ _ _ _ _ (bio_post_trans _ _ _ _ _ _ _ _ _ _ _ _ _ P1
      (bio_post_sub _ H0 _ _ _ _ _ _ P2 ltac:(set_solver)) ltac:(done))); apply P1.
  - apply bio_only_log, P1.
Qed.

(** Both loop bodies: copy block [c] to block [a] through the cache. *)
Lemma copy_block_Ok H0 s a c i j x y s2 :
  bio_inv ({[i; j]} ∪ H0) s2 → bio_same H0 s s2 → i ≠ j → i ∉ H0 → j ∉ H0 →
  bufs s2 !! i = Some x → bufs s2 !! j = Some y → b_blockno x = a → b_blockno y = c →
  b_data y = blk s c → (b_flags y = B_VALID → b_data y = dblock s2 c) →
  ∃ s', (copy_data i j;; bwrite i;; brelse j;; brelse i) s2 = Ok tt s' ∧ wrote H0 s s' a (blk s c).
Proof.
  intros HI2 P Hij Hi Hj Hx Hy Hbx Hby Hdy Hcoh.
  destruct (copy_tail_Ok ({[i; j]} ∪ H0) s2 i j x y) as (s' & Hrun & HI' & P');
    [done|set_solver|set_solver|done|done|done|by rewrite Hby|].
  replace (({[i; j]} ∪ H0) ∖ {[i; j]}) with H0 in HI', P' by set_solver.
  rewrite Hbx Hdy in P'. exists s'. split; [done|]. split; [done|].
  apply (bio_post_ext _ _ _ _ _ _ _ _ _ _ _ (bio_post_trans _ _ _ _ _ _ _ _ _ _ _ _ _ P P' ltac:(done))).
  - intros b. destruct (decide (b = a)) as [->|Hne]; [by rewrite !fn_lookup_insert|].
    rewrite !fn_lookup_insert_ne; [congruence..|]. apply P.
  - intros b. by rewrite (bp_dirty _ _ _ _ _ _ _ P).
  - by rewrite (bp_blocks _ _ _ _ _ _ _ P).
  - by rewrite (bp_trace _ _ _ _ _ _ _ P).
Qed.

End ops.

(** ** Sequences of block writes *)

Definition write_all (ws : list (Z * list Z)) (B : gmap Z (list Z)) : gmap Z (list Z) :=
  foldl (λ B w, <[w.1 := w.2]> B) B ws.

Definition write_view (ws : list (Z * list Z)) (V : Z → list Z) : Z → list Z :=
  foldl (λ V w, <[w.1 := w.2]> V) V ws.

Lemma write_view_notin ws V b : b ∉ ws.*1 → write_view ws V b = V b.
Proof.
  revert V. induction ws as [|[c d] ws IH]; intros V Hb; [done|].
  change (write_view ws (<[c := d]> V) b = V b). rewrite IH; [set_solver|].
  apply fn_lookup_insert_ne. set_solver.
Qed.

Lemma write_view_app ws1 ws2 V : write_view (ws1 ++ ws2) V = write_view ws2 (write_view ws1 V).
Proof. apply foldl_app. Qed.

Lemma write_all_app ws1 ws2 B : write_all (ws1 ++ ws2) B = write_all ws2 (write_all ws1 B).
Proof. apply foldl_app. Qed.

Lemma insert_view_ext (V V' : Z → list Z) c d :
  (∀ b, V b = V' b) → ∀ b, <[c := d]> V b = <[c := d]> V' b.
Proof.
  intros HV b. destruct (decide (b = c)) as [->|?]; [by rewrite !fn_lookup_insert|].
  rewrite !fn_lookup_insert_ne; [congruence..|]. apply HV.
Qed.

Lemma write_view_ext ws V V' :
  (∀ b, V b = V' b) → ∀ b, write_view ws V b = write_view ws V' b.
Proof.
  revert V V'. induction ws as [|[c d] ws IH]; intros V V' HV b; [apply HV|]. apply IH.
  by apply insert_view_ext.
Qed.

Lemma write_all_lookup ws B b :
  default (replicate 512 0) (write_all ws B !! b) =
  write_view ws (λ b, default (replicate 512 0) (B !! b)) b.
Proof.
  revert B. induction ws as [|[c d] ws IH]; intros B; [done|].
  change (default (replicate 512 0) (write_all ws (<[c := d]> B) !! b) =
    write_view ws (<[c := d]> (λ b, default (replicate 512 0) (B !! b))) b).
  rewrite IH. apply write_view_ext. intros b'. destruct (decide (b' = c)) as [->|Hne].
  - by rewrite lookup_insert_eq fn_lookup_insert.
  - rewrite lookup_insert_ne; [congruence|]. rewrite fn_lookup_insert_ne //. congruence.
Qed.

(** The writes of a loop that copies block [src k] to block [dst k] for [k < n],
    where [V] are the contents when it starts. *)
Definition copies (dst src : nat → Z) (V : Z → list Z) (n : nat) : list (Z * list Z) :=
  (λ k, (dst k, V (src k))) <$> seq 0 n.

Lemma copies_S dst src V n : copies dst src V (S n) = copies dst src V n ++ [(dst n, V (src n))].
Proof. by rewrite /copies seq_S fmap_app. Qed.

Lemma copies_notin dst src V n b : (∀ k, (k < n)%nat → b ≠ dst k) → b ∉ (copies dst src V n).*1.
Proof.
  intros Hb ([c d] & -> & Hw)%list_elem_of_fmap. apply list_elem_of_fmap in Hw as (k & E & Hk%elem_of_seq).
  simplify_eq/=. apply (Hb k); [lia|done].
Qed.

Lemma write_view_copies_at dst src V V0 n k :
  (∀ i j, (i < n)%nat → (j < n)%nat → dst i = dst j → i = j) → (k < n)%nat →
  write_view (copies dst src V n) V0 (dst k) = V (src k).
Proof.
  intros Hinj Hk. induction n as [|n IH]; [lia|].
  rewrite copies_S /write_view foldl_app /=. destruct (decide (k = n)) as [->|Hne].
  - by rewrite fn_lookup_insert.
  - rewrite fn_lookup_insert_ne; [intros E; apply Hne; apply Hinj; [lia|lia|done]|].
    apply IH; [|lia]. intros i j Hi Hj. apply Hinj; lia.
Qed.

Lemma copies_ext dst src src' V V' n :
  (∀ k, (k < n)%nat → V (src k) = V' (src' k)) → copies dst src V n = copies dst src' V' n.
Proof.
  intros HE. apply list_fmap_ext. intros i k [-> Hk]%lookup_seq. by rewrite HE.
Qed.

Section loops.
Context `{IdeDriver}.

Lemma copy_loop_Ok H0 s (one : nat → K unit) dst src n :
  bio_inv H0 s →
  (∀ k j, (k < n)%nat → (j < k)%nat → src k ≠ dst j) →
  (∀ k s1, (k < n)%nat → bio_inv H0 s1 →
     bio_post H0 s s1 (write_view (copies dst src (blk s) k) (blk s))
       (λ b, dirty s b ∧ ∀ j, (j < k)%nat → b ≠ dst j)
       (write_all (copies dst src (blk s) k) (dk_blocks (k_bio s)))
       (dk_trace (k_bio s) ++ copies dst src (blk s) k) →
     ∃ s2, one k s1 = Ok tt s2 ∧ wrote H0 s1 s2 (dst k) (blk s1 (src k))) →
  ∃ s', for_each (seq 0 n) one s = Ok tt s' ∧ bio_inv H0 s' ∧
    bio_post H0 s s' (write_view (copies dst src (blk s) n) (blk s))
      (λ b, dirty s b ∧ ∀ j, (j < n)%nat → b ≠ dst j)
      (write_all (copies dst src (blk s) n) (dk_blocks (k_bio s)))
      (dk_trace (k_bio s) ++ copies dst src (blk s) n).
Proof.
  intros HI Hsd Hone. induction n as [|n IH].
  - exists s. split; [done|]. split; [done|]. rewrite /copies /= app_nil_r. split; try done; [apply bio_only_refl|].
    intros b. split; [|by intros []]. intros Hb. split; [done|lia].
  - destruct IH as (s1 & Hr1 & HI1 & P1); [auto with lia..|].
    destruct (Hone n s1) as (s2 & Hr2 & HI2 & P2); [lia|done|done|].
    exists s2. split; [|split; [done|]].
    { rewrite seq_S (for_each_app _ _ _ _ _ Hr1) /= (bind_Ok _ _ _ _ _ Hr2). done. }
    assert (blk s1 (src n) = blk s (src n)) as Hsrc.
    { rewrite (bp_blk _ _ _ _ _ _ _ P1). apply write_view_notin, copies_notin. intros k Hk. apply Hsd; lia. }
    rewrite Hsrc in P2. rewrite copies_S.
    apply (bio_post_ext _ _ _ _ _ _ _ _ _ _ _ (bio_post_trans _ _ _ _ _ _ _ _ _ _ _ _ _ P1 P2 ltac:(done))).
    + intros b. rewrite /write_view foldl_app /=.
      destruct (decide (b = dst n)) as [->|Hne]; [by rewrite !fn_lookup_insert|].
      rewrite !fn_lookup_insert_ne; [congruence..|]. apply P1.
    + intros b. rewrite (bp_dirty _ _ _ _ _ _ _ P1). split.
      * intros [[? Hj] ?]. split; [done|]. intros j Hjn. destruct (decide (j = n)) as [->|]; [done|]. apply Hj. lia.
      * intros [? Hj]. split; [split; [done|]|]; [intros j Hjn; apply Hj; lia|apply Hj; lia].
    + by rewrite (bp_blocks _ _ _ _ _ _ _ P1) /write_all foldl_app.
    + by rewrite (bp_trace _ _ _ _ _ _ _ P1) -app_assoc.
Qed.

End loops.

(** ** Layout and header *)

Definition in_log (l : log) (c : Z) : Prop := log_start l ≤ c < log_start l + log_size l.

(** [log.lh.block[k]] *)
Definition lh_at (l : log) (k : nat) : Z := default 0 (lh_block (log_lh l) !! k).

Definition lh_len (l : log) : nat := Z.to_nat (lh_n (log_lh l)).

(** The blocks of the current transaction. *)
Definition logged (l : log) : list Z := take (lh_len l) (lh_block (log_lh l)).

(** The log lies on the disk, and the header in memory fits in it and names
    blocks of the disk outside the log. *)
Record log_layout (s : kstate) (l : log) : Prop := {
  ll_dev : log_dev l = 1;
  ll_start : 0 ≤ log_start l;
  ll_size : 1 < log_size l;
  ll_disk c : in_log l c → on_disk s c;
  ll_arr : length (lh_block (log_lh l)) = Z.to_nat LOGSIZE;
  ll_n : 0 ≤ lh_n (log_lh l) ≤ LOGSIZE;
  ll_fits : lh_n (log_lh l) < log_size l;
  ll_home k : (k < lh_len l)%nat → on_disk s (lh_at l k) ∧ ¬ in_log l (lh_at l k)
}.

(** The header block that records [n] and the first [n] of [bl], over [d]. *)
Definition head_data (n : nat) (bl : list Z) (d : list Z) : list Z :=
  foldl (λ d i, hd_set_block i (default 0 (bl !! i)) d) (hd_set_n (Z.of_nat n) d) (seq 0 n).

Lemma length_head_blocks (bl : list Z) ks d :
  length (foldl (λ d i, hd_set_block i (default 0 (bl !! i)) d) d ks) = length d.
Proof. revert d. induction ks as [|k ks IH]; intros d; [done|]. by rewrite /= IH length_set32. Qed.

Lemma length_head_data n bl d : length (head_data n bl d) = length d.
Proof. by rewrite /head_data length_head_blocks length_set32. Qed.

Lemma head_blocks_n (bl : list Z) ks d :
  hd_n (foldl (λ d i, hd_set_block i (default 0 (bl !! i)) d) d ks) = hd_n d.
Proof.
  revert d. induction ks as [|k ks IH]; intros d; [done|].
  rewrite /= IH /hd_n /hd_set_block get32_set32_ne //. lia.
Qed.

Lemma hd_n_head_data n bl d :
  length d = 512%nat → Z.of_nat n ≤ LOGSIZE → hd_n (head_data n bl d) = Z.of_nat n.
Proof.
  intros Hd Hn. rewrite /head_data head_blocks_n /hd_n /hd_set_n get32_set32; [lia|].
  rewrite s32_u32 s32_id //. rewrite /LOGSIZE /MAXOPBLOCKS in Hn. lia.
Qed.

Lemma head_blocks_at (bl : list Z) d k n :
  length d = 512%nat → (n ≤ 30)%nat → (k < n)%nat → 0 ≤ default 0 (bl !! k) < 2 ^ 31 →
  hd_block k (foldl (λ d i, hd_set_block i (default 0 (bl !! i)) d) d (seq 0 n)) = default 0 (bl !! k).
Proof.
  intros Hd Hn Hk Hb. induction n as [|n IH]; [lia|].
  rewrite seq_S foldl_app /= {1}/hd_set_block /hd_block.
  destruct (decide (k = n)) as [->|Hne].
  - rewrite get32_set32; [rewrite length_head_blocks; lia|]. rewrite s32_u32 s32_id //. lia.
  - rewrite get32_set32_ne; [lia|]. apply IH; lia.
Qed.

Lemma hd_block_head_data n bl d k :
  length d = 512%nat → Z.of_nat n ≤ LOGSIZE → (k < n)%nat → 0 ≤ default 0 (bl !! k) < 2 ^ 31 →
  hd_block k (head_data n bl d) = default 0 (bl !! k).
Proof.
  rewrite /LOGSIZE /MAXOPBLOCKS. intros Hd Hn Hk Hb.
  apply head_blocks_at; [by rewrite length_set32|lia|done|done].
Qed.

Section commit.
Context `{IdeDriver}.

Lemma u32_on_disk s b : on_disk s b → u32 b = b.
Proof. intros [[? ?] ?]. apply u32_id. rewrite /FSSIZE in H2. lia. Qed.

Lemma lh_block_get_Ok s k :
  (k < length (lh_block (log_lh (k_log s))))%nat → lh_block_get k s = Ok (lh_at (k_log s) k) s.
Proof.
  intros Hk. rewrite /lh_block_get bind_gets /lh_at.
  destruct (lh_block _ !! k) eqn:E; [done|]. apply lookup_ge_None in E. lia.
Qed.

Lemma lh_len_arr s l k : log_layout s l → (k < lh_len l)%nat → (k < length (lh_block (log_lh l)))%nat.
Proof. intros HL. rewrite (ll_arr _ _ HL) /lh_len. pose proof (ll_n _ _ HL). lia. Qed.

Lemma log_layout_size s s' l :
  dk_size (k_bio s') = dk_size (k_bio s) → log_layout s l → log_layout s' l.
Proof.
  intros E [? ? ? Hd ? ? ? Hh]. split; try done.
  - intros c Hc. rewrite /on_disk E. by apply Hd.
  - intros k Hk. rewrite /on_disk E. by apply Hh.
Qed.

Lemma log_layout_post J s s' V D B T l : bio_post J s s' V D B T → log_layout s l → log_layout s' l.
Proof. intros P. apply log_layout_size, P. Qed.

Lemma log_block_in l k : (k < lh_len l)%nat → 0 ≤ log_start l → lh_n (log_lh l) < log_size l →
  in_log l (log_start l + Z.of_nat k + 1).
Proof. rewrite /in_log /lh_len. lia. Qed.

Section one.
Context (H0 : gset nat) (s : kstate) (k : nat).
Context (HI : bio_inv H0 s) (HL : log_layout s (k_log s)) (Hk : (k < lh_len (k_log s))%nat).
Let a := log_start (k_log s) + Z.of_nat k + 1.
Let c := lh_at (k_log s) k.
Context (Hua : unheld H0 s a) (Huc : unheld H0 s c) (Hra : room s a) (Hrc : room2 H0 s c).

Lemma one_facts : on_disk s a ∧ on_disk s c ∧ a ≠ c.
Proof.
  pose proof (log_block_in (k_log s) k Hk (ll_start _ _ HL) (ll_fits _ _ HL)) as Ha. fold a in Ha.
  destruct (ll_home _ _ HL k Hk) as [Hc Hn]. fold c in Hc, Hn.
  split; [by apply (ll_disk _ _ HL)|]. split; [done|]. intros E. rewrite E in Ha. done.
Qed.

Lemma write_log_one_Ok : ∃ s', write_log_one k s = Ok tt s' ∧ wrote H0 s s' a (blk s c).
Proof.
  destruct one_facts as (Ha & Hc & Hac).
  destruct (bread2_Ok H0 s a c) as (i & j & x & y & s1 & s2 & Hr1 & Hr2 & Hij & Hi & Hj & Hx & Hy & Hbx & Hby & Hdx & Hdy & Hfx & Hfy & HI2 & P & El); [done..|].
  destruct (copy_block_Ok H0 s a c i j x y s2) as (s' & Hrun & Hw); [done..|].
  exists s'. split; [|done]. rewrite /write_log_one bind_gets (ll_dev _ _ HL).
  change (u32 1) with 1. rewrite -/a (u32_on_disk s a) // (bind_Ok _ _ _ _ _ Hr1).
  rewrite (bind_Ok _ _ _ _ _ (lh_block_get_Ok s1 k _)) El; [by apply (lh_len_arr s)|].
  rewrite -/c (u32_on_disk s c) // (bind_Ok _ _ _ _ _ Hr2). exact Hrun.
Qed.

Lemma install_one_Ok : ∃ s', install_one k s = Ok tt s' ∧ wrote H0 s s' c (blk s a).
Proof.
  destruct one_facts as (Ha & Hc & Hac).
  destruct (bread2_Ok H0 s a c) as (i & j & x & y & s1 & s2 & Hr1 & Hr2 & Hij & Hi & Hj & Hx & Hy & Hbx & Hby & Hdx & Hdy & Hfx & Hfy & HI2 & P & El); [done..|].
  destruct (copy_block_Ok H0 s c a j i y x s2) as (s' & Hrun & Hw); try done.
  { by replace ({[j; i]} : gset nat) with ({[i; j]} : gset nat) by set_solver. }
  { congruence. }
  exists s'. split; [|done]. rewrite /install_one bind_gets (ll_dev _ _ HL).
  change (u32 1) with 1. rewrite -/a (u32_on_disk s a) // (bind_Ok _ _ _ _ _ Hr1).
  rewrite (bind_Ok _ _ _ _ _ (lh_block_get_Ok s1 k _)) El; [by apply (lh_len_arr s)|].
  rewrite -/c (u32_on_disk s c) // (bind_Ok _ _ _ _ _ Hr2). exact Hrun.
Qed.

End one.

(** *** Writing the header *)

Lemma updbuf_data i (h : list Z → list Z) d bs s :
  updbuf i (λ x, set_data (h (b_data x)) x) (set_bufs (alter (set_data d) i bs) s) =
  Ok tt (set_bufs (alter (set_data (h d)) i bs) s).
Proof.
  rewrite /updbuf /modify. f_equal. change (bufs (set_bufs ?l _)) with l.
  rewrite list_alter_alter_eq. done.
Qed.

Lemma write_head_blocks_Ok i d bs s ks :
  (∀ k, k ∈ ks → (k < length (lh_block (log_lh (k_log s))))%nat) →
  for_each ks (write_head_block i) (set_bufs (alter (set_data d) i bs) s) =
  Ok tt (set_bufs (alter (set_data (foldl (λ d k, hd_set_block k (lh_at (k_log s) k) d) d ks)) i bs) s).
Proof.
  revert d. induction ks as [|k ks IH]; intros d Hk; [done|].
  cbn [for_each foldl]. rewrite /write_head_block bind_assoc.
  rewrite (bind_Ok _ _ _ _ _ (lh_block_get_Ok _ k _)); [apply Hk; set_solver|].
  rewrite (bind_Ok _ _ _ _ _ (updbuf_data i (hd_set_block k _) d bs s)). apply IH. set_solver.
Qed.

Lemma write_head_Ok H0 s :
  let l := k_log s in
  bio_inv H0 s → log_layout s l → unheld H0 s (log_start l) → room s (log_start l) →
  ∃ s', write_head s = Ok tt s' ∧
    wrote H0 s s' (log_start l) (head_data (lh_len l) (lh_block (log_lh l)) (blk s (log_start l))).
Proof.
  intros l HI HL Hu Hr. pose proof (ll_n _ _ HL) as Hn.
  assert (on_disk s (log_start l)) as Hd.
  { apply (ll_disk _ _ HL). pose proof (ll_size _ _ HL). rewrite /in_log. lia. }
  destruct (bread_Ok H0 s (log_start l)) as (i & x & s1 & Hr1 & Hi & Hx & [_ Hb] & Hdx & Hfx & HI1 & P1); [done..|].
  pose proof (bio_only_log _ _ (bp_only _ _ _ _ _ _ _ P1)) as El.
  set (d := head_data (lh_len l) (lh_block (log_lh l)) (blk s (log_start l))).
  assert (i ∈ {[i]} ∪ H0) as Hii by set_solver.
  pose proof (bi_buf _ _ HI1 i x (held_lt _ _ _ HI1 Hii) Hx) as [O1 _ _ O4 _].
  destruct (held_upd _ s1 i x HI1 Hii Hx (set_data d)) as (Hx2 & HI2 & P2); [done..| | |].
  { simpl. by rewrite /d length_head_data -Hdx. }
  { by destruct O4 as [(_ & _ & [])|(_ & _ & ?)]. }
  destruct (write_release_Ok _ _ i (set_data d x) HI2 Hii Hx2) as (s3 & s4 & Hr3 & Hr4 & HI4 & P4).
  simpl in P2, P4. replace (({[i]} ∪ H0) ∖ {[i]}) with H0 in HI4, P2, P4 by set_solver.
  exists s4. split.
  - rewrite /write_head bind_gets -/l (ll_dev _ _ HL). change (u32 1) with 1.
    rewrite (u32_on_disk s) // (bind_Ok _ _ _ _ _ Hr1).
    replace (updbuf i _) with (updbuf i (λ x, set_data (hd_set_n (lh_n (log_lh l)) (b_data x)) x)) by done.
    rewrite (bind_Ok _ _ s1 tt (set_bufs (alter (set_data (hd_set_n (lh_n (log_lh l)) (blk s (log_start l)))) i (bufs s1)) s1)).
    { rewrite /updbuf /modify. do 2 f_equal. apply list_alter_ext; [|done]. intros y Hy.
      rewrite Hx in Hy. injection Hy as <-. by rewrite Hdx. }
    rewrite /tails bind_assoc bind_gets bind_ret /= El -/l.
    rewrite (bind_Ok _ _ _ _ _ (write_head_blocks_Ok _ _ _ _ _ _)).
    { intros k Hk%elem_of_seq. rewrite El -/l. apply (lh_len_arr s l k HL). rewrite /lh_len. lia. }
    rewrite El -/l. replace (lh_n (log_lh l)) with (Z.of_nat (lh_len l)) by (rewrite /lh_len; lia).
    rewrite Nat2Z.id. change (foldl _ _ (seq 0 (lh_len l))) with d.
    by rewrite (bind_Ok _ _ _ _ _ Hr3).
  - split; [done|]. rewrite Hb in P2, P4.
    apply (bio_post_ext _ _ _ _ _ _ _ _ _ _ _ (bio_post_trans _ _ _ _ _ _ _ _ _ _ _ _ _ P1
       (bio_post_trans _ _ _ _ _ _ _ _ _ _ _ _ _ P2 P4 ltac:(done)) ltac:(done))).
    + intros b. rewrite (bp_blk _ _ _ _ _ _ _ P2).
      destruct (decide (b = log_start l)) as [->|Hne]; [by rewrite !fn_lookup_insert|].
      rewrite !fn_lookup_insert_ne; [congruence..|]. apply P1.
    + intros b. rewrite (bp_dirty _ _ _ _ _ _ _ P2) (bp_dirty _ _ _ _ _ _ _ P1). clear. tauto.
    + by rewrite /= (bp_blocks _ _ _ _ _ _ _ P1).
    + by rewrite /= (bp_trace _ _ _ _ _ _ _ P1).
Qed.

(** *** Commit *)

(** The invariant of the log while no commit is in progress: the pinned blocks
    are those of the transaction, and the log on disk is empty. *)
Record log_inv (H0 : gset nat) (s : kstate) : Prop := {
  li_bio : bio_inv H0 s;
  li_layout : log_layout s (k_log s);
  li_nodup : NoDup (logged (k_log s));
  li_dirty b : dirty s b ↔ b ∈ logged (k_log s);
  li_head : hd_n (dblock s (log_start (k_log s))) = 0
}.

(** When commit() may run: nobody holds a buffer it needs, and there is one to
    spare. *)
Record commit_pre (H0 : gset nat) (s : kstate) : Prop := {
  cp_inv : log_inv H0 s;
  cp_unheld b : in_log (k_log s) b ∨ b ∈ logged (k_log s) → unheld H0 s b;
  cp_cap : (size H0 + lh_len (k_log s) < NBUF)%nat
}.

Lemma logged_at s l k : log_layout s l → (k < lh_len l)%nat → logged l !! k = Some (lh_at l k).
Proof.
  intros HL Hk. pose proof (lh_len_arr _ _ _ HL Hk) as Hlt. rewrite /logged lookup_take_lt // /lh_at.
  by destruct (lookup_lt_is_Some_2 _ _ Hlt) as [x ->].
Qed.

Lemma logged_elem s l b : log_layout s l → b ∈ logged l ↔ ∃ k, (k < lh_len l)%nat ∧ b = lh_at l k.
Proof.
  intros HL. rewrite list_elem_of_lookup. split.
  - intros (k & Hk). assert (k < lh_len l)%nat as Hlt.
    { apply lookup_lt_Some in Hk. rewrite length_take in Hk. lia. }
    exists k. rewrite (logged_at s) // in Hk. split; [done|]. by injection Hk.
  - intros (k & Hk & ->). exists k. by apply (logged_at s).
Qed.

Lemma length_logged s l : log_layout s l → length (logged l) = lh_len l.
Proof.
  intros HL. rewrite length_take (ll_arr _ _ HL) /lh_len. pose proof (ll_n _ _ HL). lia.
Qed.

(** The log block that holds the copy of block [k] of the transaction. *)
Definition log_at (l : log) (k : nat) : Z := log_start l + Z.of_nat k + 1.

Lemma log_at_in s l k : log_layout s l → (k < lh_len l)%nat → in_log l (log_at l k).
Proof. intros HL Hk. by apply log_block_in; [|apply HL..]. Qed.

Lemma log_at_home s l k j :
  log_layout s l → (k < lh_len l)%nat → (j < lh_len l)%nat → log_at l k ≠ lh_at l j.
Proof.
  intros HL Hk Hj E. destruct (ll_home _ _ HL j Hj) as [_ Hn]. apply Hn. rewrite -E. by apply (log_at_in s).
Qed.

Lemma tails_Ok s : tails s = Ok (seq 0 (lh_len (k_log s))) s.
Proof. done. Qed.

Lemma write_log_Ok H0 s :
  commit_pre H0 s →
  let l := k_log s in let ws := copies (log_at l) (lh_at l) (blk s) (lh_len l) in
  ∃ s', write_log s = Ok tt s' ∧ bio_inv H0 s' ∧
    bio_post H0 s s' (write_view ws (blk s)) (dirty s)
      (write_all ws (dk_blocks (k_bio s))) (dk_trace (k_bio s) ++ ws).
Proof.
  intros [[HI HL Hnd Hd Hhd] Hu Hcap] l ws.
  destruct (copy_loop_Ok H0 s write_log_one (log_at l) (lh_at l) (lh_len l)) as (s' & Hrun & HI' & P).
  - done.
  - intros k j Hk Hj E. apply (log_at_home s l j k HL); [lia|done|done].
  - intros k s1 Hk HI1 P1. pose proof (bio_only_log _ _ (bp_only _ _ _ _ _ _ _ P1)) as El.
    assert (lh_at l k ∈ logged l) as Hkl by (apply (logged_elem s l _ HL); eauto).
    pose proof (write_log_one_Ok H0 s1 k HI1) as Hone. rewrite El -/l in Hone. apply Hone; clear Hone.
    + by apply (log_layout_post _ _ _ _ _ _ _ _ P1).
    + done.
    + apply (unheld_post _ _ _ _ _ _ _ _ P1), Hu. left. by apply (log_at_in s l).
    + apply (unheld_post _ _ _ _ _ _ _ _ P1), Hu. by right.
    + apply (room_count H0 s1 (logged l) _ HI1); [|by rewrite (length_logged s)].
      intros b Hb. apply Hd. by apply (bp_dirty _ _ _ _ _ _ _ P1) in Hb as [? _].
    + left. apply (bp_dirty _ _ _ _ _ _ _ P1). split; [by apply Hd|].
      intros j Hj E. apply (log_at_home s l j k HL); [lia|done|done].
  - exists s'. split; [|split; [done|]].
    + rewrite /write_log. by rewrite (bind_Ok _ _ _ _ _ (tails_Ok s)).
    + apply (bio_post_ext _ _ _ _ _ _ _ _ _ _ _ P); [done| |done|done].
      intros b. split; [by intros [? _]|]. intros Hb. split; [done|]. intros j Hj ->.
      apply Hd, (logged_elem s l _ HL) in Hb as (k & Hk & E). by apply (log_at_home s l j k HL).
Qed.

(** Installing a transaction whose copies are in the log; [L] bounds the pinned
    blocks, and a home block is pinned or there is a buffer to spare. *)
Lemma install_trans_Ok H0 s L :
  let l := k_log s in let ws := copies (lh_at l) (log_at l) (blk s) (lh_len l) in
  bio_inv H0 s → log_layout s l →
  (∀ b, in_log l b ∨ b ∈ logged l → unheld H0 s b) →
  (∀ b, dirty s b → b ∈ L) → (size H0 + length L < NBUF)%nat →
  (NoDup (logged l) ∧ (∀ b, b ∈ logged l → dirty s b) ∨ (S (size H0) + length L < NBUF)%nat) →
  ∃ s', install_trans s = Ok tt s' ∧ bio_inv H0 s' ∧
    bio_post H0 s s' (write_view ws (blk s)) (λ b, dirty s b ∧ b ∉ logged l)
      (write_all ws (dk_blocks (k_bio s))) (dk_trace (k_bio s) ++ ws).
Proof.
  intros l ws HI HL Hu HdL Hcap Hcase.
  destruct (copy_loop_Ok H0 s install_one (lh_at l) (log_at l) (lh_len l)) as (s' & Hrun & HI' & P).
  - done.
  - intros k j Hk Hj E. apply (log_at_home s l k j HL); [lia|lia|done].
  - intros k s1 Hk HI1 P1. pose proof (bio_only_log _ _ (bp_only _ _ _ _ _ _ _ P1)) as El.
    assert (lh_at l k ∈ logged l) as Hkl by (apply (logged_elem s l _ HL); eauto).
    assert (∀ b, dirty s1 b → b ∈ L) as HdL1.
    { intros b Hb. apply HdL. by apply (bp_dirty _ _ _ _ _ _ _ P1) in Hb as [? _]. }
    pose proof (install_one_Ok H0 s1 k HI1) as Hone. rewrite El -/l in Hone. apply Hone; clear Hone.
    + by apply (log_layout_post _ _ _ _ _ _ _ _ P1).
    + done.
    + apply (unheld_post _ _ _ _ _ _ _ _ P1), Hu. left. by apply (log_at_in s l).
    + apply (unheld_post _ _ _ _ _ _ _ _ P1), Hu. by right.
    + by apply (room_count H0 s1 L _ HI1).
    + destruct Hcase as [[Hnd Hall]|Hlt]; [left|right; by exists L].
      apply (bp_dirty _ _ _ _ _ _ _ P1). split; [by apply Hall|]. intros j Hj E.
      assert (k = j) as ->; [|lia].
      apply (NoDup_lookup _ _ _ _ Hnd (logged_at s l k HL Hk)). rewrite E. apply (logged_at s l j HL). lia.
  - exists s'. split; [|split; [done|]].
    + rewrite /install_trans. by rewrite (bind_Ok _ _ _ _ _ (tails_Ok s)).
    + apply (bio_post_ext _ _ _ _ _ _ _ _ _ _ _ P); [done| |done|done].
      intros b. rewrite (logged_elem s l b HL). split; intros [? Hn]; (split; [done|]); [naive_solver|].
      intros j Hj ->. apply Hn. eauto.
Qed.

(** The disk writes of commit(), in order: the copies to the log, the header
    that commits, the copies to the home locations, the empty header. *)
Definition commit_head (s : kstate) : list Z :=
  head_data (lh_len (k_log s)) (lh_block (log_lh (k_log s))) (blk s (log_start (k_log s))).

Definition commit_writes (s : kstate) : list (Z * list Z) :=
  let l := k_log s in
  copies (log_at l) (lh_at l) (blk s) (lh_len l) ++ [(log_start l, commit_head s)] ++
  copies (lh_at l) (lh_at l) (blk s) (lh_len l) ++ [(log_start l, hd_set_n 0 (commit_head s))].

Definition empty_head (l : log) : log := set_lh (Logheader 0 (lh_block (log_lh l))) l.

Lemma bio_inv_set_log H0 v s : bio_inv H0 s → bio_inv H0 (set_log v s).
Proof. intros [[? ? ?] ? HB ? ? ?]. split; try done. intros i x Hi Hx. by destruct (HB i x Hi Hx). Qed.

Lemma layout_empty s l : log_layout s l → log_layout s (empty_head l).
Proof.
  intros [? ? Hsz ? ? ? ? ?]. split; [done|done|done|done|done|done| |].
  - simpl. lia.
  - intros k Hk. rewrite /lh_len /= in Hk. lia.
Qed.

Lemma log_at_inj l i j : log_at l i = log_at l j → i = j.
Proof. rewrite /log_at. lia. Qed.

(** What follows the commit point, in commit() and in recovery:
    [install_trans(); log.lh.n = 0; write_head();] *)
Definition finish : K unit := install_trans;; lh_n_set 0;; write_head.

Lemma finish_Ok H0 s L :
  let l := k_log s in
  let ws := copies (lh_at l) (log_at l) (blk s) (lh_len l) ++ [(log_start l, hd_set_n 0 (blk s (log_start l)))] in
  bio_inv H0 s → log_layout s l →
  (∀ b, in_log l b ∨ b ∈ logged l → unheld H0 s b) →
  (∀ b, dirty s b → b ∈ L) → (size H0 + length L < NBUF)%nat →
  (NoDup (logged l) ∧ (∀ b, b ∈ logged l → dirty s b) ∨ (S (size H0) + length L < NBUF)%nat) →
  ¬ dirty s (log_start l) →
  ∃ s', finish s = Ok tt s' ∧ bio_inv H0 s' ∧ k_log s' = empty_head l ∧
    bio_post H0 (set_log (empty_head l) s) s' (write_view ws (blk s)) (λ b, dirty s b ∧ b ∉ logged l)
      (write_all ws (dk_blocks (k_bio s))) (dk_trace (k_bio s) ++ ws).
Proof.
  intros l ws HI HL Hu HdL Hcap Hcase Hnd.
  assert (in_log l (log_start l)) as Hst by (pose proof (ll_size _ _ HL); rewrite /in_log; lia).
  destruct (install_trans_Ok H0 s L) as (s3 & Hr3 & HI3 & P3); [done..|]. fold l in P3.
  set (ws3 := copies (lh_at l) (log_at l) (blk s) (lh_len l)) in *.
  pose proof (bio_only_log _ _ (bp_only _ _ _ _ _ _ _ P3)) as El3. fold l in El3.
  set (s3' := set_log (empty_head l) s3).
  assert (log_start l ∉ ws3.*1) as Hws3.
  { apply copies_notin. intros k Hk E. destruct (ll_home _ _ HL k Hk) as [_ Hnk]. by rewrite -E in Hnk. }
  destruct (write_head_Ok H0 s3') as (s4 & Hr4 & HI4 & P4).
  { by apply bio_inv_set_log. }
  { by apply layout_empty, (log_layout_size s3), (log_layout_post _ _ _ _ _ _ _ _ P3). }
  { apply (unheld_post _ _ _ _ _ _ _ _ P3), Hu. by left. }
  { apply (room_count H0 s3' L _ (bio_inv_set_log _ _ _ HI3)); [|done].
    intros b [Hb _]%(bp_dirty _ _ _ _ _ _ _ P3). by apply HdL. }
  change (blk s3' ?b) with (blk s3 b) in P4. change (k_log s3') with (empty_head l) in P4.
  change (log_start (empty_head l)) with (log_start l) in P4.
  rewrite (bp_blk _ _ _ _ _ _ _ P3) write_view_notin // in P4.
  change (head_data _ _ _) with (hd_set_n 0 (blk s (log_start l))) in P4.
  pose proof (bio_only_log _ _ (bp_only _ _ _ _ _ _ _ P4)) as El4.
  exists s4. split; [|split; [done|split; [done|]]].
  { rewrite /finish (bind_Ok _ _ _ _ _ Hr3) /lh_n_set /updlog bind_modify El3. exact Hr4. }
  assert (bio_post H0 (set_log (empty_head l) s) s3' (write_view ws3 (blk s)) (λ b, dirty s b ∧ b ∉ logged l)
    (write_all ws3 (dk_blocks (k_bio s))) (dk_trace (k_bio s) ++ ws3)) as P3'.
  { destruct P3 as [[Hs Hs'] ? ? ? ? ? ?]. split; try done. split; [|done].
    exact (set_log_settled _ _ _ Hs). }
  apply (bio_post_ext _ _ _ _ _ _ _ _ _ _ _ (bio_post_trans _ _ _ _ _ _ _ _ _ _ _ _ _ P3' P4 ltac:(done))).
  - intros b. rewrite /ws /write_view foldl_app /=. apply insert_view_ext, P3.
  - intros b. rewrite (bp_dirty _ _ _ _ _ _ _ P3'). split; [by intros [? _]|]. intros [Hb Hbl].
    split; [done|]. by intros ->.
  - by rewrite (bp_blocks _ _ _ _ _ _ _ P3') /ws /write_all foldl_app.
  - by rewrite (bp_trace _ _ _ _ _ _ _ P3') /ws -app_assoc.
Qed.

(** Up to the commit point: [write_log(); write_head();] *)
Lemma log_phase_Ok H0 s :
  commit_pre H0 s →
  let l := k_log s in
  let ws := copies (log_at l) (lh_at l) (blk s) (lh_len l) ++ [(log_start l, commit_head s)] in
  ∃ s', (write_log;; write_head) s = Ok tt s' ∧ bio_inv H0 s' ∧
    bio_post H0 s s' (write_view ws (blk s)) (dirty s)
      (write_all ws (dk_blocks (k_bio s))) (dk_trace (k_bio s) ++ ws).
Proof.
  intros Hinv l ws. pose proof Hinv as [[HI HL Hnd Hd Hhd] Hu Hcap]. fold l in HL, Hnd, Hd, Hu, Hcap, Hhd.
  destruct (write_log_Ok H0 s Hinv) as (s1 & Hr1 & HI1 & P1). fold l in P1.
  pose proof (bio_only_log _ _ (bp_only _ _ _ _ _ _ _ P1)) as El1.
  assert (in_log l (log_start l)) as Hst by (pose proof (ll_size _ _ HL); rewrite /in_log; lia).
  destruct (write_head_Ok H0 s1) as (s2 & Hr2 & HI2 & P2); rewrite ?El1; fold l; [done|..].
  { by apply (log_layout_post _ _ _ _ _ _ _ _ P1). }
  { apply (unheld_post _ _ _ _ _ _ _ _ P1), Hu. by left. }
  { apply (room_count H0 s1 (logged l) _ HI1); [|by rewrite (length_logged s)].
    intros b Hb. by apply Hd, (bp_dirty _ _ _ _ _ _ _ P1). }
  rewrite El1 in P2. fold l in P2.
  rewrite (bp_blk _ _ _ _ _ _ _ P1) write_view_notin in P2.
  { apply copies_notin. intros k _. rewrite /log_at. lia. }
  change (head_data _ _ _) with (commit_head s) in P2.
  exists s2. split; [by rewrite (bind_Ok _ _ _ _ _ Hr1)|]. split; [done|].
  apply (bio_post_ext _ _ _ _ _ _ _ _ _ _ _ (bio_post_trans _ _ _ _ _ _ _ _ _ _ _ _ _ P1 P2 ltac:(done))).
  - intros b. rewrite /ws /write_view foldl_app /=. apply insert_view_ext, P1.
  - intros b. rewrite (bp_dirty _ _ _ _ _ _ _ P1) Hd. split; [by intros [? _]|]. intros Hb.
    split; [done|]. intros ->. apply (logged_elem s l _ HL) in Hb as (k & Hk & E).
    destruct (ll_home _ _ HL k Hk) as [_ Hnk]. rewrite -E in Hnk. done.
  - by rewrite (bp_blocks _ _ _ _ _ _ _ P1) /ws /write_all foldl_app.
  - by rewrite (bp_trace _ _ _ _ _ _ _ P1) /ws -app_assoc.
Qed.

Lemma commit_Ok H0 s :
  commit_pre H0 s → (0 < lh_len (k_log s))%nat →
  ∃ s', commit s = Ok tt s' ∧ bio_inv H0 s' ∧ k_log s' = empty_head (k_log s) ∧
    bio_post H0 (set_log (empty_head (k_log s)) s) s' (write_view (commit_writes s) (blk s)) (λ _, False)
      (write_all (commit_writes s) (dk_blocks (k_bio s))) (dk_trace (k_bio s) ++ commit_writes s).
Proof.
  intros Hinv Hn. pose proof Hinv as [[HI HL Hnd Hd Hhd] Hu Hcap]. set (l := k_log s) in *.
  destruct (log_phase_Ok H0 s Hinv) as (s2 & Hr2 & HI2 & P2). fold l in P2.
  pose proof (bio_only_log _ _ (bp_only _ _ _ _ _ _ _ P2)) as El2. fold l in El2.
  assert (∀ b, dirty s2 b ↔ b ∈ logged l) as Hd2.
  { intros b. rewrite (bp_dirty _ _ _ _ _ _ _ P2). apply Hd. }
  assert (in_log l (log_start l)) as Hst by (pose proof (ll_size _ _ HL); rewrite /in_log; lia).
  destruct (finish_Ok H0 s2 (logged l)) as (s4 & Hr4 & HI4 & El4 & P4); rewrite ?El2; [done|..].
  { by apply (log_layout_post _ _ _ _ _ _ _ _ P2). }
  { intros b Hb. by apply (unheld_post _ _ _ _ _ _ _ _ P2), Hu. }
  { intros b. apply Hd2. }
  { by rewrite (length_logged s). }
  { left. split; [done|]. intros b. apply Hd2. }
  { rewrite Hd2 (logged_elem s l _ HL). intros (k & Hk & E). destruct (ll_home _ _ HL k Hk) as [_ Hnk].
    by rewrite -E in Hnk. }
  rewrite El2 in P4, El4. exists s4. split; [|split; [done|split; [done|]]].
  { rewrite /commit bind_gets. fold l. replace (lh_n (log_lh l) >? 0) with true by (rewrite /lh_len in Hn; lia).
    rewrite /= -bind_assoc (bind_Ok _ _ _ _ _ Hr2). exact Hr4. }
  assert (copies (lh_at l) (log_at l) (blk s2) (lh_len l) ++ [(log_start l, hd_set_n 0 (blk s2 (log_start l)))] =
    copies (lh_at l) (lh_at l) (blk s) (lh_len l) ++ [(log_start l, hd_set_n 0 (commit_head s))]) as Ews.
  { f_equal.
    - apply copies_ext. intros k Hk. rewrite (bp_blk _ _ _ _ _ _ _ P2) /write_view foldl_app /= fn_lookup_insert_ne.
      { rewrite /log_at. lia. }
      apply (write_view_copies_at (log_at l) (lh_at l)); [|done]. intros i j _ _. apply log_at_inj.
    - by rewrite (bp_blk _ _ _ _ _ _ _ P2) /write_view foldl_app /= fn_lookup_insert. }
  rewrite Ews in P4.
  assert (bio_post H0 (set_log (empty_head l) s) (set_log (empty_head l) s2) (blk s2) (dirty s2)
    (dk_blocks (k_bio s2)) (dk_trace (k_bio s2))) as P2'.
  { destruct P2 as [[Hs Hs'] ? ? ? ? ? ?]. split; try done. split; [|done]. exact (set_log_settled _ _ _ Hs). }
  apply (bio_post_ext _ _ _ _ _ _ _ _ _ _ _ (bio_post_trans _ _ _ _ _ _ _ _ _ _ _ _ _ P2' P4 ltac:(done))).
  - intros b. rewrite /commit_writes -/l app_assoc (write_view_app (_ ++ [(_, commit_head s)])).
    apply write_view_ext, P2.
  - intros b. rewrite Hd2. tauto.
  - by rewrite (bp_blocks _ _ _ _ _ _ _ P2) /commit_writes -/l app_assoc (write_all_app (_ ++ [(_, commit_head s)])).
  - by rewrite (bp_trace _ _ _ _ _ _ _ P2) /commit_writes -/l -!app_assoc.
Qed.

(** ** Recovery *)

(** The array [log.lh.block] after read_head() of the header [d]. *)
Definition read_blocks (d : list Z) (ks : list nat) (bl : list Z) : list Z :=
  foldl (λ bl i, <[i := hd_block i d]> bl) bl ks.

Lemma length_read_blocks d ks bl : length (read_blocks d ks bl) = length bl.
Proof. revert bl. induction ks as [|k ks IH]; intros bl; [done|]. by rewrite /= IH length_insert. Qed.

Lemma read_blocks_at d bl n k :
  (n ≤ length bl)%nat → (k < n)%nat → read_blocks d (seq 0 n) bl !! k = Some (hd_block k d).
Proof.
  intros Hn Hk. induction n as [|n IH]; [lia|]. rewrite seq_S /read_blocks foldl_app /=.
  fold (read_blocks d (seq 0 n) bl). destruct (decide (k = n)) as [->|Hne].
  - rewrite list_lookup_insert_eq // length_read_blocks. lia.
  - rewrite list_lookup_insert_ne; [lia|]. apply IH; lia.
Qed.

Lemma read_blocks_run d ks s :
  let l := k_log s in
  (∀ k, k ∈ ks → (k < length (lh_block (log_lh l)))%nat) →
  for_each ks (λ i, lh_block_set i (hd_block i d)) s =
  Ok tt (set_log (set_lh (Logheader (lh_n (log_lh l)) (read_blocks d ks (lh_block (log_lh l)))) l) s).
Proof.
  simpl. revert s. induction ks as [|k ks IH]; intros s Hk; cbn [for_each].
  - destruct s as [? ? ? ? ? ? ? [? ? ? ? ? []] ? ? ? ?]. done.
  - rewrite {1}/lh_block_set bind_assoc bind_gets bool_decide_eq_true_2; [apply Hk; set_solver|].
    rewrite bind_modify IH; simpl; [|done].
    intros j Hj. rewrite length_insert. apply Hk. set_solver.
Qed.

(** What recovery relies on in a header: the log's blocks it names. *)
Record head_ok (s : kstate) (l : log) (d : list Z) : Prop := {
  ho_n : 0 ≤ hd_n d ≤ LOGSIZE;
  ho_fits : hd_n d < log_size l;
  ho_home k : (k < Z.to_nat (hd_n d))%nat → on_disk s (hd_block k d) ∧ ¬ in_log l (hd_block k d)
}.

(** The header in memory after read_head(). *)
Definition read_log (d : list Z) (l : log) : log :=
  set_lh (Logheader (hd_n d) (read_blocks d (seq 0 (Z.to_nat (hd_n d))) (lh_block (log_lh l)))) l.

Lemma read_log_layout s l d : log_layout s l → head_ok s l d → log_layout s (read_log d l).
Proof.
  intros [? ? ? ? Harr ? ? ?] [Hn Hf Hh]. split; try done; simpl.
  - by rewrite length_read_blocks.
  - intros k Hk. rewrite /lh_len /= in Hk. rewrite /lh_at /= read_blocks_at; [rewrite Harr; lia|done|].
    by apply Hh.
Qed.

Lemma read_log_at s l d k :
  log_layout s l → head_ok s l d → (k < Z.to_nat (hd_n d))%nat → lh_at (read_log d l) k = hd_block k d.
Proof.
  intros [? ? ? ? Harr ? ? ?] [Hn Hf Hh] Hk. rewrite /lh_at /= read_blocks_at //. rewrite Harr. lia.
Qed.

Lemma read_head_Ok H0 s :
  let l := k_log s in let d := blk s (log_start l) in
  bio_inv H0 s → log_layout s l → head_ok s l d → unheld H0 s (log_start l) → room s (log_start l) →
  ∃ s', read_head s = Ok tt s' ∧ bio_inv H0 s' ∧ k_log s' = read_log d l ∧
    bio_same H0 (set_log (read_log d l) s) s'.
Proof.
  intros l d HI HL Hh Hu Hr.
  assert (in_log l (log_start l)) as Hst by (pose proof (ll_size _ _ HL); rewrite /in_log; lia).
  destruct (bread_Ok H0 s (log_start l)) as (i & x & s1 & Hr1 & Hi & Hx & [_ Hb] & Hdx & Hfx & HI1 & P1);
    [done|by apply (ll_disk _ _ HL)|done|done|].
  pose proof (bio_only_log _ _ (bp_only _ _ _ _ _ _ _ P1)) as El.
  set (s2 := set_log (read_log d l) s1).
  assert (i ∈ {[i]} ∪ H0) as Hii by set_solver.
  destruct (brelse_Ok ({[i]} ∪ H0) s2 i x (bio_inv_set_log _ _ _ HI1) Hii Hx) as (s3 & Hr3 & HI3 & P3).
  { rewrite Hb Hdx. intros Hf. change (dblock s2 ?b) with (dblock s1 b).
    rewrite /dblock (bp_blocks _ _ _ _ _ _ _ P1). apply (clean_blk H0 s _ HI Hu). intros Hd.
    apply Hfx in Hd. rewrite Hd in Hf. done. }
  replace (({[i]} ∪ H0) ∖ {[i]}) with H0 in HI3, P3 by set_solver.
  pose proof (bio_only_log _ _ (bp_only _ _ _ _ _ _ _ P3)) as El3.
  exists s3. split; [|split; [done|split; [done|]]].
  - rewrite /read_head bind_gets -/l (ll_dev _ _ HL). change (u32 1) with 1.
    rewrite (u32_on_disk s) ?(bind_Ok _ _ _ _ _ Hr1); [by apply (ll_disk _ _ HL)|].
    rewrite (bind_Ok _ _ _ _ _ (getbuf_Ok i x s1 Hx)) Hdx -/d bind_modify.
    rewrite (bind_Ok _ _ _ _ _ (tails_Ok _)).
    rewrite (bind_Ok _ _ _ _ _ (read_blocks_run d _ _ _)) /= El -/l.
    { intros k Hk%elem_of_seq. rewrite (ll_arr _ _ HL). destruct Hh as [Hn _ _]. rewrite /lh_len /= in Hk. lia. }
    exact Hr3.
  - destruct P1 as [[Hs Hs'] Pb Pd Pk Pt Psz Ph].
    assert (bio_same H0 (set_log (read_log d l) s) s2) as P2.
    { split; try done. split; [|done]. exact (set_log_settled _ _ _ Hs). }
    apply (bio_post_ext _ _ _ _ _ _ _ _ _ _ _ (bio_post_trans _ _ _ _ _ _ _ _ _ _ _ _ _ P2 P3 ltac:(done))); done.
Qed.

(** The disk writes of recovery from the contents [V] of the disk. *)
Definition recover_writes (l : log) (V : Z → list Z) : list (Z * list Z) :=
  let d := V (log_start l) in
  copies (λ k, hd_block k d) (log_at l) V (Z.to_nat (hd_n d)) ++ [(log_start l, hd_set_n 0 d)].

(** A machine that has just booted: nothing is pinned and the log is not in use. *)
Record recover_pre (H0 : gset nat) (s : kstate) : Prop := {
  rp_bio : bio_inv H0 s;
  rp_layout : log_layout s (k_log s);
  rp_head : head_ok s (k_log s) (blk s (log_start (k_log s)));
  rp_clean b : ¬ dirty s b;
  rp_unheld b : unheld H0 s b;
  rp_cap : (S (size H0) < NBUF)%nat
}.

Lemma recover_Ok H0 s :
  recover_pre H0 s →
  let l := k_log s in
  ∃ s', recover_from_log s = Ok tt s' ∧ bio_inv H0 s' ∧
    k_log s' = empty_head (read_log (blk s (log_start l)) l) ∧
    bio_post H0 (set_log (k_log s') s) s' (write_view (recover_writes l (blk s)) (blk s)) (λ _, False)
      (write_all (recover_writes l (blk s)) (dk_blocks (k_bio s)))
      (dk_trace (k_bio s) ++ recover_writes l (blk s)).
Proof.
  intros [HI HL Hh Hc Hu Hcap] l. set (d := blk s (log_start l)).
  destruct (read_head_Ok H0 s) as (s1 & Hr1 & HI1 & El1 & P1); [done..| |].
  { apply (room_count H0 s [] _ HI); [by intros b ?%Hc|]. simpl. lia. }
  fold l d in El1, P1. pose proof (read_log_layout s l d HL Hh) as HLr.
  assert (∀ b, ¬ dirty s1 b) as Hc1 by (intros b Hb%(bp_dirty _ _ _ _ _ _ _ P1); by apply (Hc b)).
  assert (log_layout s1 (read_log d l)) as HL1.
  { apply (log_layout_size s); [|done]. by rewrite (bp_size _ _ _ _ _ _ _ P1). }
  destruct (finish_Ok H0 s1 []) as (s2 & Hr2 & HI2 & El2 & P2); rewrite ?El1; [done|done|..].
  { intros b _. apply (unheld_post _ _ _ _ _ _ _ _ P1), (Hu b). }
  { by intros b ?%Hc1. }
  { simpl. lia. }
  { right. simpl. lia. }
  { apply Hc1. }
  rewrite El1 in El2, P2. change (log_start (read_log d l)) with (log_start l) in P2.
  change (log_at (read_log d l)) with (log_at l) in P2.
  assert (copies (lh_at (read_log d l)) (log_at l) (blk s1) (lh_len (read_log d l)) ++
    [(log_start l, hd_set_n 0 (blk s1 (log_start l)))] = recover_writes l (blk s)) as Ews.
  { rewrite /recover_writes -/d (bp_blk _ _ _ _ _ _ _ P1). f_equal. rewrite /lh_len /=.
    apply list_fmap_ext. intros j k [-> Hk]%lookup_seq. f_equal; [by apply (read_log_at s)|apply P1]. }
  rewrite Ews in P2. exists s2. split; [|split; [done|split; [done|]]].
  { rewrite /recover_from_log (bind_Ok _ _ _ _ _ Hr1). exact Hr2. }
  rewrite El2. set (le := empty_head (read_log d l)) in *.
  assert (bio_same H0 (set_log le s) (set_log le s1)) as P1'.
  { destruct P1 as [[Hs Hs'] ? ? ? ? ? ?]. split; try done. split; [|done]. exact (set_log_settled le _ _ Hs). }
  apply (bio_post_ext _ _ _ _ _ _ _ _ _ _ _ (bio_post_trans _ _ _ _ _ _ _ _ _ _ _ _ _ P1' P2 ltac:(done))).
  - intros b. apply write_view_ext, P1.
  - intros b. split; [|done]. intros [Hb _]. by apply (Hc1 b).
  - by rewrite (bp_blocks _ _ _ _ _ _ _ P1).
  - by rewrite (bp_trace _ _ _ _ _ _ _ P1).
Qed.

End commit.

(** ** Crashes *)

(** The contents of the disk when the transaction of [s] has taken effect. *)
Definition committed (s : kstate) (b : Z) : list Z :=
  if bool_decide (b ∈ logged (k_log s)) then blk s b else dblock s b.

Lemma take_copies dst src V n k : (k ≤ n)%nat → take k (copies dst src V n) = copies dst src V k.
Proof. intros Hk. rewrite /copies -fmap_take take_seq. do 2 f_equal. lia. Qed.

Lemma length_copies dst src V n : length (copies dst src V n) = n.
Proof. by rewrite /copies length_fmap length_seq. Qed.

Section crash.
Context (H0 : gset nat) (s : kstate) (Hinv : log_inv H0 s).
Let l := k_log s.
Let n := lh_len l.

(** The disk after the first [k] writes of commit(). *)
Definition crash_disk (k : nat) : Z → list Z := write_view (take k (commit_writes s)) (dblock s).

Lemma lh_at_inj i j : (i < n)%nat → (j < n)%nat → lh_at l i = lh_at l j → i = j.
Proof.
  intros Hi Hj E. pose proof (li_layout _ _ Hinv) as HL.
  apply (NoDup_lookup _ _ _ _ (li_nodup _ _ Hinv) (logged_at s l i HL Hi)). rewrite E. by apply (logged_at s l j HL).
Qed.

(** Before the header is written: the log is empty, no home block has changed. *)
Lemma crash_early k :
  (k ≤ n)%nat →
  (∀ b, ¬ in_log l b → crash_disk k b = dblock s b) ∧
  crash_disk k (log_start l) = dblock s (log_start l).
Proof.
  intros Hk. pose proof (li_layout _ _ Hinv) as HL.
  assert (take k (commit_writes s) = copies (log_at l) (lh_at l) (blk s) k) as E.
  { rewrite /commit_writes -/l take_app_le ?length_copies //. by apply take_copies. }
  rewrite /crash_disk E. split.
  - intros b Hb. apply write_view_notin, copies_notin. intros j Hj ->. apply Hb.
    apply (log_at_in s); [done|]. unfold n in Hk. lia.
  - apply write_view_notin, copies_notin. intros j Hj. rewrite /log_at. lia.
Qed.

(** Once it is written: the header names the transaction, whose blocks are in
    the log, and a home block holds the old or the new contents. *)
Lemma crash_middle k :
  (n < k ≤ 2 * n + 1)%nat →
  crash_disk k (log_start l) = commit_head s ∧
  (∀ j, (j < n)%nat → crash_disk k (log_at l j) = blk s (lh_at l j)) ∧
  (∀ b, ¬ in_log l b → b ∉ logged l → crash_disk k b = dblock s b) ∧
  (∀ j, (j < k - n - 1)%nat → crash_disk k (lh_at l j) = blk s (lh_at l j)).
Proof.
  intros Hk. pose proof (li_layout _ _ Hinv) as HL.
  set (ws1 := copies (log_at l) (lh_at l) (blk s) n).
  assert (take k (commit_writes s) = (ws1 ++ [(log_start l, commit_head s)]) ++ copies (lh_at l) (lh_at l) (blk s) (k - n - 1)) as E.
  { rewrite /commit_writes -/l -/n -/ws1 app_assoc take_app_ge ?length_app ?length_copies /=; [lia|].
    f_equal. rewrite take_app_le ?length_copies; [lia|]. rewrite take_copies; [lia|]. f_equal. lia. }
  assert (∀ b, ¬ in_log l b → b ∉ ws1.*1 ∧ b ≠ log_start l) as Hout.
  { intros b Hb. split.
    - apply copies_notin. intros j Hj ->. apply Hb. by apply (log_at_in s).
    - intros ->. apply Hb. pose proof (ll_size _ _ HL). fold l in H. rewrite /in_log. lia. }
  assert (∀ b, in_log l b → b ∉ (copies (lh_at l) (lh_at l) (blk s) (k - n - 1)).*1) as Hin.
  { intros b Hb. apply copies_notin. intros j Hj ->. destruct (ll_home _ _ HL j) as [_ Hn]; [fold l n; lia|done]. }
  rewrite /crash_disk E write_view_app. split_and!.
  - rewrite write_view_notin; [apply Hin; pose proof (ll_size _ _ HL) as Hsz; fold l in Hsz; rewrite /in_log; lia|].
    by rewrite write_view_app /= fn_lookup_insert.
  - intros j Hj. rewrite write_view_notin; [by apply Hin, (log_at_in s)|].
    rewrite write_view_app /= fn_lookup_insert_ne; [rewrite /log_at; lia|].
    apply (write_view_copies_at (log_at l) (lh_at l)); [|done]. intros ? ? _ _. apply log_at_inj.
  - intros b Hb Hbl. destruct (Hout b Hb) as [Hb1 Hb2]. rewrite write_view_notin.
    { apply copies_notin. intros j Hj ->. apply Hbl, (logged_elem s l _ HL). exists j. fold n. split; [lia|done]. }
    rewrite write_view_app /= fn_lookup_insert_ne; [congruence|]. by apply write_view_notin.
  - intros j Hj. apply (write_view_copies_at (lh_at l) (lh_at l)); [|done].
    intros i1 i2 Hi1 Hi2. apply (lh_at_inj i1 i2); lia.
Qed.

Lemma commit_head_ok : head_ok s l (commit_head s) ∧ hd_n (commit_head s) = Z.of_nat n ∧
  ∀ k, (k < n)%nat → hd_block k (commit_head s) = lh_at l k.
Proof.
  pose proof (li_layout _ _ Hinv) as HL. fold l in HL. pose proof (ll_n _ _ HL) as Hn.
  pose proof (blk_len _ _ (log_start l) (li_bio _ _ Hinv)) as Hlen.
  assert (Z.of_nat n ≤ LOGSIZE) as Hn' by (rewrite /n /lh_len; lia).
  assert (hd_n (commit_head s) = Z.of_nat n) as En by by apply hd_n_head_data.
  assert (∀ k, (k < n)%nat → hd_block k (commit_head s) = lh_at l k) as Eb.
  { intros k Hk. apply hd_block_head_data; [done..|].
    destruct (ll_home _ _ HL k Hk) as [[[? ?] Hlt] _]. rewrite /FSSIZE in Hlt. change (0 ≤ lh_at l k < 2 ^ 31). lia. }
  split_and!; [|done|done]. split.
  - rewrite En. lia.
  - rewrite En. pose proof (ll_fits _ _ HL). rewrite /n /lh_len. lia.
  - rewrite En Nat2Z.id. intros k Hk. rewrite Eb //. by apply (ll_home _ _ HL).
Qed.

Lemma hd_n_clear d : length d = 512%nat → hd_n (hd_set_n 0 d) = 0.
Proof. intros Hd. rewrite /hd_n /hd_set_n get32_set32; [lia|done]. Qed.

(** After the last write: the log is empty again and every home block is new. *)
Lemma crash_late k :
  (2 * n + 2 ≤ k)%nat →
  hd_n (crash_disk k (log_start l)) = 0 ∧ (∀ b, ¬ in_log l b → crash_disk k b = committed s b).
Proof.
  intros Hk. pose proof (li_layout _ _ Hinv) as HL. fold l in HL.
  assert (take k (commit_writes s) = take (2 * n + 1) (commit_writes s) ++ [(log_start l, hd_set_n 0 (commit_head s))]) as E.
  { rewrite take_ge.
    { rewrite /commit_writes -/l -/n !length_app !length_copies /=. lia. }
    rewrite {2}/commit_writes -/l -/n !app_assoc take_app_le; [rewrite !length_app !length_copies /=; lia|].
    rewrite take_ge; [rewrite !length_app !length_copies /=; lia|]. by rewrite /commit_writes -/l -/n !app_assoc. }
  rewrite /crash_disk E write_view_app. fold (crash_disk (2 * n + 1)). split.
  - rewrite /= fn_lookup_insert hd_n_clear // length_head_data. apply (blk_len H0), Hinv.
  - intros b Hb. rewrite /= fn_lookup_insert_ne.
    { intros <-. apply Hb. pose proof (ll_size _ _ HL). rewrite /in_log. lia. }
    rewrite /committed -/l. case_bool_decide as Hbl.
    + apply (logged_elem s l _ HL) in Hbl as (j & Hj & ->).
      apply crash_middle; [lia|]. fold n in Hj. lia.
    + apply crash_middle; [lia|done|done].
Qed.

(** What recovery makes of the disk left by a crash after [k] writes. *)
Lemma crash_recovered k :
  let V := crash_disk k in
  head_ok s l (V (log_start l)) ∧
  ∀ b, ¬ in_log l b →
    write_view (recover_writes l V) V b = if bool_decide (k ≤ n)%nat then dblock s b else committed s b.
Proof.
  intros V. pose proof (li_layout _ _ Hinv) as HL. fold l in HL.
  assert (∀ b, ¬ in_log l b → b ≠ log_start l) as Hne.
  { intros b Hb ->. apply Hb. pose proof (ll_size _ _ HL). rewrite /in_log. lia. }
  assert (hd_n (V (log_start l)) = 0 → head_ok s l (V (log_start l)) ∧
    ∀ b, ¬ in_log l b → write_view (recover_writes l V) V b = V b) as Hempty.
  { intros E. split.
    - split; rewrite E; [rewrite /LOGSIZE /MAXOPBLOCKS; lia|pose proof (ll_size _ _ HL); lia|simpl; lia].
    - intros b Hb. rewrite /recover_writes E write_view_app /= fn_lookup_insert_ne //. by apply not_eq_sym, Hne. }
  case_bool_decide as Hk; [|destruct (decide (k ≤ 2 * n + 1)%nat) as [Hk2|Hk2]].
  - destruct (crash_early k Hk) as [E1 E2]. destruct Hempty as [Ho Hr].
    { subst V. rewrite E2. apply (li_head _ _ Hinv). }
    split; [done|]. intros b Hb. rewrite Hr //. by apply E1.
  - destruct (crash_middle k) as (E1 & E2 & E3 & _); [lia|]. destruct commit_head_ok as (Ho & En & Eb).
    subst V. rewrite E1. split; [done|]. intros b Hb.
    rewrite /recover_writes E1 write_view_app /= fn_lookup_insert_ne; [by apply not_eq_sym, Hne|].
    rewrite En Nat2Z.id /committed -/l. case_bool_decide as Hbl.
    + apply (logged_elem s l _ HL) in Hbl as (j & Hj & ->). fold n in Hj. rewrite -(Eb j Hj).
      rewrite (write_view_copies_at (λ k, hd_block k (commit_head s)) (log_at l)) ?(Eb j) //; [|by apply E2].
      intros i1 i2 Hi1 Hi2. rewrite !Eb //. by apply lh_at_inj.
    + rewrite write_view_notin; [|by apply E3]. apply copies_notin. intros j Hj. rewrite Eb // => Ej.
      apply Hbl, (logged_elem s l _ HL). by exists j.
  - destruct (crash_late k) as [E1 E2]; [lia|]. destruct (Hempty E1) as [Ho Hr]. split; [done|].
    intros b Hb. rewrite Hr //. by apply E2.
Qed.

End crash.

(** A reboot from [s] with disk contents [B]: an empty cache, and the log's
    place on the disk found again. *)
Record rebooted (s : kstate) (B : gmap Z (list Z)) (r : kstate) : Prop := {
  rb_bio : bio_inv ∅ r;
  rb_clean b : ¬ dirty r b;
  rb_blocks : dk_blocks (k_bio r) = B;
  rb_size : dk_size (k_bio r) = dk_size (k_bio s);
  rb_log : log_layout r (k_log r);
  rb_start : log_start (k_log r) = log_start (k_log s);
  rb_lsize : log_size (k_log r) = log_size (k_log s)
}.

Lemma head_ok_reboot s B r d : rebooted s B r → head_ok s (k_log s) d → head_ok r (k_log r) d.
Proof.
  intros [? ? ? Hsz ? Hst Hls] [Hn Hf Hh]. split; [done|by rewrite Hls|].
  intros k Hk. rewrite /on_disk /in_log Hsz Hst Hls. by apply Hh.
Qed.

Lemma rebooted_blk s B r b : rebooted s B r → blk r b = default (replicate 512 0) (B !! b).
Proof.
  intros [HI Hc <- _ _ _ _]. apply (clean_blk ∅ r b HI); [|apply Hc]. intros i x Hi. set_solver.
Qed.

Section reboot.
Context `{IdeDriver}.

(** Recovery after a reboot, given the contents [V] of the disk. *)
Lemma recover_reboot s B r (V : Z → list Z) :
  rebooted s B r → (∀ b, default (replicate 512 0) (B !! b) = V b) →
  head_ok s (k_log s) (V (log_start (k_log s))) →
  ∃ r', recover_from_log r = Ok tt r' ∧
    dk_trace (k_bio r') = dk_trace (k_bio r) ++ recover_writes (k_log s) V ∧
    dk_blocks (k_bio r') = write_all (recover_writes (k_log s) V) (dk_blocks (k_bio r)) ∧
    ∀ b, dblock r' b = write_view (recover_writes (k_log s) V) V b.
Proof.
  intros Hrb HV Hh. pose proof Hrb as [HI Hc HB Hsz HL Hst Hls].
  assert (∀ b, blk r b = V b) as Hblk by (intros b; by rewrite (rebooted_blk s B)).
  destruct (recover_Ok ∅ r) as (r' & Hrun & HI' & El & P).
  - split; [done|done| |done|by intros b i x Hi; set_solver|rewrite size_empty /NBUF; lia].
    rewrite Hblk Hst. by apply (head_ok_reboot s B).
  - assert (recover_writes (k_log r) (blk r) = recover_writes (k_log s) V) as E.
    { rewrite /recover_writes Hst !Hblk. f_equal. apply list_fmap_ext. intros j k [-> Hk]%lookup_seq.
      by rewrite Hblk /log_at Hst. }
    rewrite E in P. exists r'. split_and!; [done|apply P|apply P|].
    intros b. rewrite /dblock (bp_blocks _ _ _ _ _ _ _ P) write_all_lookup. apply write_view_ext.
    intros b'. by rewrite HB.
Qed.

End reboot.

Lemma write_view_agree ws V V' b :
  b ∈ ws.*1 ∨ V b = V' b → write_view ws V b = write_view ws V' b.
Proof.
  revert V V'. induction ws as [|[c d] ws IH]; intros V V' Hb.
  { destruct Hb as [Hb|?]; [by apply elem_of_nil in Hb|done]. }
  change (write_view ws (<[c := d]> V) b = write_view ws (<[c := d]> V') b). apply IH.
  destruct (decide (b = c)) as [->|Hne]; [right; by rewrite !fn_lookup_insert|].
  rewrite !fn_lookup_insert_ne; [congruence..|]. destruct Hb as [Hb|?]; [left|by right].
  simpl in Hb. set_solver.
Qed.

(** Recovery interrupted after [j] of its writes and run again. *)
Lemma recover_again s l V j :
  log_layout s l → head_ok s l (V (log_start l)) → length (V (log_start l)) = 512%nat →
  let V' := write_view (take j (recover_writes l V)) V in
  head_ok s l (V' (log_start l)) ∧
  ∀ b, ¬ in_log l b → write_view (recover_writes l V') V' b = write_view (recover_writes l V) V b.
Proof.
  intros HL Hh Hlen V'. set (d := V (log_start l)) in *. set (n := Z.to_nat (hd_n d)).
  set (ws := copies (λ k, hd_block k d) (log_at l) V n).
  assert (in_log l (log_start l)) as Hst by (pose proof (ll_size _ _ HL); rewrite /in_log; lia).
  assert (∀ b, in_log l b → ∀ k, b ∉ (copies (λ k, hd_block k d) (log_at l) V (k `min` n)).*1) as Hin.
  { intros b Hb k. apply copies_notin. intros i Hi ->. destruct (ho_home _ _ _ Hh i) as [_ ?]; [fold n; lia|done]. }
  destruct (decide (j ≤ n)%nat) as [Hj|Hj].
  - assert (V' = write_view (copies (λ k, hd_block k d) (log_at l) V (j `min` n)) V) as EV.
    { rewrite /V' /recover_writes -/d -/n take_app_le ?length_copies // take_copies //. by rewrite Nat.min_l. }
    assert (∀ b, in_log l b → V' b = V b) as Hlog by (intros b Hb; rewrite EV; apply write_view_notin, Hin, Hb).
    rewrite Hlog //. split; [done|]. intros b Hb.
    assert (recover_writes l V' = recover_writes l V) as ->.
    { rewrite /recover_writes Hlog // -/d. f_equal. apply list_fmap_ext. intros i k [-> Hk]%lookup_seq.
      rewrite Hlog //. pose proof (ho_fits _ _ _ Hh). pose proof (ho_n _ _ _ Hh). rewrite /in_log /log_at. lia. }
    apply write_view_agree. rewrite EV. destruct (decide (b ∈ (copies (λ k, hd_block k d) (log_at l) V (j `min` n)).*1)) as [Hbc|Hbc].
    + left. rewrite /recover_writes -/d -/n fmap_app elem_of_app. left.
      apply list_elem_of_fmap in Hbc as ([c e] & -> & Hbc). apply list_elem_of_fmap_2. 
      apply list_elem_of_fmap in Hbc as (k & -> & Hk%elem_of_seq). apply list_elem_of_fmap. exists k.
      split; [done|]. apply elem_of_seq. lia.
    + right. by apply write_view_notin.
  - assert (V' = write_view (recover_writes l V) V) as EV.
    { rewrite /V' take_ge // /recover_writes -/d -/n length_app length_copies /=. lia. }
    assert (hd_n (V' (log_start l)) = 0) as E0.
    { rewrite EV /recover_writes -/d write_view_app /= fn_lookup_insert. by apply hd_n_clear. }
    split.
    + split; rewrite E0; [rewrite /LOGSIZE /MAXOPBLOCKS; lia|pose proof (ll_size _ _ HL); lia|simpl; lia].
    + intros b Hb. rewrite {1}/recover_writes E0 write_view_app /= fn_lookup_insert_ne; [|by rewrite EV].
      intros <-. done.
Qed.
