(* ===== verification/LogOps.v ===== *)
(** * Transactions: begin_op, log_write, end_op

    The three calls a file system operation makes, and the crash safety of the
    transaction they build. *)

From S2P Require Import Prelude Param Bytes State Spinlock Sched Sleeplock Bio Memide BioSpec Log LogSpec.

(** ** log_write *)

(** The header after logging block [b]: absorbed when already there. *)
Definition log_add (b : Z) (l : log) : log :=
  if bool_decide (b ∈ logged l) then l
  else set_lh (Logheader (lh_n (log_lh l) + 1) (<[lh_len l := b]> (lh_block (log_lh l)))) l.

Lemma logged_add s l b :
  log_layout s l → lh_n (log_lh l) < LOGSIZE →
  logged (log_add b l) = if bool_decide (b ∈ logged l) then logged l else logged l ++ [b].
Proof.
  intros HL Hn. rewrite /log_add. case_bool_decide; [done|].
  pose proof (ll_n _ _ HL) as Hn0. pose proof (ll_arr _ _ HL) as Harr.
  rewrite /logged /lh_len /=. replace (Z.to_nat (lh_n (log_lh l) + 1)) with (S (lh_len l)) by (rewrite /lh_len; lia).
  rewrite (take_S_r _ _ b); [|by rewrite take_insert_ge].
  apply list_lookup_insert_eq. rewrite Harr /lh_len. lia.
Qed.

Lemma log_slot_in s l b :
  log_layout s l → b ∈ logged l →
  ∃ i, log_slot b (log_lh l) = i ∧ (i < lh_len l)%nat ∧ lh_at l i = b.
Proof.
  intros HL Hb. rewrite /log_slot. fold (lh_len l) (logged l).
  destruct (first _ _) as [i|] eqn:Hf.
  - apply first_Some in Hf as (c & Hc & Hm%Z.eqb_eq & _). exists i.
    assert (i < lh_len l)%nat as Hi.
    { apply lookup_lt_Some in Hc. by rewrite (length_logged s) in Hc. }
    rewrite (logged_at s) // in Hc. injection Hc as <-. split_and!; [done|done|].
    destruct (ll_home _ _ HL i Hi) as [Hd _]. by rewrite (u32_on_disk s) in Hm.
  - apply (logged_elem s l _ HL) in Hb as (k & Hk & ->).
    pose proof (proj1 (first_None _ _) Hf k _ (logged_at s l k HL Hk)) as Hn. simpl in Hn.
    destruct (ll_home _ _ HL k Hk) as [Hd _]. rewrite (u32_on_disk s) // Z.eqb_refl // in Hn.
Qed.

Lemma log_slot_out s l b :
  log_layout s l → b ∉ logged l → log_slot b (log_lh l) = lh_len l.
Proof.
  intros HL Hb. rewrite /log_slot. fold (lh_len l) (logged l).
  destruct (first _ _) as [i|] eqn:Hf; [|done].
  apply first_Some in Hf as (c & Hc & Hm%Z.eqb_eq & _). destruct Hb.
  assert (i < lh_len l)%nat as Hi.
  { apply lookup_lt_Some in Hc. by rewrite (length_logged s) in Hc. }
  rewrite (logged_at s) // in Hc. injection Hc as <-. destruct (ll_home _ _ HL i Hi) as [Hd _].
  rewrite (u32_on_disk s) // in Hm. subst b. apply (logged_elem s l _ HL). eauto.
Qed.

(** The two assignments to the header, whichever index the search stops at. *)
Lemma log_slot_run s l b :
  k_log s = l → log_layout s l → lh_n (log_lh l) < LOGSIZE → on_disk s b →
  (lh_block_set (log_slot b (log_lh l)) (s32 b);;
   when (Z.of_nat (log_slot b (log_lh l)) =? lh_n (log_lh l)) (lh_n_set (lh_n (log_lh l) + 1))) s =
  Ok tt (set_log (log_add b l) s).
Proof.
  intros El HL Hn Hb. pose proof (ll_n _ _ HL) as Hn0. pose proof (ll_arr _ _ HL) as Harr.
  assert (s32 b = b) as Es. { apply s32_id. destruct Hb as [[? ?] Hlt]. rewrite /FSSIZE in Hlt. lia. }
  rewrite /log_add. case_bool_decide as Hin.
  - destruct (log_slot_in s l b HL Hin) as (i & -> & Hi & Hat).
    pose proof (lh_len_arr _ _ _ HL Hi) as Hia.
    rewrite /lh_block_set bind_assoc bind_gets El bool_decide_eq_true_2 // bind_modify.
    replace (Z.of_nat i =? lh_n (log_lh l)) with false by (rewrite /lh_len in Hi; lia).
    rewrite El Es list_insert_id; [by rewrite /lh_at in Hat; destruct (lookup_lt_is_Some_2 _ _ Hia) as [c Ec]; rewrite Ec in Hat |- *; simpl in Hat; subst|].
    rewrite /=. by destruct l as [? ? ? ? ? []].
  - rewrite (log_slot_out s) // /lh_block_set bind_assoc bind_gets El bool_decide_eq_true_2.
    { rewrite Harr /lh_len. lia. }
    rewrite bind_modify El Es {2}/lh_len Z2Nat.id ?Z.eqb_refl; [lia|]. done.
Qed.

Lemma layout_add s l b :
  log_layout s l → lh_n (log_lh l) < LOGSIZE → lh_n (log_lh l) < log_size l - 1 →
  on_disk s b → ¬ in_log l b → log_layout s (log_add b l).
Proof.
  intros HL Hn Hs Hb Hnb. pose proof HL as [? ? ? ? Harr Hn0 Hf Hh]. rewrite /log_add.
  case_bool_decide as Hin; [done|]. split; try done; simpl.
  - by rewrite length_insert.
  - lia.
  - lia.
  - intros k Hk. rewrite /lh_at /=. rewrite /lh_len /= in Hk.
    destruct (decide (k = lh_len l)) as [->|Hne].
    + rewrite list_lookup_insert_eq //. rewrite Harr /lh_len. lia.
    + rewrite list_lookup_insert_ne; [congruence|]. apply Hh. rewrite /lh_len in Hne |- *. lia.
Qed.

Lemma log_add_fields b l :
  log_start (log_add b l) = log_start l ∧ log_size (log_add b l) = log_size l ∧
  log_outstanding (log_add b l) = log_outstanding l ∧ log_committing (log_add b l) = log_committing l.
Proof. rewrite /log_add. by case_bool_decide. Qed.

Lemma log_inv_calm H0 s : log_inv H0 s → calm s.
Proof. intros HI. apply (bi_calm _ _ (li_bio _ _ HI)). Qed.

Lemma log_write_Ok H0 s i x :
  let l := k_log s in let b := b_blockno x in
  log_inv H0 s → i ∈ H0 → bufs s !! i = Some x → ¬ in_log l b →
  lh_n (log_lh l) < LOGSIZE → lh_n (log_lh l) < log_size l - 1 → 1 ≤ log_outstanding l →
  ∃ s', log_write i s = Ok tt s' ∧ log_inv H0 s' ∧ k_log s' = log_add b l ∧
    bufs s' !! i = Some (set_flags (Z.lor B_VALID B_DIRTY) x) ∧
    bio_post (H0 ∖ {[i]}) (set_log (log_add b l) s) s' (blk s) (λ c, c = b ∨ dirty s c)
      (dk_blocks (k_bio s)) (dk_trace (k_bio s)).
Proof.
  intros l b HI Hi Hx Hnb Hn Hsz Ho. pose proof HI as [HB HL Hnd Hd Hhd]. pose proof (log_inv_calm _ _ HI) as Hc.
  destruct (bi_buf _ _ HB i x (held_lt _ _ _ HB Hi) Hx) as [O1 _ _ O4 _].
  destruct O4 as [(_ & _ & [])|(_ & Hon & Hfl)]; [done|].
  set (f := λ x, set_flags (Z.lor (b_flags x) B_DIRTY) x).
  assert (f x = set_flags (Z.lor B_VALID B_DIRTY) x) as Hfx by (rewrite /f; by destruct Hfl as [-> | ->]).
  set (s1 := set_log (log_add b l) (crit s)).
  assert (bio_inv H0 (crit s)) as HBc.
  { destruct HB as [? ? HBb ? ? ?]. split; try done; [by apply calm_crit|]. intros j y Hj Hy. by destruct (HBb j y Hj Hy). }
  destruct (held_upd H0 s1 i x (bio_inv_set_log _ _ _ HBc) Hi Hx f) as (Hx' & HI' & P); [done..|by rewrite Hfx; right|].
  set (s' := set_bufs (alter f i (bufs s1)) s1) in *. rewrite Hfx in Hx', P. simpl in P.
  assert (bio_post (H0 ∖ {[i]}) (set_log (log_add b l) s) s' (blk s) (λ c, c = b ∨ dirty s c)
      (dk_blocks (k_bio s)) (dk_trace (k_bio s))) as P'.
  { destruct P as [_ Pb Pd Pk Pt Psz Ph]. split; try done.
    - apply (bio_only_set_bio (k_bio s') (set_log (log_add b l) s)).
    - intros c. rewrite Pb. destruct (decide (c = b)) as [->|Hne].
      + rewrite fn_lookup_insert /=. by rewrite (blk_cached H0 s i x b HB (held_lt _ _ _ HB Hi) Hx (held_caches _ _ _ _ HB Hi Hx)).
      + rewrite fn_lookup_insert_ne //. exact (not_eq_sym Hne).
    - intros c. rewrite Pd. change (dirty s1 c) with (dirty s c). destruct (decide (c = b)) as [->|Hne]; [|naive_solver].
      split; [by left|]. intros _. by left. }
  exists s'. split_and!; [|split|done|done|done].
  - rewrite /log_write bind_gets. fold l.
    replace ((lh_n (log_lh l) >=? LOGSIZE) || (lh_n (log_lh l) >=? log_size l - 1)) with false by lia.
    replace (log_outstanding l <? 1) with false by lia.
    rewrite bind_acquire; [by apply calm_free|]. rewrite (bind_Ok _ _ _ _ _ (getbuf_Ok i x (enter LkLog s) Hx)).
    rewrite bind_gets. cbv zeta. change (k_log (enter LkLog s)) with l. fold b.
    rewrite -bind_assoc (bind_Ok _ _ _ _ _ (log_slot_run (enter LkLog s) l b _ _ _ _)) //.
    { by apply (log_layout_size s). }
    rewrite bind_modify (release_entered _ s) //; [by apply calm_free|by apply calm_cpu_ok].
  - done.
  - apply (log_layout_size s); [done|]. by apply layout_add.
  - change (k_log s') with (log_add b l). rewrite (logged_add s) //. case_bool_decide; [done|].
    apply NoDup_app. split_and!; [done|set_solver|apply NoDup_singleton].
  - intros c. change (k_log s') with (log_add b l). rewrite (bp_dirty _ _ _ _ _ _ _ P') Hd (logged_add s) //. fold l.
    case_bool_decide as Hbl; [|set_solver]. split; [by intros [->|?]|by right].
  - change (k_log s') with (log_add b l). destruct (log_add_fields b l) as (-> & _).
    by rewrite /dblock (bp_blocks _ _ _ _ _ _ _ P').
Qed.

(** ** begin_op and end_op *)

(** begin_op() lets the operation in unless a commit is running or the log could
    overflow; otherwise the process sleeps on the log. *)
Definition admits (l : log) : bool :=
  negb (log_committing l) && (lh_n (log_lh l) + (log_outstanding l + 1) * MAXOPBLOCKS <=? LOGSIZE).

Lemma begin_op_run s i p :
  calm s → k_proc s = Some i → procs s !! i = Some p →
  begin_op s =
    if admits (k_log s) then Ok tt (set_log (set_outstanding (log_outstanding (k_log s) + 1) (k_log s)) (crit s))
    else Switch (SwSleep ChLog LkLog (eflags_IF (k_cpu s)))
           (set_procs (alter (asleep ChLog) i (procs s)) (enter LkPtable (crit s))).
Proof.
  intros Hc Hi Hp. rewrite /begin_op bind_acquire; [by apply calm_free|]. rewrite /begin_op_loop bind_gets.
  change (k_log (enter LkLog s)) with (k_log s). rewrite /admits.
  destruct (log_committing (k_log s)); simpl.
  { by rewrite (sleep_Switch _ _ s i p); [done|by apply calm_free|by apply calm_free|by apply calm_ncli|..]. }
  destruct (lh_n (log_lh (k_log s)) + (log_outstanding (k_log s) + 1) * MAXOPBLOCKS >? LOGSIZE) eqn:E.
  - replace (_ <=? LOGSIZE) with false by lia.
    by rewrite (sleep_Switch _ _ s i p); [done|by apply calm_free|by apply calm_free|by apply calm_ncli|..].
  - replace (_ <=? LOGSIZE) with true by lia. rewrite /updlog bind_modify.
    rewrite (release_entered _ s) //; [by apply calm_free|by apply calm_cpu_ok].
Qed.

(** The log with the counters of begin_op() and end_op() changed. *)
Definition set_counts (o : Z) (c : bool) (l : log) : log := set_committing c (set_outstanding o l).

Lemma log_inv_counts H0 s s' o c :
  log_inv H0 s → settled s s' → log_inv H0 (set_log (set_counts o c (k_log s)) s').
Proof.
  intros [HB HL Hnd Hd Hhd] Hs. pose proof (settled_fields _ _ Hs) as (_ & _ & Hsl & _ & Hbio & _).
  split; try done.
  - apply bio_inv_set_log. destruct HB as [Hc [l Hl] HBb Hu Hdk Hh].
    split; rewrite /bufs /dblock ?Hbio; try done.
    + by apply (settled_calm _ _ Hs).
    + by exists l.
    + intros i x Hi Hx. destruct (HBb i x Hi Hx). split; rewrite /slock_of /on_disk /dblock ?Hsl ?Hbio //.
  - destruct HL as [? ? ? Hdk ? ? ? Hh]. by split; rewrite /on_disk /= ?Hbio.
  - intros b. rewrite -Hd /dirty /bufs /= Hbio. done.
  - rewrite /dblock /= Hbio. done.
Qed.

(** What commit() leaves behind, as seen by readers. *)
Lemma commit_view H0 s b :
  log_inv H0 s → ¬ in_log (k_log s) b → write_view (commit_writes s) (blk s) b = blk s b.
Proof.
  intros HI Hb. pose proof (li_layout _ _ HI) as HL. set (l := k_log s) in *.
  assert (b ≠ log_start l) as Hbs.
  { intros ->. apply Hb. pose proof (ll_size _ _ HL). rewrite /in_log. lia. }
  assert (b ∉ (copies (log_at l) (lh_at l) (blk s) (lh_len l)).*1) as Hb1.
  { apply copies_notin. intros k Hk ->. apply Hb. by apply (log_at_in s). }
  rewrite /commit_writes -/l write_view_app /= write_view_app /= fn_lookup_insert_ne; [congruence|].
  destruct (decide (b ∈ logged l)) as [Hbl|Hbl].
  - apply (logged_elem s l _ HL) in Hbl as (k & Hk & ->).
    apply (write_view_copies_at (lh_at l) (lh_at l)); [|done]. intros i j Hi Hj. by apply (lh_at_inj H0 s HI).
  - rewrite write_view_notin.
    { apply copies_notin. intros k Hk ->. apply Hbl, (logged_elem s l _ HL). eauto. }
    rewrite fn_lookup_insert_ne; [congruence|]. by apply write_view_notin.
Qed.

Lemma log_wakeup_Ok s f :
  calm s →
  (acquire LkLog;; updlog f;; wakeup ChLog;; release LkLog) s =
    Ok tt (set_log (f (k_log s)) (set_procs (wake ChLog <$> procs s) (crit s))).
Proof.
  intros Hc. pose proof (calm_cpu_ok _ Hc) as Hok. rewrite bind_acquire; [by apply calm_free|].
  rewrite /updlog bind_modify (bind_Ok _ _ _ _ _ (wakeup_Ok _ _ _ _)).
  - rewrite /= lookup_insert_ne //. by apply calm_free.
  - by apply push_cpu_ok.
  - destruct Hok as [H0 H1]. rewrite (release_entered _ s) //=; [by apply calm_free|].
    rewrite /crit_cpu /push_cpu /=. by replace (ncli (k_cpu s) + 1 =? 0) with false by lia.
Qed.

Section end_op.
Context `{IdeDriver}.

(** commit(), whether or not there is something to write. *)
Lemma commit_any H0 s :
  commit_pre H0 s →
  ∃ s', commit s = Ok tt s' ∧ log_inv H0 s' ∧ k_log s' = empty_head (k_log s) ∧
    bio_only (set_log (k_log s') s) s' ∧
    (∀ b, ¬ in_log (k_log s) b → blk s' b = blk s b ∧ dblock s' b = committed s b) ∧
    dk_trace (k_bio s') = dk_trace (k_bio s) ++ (if bool_decide (0 < lh_len (k_log s))%nat then commit_writes s else []).
Proof.
  intros Hpre. pose proof (cp_inv _ _ Hpre) as HI. pose proof (li_layout _ _ HI) as HL. case_bool_decide as Hn.
  - destruct (commit_Ok H0 s Hpre Hn) as (s' & Hrun & HB & El & P).
    assert (∀ b, dblock s' b = crash_disk s (length (commit_writes s)) b) as Hdb.
    { intros b. rewrite /dblock (bp_blocks _ _ _ _ _ _ _ P) write_all_lookup /crash_disk take_ge //. }
    destruct (crash_late H0 s HI (length (commit_writes s))) as [E1 E2].
    { rewrite /commit_writes !length_app !length_copies /=. lia. }
    exists s'. split_and!; [done| |done|rewrite El; apply P| |apply P].
    + split; rewrite ?El; [done| | | |].
      * apply (log_layout_post _ _ _ _ _ _ _ _ P). apply (log_layout_size s); [done|]. by apply layout_empty.
      * apply NoDup_nil_2.
      * intros b. rewrite (bp_dirty _ _ _ _ _ _ _ P) elem_of_nil //.
      * by rewrite Hdb.
    + intros b Hb. split; [rewrite (bp_blk _ _ _ _ _ _ _ P); by apply (commit_view H0)|]. rewrite Hdb. by apply E2.
  - exists s. assert (k_log s = empty_head (k_log s)) as El.
    { pose proof (ll_n _ _ HL). rewrite /lh_len in Hn. destruct (k_log s) as [? ? ? ? ? [m bl]]. simpl in *.
      rewrite /empty_head /=. by replace m with 0 by lia. }
    split_and!; [|done|done| | |by rewrite app_nil_r].
    + rewrite /commit bind_gets. replace (lh_n (log_lh (k_log s)) >? 0) with false; [done|].
      rewrite /lh_len in Hn. lia.
    + destruct s; apply bio_only_refl.
    + intros b Hb. split; [done|]. rewrite /committed bool_decide_eq_false_2 //.
      rewrite (logged_elem s _ b HL). intros (k & Hk & _). lia.
Qed.

Lemma commit_pre_counts H0 s s' o c :
  commit_pre H0 s → settled s s' → commit_pre H0 (set_log (set_counts o c (k_log s)) s').
Proof.
  intros [HI Hu Hcap] Hs. split; [by apply log_inv_counts| |done].
  intros b Hb i x Hi Hx. apply (Hu b Hb i x Hi). pose proof (settled_fields _ _ Hs) as (_ & _ & _ & _ & Hbio & _).
  by rewrite /bufs /= Hbio in Hx.
Qed.

(** The last operation out commits; the counters are reset and waiting
    operations are woken. *)
Lemma end_op_last H0 s :
  commit_pre H0 s → log_outstanding (k_log s) = 1 → log_committing (k_log s) = false →
  ∃ s', end_op s = Ok tt s' ∧ log_inv H0 s' ∧
    k_log s' = set_counts 0 false (empty_head (k_log s)) ∧
    bio_only (set_log (k_log s') s) s' ∧
    (∀ b, ¬ in_log (k_log s) b → blk s' b = blk s b ∧ dblock s' b = committed s b) ∧
    dk_trace (k_bio s') = dk_trace (k_bio s) ++ (if bool_decide (0 < lh_len (k_log s))%nat then commit_writes s else []).
Proof.
  intros Hpre Ho Hc. pose proof (log_inv_calm _ _ (cp_inv _ _ Hpre)) as Hcalm. set (l := k_log s) in *.
  set (s1 := set_log (set_counts 0 true l) (crit s)).
  assert (commit_pre H0 s1) as Hpre1 by (apply commit_pre_counts; [done|apply settled_crit]).
  destruct (commit_any H0 s1 Hpre1) as (s2 & Hr2 & HI2 & El2 & Hb2 & Hv2 & Ht2).
  pose proof (log_inv_calm _ _ HI2) as Hcalm2. change (k_log s1) with (set_counts 0 true l) in *.
  set (s3 := set_procs (wake ChLog <$> procs s2) (crit s2)).
  assert (settled s2 s3) as Hs3 by apply settled_wake.
  set (s4 := set_log (set_counts 0 false (empty_head l)) s3).
  exists s4. split.
  { rewrite /end_op bind_acquire; [by apply calm_free|]. rewrite bind_gets. change (k_log (enter LkLog s)) with l.
    rewrite /updlog bind_modify Hc Ho /= bind_assoc bind_modify bind_ret.
    rewrite (bind_release _ _ s) //; [by apply calm_free|by apply calm_cpu_ok|]. simpl.
    change (set_cpu _ _) with s1. rewrite (bind_Ok _ _ _ _ _ Hr2) (log_wakeup_Ok s2) // El2. done. }
  assert (log_inv H0 s4) as HI4.
  { pose proof (log_inv_counts H0 s2 s3 0 false HI2 Hs3) as HI4. by rewrite El2 in HI4. }
  pose proof (settled_fields _ _ Hs3) as (_ & _ & _ & _ & Hbio & _).
  split_and!; [done|done| | |].
  - change (k_log s4) with (set_counts 0 false (empty_head l)).
    pose proof (bio_only_trans _ _ _ Hb2 (settled_bio_only _ _ Hs3)) as [Hs Hs'].
    split; [|done]. apply (set_log_settled (set_counts 0 false (empty_head l))) in Hs.
    etransitivity; [|exact Hs]. exact (settled_crit (set_slocks (k_slocks s4) (set_bio (k_bio s4) (set_log (k_log s4) s)))).
  - intros b Hb. destruct (Hv2 b Hb) as [Hv Hd].
    by split.
  - exact Ht2.
Qed.

End end_op.

(** ** A logged write

    The pattern of the comment above log_write(): read, modify, log, release. *)

Section tx.
Context `{IdeDriver}.

Lemma log_inv_post H0 H1 J s s' :
  log_inv H0 s → bio_inv H1 s' →
  bio_post J s s' (blk s') (dirty s) (dk_blocks (k_bio s)) (dk_trace (k_bio s)) → log_inv H1 s'.
Proof.
  intros [HB HL Hnd Hd Hhd] HB' P. pose proof (bio_only_log _ _ (bp_only _ _ _ _ _ _ _ P)) as El.
  split; rewrite ?El; try done.
  - by apply (log_layout_post _ _ _ _ _ _ _ _ P).
  - intros b. rewrite (bp_dirty _ _ _ _ _ _ _ P). apply Hd.
  - by rewrite /dblock (bp_blocks _ _ _ _ _ _ _ P).
Qed.

Definition tx_write (b : Z) (f : list Z → list Z) : K unit :=
  i ← bread 1 b;
  updbuf i (λ x, set_data (f (b_data x)) x);;
  log_write i;;
  brelse i.

Lemma tx_write_Ok H0 s b f :
  let l := k_log s in
  log_inv H0 s → on_disk s b → ¬ in_log l b → unheld H0 s b → room s b →
  (length (f (blk s b)) = 512)%nat →
  lh_n (log_lh l) < LOGSIZE → lh_n (log_lh l) < log_size l - 1 → 1 ≤ log_outstanding l →
  ∃ s', tx_write b f s = Ok tt s' ∧ log_inv H0 s' ∧ k_log s' = log_add b l ∧
    bio_post H0 (set_log (log_add b l) s) s' (<[b := f (blk s b)]> (blk s)) (λ c, c = b ∨ dirty s c)
      (dk_blocks (k_bio s)) (dk_trace (k_bio s)).
Proof.
  intros l HI Hb Hnb Hu Hr Hlen Hn Hsz Ho. pose proof (li_bio _ _ HI) as HB.
  destruct (bread_Ok H0 s b) as (i & x & s1 & Hr1 & HiH & Hx & [Hxd Hxb] & Hdx & Hfx & HB1 & P1); [done..|].
  pose proof (bio_only_log _ _ (bp_only _ _ _ _ _ _ _ P1)) as El1. fold l in El1.
  assert (i ∈ {[i]} ∪ H0) as Hi by set_solver.
  assert (b_flags x = B_VALID ∨ b_flags x = Z.lor B_VALID B_DIRTY) as Hfl.
  { destruct (ok_flags _ _ _ _ (bi_buf _ _ HB1 i x (held_lt _ _ _ HB1 Hi) Hx)) as [(_ & ? & _)|(_ & _ & ?)]; [congruence|done]. }
  destruct (held_upd _ s1 i x HB1 Hi Hx (λ x, set_data (f (b_data x)) x)) as (Hx2 & HB2 & P2); [done..|by rewrite /= Hdx|done|].
  set (s2 := set_bufs _ s1) in *. rewrite Hdx in Hx2. rewrite Hxb Hdx /= in P2.
  replace (({[i]} ∪ H0) ∖ {[i]}) with H0 in P2 by set_solver.
  assert (∀ c, dirty s2 c ↔ dirty s c) as Hd2.
  { intros c. rewrite (bp_dirty _ _ _ _ _ _ _ P2) (bp_dirty _ _ _ _ _ _ _ P1).
    destruct (decide (c = b)) as [->|Hne]; [rewrite -Hfx; clear; tauto|clear -Hne; tauto]. }
  assert (log_inv ({[i]} ∪ H0) s2) as HI2.
  { apply (log_inv_post H0 _ H0 s s2 HI HB2).
    apply (bio_post_ext _ _ _ _ _ _ _ _ _ _ _ (bio_post_trans _ _ _ _ _ _ _ _ _ _ _ _ _ P1 P2 ltac:(done))).
    - intros c. symmetry. apply P2.
    - intros c. rewrite -(bp_dirty _ _ _ _ _ _ _ P2). apply Hd2.
    - apply P1.
    - apply P1. }
  destruct (log_write_Ok ({[i]} ∪ H0) s2 i _ HI2 Hi Hx2) as (s3 & Hr3 & HI3 & El3 & Hx3 & P3); simpl; rewrite ?El1 ?Hxb //.
  rewrite /= El1 Hxb in El3, P3. replace (({[i]} ∪ H0) ∖ {[i]}) with H0 in P3 by set_solver.
  destruct (brelse_Ok ({[i]} ∪ H0) s3 i _ (li_bio _ _ HI3) Hi Hx3) as (s4 & Hr4 & HB4 & P4); [done|].
  replace (({[i]} ∪ H0) ∖ {[i]}) with H0 in HB4, P4 by set_solver.
  pose proof (bio_only_log _ _ (bp_only _ _ _ _ _ _ _ P4)) as El4. rewrite El3 in El4.
  exists s4. split_and!; [|by apply (log_inv_post _ _ H0 s3 s4 HI3 HB4); apply (bio_post_ext _ _ _ _ _ _ _ _ _ _ _ P4); [intros c; symmetry; apply P4|..]|done|].
  { rewrite /tx_write (bind_Ok _ _ _ _ _ Hr1) bind_modify. change (set_bufs _ s1) with s2.
    by rewrite (bind_Ok _ _ _ _ _ Hr3). }
  assert (bio_post H0 (set_log (log_add b l) s) (set_log (log_add b l) s2) (blk s2) (dirty s2)
    (dk_blocks (k_bio s)) (dk_trace (k_bio s))) as P2'.
  { pose proof (bio_post_trans _ _ _ _ _ _ _ _ _ _ _ _ _ P1 P2 ltac:(done)) as [[Hs Hs'] ? ? Hk Ht ? ?].
    split; try done; [|by rewrite -(bp_blocks _ _ _ _ _ _ _ P1)|by rewrite -(bp_trace _ _ _ _ _ _ _ P1)].
    split; [|done]. exact (set_log_settled _ _ _ Hs). }
  pose proof (bio_post_trans _ _ _ _ _ _ _ _ _ _ _ _ _ P2' (bio_post_trans _ _ _ _ _ _ _ _ _ _ _ _ _ P3 P4 ltac:(done)) ltac:(done)) as P.
  apply (bio_post_ext _ _ _ _ _ _ _ _ _ _ _ P).
  - intros c. rewrite (bp_blk _ _ _ _ _ _ _ P3) (bp_blk _ _ _ _ _ _ _ P2). apply insert_view_ext, P1.
  - intros c. by rewrite (bp_dirty _ _ _ _ _ _ _ P3) Hd2.
  - rewrite (bp_blocks _ _ _ _ _ _ _ P3). exact (bp_blocks _ _ _ _ _ _ _ P1).
  - rewrite (bp_trace _ _ _ _ _ _ _ P3). exact (bp_trace _ _ _ _ _ _ _ P1).
Qed.

End tx.

(** ** A running example

    Logging on the booted machine with the log at blocks 2 to 31, as mkfs places
    it; [demo_tx] is the state after an operation that fills block 50 with 7s,
    before its end_op(). *)

Definition log_booted : kstate :=
  set_log (Log 2 30 0 false 1 (Logheader 0 (replicate 30 0))) booted.

Definition demo_op `{IdeDriver} : K unit := begin_op;; tx_write 50 (λ _, replicate 512 7).

#[local] Existing Instance Memide.memide.

Definition demo_tx : kstate :=
  match demo_op log_booted with Ok _ s => s | _ => log_booted end.

(** A fresh cache with an empty log. *)
Lemma fresh_log s o c :
  fresh_cache s → log_inv ∅ (set_log (Log 2 30 o c 1 (Logheader 0 (replicate 30 0))) s).
Proof.
  intros Hf. split.
  - apply bio_inv_set_log, Hf.
  - split; [done|done|done| |done|done|done|].
    + intros b. rewrite /in_log /on_disk /= (fr_size _ Hf) /FSSIZE. lia.
    + intros k Hk. rewrite /lh_len /= in Hk. lia.
  - apply NoDup_nil_2.
  - intros b. split; [|by intros ?%elem_of_nil]. intros (i & x & _ & Hx & Hc & _).
    by apply (fresh_uncached s Hf b i x) in Hc.
  - rewrite /dblock /= (fr_blocks _ Hf) lookup_empty. done.
Qed.

Lemma unheld_empty s b : unheld ∅ s b.
Proof. intros i x Hi. by apply not_elem_of_empty in Hi. Qed.

Record demo_facts (s : kstate) : Prop := {
  df_pre : commit_pre ∅ s;
  df_log : k_log s = Log 2 30 1 false 1 (Logheader 1 (50 :: replicate 29 0));
  df_new : blk s 50 = replicate 512 7;
  df_old b : dblock s b = replicate 512 0;
  df_size : dk_size (k_bio s) = 1000
}.

Lemma demo_run s :
  fresh_cache s →
  ∃ s', demo_op (set_log (Log 2 30 0 false 1 (Logheader 0 (replicate 30 0))) s) = Ok tt s' ∧ demo_facts s'.
Proof.
  intros Hf. set (s0 := set_log _ s). pose proof (fresh_log s 0 false Hf) as HI0. fold s0 in HI0.
  pose proof (log_inv_calm _ _ HI0) as Hcalm. pose proof Hcalm as [_ _ (j & p & Hj & Hp)].
  set (s1 := set_log (Log 2 30 1 false 1 (Logheader 0 (replicate 30 0))) (crit s0)).
  assert (log_inv ∅ s1) as HI1 by exact (log_inv_counts ∅ s0 (crit s0) 1 false HI0 (settled_crit s0)).
  assert (∀ b, blk s1 b = replicate 512 0) as Hblk by (intros b; exact (fresh_blk s Hf b)).
  destruct (tx_write_Ok ∅ s1 50 (λ _, replicate 512 7)) as (s2 & Hr2 & HI2 & El2 & P2); try done.
  - rewrite /on_disk /= (fr_size _ Hf) /FSSIZE. lia.
  - rewrite /in_log /=. lia.
  - exact (fresh_room s Hf 50).
  - exists s2. split.
    { rewrite /demo_op (bind_Ok _ _ _ tt s1); [|exact Hr2].
      by rewrite (begin_op_run s0 j p). }
    assert (k_log s2 = Log 2 30 1 false 1 (Logheader 1 (50 :: replicate 29 0))) as El.
    { rewrite El2 /log_add. rewrite bool_decide_eq_false_2 //. by intros ?%elem_of_nil. }
    split; [split; [done|intros; apply unheld_empty|]|done| | |].
    + rewrite El. vm_compute. lia.
    + rewrite (bp_blk _ _ _ _ _ _ _ P2). apply fn_lookup_insert.
    + intros b. rewrite /dblock (bp_blocks _ _ _ _ _ _ _ P2). exact (fresh_dblock s Hf b).
    + rewrite (bp_size _ _ _ _ _ _ _ P2). exact (fr_size _ Hf).
Qed.

Lemma demo_tx_facts : demo_facts demo_tx.
Proof.
  rewrite /demo_tx /log_booted. generalize booted booted_fresh. intros s Hf.
  by destruct (demo_run s Hf) as (s' & -> & Hs').
Qed.

Lemma write_all_len ws B b :
  (∀ w, w ∈ ws → length w.2 = 512%nat) →
  length (default (replicate 512 0) (B !! b)) = 512%nat →
  length (default (replicate 512 0) (write_all ws B !! b)) = 512%nat.
Proof.
  revert B. induction ws as [|[c d] ws IH]; intros B Hws HB; [done|]. apply IH; [intros w Hw; apply Hws; by apply list_elem_of_further|].
  destruct (decide (b = c)) as [->|Hne].
  - rewrite lookup_insert_eq. apply (Hws (c, d)). apply list_elem_of_here.
  - rewrite lookup_insert_ne //. by apply not_eq_sym.
Qed.

Lemma commit_writes_len H0 s w : log_inv H0 s → w ∈ commit_writes s → length w.2 = 512%nat.
Proof.
  intros HI. pose proof (li_bio _ _ HI) as HB. rewrite /commit_writes !elem_of_app /copies.
  rewrite !list_elem_of_fmap !list_elem_of_singleton.
  intros [(k & -> & _)|[->|[(k & -> & _)| ->]]]; simpl; rewrite ?length_set32 ?length_head_data; by apply (blk_len H0).
Qed.

Lemma recover_writes_len l V w :
  (∀ b, length (V b) = 512%nat) → w ∈ recover_writes l V → length w.2 = 512%nat.
Proof.
  intros HV. rewrite /recover_writes elem_of_app /copies list_elem_of_fmap list_elem_of_singleton.
  intros [(k & -> & _)| ->]; simpl; rewrite ?length_set32; apply HV.
Qed.

(** The blocks of a disk on which a commit has stopped. *)
Lemma crashed_len s k b :
  demo_facts s → length (default (replicate 512 0) (write_all (take k (commit_writes s)) (dk_blocks (k_bio s)) !! b)) = 512%nat.
Proof.
  intros Hd. apply write_all_len.
  - intros w Hw%elem_of_take. destruct Hw as (j & Hj & _). apply (commit_writes_len ∅ s); [apply Hd|].
    by apply list_elem_of_lookup_2 in Hj.
  - pose proof (df_old _ Hd b) as E. rewrite /dblock in E. rewrite E. done.
Qed.

(** The booted machine with other contents of the disk, after a crash of [s]. *)
Definition reboot (B : gmap Z (list Z)) (s : kstate) : kstate :=
  set_bio (Bio (bufs s) B 1000 []) (set_log (Log 2 30 0 false 1 (Logheader 0 (replicate 30 0))) s).

Lemma reboot_ok s0 s B :
  demo_facts s → fresh_cache s0 → (∀ b, length (default (replicate 512 0) (B !! b)) = 512%nat) →
  rebooted s B (reboot B s0).
Proof.
  intros Hd Hf HB. pose proof (li_bio _ _ (fresh_log s0 0 false Hf)) as HBi. pose proof (li_layout _ _ (fresh_log s0 0 false Hf)) as HL.
  split; try done; rewrite ?(df_log _ Hd) //.
  - apply (bio_inv_fresh _ (rev (seq 0 NBUF))).
    + apply calm_set_bio, HBi.
    + apply Hf.
    + done.
    + intros i Hi. destruct (dll_lookup _ _ i (fr_dll _ Hf) Hi) as [x Hx].
      pose proof (ok_lock _ _ _ _ (bi_buf _ _ (fr_inv _ Hf) i x Hi Hx)) as E.
      by rewrite bool_decide_eq_false_2 in E.
    + apply Hf.
  - intros b (i & x & _ & Hx & Hc & _). by apply (fresh_uncached s0 Hf b i x).
  - rewrite /= (df_size _ Hd) //.
  - apply (log_layout_size _ (reboot B s0)) in HL; [done|]. by rewrite /= (fr_size _ Hf).
Qed.

(** ** Main properties *)

Section properties.
Context `{IdeDriver}.

(** C1: crash safety. commit() returns after its writes, and if the machine
    crashes after any number [k] of them, recovery restores a disk on which,
    outside the log, either no write of the transaction has taken effect (the
    header had not been written) or all have. *)
Theorem commit_crash_safe H0 s :
  commit_pre H0 s → (0 < lh_len (k_log s))%nat →
  ∃ s', commit s = Ok tt s' ∧ dk_trace (k_bio s') = dk_trace (k_bio s) ++ commit_writes s ∧
    ∀ k r, rebooted s (write_all (take k (commit_writes s)) (dk_blocks (k_bio s))) r →
      ∃ r', recover_from_log r = Ok tt r' ∧
        ∀ b, ¬ in_log (k_log s) b →
          dblock r' b = if bool_decide (k ≤ lh_len (k_log s))%nat then dblock s b else committed s b.
Proof.
  intros Hpre Hn. destruct (commit_Ok H0 s Hpre Hn) as (s' & Hrun & _ & _ & P).
  exists s'. split; [done|]. split; [apply P|]. intros k r Hrb.
  destruct (crash_recovered H0 s (cp_inv _ _ Hpre) k) as [Hh Hv].
  destruct (recover_reboot s _ r (crash_disk s k) Hrb) as (r' & Hr' & _ & _ & Hd); [|done|].
  { intros b. apply write_all_lookup. }
  exists r'. split; [done|]. intros b Hb. rewrite Hd. by apply Hv.
Qed.

(** C18: recovery can itself be interrupted. After a crash following any number
    [j] of its writes, running it again gives the same contents outside the log
    as the uninterrupted recovery. *)
Theorem recovery_restartable s B r :
  log_layout s (k_log s) → rebooted s B r →
  head_ok s (k_log s) (default (replicate 512 0) (B !! log_start (k_log s))) →
  ∃ r' ws, recover_from_log r = Ok tt r' ∧ dk_trace (k_bio r') = dk_trace (k_bio r) ++ ws ∧
    ∀ j r2, rebooted s (write_all (take j ws) B) r2 →
      ∃ r2', recover_from_log r2 = Ok tt r2' ∧
        ∀ b, ¬ in_log (k_log s) b → dblock r2' b = dblock r' b.
Proof.
  intros HL Hrb Hh. set (V := λ b, default (replicate 512 0) (B !! b)).
  destruct (recover_reboot s B r V Hrb) as (r' & Hr' & Ht & _ & Hd); [done..|].
  exists r', (recover_writes (k_log s) V). split; [done|]. split; [done|]. intros j r2 Hrb2.
  destruct (recover_again s (k_log s) V j HL Hh) as [Hh2 Hv2].
  { pose proof (bi_disk _ _ (rb_bio _ _ _ Hrb) (log_start (k_log s))) as Hlen. by rewrite /dblock (rb_blocks _ _ _ Hrb) in Hlen. }
  destruct (recover_reboot s _ r2 _ Hrb2 (λ b, write_all_lookup _ B b) Hh2) as (r2' & Hr2' & _ & _ & Hd2).
  exists r2'. split; [done|]. intros b Hb. rewrite Hd2 Hd. by apply Hv2.
Qed.

(** log_write() of a held buffer, on every branch: it panics when the log
    is full or no operation is open; otherwise it adds the block to the
    transaction unless it is already there, pins the buffer, and changes neither
    the contents readers see nor the disk. *)
Theorem log_write_correct H0 s i x :
  let l := k_log s in let b := b_blockno x in
  log_inv H0 s → i ∈ H0 → bufs s !! i = Some x → ¬ in_log l b →
  if (lh_n (log_lh l) >=? LOGSIZE) || (lh_n (log_lh l) >=? log_size l - 1) then
    log_write i s = Panic "too big a transaction"
  else if log_outstanding l <? 1 then log_write i s = Panic "log_write outside of trans"
  else ∃ s', log_write i s = Ok tt s' ∧ log_inv H0 s' ∧
    logged (k_log s') = (if bool_decide (b ∈ logged l) then logged l else logged l ++ [b]) ∧
    bio_post (H0 ∖ {[i]}) (set_log (k_log s') s) s' (blk s) (λ c, c = b ∨ dirty s c)
      (dk_blocks (k_bio s)) (dk_trace (k_bio s)).
Proof.
  intros l b HI Hi Hx Hb. destruct (_ || _) eqn:E1.
  { rewrite /log_write bind_gets -/l E1 //. }
  destruct (log_outstanding l <? 1) eqn:E2.
  { rewrite /log_write bind_gets -/l E1 E2 //. }
  apply orb_false_iff in E1 as [E1 E3]. subst l.
  destruct (log_write_Ok H0 s i x HI Hi Hx Hb) as (s' & Hrun & HI' & El & _ & P); [lia..|].
  exists s'. rewrite El. split_and!; [done|done| |done]. apply (logged_add s); [apply HI|lia].
Qed.

(** begin_op() lets an operation in exactly when no commit is running and
    [MAXOPBLOCKS] more blocks per open operation fit in [LOGSIZE]; it then counts
    the operation. Otherwise the process sleeps on the log, having released the
    log's lock. *)
Theorem begin_op_correct s i p :
  calm s → k_proc s = Some i → procs s !! i = Some p →
  let l := k_log s in
  if admits l then
    ∃ s', begin_op s = Ok tt s' ∧ settled (set_log (set_outstanding (log_outstanding l + 1) l) s) s' ∧
      lh_n (log_lh (k_log s')) + log_outstanding (k_log s') * MAXOPBLOCKS ≤ LOGSIZE
  else
    ∃ s', begin_op s = Switch (SwSleep ChLog LkLog (eflags_IF (k_cpu s))) s' ∧ k_log s' = l ∧
      k_locks s' !! LkLog = None ∧
      procs s' !! i = Some (asleep ChLog p).
Proof.
  intros Hc Hi Hp l. rewrite (begin_op_run s i p) // -/l. destruct (admits l) eqn:Ha.
  - eexists. split; [done|]. split; [apply (set_log_settled _ _ _ (settled_crit s))|].
    rewrite /admits in Ha. simpl. lia.
  - eexists. split; [done|]. split; [done|]. split.
    + rewrite /= lookup_insert_ne //. by apply calm_free.
    + by rewrite /procs /= list_lookup_alter_eq Hp.
Qed.

(** C40: end_op() of the last open operation commits: the transaction is on the
    disk, the log is empty and free for new operations, and readers see what they
    saw before. *)
Theorem end_op_commits H0 s :
  commit_pre H0 s → log_outstanding (k_log s) = 1 → log_committing (k_log s) = false →
  ∃ s', end_op s = Ok tt s' ∧ log_inv H0 s' ∧ logged (k_log s') = [] ∧
    log_outstanding (k_log s') = 0 ∧ log_committing (k_log s') = false ∧
    (∀ b, ¬ in_log (k_log s) b → blk s' b = blk s b ∧ dblock s' b = committed s b).
Proof.
  intros Hpre Ho Hc. destruct (end_op_last H0 s Hpre Ho Hc) as (s' & Hrun & HI & El & _ & Hv & _).
  exists s'. rewrite El. by split_and!.
Qed.

End properties.

Lemma commit_crash_safe_witness :
  ∃ s' r', commit demo_tx = Ok tt s' ∧
    recover_from_log (reboot (write_all (take 2 (commit_writes demo_tx)) (dk_blocks (k_bio demo_tx))) booted) = Ok tt r' ∧
    dblock r' 50 = replicate 512 7.
Proof.
  generalize demo_tx demo_tx_facts booted booted_fresh. intros s Hd s0 Hf.
  destruct (commit_crash_safe ∅ s (df_pre _ Hd)) as (s' & Hrun & _ & Hcrash); [rewrite (df_log _ Hd); vm_compute; lia|].
  destruct (Hcrash 2%nat (reboot (write_all (take 2 (commit_writes s)) (dk_blocks (k_bio s))) s0)) as (r' & Hr' & Hv).
  { apply (reboot_ok _ _ _ Hd Hf). intros b. by apply crashed_len. }
  exists s', r'. split; [done|]. split; [done|]. rewrite Hv; [rewrite /in_log (df_log _ Hd) /=; lia|].
  rewrite (df_log _ Hd) /committed (df_log _ Hd). exact (df_new _ Hd).
Defined.

(** The machine stops once in the middle of the commit and once more in the middle of the
    recovery; the transaction is there after the second recovery. *)
Lemma recovery_restartable_witness :
  let B := write_all (take 2 (commit_writes demo_tx)) (dk_blocks (k_bio demo_tx)) in
  ∃ r' ws r2', recover_from_log (reboot B booted) = Ok tt r' ∧ dk_trace (k_bio r') = ws ∧
    recover_from_log (reboot (write_all (take 1 ws) B) booted) = Ok tt r2' ∧ dblock r2' 50 = replicate 512 7.
Proof.
  generalize demo_tx demo_tx_facts booted booted_fresh. intros s Hd s0 Hf B.
  pose proof (cp_inv _ _ (df_pre _ Hd)) as HI. destruct (crash_recovered ∅ s HI 2) as [Hh Hv].
  assert (∀ b, default (replicate 512 0) (B !! b) = crash_disk s 2 b) as HB by (intros b; apply write_all_lookup).
  pose proof (λ b, crashed_len s 2 b Hd) as Hlen. fold B in Hlen.
  pose proof (reboot_ok s0 s B Hd Hf Hlen) as Hrb.
  destruct (recovery_restartable s B (reboot B s0)) as (r' & ws & Hr & Ht & Hagain); [apply (li_layout ∅ s HI)|done|by rewrite HB|].
  destruct (recover_reboot s B _ _ Hrb HB Hh) as (r1 & Hr1 & Ht1 & _ & Hd1). rewrite Hr in Hr1. injection Hr1 as <-.
  rewrite Ht in Ht1. apply app_inv_head in Ht1 as ->.
  destruct (Hagain 1%nat (reboot (write_all (take 1 (recover_writes (k_log s) (crash_disk s 2))) B) s0)) as (r2' & Hr2 & E2).
  { apply (reboot_ok s0 s); [done|done|]. intros b. apply write_all_len; [|done].
    intros w (k & Hk & _)%elem_of_take. apply list_elem_of_lookup_2 in Hk.
    apply (recover_writes_len (k_log s) (crash_disk s 2)); [|done]. intros c. by rewrite -HB. }
  exists r', (recover_writes (k_log s) (crash_disk s 2)), r2'. split_and!; [done| |done|].
  - exact Ht.
  - rewrite E2; [rewrite /in_log (df_log _ Hd) /=; lia|]. rewrite Hd1 Hv; [rewrite /in_log (df_log _ Hd) /=; lia|].
    rewrite (df_log _ Hd) /committed (df_log _ Hd). exact (df_new _ Hd).
Defined.

Lemma begin_op_correct_witness : ∃ s', begin_op log_booted = Ok tt s' ∧ log_outstanding (k_log s') = 1.
Proof.
  rewrite /log_booted. generalize booted booted_fresh. intros s Hf.
  pose proof (log_inv_calm _ _ (fresh_log s 0 false Hf)) as Hc. pose proof Hc as [_ _ (i & p & Hi & Hp)].
  destruct (begin_op_correct _ i p Hc Hi Hp) as (s' & Hrun & Hs & _). exists s'. split; [exact Hrun|].
  by destruct (settled_fields _ _ Hs) as (_ & _ & _ & _ & _ & -> & _).
Defined.

Lemma end_op_commits_witness :
  ∃ s', end_op demo_tx = Ok tt s' ∧ dblock s' 50 = replicate 512 7.
Proof.
  generalize demo_tx demo_tx_facts. intros s Hd.
  destruct (end_op_commits ∅ s (df_pre _ Hd)) as (s' & Hrun & _ & _ & _ & _ & Hv); [by rewrite (df_log _ Hd)..|].
  exists s'. split; [done|]. destruct (Hv 50) as [_ ->]; [rewrite /in_log (df_log _ Hd) /=; lia|].
  rewrite /committed (df_log _ Hd). exact (df_new _ Hd).
Defined.

Lemma log_write_correct_witness :
  ∃ i s1 s2, bread 1 60 demo_tx = Ok i s1 ∧ log_write i s1 = Ok tt s2 ∧ logged (k_log s2) = [50; 60].
Proof.
  generalize demo_tx demo_tx_facts. intros s Hd. pose proof (cp_inv _ _ (df_pre _ Hd)) as HI.
  destruct (bread_Ok ∅ s 60 (li_bio _ _ HI)) as (i & x & s1 & Hr1 & _ & Hx & [_ Hxb] & _ & _ & HB1 & P1).
  { rewrite /on_disk (df_size _ Hd) /FSSIZE. lia. }
  { apply (room_count ∅ s [50] _ (li_bio _ _ HI)); [|vm_compute; lia]. intros c. by rewrite (li_dirty _ _ HI) (df_log _ Hd). }
  { apply unheld_empty. }
  assert (log_inv ({[i]} ∪ ∅) s1) as HI1.
  { apply (log_inv_post ∅ _ ∅ s s1 HI HB1). apply (bio_post_ext _ _ _ _ _ _ _ _ _ _ _ P1); [|done..].
    intros c. symmetry. apply P1. }
  pose proof (bio_only_log _ _ (bp_only _ _ _ _ _ _ _ P1)) as El. rewrite (df_log _ Hd) in El.
  pose proof (log_write_correct ({[i]} ∪ ∅) s1 i x HI1 ltac:(set_solver) Hx) as Hp.
  rewrite El Hxb /= in Hp. destruct Hp as (s2 & Hrun & _ & Hl & _); [rewrite /in_log /=; lia|].
  exists i, s1, s2. split_and!; [done|done|]. rewrite Hl. by vm_compute.
Defined.

(** Three operations let in by begin_op(), which together log the blocks 100 to
    99 + [n]. *)
Definition three_ops (n : nat) : K unit :=
  begin_op;; begin_op;; begin_op;; for_each (seq 100 n) (λ b, tx_write (Z.of_nat b) id).

Definition after_29 : kstate := match three_ops 29 log_booted with Ok _ s => s | _ => log_booted end.

(** The admission rule of begin_op() does not match the limit of
    log_write(). With the log of 30 blocks mkfs makes, begin_op() lets in three
    operations, reserving [MAXOPBLOCKS] = 10 blocks for each; logging 29 blocks
    succeeds, and the 30th of the 30 reserved panics. *)
Theorem log_admission_gap :
  three_ops 29 log_booted = Ok tt after_29 ∧
  log_outstanding (k_log after_29) * MAXOPBLOCKS = LOGSIZE ∧ lh_n (log_lh (k_log after_29)) = 29 ∧
  three_ops 30 log_booted = Panic "too big a transaction".
Proof. split_and!; vm_compute; reflexivity. Qed.
