(* ===== verification/Kalloc.v ===== *)
(** * Physical memory allocator: kalloc.c

    The free list threaded through the free pages themselves. [end] is the
    kernel's linker symbol, the first address after the kernel image. *)

From S2P Require Import Prelude Param Bytes String State Spinlock Sched Sleeplock.

(** ** Kernel memory *)

Definition set_bytes_of (f : mem → mem) (s : kstate) : kstate :=
  set_mem (Mem (f (mem_bytes (k_mem s))) (km_freelist (k_mem s)) (km_use_lock (k_mem s))) s.

(** Assignments through kernel pointers. *)
Definition kstore (f : mem → mem) : K unit := modify (set_bytes_of f).

Definition kload32 (a : Z) : K Z := gets (λ s, load32 (mem_bytes (k_mem s)) a).

Definition set_freelist (r : Z) : K unit :=
  modify (λ s, set_mem (Mem (mem_bytes (k_mem s)) r (km_use_lock (k_mem s))) s).
Definition set_use_lock (b : bool) : K unit :=
  modify (λ s, set_mem (Mem (mem_bytes (k_mem s)) (km_freelist (k_mem s)) b) s).

Section kalloc.
Context (end_ : Z).

Definition kfree (v : Z) : K unit :=
  if negb (u32 v mod PGSIZE =? 0) || (v <? end_) || (V2P v >=? PHYSTOP) then panic "kfree" else
  kstore (λ m, memset m v 1 PGSIZE);;
  use_lock ← gets (λ s, km_use_lock (k_mem s));
  when use_lock (acquire LkKmem);;
  r ← gets (λ s, km_freelist (k_mem s));
  kstore (λ m, store32 m v r);;
  set_freelist v;;
  use_lock ← gets (λ s, km_use_lock (k_mem s));
  when use_lock (release LkKmem).

Definition kalloc : K Z :=
  use_lock ← gets (λ s, km_use_lock (k_mem s));
  when use_lock (acquire LkKmem);;
  r ← gets (λ s, km_freelist (k_mem s));
  when (negb (r =? 0)) (nx ← kload32 r; set_freelist nx);;
  use_lock ← gets (λ s, km_use_lock (k_mem s));
  when use_lock (release LkKmem);;
  mret r.

(** The pages freerange() visits: [p, p + PGSIZE <= vend]. *)
Definition pages (vstart vend : Z) : list Z :=
  let p := PGROUNDUP vstart in
  (λ k, p + Z.of_nat k * PGSIZE) <$> seq 0 (Z.to_nat ((vend - p) / PGSIZE)).

Definition freerange (vstart vend : Z) : K unit := for_each (pages vstart vend) kfree.

Definition kinit1 (vstart vend : Z) : K unit :=
  initlock LkKmem;;
  set_use_lock false;;
  freerange vstart vend.

Definition kinit2 (vstart vend : Z) : K unit :=
  freerange vstart vend;;
  set_use_lock true.

(** ** Specification

    An address kfree() accepts: page aligned, past the kernel, below the top of
    physical memory. *)
Record page_ok (v : Z) : Prop := {
  pg_align : v mod PGSIZE = 0;
  pg_end : end_ ≤ v;
  pg_low : KERNBASE ≤ v;
  pg_high : v - KERNBASE < PHYSTOP
}.

(** [free_list m r fl]: following [next] from [r] goes through the pages [fl]. *)
Fixpoint free_list (m : mem) (r : Z) (fl : list Z) : Prop :=
  match fl with
  | [] => r = 0
  | v :: fl' => r = v ∧ free_list m (load32 m v) fl'
  end.

Record kmem_inv (fl : list Z) (s : kstate) : Prop := {
  km_list : free_list (mem_bytes (k_mem s)) (km_freelist (k_mem s)) fl;
  km_nodup : NoDup fl;
  km_pages : Forall page_ok fl
}.

(** Byte [a] belongs to page [v]. *)
Definition in_page (v a : Z) : Prop := v ≤ a < v + PGSIZE.

End kalloc.

(** ** Lemmas *)

Section lemmas.
Context (end_ : Z).

Lemma page_ok_bound v : page_ok end_ v → 0 < v ∧ v + PGSIZE < 2 ^ 32.
Proof. intros [_ _ H1 H2]. rewrite /KERNBASE /PHYSTOP /PGSIZE in H1, H2 |- *. lia. Qed.

Lemma page_disjoint v w a : page_ok end_ v → page_ok end_ w → in_page v a → in_page w a → v = w.
Proof.
  intros [Hv _ _ _] [Hw _ _ _]. rewrite /in_page /PGSIZE in Hv, Hw |- *. intros.
  Z.to_euclidean_division_equations. lia.
Qed.

Lemma kfree_accepts v :
  page_ok end_ v → negb (u32 v mod PGSIZE =? 0) || (v <? end_) || (V2P v >=? PHYSTOP) = false.
Proof.
  intros Hv. pose proof (page_ok_bound v Hv) as Hb. destruct Hv as [Ha He Hl Hh].
  rewrite /V2P /KERNBASE /PHYSTOP /PGSIZE in Ha, Hb, Hl, Hh |- *. rewrite !u32_id; [lia..|].
  rewrite Ha /=. lia.
Qed.

(** The free list survives any change outside its pages. *)
Lemma free_list_frame m m' r fl :
  (∀ v a, v ∈ fl → in_page v a → byte m' a = byte m a) → free_list m r fl → free_list m' r fl.
Proof.
  revert r. induction fl as [|v fl IH]; intros r Hb; [done|]. intros [-> Hl]. split; [done|].
  rewrite (load32_frame m m'); [|apply IH; [set_solver|done]].
  intros k Hk. apply (Hb v k); [set_solver|]. rewrite /in_page /PGSIZE. lia.
Qed.

Lemma free_list_head m r fl : Forall (page_ok end_) fl → free_list m r fl → r = 0 ↔ fl = [].
Proof.
  destruct fl as [|v fl]; [done|]. intros [Hv _]%Forall_cons [-> _]. split; [|done]. intros ->.
  apply page_ok_bound in Hv. lia.
Qed.

(** The state after a page is pushed, and popped. *)
Definition freed (v : Z) (s : kstate) : kstate :=
  set_mem (Mem (store32 (memset (mem_bytes (k_mem s)) v 1 PGSIZE) v (km_freelist (k_mem s))) v
             (km_use_lock (k_mem s))) s.

Lemma kfree_Ok v s :
  page_ok end_ v → k_locks s !! LkKmem = None → cpu_ok (k_cpu s) →
  ∃ s', kfree end_ v s = Ok tt s' ∧ stale (freed v s) s'.
Proof.
  intros Hv Hlk Hok. rewrite /kfree kfree_accepts // bind_modify bind_gets /=.
  destruct (km_use_lock (k_mem s)) eqn:Eu; simpl.
  - rewrite bind_acquire // bind_gets !bind_modify bind_gets /= Eu /=.
    eexists. split; [by rewrite (release_entered _ s)|].
    rewrite /freed Eu. exact (set_mem_stale _ _ _ (stale_crit s)).
  - rewrite bind_ret bind_gets !bind_modify bind_gets /= Eu /=.
    eexists. split; [done|]. rewrite /freed Eu. reflexivity.
Qed.

Lemma kalloc_Ok s fl :
  kmem_inv end_ fl s → k_locks s !! LkKmem = None → cpu_ok (k_cpu s) →
  ∃ s', kalloc s = Ok (hd 0 fl) s' ∧
    stale (set_mem (Mem (mem_bytes (k_mem s)) (hd 0 (tail fl)) (km_use_lock (k_mem s))) s) s'.
Proof.
  intros [Hl Hnd Hpg] Hlk Hok.
  assert (km_freelist (k_mem s) = hd 0 fl) as Ehd by by destruct fl; [|destruct Hl].
  set (s2 := set_mem (Mem (mem_bytes (k_mem s)) (hd 0 (tail fl)) (km_use_lock (k_mem s))) s).
  assert (∀ st : kstate, k_mem st = k_mem s →
    when (negb (hd 0 fl =? 0)) (nx ← kload32 (hd 0 fl); set_freelist nx) st = Ok tt (set_mem (k_mem s2) st)) as Hpop.
  { intros st Est. destruct fl as [|v fl]; simpl.
    - rewrite /s2 /= -Est. simpl in Ehd. rewrite -Est in Ehd.
      destruct st as [? ? ? ? ? [] ? ? ? ? ? ?]. simpl in *. by rewrite Ehd.
    - destruct Hl as [_ Hl]. apply Forall_cons in Hpg as [Hv Hpg].
      pose proof (page_ok_bound v Hv). replace (v =? 0) with false by lia.
      rewrite /= /kload32 bind_gets Est /s2 /=. destruct fl as [|w fl]; [rewrite Hl|destruct Hl as [-> _]];
      by rewrite /set_freelist /modify Est. }
  rewrite /kalloc bind_gets. destruct (km_use_lock (k_mem s)) eqn:Eu; simpl.
  - rewrite bind_acquire // bind_gets /= Ehd (bind_Ok _ _ _ _ _ (Hpop (enter LkKmem s) eq_refl)).
    rewrite bind_gets /= ?Eu /= (bind_release _ _ s) //. eexists. split; [done|].
    exact (set_mem_stale (k_mem s2) _ _ (stale_crit s)).
  - rewrite bind_ret bind_gets Ehd (bind_Ok _ _ _ _ _ (Hpop s eq_refl)) bind_gets /= ?Eu /= bind_ret.
    eexists. split; [done|]. reflexivity.
Qed.

(** Freeing a page that is not free adds it to the list; the page then holds the
    junk value 1, apart from the link. *)
Lemma freed_inv fl v s :
  kmem_inv end_ fl s → page_ok end_ v → v ∉ fl → kmem_inv end_ (v :: fl) (freed v s).
Proof.
  intros [Hl Hnd Hpg] Hv Hnin. pose proof (page_ok_bound v Hv) as Hb. split; simpl.
  - split; [done|]. rewrite load32_store32.
    assert (u32 (km_freelist (k_mem s)) = km_freelist (k_mem s)) as ->.
    { destruct fl as [|w fl]; simpl in Hl; [by rewrite Hl|]. destruct Hl as [-> _].
      apply Forall_cons in Hpg as [Hw _]. apply page_ok_bound in Hw. apply u32_id. rewrite /PGSIZE in Hw. lia. }
    apply (free_list_frame (mem_bytes (k_mem s))); [|done]. intros w a Hw Ha.
    assert (page_ok end_ w) as Hwok by (rewrite Forall_forall in Hpg; by apply Hpg).
    assert (¬ in_page v a) as Hva by (intros Hva; by rewrite (page_disjoint v w a) in Hnin).
    rewrite /in_page /PGSIZE in Hva.
    rewrite byte_store32_out; [lia|]. rewrite byte_memset /PGSIZE; [lia|]. by rewrite bool_decide_eq_false_2.
  - by apply NoDup_cons.
  - by apply Forall_cons.
Qed.

Lemma kmem_inv_stale fl s s' : stale s s' → kmem_inv end_ fl s → kmem_inv end_ fl s'.
Proof. intros [ie ->] [? ? ?]. done. Qed.

Lemma allocated_inv v fl s :
  kmem_inv end_ (v :: fl) s →
  kmem_inv end_ fl (set_mem (Mem (mem_bytes (k_mem s)) (hd 0 fl) (km_use_lock (k_mem s))) s).
Proof.
  intros [[_ Hl] [_ Hnd]%NoDup_cons [_ Hpg]%Forall_cons]. split; [|done|done]. simpl.
  destruct fl as [|w fl]; [done|]. by destruct Hl.
Qed.

(** kfree() accepts exactly the addresses of pages. *)
Lemma kfree_rejects v :
  0 ≤ v < 2 ^ 32 → ¬ page_ok end_ v →
  negb (u32 v mod PGSIZE =? 0) || (v <? end_) || (V2P v >=? PHYSTOP) = true.
Proof.
  intros Hb Hv. apply not_false_iff_true. intros E. apply Hv.
  apply orb_false_iff in E as [[E1%negb_false_iff E2]%orb_false_iff E3].
  rewrite u32_id // in E1. rewrite /V2P /u32 /KERNBASE /PHYSTOP in E3.
  assert (0x80000000 ≤ v) as Hlow.
  { destruct (decide (0x80000000 ≤ v)); [done|].
    assert ((v - 0x80000000) mod 2 ^ 32 = v - 0x80000000 + 2 ^ 32) as E
      by (symmetry; apply (Z.mod_unique _ _ (-1)); lia). lia. }
  rewrite Z.mod_small in E3; [lia|].
  split; rewrite /KERNBASE /PHYSTOP /PGSIZE in E1 |- *; lia.
Qed.

Lemma page_range p n k :
  page_ok end_ p → p + Z.of_nat n * PGSIZE ≤ KERNBASE + PHYSTOP → (k < n)%nat → page_ok end_ (p + Z.of_nat k * PGSIZE).
Proof.
  intros [Ha He Hl Hh] Hn Hk. rewrite /KERNBASE /PHYSTOP /PGSIZE in Ha, He, Hl, Hh, Hn |- *.
  split; rewrite /KERNBASE /PHYSTOP /PGSIZE; [|lia..]. rewrite Z.mod_add //.
Qed.

Lemma free_pages_Ok ps fl s :
  kmem_inv end_ fl s → k_locks s = ∅ → cpu_ok (k_cpu s) →
  Forall (page_ok end_) ps → NoDup ps → (∀ v, v ∈ ps → v ∉ fl) →
  ∃ s', for_each ps (kfree end_) s = Ok tt s' ∧ kmem_inv end_ (rev ps ++ fl) s' ∧
    memonly s s'.
Proof.
  revert fl s. induction ps as [|v ps IH]; intros fl s HI Hlk Hok Hpg Hnd Hd.
  { exists s. split; [done|]. split; [done|]. reflexivity. }
  apply Forall_cons in Hpg as [Hv Hpg]. apply NoDup_cons in Hnd as [Hvn Hnd].
  destruct (kfree_Ok v s Hv) as (s1 & Hr1 & Hs1); [by rewrite Hlk|done|].
  apply memonly_stale in Hs1 as Hm1.
  assert (kmem_inv end_ (v :: fl) s1) as HI1.
  { apply (kmem_inv_stale _ _ _ Hs1), freed_inv; [done|done|]. apply Hd. set_solver. }
  destruct (IH (v :: fl) s1 HI1) as (s2 & Hr2 & HI2 & Hs2);
    [by destruct Hs1 as [ie ->]|by apply (memonly_cpu_ok s)|done|done| |].
  { intros w Hw [->|Hwf]%elem_of_cons; [done|]. apply (Hd w); set_solver. }
  exists s2. cbn [for_each]. split; [by rewrite (bind_Ok _ _ _ _ _ Hr1)|]. split.
  - by rewrite /= -app_assoc.
  - by transitivity s1.
Qed.

(** ** The allocator as its clients use it *)

(** The allocator can be called: its lock is free and interrupts are off while
    locks are held. *)
Definition alloc_ready (s : kstate) : Prop := k_locks s !! LkKmem = None ∧ cpu_ok (k_cpu s).

Lemma memonly_ready s s' : memonly s s' → alloc_ready s → alloc_ready s'.
Proof. intros Hm [? ?]. split; [by apply (memonly_locks _ s)|by apply (memonly_cpu_ok s)]. Qed.

Lemma kalloc_run fl s :
  kmem_inv end_ fl s → alloc_ready s →
  ∃ s', kalloc s = Ok (hd 0 fl) s' ∧ memonly s s' ∧ kmem_inv end_ (tail fl) s' ∧
    mem_bytes (k_mem s') = mem_bytes (k_mem s).
Proof.
  intros HI [Hlk Hok]. destruct (kalloc_Ok s fl HI Hlk Hok) as (s' & Hrun & Hs).
  exists s'. split_and!; [done|by apply memonly_stale in Hs| |by destruct Hs as [ie ->]].
  apply (kmem_inv_stale _ _ _ Hs). destruct fl as [|v fl]; [by destruct HI|by apply (allocated_inv v)].
Qed.

Lemma kfree_run fl v s :
  kmem_inv end_ fl s → alloc_ready s → page_ok end_ v → v ∉ fl →
  ∃ s', kfree end_ v s = Ok tt s' ∧ memonly s s' ∧ kmem_inv end_ (v :: fl) s' ∧
    ∀ a, ¬ in_page v a → byte (mem_bytes (k_mem s')) a = byte (mem_bytes (k_mem s)) a.
Proof.
  intros HI [Hlk Hok] Hv Hn. destruct (kfree_Ok v s Hv Hlk Hok) as (s' & Hrun & Hs).
  exists s'. split_and!; [done|by apply memonly_stale in Hs|by apply (kmem_inv_stale _ _ _ Hs), freed_inv|].
  destruct Hs as [ie ->]. rewrite /in_page /= /PGSIZE. intros a Ha. rewrite byte_store32_out; [lia|].
  rewrite byte_memset; [lia|]. by rewrite bool_decide_eq_false_2.
Qed.

(** Writing memory that is not free keeps the free list. *)
Lemma kmem_inv_store fl f s :
  kmem_inv end_ fl s →
  (∀ v a, v ∈ fl → in_page v a → byte (f (mem_bytes (k_mem s))) a = byte (mem_bytes (k_mem s)) a) →
  kmem_inv end_ fl (set_bytes_of f s).
Proof. intros [H1 H2 H3] Hf. split; [|done|done]. by apply (free_list_frame (mem_bytes (k_mem s))). Qed.

Lemma memonly_store f s : memonly s (set_bytes_of f s).
Proof. apply memonly_set. Qed.

End lemmas.

(** ** Main properties *)

Section properties.
Context (end_ : Z).

(** kfree() of a page that is not free puts it on the free list and fills it
    with the junk value 1 (but for the link in its first four bytes), changing no
    byte outside it; it panics for every address that is not a page it manages. *)
Theorem kfree_correct fl v s :
  kmem_inv end_ fl s → k_locks s !! LkKmem = None → cpu_ok (k_cpu s) → 0 ≤ v < 2 ^ 32 → v ∉ fl →
  (page_ok end_ v →
     ∃ s', kfree end_ v s = Ok tt s' ∧ kmem_inv end_ (v :: fl) s' ∧
       (∀ a, v + 4 ≤ a < v + PGSIZE → byte (mem_bytes (k_mem s')) a = 1) ∧
       (∀ a, ¬ in_page v a → byte (mem_bytes (k_mem s')) a = byte (mem_bytes (k_mem s)) a)) ∧
  (¬ page_ok end_ v → kfree end_ v s = Panic "kfree").
Proof.
  intros HI Hlk Hok Hb Hnin. split; intros Hv.
  - destruct (kfree_Ok end_ v s Hv Hlk Hok) as (s' & Hrun & Hs). exists s'. split; [done|]. split.
    { by apply (kmem_inv_stale _ _ _ _ Hs), freed_inv. }
    destruct Hs as [ie ->]. rewrite /in_page /= /PGSIZE. split; intros a Ha.
    + rewrite byte_store32_out; [lia|]. rewrite byte_memset; [lia|]. rewrite bool_decide_eq_true_2; [lia|done].
    + rewrite byte_store32_out; [lia|]. rewrite byte_memset; [lia|]. by rewrite bool_decide_eq_false_2.
  - by rewrite /kfree kfree_rejects.
Qed.

(** kalloc() returns 0 exactly when no page is free; otherwise the page it
    returns was free and no longer is, and no byte of memory changes. *)
Theorem kalloc_correct fl s :
  kmem_inv end_ fl s → k_locks s !! LkKmem = None → cpu_ok (k_cpu s) →
  ∃ s', mem_bytes (k_mem s') = mem_bytes (k_mem s) ∧
    match fl with
    | [] => kalloc s = Ok 0 s' ∧ kmem_inv end_ [] s'
    | v :: fl' => kalloc s = Ok v s' ∧ page_ok end_ v ∧ v ∉ fl' ∧ kmem_inv end_ fl' s'
    end.
Proof.
  intros HI Hlk Hok. destruct (kalloc_Ok end_ s fl HI Hlk Hok) as (s' & Hrun & Hs).
  exists s'. split; [by destruct Hs as [ie ->]|].
  destruct fl as [|v fl].
  - split; [done|]. apply (kmem_inv_stale _ _ _ _ Hs). by destruct HI as [Hl ? ?].
  - pose proof (km_pages _ _ _ HI) as [Hv _]%Forall_cons. pose proof (km_nodup _ _ _ HI) as [Hn _]%NoDup_cons.
    split_and!; [done..|]. by apply (kmem_inv_stale _ _ _ _ Hs), (allocated_inv end_ v).
Qed.

(** kinit1() on memory not yet managed frees every whole page between its
    two addresses. *)
Theorem kinit1_correct vstart vend s :
  km_freelist (k_mem s) = 0 → k_locks s = ∅ → cpu_ok (k_cpu s) →
  end_ ≤ vstart → KERNBASE ≤ vstart → vstart + PGSIZE ≤ vend → vend ≤ KERNBASE + PHYSTOP →
  ∃ s', kinit1 end_ vstart vend s = Ok tt s' ∧ kmem_inv end_ (rev (pages vstart vend)) s' ∧
    ∀ v, v ∈ pages vstart vend ↔ v mod PGSIZE = 0 ∧ vstart ≤ v ∧ v + PGSIZE ≤ vend.
Proof.
  intros Hf Hlk Hok He Hk Hle Hve.
  assert (∀ v, v ∈ pages vstart vend ↔ v mod PGSIZE = 0 ∧ vstart ≤ v ∧ v + PGSIZE ≤ vend) as Hpages.
  { intros v. rewrite /KERNBASE /PHYSTOP /PGSIZE in Hk, Hle, Hve. rewrite /pages PGROUNDUP_eq /PGSIZE; [lia..|].
    rewrite list_elem_of_fmap. split.
    - intros (k & -> & Hin%elem_of_seq). Z.to_euclidean_division_equations. lia.
    - intros (Hm & Hl & Hh). exists (Z.to_nat ((v - (vstart + 4096 - 1) / 4096 * 4096) / 4096)).
      rewrite elem_of_seq. Z.to_euclidean_division_equations. lia. }
  set (s1 := set_mem (Mem (mem_bytes (k_mem s)) 0 false) s).
  destruct (free_pages_Ok end_ (pages vstart vend) [] s1) as (s' & Hrun & HI & Hs).
  - split; [done|apply NoDup_nil_2|by apply Forall_nil].
  - done.
  - done.
  - apply Forall_forall. intros v (Hm & Hl & Hh)%Hpages. rewrite /KERNBASE /PHYSTOP /PGSIZE in Hm, Hk, Hle, Hve, Hh.
    split; rewrite /KERNBASE /PHYSTOP /PGSIZE; lia.
  - apply NoDup_fmap_2; [|apply NoDup_seq]. intros i j. rewrite /PGSIZE. lia.
  - intros v _. apply not_elem_of_nil.
  - exists s'. rewrite app_nil_r in HI. split; [|done].
    rewrite /kinit1 /initlock bind_modify bind_modify. rewrite -Hrun /freerange /s1 -Hf.
    f_equal. rewrite Hlk delete_empty. destruct s; simpl in *; by subst.
Qed.

End properties.

Lemma kfree_correct_witness :
  ∃ s', kfree 0x80108000 0x80200000 boot_state = Ok tt s' ∧ kmem_inv 0x80108000 [0x80200000] s'.
Proof.
  destruct (kfree_correct 0x80108000 [] 0x80200000 boot_state) as [Hok _].
  - split; [done|apply NoDup_nil_2|by apply Forall_nil].
  - done.
  - split; simpl; lia.
  - lia.
  - apply not_elem_of_nil.
  - destruct Hok as (s' & Hrun & HI & _); [split; vm_compute; done|]. by exists s'.
Defined.

Lemma kalloc_correct_witness : ∃ s', kalloc boot_state = Ok 0 s'.
Proof.
  destruct (kalloc_correct 0x80108000 [] boot_state) as (s' & _ & Hrun & _).
  - split; [done|apply NoDup_nil_2|by apply Forall_nil].
  - done.
  - split; simpl; lia.
  - by exists s'.
Defined.

Lemma kinit1_correct_witness :
  ∃ s', kinit1 0x80108000 0x80108010 0x8010b000 boot_state = Ok tt s' ∧
    kmem_inv 0x80108000 [0x8010a000; 0x80109000] s'.
Proof.
  destruct (kinit1_correct 0x80108000 0x80108010 0x8010b000 boot_state) as (s' & Hrun & HI & _);
    [done|done|split; simpl; lia|vm_compute; done..|].
  by exists s'.
Defined.
