(* ===== verification/Vm.v ===== *)
(** * Virtual memory: vm.c

    Two-level page tables kept in pages of kernel memory. A page directory is
    named by its kernel address. [end_] and [data_] are the linker symbols [end]
    (first address after the kernel) and [data] (start of its data). *)

From S2P Require Import Prelude Param Bytes String State Spinlock Console Sched Kalloc.

(** ** The paging hardware

    Kernel addresses, from [KERNBASE] on, are mapped one to one in every page
    table; a lower address goes through the page table in cr3, and a reference
    to a page that is not present faults. In kernel mode the hardware does not
    look at [PTE_U]; it does respect the absence of [PTE_W] (CR0_WP is set). *)

Definition present (e : Z) : bool := negb (Z.land e PTE_P =? 0).
Definition writable (e : Z) : bool := negb (Z.land e PTE_W =? 0).

(** The entries for [va] in the page table at [pgdir]; 0 where there is no table. *)
Definition pde_of (m : mem) (pgdir va : Z) : Z := load32 m (pgdir + 4 * PDX va).
Definition pte_of (m : mem) (pgdir va : Z) : Z :=
  let e := pde_of m pgdir va in
  if present e then load32 m (P2V (PTE_ADDR e) + 4 * PTX va) else 0.

(** The kernel address of the byte a virtual address designates. *)
Definition ka_of (e va : Z) : Z := P2V (PTE_ADDR e) + va mod PGSIZE.

Definition translate (write : bool) (va : Z) (s : kstate) : option Z :=
  if KERNBASE <=? va then Some va else
  let e := pte_of (mem_bytes (k_mem s)) (P2V (hw_cr3 (k_hw s))) va in
  if present e && (negb write || writable e) then Some (ka_of e va) else None.

Definition vload8 (va : Z) : K Z :=
  o ← gets (translate false va);
  match o with
  | Some ka => gets (λ s, byte (mem_bytes (k_mem s)) ka)
  | None => fault va
  end.

Definition vload32 (va : Z) : K Z :=
  b0 ← vload8 va; b1 ← vload8 (va + 1); b2 ← vload8 (va + 2); b3 ← vload8 (va + 3);
  mret (of_le4 b0 b1 b2 b3).

(** A word is stored only if all its bytes can be. *)
Definition vaddr_w (va : Z) : K Z :=
  o ← gets (translate true va);
  match o with Some ka => mret ka | None => fault va end.

Definition vstore32 (va v : Z) : K unit :=
  k0 ← vaddr_w va; k1 ← vaddr_w (va + 1); k2 ← vaddr_w (va + 2); k3 ← vaddr_w (va + 3);
  kstore (λ m, <[k3 := v / 2 ^ 24 mod 256]> (<[k2 := v / 2 ^ 16 mod 256]>
                (<[k1 := v / 2 ^ 8 mod 256]> (<[k0 := v mod 256]> m)))).

Definition vstore8 (va b : Z) : K unit :=
  ka ← vaddr_w va;
  kstore <[ka := b]>.

(** memmove() through the page table, for pointers that may be user addresses. *)
Fixpoint vcopy_up (d s : Z) (n : nat) : K unit :=
  match n with
  | O => mret tt
  | S n' => b ← vload8 s; vstore8 d b;; vcopy_up (d + 1) (s + 1) n'
  end.

Fixpoint vcopy_down (d s : Z) (n : nat) : K unit :=
  match n with
  | O => mret tt
  | S n' => b ← vload8 (s - 1); vstore8 (d - 1) b;; vcopy_down (d - 1) (s - 1) n'
  end.

Definition vmemmove (dst src n : Z) : K unit :=
  if (src <? dst) && (src + n >? dst)
  then vcopy_down (dst + n) (src + n) (Z.to_nat n)
  else vcopy_up dst src (Z.to_nat n).

Definition lcr3 (a : Z) : K unit :=
  modify (λ s, set_hw (Hw a (hw_esp0 (k_hw s)) (kpgdir (k_hw s)) (hw_cons (k_hw s))) s).

(** ** Page tables *)

Definition walkpgdir (pgdir va : Z) (alloc : bool) : K Z :=
  let pde := pgdir + 4 * PDX va in
  e ← kload32 pde;
  if present e then mret (P2V (PTE_ADDR e) + 4 * PTX va) else
  if negb alloc then mret 0 else
  pgtab ← kalloc;
  if pgtab =? 0 then mret 0 else
  kstore (λ m, memset m pgtab 0 PGSIZE);;
  kstore (λ m, store32 m pde (Z.lor (Z.lor (Z.lor (V2P pgtab) PTE_P) PTE_W) PTE_U));;
  mret (pgtab + 4 * PTX va).

(** One iteration of the loop of mappages(), on its variables [a] and [pa]. *)
Definition mappages_step (pgdir perm last : Z) (x : Z * Z) : K (Z * Z + Z) :=
  let '(a, pa) := x in
  pte ← walkpgdir pgdir a true;
  if pte =? 0 then mret (inr (-1)) else
  e ← kload32 pte;
  if present e then panic "remap" else
  kstore (λ m, store32 m pte (Z.lor (Z.lor pa perm) PTE_P));;
  if a =? last then mret (inr 0) else mret (inl (u32 (a + PGSIZE), u32 (pa + PGSIZE))).

(** The loop runs until [a] reaches [last], page by page: that many iterations
    are enough whatever the addresses. *)
Definition mappages (pgdir va size pa perm : Z) : K Z :=
  let a := PGROUNDDOWN va in
  let last := PGROUNDDOWN (u32 (va + size - 1)) in
  loop (S (Z.to_nat (u32 (last - a) / PGSIZE))) (mappages_step pgdir perm last) (a, pa).

Section vm.
Context (end_ data_ : Z).

Record kmap_entry := Kmap { km_virt : Z; phys_start : Z; phys_end : Z; km_perm : Z }.

Definition kmap : list kmap_entry :=
  [Kmap KERNBASE 0 EXTMEM PTE_W;
   Kmap KERNLINK (V2P KERNLINK) (V2P data_) 0;
   Kmap data_ (V2P data_) PHYSTOP PTE_W;
   Kmap DEVSPACE DEVSPACE 0 PTE_W].

Definition setupkvm : K Z :=
  pgdir ← kalloc;
  if pgdir =? 0 then mret 0 else
  kstore (λ m, memset m pgdir 0 PGSIZE);;
  if P2V PHYSTOP >? DEVSPACE then panic "PHYSTOP too high" else
  r ← scan kmap (λ k,
    r ← mappages pgdir (km_virt k) (u32 (phys_end k - phys_start k)) (phys_start k) (km_perm k);
    mret (if r <? 0 then Some 0 else None));
  mret (default pgdir r).

Definition switchkvm : K unit :=
  p ← gets (λ s, kpgdir (k_hw s));
  lcr3 (V2P p).

Definition kvmalloc : K unit :=
  p ← setupkvm;
  modify (λ s, set_hw (Hw (hw_cr3 (k_hw s)) (hw_esp0 (k_hw s)) p (hw_cons (k_hw s))) s);;
  switchkvm.

(** switchuvm(p): the task state segment gets the kernel stack of the current
    process [proc], cr3 the page table of [p]. *)
Definition switchuvm (i : nat) : K unit :=
  pushcli;;
  c ← cur;
  q ← getproc c;
  modify (λ s, set_hw (Hw (hw_cr3 (k_hw s)) (u32 (p_kstack q + KSTACKSIZE)) (kpgdir (k_hw s))
                       (hw_cons (k_hw s))) s);;
  p ← getproc i;
  if p_pgdir p =? 0 then panic "switchuvm: no pgdir" else
  lcr3 (V2P (p_pgdir p));;
  popcli.

(** kalloc()'s result is not checked: a null page faults in memset(). *)
Definition inituvm (pgdir init sz : Z) : K unit :=
  if sz >=? PGSIZE then panic "inituvm: more than a page" else
  page ← kalloc;
  if page =? 0 then fault 0 else
  kstore (λ m, memset m page 0 PGSIZE);;
  _ ← mappages pgdir 0 PGSIZE (V2P page) (Z.lor PTE_W PTE_U);
  kstore (λ m, memmove m page init sz).

(** ** Growing and shrinking *)

Definition deallocuvm_step (pgdir oldsz : Z) (a : Z) : K (Z + unit) :=
  if negb (a <? oldsz) then mret (inr tt) else
  pte ← walkpgdir pgdir a false;
  if pte =? 0 then mret (inl (u32 (u32 (a + (NPTENTRIES - 1) * PGSIZE) + PGSIZE))) else
  e ← kload32 pte;
  (if present e then
    let pa := PTE_ADDR e in
    if pa =? 0 then panic "kfree" else
    kfree end_ (P2V pa);;
    kstore (λ m, store32 m pte 0)
  else mret tt);;
  mret (inl (u32 (a + PGSIZE))).

Definition deallocuvm (pgdir oldsz newsz : Z) : K Z :=
  if newsz >=? oldsz then mret oldsz else
  loop (S (S (Z.to_nat (oldsz / PGSIZE)))) (deallocuvm_step pgdir oldsz) (PGROUNDUP newsz);;
  mret newsz.

Definition allocuvm_step (pgdir oldsz newsz : Z) (a : Z) : K (Z + Z) :=
  if negb (a <? newsz) then mret (inr newsz) else
  page ← kalloc;
  if page =? 0 then
    cprintf (chars "allocuvm out of memory" ++ [newline]) [];;
    deallocuvm pgdir newsz oldsz;;
    mret (inr 0)
  else
  kstore (λ m, memset m page 0 PGSIZE);;
  r ← mappages pgdir a PGSIZE (V2P page) (Z.lor PTE_W PTE_U);
  if r <? 0 then
    cprintf (chars "allocuvm out of memory (2)" ++ [newline]) [];;
    deallocuvm pgdir newsz oldsz;;
    kfree end_ page;;
    mret (inr 0)
  else mret (inl (u32 (a + PGSIZE))).

Definition allocuvm (pgdir oldsz newsz : Z) : K Z :=
  if newsz >=? KERNBASE then mret 0 else
  if newsz <? oldsz then mret oldsz else
  loop (S (S (Z.to_nat (newsz / PGSIZE)))) (allocuvm_step pgdir oldsz newsz) (PGROUNDUP oldsz).

Definition freevm (pgdir : Z) : K unit :=
  if pgdir =? 0 then panic "freevm: no pgdir" else
  _ ← deallocuvm pgdir KERNBASE 0;
  for_each (seq 0 (Z.to_nat NPDENTRIES)) (λ i,
    e ← kload32 (pgdir + 4 * Z.of_nat i);
    when (present e) (kfree end_ (P2V (PTE_ADDR e))));;
  kfree end_ pgdir.

Definition clearpteu (pgdir uva : Z) : K unit :=
  pte ← walkpgdir pgdir uva false;
  if pte =? 0 then panic "clearpteu" else
  e ← kload32 pte;
  kstore (λ m, store32 m pte (Z.land e (u32 (Z.lnot PTE_U)))).

(** ** Copying an address space *)

Definition copyuvm_page (pgdir d i : Z) : K (option unit) :=
  pte ← walkpgdir pgdir i false;
  if pte =? 0 then panic "copyuvm: pte should exist" else
  e ← kload32 pte;
  if negb (present e) then panic "copyuvm: page not present" else
  let pa := PTE_ADDR e in
  let flags := PTE_FLAGS e in
  page ← kalloc;
  if page =? 0 then mret (Some tt) else
  kstore (λ m, memmove m page (P2V pa) PGSIZE);;
  r ← mappages d i PGSIZE (V2P page) flags;
  mret (if r <? 0 then Some tt else None).

(** [for(i = 0; i < sz; i += PGSIZE)] *)
Definition page_starts (sz : Z) : list Z :=
  (λ k, Z.of_nat k * PGSIZE) <$> seq 0 (Z.to_nat ((sz + PGSIZE - 1) / PGSIZE)).

Definition copyuvm (pgdir sz : Z) : K Z :=
  d ← setupkvm;
  if d =? 0 then mret 0 else
  bad ← scan (page_starts sz) (copyuvm_page pgdir d);
  match bad with
  | Some _ => freevm d;; mret 0
  | None => mret d
  end.

(** ** Access to user memory from the kernel *)

(** [pte] is not checked: for an address without a page table, [*pte] reads the
    current process's address 0. *)
Definition uva2ka (pgdir uva : Z) : K Z :=
  pte ← walkpgdir pgdir uva false;
  e ← vload32 pte;
  if Z.land e PTE_P =? 0 then mret 0 else
  if Z.land e PTE_U =? 0 then mret 0 else
  mret (P2V (PTE_ADDR e)).

(** One iteration of the loop of copyout(), on [va], [buf] and [len]. *)
Definition copyout_step (pgdir : Z) (x : Z * Z * Z) : K (Z * Z * Z + Z) :=
  let '(va, buf, len) := x in
  if negb (0 <? len) then mret (inr 0) else
  let va0 := PGROUNDDOWN va in
  pa0 ← uva2ka pgdir va0;
  if pa0 =? 0 then mret (inr (-1)) else
  let n0 := PGSIZE - (va - va0) in
  let n := if n0 >? len then len else n0 in
  vmemmove (pa0 + (va - va0)) buf n;;
  mret (inl (u32 (va0 + PGSIZE), buf + n, len - n)).

Definition copyout (pgdir va p len : Z) : K Z :=
  loop (S (S (Z.to_nat (len / PGSIZE + 1)))) (copyout_step pgdir) (va, p, len).

End vm.
