(* ===== verification/VmSpec.v ===== *)
(** * Page tables: specification and correctness of vm.c

    [ptab m pgdir T] describes a well-formed page table in memory: [T] gives the
    page-table page of each present directory entry. On top of it, [vm_inv] keeps
    the tables apart from the allocator's free pages, and [grows] says what an
    operation that may allocate page tables does to the rest of memory. *)

From S2P Require Import Prelude Param Bytes String State Spinlock Sched Sleeplock Kalloc Vm.

(** ** Address arithmetic *)

(** Linear arithmetic on page addresses. *)
Ltac pg := unfold PGSIZE in *; lia.
Ltac lay := unfold KERNLINK, KERNBASE, PHYSTOP, EXTMEM, DEVSPACE, PGSIZE in *; lia.

Lemma PDX_eq va : 0 ≤ va < 2 ^ 32 → PDX va = va / 2 ^ 22.
Proof.
  intros H. rewrite /PDX u32_id // /PDXSHIFT Z.shiftr_div_pow2; [lia|].
  change 0x3FF with (Z.ones 10). rewrite Z.land_ones; [lia|]. apply Z.mod_small.
  split; [apply Z.div_pos; lia|]. apply Z.div_lt_upper_bound; lia.
Qed.

Lemma PTX_eq va : 0 ≤ va < 2 ^ 32 → PTX va = va / PGSIZE mod 1024.
Proof.
  intros H. rewrite /PTX u32_id // /PTXSHIFT Z.shiftr_div_pow2; [lia|].
  change 0x3FF with (Z.ones 10). rewrite Z.land_ones; [lia|]. done.
Qed.

Lemma PDX_bound va : 0 ≤ PDX va < NPDENTRIES.
Proof.
  rewrite /PDX. change 0x3FF with (Z.ones 10). rewrite Z.land_ones; [lia|].
  rewrite /NPDENTRIES. apply Z.mod_pos_bound. lia.
Qed.

Lemma PTX_bound va : 0 ≤ PTX va < NPTENTRIES.
Proof.
  rewrite /PTX. change 0x3FF with (Z.ones 10). rewrite Z.land_ones; [lia|].
  rewrite /NPTENTRIES. apply Z.mod_pos_bound. lia.
Qed.

(** Directory and table index identify the page of an address. *)
Lemma same_page_iff va va' :
  0 ≤ va < 2 ^ 32 → 0 ≤ va' < 2 ^ 32 →
  PDX va = PDX va' ∧ PTX va = PTX va' ↔ va / PGSIZE = va' / PGSIZE.
Proof.
  intros H H'. rewrite !PDX_eq // !PTX_eq //.
  assert (∀ x, 0 ≤ x → x / 2 ^ 22 = x / PGSIZE / 1024) as E
    by (intros x Hx; rewrite Z.div_div /PGSIZE; [lia..|done]).
  rewrite !E; [lia..|]. split; [|by intros ->]. intros [E1 E2].
  rewrite (Z.div_mod (va / PGSIZE) 1024); [lia|]. rewrite (Z.div_mod (va' / PGSIZE) 1024); lia.
Qed.

Lemma PTE_ADDR_eq e : 0 ≤ e < 2 ^ 32 → PTE_ADDR e = e - e mod PGSIZE.
Proof.
  intros. rewrite /PTE_ADDR u32_id //. change (u32 (Z.lnot 0xFFF)) with 0xFFFFF000.
  by apply land_page_mask.
Qed.

Lemma PTE_FLAGS_eq e : 0 ≤ e < 2 ^ 32 → PTE_FLAGS e = e mod PGSIZE.
Proof.
  intros. rewrite /PTE_FLAGS u32_id //. change 0xFFF with (Z.ones 12). by rewrite Z.land_ones.
Qed.

Lemma present_odd e : present e = Z.odd e.
Proof.
  rewrite /present /PTE_P. change 1 with (Z.ones 1). rewrite Z.land_ones; [lia|].
  change (2 ^ 1) with 2. rewrite Zmod_odd. by destruct (Z.odd e).
Qed.

(** An entry is a page address with flags in its low bits. *)
Lemma lor_page pa f :
  pa mod PGSIZE = 0 → 0 ≤ f < PGSIZE → Z.lor pa f = pa + f.
Proof.
  rewrite /PGSIZE. intros Hp Hf.
  assert (Z.land pa f = 0) as E.
  { apply Z.bits_inj'. intros n Hn. rewrite Z.land_spec Z.bits_0.
    destruct (decide (n < 12)).
    - assert (pa = (pa / 2 ^ 12) * 2 ^ 12) as -> by (change (2 ^ 12) with 4096; Z.to_euclidean_division_equations; lia).
      by rewrite Z.mul_pow2_bits_low; [lia|].
    - rewrite (Z.bits_above_log2 f n) ?andb_false_r //; [lia|].
      destruct (decide (f = 0)) as [->|]; [simpl; lia|]. apply Z.log2_lt_pow2; [lia|].
      assert (2 ^ 12 ≤ 2 ^ n) by (apply Z.pow_le_mono_r; lia). lia. }
  rewrite -Z.lxor_lor // -Z.add_nocarry_lxor //.
Qed.

Lemma lor_small f g : 0 ≤ f < PGSIZE → 0 ≤ g < PGSIZE → 0 ≤ Z.lor f g < PGSIZE.
Proof.
  rewrite /PGSIZE. intros Hf Hg. split; [apply Z.lor_nonneg; lia|].
  destruct (decide (Z.lor f g = 0)) as [->|Hne]; [lia|].
  change 4096 with (2 ^ 12). apply Z.log2_lt_pow2.
  { assert (0 ≤ Z.lor f g) by (apply Z.lor_nonneg; lia). lia. }
  rewrite Z.log2_lor; [lia..|].
  assert (∀ x, 0 ≤ x < 4096 → Z.log2 x < 12) as H.
  { intros x Hx. destruct (decide (x = 0)) as [->|]; [simpl; lia|]. apply Z.log2_lt_pow2; lia. }
  apply Z.max_lub_lt; by apply H.
Qed.

(** The entry mappages() writes. *)
Definition entry (pa perm : Z) : Z := Z.lor (Z.lor pa perm) PTE_P.

Lemma entry_eq pa perm :
  pa mod PGSIZE = 0 → 0 ≤ perm < PGSIZE → entry pa perm = pa + Z.lor perm PTE_P ∧ 0 ≤ Z.lor perm PTE_P < PGSIZE.
Proof.
  intros Hp Hf. rewrite /entry -Z.lor_assoc.
  assert (0 ≤ Z.lor perm PTE_P < PGSIZE) as Hb by (apply lor_small; unfold PGSIZE, PTE_P in *; lia).
  by rewrite lor_page.
Qed.

Lemma entry_spec pa perm :
  pa mod PGSIZE = 0 → 0 ≤ pa → pa + PGSIZE ≤ 2 ^ 32 → 0 ≤ perm < PGSIZE →
  u32 (entry pa perm) = entry pa perm ∧ present (entry pa perm) = true ∧
  PTE_ADDR (entry pa perm) = pa ∧ PTE_FLAGS (entry pa perm) = Z.lor perm PTE_P.
Proof.
  intros Hp H0 H1 Hf. destruct (entry_eq pa perm Hp Hf) as [E Hb].
  assert (0 ≤ entry pa perm < 2 ^ 32) as Hr by (rewrite E; lia).
  rewrite u32_id // PTE_ADDR_eq // PTE_FLAGS_eq //. split_and!; [done| | |].
  - rewrite /present /entry. rewrite Z.land_lor_distr_l. change (Z.land PTE_P PTE_P) with 1.
    destruct (Z.eqb_spec (Z.lor (Z.land (Z.lor pa perm) PTE_P) 1) 0) as [E0|]; [|done].
    apply Z.lor_eq_0_iff in E0. lia.
  - rewrite E -Zplus_mod_idemp_l Hp. rewrite Z.add_0_l (Z.mod_small (Z.lor perm PTE_P)) //. lia.
  - rewrite E -Zplus_mod_idemp_l Hp. by rewrite Z.add_0_l Z.mod_small.
Qed.

Lemma page_V2P end_ p :
  page_ok end_ p → V2P p = p - KERNBASE ∧ V2P p mod PGSIZE = 0 ∧ 0 ≤ V2P p ∧ V2P p + PGSIZE ≤ PHYSTOP ∧
  P2V (V2P p) = p.
Proof.
  intros Hp. pose proof (page_ok_bound _ _ Hp) as Hb. destruct Hp as [Ha _ Hl Hh].
  rewrite /V2P /P2V /KERNBASE /PHYSTOP /PGSIZE in Ha, Hb, Hl, Hh |- *.
  rewrite (u32_id (p - _)); [lia|]. rewrite u32_id; [lia|]. Z.to_euclidean_division_equations. lia.
Qed.

(** ** Accesses to kernel addresses *)

Lemma vload8_kernel a s : KERNBASE ≤ a → vload8 a s = Ok (byte (mem_bytes (k_mem s)) a) s.
Proof. intros Ha. rewrite /vload8 bind_gets /translate. by replace (KERNBASE <=? a) with true by lia. Qed.

Lemma vstore8_kernel a b s : KERNBASE ≤ a → vstore8 a b s = Ok tt (set_bytes_of <[a := b]> s).
Proof.
  intros Ha. rewrite /vstore8 /vaddr_w /translate {2}/mbind /M_bind /gets.
  by replace (KERNBASE <=? a) with true by lia.
Qed.

Lemma vload32_kernel a s : KERNBASE ≤ a → vload32 a s = Ok (load32 (mem_bytes (k_mem s)) a) s.
Proof.
  intros Ha. rewrite /vload32. rewrite !(bind_Ok _ _ _ _ _ (vload8_kernel _ s _)); [lia..|]. done.
Qed.

Lemma set_bytes_of_of f g s : set_bytes_of f (set_bytes_of g s) = set_bytes_of (f ∘ g) s.
Proof. done. Qed.

(** On kernel addresses it is memmove(). *)
Lemma vmemmove_kernel d p n s :
  KERNBASE ≤ d → KERNBASE ≤ p → 0 ≤ n →
  ∃ f, vmemmove d p n s = Ok tt (set_bytes_of f s) ∧
    f (mem_bytes (k_mem s)) = memmove (mem_bytes (k_mem s)) d p n.
Proof.
  intros Hd Hp Hn. rewrite /vmemmove /memmove.
  assert (∀ k d p s, KERNBASE ≤ d → KERNBASE ≤ p →
    vcopy_up d p k s = Ok tt (set_bytes_of (λ m, copy_up m d p k) s)) as Hup.
  { clear. induction k as [|k IH]; intros d p s Hd Hp; simpl; [by destruct s as [? ? ? ? ? [] ? ? ? ? ? ?]|].
    rewrite (bind_Ok _ _ _ _ _ (vload8_kernel p s Hp)) (bind_Ok _ _ _ _ _ (vstore8_kernel d _ s Hd)).
    rewrite IH; [lia..|]. done. }
  assert (∀ k d p s, KERNBASE ≤ d - Z.of_nat k → KERNBASE ≤ p - Z.of_nat k →
    vcopy_down d p k s = Ok tt (set_bytes_of (λ m, copy_down m d p k) s)) as Hdn.
  { clear. induction k as [|k IH]; intros d p s Hd Hp; simpl; [by destruct s as [? ? ? ? ? [] ? ? ? ? ? ?]|].
    rewrite (bind_Ok _ _ _ _ _ (vload8_kernel (p - 1) s ltac:(lia))) (bind_Ok _ _ _ _ _ (vstore8_kernel (d - 1) _ s ltac:(lia))).
    rewrite IH; [lia..|]. done. }
  destruct (_ && _); eexists; (split; [apply Hup || apply Hdn; lia|done]).
Qed.

(** ** Well-formed page tables *)

Section ptab.
Context (end_ : Z).

Record ptab (m : mem) (pgdir : Z) (T : gmap Z Z) : Prop := {
  pt_page : page_ok end_ pgdir;
  pt_dir : ∀ i, 0 ≤ i < NPDENTRIES →
    match T !! i with
    | Some p => present (load32 m (pgdir + 4 * i)) = true ∧ P2V (PTE_ADDR (load32 m (pgdir + 4 * i))) = p
    | None => present (load32 m (pgdir + 4 * i)) = false
    end;
  pt_tables : ∀ i p, T !! i = Some p → 0 ≤ i < NPDENTRIES ∧ page_ok end_ p ∧ p ≠ pgdir;
  pt_inj : ∀ i j p, T !! i = Some p → T !! j = Some p → i = j
}.

(** The pages a page table consists of. *)
Definition tables (pgdir : Z) (T : gmap Z Z) (p : Z) : Prop := p = pgdir ∨ ∃ i, T !! i = Some p.

Lemma tables_ok m pgdir T p : ptab m pgdir T → tables pgdir T p → page_ok end_ p.
Proof. intros Hp [->|[i Hi]]; [by destruct Hp|]. by apply (pt_tables _ _ _ Hp) in Hi as (_ & ? & _). Qed.

(** A page table has at most 1024 tables besides its directory. *)
Lemma tables_list m pgdir T : ptab m pgdir T →
  ∃ L, Z.of_nat (length L) ≤ 1025 ∧ ∀ p, tables pgdir T p → p ∈ L.
Proof.
  intros Hpt. destruct (map_values_list T 0 NPDENTRIES) as (L & HL & Hin).
  exists (pgdir :: L). cbn [length]. split; [rewrite /NPDENTRIES in HL; lia|].
  intros p [->|[i Hi]]; [apply list_elem_of_here|]. apply list_elem_of_further, (Hin i); [done|].
  by apply (pt_tables _ _ _ Hpt) in Hi as [? _].
Qed.

Lemma in_dir pgdir i a : 0 ≤ i < NPDENTRIES → pgdir + 4 * i ≤ a < pgdir + 4 * i + 4 → in_page pgdir a.
Proof. rewrite /NPDENTRIES /in_page /PGSIZE. lia. Qed.

Lemma pte_of_slot m pgdir T va :
  ptab m pgdir T →
  pte_of m pgdir va = match T !! PDX va with Some p => load32 m (p + 4 * PTX va) | None => 0 end.
Proof.
  intros Hp. rewrite /pte_of /pde_of. pose proof (pt_dir _ _ _ Hp (PDX va) (PDX_bound va)) as Hd.
  destruct (T !! PDX va); [by destruct Hd as [-> ->]|by rewrite Hd].
Qed.

Lemma ptab_frame m m' pgdir T :
  (∀ p a, tables pgdir T p → in_page p a → byte m' a = byte m a) → ptab m pgdir T →
  ptab m' pgdir T ∧ ∀ va, pte_of m' pgdir va = pte_of m pgdir va.
Proof.
  intros Hf Hp. assert (ptab m' pgdir T) as Hp'.
  { destruct Hp as [H1 H2 H3 H4]. split; [done| |done|done]. intros i Hi.
    rewrite (load32_frame m m'); [|by apply H2]. intros k Hk. apply (Hf pgdir); [by left|by apply (in_dir _ i)]. }
  split; [done|]. intros va. rewrite !(pte_of_slot _ _ T) //.
  destruct (T !! PDX va) as [p|] eqn:E; [|done]. apply load32_frame. intros k Hk.
  apply (Hf p); [right; eauto|]. by apply (in_dir _ (PTX va)); [apply PTX_bound|].
Qed.

(** Writing one page-table entry. *)
Lemma ptab_store m pgdir T va p v :
  ptab m pgdir T → 0 ≤ va < 2 ^ 32 → T !! PDX va = Some p →
  ptab (store32 m (p + 4 * PTX va) v) pgdir T ∧
  ∀ va', 0 ≤ va' < 2 ^ 32 →
    pte_of (store32 m (p + 4 * PTX va) v) pgdir va' =
    if bool_decide (va' / PGSIZE = va / PGSIZE) then u32 v else pte_of m pgdir va'.
Proof.
  intros Hp Hva Hi. pose proof (pt_tables _ _ _ Hp _ _ Hi) as (_ & Hpok & Hne).
  pose proof (PTX_bound va) as Hx.
  assert (ptab (store32 m (p + 4 * PTX va) v) pgdir T) as Hp'.
  { destruct Hp as [H1 H2 H3 H4]. split; [done| |done|done]. intros i Hb.
    rewrite (load32_frame m); [|by apply H2]. intros k Hk. apply byte_store32_out. intros Hin.
    apply Hne. apply (page_disjoint end_ _ _ k); [done..| |].
    - by apply (in_dir _ (PTX va)).
    - by apply (in_dir _ i). }
  split; [done|]. intros va' Hva'. rewrite !(pte_of_slot _ _ T) //. case_bool_decide as E.
  - symmetry in E. apply same_page_iff in E as [E1 E2]; [|done..]. rewrite -E1 Hi -E2. apply load32_store32.
  - destruct (T !! PDX va') as [q|] eqn:Hq; [|done]. apply load32_store32_ne.
    destruct (decide (p = q)) as [->|Hpq].
    + pose proof (pt_inj _ _ _ Hp _ _ _ Hi Hq) as Epd.
      assert (PTX va ≠ PTX va') by (intros E2; apply E; symmetry; by apply same_page_iff). lia.
    + pose proof (pt_tables _ _ _ Hp _ _ Hq) as (_ & Hqok & _). pose proof (PTX_bound va') as Hx'.
      assert (¬ in_page q p) as H1.
      { intros ?. apply Hpq, (page_disjoint end_ _ _ p); [done..|rewrite /in_page /PGSIZE; lia|done]. }
      assert (¬ in_page p q) as H2.
      { intros ?. apply Hpq, (page_disjoint end_ _ _ q); [done..|rewrite /in_page /PGSIZE; lia]. }
      rewrite /in_page /PGSIZE in H1, H2. rewrite /NPTENTRIES in Hx, Hx'. lia.
Qed.

(** The directory entry walkpgdir() installs for a new table. *)
Definition table_entry (p : Z) : Z := Z.lor (Z.lor (Z.lor (V2P p) PTE_P) PTE_W) PTE_U.

Lemma table_entry_spec p :
  page_ok end_ p → present (u32 (table_entry p)) = true ∧ P2V (PTE_ADDR (u32 (table_entry p))) = p.
Proof.
  intros Hp. destruct (page_V2P _ _ Hp) as (_ & Ha & H0 & H1 & Hi).
  assert (table_entry p = entry (V2P p) (Z.lor PTE_W PTE_U)) as ->.
  { rewrite /table_entry /entry -!Z.lor_assoc. done. }
  rewrite /PHYSTOP /PGSIZE in H1. destruct (entry_spec (V2P p) (Z.lor PTE_W PTE_U)) as (-> & -> & -> & _);
    [done|done|rewrite /PGSIZE; lia|done|done].
Qed.

Definition with_table (m : mem) (pgdir i p : Z) : mem :=
  store32 (memset m p 0 PGSIZE) (pgdir + 4 * i) (table_entry p).

Lemma byte_with_table m pgdir i p a :
  0 ≤ i < NPDENTRIES → ¬ in_page pgdir a → byte (with_table m pgdir i p) a = if bool_decide (in_page p a) then 0 else byte m a.
Proof.
  intros Hi Ha. rewrite /with_table byte_store32_out.
  { intros ?. by apply Ha, (in_dir _ i). }
  rewrite byte_memset /PGSIZE; [lia|]. done.
Qed.

Lemma load32_zero m a : (∀ k, a ≤ k < a + 4 → byte m k = 0) → load32 m a = 0.
Proof. intros H. rewrite /load32 !H //; lia. Qed.

(** Adding an empty table maps nothing. *)
Lemma ptab_add m pgdir T i p :
  ptab m pgdir T → 0 ≤ i < NPDENTRIES → T !! i = None → page_ok end_ p → ¬ tables pgdir T p →
  ptab (with_table m pgdir i p) pgdir (<[i := p]> T) ∧
  ∀ va, pte_of (with_table m pgdir i p) pgdir va = pte_of m pgdir va.
Proof.
  intros Hp Hi HT Hpok Hnt.
  assert (p ≠ pgdir) as Hne by (intros ->; apply Hnt; by left).
  assert (∀ q j k, page_ok end_ q → q ≠ pgdir → 0 ≤ j < 1024 → q + 4 * j ≤ k < q + 4 * j + 4 → ¬ in_page pgdir k) as Hout.
  { intros q j k Hq Hqn Hj Hk Hk'. apply Hqn, (page_disjoint end_ _ _ k); [done|apply Hp|by apply (in_dir _ j)|done]. }
  assert (ptab (with_table m pgdir i p) pgdir (<[i := p]> T)) as Hp'.
  { split; [apply Hp| | |].
    - intros j Hj. destruct (decide (i = j)) as [<-|Hij].
      + rewrite lookup_insert_eq /with_table load32_store32. by apply table_entry_spec.
      + rewrite lookup_insert_ne //. rewrite (load32_frame m); [|by apply Hp].
        intros k Hk. rewrite /with_table byte_store32_out; [lia|]. rewrite byte_memset; [rewrite /PGSIZE; lia|].
        rewrite bool_decide_eq_false_2 //. intros Hin. apply Hne, (page_disjoint end_ _ _ k); [done|apply Hp|done|].
        by apply (in_dir _ j).
    - intros j q [[<- <-]|[_ Hq]]%lookup_insert_Some; [done|]. by apply Hp in Hq.
    - intros j k q [[<- <-]|[Hj Hq]]%lookup_insert_Some [[<- Eq]|[Hk Hq']]%lookup_insert_Some; [done| | |].
      + exfalso. apply Hnt. right. eauto.
      + exfalso. apply Hnt. right. exists j. by rewrite Eq.
      + by apply (pt_inj _ _ _ Hp _ _ q). }
  split; [done|]. intros va. pose proof (PTX_bound va) as Hx.
  rewrite (pte_of_slot _ _ _ _ Hp') (pte_of_slot _ _ _ _ Hp).
  destruct (decide (i = PDX va)) as [->|Hij].
  - rewrite lookup_insert_eq HT. apply load32_zero. intros k Hk.
    rewrite byte_with_table; [done|by apply (Hout p (PTX va))|]. rewrite bool_decide_eq_true_2 //. by apply (in_dir _ (PTX va)).
  - rewrite lookup_insert_ne //. destruct (T !! PDX va) as [q|] eqn:Hq; [|done].
    pose proof (pt_tables _ _ _ Hp _ _ Hq) as (_ & Hqok & Hqn). apply load32_frame. intros k Hk.
    rewrite byte_with_table; [done|by apply (Hout q (PTX va))|]. rewrite bool_decide_eq_false_2 //. intros Hin.
    apply Hnt. right. exists (PDX va). rewrite Hq. f_equal. apply (page_disjoint end_ _ _ k); [done..|by apply (in_dir _ (PTX va))|done].
Qed.

End ptab.

(** ** Operations on page tables *)

Section ops.
Context (end_ : Z).
Notation kb s := (mem_bytes (k_mem s)).

(** A page table apart from the free pages. *)
Record vm_inv (fl : list Z) (pgdir : Z) (T : gmap Z Z) (s : kstate) : Prop := {
  vi_kmem : kmem_inv end_ fl s;
  vi_ptab : ptab end_ (kb s) pgdir T;
  vi_apart : ∀ p, tables pgdir T p → p ∉ fl
}.

(** From [s] to [s'], the page table [pgdir] got the pages [used] of the free
    list as new tables, and no byte outside its tables and those pages changed. *)
Record grows (pgdir : Z) (T : gmap Z Z) (fl : list Z) (s : kstate)
    (T' : gmap Z Z) (fl' : list Z) (s' : kstate) (used : list Z) : Prop := {
  gr_mem : memonly s s';
  gr_fl : fl = used ++ fl';
  gr_inv : vm_inv fl' pgdir T' s';
  gr_tables : ∀ p, tables pgdir T' p ↔ tables pgdir T p ∨ p ∈ used;
  gr_frame : ∀ a, (∀ p, tables pgdir T p ∨ p ∈ used → ¬ in_page p a) → byte (kb s') a = byte (kb s) a
}.

Lemma grows_refl pgdir T fl s : vm_inv fl pgdir T s → grows pgdir T fl s T fl s [].
Proof. intros HI. split; [reflexivity|done|done|intros p; rewrite elem_of_nil; tauto|done]. Qed.

Lemma grows_trans pgdir T fl s T1 fl1 s1 u1 T2 fl2 s2 u2 :
  grows pgdir T fl s T1 fl1 s1 u1 → grows pgdir T1 fl1 s1 T2 fl2 s2 u2 →
  grows pgdir T fl s T2 fl2 s2 (u1 ++ u2).
Proof.
  intros [A1 A2 A3 A4 A5] [B1 B2 B3 B4 B5]. split.
  - by transitivity s1.
  - by rewrite A2 B2 app_assoc.
  - done.
  - intros p. rewrite B4 A4 elem_of_app. tauto.
  - intros a Ha. rewrite B5; [|apply A5].
    + intros p Hp. apply Ha. rewrite A4 in Hp. rewrite elem_of_app. tauto.
    + intros p Hp. apply Ha. rewrite elem_of_app. tauto.
Qed.

Lemma kload32_Ok a s : kload32 a s = Ok (load32 (kb s) a) s.
Proof. done. Qed.

(** walkpgdir() of an address whose table exists. *)
Lemma walkpgdir_hit fl pgdir T va alloc p s :
  vm_inv fl pgdir T s → T !! PDX va = Some p → walkpgdir pgdir va alloc s = Ok (p + 4 * PTX va) s.
Proof.
  intros HI Hp. pose proof (pt_dir _ _ _ _ (vi_ptab _ _ _ _ HI) (PDX va) (PDX_bound va)) as Hd.
  rewrite Hp in Hd. destruct Hd as [Hd1 Hd2]. by rewrite /walkpgdir /kload32 bind_gets Hd1 Hd2.
Qed.

Lemma walkpgdir_miss fl pgdir T va s :
  vm_inv fl pgdir T s → T !! PDX va = None → walkpgdir pgdir va false s = Ok 0 s.
Proof.
  intros HI Hp. pose proof (pt_dir _ _ _ _ (vi_ptab _ _ _ _ HI) (PDX va) (PDX_bound va)) as Hd.
  rewrite Hp in Hd. by rewrite /walkpgdir /kload32 bind_gets Hd.
Qed.

(** Allocating a table: the address space does not change. *)
Lemma walkpgdir_new fl pgdir T va s :
  vm_inv fl pgdir T s → alloc_ready s → T !! PDX va = None →
  ∃ s', match fl with
    | [] => walkpgdir pgdir va true s = Ok 0 s' ∧ grows pgdir T fl s T [] s' []
    | p :: fl' => walkpgdir pgdir va true s = Ok (p + 4 * PTX va) s' ∧
                  grows pgdir T fl s (<[PDX va := p]> T) fl' s' [p]
    end ∧ ∀ va', pte_of (kb s') pgdir va' = pte_of (kb s) pgdir va'.
Proof.
  intros HI Hr HT. pose proof (vi_ptab _ _ _ _ HI) as Hpt.
  pose proof (pt_dir _ _ _ _ Hpt (PDX va) (PDX_bound va)) as Hd. rewrite HT in Hd.
  destruct (kalloc_run end_ fl s (vi_kmem _ _ _ _ HI) Hr) as (s1 & Hk & Hm & HI1 & Hb).
  rewrite /walkpgdir /kload32 bind_gets Hd.
  cbn [negb]. rewrite (bind_Ok _ _ _ _ _ Hk).
  destruct fl as [|p fl]; cbn [hd tail] in *.
  - exists s1. rewrite Hb. split; [|done]. split; [done|]. split; [done|done| |intros p; rewrite elem_of_nil; tauto|by rewrite Hb].
    split; [done|by rewrite Hb|apply HI].
  - pose proof (km_pages _ _ _ (vi_kmem _ _ _ _ HI)) as [Hp _]%Forall_cons.
    pose proof (km_nodup _ _ _ (vi_kmem _ _ _ _ HI)) as [Hnin _]%NoDup_cons.
    pose proof (page_ok_bound _ _ Hp). replace (p =? 0) with false by lia.
    rewrite /kstore !bind_modify. set (s2 := set_bytes_of _ (set_bytes_of _ s1)). exists s2.
    assert (kb s2 = with_table (kb s) pgdir (PDX va) p) as Eb by by rewrite /s2 /= Hb.
    assert (¬ tables pgdir T p) as Hnt by (intros Ht; apply (vi_apart _ _ _ _ HI p Ht); by apply list_elem_of_here).
    destruct (ptab_add end_ (kb s) pgdir T (PDX va) p Hpt (PDX_bound va) HT Hp Hnt) as [Hpt' Hpte].
    rewrite Eb. split; [|done]. split; [done|].
    assert (∀ q, tables pgdir (<[PDX va := p]> T) q ↔ tables pgdir T q ∨ q ∈ [p]) as Htab.
    { intros q. rewrite list_elem_of_singleton /tables. split.
      - intros [->|[i [[_ ->]|[_ Hi]]%lookup_insert_Some]]; [tauto..|]. left. eauto.
      - intros [[->|[i Hi]]| ->]; [by left| |right; exists (PDX va); by rewrite lookup_insert_eq].
        right. exists i. rewrite lookup_insert_ne //. intros <-. congruence. }
    assert (memonly s s2) as Hms by (transitivity s1; [done|]; exists (intena (k_cpu s1)); by destruct s1 as [[] ? ? ? ? ? ? ? ? ? ? ?]).
    split; [done|done| |done|].
    + split; [|by rewrite Eb|].
      * change s2 with (set_bytes_of (λ m, with_table m pgdir (PDX va) p) s1).
        apply kmem_inv_store; [done|]. intros v a Hv Ha.
        assert (page_ok end_ v) as Hvok by (apply (proj1 (Forall_forall _ _) (km_pages _ _ _ HI1)); done).
        rewrite byte_with_table; [apply PDX_bound| |].
        { intros Hin. apply (vi_apart _ _ _ _ HI pgdir); [by left|].
          rewrite -(page_disjoint end_ v pgdir a); [done|apply Hpt|done|done|]. by apply list_elem_of_further. }
        rewrite bool_decide_eq_false_2 //. intros Hin. apply Hnin.
        by rewrite (page_disjoint end_ p v a).
      * intros q [Hq| ->%list_elem_of_singleton]%Htab; [|done]. intros Hin.
        apply (vi_apart _ _ _ _ HI q Hq). by apply list_elem_of_further.
    + intros a Ha. rewrite Eb byte_with_table; [apply PDX_bound|apply Ha; left; by left|].
      rewrite bool_decide_eq_false_2 //. apply Ha. right. by apply list_elem_of_here.
Qed.

(** Both cases of walkpgdir() with [alloc] set: it fails only when no page is
    free; otherwise it returns the slot of the entry. *)
Lemma walkpgdir_alloc fl pgdir T va s :
  vm_inv fl pgdir T s → alloc_ready s →
  ∃ r s' T' fl' used, walkpgdir pgdir va true s = Ok r s' ∧ grows pgdir T fl s T' fl' s' used ∧
    (∀ va', pte_of (kb s') pgdir va' = pte_of (kb s) pgdir va') ∧
    (r = 0 ∧ fl' = [] ∨ ∃ p, T' !! PDX va = Some p ∧ r = p + 4 * PTX va).
Proof.
  intros HI Hr. destruct (T !! PDX va) as [p|] eqn:HT.
  { exists (p + 4 * PTX va), s, T, fl, []. split_and!; [by apply (walkpgdir_hit fl _ T)|by apply grows_refl|done|].
    right. by exists p. }
  destruct (walkpgdir_new fl pgdir T va s HI Hr HT) as (s' & Hrun & Hpte).
  destruct fl as [|p fl]; destruct Hrun as [Hrun Hg].
  - exists 0, s', T, [], []. split_and!; [done..|]. by left.
  - exists (p + 4 * PTX va), s', (<[PDX va := p]> T), fl, [p]. split_and!; [done..|]. right. exists p.
    by rewrite lookup_insert_eq.
Qed.

(** Writing one entry of the table. *)
Lemma set_pte fl pgdir T va p v s :
  vm_inv fl pgdir T s → 0 ≤ va < 2 ^ 32 → T !! PDX va = Some p →
  let s' := set_bytes_of (λ m, store32 m (p + 4 * PTX va) v) s in
  grows pgdir T fl s T fl s' [] ∧
  ∀ va', 0 ≤ va' < 2 ^ 32 → pte_of (kb s') pgdir va' =
    if bool_decide (va' / PGSIZE = va / PGSIZE) then u32 v else pte_of (kb s) pgdir va'.
Proof.
  intros HI Hva Hp s'. pose proof (vi_ptab _ _ _ _ HI) as Hpt.
  destruct (ptab_store end_ (kb s) pgdir T va p v Hpt Hva Hp) as [Hpt' Hpte].
  assert (∀ a, ¬ in_page p a → byte (kb s') a = byte (kb s) a) as Hout.
  { intros a Ha. rewrite /s' /=. apply byte_store32_out. intros Hin. apply Ha.
    by apply (in_dir _ (PTX va)); [apply PTX_bound|]. }
  split; [|done]. split; [apply memonly_store|done| |intros q; rewrite elem_of_nil; tauto|].
  - split; [|done|apply HI]. apply kmem_inv_store; [apply HI|]. intros q a Hq Ha. apply Hout. intros Hin.
    assert (page_ok end_ q) as Hqok by by apply (proj1 (Forall_forall _ _) (km_pages _ _ _ (vi_kmem _ _ _ _ HI))).
    apply (vi_apart _ _ _ _ HI p); [right; eauto|].
    rewrite (page_disjoint end_ p q a) //. by apply (pt_tables _ _ _ _ Hpt) in Hp as (_ & ? & _).
  - intros a Ha. apply Hout. apply Ha. left. right. eauto.
Qed.

(** Where mappages() has mapped [k] pages from [va] on. *)
Definition maps (va pa perm k : Z) (f : Z → Z) (va' : Z) : Z :=
  if bool_decide (va ≤ va' < va + k * PGSIZE) then entry (pa + (va' - va) / PGSIZE * PGSIZE) perm else f va'.

Lemma maps_0 va pa perm f va' : maps va pa perm 0 f va' = f va'.
Proof. rewrite /maps bool_decide_eq_false_2 //. lia. Qed.

Lemma maps_S va pa perm k f va' :
  0 ≤ k → va mod PGSIZE = 0 →
  maps (va + PGSIZE) (pa + PGSIZE) perm k
    (λ x, if bool_decide (x / PGSIZE = va / PGSIZE) then entry pa perm else f x) va' =
  maps va pa perm (k + 1) f va'.
Proof.
  rewrite /maps /PGSIZE. intros Hk Ha.
  destruct (decide (va + 4096 ≤ va' < va + 4096 + k * 4096)) as [H1|H1].
  - rewrite !bool_decide_eq_true_2; [lia..|]. f_equal.
    replace (va' - va) with (va' - (va + 4096) + 1 * 4096) by lia. rewrite Z.div_add; lia.
  - rewrite (bool_decide_eq_false_2 (va + 4096 ≤ va' < va + 4096 + k * 4096)) //.
    destruct (decide (va' / 4096 = va / 4096)) as [H2|H2].
    + assert (va ≤ va' < va + 4096) by (Z.to_euclidean_division_equations; lia).
      rewrite !bool_decide_eq_true_2; [lia..|]. rewrite Z.div_small; [lia|]. by rewrite Z.mul_0_l Z.add_0_r.
    + assert (¬ va ≤ va' < va + 4096) by (intros ?; apply H2; Z.to_euclidean_division_equations; lia).
      rewrite !bool_decide_eq_false_2; [done..|lia|done].
Qed.

Lemma mappages_step_Ok fl pgdir T perm last a pa s :
  vm_inv fl pgdir T s → alloc_ready s → 0 ≤ a < 2 ^ 32 →
  pa mod PGSIZE = 0 → 0 ≤ pa → pa + PGSIZE ≤ 2 ^ 32 → 0 ≤ perm < PGSIZE →
  present (pte_of (kb s) pgdir a) = false →
  ∃ s' T' fl' used, grows pgdir T fl s T' fl' s' used ∧
    ((fl' = [] ∧ mappages_step pgdir perm last (a, pa) s = Ok (inr (-1)) s' ∧
      ∀ va', pte_of (kb s') pgdir va' = pte_of (kb s) pgdir va') ∨
     (mappages_step pgdir perm last (a, pa) s =
        Ok (if a =? last then inr 0 else inl (u32 (a + PGSIZE), u32 (pa + PGSIZE))) s' ∧
      ∀ va', 0 ≤ va' < 2 ^ 32 → pte_of (kb s') pgdir va' =
        if bool_decide (va' / PGSIZE = a / PGSIZE) then entry pa perm else pte_of (kb s) pgdir va')).
Proof.
  intros HI Hr Ha Hp0 Hp1 Hp2 Hf Hnp.
  destruct (walkpgdir_alloc fl pgdir T a s HI Hr) as (r & s1 & T1 & fl1 & u1 & Hrun & Hg & Hpte & Hcase).
  rewrite /mappages_step (bind_Ok _ _ _ _ _ Hrun). destruct Hcase as [[-> ->]|(p & Hp & ->)].
  { exists s1, T1, [], u1. split; [done|]. left. done. }
  pose proof (gr_inv _ _ _ _ _ _ _ _ Hg) as HI1. pose proof (vi_ptab _ _ _ _ HI1) as Hpt1.
  pose proof (pt_tables _ _ _ _ Hpt1 _ _ Hp) as (_ & Hpok & _). pose proof (page_ok_bound _ _ Hpok).
  pose proof (PTX_bound a). replace (p + 4 * PTX a =? 0) with false by lia.
  assert (load32 (kb s1) (p + 4 * PTX a) = pte_of (kb s) pgdir a) as E
    by by rewrite -(Hpte a) (pte_of_slot end_ _ _ T1 a Hpt1) Hp.
  rewrite /kload32 bind_gets E Hnp /kstore bind_modify.
  destruct (set_pte fl1 pgdir T1 a p (entry pa perm) s1 HI1 Ha Hp) as [Hg2 Hpte2].
  eexists _, T1, fl1, (u1 ++ []). split; [exact (grows_trans _ _ _ _ _ _ _ _ _ _ _ _ Hg Hg2)|]. right.
  split; [by destruct (a =? last)|]. intros va' Hva'. rewrite Hpte2 // Hpte.
  destruct (entry_spec pa perm) as (-> & _); done.
Qed.

Definition mapped_upto (n r k : Z) (fl : list Z) : Prop :=
  r = 0 ∧ k = n ∨ r = -1 ∧ fl = [] ∧ 0 ≤ k < n.

Lemma mappages_loop n fl pgdir T perm last a pa s :
  last = a + Z.of_nat n * PGSIZE →
  vm_inv fl pgdir T s → alloc_ready s →
  a mod PGSIZE = 0 → 0 ≤ a → a + (Z.of_nat n + 1) * PGSIZE ≤ 2 ^ 32 →
  pa mod PGSIZE = 0 → 0 ≤ pa → pa + (Z.of_nat n + 1) * PGSIZE ≤ 2 ^ 32 → 0 ≤ perm < PGSIZE →
  (∀ va, a ≤ va < a + (Z.of_nat n + 1) * PGSIZE → present (pte_of (kb s) pgdir va) = false) →
  ∃ r k s' T' fl' used,
    loop (S n) (mappages_step pgdir perm last) (a, pa) s = Ok r s' ∧
    grows pgdir T fl s T' fl' s' used ∧ mapped_upto (Z.of_nat n + 1) r k fl' ∧
    ∀ va, 0 ≤ va < 2 ^ 32 → pte_of (kb s') pgdir va = maps a pa perm k (pte_of (kb s) pgdir) va.
Proof.
  revert fl T a pa s. induction n as [|n IH]; intros fl T a pa s El HI Hr Ha Ha0 Ha1 Hp Hp0 Hp1 Hf Hnp;
  (destruct (mappages_step_Ok fl pgdir T perm last a pa s)
    as (s1 & T1 & fl1 & u1 & Hg & [(-> & Hrun & Hpte)|(Hrun & Hpte)]);
    [done|done|pg|done|done|pg|done|apply Hnp; pg| |]).
  all: [> exists (-1), 0, s1, T1, [], u1; split_and!; [by apply loop_done|done|right; split_and!; [done..|lia|lia]|];
       intros va _; by rewrite maps_0| |
   exists (-1), 0, s1, T1, [], u1; split_and!; [by apply loop_done|done|right; split_and!; [done..|lia|lia]|];
       intros va _; by rewrite maps_0|].
  - exists 0, 1, s1, T1, fl1, u1. rewrite Z.mul_0_l Z.add_0_r in El.
    subst last. rewrite Z.eqb_refl in Hrun. split_and!; [by apply loop_done|done|by left|].
    intros va Hva. rewrite Hpte // -(maps_S a pa perm 0) // maps_0 //.
  - pose proof (gr_inv _ _ _ _ _ _ _ _ Hg) as HI1.
    replace (a =? last) with false in Hrun by (pg).
    rewrite !u32_id in Hrun; [pg..|].
    assert (∀ x, x mod PGSIZE = 0 → (x + PGSIZE) mod PGSIZE = 0) as Hal
      by (intros x; rewrite /PGSIZE; intros; Z.to_euclidean_division_equations; lia).
    destruct (IH fl1 T1 (a + PGSIZE) (pa + PGSIZE) s1) as (r & k & s2 & T2 & fl2 & u2 & Hrun2 & Hg2 & Hk & Hpte2);
      [pg|done|by apply (memonly_ready s), Hr; apply Hg|by apply Hal|pg|pg|by apply Hal|pg|pg|done| |].
    { intros va Hva. rewrite Hpte; [pg|]. rewrite bool_decide_eq_false_2.
      - unfold PGSIZE in *. Z.to_euclidean_division_equations. lia.
      - apply Hnp. unfold PGSIZE in *. lia. }
    exists r, (k + 1), s2, T2, fl2, (u1 ++ u2). split_and!.
    + by rewrite (loop_S _ _ _ _ _ _ Hrun).
    + exact (grows_trans _ _ _ _ _ _ _ _ _ _ _ _ Hg Hg2).
    + destruct Hk as [[-> ->]|(-> & -> & ?)]; [left; lia|right; split_and!; [done|done|lia..]].
    + intros va Hva. rewrite Hpte2 // -maps_S; [destruct Hk as [[_ ->]|(_ & _ & ?)]; lia|done|].
      rewrite {1}/maps {1}/maps. case_bool_decide; [done|]. by apply Hpte.
Qed.

(** mappages() on whole pages: it maps all of them and returns 0, or returns -1
    because no page is free for a table. *)
Lemma mappages_Ok fl pgdir T va n pa perm s :
  vm_inv fl pgdir T s → alloc_ready s → 0 < n →
  va mod PGSIZE = 0 → 0 ≤ va → va + n * PGSIZE ≤ 2 ^ 32 →
  pa mod PGSIZE = 0 → 0 ≤ pa → pa + n * PGSIZE ≤ 2 ^ 32 → 0 ≤ perm < PGSIZE →
  (∀ va', va ≤ va' < va + n * PGSIZE → present (pte_of (kb s) pgdir va') = false) →
  ∃ r k s' T' fl' used,
    mappages pgdir va (n * PGSIZE) pa perm s = Ok r s' ∧
    grows pgdir T fl s T' fl' s' used ∧ mapped_upto n r k fl' ∧
    ∀ va', 0 ≤ va' < 2 ^ 32 → pte_of (kb s') pgdir va' = maps va pa perm k (pte_of (kb s) pgdir) va'.
Proof.
  intros HI Hr Hn Ha Ha0 Ha1 Hp Hp0 Hp1 Hf Hnp.
  assert (PGROUNDDOWN va = va) as E1 by (rewrite PGROUNDDOWN_eq; pg).
  assert (PGROUNDDOWN (u32 (va + n * PGSIZE - 1)) = va + (n - 1) * PGSIZE) as E2.
  { rewrite u32_id; [pg|]. rewrite PGROUNDDOWN_eq; [pg|]. unfold PGSIZE in *. Z.to_euclidean_division_equations. lia. }
  rewrite /mappages E1 E2 u32_id; [pg|].
  replace (va + (n - 1) * PGSIZE - va) with ((n - 1) * PGSIZE) by lia. rewrite Z.div_mul; [done|].
  replace n with (Z.of_nat (Z.to_nat (n - 1)) + 1) by lia.
  replace (Z.of_nat (Z.to_nat (n - 1)) + 1 - 1) with (Z.of_nat (Z.to_nat (n - 1))) by lia. rewrite Nat2Z.id.
  apply mappages_loop; [done|done|done|done|done|pg|done|done|pg|done|]. intros va' Hva'. apply Hnp. pg.
Qed.

(** ** The kernel part of an address space *)

(** The pages a kmap entry covers. *)
Definition kmap_pages (k : kmap_entry) : Z := u32 (phys_end k - phys_start k) / PGSIZE.

Definition kmaps (ks : list kmap_entry) (f : Z → Z) : Z → Z :=
  foldl (λ f k, maps (km_virt k) (phys_start k) (km_perm k) (kmap_pages k) f) f ks.

Record kmap_ok (k : kmap_entry) (f : Z → Z) : Prop := {
  kk_size : u32 (phys_end k - phys_start k) = kmap_pages k * PGSIZE;
  kk_pos : 0 < kmap_pages k;
  kk_virt : km_virt k mod PGSIZE = 0 ∧ 0 ≤ km_virt k ∧ km_virt k + kmap_pages k * PGSIZE ≤ 2 ^ 32;
  kk_phys : phys_start k mod PGSIZE = 0 ∧ 0 ≤ phys_start k ∧ phys_start k + kmap_pages k * PGSIZE ≤ 2 ^ 32;
  kk_perm : 0 ≤ km_perm k < PGSIZE;
  kk_free : ∀ va, km_virt k ≤ va < km_virt k + kmap_pages k * PGSIZE → present (f va) = false
}.

Fixpoint kmap_wf (ks : list kmap_entry) (f : Z → Z) : Prop :=
  match ks with
  | [] => True
  | k :: ks' => kmap_ok k f ∧ kmap_wf ks' (kmaps [k] f)
  end.

(** The loop of setupkvm(). *)
Lemma kmap_scan ks f fl pgdir T s :
  vm_inv fl pgdir T s → alloc_ready s → kmap_wf ks f →
  (∀ va, 0 ≤ va < 2 ^ 32 → pte_of (kb s) pgdir va = f va) →
  ∃ r s' T' fl' used,
    scan ks (λ k,
      r ← mappages pgdir (km_virt k) (u32 (phys_end k - phys_start k)) (phys_start k) (km_perm k);
      mret (if r <? 0 then Some 0 else None)) s = Ok r s' ∧
    grows pgdir T fl s T' fl' s' used ∧
    (r = Some 0 ∧ fl' = [] ∨
     r = None ∧ ∀ va, 0 ≤ va < 2 ^ 32 → pte_of (kb s') pgdir va = kmaps ks f va).
Proof.
  revert f fl T s. induction ks as [|k ks IH]; intros f fl T s HI Hr Hwf Hpte.
  { exists None, s, T, fl, []. split_and!; [done|by apply grows_refl|]. by right. }
  destruct Hwf as [[Hsz Hpos (V1 & V2 & V3) (P1 & P2 & P3) Hperm Hfree] Hwf].
  destruct (mappages_Ok fl pgdir T (km_virt k) (kmap_pages k) (phys_start k) (km_perm k) s)
    as (r & n & s1 & T1 & fl1 & u1 & Hrun & Hg & Hn & Hpte1); [done..| |].
  { intros va Hva. rewrite Hpte; [pg|]. by apply Hfree. }
  cbn [scan]. rewrite Hsz bind_assoc (bind_Ok _ _ _ _ _ Hrun) bind_ret.
  destruct Hn as [[-> ->]|(-> & -> & Hn)]; simpl.
  - destruct (IH (kmaps [k] f) fl1 T1 s1) as (r & s2 & T2 & fl2 & u2 & Hrun2 & Hg2 & Hres);
      [apply Hg|apply (memonly_ready s); [apply Hg|done]|done| |].
    { intros va Hva. rewrite Hpte1 // /= /maps. case_bool_decide; [done|by apply Hpte]. }
    exists r, s2, T2, fl2, (u1 ++ u2). split_and!; [done| |done].
    exact (grows_trans _ _ _ _ _ _ _ _ _ _ _ _ Hg Hg2).
  - exists (Some 0), s1, T1, [], u1. split_and!; [done|done|by left].
Qed.

(** A page taken off the free list can be written freely. *)
Lemma own_page_store fl p f s :
  kmem_inv end_ fl s → page_ok end_ p → p ∉ fl →
  (∀ a, ¬ in_page p a → byte (f (kb s)) a = byte (kb s) a) → kmem_inv end_ fl (set_bytes_of f s).
Proof.
  intros HI Hp Hn Hf. apply kmem_inv_store; [done|]. intros v a Hv Ha. apply Hf. intros Hin. apply Hn.
  rewrite (page_disjoint end_ p v a) //. apply (proj1 (Forall_forall _ _) (km_pages _ _ _ HI)). done.
Qed.

Lemma memset_page m p c a :
  byte (memset m p c PGSIZE) a = if bool_decide (in_page p a) then u8 c else byte m a.
Proof. rewrite byte_memset; [pg|]. done. Qed.

(** An empty directory. *)
Lemma empty_dir fl p s :
  kmem_inv end_ fl s → page_ok end_ p → p ∉ fl →
  let s' := set_bytes_of (λ m, memset m p 0 PGSIZE) s in
  vm_inv fl p ∅ s' ∧ ∀ va, pte_of (kb s') p va = 0.
Proof.
  intros HI Hp Hn s'.
  assert (ptab end_ (kb s') p ∅) as Hpt.
  { split; [done| |done|done]. intros i Hi. rewrite lookup_empty load32_zero //. intros k Hk.
    rewrite /s' /= memset_page bool_decide_eq_true_2 //. by apply (in_dir _ i). }
  split.
  - split; [|done|].
    + apply (own_page_store _ p); [done..|]. intros a Ha. by rewrite memset_page bool_decide_eq_false_2.
    + intros q [->|[i Hi]]; [done|]. by rewrite lookup_empty in Hi.
  - intros va. by rewrite (pte_of_slot end_ _ _ ∅ va Hpt) lookup_empty.
Qed.

(** From [s] to [s'], a page table [d] was built from the free pages [used]. *)
Record built (d : Z) (T : gmap Z Z) (fl : list Z) (s : kstate) (fl' : list Z) (s' : kstate)
    (used : list Z) : Prop := {
  bu_mem : memonly s s';
  bu_fl : fl = used ++ fl';
  bu_inv : vm_inv fl' d T s';
  bu_tables : ∀ p, tables d T p ↔ p ∈ used;
  bu_frame : ∀ a, (∀ p, p ∈ used → ¬ in_page p a) → byte (kb s') a = byte (kb s) a
}.

(** The linker symbol [data]: page aligned, after the kernel's text. *)
Record data_ok (data_ : Z) : Prop := {
  da_align : data_ mod PGSIZE = 0;
  da_low : KERNLINK < data_;
  da_high : data_ < KERNBASE + PHYSTOP
}.

Lemma maps_out va pa perm k f va' : ¬ (va ≤ va' < va + k * PGSIZE) → maps va pa perm k f va' = f va'.
Proof. intros. by rewrite /maps bool_decide_eq_false_2. Qed.

Lemma kmap_ok_intro n virt ps pe perm f :
  u32 (pe - ps) = n * PGSIZE → 0 < n →
  virt mod PGSIZE = 0 → 0 ≤ virt → virt + n * PGSIZE ≤ 2 ^ 32 →
  ps mod PGSIZE = 0 → 0 ≤ ps → ps + n * PGSIZE ≤ 2 ^ 32 → 0 ≤ perm < PGSIZE →
  (∀ va, virt ≤ va < virt + n * PGSIZE → f va = 0) →
  kmap_pages (Kmap virt ps pe perm) = n ∧ kmap_ok (Kmap virt ps pe perm) f.
Proof.
  intros Hn Hp V1 V2 V3 P1 P2 P3 Hf Hfree.
  assert (kmap_pages (Kmap virt ps pe perm) = n) as E by by rewrite /kmap_pages /= Hn Z.div_mul.
  split; [done|]. split; rewrite ?E //=. intros va Hva. by rewrite Hfree.
Qed.

Lemma kmap_wf_kmap data_ : data_ok data_ → kmap_wf (kmap data_) (λ _, 0).
Proof.
  intros [Ha Hl Hh].
  set (n2 := (data_ - KERNLINK) / PGSIZE). set (n3 := (KERNBASE + PHYSTOP - data_) / PGSIZE).
  assert (data_ = KERNLINK + n2 * PGSIZE ∧ KERNBASE + PHYSTOP = data_ + n3 * PGSIZE ∧ 0 < n2 ∧ 0 < n3) as (E2 & E3 & H2 & H3).
  { rewrite /n2 /n3 /KERNLINK /KERNBASE /PHYSTOP /EXTMEM /PGSIZE in Ha, Hl, Hh |- *. Z.to_euclidean_division_equations. lia. }
  assert (V2P data_ = data_ - KERNBASE ∧ V2P KERNLINK = EXTMEM) as [Ev Ek].
  { split; [|done]. rewrite /V2P u32_id //. lay. }
  rewrite /kmap Ev Ek. clearbody n2 n3.
  assert ((data_ - KERNBASE) mod PGSIZE = 0) as Ha2 by (unfold PGSIZE, KERNBASE in *; Z.to_euclidean_division_equations; lia).
  destruct (kmap_ok_intro 256 KERNBASE 0 EXTMEM PTE_W (λ _, 0)) as [N1 K1]; [done..|].
  destruct (kmap_ok_intro n2 KERNLINK EXTMEM (data_ - KERNBASE) 0 (maps KERNBASE 0 PTE_W 256 (λ _, 0))) as [N2 K2];
    [rewrite u32_id; lay|done|done|done|lay|done|done|lay|done| |].
  { intros va Hva. rewrite maps_out //. lay. }
  destruct (kmap_ok_intro n3 data_ (data_ - KERNBASE) PHYSTOP PTE_W
    (maps KERNLINK EXTMEM 0 n2 (maps KERNBASE 0 PTE_W 256 (λ _, 0)))) as [N3 K3];
    [rewrite u32_id; lay|done|done|lay|lay|done|lay|lay|done| |].
  { intros va Hva. rewrite !maps_out //; lay. }
  destruct (kmap_ok_intro 8192 DEVSPACE DEVSPACE 0 PTE_W
    (maps data_ (data_ - KERNBASE) PTE_W n3 (maps KERNLINK EXTMEM 0 n2 (maps KERNBASE 0 PTE_W 256 (λ _, 0))))) as [N4 K4];
    [done|done|done|done|lay|done|done|lay|done| |].
  { intros va Hva. rewrite !maps_out //; lay. }
  rewrite /kmap_wf /kmaps /foldl N1 N2 N3. done.
Qed.

(** The kernel's mappings, as setupkvm() makes them. *)
Definition kernel_ptes (data_ : Z) : Z → Z := kmaps (kmap data_) (λ _, 0).

Lemma built_grows d fl p s s1 T' fl' s' used :
  kmem_inv end_ (p :: fl) s → memonly s s1 → (∀ a, ¬ in_page p a → byte (kb s1) a = byte (kb s) a) →
  d = p → grows d ∅ fl s1 T' fl' s' used → built d T' (p :: fl) s fl' s' (p :: used).
Proof.
  intros HI Hm Hb -> [G1 G2 G3 G4 G5]. split.
  - by transitivity s1.
  - by rewrite G2.
  - done.
  - intros q. rewrite G4 elem_of_cons /tables. setoid_rewrite lookup_empty. naive_solver.
  - intros a Ha. rewrite G5.
    + intros q [[->|[i Hi]]|Hq]; [apply Ha, list_elem_of_here|by rewrite lookup_empty in Hi|].
      by apply Ha, list_elem_of_further.
    + apply Hb, Ha, list_elem_of_here.
Qed.

(** setupkvm() builds the kernel part, or fails having used up the free list. *)
Lemma setupkvm_Ok data_ fl s :
  data_ok data_ → kmem_inv end_ fl s → alloc_ready s →
  ∃ d s' fl' used,
    setupkvm data_ s = Ok d s' ∧ memonly s s' ∧ fl = used ++ fl' ∧ kmem_inv end_ fl' s' ∧
    (∀ a, (∀ p, p ∈ used → ¬ in_page p a) → byte (kb s') a = byte (kb s) a) ∧
    (d = 0 ∧ fl' = [] ∧ Z.of_nat (length fl) ≤ 1025 ∨
     d ≠ 0 ∧ ∃ T, built d T fl s fl' s' used ∧
       ∀ va, 0 ≤ va < 2 ^ 32 → pte_of (kb s') d va = kernel_ptes data_ va).
Proof.
  intros Hdata HI Hr. destruct (kalloc_run end_ fl s HI Hr) as (s1 & Hk & Hm & HI1 & Hb).
  rewrite /setupkvm (bind_Ok _ _ _ _ _ Hk). destruct fl as [|p fl].
  { exists 0, s1, [], []. split_and!; [done|done|done|done|by rewrite Hb|left; split_and!; [done|done|cbn [length]; lia]]. }
  cbn [hd tail] in *. pose proof (km_pages _ _ _ HI) as [Hp _]%Forall_cons.
  pose proof (km_nodup _ _ _ HI) as [Hnin _]%NoDup_cons. pose proof (page_ok_bound _ _ Hp).
  replace (p =? 0) with false by lia. rewrite /kstore bind_modify.
  replace (P2V PHYSTOP >? DEVSPACE) with false by done.
  set (s2 := set_bytes_of _ s1). destruct (empty_dir fl p s1 HI1 Hp Hnin) as [HI2 Hz].
  assert (memonly s s2) as Hm2 by (transitivity s1; [done|apply memonly_store]).
  destruct (kmap_scan (kmap data_) (λ _, 0) fl p ∅ s2) as (r & s3 & T & fl' & used & Hrun & Hg & Hres);
    [done|by apply (memonly_ready s)|by apply kmap_wf_kmap|done|].
  assert (built p T (p :: fl) s fl' s3 (p :: used)) as Hbu.
  { apply (built_grows p fl p s s2); [done|done| |done|done].
    intros a Ha. by rewrite /s2 /= memset_page bool_decide_eq_false_2 // Hb. }
  rewrite (bind_Ok _ _ _ _ _ Hrun). exists (default p r), s3, fl', (p :: used).
  split_and!; [done|apply Hbu|apply Hbu|apply Hbu|apply Hbu|].
  destruct Hres as [[-> ->]|[-> Hpte]]; [left|right; split; [simpl; lia|]; eauto]. split_and!; [done..|].
  destruct (tables_list end_ _ _ _ (vi_ptab _ _ _ _ (bu_inv _ _ _ _ _ _ _ Hbu))) as (L & HL & Hin).
  assert (length (p :: fl) ≤ length L)%nat; [|lia]. apply nodup_length; [apply HI|]. intros q Hq. apply Hin, Hbu.
  by rewrite (bu_fl _ _ _ _ _ _ _ Hbu) app_nil_r in Hq.
Qed.

End ops.
