(* ===== verification/VmUser.v ===== *)
(** * User address spaces: allocuvm, deallocuvm, freevm, copyuvm, copyout

    [aspace fl pgdir T U s]: the page table [pgdir] maps exactly the user pages
    of [U] (page number to frame), and its tables, its frames and the free list
    are pairwise apart. The operations are specified by what they do to [U], to
    the contents of the frames and to the pages owned ([owned]), which none of
    them loses. *)

From S2P Require Import Prelude Param Bytes String State Spinlock Console ConsoleSpec Sched Sleeplock Kalloc Vm VmSpec.

Section aspace.
Context (end_ : Z).
Notation kb s := (mem_bytes (k_mem s)).

Record aspace (fl : list Z) (pgdir : Z) (T U : gmap Z Z) (s : kstate) : Prop := {
  as_vm : vm_inv end_ fl pgdir T s;
  as_map : ∀ va, 0 ≤ va < KERNBASE →
    match U !! (va / PGSIZE) with
    | Some p => present (pte_of (kb s) pgdir va) = true ∧ PTE_ADDR (pte_of (kb s) pgdir va) = V2P p
    | None => present (pte_of (kb s) pgdir va) = false
    end;
  as_frames : ∀ n p, U !! n = Some p →
    0 ≤ n < KERNBASE / PGSIZE ∧ page_ok end_ p ∧ p ∉ fl ∧ ¬ tables pgdir T p;
  as_inj : ∀ n n' p, U !! n = Some p → U !! n' = Some p → n = n'
}.

(** The pages of an address space and of the allocator. *)
Definition owned (fl : list Z) (pgdir : Z) (T U : gmap Z Z) (p : Z) : Prop :=
  p ∈ fl ∨ tables pgdir T p ∨ ∃ n, U !! n = Some p.

(** What every operation on the address space guarantees. *)
Record astep (pgdir : Z) (fl : list Z) (T U : gmap Z Z) (s : kstate)
    (fl' : list Z) (T' U' : gmap Z Z) (s' : kstate) : Prop := {
  st_mem : memonly s s';
  st_inv : aspace fl' pgdir T' U' s';
  st_owned : ∀ p, owned fl pgdir T U p ↔ owned fl' pgdir T' U' p;
  st_frame : ∀ a, (∀ p, owned fl pgdir T U p → ¬ in_page p a) → byte (kb s') a = byte (kb s) a;
  st_keep : ∀ n p a, U !! n = Some p → U' !! n = Some p → in_page p a → byte (kb s') a = byte (kb s) a;
  st_kern : ∀ va, KERNBASE ≤ va < 2 ^ 32 → pte_of (kb s') pgdir va = pte_of (kb s) pgdir va;
  st_pte : ∀ va p, 0 ≤ va < KERNBASE → U !! (va / PGSIZE) = Some p → U' !! (va / PGSIZE) = Some p →
    pte_of (kb s') pgdir va = pte_of (kb s) pgdir va
}.

Lemma astep_refl pgdir fl T U s : aspace fl pgdir T U s → astep pgdir fl T U s fl T U s.
Proof. intros HI. split; [reflexivity|done..]. Qed.

Lemma astep_trans pgdir fl T U s fl1 T1 U1 s1 fl2 T2 U2 s2 :
  (∀ n p, U !! n = Some p → U2 !! n = Some p → U1 !! n = Some p) →
  astep pgdir fl T U s fl1 T1 U1 s1 → astep pgdir fl1 T1 U1 s1 fl2 T2 U2 s2 →
  astep pgdir fl T U s fl2 T2 U2 s2.
Proof.
  intros Hmid [A1 A2 A3 A4 A5 A6 A7] [B1 B2 B3 B4 B5 B6 B7]. split.
  - by transitivity s1.
  - done.
  - intros p. by rewrite A3 B3.
  - intros a Ha. rewrite B4; [|by apply A4]. intros p Hp. apply Ha. by apply A3.
  - intros n p a H0 H2 Ha. rewrite (B5 n p) //; [by apply Hmid|]. apply (A5 n p); [done|by apply Hmid|done].
  - intros va Hva. rewrite B6 // A6 //.
  - intros va p Hva H0 H2. rewrite (B7 va p) //; [by apply Hmid|]. apply (A7 va p); [done|done|by apply Hmid].
Qed.

Lemma aspace_pages fl pgdir T U s p : aspace fl pgdir T U s → owned fl pgdir T U p → page_ok end_ p.
Proof.
  intros HI [Hp|[Hp|[n Hn]]].
  - by apply (proj1 (Forall_forall _ _) (km_pages _ _ _ (vi_kmem _ _ _ _ _ (as_vm _ _ _ _ _ HI)))).
  - apply (tables_ok end_ (kb s) pgdir T); [apply (as_vm _ _ _ _ _ HI)|done].
  - by apply (as_frames _ _ _ _ _ HI) in Hn as (_ & ? & _).
Qed.

Lemma user_page_div va : 0 ≤ va < KERNBASE → 0 ≤ va / PGSIZE < KERNBASE / PGSIZE.
Proof. rewrite /KERNBASE /PGSIZE. intros. Z.to_euclidean_division_equations. lia. Qed.

(** Changing a page that is not one of its tables does not change a page table. *)
Lemma ptab_outside m m' pgdir T p :
  ptab end_ m pgdir T → page_ok end_ p → ¬ tables pgdir T p →
  (∀ a, ¬ in_page p a → byte m' a = byte m a) →
  ptab end_ m' pgdir T ∧ ∀ va, pte_of m' pgdir va = pte_of m pgdir va.
Proof.
  intros Hpt Hp Hnt Hb. apply (ptab_frame end_ m m' pgdir T); [|done].
  intros t a Ht Ha. apply Hb. intros Hin. apply Hnt. rewrite (page_disjoint end_ p t a) //.
  by apply (tables_ok end_ m pgdir T).
Qed.

(** ** One user page *)

(** Removing the mapping of a page and freeing its frame. *)
Lemma unmap_page fl pgdir T U s va p q :
  aspace fl pgdir T U s → alloc_ready s → 0 ≤ va < KERNBASE →
  U !! (va / PGSIZE) = Some p → T !! PDX va = Some q →
  ∃ s', (kfree end_ p;; kstore (λ m, store32 m (q + 4 * PTX va) 0)) s = Ok tt s' ∧
    astep pgdir fl T U s (p :: fl) T (delete (va / PGSIZE) U) s'.
Proof.
  intros HI Hr Hva HU HT. pose proof (as_vm _ _ _ _ _ HI) as HV. pose proof (as_frames _ _ _ _ _ HI _ _ HU) as (Hn & Hp & Hnin & Hnt).
  destruct (kfree_run end_ fl p s (vi_kmem _ _ _ _ _ HV) Hr Hp Hnin) as (s1 & Hrun & Hm & HI1 & Hb).
  destruct (ptab_outside (kb s) (kb s1) pgdir T p (vi_ptab _ _ _ _ _ HV) Hp Hnt Hb) as [Hpt1 Hpte1].
  assert (vm_inv end_ (p :: fl) pgdir T s1) as HV1.
  { split; [done|done|]. intros t Ht [->|Hin]%elem_of_cons; [done|]. by apply (vi_apart _ _ _ _ _ HV t). }
  assert (0 ≤ va < 2 ^ 32) as Hva' by (unfold KERNBASE in *; lia).
  destruct (set_pte end_ (p :: fl) pgdir T va q 0 s1 HV1 Hva' HT) as [Hg Hpte2].
  rewrite (bind_Ok _ _ _ _ _ Hrun). eexists. split; [done|].
  set (s2 := set_bytes_of _ s1). fold s2 in Hg, Hpte2.
  assert (∀ a, ¬ in_page p a → (∀ t, tables pgdir T t → ¬ in_page t a) → byte (kb s2) a = byte (kb s) a) as Hbytes.
  { intros a Ha Hta. rewrite (gr_frame _ _ _ _ _ _ _ _ _ Hg); [|by apply Hb].
    intros t [Ht|Ht%elem_of_nil]; [by apply Hta|done]. }
  split.
  - transitivity s1; [done|apply Hg].
  - split; [apply Hg| | |].
    + intros w Hw. rewrite Hpte2; [unfold KERNBASE in *; lia|]. rewrite Hpte1. case_bool_decide as E.
      * by rewrite E lookup_delete_eq.
      * rewrite lookup_delete_ne; [congruence|]. by apply (as_map _ _ _ _ _ HI).
    + intros n r [Hne Hr']%lookup_delete_Some. pose proof (as_frames _ _ _ _ _ HI _ _ Hr') as (? & ? & ? & ?).
      split_and!; [lia..|done| |done]. intros [->|?]%elem_of_cons; [|done].
      apply Hne. by apply (as_inj _ _ _ _ _ HI _ _ p).
    + intros n n' r [_ H1]%lookup_delete_Some [_ H2]%lookup_delete_Some. by apply (as_inj _ _ _ _ _ HI _ _ r).
  - intros r. rewrite /owned elem_of_cons. split.
    + intros [?|[?|[n Hn']]]; [tauto..|]. destruct (decide (n = va / PGSIZE)) as [->|Hne].
      * left. left. congruence.
      * right. right. exists n. rewrite lookup_delete_ne; [congruence|done].
    + intros [[->|?]|[?|(n & [_ Hn']%lookup_delete_Some)]]; [|tauto..|]; right; right; eauto.
  - intros a Ha. apply Hbytes.
    + apply Ha. right. right. eauto.
    + intros t Ht. apply Ha. right. by left.
  - intros n r a Hr1 [Hne _]%lookup_delete_Some Ha.
    pose proof (as_frames _ _ _ _ _ HI _ _ Hr1) as (_ & Hrok & _ & Hrt). apply Hbytes.
    + intros Hin. apply Hne. apply (as_inj _ _ _ _ _ HI _ _ r); [|done]. by rewrite (page_disjoint end_ r p a).
    + intros t Ht Hin. apply Hrt. rewrite (page_disjoint end_ r t a) //.
      by apply (tables_ok end_ (kb s) pgdir T); [apply HV|].
  - intros w Hw. rewrite Hpte2; [unfold KERNBASE in *; lia|]. rewrite bool_decide_eq_false_2; [|apply Hpte1].
    rewrite /KERNBASE /PGSIZE in Hva, Hw |- *. Z.to_euclidean_division_equations. lia.
  - intros w r Hw _ [Hne _]%lookup_delete_Some. rewrite Hpte2; [unfold KERNBASE in *; lia|].
    rewrite bool_decide_eq_false_2; [congruence|apply Hpte1].
Qed.

(** A page outside the tables and the free list stays so, with its contents,
    while the page table grows. *)
Lemma grows_apart pgdir T fl s T' fl' s' used p :
  vm_inv end_ fl pgdir T s → grows end_ pgdir T fl s T' fl' s' used → page_ok end_ p → p ∉ fl → ¬ tables pgdir T p →
  p ∉ fl' ∧ ¬ tables pgdir T' p ∧ ∀ a, in_page p a → byte (kb s') a = byte (kb s) a.
Proof.
  intros HV [G1 -> G3 G4 G5] Hp Hnf Hnt. rewrite elem_of_app in Hnf. split_and!; [tauto| |].
  - rewrite G4. tauto.
  - intros a Ha. apply G5. intros q Hq Hin.
    assert (q = p) as ->; [|tauto]. apply (page_disjoint end_ _ _ a); [|done..]. destruct Hq as [Hq|Hq].
    + by apply (tables_ok end_ (kb s) pgdir T); [apply HV|].
    + apply (proj1 (Forall_forall _ _) (km_pages _ _ _ (vi_kmem _ _ _ _ _ HV))). rewrite elem_of_app. by left.
Qed.

Lemma grows_owned pgdir T fl s T' fl' s' used U p :
  grows end_ pgdir T fl s T' fl' s' used → owned fl pgdir T U p ↔ owned fl' pgdir T' U p.
Proof. intros [_ -> _ G4 _]. rewrite /owned G4 elem_of_app. tauto. Qed.

(** New page tables that map nothing. *)
Lemma grows_astep pgdir T fl s T' fl' s' used U :
  aspace fl pgdir T U s → grows end_ pgdir T fl s T' fl' s' used →
  (∀ va, 0 ≤ va < 2 ^ 32 → pte_of (kb s') pgdir va = pte_of (kb s) pgdir va) →
  astep pgdir fl T U s fl' T' U s'.
Proof.
  intros HI Hg Hpte. pose proof (as_vm _ _ _ _ _ HI) as HV.
  assert (∀ n p, U !! n = Some p → p ∉ fl' ∧ ¬ tables pgdir T' p ∧ ∀ a, in_page p a → byte (kb s') a = byte (kb s) a) as Hap.
  { intros n p Hn. pose proof (as_frames _ _ _ _ _ HI _ _ Hn) as (_ & H1 & H2 & H3).
    exact (grows_apart _ _ _ _ _ _ _ _ _ HV Hg H1 H2 H3). }
  split.
  - apply Hg.
  - split; [apply Hg| | |apply HI].
    + intros va Hva. rewrite Hpte; [unfold KERNBASE in *; lia|]. by apply HI.
    + intros n p Hn. pose proof (as_frames _ _ _ _ _ HI _ _ Hn) as (? & ? & _). destruct (Hap _ _ Hn) as (? & ? & _). done.
  - intros p. by apply (grows_owned _ _ _ s _ _ s' used).
  - intros a Ha. apply (gr_frame _ _ _ _ _ _ _ _ _ Hg). intros p Hp. apply Ha. rewrite /owned.
    rewrite (gr_fl _ _ _ _ _ _ _ _ _ Hg) elem_of_app. tauto.
  - intros n p a Hn _. by apply (Hap n).
  - intros va Hva. apply Hpte. unfold KERNBASE in *; lia.
  - intros va p Hva _ _. apply Hpte. unfold KERNBASE in *; lia.
Qed.

(** Taking the first free page: it belongs to nobody and may be written. *)
Lemma take_page fl pgdir T U s p s1 :
  aspace (p :: fl) pgdir T U s → memonly s s1 → kmem_inv end_ fl s1 →
  (∀ a, ¬ in_page p a → byte (kb s1) a = byte (kb s) a) →
  aspace fl pgdir T U s1 ∧ page_ok end_ p ∧ ¬ owned fl pgdir T U p ∧
  ∀ va, pte_of (kb s1) pgdir va = pte_of (kb s) pgdir va.
Proof.
  intros HI Hm HI1 Hb. pose proof (as_vm _ _ _ _ _ HI) as HV. pose proof (vi_kmem _ _ _ _ _ HV) as HK.
  pose proof (km_pages _ _ _ HK) as [Hp _]%Forall_cons. pose proof (km_nodup _ _ _ HK) as [Hnin _]%NoDup_cons.
  assert (¬ tables pgdir T p) as Hnt by (intros Ht; apply (vi_apart _ _ _ _ _ HV p Ht), list_elem_of_here).
  destruct (ptab_outside (kb s) (kb s1) pgdir T p (vi_ptab _ _ _ _ _ HV) Hp Hnt Hb) as [Hpt Hpte].
  split_and!; [|done| |done].
  - split; [split; [done|done|]| | |apply HI].
    + intros t Ht Hin. apply (vi_apart _ _ _ _ _ HV t Ht). by apply list_elem_of_further.
    + intros va Hva. rewrite Hpte. by apply HI.
    + intros n q Hn. pose proof (as_frames _ _ _ _ _ HI _ _ Hn) as (? & ? & Hq & ?). split_and!; [lia..|done| |done].
      intros Hin. apply Hq. by apply list_elem_of_further.
  - intros [?|[?|[n Hn]]]; [done..|]. pose proof (as_frames _ _ _ _ _ HI _ _ Hn) as (_ & _ & Hq & _).
    apply Hq, list_elem_of_here.
Qed.

(** Giving a page back. *)
Lemma give_page fl pgdir T U s p :
  aspace fl pgdir T U s → alloc_ready s → page_ok end_ p → ¬ owned fl pgdir T U p →
  ∃ s', kfree end_ p s = Ok tt s' ∧ memonly s s' ∧ aspace (p :: fl) pgdir T U s' ∧
    (∀ va, pte_of (kb s') pgdir va = pte_of (kb s) pgdir va) ∧
    ∀ a, ¬ in_page p a → byte (kb s') a = byte (kb s) a.
Proof.
  intros HI Hr Hp Hno. pose proof (as_vm _ _ _ _ _ HI) as HV.
  assert (p ∉ fl) as Hnf by (intros ?; apply Hno; by left).
  assert (¬ tables pgdir T p) as Hnt by (intros ?; apply Hno; right; by left).
  destruct (kfree_run end_ fl p s (vi_kmem _ _ _ _ _ HV) Hr Hp Hnf) as (s' & Hrun & Hm & HI' & Hb).
  destruct (ptab_outside (kb s) (kb s') pgdir T p (vi_ptab _ _ _ _ _ HV) Hp Hnt Hb) as [Hpt Hpte].
  exists s'. split_and!; [done..| |done|done].
  split; [split; [done|done|]| | |apply HI].
  - intros t Ht [->|Hin]%elem_of_cons; [done|]. by apply (vi_apart _ _ _ _ _ HV t).
  - intros va Hva. rewrite Hpte. by apply HI.
  - intros n q Hn. pose proof (as_frames _ _ _ _ _ HI _ _ Hn) as (? & ? & Hq & ?). split_and!; [lia..|done| |done].
    intros [->|Hin]%elem_of_cons; [|done]. apply Hno. right. right. eauto.
Qed.

(** The page table after a fresh frame [p] is mapped at the page of [va]. *)
Lemma mapped_astep fl pgdir T U s p s1 va perm T' fl' s' used :
  aspace (p :: fl) pgdir T U s → memonly s s1 → kmem_inv end_ fl s1 →
  (∀ a, ¬ in_page p a → byte (kb s1) a = byte (kb s) a) →
  0 ≤ va < KERNBASE → U !! (va / PGSIZE) = None → 0 ≤ perm < PGSIZE →
  grows end_ pgdir T fl s1 T' fl' s' used →
  (∀ w, 0 ≤ w < 2 ^ 32 → pte_of (kb s') pgdir w =
     if bool_decide (w / PGSIZE = va / PGSIZE) then entry (V2P p) perm else pte_of (kb s1) pgdir w) →
  astep pgdir (p :: fl) T U s fl' T' (<[va / PGSIZE := p]> U) s'.
Proof.
  intros HI Hm HK1 Hb Hva HU Hf Hg Hpte.
  destruct (take_page fl pgdir T U s p s1 HI Hm HK1 Hb) as (HI1 & Hp & Hno & Hpte1).
  pose proof (as_vm _ _ _ _ _ HI1) as HV1.
  assert (∀ q, page_ok end_ q → q ∉ fl → ¬ tables pgdir T q →
    q ∉ fl' ∧ ¬ tables pgdir T' q ∧ ∀ a, in_page q a → byte (kb s') a = byte (kb s1) a) as Hap
    by (intros q; exact (grows_apart _ _ _ _ _ _ _ _ q HV1 Hg)).
  assert (p ∉ fl' ∧ ¬ tables pgdir T' p) as [Hpf Hpt].
  { destruct (Hap p Hp) as (? & ? & _); [| |done]; intros ?; apply Hno; [by left|right; by left]. }
  assert (∀ n q, U !! n = Some q → p ≠ q) as Hpq by (intros n q Hn ->; apply Hno; right; right; eauto).
  destruct (page_V2P _ _ Hp) as (_ & P1 & P2 & P3 & _).
  destruct (entry_spec (V2P p) perm) as (_ & E1 & E2 & _); [done|done|rewrite /PHYSTOP in P3; lia|done|].
  assert (∀ w, KERNBASE ≤ w → w / PGSIZE ≠ va / PGSIZE) as Hkern
    by (intros w Hw; rewrite /KERNBASE /PGSIZE in Hva, Hw |- *; Z.to_euclidean_division_equations; lia).
  split.
  - transitivity s1; [done|apply Hg].
  - split; [apply Hg| | |].
    + intros w Hw. rewrite Hpte; [unfold KERNBASE in *; lia|]. case_bool_decide as E.
      * by rewrite E lookup_insert_eq.
      * rewrite lookup_insert_ne; [congruence|]. by apply (as_map _ _ _ _ _ HI1).
    + intros n q [[<- <-]|[_ Hn]]%lookup_insert_Some; [split_and!; [by apply user_page_div..|done|done|done]|].
      pose proof (as_frames _ _ _ _ _ HI1 _ _ Hn) as (? & Hq & Hqf & Hqt). by destruct (Hap q Hq Hqf Hqt) as (? & ? & _).
    + intros n n' q [[<- <-]|[_ Hn]]%lookup_insert_Some [[<- Eq]|[_ Hn']]%lookup_insert_Some; [done| | |].
      * by destruct (Hpq _ _ Hn').
      * by destruct (Hpq _ _ Hn).
      * by apply (as_inj _ _ _ _ _ HI1 _ _ q).
  - intros q. trans (q = p ∨ owned fl pgdir T U q); [rewrite /owned elem_of_cons; tauto|].
    rewrite (grows_owned _ _ _ s1 _ _ s' used U q Hg) /owned. split.
    + intros [->|[?|[?|[n Hn]]]]; [right; right; eexists; by apply lookup_insert_eq|tauto..|].
      right. right. exists n. rewrite lookup_insert_ne //. congruence.
    + intros [?|[?|(n & [[_ <-]|[_ Hn]]%lookup_insert_Some)]]; [tauto..|by left|]. right. right. right. eauto.
  - intros a Ha. rewrite (gr_frame _ _ _ _ _ _ _ _ _ Hg); [|apply Hb, Ha; left; apply list_elem_of_here].
    intros q Hq. apply Ha. rewrite /owned elem_of_cons (gr_fl _ _ _ _ _ _ _ _ _ Hg) elem_of_app. tauto.
  - intros n q a Hn _ Ha. pose proof (as_frames _ _ _ _ _ HI1 _ _ Hn) as (_ & Hq & Hqf & Hqt).
    destruct (Hap q Hq Hqf Hqt) as (_ & _ & Hbq). rewrite Hbq //. apply Hb. intros Hin.
    apply (Hpq _ _ Hn). by apply (page_disjoint end_ _ _ a).
  - intros w Hw. rewrite Hpte; [unfold KERNBASE in *; lia|]. rewrite bool_decide_eq_false_2; [apply Hkern; lia|apply Hpte1].
  - intros w q Hw Hn _. rewrite Hpte; [unfold KERNBASE in *; lia|].
    rewrite bool_decide_eq_false_2; [congruence|apply Hpte1].
Qed.

Lemma map_page fl pgdir T U s p s1 va perm :
  aspace (p :: fl) pgdir T U s → memonly s s1 → kmem_inv end_ fl s1 →
  (∀ a, ¬ in_page p a → byte (kb s1) a = byte (kb s) a) → alloc_ready s →
  0 ≤ va < KERNBASE → va mod PGSIZE = 0 → U !! (va / PGSIZE) = None → 0 ≤ perm < PGSIZE →
  ∃ r s' T' fl', mappages pgdir va PGSIZE (V2P p) perm s1 = Ok r s' ∧
    (∀ a, in_page p a → byte (kb s') a = byte (kb s1) a) ∧
    (r = 0 ∧ astep pgdir (p :: fl) T U s fl' T' (<[va / PGSIZE := p]> U) s' ∧
       (∀ w, 0 ≤ w < 2 ^ 32 → w / PGSIZE = va / PGSIZE → pte_of (kb s') pgdir w = entry (V2P p) perm) ∨
     r = -1 ∧ fl' = [] ∧ astep pgdir fl T U s1 [] T' U s').
Proof.
  intros HI Hm HK1 Hb Hr Hva Hal HU Hf.
  destruct (take_page fl pgdir T U s p s1 HI Hm HK1 Hb) as (HI1 & Hp & Hno & Hpte1).
  destruct (page_V2P _ _ Hp) as (_ & P1 & P2 & P3 & _).
  destruct (mappages_Ok end_ fl pgdir T va 1 (V2P p) perm s1) as (r & k & s' & T' & fl' & used & Hrun & Hg & Hk & Hpte);
    [apply HI1|by apply (memonly_ready s)|done|done|lia|rewrite /KERNBASE in Hva; pg|done|done|rewrite /PHYSTOP in P3; pg|done| |].
  { intros w Hw. assert (w / PGSIZE = va / PGSIZE) as E by (unfold PGSIZE in *; Z.to_euclidean_division_equations; lia).
    pose proof (as_map _ _ _ _ _ HI1 w) as Hw'. rewrite E HU in Hw'. apply Hw'.
    rewrite /KERNBASE /PGSIZE in Hva, Hw, Hal |- *. Z.to_euclidean_division_equations. lia. }
  rewrite Z.mul_1_l in Hrun. exists r, s', T', fl'. split; [done|]. split.
  { apply (grows_apart _ _ _ _ _ _ _ _ p (as_vm _ _ _ _ _ HI1) Hg Hp); intros ?; apply Hno; [by left|right; by left]. }
  destruct Hk as [[-> ->]|(-> & -> & Hk)].
  - left. split; [done|].
    assert (∀ w, 0 ≤ w < 2 ^ 32 → pte_of (kb s') pgdir w =
      if bool_decide (w / PGSIZE = va / PGSIZE) then entry (V2P p) perm else pte_of (kb s1) pgdir w) as Hpte'.
    { intros w Hw. rewrite Hpte // -(maps_S va (V2P p) perm 0) // maps_0 //. }
    split; [by apply (mapped_astep fl pgdir T U s p s1 va perm T' fl' s' used)|].
    intros w Hw E. rewrite Hpte' // bool_decide_eq_true_2 //.
  - right. split_and!; [done..|]. apply (grows_astep _ _ _ _ _ _ _ used); [done..|].
    intros w Hw. rewrite Hpte //. replace k with 0 by lia. apply maps_0.
Qed.

(** ** deallocuvm *)

Context (Hend : KERNBASE < end_).

(** From page [n0] on, the user pages have no hole. *)
Definition dense (n0 : Z) (U : gmap Z Z) : Prop :=
  ∀ n n', n0 ≤ n' ≤ n → is_Some (U !! n) → is_Some (U !! n').

Definition removed (n0 sz : Z) (U U' : gmap Z Z) : Prop :=
  ∀ n, U' !! n = if bool_decide (n0 ≤ n ∧ n * PGSIZE < sz) then None else U !! n.

Lemma dense_empty n0 U : dense n0 U → U !! n0 = None → ∀ n, n0 ≤ n → U !! n = None.
Proof.
  intros Hd H0 n Hn. apply eq_None_not_Some. intros HS. apply (Hd n n0) in HS; [|lia].
  by rewrite H0 in HS; destruct HS.
Qed.

(** One iteration: it removes the page at [a], or finds that the rest is empty. *)
Lemma deallocuvm_step_Ok fl pgdir T U s oldsz a :
  aspace fl pgdir T U s → alloc_ready s → oldsz ≤ KERNBASE → 0 ≤ a < oldsz → a mod PGSIZE = 0 →
  dense (a / PGSIZE) U →
  ∃ a' s' fl' U', deallocuvm_step end_ pgdir oldsz a s = Ok (inl a') s' ∧
    astep pgdir fl T U s fl' T U' s' ∧ U' = delete (a / PGSIZE) U ∧
    (a' = a + PGSIZE ∨ a' = a + 1024 * PGSIZE ∧ U !! (a / PGSIZE) = None).
Proof.
  intros HI Hr Hsz Ha Hal Hd. pose proof (as_vm _ _ _ _ _ HI) as HV.
  assert (0 ≤ a < KERNBASE) as Hak by lia. pose proof (as_map _ _ _ _ _ HI a Hak) as Hmap.
  rewrite (pte_of_slot end_ _ _ T a (vi_ptab _ _ _ _ _ HV)) in Hmap.
  assert (u32 (a + PGSIZE) = a + PGSIZE ∧ u32 (u32 (a + (NPTENTRIES - 1) * PGSIZE) + PGSIZE) = a + 1024 * PGSIZE) as [E1 E2].
  { rewrite /NPTENTRIES /PGSIZE. rewrite /KERNBASE in Hak. rewrite !u32_id; lia. }
  rewrite /deallocuvm_step. replace (a <? oldsz) with true by lia. cbn [negb]. rewrite E1 E2.
  destruct (T !! PDX a) as [q|] eqn:HT.
  - rewrite (bind_Ok _ _ _ _ _ (walkpgdir_hit end_ fl pgdir T a false q s HV HT)).
    pose proof (pt_tables _ _ _ _ (vi_ptab _ _ _ _ _ HV) _ _ HT) as (_ & Hq & _). pose proof (page_ok_bound _ _ Hq).
    pose proof (PTX_bound a). replace (q + 4 * PTX a =? 0) with false by lia. rewrite /kload32 bind_gets.
    destruct (U !! (a / PGSIZE)) as [p|] eqn:HU.
    + destruct Hmap as [-> ->]. pose proof (as_frames _ _ _ _ _ HI _ _ HU) as (_ & Hp & _).
      destruct (page_V2P _ _ Hp) as (E & _ & _ & _ & ->). pose proof (pg_end _ _ Hp).
      replace (V2P p =? 0) with false by lia.
      destruct (unmap_page fl pgdir T U s a p q HI Hr Hak HU HT) as (s' & Hrun & Hst).
      rewrite (bind_Ok _ _ _ _ _ Hrun). eexists _, s', _, _. split_and!; [done|exact Hst|done|by left].
    + rewrite Hmap bind_ret. eexists _, s, fl, U. split_and!; [done|by apply astep_refl|by rewrite delete_id|by left].
  - rewrite (bind_Ok _ _ _ _ _ (walkpgdir_miss end_ fl pgdir T a s HV HT)).
    destruct (U !! (a / PGSIZE)) as [p|] eqn:HU; [by destruct Hmap|].
    eexists _, s, fl, U. split_and!; [done|by apply astep_refl|by rewrite delete_id|by right].
Qed.

Lemma deallocuvm_loop fuel fl pgdir T U s oldsz a :
  aspace fl pgdir T U s → alloc_ready s → oldsz ≤ KERNBASE → 0 ≤ a → a mod PGSIZE = 0 →
  dense (a / PGSIZE) U → oldsz - a ≤ (Z.of_nat fuel - 1) * PGSIZE → (0 < fuel)%nat →
  ∃ s' fl' U', loop fuel (deallocuvm_step end_ pgdir oldsz) a s = Ok tt s' ∧
    astep pgdir fl T U s fl' T U' s' ∧ removed (a / PGSIZE) oldsz U U'.
Proof.
  revert fl U s a. induction fuel as [|fuel IH]; intros fl U s a HI Hr Hsz Ha Hal Hd Hfuel Hpos; [lia|].
  destruct (decide (a < oldsz)) as [Hlt|Hge].
  2: { exists s, fl, U. split_and!; [|by apply astep_refl|].
    - apply loop_done. rewrite /deallocuvm_step. by replace (a <? oldsz) with false by lia.
    - intros n. rewrite bool_decide_eq_false_2 //. unfold PGSIZE in *. Z.to_euclidean_division_equations. lia. }
  destruct (deallocuvm_step_Ok fl pgdir T U s oldsz a) as (a' & s1 & fl1 & U1 & Hrun & Hst & -> & Ha'); [done..|].
  assert (a' mod PGSIZE = 0 ∧ a / PGSIZE < a' / PGSIZE ∧ a + PGSIZE ≤ a') as (Hal' & Hlt' & Hadv).
  { unfold PGSIZE in *. destruct Ha' as [->|[-> _]]; Z.to_euclidean_division_equations; lia. }
  assert (dense (a' / PGSIZE) (delete (a / PGSIZE) U)) as Hd'.
  { intros n n' Hn. rewrite !lookup_delete_ne; [lia..|]. apply Hd. lia. }
  destruct (IH fl1 (delete (a / PGSIZE) U) s1 a') as (s2 & fl2 & U2 & Hrun2 & Hst2 & Hrem);
    [apply Hst|apply (memonly_ready s); [apply Hst|done]|done|pg|done|done|pg|pg|].
  exists s2, fl2, U2. split_and!.
  - by rewrite (loop_S _ _ _ _ _ _ Hrun).
  - apply (astep_trans _ _ _ _ _ fl1 T (delete (a / PGSIZE) U) s1); [|done|done].
    intros n p _ H2. rewrite Hrem in H2. case_bool_decide; done.
  - intros n. rewrite Hrem. destruct (decide (n = a / PGSIZE)) as [->|Hne].
    { rewrite bool_decide_eq_false_2; [lia|]. rewrite lookup_delete_eq bool_decide_eq_true_2 //.
      unfold PGSIZE in *. Z.to_euclidean_division_equations. lia. }
    rewrite lookup_delete_ne; [congruence|]. destruct Ha' as [->|[-> HU]].
    + rewrite (bool_decide_ext ((a + PGSIZE) / PGSIZE ≤ n ∧ n * PGSIZE < oldsz) (a / PGSIZE ≤ n ∧ n * PGSIZE < oldsz)) //.
      unfold PGSIZE in *. Z.to_euclidean_division_equations. lia.
    + destruct (decide (a / PGSIZE ≤ n)) as [Hn|Hn].
      * rewrite (dense_empty _ _ Hd HU n Hn). by repeat case_bool_decide.
      * rewrite !bool_decide_eq_false_2 //; lia.
Qed.

Lemma PGROUNDUP_spec x :
  0 ≤ x ≤ KERNBASE → PGROUNDUP x mod PGSIZE = 0 ∧ x ≤ PGROUNDUP x < x + PGSIZE.
Proof.
  intros Hx. rewrite /KERNBASE in Hx. rewrite PGROUNDUP_eq; [pg..|].
  unfold PGSIZE. Z.to_euclidean_division_equations. lia.
Qed.

Lemma deallocuvm_run fl pgdir T U s oldsz newsz :
  aspace fl pgdir T U s → alloc_ready s → 0 ≤ newsz < oldsz → oldsz ≤ KERNBASE →
  dense (PGROUNDUP newsz / PGSIZE) U →
  ∃ s' fl' U', deallocuvm end_ pgdir oldsz newsz s = Ok newsz s' ∧
    astep pgdir fl T U s fl' T U' s' ∧ removed (PGROUNDUP newsz / PGSIZE) oldsz U U'.
Proof.
  intros HI Hr Hsz Hk Hd. destruct (PGROUNDUP_spec newsz) as [Hal Hb]; [lia|].
  destruct (deallocuvm_loop (S (S (Z.to_nat (oldsz / PGSIZE)))) fl pgdir T U s oldsz (PGROUNDUP newsz))
    as (s' & fl' & U' & Hrun & Hst & Hrem); [done|done|done|lia|done|done| |lia|].
  { unfold PGSIZE in *. Z.to_euclidean_division_equations. lia. }
  exists s', fl', U'. split_and!; [|done|done]. rewrite /deallocuvm.
  replace (newsz >=? oldsz) with false by lia. by rewrite (bind_Ok _ _ _ _ _ Hrun).
Qed.

(** ** allocuvm *)

(** Critical sections of the allocator that change no byte. *)
Lemma quiet_astep fl pgdir T U s s' :
  aspace fl pgdir T U s → memonly s s' → kmem_inv end_ fl s' → kb s' = kb s →
  astep pgdir fl T U s fl T U s'.
Proof.
  intros [[HK Hpt Hap] Hmap Hfr Hinj] Hm HK' Hb. split; rewrite ?Hb //.
  split; rewrite ?Hb //. split; rewrite ?Hb //.
Qed.

(** A page held aside during a step and given back. *)
Lemma limbo_astep p pgdir fl T U s s2 fl' T' U' s3 s4 :
  (∀ n q, U !! n = Some q → p ≠ q) → page_ok end_ p →
  aspace (p :: fl) pgdir T U s → memonly s s2 → (∀ a, ¬ in_page p a → byte (kb s2) a = byte (kb s) a) →
  (∀ va, pte_of (kb s2) pgdir va = pte_of (kb s) pgdir va) →
  astep pgdir fl T U s2 fl' T' U' s3 →
  memonly s3 s4 → aspace (p :: fl') pgdir T' U' s4 → (∀ a, ¬ in_page p a → byte (kb s4) a = byte (kb s3) a) →
  (∀ va, pte_of (kb s4) pgdir va = pte_of (kb s3) pgdir va) →
  astep pgdir (p :: fl) T U s (p :: fl') T' U' s4.
Proof.
  intros Hpq Hp HI Hm Hb Hpte [B1 B2 B3 B4 B5 B6 B7] Hm4 HI4 Hb4 Hpte4. split.
  - transitivity s2; [done|]. by transitivity s3.
  - done.
  - intros q. specialize (B3 q). rewrite /owned !elem_of_cons in B3 |- *. tauto.
  - intros a Ha. assert (¬ in_page p a) as Hpa by (apply Ha; left; apply list_elem_of_here).
    rewrite Hb4 // B4; [|by apply Hb]. intros q Hq. apply Ha. rewrite /owned elem_of_cons in Hq |- *. tauto.
  - intros n q a Hn Hn' Ha.
    assert (¬ in_page p a) as Hpa.
    { intros Hin. apply (Hpq n q Hn). apply (page_disjoint end_ _ _ a); [done| |done|done].
      by apply (as_frames _ _ _ _ _ HI) in Hn as (_ & ? & _). }
    rewrite Hb4 // (B5 n q) //. by apply Hb.
  - intros va Hva. by rewrite Hpte4 B6 // Hpte.
  - intros va q Hva Hn Hn'. rewrite Hpte4 (B7 va q) // Hpte //.
Qed.

(** Printing does not touch memory: a step is one from the state with the text
    already printed. *)
Lemma memonly_cons x s s' : memonly s s' → memonly (set_cons x s) (set_cons x s').
Proof. intros [ie E]. exists ie. set (m := k_mem s') in E. clearbody m. by subst s'. Qed.

Lemma aspace_cons x fl pgdir T U s : aspace fl pgdir T U s → aspace fl pgdir T U (set_cons x s).
Proof. intros [[[] ? ?] ? ? ?]. split; [|done..]. split; [|done..]. by split. Qed.

Lemma astep_cons x pgdir fl T U s fl' T' U' s' :
  astep pgdir fl T U s fl' T' U' s' → astep pgdir fl T U (set_cons x s) fl' T' U' (set_cons x s').
Proof. intros [A1 A2 A3 A4 A5 A6 A7]. split; [by apply memonly_cons|by apply aspace_cons|done..]. Qed.

(** The console can print: it is not in a panic and its lock is free. *)
Definition printable (s : kstate) : Prop := cons_ok (cons_of s) ∧ k_locks s !! LkCons = None.

Lemma memonly_printable s s' : memonly s s' → printable s → printable s'.
Proof. intros [ie ->]. done. Qed.

(** A message of allocuvm(). *)
Lemma diagnose fmt out s s' :
  format fmt [] = Some out → printable s → alloc_ready s' → memonly s s' →
  ∃ x s2, cprintf fmt [] s' = Ok tt s2 ∧ memonly (set_cons x s) s2 ∧ alloc_ready s2 ∧
    kb s2 = kb s' ∧ (∀ fl, kmem_inv end_ fl s' → kmem_inv end_ fl s2) ∧
    printed (concat (echo <$> out)) (cons_of s) x.
Proof.
  intros Hf Hp Hr Hm. destruct (memonly_printable _ _ Hm Hp) as [Hc Hl].
  destruct (cprintf_Ok fmt [] out s' Hf Hc Hl) as (x & c & Hrun & Hpr & Hcpu); [apply Hr|].
  exists x. eexists. split; [exact Hrun|]. destruct Hm as [ie E].
  set (m := k_mem s') in E. clearbody m. subst s'. split_and!.
  - destruct Hcpu as [-> | ->]; by eexists.
  - split; [apply Hr|]. destruct Hr as [_ Hr]. by destruct Hcpu as [-> | ->].
  - done.
  - by intros fl [].
  - exact Hpr.
Qed.

(** Pages [n0..n1) were added. *)
Definition grown (n0 n1 : Z) (U U' : gmap Z Z) : Prop :=
  ∀ n, if bool_decide (n0 ≤ n < n1) then is_Some (U' !! n) else U' !! n = U !! n.

(** The pages [n0..n1) are mapped writable for the user and hold zeros. *)
Definition zeroed (n0 n1 pgdir : Z) (U : gmap Z Z) (s : kstate) : Prop :=
  ∀ va p, 0 ≤ va < KERNBASE → n0 ≤ va / PGSIZE < n1 → U !! (va / PGSIZE) = Some p →
    pte_of (kb s) pgdir va = entry (V2P p) (Z.lor PTE_W PTE_U) ∧
    ∀ a, in_page p a → byte (kb s) a = 0.

Lemma zeroed_astep n0 n1 pgdir fl T U s fl' T' U' s' :
  astep pgdir fl T U s fl' T' U' s' → (∀ n, n0 ≤ n < n1 → is_Some (U !! n)) → U ⊆ U' →
  zeroed n0 n1 pgdir U s → zeroed n0 n1 pgdir U' s'.
Proof.
  intros Hst HU Hsub Hz va p Hva Hn Hp. destruct (HU _ Hn) as [q Hq].
  assert (q = p) as -> by (eapply (lookup_weaken _ _ _ _ Hq) in Hsub; congruence).
  destruct (Hz va p Hva Hn Hq) as [E1 E2]. split.
  - by rewrite (st_pte _ _ _ _ _ _ _ _ _ Hst va p).
  - intros a Ha. rewrite (st_keep _ _ _ _ _ _ _ _ _ Hst (va / PGSIZE) p a) //. by apply E2.
Qed.

(** What a failed allocuvm() has to undo: [U1] is [U] with pages added, and
    deallocuvm() takes them away again. *)
Lemma undo_alloc fl pgdir T U U1 s oldsz newsz a :
  aspace fl pgdir T U1 s → alloc_ready s → 0 ≤ oldsz ≤ a → a < newsz → newsz ≤ KERNBASE → a mod PGSIZE = 0 →
  (∀ n, PGROUNDUP oldsz / PGSIZE ≤ n → U !! n = None) →
  grown (PGROUNDUP oldsz / PGSIZE) (a / PGSIZE) U U1 →
  ∃ s' fl', deallocuvm end_ pgdir newsz oldsz s = Ok oldsz s' ∧ astep pgdir fl T U1 s fl' T U s'.
Proof.
  intros HI Hr Ho Ha Hk Hal Hfresh Hgr. set (n0 := PGROUNDUP oldsz / PGSIZE) in *.
  destruct (deallocuvm_run fl pgdir T U1 s newsz oldsz) as (s' & fl' & U' & Hrun & Hst & Hrem); [done|done|lia|lia| |].
  { intros n n' Hn [p Hp]. specialize (Hgr n) as H1. specialize (Hgr n') as H2. fold n0 in Hn.
    destruct (decide (n0 ≤ n < a / PGSIZE)) as [Hin|Hout].
    - rewrite bool_decide_eq_true_2 in H2; [lia|done].
    - rewrite bool_decide_eq_false_2 // in H1. rewrite Hfresh in H1; [lia|]. congruence. }
  assert (U' = U) as ->; [|eauto]. apply map_eq. intros n. rewrite (Hrem n). fold n0.
  specialize (Hgr n). destruct (decide (n0 ≤ n ∧ n * PGSIZE < newsz)) as [H1|H1].
  - rewrite bool_decide_eq_true_2 //. symmetry. apply Hfresh. lia.
  - rewrite (bool_decide_eq_false_2 (_ ∧ _)) //. rewrite bool_decide_eq_false_2 // in Hgr.
    unfold PGSIZE in *. Z.to_euclidean_division_equations. lia.
Qed.

(** A free list whose pages but one all went into an address space, the user
    pages among them into the interval [n0, n1). *)
Lemma used_up fl d T U s n0 n1 q :
  aspace [] d T U s → NoDup fl → (∀ n p, p ∈ fl → U !! n = Some p → n0 ≤ n ∧ n + 1 < n1) →
  (∀ p, p ∈ fl → p = q ∨ owned [] d T U p) → Z.of_nat (length fl) ≤ 1025 + Z.max 1 (n1 - n0).
Proof.
  intros HA Hnd HU Hin. destruct (tables_list end_ _ _ _ (vi_ptab _ _ _ _ _ (as_vm _ _ _ _ _ HA))) as (L & HL & Hsub).
  destruct (map_values_list U n0 (n1 - 1)) as (F & HF & HinF).
  assert (length fl ≤ length (q :: L ++ F))%nat as Hlen; [|rewrite /= length_app in Hlen; lia].
  apply nodup_length; [done|]. intros p Hp. rewrite elem_of_cons elem_of_app.
  destruct (Hin p Hp) as [?|[?%elem_of_nil|[?|[n Hn]]]]; [by left|done|right; left; by apply Hsub|].
  right. right. apply (HinF n p Hn). specialize (HU n p Hp Hn). lia.
Qed.

(** allocuvm() runs out of pages at address [a]. *)
Lemma alloc_short pgdir oldsz newsz a fl T U s fl1 T1 U1 s1 T2 s2 q :
  0 ≤ oldsz ≤ newsz → PGROUNDUP oldsz ≤ a < newsz → newsz < KERNBASE → a mod PGSIZE = 0 →
  aspace fl pgdir T U s → astep pgdir fl T U s fl1 T1 U1 s1 →
  grown (PGROUNDUP oldsz / PGSIZE) (a / PGSIZE) U U1 →
  aspace [] pgdir T2 U1 s2 → (∀ p, owned fl1 pgdir T1 U1 p → p = q ∨ owned [] pgdir T2 U1 p) →
  Z.of_nat (length fl) ≤ 1025 + (PGROUNDUP newsz / PGSIZE - PGROUNDUP oldsz / PGSIZE).
Proof.
  intros Ho Ha Hk Hal HI Hst Hgr HI2 Hin. set (n0 := PGROUNDUP oldsz / PGSIZE) in *.
  destruct (PGROUNDUP_spec oldsz) as [Hol Hob]; [lia|].
  assert (n0 ≤ a / PGSIZE) as Hn0 by (apply Z.div_le_mono; [done|lia]).
  assert (a / PGSIZE + 1 ≤ PGROUNDUP newsz / PGSIZE) as Hn1.
  { destruct (PGROUNDUP_spec newsz) as [? ?]; [lia|]. unfold PGSIZE in *. Z.to_euclidean_division_equations. lia. }
  transitivity (1025 + Z.max 1 (a / PGSIZE + 1 - n0)); [|lia].
  apply (used_up fl pgdir T2 U1 s2 _ _ q); [done|apply HI| |].
  - intros n p Hp Hn. specialize (Hgr n). destruct (decide (n0 ≤ n < a / PGSIZE)); [lia|].
    rewrite bool_decide_eq_false_2 // Hn in Hgr. symmetry in Hgr. by apply (as_frames _ _ _ _ _ HI) in Hgr as (_ & _ & ? & _).
  - intros p Hp. apply Hin, (st_owned _ _ _ _ _ _ _ _ _ Hst). by left.
Qed.

Definition alloc_inv (pgdir oldsz a : Z) (fl : list Z) (T U : gmap Z Z) (s : kstate)
    (fl1 : list Z) (T1 U1 : gmap Z Z) (s1 : kstate) : Prop :=
  astep pgdir fl T U s fl1 T1 U1 s1 ∧ U ⊆ U1 ∧
  grown (PGROUNDUP oldsz / PGSIZE) (a / PGSIZE) U U1 ∧
  zeroed (PGROUNDUP oldsz / PGSIZE) (a / PGSIZE) pgdir U1 s1.

(** The body of the loop once a page was allocated and cleared. *)
Lemma alloc_page_Ok pgdir a p fl1 T1 U1 s1 s2 :
  aspace (p :: fl1) pgdir T1 U1 s1 → memonly s1 s2 → kmem_inv end_ fl1 s2 → kb s2 = memset (kb s1) p 0 PGSIZE →
  alloc_ready s1 → 0 ≤ a < KERNBASE → a mod PGSIZE = 0 → U1 !! (a / PGSIZE) = None →
  ∃ r s3 T2 fl2, mappages pgdir a PGSIZE (V2P p) (Z.lor PTE_W PTE_U) s2 = Ok r s3 ∧
   (r = 0 ∧ astep pgdir (p :: fl1) T1 U1 s1 fl2 T2 (<[a / PGSIZE := p]> U1) s3 ∧
      zeroed (a / PGSIZE) (a / PGSIZE + 1) pgdir (<[a / PGSIZE := p]> U1) s3 ∨
    r = -1 ∧ fl2 = [] ∧ astep pgdir fl1 T1 U1 s2 [] T2 U1 s3).
Proof.
  intros HI Hm HK Hb Hr Ha Hal HU.
  destruct (map_page fl1 pgdir T1 U1 s1 p s2 a (Z.lor PTE_W PTE_U)) as (r & s3 & T2 & fl2 & Hrun & Hpb & Hcase); [done..| |done|done|done|done|done|].
  { intros x Hx. by rewrite Hb memset_page bool_decide_eq_false_2. }
  exists r, s3, T2, fl2. split; [done|]. destruct Hcase as [(-> & Hst & Hpte)|?]; [left|by right].
  split_and!; [done..|]. intros va q Hva Hn Hq. assert (va / PGSIZE = a / PGSIZE) as E by lia.
  rewrite E lookup_insert_eq in Hq. injection Hq as <-. split; [apply Hpte; [rewrite /KERNBASE in Hva; lia|done]|].
  intros x Hx. by rewrite Hpb // Hb memset_page bool_decide_eq_true_2.
Qed.

Lemma grown_step n0 n1 U U1 p :
  n0 ≤ n1 → grown n0 n1 U U1 → grown n0 (n1 + 1) U (<[n1 := p]> U1).
Proof.
  intros Hn Hg n. specialize (Hg n). destruct (decide (n = n1)) as [->|Hne].
  - rewrite bool_decide_eq_true_2; [lia|]. rewrite lookup_insert_eq. by eexists.
  - rewrite lookup_insert_ne; [congruence|].
    rewrite (bool_decide_ext (n0 ≤ n < n1 + 1) (n0 ≤ n < n1)) //. lia.
Qed.

Lemma zeroed_step n0 n1 pgdir U s :
  zeroed n0 n1 pgdir U s → zeroed n1 (n1 + 1) pgdir U s → zeroed n0 (n1 + 1) pgdir U s.
Proof. intros H1 H2 va p Hva Hn. destruct (decide (va / PGSIZE < n1)); [apply H1|apply H2]; try done; lia. Qed.

(** One iteration of allocuvm() maps one more page, or fails, says so on the console
    and restores the address space. *)
Lemma allocuvm_step_Ok pgdir oldsz newsz a fl T U s fl1 T1 U1 s1 :
  alloc_ready s → printable s → 0 ≤ oldsz ≤ newsz → newsz < KERNBASE → PGROUNDUP oldsz ≤ a < newsz → a mod PGSIZE = 0 →
  (∀ n, PGROUNDUP oldsz / PGSIZE ≤ n → U !! n = None) →
  aspace fl pgdir T U s → alloc_inv pgdir oldsz a fl T U s fl1 T1 U1 s1 →
  ∃ s2 fl2 T2, allocuvm_step end_ pgdir oldsz newsz a s1 = Ok (inr 0) s2 ∧
      (∃ x, astep pgdir fl T U (set_cons x s) fl2 T2 U s2) ∧
      Z.of_nat (length fl) ≤ 1025 + (PGROUNDUP newsz / PGSIZE - PGROUNDUP oldsz / PGSIZE) ∨
    ∃ U2, allocuvm_step end_ pgdir oldsz newsz a s1 = Ok (inl (a + PGSIZE)) s2 ∧
      alloc_inv pgdir oldsz (a + PGSIZE) fl T U s fl2 T2 U2 s2.
Proof.
  intros Hr Hpr Ho Hnew Ha Hal Hfresh HI (Hst & Hsub & Hgr & Hz). pose proof (st_inv _ _ _ _ _ _ _ _ _ Hst) as HI1.
  assert (printable s1) as Hpr1 by (apply (memonly_printable s); [apply Hst|done]).
  assert (alloc_ready s1) as Hr1 by (apply (memonly_ready s); [apply Hst|done]).
  destruct (PGROUNDUP_spec oldsz) as [Hral Hrb]; [lia|].
  assert (PGROUNDUP oldsz / PGSIZE ≤ a / PGSIZE) as Hn0 by (apply Z.div_le_mono; [done|lia]).
  assert (U1 !! (a / PGSIZE) = None) as HU1.
  { specialize (Hgr (a / PGSIZE)). rewrite bool_decide_eq_false_2 in Hgr; [lia|]. rewrite Hgr. by apply Hfresh. }
  assert (∀ n p, U !! n = Some p → U !! n = Some p → U1 !! n = Some p) as Hmid by (intros n q Hn _; exact (lookup_weaken _ _ _ _ Hn Hsub)).
  rewrite /allocuvm_step. replace (a <? newsz) with true by lia. cbn [negb].
  destruct (kalloc_run end_ fl1 s1 (vi_kmem _ _ _ _ _ (as_vm _ _ _ _ _ HI1)) Hr1) as (s2 & Hk & Hm2 & HK2 & Hb2).
  rewrite (bind_Ok _ _ _ _ _ Hk). destruct fl1 as [|p fl1]; cbn [hd tail] in *.
  { destruct (diagnose (chars "allocuvm out of memory" ++ [newline]) _ s1 s2 eq_refl Hpr1) as (x & s2' & Hc & Hmc & Hrc & Hbc & HKc & _);
      [by apply (memonly_ready s1)|done|].
    assert (astep pgdir [] T1 U1 (set_cons x s1) [] T1 U1 s2') as Hq.
    { apply quiet_astep; [by apply aspace_cons|done|by apply HKc|by rewrite Hbc]. }
    destruct (undo_alloc [] pgdir T1 U U1 s2' oldsz newsz a) as (s3 & fl3 & Hrun & Hst3);
      [apply Hq|done|lia|lia|lia|done|done|done|].
    exists s3, fl3, T1. left. rewrite Z.eqb_refl (bind_Ok _ _ _ _ _ Hc) (bind_Ok _ _ _ _ _ Hrun). split_and!; [done| |].
    2:{ apply (alloc_short pgdir oldsz newsz a fl T U s [] T1 U1 s1 T1 s1 0); [lia|lia|done..|tauto]. }
    exists x. apply (astep_trans _ _ _ _ _ [] T1 U1 s2' _ _ _ _ Hmid); [|done].
    apply (astep_trans _ _ _ _ _ [] T1 U1 (set_cons x s1)); [done|by apply astep_cons|done]. }
  pose proof (km_pages _ _ _ (vi_kmem _ _ _ _ _ (as_vm _ _ _ _ _ HI1))) as [Hp _]%Forall_cons.
  pose proof (km_nodup _ _ _ (vi_kmem _ _ _ _ _ (as_vm _ _ _ _ _ HI1))) as [Hnin _]%NoDup_cons.
  pose proof (page_ok_bound _ _ Hp). replace (p =? 0) with false by lia.
  rewrite /kstore bind_modify. set (s3 := set_bytes_of _ s2).
  assert (memonly s1 s3) as Hm3 by (transitivity s2; [done|apply memonly_store]).
  assert (kb s3 = memset (kb s1) p 0 PGSIZE) as Hb3 by by rewrite /s3 /= Hb2.
  assert (∀ x, ¬ in_page p x → byte (kb s3) x = byte (kb s1) x) as Hout
    by (intros x Hx; by rewrite Hb3 memset_page bool_decide_eq_false_2).
  assert (kmem_inv end_ fl1 s3) as HK3.
  { apply (own_page_store end_ _ p); [done..|]. intros x Hx. by rewrite memset_page bool_decide_eq_false_2. }
  destruct (alloc_page_Ok pgdir a p fl1 T1 U1 s1 s3) as (r & s4 & T2 & fl2 & Hrun & Hcase);
    [done|done|done|done|done|lia|done|done|].
  rewrite (bind_Ok _ _ _ _ _ Hrun). destruct Hcase as [(-> & Hst4 & Hz4)|(-> & -> & Hst4)]; simpl.
  - exists s4, fl2, T2. right. exists (<[a / PGSIZE := p]> U1).
    assert (U1 ⊆ <[a / PGSIZE := p]> U1) as Hsub1 by by apply insert_subseteq.
    rewrite u32_id; [rewrite /KERNBASE in Hnew; pg|]. split; [done|]. rewrite /alloc_inv.
    replace ((a + PGSIZE) / PGSIZE) with (a / PGSIZE + 1) by (unfold PGSIZE in *; Z.to_euclidean_division_equations; lia).
    split_and!; [|by transitivity U1|by apply grown_step|].
    + apply (astep_trans _ _ _ _ _ (p :: fl1) T1 U1 s1); [|done|done]. intros n q Hn _. exact (lookup_weaken _ _ _ _ Hn Hsub).
    + apply zeroed_step; [|done]. apply (zeroed_astep _ _ _ _ _ _ _ _ _ _ _ Hst4); [|done|done].
      intros n Hn. specialize (Hgr n). by rewrite bool_decide_eq_true_2 in Hgr.
  - destruct (take_page fl1 pgdir T1 U1 s1 p s3 HI1 Hm3 HK3 Hout) as (_ & _ & Hno & Hpte3).
    assert (alloc_ready s4) as Hr4 by (apply (memonly_ready s3); [apply Hst4|by apply (memonly_ready s1)]).
    assert (printable s4) as Hpr4 by (apply (memonly_printable s3); [apply Hst4|by apply (memonly_printable s1)]).
    destruct (diagnose (chars "allocuvm out of memory (2)" ++ [newline]) _ s4 s4 eq_refl Hpr4 Hr4) as (x & s4' & Hc & Hmc & Hrc & Hbc & HKc & _);
      [reflexivity|].
    assert (astep pgdir [] T2 U1 (set_cons x s4) [] T2 U1 s4') as Hq.
    { apply quiet_astep; [apply aspace_cons, Hst4|done|apply HKc, Hst4|by rewrite Hbc]. }
    destruct (undo_alloc [] pgdir T2 U U1 s4' oldsz newsz a) as (s5 & fl5 & Hrun5 & Hst5);
      [apply Hq|done|lia|lia|lia|done|done|done|].
    assert (astep pgdir fl1 T1 U1 (set_cons x s3) fl5 T2 U s5) as Hst35.
    { apply (astep_trans _ _ _ _ _ [] T2 U1 s4'); [done| |done].
      apply (astep_trans _ _ _ _ _ [] T2 U1 (set_cons x s4)); [done|by apply astep_cons|done]. }
    destruct (give_page fl5 pgdir T2 U s5 p) as (s6 & Hrun6 & Hm6 & HI6 & Hpte6 & Hb6);
      [apply Hst35|apply (memonly_ready (set_cons x s1)); [transitivity (set_cons x s3); [by apply memonly_cons|apply Hst35]|done]
      |done|by rewrite -(st_owned _ _ _ _ _ _ _ _ _ Hst35)|].
    exists s6, (p :: fl5), T2. left. rewrite (bind_Ok _ _ _ _ _ Hc) (bind_Ok _ _ _ _ _ Hrun5) (bind_Ok _ _ _ _ _ Hrun6). split_and!; [done| |].
    2:{ apply (alloc_short pgdir oldsz newsz a fl T U s (p :: fl1) T1 U1 s1 T2 s4 p); [lia|lia|done..|apply Hst4|].
        intros q. rewrite -(st_owned _ _ _ _ _ _ _ _ _ Hst4) /owned elem_of_cons. tauto. }
    exists x. apply (astep_trans _ _ _ _ _ (p :: fl1) T1 U1 (set_cons x s1) _ _ _ _ Hmid); [by apply astep_cons|].
    apply (limbo_astep p pgdir fl1 T1 U1 (set_cons x s1) (set_cons x s3) fl5 T2 U s5 s6);
      [|done|by apply aspace_cons|by apply memonly_cons|done..].
    intros n q Hn ->. apply Hno. right. right. eauto.
Qed.

Definition alloc_post (pgdir oldsz newsz : Z) (fl : list Z) (T U : gmap Z Z) (s : kstate) (r : Z) (s' : kstate) : Prop :=
  ∃ fl' T' U', (∃ x, astep pgdir fl T U (set_cons x s) fl' T' U' s') ∧
    (r = newsz ∧ astep pgdir fl T U s fl' T' U' s' ∧ U ⊆ U' ∧ grown (PGROUNDUP oldsz / PGSIZE) (PGROUNDUP newsz / PGSIZE) U U' ∧
       zeroed (PGROUNDUP oldsz / PGSIZE) (PGROUNDUP newsz / PGSIZE) pgdir U' s' ∨
     r = 0 ∧ U' = U ∧ Z.of_nat (length fl) ≤ 1025 + (PGROUNDUP newsz / PGSIZE - PGROUNDUP oldsz / PGSIZE)).

Lemma allocuvm_loop fuel pgdir oldsz newsz a fl T U s fl1 T1 U1 s1 :
  alloc_ready s → printable s → 0 ≤ oldsz ≤ newsz → newsz < KERNBASE → PGROUNDUP oldsz ≤ a < newsz + PGSIZE → a mod PGSIZE = 0 →
  (∀ n, PGROUNDUP oldsz / PGSIZE ≤ n → U !! n = None) →
  aspace fl pgdir T U s → alloc_inv pgdir oldsz a fl T U s fl1 T1 U1 s1 → newsz - a ≤ (Z.of_nat fuel - 1) * PGSIZE → (0 < fuel)%nat →
  ∃ r s', loop fuel (allocuvm_step end_ pgdir oldsz newsz) a s1 = Ok r s' ∧
    alloc_post pgdir oldsz newsz fl T U s r s'.
Proof.
  intros Hr Hpr Ho Hnew. revert a fl1 T1 U1 s1. induction fuel as [|fuel IH]; intros a fl1 T1 U1 s1 Ha Hal Hfresh HI Hinv Hfuel Hpos; [lia|].
  destruct (decide (a < newsz)) as [Hlt|Hge].
  - destruct (allocuvm_step_Ok pgdir oldsz newsz a fl T U s fl1 T1 U1 s1) as (s2 & fl2 & T2 & [(Hrun & Hst & Hfew)|(U2 & Hrun & Hinv2)]);
      [done|done|done|done|lia|done|done|done|done| |].
    + exists 0, s2. split; [by apply loop_done|]. exists fl2, T2, U. split; [done|right; done].
    + destruct (IH (a + PGSIZE) fl2 T2 U2 s2) as (r & s' & Hrun' & Hpost); [pg| |done|done|done|pg|pg|].
      { unfold PGSIZE in *. Z.to_euclidean_division_equations. lia. }
      exists r, s'. by rewrite (loop_S _ _ _ _ _ _ Hrun).
  - destruct Hinv as (Hst & Hsub & Hgr & Hz). exists newsz, s1. split.
    { apply loop_done. rewrite /allocuvm_step. by replace (a <? newsz) with false by lia. }
    assert (a = PGROUNDUP newsz) as ->; [|exists fl1, T1, U1; split; [|by left]; exists (cons_of s); by destruct s as [? ? ? ? ? ? ? ? ? ? ? []]].
    destruct (PGROUNDUP_spec newsz) as [? ?]; [lia|]. unfold PGSIZE in *. Z.to_euclidean_division_equations. lia.
Qed.

Lemma allocuvm_run fl pgdir T U s oldsz newsz :
  aspace fl pgdir T U s → alloc_ready s → printable s → 0 ≤ oldsz ≤ newsz → newsz < KERNBASE →
  (∀ n, PGROUNDUP oldsz / PGSIZE ≤ n → U !! n = None) →
  ∃ r s', allocuvm end_ pgdir oldsz newsz s = Ok r s' ∧ alloc_post pgdir oldsz newsz fl T U s r s'.
Proof.
  intros HI Hr Hpr Ho Hnew Hfresh. destruct (PGROUNDUP_spec oldsz) as [Hal Hb]; [lia|].
  rewrite /allocuvm. replace (newsz >=? KERNBASE) with false by lia. replace (newsz <? oldsz) with false by lia.
  apply (allocuvm_loop _ _ _ _ _ _ _ _ _ fl T U); [done|done|done|done|pg|done|done|done| | |lia].
  - split_and!; [by apply astep_refl|done| |].
    + intros n. rewrite bool_decide_eq_false_2 //. lia.
    + intros va p _ ?. lia.
  - unfold PGSIZE in *. Z.to_euclidean_division_equations. lia.
Qed.

End aspace.
