(* ===== verification/VmCopy.v ===== *)
(** * Freeing and copying address spaces: freevm, copyuvm, uva2ka, copyout

    Two page tables are now in play, so the lemmas also say what one operation
    leaves alone: every byte outside the pages owned by the address space and
    the allocator. The main properties of vm.c close the file. *)

From S2P Require Import Prelude Param Bytes String State Spinlock Sched Sleeplock Kalloc Vm VmSpec VmUser.

Section vmcopy.
Context (end_ : Z) (Hend : KERNBASE < end_).
Notation kb s := (mem_bytes (k_mem s)).

(** ** freevm *)

Definition free_table (pgdir : Z) (i : nat) : K unit :=
  e ← kload32 (pgdir + 4 * Z.of_nat i);
  when (present e) (kfree end_ (P2V (PTE_ADDR e))).

(** The loop of freevm() over the directory entries [i..i+n). *)
Lemma free_tables m0 pgdir T : ptab end_ m0 pgdir T → ∀ n i fl s,
  (i + n ≤ 1024)%nat → kmem_inv end_ fl s → alloc_ready s →
  (∀ a, in_page pgdir a → byte (kb s) a = byte m0 a) →
  (∀ j p, Z.of_nat i ≤ j → T !! j = Some p → p ∉ fl) →
  ∃ s' fl', for_each (seq i n) (free_table pgdir) s = Ok tt s' ∧ memonly s s' ∧ kmem_inv end_ fl' s' ∧
    (∀ p, p ∈ fl' ↔ p ∈ fl ∨ ∃ j, Z.of_nat i ≤ j < Z.of_nat (i + n) ∧ T !! j = Some p) ∧
    (∀ a, (∀ j p, T !! j = Some p → ¬ in_page p a) → byte (kb s') a = byte (kb s) a).
Proof.
  intros Hpt. induction n as [|n IH]; intros i fl s Hn HK Hr Hdir Hdis; cbn [seq for_each].
  { exists s, fl. split_and!; [done|reflexivity|done| |done]. intros p. split; [by left|].
    intros [?|(j & Hj & _)]; [done|lia]. }
  assert (load32 (kb s) (pgdir + 4 * Z.of_nat i) = load32 m0 (pgdir + 4 * Z.of_nat i)) as E.
  { apply load32_frame. intros k Hk. apply Hdir. apply (in_dir _ (Z.of_nat i)); [unfold NPDENTRIES; lia|done]. }
  pose proof (pt_dir _ _ _ _ Hpt (Z.of_nat i)) as Hd. rewrite /NPDENTRIES in Hd. specialize (Hd ltac:(lia)).
  assert (∃ s1 fl1, free_table pgdir i s = Ok tt s1 ∧ memonly s s1 ∧ kmem_inv end_ fl1 s1 ∧
    (∀ p, p ∈ fl1 ↔ p ∈ fl ∨ T !! Z.of_nat i = Some p) ∧
    (∀ a, (∀ p, T !! Z.of_nat i = Some p → ¬ in_page p a) → byte (kb s1) a = byte (kb s) a)) as
    (s1 & fl1 & Hrun1 & Hm1 & HK1 & Hfl1 & Hb1).
  { rewrite /free_table /kload32 bind_gets E. destruct (T !! Z.of_nat i) as [p|] eqn:HT.
    - destruct Hd as [-> ->]. pose proof (pt_tables _ _ _ _ Hpt _ _ HT) as (_ & Hp & _).
      destruct (kfree_run end_ fl p s HK Hr Hp) as (s1 & Hrun & Hm & HK1 & Hb); [apply (Hdis (Z.of_nat i)); [lia|done]|].
      exists s1, (p :: fl). split_and!; [done|done|done| |].
      + intros q. rewrite elem_of_cons. naive_solver.
      + intros a Ha. by apply Hb, Ha.
    - rewrite Hd. exists s, fl. split_and!; [done|reflexivity|done| |done]. intros p. naive_solver. }
  rewrite (bind_Ok _ _ _ _ _ Hrun1).
  destruct (IH (S i) fl1 s1) as (s2 & fl2 & Hrun2 & Hm2 & HK2 & Hfl2 & Hb2); [lia|done|by apply (memonly_ready s)| | |].
  { intros a Ha. rewrite Hb1; [|by apply Hdir]. intros p HT Hin.
    pose proof (pt_tables _ _ _ _ Hpt _ _ HT) as (_ & Hp & Hne). apply Hne.
    apply (page_disjoint end_ _ _ a); [done|apply Hpt|done|done]. }
  { intros j p Hj HT [Hin|HT']%Hfl1; [apply (Hdis j p); [lia|done|done]|].
    pose proof (pt_inj _ _ _ _ Hpt _ _ _ HT HT'). lia. }
  exists s2, fl2. split_and!; [done|by transitivity s1|done| |].
  - intros p. rewrite Hfl2 Hfl1. split.
    + intros [[?|?]|(j & Hj & ?)]; [by left|right; exists (Z.of_nat i); split; [lia|done]|right; exists j; split; [lia|done]].
    + intros [?|(j & Hj & HT)]; [tauto|]. destruct (decide (j = Z.of_nat i)) as [->|]; [tauto|].
      right. exists j. split; [lia|done].
  - intros a Ha. rewrite Hb2 // Hb1 //. by apply Ha.
Qed.

(** freevm() returns every page of the address space to the allocator. *)
Lemma freevm_run fl pgdir T U s :
  aspace end_ fl pgdir T U s → alloc_ready s → dense 0 U →
  ∃ s' fl', freevm end_ pgdir s = Ok tt s' ∧ memonly s s' ∧ kmem_inv end_ fl' s' ∧
    (∀ p, p ∈ fl' ↔ owned fl pgdir T U p) ∧
    (∀ a, (∀ p, owned fl pgdir T U p → ¬ in_page p a) → byte (kb s') a = byte (kb s) a).
Proof.
  intros HI Hr Hd. rewrite /freevm.
  pose proof (pt_page _ _ _ _ (vi_ptab _ _ _ _ _ (as_vm _ _ _ _ _ _ HI))) as Hpg. pose proof (page_ok_bound _ _ Hpg).
  replace (pgdir =? 0) with false by lia.
  destruct (deallocuvm_run end_ Hend fl pgdir T U s KERNBASE 0) as (s1 & fl1 & U1 & Hrun1 & Hst & Hrem); [done|done|done|done|done|].
  rewrite (bind_Ok _ _ _ _ _ Hrun1). pose proof (st_inv _ _ _ _ _ _ _ _ _ _ Hst) as HI1.
  pose proof (as_vm _ _ _ _ _ _ HI1) as HV1. pose proof (vi_ptab _ _ _ _ _ HV1) as Hpt1.
  assert (∀ n, U1 !! n = None) as HU1.
  { intros n. rewrite (Hrem n). destruct (U !! n) as [p|] eqn:Hn; [|by case_bool_decide].
    apply (as_frames _ _ _ _ _ _ HI) in Hn as (Hn & _). rewrite bool_decide_eq_true_2 //.
    change (PGROUNDUP 0 / PGSIZE) with 0. rewrite /KERNBASE /PGSIZE in Hn |- *. Z.to_euclidean_division_equations. lia. }
  assert (alloc_ready s1) as Hr1 by (apply (memonly_ready s); [apply Hst|done]).
  destruct (free_tables (kb s1) pgdir T Hpt1 1024 0 fl1 s1) as (s2 & fl2 & Hrun2 & Hm2 & HK2 & Hfl2 & Hb2);
    [lia|apply HV1|done|done| |].
  { intros j p _ HT. apply (vi_apart _ _ _ _ _ HV1). right. eauto. }
  change (Z.to_nat NPDENTRIES) with 1024%nat. rewrite (bind_Ok _ _ _ _ _ Hrun2).
  assert (∀ p, owned fl pgdir T U p ↔ p = pgdir ∨ p ∈ fl2) as Hown.
  { intros p. rewrite (st_owned _ _ _ _ _ _ _ _ _ _ Hst) /owned Hfl2 /tables. setoid_rewrite HU1. split.
    - intros [?|[[->|[j Hj]]|[n [=]]]]; [tauto|tauto|].
      right. right. exists j. split; [|done]. apply (pt_tables _ _ _ _ Hpt1) in Hj as (? & _). unfold NPDENTRIES in *. lia.
    - intros [->|[?|(j & _ & Hj)]]; [tauto|tauto|]. right. left. right. eauto. }
  destruct (kfree_run end_ fl2 pgdir s2 HK2) as (s3 & Hrun3 & Hm3 & HK3 & Hb3); [by apply (memonly_ready s1)|done| |].
  { rewrite Hfl2. intros [Hin|(j & _ & Hj)].
    - apply (vi_apart _ _ _ _ _ HV1 pgdir); [by left|done].
    - by apply (pt_tables _ _ _ _ Hpt1) in Hj as (_ & _ & ?). }
  exists s3, (pgdir :: fl2). split_and!; [done| |done| |].
  - transitivity s1; [apply Hst|]. by transitivity s2.
  - intros p. by rewrite Hown elem_of_cons.
  - intros a Ha. rewrite Hb3; [apply Ha; rewrite Hown; by left|]. rewrite Hb2.
    + intros j p Hj. apply Ha. rewrite (st_owned _ _ _ _ _ _ _ _ _ _ Hst). right. left. right. eauto.
    + by apply (st_frame _ _ _ _ _ _ _ _ _ _ Hst).
Qed.

(** ** copyuvm *)

(** The pages of one address space, apart from the allocator's. *)
Definition reserved (pgdir : Z) (T U : gmap Z Z) (p : Z) : Prop :=
  tables pgdir T p ∨ ∃ n, U !! n = Some p.

(** An address space whose pages were not touched. *)
Lemma aspace_kept fl pgdir T U s fl' s' :
  aspace end_ fl pgdir T U s → kmem_inv end_ fl' s' → (∀ p, reserved pgdir T U p → p ∉ fl') →
  (∀ p a, reserved pgdir T U p → in_page p a → byte (kb s') a = byte (kb s) a) →
  aspace end_ fl' pgdir T U s' ∧ ∀ va, pte_of (kb s') pgdir va = pte_of (kb s) pgdir va.
Proof.
  intros [[HK Hpt Hap] Hmap Hfr Hinj] HK' Hnin Hb.
  destruct (ptab_frame end_ (kb s) (kb s') pgdir T) as [Hpt' Hpte]; [|done|].
  { intros p a Hp. apply Hb. by left. }
  split; [|done]. split; [split; [done|done|]| | |done].
  - intros p Hp. apply Hnin. by left.
  - intros va Hva. rewrite Hpte. by apply Hmap.
  - intros n p Hn. pose proof (Hfr n p Hn) as (? & ? & _ & ?). split_and!; [lia..|done| |done]. apply Hnin. right. eauto.
Qed.

Lemma PTE_FLAGS_mod e : PTE_FLAGS e = u32 e mod PGSIZE.
Proof. rewrite /PTE_FLAGS. change 0xFFF with (Z.ones 12). by rewrite Z.land_ones. Qed.

Lemma PTE_FLAGS_present e : present e = true → Z.lor (PTE_FLAGS e) PTE_P = PTE_FLAGS e.
Proof.
  rewrite present_odd PTE_FLAGS_mod. intros Ho.
  assert (Z.odd (u32 e mod PGSIZE) = true) as Ho'.
  { rewrite /u32 /PGSIZE. rewrite -Znumtheory.Zmod_div_mod; [lia|lia|by exists (2 ^ 20)|].
    rewrite -Z.bit0_odd. change 4096 with (2 ^ 12). rewrite Z.mod_pow2_bits_low; [lia|]. by rewrite Z.bit0_odd. }
  apply Z.bits_inj'. intros n Hn. rewrite Z.lor_spec. destruct (decide (n = 0)) as [->|].
  - by rewrite !Z.bit0_odd Ho'.
  - assert (Z.testbit PTE_P n = false) as -> by (apply Z.bits_above_log2; [done|simpl; lia]). apply orb_false_r.
Qed.

(** What copyuvm() makes of one page. *)
Definition copied (n pgdir : Z) (Up : gmap Z Z) (d : Z) (U : gmap Z Z) (s : kstate) : Prop :=
  ∃ p q, Up !! n = Some p ∧ U !! n = Some q ∧
    (∀ va, 0 ≤ va < KERNBASE → va / PGSIZE = n →
       PTE_FLAGS (pte_of (kb s) d va) = PTE_FLAGS (pte_of (kb s) pgdir va)) ∧
    ∀ k, 0 ≤ k < PGSIZE → byte (kb s) (q + k) = byte (kb s) (p + k).

(** The child [d] being built beside its parent [pgdir]. *)
Record copying (pgdir : Z) (Tp Up : gmap Z Z) (d : Z) (fl : list Z) (T U : gmap Z Z) (s : kstate) : Prop := {
  cp_parent : aspace end_ fl pgdir Tp Up s;
  cp_child : aspace end_ fl d T U s;
  cp_apart : ∀ p, reserved pgdir Tp Up p → ¬ owned fl d T U p
}.

(** The parent while the child takes a step. *)
Lemma copying_step pgdir Tp Up d fl T U s fl' T' U' s' :
  copying pgdir Tp Up d fl T U s → astep end_ d fl T U s fl' T' U' s' →
  copying pgdir Tp Up d fl' T' U' s' ∧
  (∀ va, pte_of (kb s') pgdir va = pte_of (kb s) pgdir va) ∧
  ∀ p a, reserved pgdir Tp Up p → in_page p a → byte (kb s') a = byte (kb s) a.
Proof.
  intros [Hpar Hch Hap] Hst.
  assert (∀ p a, reserved pgdir Tp Up p → in_page p a → byte (kb s') a = byte (kb s) a) as Hb.
  { intros p a Hp Ha. apply (st_frame _ _ _ _ _ _ _ _ _ _ Hst). intros q Hq Hin. apply (Hap p Hp).
    rewrite (page_disjoint end_ p q a); [|by apply (aspace_pages end_ fl d T U s)|done|done|done].
    apply (aspace_pages end_ fl pgdir Tp Up s); [done|]. by right. }
  destruct (aspace_kept fl pgdir Tp Up s fl' s' Hpar) as [Hpar' Hpte]; [apply (st_inv _ _ _ _ _ _ _ _ _ _ Hst)| |done|].
  { intros p Hp Hin. apply (Hap p Hp). rewrite (st_owned _ _ _ _ _ _ _ _ _ _ Hst). by left. }
  split_and!; [|done|done]. split; [done|apply Hst|]. intros p Hp.
  rewrite -(st_owned _ _ _ _ _ _ _ _ _ _ Hst). by apply Hap.
Qed.

(** A page copied earlier stays copied. *)
Lemma copied_step n pgdir Tp Up d fl T U s fl' T' U' s' :
  copying pgdir Tp Up d fl T U s → astep end_ d fl T U s fl' T' U' s' → U ⊆ U' → 0 ≤ n < KERNBASE / PGSIZE →
  copied n pgdir Up d U s → copied n pgdir Up d U' s'.
Proof.
  intros HC Hst Hsub Hn (p & q & Hp & Hq & Hfl & Hb).
  destruct (copying_step _ _ _ _ _ _ _ _ _ _ _ _ HC Hst) as (_ & Hpte & Hbp).
  assert (U' !! n = Some q) as Hq' by exact (lookup_weaken _ _ _ _ Hq Hsub).
  exists p, q. split_and!; [done..| |].
  - intros va Hva E. rewrite Hpte (st_pte _ _ _ _ _ _ _ _ _ _ Hst va q) ?E //. by apply Hfl.
  - intros k Hk. rewrite (st_keep _ _ _ _ _ _ _ _ _ _ Hst n q) //; [rewrite /in_page; lia|].
    rewrite (Hbp p); [right; eauto|rewrite /in_page; lia|]. by apply Hb.
Qed.

(** Taking a free page keeps both address spaces. *)
Lemma copying_take pgdir Tp Up d q fl T U s s1 :
  copying pgdir Tp Up d (q :: fl) T U s → memonly s s1 → kmem_inv end_ fl s1 →
  (∀ a, ¬ in_page q a → byte (kb s1) a = byte (kb s) a) →
  copying pgdir Tp Up d fl T U s1 ∧ ∀ p a, reserved pgdir Tp Up p → in_page p a → byte (kb s1) a = byte (kb s) a.
Proof.
  intros [Hpar Hch Hap] Hm HK Hb.
  destruct (take_page end_ fl d T U s q s1 Hch Hm HK Hb) as (Hch1 & Hq & Hno & _).
  assert (∀ p a, reserved pgdir Tp Up p → in_page p a → byte (kb s1) a = byte (kb s) a) as Hbp.
  { intros p a Hp Ha. apply Hb. intros Hin. apply (Hap p Hp). left.
    rewrite (page_disjoint end_ p q a); [|done|done|done|apply list_elem_of_here].
    apply (aspace_pages end_ (q :: fl) pgdir Tp Up s); [done|]. by right. }
  split; [|done]. destruct (aspace_kept (q :: fl) pgdir Tp Up s fl s1 Hpar) as [Hpar1 _]; [done| |done|].
  { intros p Hp Hin. apply (Hap p Hp). left. by apply list_elem_of_further. }
  split; [done|done|]. intros p Hp Ho. apply (Hap p Hp). rewrite /owned elem_of_cons in Ho |- *. tauto.
Qed.

Definition copy_post (pgdir : Z) (Tp Up : gmap Z Z) (d n : Z) (fl : list Z) (T U : gmap Z Z) (s : kstate)
    (r : option unit) (s' : kstate) : Prop :=
  ∃ fl' T' U', copying pgdir Tp Up d fl' T' U' s' ∧ memonly s s' ∧
    (∀ p, owned fl' d T' U' p → owned fl d T U p) ∧
    (∀ a, (∀ p, owned fl d T U p → ¬ in_page p a) → byte (kb s') a = byte (kb s) a) ∧
    (r = None ∧ astep end_ d fl T U s fl' T' U' s' ∧ (∃ q, U' = <[n := q]> U) ∧ copied n pgdir Up d U' s' ∨
     r = Some tt ∧ U' = U ∧ fl' = [] ∧ ∃ q, ∀ p, owned fl d T U p → p = q ∨ owned [] d T' U' p).

Lemma copyuvm_page_Ok pgdir Tp Up d fl T U s i p :
  copying pgdir Tp Up d fl T U s → alloc_ready s → 0 ≤ i < KERNBASE → i mod PGSIZE = 0 →
  Up !! (i / PGSIZE) = Some p → U !! (i / PGSIZE) = None →
  ∃ r s', copyuvm_page pgdir d i s = Ok r s' ∧ copy_post pgdir Tp Up d (i / PGSIZE) fl T U s r s'.
Proof.
  intros HC Hr Hi Hal Hp HU. pose proof (cp_parent _ _ _ _ _ _ _ _ HC) as Hpar. pose proof (cp_child _ _ _ _ _ _ _ _ HC) as Hch.
  pose proof (as_map _ _ _ _ _ _ Hpar i Hi) as Hmap. rewrite Hp in Hmap. destruct Hmap as [Hpres Hadr].
  pose proof (as_frames _ _ _ _ _ _ Hpar _ _ Hp) as (_ & Hpok & _). destruct (page_V2P _ _ Hpok) as (_ & _ & _ & _ & HP2V).
  pose proof (as_vm _ _ _ _ _ _ Hpar) as HV. pose proof (pte_of_slot end_ _ _ Tp i (vi_ptab _ _ _ _ _ HV)) as Hslot.
  destruct (Tp !! PDX i) as [t|] eqn:HT; [|by rewrite Hslot in Hpres].
  rewrite /copyuvm_page (bind_Ok _ _ _ _ _ (walkpgdir_hit end_ fl pgdir Tp i false t s HV HT)).
  pose proof (pt_tables _ _ _ _ (vi_ptab _ _ _ _ _ HV) _ _ HT) as (_ & Htok & _). pose proof (page_ok_bound _ _ Htok).
  pose proof (PTX_bound i). replace (t + 4 * PTX i =? 0) with false by lia.
  rewrite /kload32 bind_gets -Hslot Hpres. cbn [negb]. rewrite Hadr HP2V.
  destruct (kalloc_run end_ fl s (vi_kmem _ _ _ _ _ HV) Hr) as (s1 & Hk & Hm1 & HK1 & Hb1).
  rewrite (bind_Ok _ _ _ _ _ Hk). destruct fl as [|q fl]; cbn [hd tail] in *.
  { exists (Some tt), s1. split; [done|]. exists [], T, U.
    destruct (copying_step _ _ _ _ _ _ _ _ _ _ _ _ HC (quiet_astep end_ [] d T U s s1 Hch Hm1 HK1 Hb1)) as (HC1 & _).
    split_and!; [done|done|done|by rewrite Hb1|right; split_and!; [done..|exists 0; tauto]]. }
  pose proof (km_pages _ _ _ (vi_kmem _ _ _ _ _ HV)) as [Hq _]%Forall_cons.
  pose proof (km_nodup _ _ _ (vi_kmem _ _ _ _ _ HV)) as [Hnin _]%NoDup_cons.
  pose proof (page_ok_bound _ _ Hq). replace (q =? 0) with false by lia. rewrite /kstore bind_modify.
  set (s2 := set_bytes_of _ s1).
  assert (∀ a, byte (kb s2) a = if bool_decide (in_page q a) then byte (kb s) (p + (a - q)) else byte (kb s) a) as Hb2.
  { intros a. rewrite /s2 /= Hb1. rewrite byte_memmove; [pg|]. done. }
  assert (∀ a, ¬ in_page q a → byte (kb s2) a = byte (kb s) a) as Hout by (intros a Ha; by rewrite Hb2 bool_decide_eq_false_2).
  assert (memonly s s2) as Hm2 by (transitivity s1; [done|apply memonly_store]).
  assert (kmem_inv end_ fl s2) as HK2.
  { apply (own_page_store end_ _ q); [done..|]. intros a Ha. rewrite byte_memmove; [pg|]. by rewrite bool_decide_eq_false_2. }
  destruct (copying_take _ _ _ _ _ _ _ _ _ s2 HC Hm2 HK2 Hout) as [HC2 Hbp2].
  set (e := pte_of (kb s) pgdir i).
  assert (0 ≤ PTE_FLAGS e < PGSIZE) as Hfl by (rewrite PTE_FLAGS_mod; by apply Z.mod_pos_bound).
  destruct (map_page end_ fl d T U s q s2 i (PTE_FLAGS e)) as (r & s3 & T3 & fl3 & Hrun & Hpb & Hcase); [done..|].
  rewrite (bind_Ok _ _ _ _ _ Hrun). destruct Hcase as [(-> & Hst & Hpte)|(-> & -> & Hst)].
  - exists None, s3. split; [done|]. exists fl3, T3, (<[i / PGSIZE := q]> U).
    destruct (copying_step _ _ _ _ _ _ _ _ _ _ _ _ HC Hst) as (HC3 & Hpte3 & Hbp3).
    split_and!; [done|apply Hst|intros x; by rewrite (st_owned _ _ _ _ _ _ _ _ _ _ Hst)|apply Hst|].
    left. split_and!; [done|done|by exists q|]. exists p, q. rewrite lookup_insert_eq. split_and!; [done..| |].
    + intros va Hva E. rewrite Hpte3 Hpte; [rewrite /KERNBASE in Hva; lia|done|].
      assert (pte_of (kb s) pgdir va = e) as ->.
      { rewrite /e !(pte_of_slot end_ _ _ Tp _ (vi_ptab _ _ _ _ _ HV)).
        assert (PDX va = PDX i ∧ PTX va = PTX i) as [-> ->]; [|done].
        apply same_page_iff; [rewrite /KERNBASE in Hva; lia|rewrite /KERNBASE in Hi; lia|done]. }
      destruct (page_V2P _ _ Hq) as (_ & Q1 & Q2 & Q3 & _).
      destruct (entry_spec (V2P q) (PTE_FLAGS e)) as (_ & _ & _ & ->); [done|done|rewrite /PHYSTOP in Q3; lia|done|].
      by apply PTE_FLAGS_present.
    + intros k Hk'. rewrite Hpb; [rewrite /in_page; lia|]. rewrite Hb2 bool_decide_eq_true_2; [rewrite /in_page; lia|].
      rewrite (Hbp3 p); [right; eauto|rewrite /in_page; lia|]. f_equal. lia.
  - exists (Some tt), s3. split; [done|]. exists [], T3, U.
    destruct (copying_step _ _ _ _ _ _ _ _ _ _ _ _ HC2 Hst) as (HC3 & _ & _).
    split_and!; [done|transitivity s2; [done|apply Hst]| | |right; split_and!; [done..|exists q]].
    + intros x. rewrite -(st_owned _ _ _ _ _ _ _ _ _ _ Hst) /owned elem_of_cons. tauto.
    + intros a Ha. rewrite (st_frame _ _ _ _ _ _ _ _ _ _ Hst).
      * intros x Hx. apply Ha. rewrite /owned elem_of_cons in Hx |- *. tauto.
      * apply Hout, Ha. left. apply list_elem_of_here.
    + intros x. rewrite -(st_owned _ _ _ _ _ _ _ _ _ _ Hst) /owned elem_of_cons. tauto.
Qed.

(** The loop of copyuvm() over the pages [j..j+m). *)
Lemma copyuvm_scan pgdir Tp Up d m j fl T U s :
  copying pgdir Tp Up d fl T U s → alloc_ready s → Z.of_nat (j + m) ≤ KERNBASE / PGSIZE →
  (∀ n, 0 ≤ n < Z.of_nat (j + m) → is_Some (Up !! n)) →
  (∀ n, is_Some (U !! n) ↔ 0 ≤ n < Z.of_nat j) → (∀ n, 0 ≤ n < Z.of_nat j → copied n pgdir Up d U s) →
  ∃ r s' fl' T' U', scan ((λ k, Z.of_nat k * PGSIZE) <$> seq j m) (copyuvm_page pgdir d) s = Ok r s' ∧
    copying pgdir Tp Up d fl' T' U' s' ∧ memonly s s' ∧ dense 0 U' ∧
    (∀ p, owned fl' d T' U' p → owned fl d T U p) ∧
    (∀ a, (∀ p, owned fl d T U p → ¬ in_page p a) → byte (kb s') a = byte (kb s) a) ∧
    (r = None → (∀ n, is_Some (U' !! n) ↔ 0 ≤ n < Z.of_nat (j + m)) ∧
       (∀ n, 0 ≤ n < Z.of_nat (j + m) → copied n pgdir Up d U' s') ∧
       ∀ va, KERNBASE ≤ va < 2 ^ 32 → pte_of (kb s') d va = pte_of (kb s) d va) ∧
    (r ≠ None → fl' = [] ∧ (∀ n, is_Some (U' !! n) → 0 ≤ n ∧ n + 1 < Z.of_nat (j + m)) ∧
       ∃ q, ∀ p, owned fl d T U p → p = q ∨ owned [] d T' U' p).
Proof.
  revert j fl T U s. induction m as [|m IH]; intros j fl T U s HC Hr Hjm HUp HU Hcp; cbn [seq fmap list_fmap scan].
  { exists None, s, fl, T, U. split_and!; [done|done|reflexivity| |done|done| |done].
    - intros n n' Hn. rewrite !HU. lia.
    - intros _. rewrite Nat.add_0_r. done. }
  rewrite /KERNBASE /PGSIZE in Hjm. change (0x80000000 / 4096) with 524288 in Hjm.
  assert (Z.of_nat j * PGSIZE / PGSIZE = Z.of_nat j) as E by by rewrite Z.div_mul.
  destruct (HUp (Z.of_nat j)) as [p Hp]; [lia|].
  destruct (copyuvm_page_Ok pgdir Tp Up d fl T U s (Z.of_nat j * PGSIZE) p)
    as (r & s1 & Hrun & fl1 & T1 & U1 & HC1 & Hm1 & Hown1 & Hb1 & Hcase);
    [done|done|rewrite /KERNBASE; pg|by rewrite Z.mod_mul|by rewrite E| |].
  { rewrite E. apply eq_None_not_Some. rewrite HU. lia. }
  rewrite E in Hcase. rewrite (bind_Ok _ _ _ _ _ Hrun).
  destruct Hcase as [(-> & Hst & (q & ->) & Hc)|(-> & -> & -> & Hlost)].
  - assert (U ⊆ <[Z.of_nat j := q]> U) as Hsub.
    { apply insert_subseteq. apply eq_None_not_Some. rewrite HU. lia. }
    destruct (IH (S j) fl1 T1 (<[Z.of_nat j := q]> U) s1) as (r & s2 & fl2 & T2 & U2 & Hrun2 & HC2 & Hm2 & Hd2 & Hown2 & Hb2 & Hok & Hbad);
      [done|by apply (memonly_ready s)|rewrite /KERNBASE /PGSIZE; change (0x80000000 / 4096) with 524288; lia| | | |].
    { intros n Hn. apply HUp. lia. }
    { intros n. rewrite lookup_insert_is_Some HU. lia. }
    { intros n Hn. destruct (decide (n = Z.of_nat j)) as [->|]; [done|].
      apply (copied_step n pgdir Tp Up d fl T U s fl1 T1 _ s1); [done|done|done| |apply Hcp; lia].
      rewrite /KERNBASE /PGSIZE. change (0x80000000 / 4096) with 524288. lia. }
    replace (S j + m)%nat with (j + S m)%nat in Hok, Hbad by lia.
    exists r, s2, fl2, T2, U2. split_and!; [done|done|by transitivity s1|done|eauto| | |].
    + intros a Ha. rewrite Hb2; [|by apply Hb1]. intros x Hx. apply Ha. eauto.
    + intros Hr0. destruct (Hok Hr0) as (H1 & H2 & H3). split_and!; [done|done|].
      intros va Hva. rewrite H3 //. by apply Hst.
    + intros Hr0. destruct (Hbad Hr0) as (-> & H1 & x & H2). split_and!; [done..|]. exists x. intros y Hy. apply H2.
      by apply (st_owned _ _ _ _ _ _ _ _ _ _ Hst).
  - exists (Some tt), s1, [], T1, U. split_and!; [done|done|done| |done|done|done|].
    + intros n n' Hn. rewrite !HU. lia.
    + intros _. split_and!; [done| |done]. intros n. rewrite HU. lia.
Qed.

Lemma kernel_ptes_user data_ va : data_ok data_ → 0 ≤ va < KERNBASE → kernel_ptes data_ va = 0.
Proof.
  intros [_ Hl Hh] Hva. rewrite /kernel_ptes /kmaps /=.
  rewrite !maps_out //; rewrite /KERNLINK /KERNBASE /DEVSPACE /EXTMEM in Hl, Hva |- *; lia.
Qed.

(** Flags of the entries mappages() writes for the kernel. *)
Lemma kernel_entry pa w :
  pa mod PGSIZE = 0 → 0 ≤ pa → pa + PGSIZE ≤ 2 ^ 32 → w = 0 ∨ w = PTE_W →
  present (entry pa w) = true ∧ PTE_ADDR (entry pa w) = pa ∧ Z.land (entry pa w) PTE_U = 0 ∧
  writable (entry pa w) = negb (w =? 0).
Proof.
  intros Ha H0 H1 Hw. assert (0 ≤ w < PGSIZE) as Hb by (destruct Hw as [-> | ->]; done).
  destruct (entry_spec pa w Ha H0 H1 Hb) as (_ & -> & -> & _). split_and!; [done..| |].
  all: destruct (entry_eq pa w Ha Hb) as [E _]; rewrite ?/writable /entry -Z.lor_assoc Z.land_lor_distr_l.
  all: assert (∀ f, 0 ≤ f < PGSIZE → Z.land pa f = 0) as Hz
    by (intros f Hf; pose proof (lor_page pa f Ha Hf) as El; pose proof (Z.add_lor_land pa f); lia).
  all: rewrite Hz; [by rewrite /PGSIZE; vm_compute|]; destruct Hw as [-> | ->]; reflexivity.
Qed.

Lemma kernel_ptes_kernel data_ va :
  data_ok data_ → KERNBASE ≤ va < KERNBASE + PHYSTOP →
  present (kernel_ptes data_ va) = true ∧ PTE_ADDR (kernel_ptes data_ va) = va - va mod PGSIZE - KERNBASE ∧
  Z.land (kernel_ptes data_ va) PTE_U = 0 ∧
  writable (kernel_ptes data_ va) = negb (bool_decide (KERNLINK ≤ va < data_)).
Proof.
  intros [Hal Hl Hh] Hva.
  assert (V2P data_ = data_ - KERNBASE) as Ev by (rewrite /V2P u32_id //; lay).
  rewrite /kernel_ptes /kmaps /kmap /= /kmap_pages /= Ev. change (V2P KERNLINK) with EXTMEM.
  rewrite (u32_id (data_ - KERNBASE - EXTMEM)); [lay|]. rewrite (u32_id (PHYSTOP - (data_ - KERNBASE))); [lay|].
  rewrite maps_out; [rewrite /DEVSPACE; lay|]. rewrite /maps.
  assert ((PHYSTOP - (data_ - KERNBASE)) / PGSIZE * PGSIZE = PHYSTOP - (data_ - KERNBASE) ∧
    (data_ - KERNBASE - EXTMEM) / PGSIZE * PGSIZE = data_ - KERNBASE - EXTMEM) as [E3 E2].
  { rewrite /PHYSTOP /KERNBASE /EXTMEM /PGSIZE in Hal |- *. Z.to_euclidean_division_equations. lia. }
  rewrite E3 E2. change (u32 (EXTMEM - 0) / PGSIZE * PGSIZE) with EXTMEM.
  assert (∀ v p, v mod PGSIZE = 0 → p - v = - KERNBASE → p + (va - v) / PGSIZE * PGSIZE = va - va mod PGSIZE - KERNBASE) as Hpa.
  { intros v p Hv Hp. rewrite /PGSIZE in Hv |- *. Z.to_euclidean_division_equations. lia. }
  assert (∀ w, w = 0 ∨ w = PTE_W → let e := entry (va - va mod PGSIZE - KERNBASE) w in
    present e = true ∧ PTE_ADDR e = va - va mod PGSIZE - KERNBASE ∧ Z.land e PTE_U = 0 ∧ writable e = negb (w =? 0)) as Hke.
  { intros w Hw e. pose proof (Z.div_mod va PGSIZE ltac:(done)) as Ed. pose proof (Z.mod_pos_bound va PGSIZE ltac:(done)) as Hb.
    assert (524288 ≤ va / PGSIZE) by (apply Z.div_le_lower_bound; lay).
    assert (va - va mod PGSIZE - KERNBASE = (va / PGSIZE - 524288) * PGSIZE) as E by (rewrite {1}Ed; lay).
    apply kernel_entry; [rewrite E; by apply Z.mod_mul|rewrite E; pg| |done]. clear E Ed. lay. }
  destruct (decide (data_ ≤ va)) as [H3|H3]; [|destruct (decide (KERNLINK ≤ va)) as [H2|H2]].
  - rewrite bool_decide_eq_true_2; [lia|]. rewrite bool_decide_eq_false_2; [lia|]. rewrite Hpa; [done|lia|]. apply (Hke PTE_W). by right.
  - rewrite bool_decide_eq_false_2; [lia|]. rewrite !bool_decide_eq_true_2; [lay..|]. rewrite Hpa; [done|lay|]. apply (Hke 0). by left.
  - rewrite bool_decide_eq_false_2; [lia|]. rewrite (bool_decide_eq_false_2 (KERNLINK ≤ va < _)); [lay|].
    rewrite bool_decide_eq_true_2; [lay|]. rewrite bool_decide_eq_false_2; [lia|]. rewrite Hpa; [done|lay|]. apply (Hke PTE_W). by right.
Qed.

(** The new page table of setupkvm(), beside an address space. *)
Lemma copying_init data_ pgdir Tp Up d fl T s fl1 s1 used :
  data_ok data_ → aspace end_ fl pgdir Tp Up s → built end_ d T fl s fl1 s1 used →
  (∀ va, 0 ≤ va < 2 ^ 32 → pte_of (kb s1) d va = kernel_ptes data_ va) →
  copying pgdir Tp Up d fl1 T ∅ s1.
Proof.
  intros Hdata Hpar Hbu Hpte.
  assert (∀ p, reserved pgdir Tp Up p → p ∉ fl) as Hres.
  { intros p [Hp|[n Hn]]; [by apply (vi_apart _ _ _ _ _ (as_vm _ _ _ _ _ _ Hpar))|].
    by apply (as_frames _ _ _ _ _ _ Hpar) in Hn as (_ & _ & ? & _). }
  assert (∀ p, owned fl1 d T ∅ p → p ∈ fl) as Hown.
  { intros p. rewrite (bu_fl _ _ _ _ _ _ _ _ Hbu) elem_of_app /owned (bu_tables _ _ _ _ _ _ _ _ Hbu).
    setoid_rewrite lookup_empty. intros [?|[?|[n [=]]]]; tauto. }
  split.
  - apply (aspace_kept fl pgdir Tp Up s); [done|apply Hbu| |].
    + intros p Hp Hin. apply (Hres p Hp), Hown. by left.
    + intros p a Hp Ha. apply (bu_frame _ _ _ _ _ _ _ _ Hbu). intros q Hq Hin. apply (Hres p Hp).
      assert (q ∈ fl) as Hqfl by (rewrite (bu_fl _ _ _ _ _ _ _ _ Hbu) elem_of_app; by left).
      rewrite (page_disjoint end_ p q a) //.
      * apply (aspace_pages end_ fl pgdir Tp Up s); [done|]. by right.
      * apply (aspace_pages end_ fl pgdir Tp Up s); [done|]. by left.
  - split; [apply Hbu| |by intros n p|by intros n n' p].
    intros va Hva. rewrite lookup_empty Hpte; [rewrite /KERNBASE in Hva; lia|]. by rewrite kernel_ptes_user.
  - intros p Hp Ho. by apply (Hres p Hp), Hown.
Qed.

(** An address space is untouched from [s] to [s']. *)
Definition untouched (pgdir : Z) (T U : gmap Z Z) (s s' : kstate) : Prop :=
  (∀ va, pte_of (kb s') pgdir va = pte_of (kb s) pgdir va) ∧
  ∀ p a, reserved pgdir T U p → in_page p a → byte (kb s') a = byte (kb s) a.

Lemma untouched_frame fl pgdir T U s fl' s' (used : Z → Prop) :
  aspace end_ fl pgdir T U s → kmem_inv end_ fl' s' →
  (∀ p, used p → p ∈ fl) → (∀ p, p ∈ fl' → used p) →
  (∀ a, (∀ p, used p → ¬ in_page p a) → byte (kb s') a = byte (kb s) a) →
  aspace end_ fl' pgdir T U s' ∧ untouched pgdir T U s s'.
Proof.
  intros HI HK Hu Hfl Hb.
  assert (∀ p, reserved pgdir T U p → p ∉ fl) as Hres.
  { intros p [Hp|[n Hn]]; [by apply (vi_apart _ _ _ _ _ (as_vm _ _ _ _ _ _ HI))|].
    by apply (as_frames _ _ _ _ _ _ HI) in Hn as (_ & _ & ? & _). }
  assert (∀ p a, reserved pgdir T U p → in_page p a → byte (kb s') a = byte (kb s) a) as Hbp.
  { intros p a Hp Ha. apply Hb. intros q Hq Hin. apply (Hres p Hp).
    rewrite (page_disjoint end_ p q a) //; [| |by apply Hu].
    - apply (aspace_pages end_ fl pgdir T U s); [done|]. by right.
    - apply (aspace_pages end_ fl pgdir T U s); [done|]. left. by apply Hu. }
  destruct (aspace_kept fl pgdir T U s fl' s' HI HK) as [HI' Hpte]; [|done|done].
  intros p Hp Hin. by apply (Hres p Hp), Hu, Hfl.
Qed.

Lemma copyuvm_run data_ fl pgdir Tp Up s sz :
  data_ok data_ → aspace end_ fl pgdir Tp Up s → alloc_ready s → 0 ≤ sz ≤ KERNBASE →
  (∀ n, 0 ≤ n → n * PGSIZE < sz → is_Some (Up !! n)) →
  ∃ d s' fl', copyuvm end_ data_ pgdir sz s = Ok d s' ∧ memonly s s' ∧
    aspace end_ fl' pgdir Tp Up s' ∧ untouched pgdir Tp Up s s' ∧ (∀ p, p ∈ fl' → p ∈ fl) ∧
    (d = 0 ∧ Z.of_nat (length fl) ≤ 1026 + (sz + PGSIZE - 1) / PGSIZE ∨
     d ≠ 0 ∧ ∃ T U, copying pgdir Tp Up d fl' T U s' ∧ (∀ p, owned fl' d T U p → p ∈ fl) ∧
       (∀ n, is_Some (U !! n) ↔ 0 ≤ n ∧ n * PGSIZE < sz) ∧
       (∀ n, 0 ≤ n → n * PGSIZE < sz → copied n pgdir Up d U s') ∧
       ∀ va, KERNBASE ≤ va < 2 ^ 32 → pte_of (kb s') d va = kernel_ptes data_ va).
Proof.
  intros Hdata Hpar Hr Hsz HUp.
  destruct (setupkvm_Ok end_ data_ fl s) as (d & s1 & fl1 & used & Hrun1 & Hm1 & Efl & HK1 & Hb1 & Hcase);
    [done|apply Hpar|done|].
  rewrite /copyuvm (bind_Ok _ _ _ _ _ Hrun1). destruct Hcase as [(-> & -> & Hfew)|(Hd0 & T & Hbu & Hpte)].
  { exists 0, s1, []. destruct (untouched_frame fl pgdir Tp Up s [] s1 (λ p, p ∈ used) Hpar) as [H1 H2];
      [done|rewrite Efl app_nil_r; done|by intros p ?%elem_of_nil|done|].
    split_and!; [done|done|done|done|by intros p ?%elem_of_nil|left; split; [done|]].
    rewrite /PGSIZE. Z.to_euclidean_division_equations. lia. }
  replace (d =? 0) with false by lia. rewrite /page_starts.
  set (m := Z.to_nat ((sz + PGSIZE - 1) / PGSIZE)).
  assert (∀ n, 0 ≤ n < Z.of_nat m ↔ 0 ≤ n ∧ n * PGSIZE < sz) as Hm.
  { intros n. rewrite /m /PGSIZE. Z.to_euclidean_division_equations. lia. }
  destruct (copyuvm_scan pgdir Tp Up d m 0 fl1 T ∅ s1)
    as (r & s2 & fl2 & T2 & U2 & Hrun2 & HC2 & Hm2 & Hd2 & Hown2 & Hb2 & Hok & Hbad).
  - exact (copying_init _ _ _ _ _ _ _ _ _ _ _ Hdata Hpar Hbu Hpte).
  - by apply (memonly_ready s).
  - rewrite /m /KERNBASE /PGSIZE. rewrite /KERNBASE in Hsz. Z.to_euclidean_division_equations. lia.
  - intros n Hn. apply Hm in Hn as [? ?]. by apply HUp.
  - intros n. rewrite lookup_empty. split; [by intros []|]. simpl. lia.
  - intros n. simpl. lia.
  - assert (memonly s s2) as Hms by by transitivity s1.
    assert (∀ p, owned fl1 d T ∅ p → p ∈ fl) as Hown.
    { intros p. rewrite Efl elem_of_app /owned (bu_tables _ _ _ _ _ _ _ _ Hbu).
      setoid_rewrite lookup_empty. intros [?|[?|[n [=]]]]; tauto. }
    assert (∀ a, (∀ p, owned fl1 d T ∅ p → ¬ in_page p a) → byte (kb s2) a = byte (kb s) a) as Hb.
    { intros a Ha. rewrite Hb2 // Hb1 //. intros p Hp. apply Ha. right. left. by apply Hbu. }
    rewrite (bind_Ok _ _ _ _ _ Hrun2). destruct r as [u|].
    + destruct (freevm_run fl2 d T2 U2 s2) as (s3 & fl3 & Hrun3 & Hm3 & HK3 & Hfl3 & Hb3);
        [apply HC2|by apply (memonly_ready s)|done|].
      destruct (untouched_frame fl pgdir Tp Up s fl3 s3 (owned fl1 d T ∅) Hpar) as [H1 H2];
        [done|done|intros p Hp; apply Hown2; by apply Hfl3| |].
      { intros a Ha. rewrite Hb3; [|by apply Hb]. intros p Hp. apply Ha. by apply Hown2. }
      exists 0, s3, fl3. rewrite (bind_Ok _ _ _ _ _ Hrun3). split_and!; [done|by transitivity s2|done|done| |].
      { intros p Hp. apply Hown, Hown2. by apply Hfl3. }
      left. split; [done|]. destruct (Hbad ltac:(done)) as (-> & HU2 & q & Hq).
      assert (Z.of_nat (length fl) ≤ 1025 + Z.max 1 (Z.of_nat m)) as Hlen.
      { replace (Z.of_nat m) with (Z.of_nat m - 0) by lia.
        apply (used_up end_ fl d T2 U2 s2 0 _ q); [apply HC2|apply (vi_kmem _ _ _ _ _ (as_vm _ _ _ _ _ _ Hpar))| |].
        { intros n p _ Hn. apply HU2. by exists p. }
        intros p Hp. apply Hq. rewrite Efl elem_of_app in Hp.
        rewrite /owned (bu_tables _ _ _ _ _ _ _ _ Hbu). tauto. }
      rewrite /m /PGSIZE in Hlen. rewrite /PGSIZE. Z.to_euclidean_division_equations. lia.
    + destruct (untouched_frame fl pgdir Tp Up s fl2 s2 (owned fl1 d T ∅) Hpar) as [H1 H2];
        [apply HC2|done|intros p Hp; apply Hown2; by left|done|].
      destruct (Hok eq_refl) as (U1 & U3 & U4).
      exists d, s2, fl2. split_and!; [done|done|done|done|intros p Hp; apply Hown, Hown2; by left|].
      right. split; [done|]. exists T2, U2. split_and!; [done|intros p Hp; by apply Hown, Hown2|intros n; by rewrite U1 Hm|intros n H0 H3; apply U3; by apply Hm|].
      intros va Hva. rewrite U4 // Hpte //. rewrite /KERNBASE in Hva. lia.
Qed.

(** ** copyout *)

(** Writing into a frame of the address space. *)
Lemma aspace_write fl pgdir T U s n q f :
  aspace end_ fl pgdir T U s → U !! n = Some q →
  (∀ a, ¬ in_page q a → byte (f (kb s)) a = byte (kb s) a) →
  aspace end_ fl pgdir T U (set_bytes_of f s) ∧
  ∀ va, pte_of (kb (set_bytes_of f s)) pgdir va = pte_of (kb s) pgdir va.
Proof.
  intros HI Hn Hf. pose proof (as_vm _ _ _ _ _ _ HI) as HV.
  pose proof (as_frames _ _ _ _ _ _ HI _ _ Hn) as (_ & Hq & Hqf & Hqt).
  destruct (ptab_outside end_ (kb s) (f (kb s)) pgdir T q (vi_ptab _ _ _ _ _ HV) Hq Hqt Hf) as [Hpt Hpte].
  split; [|done]. split; [split; [|done|apply HV]| |apply HI|apply HI].
  - by apply (own_page_store end_ _ q); [apply HV|..].
  - intros va Hva. simpl. rewrite Hpte. by apply HI.
Qed.

(** The user may access [va]. *)
Definition user_page (pgdir : Z) (U : gmap Z Z) (s : kstate) (va q : Z) : Prop :=
  0 ≤ va < KERNBASE ∧ U !! (va / PGSIZE) = Some q ∧ Z.land (pte_of (kb s) pgdir va) PTE_U ≠ 0.

Lemma uva2ka_Ok fl pgdir T U s va q :
  aspace end_ fl pgdir T U s → user_page pgdir U s va q → uva2ka pgdir va s = Ok q s.
Proof.
  intros HI (Hva & HU & Hu). pose proof (as_map _ _ _ _ _ _ HI va Hva) as Hmap. rewrite HU in Hmap.
  destruct Hmap as [Hp Ha]. pose proof (as_vm _ _ _ _ _ _ HI) as HV.
  pose proof (pte_of_slot end_ _ _ T va (vi_ptab _ _ _ _ _ HV)) as Hs.
  destruct (T !! PDX va) as [t|] eqn:HT; [|by rewrite Hs in Hp].
  pose proof (pt_tables _ _ _ _ (vi_ptab _ _ _ _ _ HV) _ _ HT) as (_ & Ht & _). pose proof (pg_low _ _ Ht).
  pose proof (PTX_bound va).
  rewrite /uva2ka (bind_Ok _ _ _ _ _ (walkpgdir_hit end_ fl pgdir T va false t s HV HT)).
  rewrite (bind_Ok _ _ _ _ _ (vload32_kernel _ s _)); [lia|]. rewrite -Hs.
  rewrite /present in Hp. apply negb_true_iff in Hp. rewrite Hp.
  replace (Z.land _ PTE_U =? 0) with false by lia. rewrite Ha.
  apply (as_frames _ _ _ _ _ _ HI) in HU as (_ & Hq & _). by destruct (page_V2P _ _ Hq) as (_ & _ & _ & _ & ->).
Qed.

(** Where the bytes go: byte [k] of the source is at the address the page table
    gives for [va + k]; nothing else changes. *)
Definition copied_out (pgdir va p len : Z) (s s' : kstate) : Prop :=
  (∀ k, 0 ≤ k < len → byte (kb s') (ka_of (pte_of (kb s) pgdir (va + k)) (va + k)) = byte (kb s) (p + k)) ∧
  (∀ a, (∀ k, 0 ≤ k < len → a ≠ ka_of (pte_of (kb s) pgdir (va + k)) (va + k)) → byte (kb s') a = byte (kb s) a).

Lemma ka_of_user fl pgdir T U s va q :
  aspace end_ fl pgdir T U s → user_page pgdir U s va q → ka_of (pte_of (kb s) pgdir va) va = q + va mod PGSIZE.
Proof.
  intros HI (Hva & HU & _). pose proof (as_map _ _ _ _ _ _ HI va Hva) as Hmap. rewrite HU in Hmap.
  destruct Hmap as [_ Ha]. apply (as_frames _ _ _ _ _ _ HI) in HU as (_ & Hq & _).
  rewrite /ka_of Ha. by destruct (page_V2P _ _ Hq) as (_ & _ & _ & _ & ->).
Qed.

(** One iteration: [n] bytes into the page of [va]. *)
Lemma copyout_step_Ok fl pgdir T U s va p len :
  aspace end_ fl pgdir T U s → 0 < len → 0 ≤ va → va + len ≤ KERNBASE → KERNBASE ≤ p →
  (∀ k, 0 ≤ k < len → ∃ q, user_page pgdir U s (va + k) q) →
  (∀ k n q, 0 ≤ k < len → U !! n = Some q → ¬ in_page q (p + k)) →
  ∃ n s', 0 < n ≤ len ∧ (n = len ∨ (va + n) mod PGSIZE = 0) ∧
    copyout_step pgdir (va, p, len) s = Ok (inl (va - va mod PGSIZE + PGSIZE, p + n, len - n)) s' ∧
    memonly s s' ∧ aspace end_ fl pgdir T U s' ∧ (∀ w, pte_of (kb s') pgdir w = pte_of (kb s) pgdir w) ∧
    copied_out pgdir va p n s s' ∧ (n < len → va - va mod PGSIZE + PGSIZE = va + n).
Proof.
  intros HI Hlen Hva Hend' Hp Hus Hdis. rewrite /KERNBASE in Hend'.
  destruct (Hus 0) as [q Hq]; [lia|]. rewrite Z.add_0_r in Hq.
  set (off := va mod PGSIZE). assert (0 ≤ off < PGSIZE) as Hoff by (apply Z.mod_pos_bound; done).
  assert (PGROUNDDOWN va = va - off) as E0 by (rewrite PGROUNDDOWN_eq //; lia).
  set (n := Z.min len (PGSIZE - off)).
  assert (∀ k, 0 ≤ k < n → (va + k) / PGSIZE = va / PGSIZE ∧ (va + k) mod PGSIZE = off + k) as Hpg.
  { intros k Hk. rewrite /n /off /PGSIZE in Hk |- *. Z.to_euclidean_division_equations. lia. }
  assert (user_page pgdir U s (va - off) q) as Hq0.
  { destruct Hq as (H1 & H2 & H3). assert ((va - off) / PGSIZE = va / PGSIZE) as E
      by (rewrite /off /PGSIZE; Z.to_euclidean_division_equations; lia).
    split_and!; [rewrite /off /PGSIZE; Z.to_euclidean_division_equations; lia|rewrite /KERNBASE; lia|by rewrite E|].
    assert (pte_of (kb s) pgdir (va - off) = pte_of (kb s) pgdir va) as ->; [|done].
    rewrite !(pte_of_slot end_ _ _ T _ (vi_ptab _ _ _ _ _ (as_vm _ _ _ _ _ _ HI))).
    assert (PDX (va - off) = PDX va ∧ PTX (va - off) = PTX va) as [-> ->]; [|done].
    apply same_page_iff; [rewrite /off /PGSIZE; Z.to_euclidean_division_equations; lia|lia|done]. }
  pose proof Hq as (_ & HU & _). pose proof (as_frames _ _ _ _ _ _ HI _ _ HU) as (_ & Hqok & _).
  pose proof (page_ok_bound _ _ Hqok). pose proof (pg_low _ _ Hqok).
  destruct (vmemmove_kernel (q + off) p n s) as (f & Hrun & Ef); [lia|done|rewrite /n; lia|].
  assert (∀ a, byte (f (kb s)) a = if bool_decide (q + off ≤ a < q + off + n) then byte (kb s) (p + (a - (q + off))) else byte (kb s) a) as Hb.
  { intros a. rewrite Ef byte_memmove //. rewrite /n; lia. }
  destruct (aspace_write fl pgdir T U s (va / PGSIZE) q f HI HU) as [HI' Hpte'].
  { intros a Ha. rewrite Hb bool_decide_eq_false_2 //. rewrite /in_page /n in Ha |- *. lia. }
  exists n, (set_bytes_of f s). split_and!; [rewrite /n; lia|rewrite /n; lia| | | |done|done| |].
  - rewrite /n /off /PGSIZE. Z.to_euclidean_division_equations. lia.
  - rewrite /copyout_step. replace (0 <? len) with true by lia. cbn [negb]. rewrite E0.
    rewrite (bind_Ok _ _ _ _ _ (uva2ka_Ok fl pgdir T U s _ q HI Hq0)).
    replace (q =? 0) with false by lia. replace (va - (va - off)) with off by lia.
    assert ((if PGSIZE - off >? len then len else PGSIZE - off) = n) as -> by (rewrite /n; destruct (_ >? _) eqn:?; lia).
    rewrite (bind_Ok _ _ _ _ _ Hrun). rewrite u32_id //. unfold PGSIZE in *. lia.
  - apply memonly_store.
  - split; simpl.
    + intros k Hk. destruct (Hpg k Hk) as [E1 E2].
      destruct (Hus k) as [q' Hq']; [rewrite /n in Hk; lia|].
      rewrite (ka_of_user fl pgdir T U s (va + k) q' HI Hq'). destruct Hq' as (_ & HU' & _). rewrite E1 HU in HU'.
      injection HU' as <-. rewrite E2 Hb bool_decide_eq_true_2; [lia|]. f_equal. lia.
    + intros a Ha. rewrite Hb bool_decide_eq_false_2 //. intros Hin.
      destruct (Hpg (a - (q + off))) as [E1 E2]; [lia|].
      destruct (Hus (a - (q + off))) as [q' Hq']; [rewrite /n in Hin; lia|].
      apply (Ha (a - (q + off))); [lia|]. rewrite (ka_of_user fl pgdir T U s _ q' HI Hq').
      destruct Hq' as (_ & HU' & _). rewrite E1 HU in HU'. injection HU' as <-. rewrite E2. lia.
  - rewrite /n. lia.
Qed.

(** Different user addresses are different bytes. *)
Lemma ka_of_inj fl pgdir T U s va va' q q' :
  aspace end_ fl pgdir T U s → user_page pgdir U s va q → user_page pgdir U s va' q' →
  ka_of (pte_of (kb s) pgdir va) va = ka_of (pte_of (kb s) pgdir va') va' → va = va'.
Proof.
  intros HI H1 H2. rewrite (ka_of_user fl pgdir T U s va q HI H1) (ka_of_user fl pgdir T U s va' q' HI H2). intros E.
  destruct H1 as (Hva & HU & _), H2 as (Hva' & HU' & _).
  pose proof (as_frames _ _ _ _ _ _ HI _ _ HU) as (_ & Hq & _). pose proof (as_frames _ _ _ _ _ _ HI _ _ HU') as (_ & Hq' & _).
  assert (0 ≤ va mod PGSIZE < PGSIZE ∧ 0 ≤ va' mod PGSIZE < PGSIZE) as [B1 B2] by (split; by apply Z.mod_pos_bound).
  assert (q = q') as <-.
  { apply (page_disjoint end_ _ _ (q + va mod PGSIZE)); [done|done|rewrite /in_page; lia|]. rewrite E /in_page. lia. }
  pose proof (as_inj _ _ _ _ _ _ HI _ _ _ HU HU') as En.
  unfold PGSIZE in *. Z.to_euclidean_division_equations. lia.
Qed.

Lemma copied_out_trans fl pgdir T U s s1 s2 va p n len :
  aspace end_ fl pgdir T U s → 0 ≤ n ≤ len →
  (∀ k, 0 ≤ k < len → ∃ q, user_page pgdir U s (va + k) q) →
  (∀ k m q, 0 ≤ k < len → U !! m = Some q → ¬ in_page q (p + k)) →
  (∀ w, pte_of (kb s1) pgdir w = pte_of (kb s) pgdir w) →
  copied_out pgdir va p n s s1 → copied_out pgdir (va + n) (p + n) (len - n) s1 s2 →
  copied_out pgdir va p len s s2.
Proof.
  intros HI Hn Hus Hdis Hpte [A1 A2] [B1 B2]. split.
  - intros k Hk. destruct (decide (k < n)) as [Hlt|Hge].
    + rewrite B2; [|apply A1; lia]. intros k' Hk'. rewrite Hpte. intros E.
      destruct (Hus k Hk) as [q Hq]. destruct (Hus (n + k')) as [q' Hq']; [lia|]. rewrite Z.add_assoc in Hq'.
      pose proof (ka_of_inj fl pgdir T U s _ _ q q' HI Hq Hq' E). lia.
    + specialize (B1 (k - n)). rewrite Hpte in B1. replace (va + n + (k - n)) with (va + k) in B1 by lia.
      rewrite B1; [lia|]. rewrite A2; [|f_equal; lia]. intros k' Hk' E.
      destruct (Hus k') as [q Hq]; [lia|]. rewrite (ka_of_user fl pgdir T U s _ q HI Hq) in E.
      destruct Hq as (_ & HU & _). apply (Hdis k _ q Hk HU). replace (p + n + (k - n)) with (p + k) in E by lia.
      rewrite E /in_page. pose proof (Z.mod_pos_bound (va + k') PGSIZE). unfold PGSIZE in *. lia.
  - intros a Ha. rewrite B2; [|apply A2].
    + intros k Hk. rewrite Hpte. replace (va + n + k) with (va + (n + k)) by lia. apply Ha. lia.
    + intros k Hk. apply Ha. lia.
Qed.

Lemma copyout_loop fuel fl pgdir T U s va p len :
  aspace end_ fl pgdir T U s → 0 ≤ len → 0 ≤ va → va + len ≤ KERNBASE → KERNBASE ≤ p →
  (∀ k, 0 ≤ k < len → ∃ q, user_page pgdir U s (va + k) q) →
  (∀ k n q, 0 ≤ k < len → U !! n = Some q → ¬ in_page q (p + k)) →
  va mod PGSIZE + len ≤ (Z.of_nat fuel - 1) * PGSIZE → (0 < fuel)%nat →
  ∃ s', loop fuel (copyout_step pgdir) (va, p, len) s = Ok 0 s' ∧ memonly s s' ∧
    aspace end_ fl pgdir T U s' ∧ (∀ w, pte_of (kb s') pgdir w = pte_of (kb s) pgdir w) ∧ copied_out pgdir va p len s s'.
Proof.
  revert s va p len. induction fuel as [|fuel IH]; intros s va p len HI Hlen Hva Hk Hp Hus Hdis Hfuel Hpos; [lia|].
  assert (∀ s w b, loop (S fuel) (copyout_step pgdir) (w, b, 0) s = Ok 0 s) as Hexit by done.
  assert (∀ s va p, copied_out pgdir va p 0 s s) as H0 by (intros; split; [lia|done]).
  destruct (decide (len = 0)) as [->|Hne].
  { exists s. split_and!; [apply Hexit|reflexivity|done|done|apply H0]. }
  destruct (copyout_step_Ok fl pgdir T U s va p len) as (n & s1 & Hn & Hal & Hrun & Hm1 & HI1 & Hpte1 & Hc1 & Hnx); [done|lia|done..|].
  pose proof (Z.mod_pos_bound va PGSIZE ltac:(done)) as Hmod.
  destruct fuel as [|fuel]; [pg|]. rewrite (loop_S _ _ _ _ _ _ Hrun).
  destruct (decide (n = len)) as [->|Hnl].
  { exists s1. rewrite Z.sub_diag. split_and!; [done|done|done|done|done]. }
  rewrite Hnx; [lia|].
  destruct (IH s1 (va + n) (p + n) (len - n)) as (s2 & Hrun2 & Hm2 & HI2 & Hpte2 & Hc2);
    [done|lia|lia|lia|lia| | | |lia|].
  { intros k Hk'. destruct (Hus (n + k)) as (q & H1 & H2 & H3); [lia|]. exists q. rewrite -Z.add_assoc.
    split_and!; [lia|lia|done|by rewrite Hpte1]. }
  { intros k m q Hk' HU. replace (p + n + k) with (p + (n + k)) by lia. apply (Hdis _ m); [lia|done]. }
  { destruct Hal as [->|Hal]; [lia|]. rewrite Hal. specialize (Hnx ltac:(lia)). pg. }
  exists s2. split_and!; [done|by transitivity s1|done|intros w; by rewrite Hpte2 Hpte1|].
  by apply (copied_out_trans fl pgdir T U s s1 s2 va p n len); [|lia|..].
Qed.

Lemma copyout_run fl pgdir T U s va p len :
  aspace end_ fl pgdir T U s → 0 ≤ len → 0 ≤ va → va + len ≤ KERNBASE → KERNBASE ≤ p →
  (∀ k, 0 ≤ k < len → ∃ q, user_page pgdir U s (va + k) q) →
  (∀ k n q, 0 ≤ k < len → U !! n = Some q → ¬ in_page q (p + k)) →
  ∃ s', copyout pgdir va p len s = Ok 0 s' ∧ memonly s s' ∧ aspace end_ fl pgdir T U s' ∧
    (∀ w, pte_of (kb s') pgdir w = pte_of (kb s) pgdir w) ∧ copied_out pgdir va p len s s'.
Proof.
  intros HI Hlen Hva Hk Hp Hus Hdis. apply copyout_loop; [done..| |lia].
  pose proof (Z.mod_pos_bound va PGSIZE ltac:(done)) as Hmod.
  unfold PGSIZE in *. Z.to_euclidean_division_equations. lia.
Qed.

(** An address without a page table: the entry is read at address 0 of the
    current process, because the null pointer is not tested. *)
Lemma uva2ka_null fl pgdir T U s uva :
  aspace end_ fl pgdir T U s → T !! PDX uva = None →
  uva2ka pgdir uva s =
    (e ← vload32 0;
     mret (if (Z.land e PTE_P =? 0) || (Z.land e PTE_U =? 0) then 0 else P2V (PTE_ADDR e))) s.
Proof.
  intros HI HT. rewrite /uva2ka (bind_Ok _ _ _ _ _ (walkpgdir_miss end_ fl pgdir T uva s (as_vm _ _ _ _ _ _ HI) HT)).
  rewrite /mbind /M_bind. destruct (vload32 0 s) as [e s'|?|? ?| |?|]; [|done..].
  destruct (Z.land e PTE_P =? 0); [done|]. by destruct (Z.land e PTE_U =? 0).
Qed.

End vmcopy.
