(* ===== verification/VmProps.v ===== *)
(** * Main properties of virtual memory

    The theorems on vm.c, with a concrete address space on which they are
    instantiated: a few pages freed by kinit1(), a page directory and one user
    page. *)

From S2P Require Import Prelude Param Bytes String State Spinlock Console ConsoleSpec Sched Sleeplock Kalloc Vm VmSpec VmUser VmCopy.

Notation kb s := (mem_bytes (k_mem s)).

Section properties.
Context (end_ data_ : Z) (Hend : KERNBASE < end_).

(** mappages() on [n] free pages of an address space maps them one by one to
    consecutive physical pages with the given permissions and returns 0, or runs
    out of memory for a page table after [k < n] of them and returns -1; every
    other mapping stays as it was. *)
Theorem mappages_correct fl pgdir T va n pa perm s :
  vm_inv end_ fl pgdir T s → alloc_ready s → 0 < n →
  va mod PGSIZE = 0 → 0 ≤ va → va + n * PGSIZE ≤ 2 ^ 32 →
  pa mod PGSIZE = 0 → 0 ≤ pa → pa + n * PGSIZE ≤ 2 ^ 32 → 0 ≤ perm < PGSIZE →
  (∀ va', va ≤ va' < va + n * PGSIZE → present (pte_of (kb s) pgdir va') = false) →
  ∃ r k s' T' fl' used,
    mappages pgdir va (n * PGSIZE) pa perm s = Ok r s' ∧ vm_inv end_ fl' pgdir T' s' ∧ fl = used ++ fl' ∧
    (r = 0 ∧ k = n ∨ r = -1 ∧ fl' = [] ∧ 0 ≤ k < n) ∧
    (∀ va', 0 ≤ va' < 2 ^ 32 → pte_of (kb s') pgdir va' =
       if bool_decide (va ≤ va' < va + k * PGSIZE)
       then Z.lor (Z.lor (pa + (va' - va) / PGSIZE * PGSIZE) perm) PTE_P else pte_of (kb s) pgdir va').
Proof.
  intros HI Hr Hn A1 A2 A3 P1 P2 P3 Hf Hfree.
  destruct (mappages_Ok end_ fl pgdir T va n pa perm s) as (r & k & s' & T' & fl' & used & Hrun & Hg & Hk & Hpte); [done..|].
  exists r, k, s', T', fl', used. split_and!; [done|apply Hg|apply Hg|done|done].
Qed.

(** C29: setupkvm() builds a page table in which every kernel address up to
    [PHYSTOP] is mapped one to one, the kernel's text read-only, nothing is
    accessible to the user and no user address is mapped; or it returns 0, which
    takes a free list of at most 1025 pages, all of them now taken. *)
Theorem setupkvm_correct fl s :
  data_ok data_ → kmem_inv end_ fl s → alloc_ready s →
  ∃ d s' fl', setupkvm data_ s = Ok d s' ∧ kmem_inv end_ fl' s' ∧
    (d = 0 ∧ fl' = [] ∧ Z.of_nat (length fl) ≤ 1025 ∨
     d ≠ 0 ∧ (∀ va, 0 ≤ va < KERNBASE → pte_of (kb s') d va = 0) ∧
     ∀ va, KERNBASE ≤ va < KERNBASE + PHYSTOP →
       let e := pte_of (kb s') d va in
       present e = true ∧ PTE_ADDR e = va - va mod PGSIZE - KERNBASE ∧ Z.land e PTE_U = 0 ∧
       writable e = negb (bool_decide (KERNLINK ≤ va < data_))).
Proof.
  intros Hdata HI Hr. destruct (setupkvm_Ok end_ data_ fl s Hdata HI Hr) as (d & s' & fl' & used & Hrun & _ & _ & HK & _ & Hcase).
  exists d, s', fl'. split_and!; [done..|]. destruct Hcase as [?|(Hd & T & Hbu & Hpte)]; [by left|right].
  split_and!; [done| |].
  - intros va Hva. rewrite Hpte; [rewrite /KERNBASE in Hva; lia|]. by apply kernel_ptes_user.
  - intros va Hva e. rewrite /e Hpte; [rewrite /KERNBASE /PHYSTOP in Hva; lia|]. by apply kernel_ptes_kernel.
Qed.

(** C28: allocuvm() from [oldsz] to [newsz] adds exactly the missing pages, each on
    a frame of its own, filled with zeros and writable by the user, and returns
    [newsz]; or it returns 0 with the address space as it was, which happens only
    when the free list is no longer than 1025 plus the number of missing pages.
    In both cases no page is lost, the other mappings stand and the old pages
    keep their bytes. A failure is reported on the console, which must be able to
    print. *)
Theorem allocuvm_correct fl pgdir T U s oldsz newsz :
  aspace end_ fl pgdir T U s → alloc_ready s → printable s → 0 ≤ oldsz ≤ newsz → newsz < KERNBASE →
  (∀ n, PGROUNDUP oldsz / PGSIZE ≤ n → U !! n = None) →
  ∃ r s' fl' T' U', allocuvm end_ pgdir oldsz newsz s = Ok r s' ∧ aspace end_ fl' pgdir T' U' s' ∧
    (∀ p, owned fl pgdir T U p ↔ owned fl' pgdir T' U' p) ∧
    (∀ va, KERNBASE ≤ va < 2 ^ 32 → pte_of (kb s') pgdir va = pte_of (kb s) pgdir va) ∧
    (∀ n p a, U !! n = Some p → U' !! n = Some p ∧ (in_page p a → byte (kb s') a = byte (kb s) a)) ∧
    (r = newsz ∧
       (∀ n, U' !! n = U !! n ∨ PGROUNDUP oldsz / PGSIZE ≤ n < PGROUNDUP newsz / PGSIZE) ∧
       (∀ va, 0 ≤ va < KERNBASE → PGROUNDUP oldsz / PGSIZE ≤ va / PGSIZE < PGROUNDUP newsz / PGSIZE →
          ∃ p, U' !! (va / PGSIZE) = Some p ∧
            pte_of (kb s') pgdir va = entry (V2P p) (Z.lor PTE_W PTE_U) ∧ ∀ a, in_page p a → byte (kb s') a = 0) ∨
     r = 0 ∧ U' = U ∧ Z.of_nat (length fl) ≤ 1025 + (PGROUNDUP newsz / PGSIZE - PGROUNDUP oldsz / PGSIZE)).
Proof.
  intros HI Hr Hpr Ho Hnew Hfresh.
  destruct (allocuvm_run end_ Hend fl pgdir T U s oldsz newsz) as (r & s' & Hrun & fl' & T' & U' & [x Hst] & Hcase); [done..|].
  exists r, s', fl', T', U'. split_and!; [done|apply Hst|apply Hst|apply Hst| |].
  - intros n p a Hn. assert (U' !! n = Some p) as Hn'.
    { destruct Hcase as [(_ & _ & Hsub & _)|(_ & -> & _)]; [exact (lookup_weaken _ _ _ _ Hn Hsub)|done]. }
    split; [done|]. by apply (st_keep _ _ _ _ _ _ _ _ _ _ Hst n p a).
  - destruct Hcase as [(-> & _ & Hsub & Hgr & Hz)|?]; [left|by right]. split_and!; [done| |].
    + intros n. specialize (Hgr n). destruct (decide (PGROUNDUP oldsz / PGSIZE ≤ n < PGROUNDUP newsz / PGSIZE)); [by right|left].
      by rewrite bool_decide_eq_false_2 in Hgr.
    + intros va Hva Hn. specialize (Hgr (va / PGSIZE)). rewrite bool_decide_eq_true_2 // in Hgr.
      destruct Hgr as [p Hp]. exists p. split; [done|]. by apply Hz.
Qed.

(** deallocuvm() removes exactly the user pages from [newsz] rounded up to
    [oldsz], gives their frames back and keeps the rest, when the pages above
    [newsz] have no hole. *)
Theorem deallocuvm_correct fl pgdir T U s oldsz newsz :
  aspace end_ fl pgdir T U s → alloc_ready s → 0 ≤ newsz < oldsz → oldsz ≤ KERNBASE →
  dense (PGROUNDUP newsz / PGSIZE) U →
  ∃ s' fl' U', deallocuvm end_ pgdir oldsz newsz s = Ok newsz s' ∧ aspace end_ fl' pgdir T U' s' ∧
    (∀ p, owned fl pgdir T U p ↔ owned fl' pgdir T U' p) ∧
    (∀ n, U' !! n = if bool_decide (PGROUNDUP newsz ≤ n * PGSIZE < oldsz) then None else U !! n) ∧
    (∀ n p a, U' !! n = Some p → in_page p a → byte (kb s') a = byte (kb s) a).
Proof.
  intros HI Hr Hsz Hk Hd.
  destruct (deallocuvm_run end_ Hend fl pgdir T U s oldsz newsz) as (s' & fl' & U' & Hrun & Hst & Hrem); [done..|].
  destruct (PGROUNDUP_spec newsz) as [Hal _]; [lia|].
  exists s', fl', U'. split_and!; [done|apply Hst|apply Hst| |].
  - intros n. rewrite (Hrem n). apply (f_equal (λ b : bool, if b then None else U !! n)). apply bool_decide_ext.
    unfold PGSIZE in *. Z.to_euclidean_division_equations. lia.
  - intros n p a Hn. apply (st_keep _ _ _ _ _ _ _ _ _ _ Hst n); [|done]. rewrite (Hrem n) in Hn. by case_bool_decide.
Qed.

(** freevm() gives back every page of the address space, its frames, its
    tables and its directory, and changes no other byte. *)
Theorem freevm_correct fl pgdir T U s :
  aspace end_ fl pgdir T U s → alloc_ready s → dense 0 U →
  ∃ s' fl', freevm end_ pgdir s = Ok tt s' ∧ kmem_inv end_ fl' s' ∧
    (∀ p, p ∈ fl' ↔ owned fl pgdir T U p) ∧
    (∀ a, (∀ p, owned fl pgdir T U p → ¬ in_page p a) → byte (kb s') a = byte (kb s) a).
Proof.
  intros HI Hr Hd. destruct (freevm_run end_ Hend fl pgdir T U s HI Hr Hd) as (s' & fl' & ? & _ & ? & ? & ?).
  by exists s', fl'.
Qed.

(** C7: copyuvm() leaves the parent's address space as it is and returns the
    directory of a child whose pages below [sz] are on frames of their own, with
    the parent's bytes and flags, and whose kernel part is setupkvm()'s; it
    returns 0 only when the free list is no longer than 1026 plus the number of
    pages to copy. *)
Theorem copyuvm_correct fl pgdir Tp Up s sz :
  data_ok data_ → aspace end_ fl pgdir Tp Up s → alloc_ready s → 0 ≤ sz ≤ KERNBASE →
  (∀ n, 0 ≤ n → n * PGSIZE < sz → is_Some (Up !! n)) →
  ∃ d s' fl', copyuvm end_ data_ pgdir sz s = Ok d s' ∧ aspace end_ fl' pgdir Tp Up s' ∧
    untouched pgdir Tp Up s s' ∧
    (d = 0 ∧ Z.of_nat (length fl) ≤ 1026 + (sz + PGSIZE - 1) / PGSIZE ∨
     d ≠ 0 ∧ ∃ T U, aspace end_ fl' d T U s' ∧
       (∀ p, reserved pgdir Tp Up p → ¬ owned fl' d T U p) ∧
       (∀ n, is_Some (U !! n) ↔ 0 ≤ n ∧ n * PGSIZE < sz) ∧
       (∀ n, 0 ≤ n → n * PGSIZE < sz → copied n pgdir Up d U s') ∧
       ∀ va, KERNBASE ≤ va < 2 ^ 32 → pte_of (kb s') d va = kernel_ptes data_ va).
Proof.
  intros Hdata HI Hr Hsz HUp.
  destruct (copyuvm_run end_ Hend data_ fl pgdir Tp Up s sz) as (d & s' & fl' & Hrun & _ & HI' & Hun & _ & Hcase); [done..|].
  exists d, s', fl'. split_and!; [done..|].
  destruct Hcase as [?|(Hd & T & U & [_ H2 H3] & _ & ?)]; [by left|right]. split; [done|]. by exists T, U.
Qed.

(** C39: copyout() to user-accessible pages puts byte [k] of the buffer at the
    address the page table gives for [va + k], across page boundaries, and
    changes nothing else; so reading the user's memory gives the buffer back. *)
Theorem copyout_correct fl pgdir T U s va p len :
  aspace end_ fl pgdir T U s → 0 ≤ len → 0 ≤ va → va + len ≤ KERNBASE → KERNBASE ≤ p →
  (∀ k, 0 ≤ k < len → ∃ q, user_page pgdir U s (va + k) q) →
  (∀ k n q, 0 ≤ k < len → U !! n = Some q → ¬ in_page q (p + k)) →
  ∃ s', copyout pgdir va p len s = Ok 0 s' ∧ aspace end_ fl pgdir T U s' ∧
    (∀ k, 0 ≤ k < len → byte (kb s') (ka_of (pte_of (kb s') pgdir (va + k)) (va + k)) = byte (kb s) (p + k)) ∧
    (∀ a, (∀ k, 0 ≤ k < len → a ≠ ka_of (pte_of (kb s) pgdir (va + k)) (va + k)) → byte (kb s') a = byte (kb s) a).
Proof.
  intros HI Hlen Hva Hk Hp Hus Hdis.
  destruct (copyout_run end_ fl pgdir T U s va p len) as (s' & Hrun & _ & HI' & Hpte & [Hc1 Hc2]); [done..|].
  exists s'. split_and!; [done|done| |done]. intros k Hk'. rewrite Hpte. by apply Hc1.
Qed.

End properties.

(** ** A concrete address space *)

Definition demo_end : Z := 0x80108000.

(** Seven free pages. *)
Definition demo_mem : kstate :=
  state_or boot_state (kinit1 demo_end 0x80108000 0x8010f000 boot_state).

Definition demo_fl : list Z :=
  [0x8010e000; 0x8010d000; 0x8010c000; 0x8010b000; 0x8010a000; 0x80109000; 0x80108000].

Lemma demo_mem_ok : kmem_inv demo_end demo_fl demo_mem ∧ alloc_ready demo_mem.
Proof.
  split.
  - split.
    + vm_compute. by split_and!.
    + by apply (bool_decide_unpack _); vm_compute.
    + rewrite /demo_fl. repeat (apply Forall_cons; split; [split; by vm_compute|]). by apply Forall_nil.
  - split; [by vm_compute|]. split; vm_compute; [done|]. by intros.
Qed.

(** One user page, mapped by allocuvm() in an empty page table. *)
Definition demo_alloc : K Z :=
  d ← kalloc;
  kstore (λ m, memset m d 0 PGSIZE);;
  allocuvm demo_end d 0 PGSIZE.

Lemma demo_dir s0 :
  kmem_inv demo_end demo_fl s0 → alloc_ready s0 →
  ∃ s, (d ← kalloc; kstore (λ m, memset m d 0 PGSIZE)) s0 = Ok tt s ∧
    aspace demo_end (tail demo_fl) 0x8010e000 ∅ ∅ s ∧ alloc_ready s ∧ memonly s0 s.
Proof.
  intros HI Hr.
  destruct (kalloc_run demo_end demo_fl s0 HI Hr) as (s1 & Hk & Hm & HI1 & _).
  pose proof (km_pages _ _ _ HI) as [Hp _]%Forall_cons. pose proof (km_nodup _ _ _ HI) as [Hn _]%NoDup_cons.
  destruct (empty_dir demo_end (tail demo_fl) 0x8010e000 s1 HI1 Hp Hn) as [HV Hpte].
  rewrite (bind_Ok _ _ _ _ _ Hk). eexists. split; [done|].
  assert (memonly s0 (set_bytes_of (λ m, memset m 0x8010e000 0 PGSIZE) s1)) as Hm1
    by (transitivity s1; [done|apply memonly_store]).
  split_and!; [|by apply (memonly_ready s0)|done].
  split; [exact HV| |by intros n p|by intros n n' p]. intros va _. rewrite lookup_empty. by rewrite Hpte.
Qed.

Lemma demo_result_eq : value_or (-1) (demo_alloc demo_mem) = PGSIZE.
Proof. by vm_compute. Qed.

Definition demo_as : Prop :=
  ∃ fl T U s p, aspace demo_end fl 0x8010e000 T U s ∧ alloc_ready s ∧ U !! 0 = Some p ∧
    (∀ n, is_Some (U !! n) → n = 0) ∧ (∀ q, U !! 0 = Some q → ¬ in_page q 0x80100000) ∧
    (∀ va, 0 ≤ va < PGSIZE → Z.land (pte_of (kb s) 0x8010e000 va) PTE_U ≠ 0) ∧
    (∀ va, 0 ≤ va < PGSIZE → writable (pte_of (kb s) 0x8010e000 va) = true) ∧ printable s ∧
    ∀ q, owned fl 0x8010e000 T U q → q < 0x8010f000.

Lemma demo_user_from m :
  kmem_inv demo_end demo_fl m → alloc_ready m → printable m → value_or (-1) (demo_alloc m) = PGSIZE → demo_as.
Proof.
  intros HI0 Hr0 Hpr0 Eres. destruct (demo_dir m HI0 Hr0) as (s0 & Hrun0 & HI & Hr & Hpr%memonly_printable); [|done].
  destruct (allocuvm_run demo_end ltac:(done) (tail demo_fl) 0x8010e000 ∅ ∅ s0 0 PGSIZE) as (r & s & Hrun & fl & T & U & _ & Hcase);
    [exact HI|exact Hr|exact Hpr|pg|by vm_compute|intros n _; apply lookup_empty|].
  assert (r = PGSIZE) as ->.
  { rewrite /demo_alloc in Eres. apply bind_Ok_inv in Hrun0 as (d & s1 & Hk & Hst0). rewrite (bind_Ok _ _ _ _ _ Hk) in Eres.
    rewrite (bind_Ok _ _ _ _ _ Hst0) in Eres.
    assert (d = 0x8010e000) as ->; [|rewrite Hrun in Eres; exact Eres].
    destruct (kalloc_run _ _ _ HI0 Hr0) as (s' & Hk' & _).
    rewrite Hk in Hk'. injection Hk' as -> _. reflexivity. }
  destruct Hcase as [(_ & Hst & _ & Hgr & Hz)|[[=] _]].
  change (PGROUNDUP 0 / PGSIZE) with 0 in Hgr, Hz. change (PGROUNDUP PGSIZE / PGSIZE) with 1 in Hgr, Hz.
  pose proof (Hgr 0) as [p Hp]. exists fl, T, U, s, p. split_and!; [apply Hst| |done| | | | |apply (memonly_printable s0); [apply Hst|done]|].
  - apply (memonly_ready s0); [apply Hst|done].
  - intros n Hn. specialize (Hgr n). case_bool_decide; [lia|]. rewrite Hgr in Hn. by destruct Hn.
  - intros q Hq Hin. apply (as_frames _ _ _ _ _ _ (st_inv _ _ _ _ _ _ _ _ _ _ Hst)) in Hq as (_ & [_ Hq _ _] & _).
    rewrite /in_page /demo_end in Hq, Hin. lia.
  - intros va Hva. assert (va / PGSIZE = 0) as E by by apply Z.div_small.
    destruct (Hz va p) as [-> _]; [rewrite /KERNBASE; pg|lia|by rewrite E|].
    rewrite /entry -Z.lor_assoc Z.land_lor_distr_l. intros [_ E0]%Z.lor_eq_0_iff. by vm_compute in E0.
  - intros va Hva. assert (va / PGSIZE = 0) as E by by apply Z.div_small.
    destruct (Hz va p) as [-> _]; [rewrite /KERNBASE; pg|lia|by rewrite E|].
    rewrite /writable negb_true_iff Z.eqb_neq /entry -Z.lor_assoc Z.land_lor_distr_l.
    intros [_ E0]%Z.lor_eq_0_iff. by vm_compute in E0.
  - intros q [Hq|[[->|(n & ?)]|(n & ?)]]%(st_owned _ _ _ _ _ _ _ _ _ _ Hst); [|lia|by rewrite lookup_empty in H..].
    rewrite /demo_fl !elem_of_cons elem_of_nil in Hq. lia.
Qed.

Lemma demo_mem_printable : printable demo_mem.
Proof. by split; [split|]. Qed.

Lemma demo_user : demo_as.
Proof. exact (demo_user_from demo_mem (proj1 demo_mem_ok) (proj2 demo_mem_ok) demo_mem_printable demo_result_eq). Qed.

(** ** The properties on it *)

Lemma mappages_correct_witness :
  ∃ s r s', mappages 0x8010e000 0x4000 (2 * PGSIZE) 0x10000 PTE_U s = Ok r s' ∧ (r = 0 ∨ r = -1).
Proof.
  destruct (demo_dir demo_mem (proj1 demo_mem_ok) (proj2 demo_mem_ok)) as (s & _ & HI & Hr & _).
  destruct (mappages_correct demo_end (tail demo_fl) 0x8010e000 ∅ 0x4000 2 0x10000 PTE_U s)
    as (r & k & s' & T' & fl' & used & Hrun & _ & _ & Hr' & _);
    [apply HI|exact Hr|lia|reflexivity|lia|pg|reflexivity|lia|pg|unfold PTE_U; pg| |].
  - intros va Hva. pose proof (as_map _ _ _ _ _ _ HI va) as Hm. rewrite lookup_empty in Hm. apply Hm.
    rewrite /KERNBASE /PGSIZE in Hva |- *. lia.
  - exists s, r, s'. split; [exact Hrun|]. destruct Hr' as [[-> _]|[-> _]]; [by left|by right].
Defined.

Lemma setupkvm_correct_witness :
  ∃ d s' fl', setupkvm 0x80107000 demo_mem = Ok d s' ∧ kmem_inv demo_end fl' s'.
Proof.
  destruct (setupkvm_correct demo_end 0x80107000 demo_fl demo_mem) as (d & s' & fl' & Hrun & HI & _);
    [split; by vm_compute|exact (proj1 demo_mem_ok)|exact (proj2 demo_mem_ok)|].
  exists d, s', fl'. split; [exact Hrun|exact HI].
Defined.

Lemma allocuvm_correct_witness :
  ∃ s r s' fl' T' U', allocuvm demo_end 0x8010e000 PGSIZE (3 * PGSIZE) s = Ok r s' ∧ aspace demo_end fl' 0x8010e000 T' U' s'.
Proof.
  destruct demo_user as (fl & T & U & s & p & HI & Hr & _ & HU & _ & _ & _ & Hpr & _).
  destruct (allocuvm_correct demo_end ltac:(by vm_compute) fl 0x8010e000 T U s PGSIZE (3 * PGSIZE)) as (r & s' & fl' & T' & U' & Hrun & HI' & _);
    [exact HI|exact Hr|exact Hpr|pg|by vm_compute| |].
  - intros n Hn. apply eq_None_not_Some. intros ->%HU. by vm_compute in Hn.
  - by exists s, r, s', fl', T', U'.
Defined.

Lemma deallocuvm_correct_witness :
  ∃ s s' fl' T U', deallocuvm demo_end 0x8010e000 PGSIZE 0 s = Ok 0 s' ∧ aspace demo_end fl' 0x8010e000 T U' s'.
Proof.
  destruct demo_user as (fl & T & U & s & p & HI & Hr & _ & HU & _).
  destruct (deallocuvm_correct demo_end ltac:(by vm_compute) fl 0x8010e000 T U s PGSIZE 0) as (s' & fl' & U' & Hrun & HI' & _);
    [exact HI|exact Hr|pg|by vm_compute| |].
  - intros n n' Hn [q Hq]. assert (n = 0) as -> by (apply HU; by exists q).
    change (PGROUNDUP 0 / PGSIZE) with 0 in Hn. replace n' with 0 by lia. by exists q.
  - by exists s, s', fl', T, U'.
Defined.

Lemma freevm_correct_witness : ∃ s s' fl', freevm demo_end 0x8010e000 s = Ok tt s' ∧ kmem_inv demo_end fl' s'.
Proof.
  destruct demo_user as (fl & T & U & s & p & HI & Hr & _ & HU & _).
  destruct (freevm_correct demo_end ltac:(by vm_compute) fl 0x8010e000 T U s) as (s' & fl' & Hrun & HI' & _); [exact HI|exact Hr| |].
  - intros n n' Hn [q Hq]. assert (n = 0) as -> by (apply HU; by exists q). replace n' with 0 by lia. by exists q.
  - by exists s, s', fl'.
Defined.

Lemma copyuvm_correct_witness :
  ∃ s d s' fl' T U, copyuvm demo_end 0x80107000 0x8010e000 PGSIZE s = Ok d s' ∧ aspace demo_end fl' 0x8010e000 T U s'.
Proof.
  destruct demo_user as (fl & T & U & s & p & HI & Hr & Hp & _).
  destruct (copyuvm_correct demo_end 0x80107000 ltac:(by vm_compute) fl 0x8010e000 T U s PGSIZE) as (d & s' & fl' & Hrun & HI' & _);
    [split; by vm_compute|exact HI|exact Hr|by vm_compute| |].
  - intros n H0 Hn. assert (n = 0) as -> by (rewrite /PGSIZE in Hn; lia). by exists p.
  - by exists s, d, s', fl', T, U.
Defined.

(** 256 bytes of the kernel, read back from the program's first page. *)
Lemma copyout_correct_witness :
  ∃ s s' fl T U, copyout 0x8010e000 0x10 0x80100000 256 s = Ok 0 s' ∧ aspace demo_end fl 0x8010e000 T U s' ∧
    ∀ k, 0 ≤ k < 256 →
      byte (kb s') (ka_of (pte_of (kb s') 0x8010e000 (0x10 + k)) (0x10 + k)) = byte (kb s) (0x80100000 + k).
Proof.
  destruct demo_user as (fl & T & U & s & p & HI & Hr & Hp & HU & Hout & Hu & _).
  destruct (copyout_correct demo_end fl 0x8010e000 T U s 0x10 0x80100000 256) as (s' & Hrun & HI' & Hb & _);
    [exact HI|lia|lia|rewrite /KERNBASE; lia|rewrite /KERNBASE; lia| | |].
  - intros k Hk. exists p. split_and!; [lia|rewrite /KERNBASE; lia| |apply Hu; rewrite /PGSIZE; lia].
    rewrite Z.div_small; [rewrite /PGSIZE; lia|done].
  - intros k n q Hk Hq [Hin _]. destruct (as_frames _ _ _ _ _ _ HI n q Hq) as (_ & Hpg & _).
    pose proof (pg_end _ _ Hpg) as He. rewrite /demo_end in He. lia.
  - exists s, s', fl, T, U. split_and!; [exact Hrun|exact HI'|exact Hb].
Defined.
