(* ===== verification/Fs.v ===== *)
(** * The file system: fs.c

    Blocks, inodes, file contents, directories and path names, inside
    transactions of the log. An inode pointer is an index into [icache.inode];
    a path is the list of its characters without the final NUL, a path element a
    list of at most [DIRSIZ] characters. Reading delivers its bytes piece by
    piece to a destination [put] (user memory, kernel memory or a local
    variable); writing takes them from a source [src]. *)

From S2P Require Import Prelude Param Bytes String State Spinlock Console Sched Sleeplock Bio Log.

(** ** fs.h and file.h *)

Definition ROOTINO : Z := 1.
Definition NDIRECT : nat := 12.
Definition NINDIRECT : Z := BSIZE / 4.
Definition MAXFILE : Z := Z.of_nat NDIRECT + NINDIRECT.
Definition sizeof_dinode : nat := 64.
Definition IPB : Z := BSIZE / 64.
Definition IBLOCK (i : Z) (sb : superblock) : Z := u32 (i / IPB + sb_inodestart sb).
Definition BPB : Z := BSIZE * 8.
Definition BBLOCK (b : Z) (sb : superblock) : Z := u32 (b / BPB + sb_bmapstart sb).
Definition DIRSIZ : nat := 14.
Definition I_VALID : Z := 0x2.
Definition CONSOLE : Z := 1.

(** struct dirent: its two fields in [sizeof_dirent] bytes. *)
Definition sizeof_dirent : Z := 16.
Record dirent := Dirent { de_inum : Z; de_name : list Z }.
Definition dirent_of (l : list Z) : dirent := Dirent (get16 0 l) (get_bytes 2 DIRSIZ l).
Definition dirent_bytes (d : dirent) : list Z := le2 (de_inum d) ++ de_name d.

(** struct stat (stat.h). *)
Record stat := Stat { st_dev : Z; st_ino : Z; st_type : Z; st_nlink : Z; st_size : Z }.

(** ** The inode cache *)

Definition inodes (s : kstate) : list inode := fs_icache (k_fs s).

Definition set_inodes (l : list inode) (s : kstate) : kstate := set_fs (Fs (fs_sb (k_fs s)) l) s.

Definition getino (i : nat) : K inode :=
  l ← gets inodes;
  match l !! i with Some x => mret x | None => fault 0 end.

Definition updino (i : nat) (f : inode → inode) : K unit :=
  modify (λ s, set_inodes (alter f i (inodes s)) s).

Definition getsb : K superblock := gets (λ s, fs_sb (k_fs s)).
Definition setsb (sb : superblock) : K unit := modify (λ s, set_fs (Fs sb (fs_icache (k_fs s))) s).

Definition set_ref (v : Z) (x : inode) : inode :=
  Inode (i_dev x) (i_inum x) v (i_flags x) (i_type x) (i_major x) (i_minor x) (i_nlink x) (i_size x) (i_addrs x).
Definition set_iflags (v : Z) (x : inode) : inode :=
  Inode (i_dev x) (i_inum x) (i_ref x) v (i_type x) (i_major x) (i_minor x) (i_nlink x) (i_size x) (i_addrs x).
Definition set_type (v : Z) (x : inode) : inode :=
  Inode (i_dev x) (i_inum x) (i_ref x) (i_flags x) v (i_major x) (i_minor x) (i_nlink x) (i_size x) (i_addrs x).
Definition set_size (v : Z) (x : inode) : inode :=
  Inode (i_dev x) (i_inum x) (i_ref x) (i_flags x) (i_type x) (i_major x) (i_minor x) (i_nlink x) v (i_addrs x).
Definition set_addr (k : nat) (v : Z) (x : inode) : inode :=
  Inode (i_dev x) (i_inum x) (i_ref x) (i_flags x) (i_type x) (i_major x) (i_minor x) (i_nlink x) (i_size x)
        (<[k := v]> (i_addrs x)).
Definition addr_of (k : nat) (x : inode) : Z := default 0 (i_addrs x !! k).

(** The disk inode number [inum] in the bytes [d] of its block, and its fields
    copied to the cached inode. *)
Definition dinode_off (inum : Z) : nat := (Z.to_nat (inum mod IPB) * sizeof_dinode)%nat.

Definition din_type (inum : Z) (d : list Z) : Z := s16 (get16 (dinode_off inum) d).

Definition load_dinode (d : list Z) (x : inode) : inode :=
  let o := dinode_off (i_inum x) in
  Inode (i_dev x) (i_inum x) (i_ref x) (i_flags x)
        (s16 (get16 o d)) (s16 (get16 (o + 2) d)) (s16 (get16 (o + 4) d)) (s16 (get16 (o + 6) d))
        (get32 (o + 8) d) ((λ k, get32 (o + 12 + 4 * k) d) <$> seq 0 (S NDIRECT)).

(** ... and back. *)
Definition store_dinode (x : inode) (d : list Z) : list Z :=
  let o := dinode_off (i_inum x) in
  let d := set16 o (i_type x) d in
  let d := set16 (o + 2) (i_major x) d in
  let d := set16 (o + 4) (i_minor x) d in
  let d := set16 (o + 6) (i_nlink x) d in
  let d := set32 (o + 8) (i_size x) d in
  set_bytes (o + 12) (concat (le4 <$> i_addrs x)) d.

(** A freed dinode taken by ialloc(): zeroed, then typed. *)
Definition clear_dinode (inum type : Z) (d : list Z) : list Z :=
  set16 (dinode_off inum) type (set_bytes (dinode_off inum) (replicate sizeof_dinode 0) d).

Section fs.
Context `{IdeDriver}.

(** ** Blocks *)

Definition bzero (dev bno : Z) : K unit :=
  bp ← bread (u32 dev) (u32 bno);
  updbuf bp (set_data (replicate (Z.to_nat BSIZE) 0));;
  log_write bp;;
  brelse bp.

(** The bit of block [bi] in a bitmap block. *)
Definition bit_mask (bi : Z) : Z := Z.shiftl 1 (bi mod 8).
Definition bit_byte (bi : Z) : nat := Z.to_nat (bi / 8).

(** The inner loop of balloc() on the bitmap block in buffer [bp]. *)
Definition balloc_bit (dev : Z) (bp : nat) (b : Z) (bi : Z) : K (option Z) :=
  x ← getbuf bp;
  let v := get8 (bit_byte bi) (b_data x) in
  if Z.land v (bit_mask bi) =? 0 then
    updbuf bp (λ x, set_data (<[bit_byte bi := u8 (Z.lor v (bit_mask bi))]> (b_data x)) x);;
    log_write bp;;
    brelse bp;;
    bzero dev (b + bi);;
    mret (Some (b + bi))
  else mret None.

(** [for(bi = 0; bi < BPB && b + bi < sb.size; bi++)] *)
Definition bits_from (b size : Z) : list Z := Z.of_nat <$> seq 0 (Z.to_nat (Z.min BPB (size - b))).

Definition balloc_block (dev : Z) (sb : superblock) (b : Z) : K (option Z) :=
  bp ← bread dev (BBLOCK b sb);
  r ← scan (bits_from b (sb_size sb)) (balloc_bit dev bp b);
  match r with
  | Some v => mret (Some v)
  | None => brelse bp;; mret None
  end.

(** [for(b = 0; b < sb.size; b += BPB)] *)
Definition bitmap_starts (size : Z) : list Z :=
  (λ k, Z.of_nat k * BPB) <$> seq 0 (Z.to_nat ((size + BPB - 1) / BPB)).

Definition balloc (dev : Z) : K Z :=
  sb ← getsb;
  r ← scan (bitmap_starts (sb_size sb)) (balloc_block dev sb);
  match r with
  | Some b => mret b
  | None => panic "balloc: out of blocks"
  end.

Definition bfree (dev b : Z) : K unit :=
  sb ← readsb dev;
  setsb sb;;
  bp ← bread (u32 dev) (BBLOCK b sb);
  x ← getbuf bp;
  let bi := b mod BPB in
  let v := get8 (bit_byte bi) (b_data x) in
  if Z.land v (bit_mask bi) =? 0 then panic "freeing free block" else
  updbuf bp (λ x, set_data (<[bit_byte bi := u8 (Z.land v (Z.lnot (bit_mask bi)))]> (b_data x)) x);;
  log_write bp;;
  brelse bp.

(** ** Inodes *)

Definition iinit (dev : Z) : K unit :=
  initlock LkIcache;;
  for_each (seq 0 NINODE) (λ i, initsleeplock (SlInode i));;
  sb ← readsb dev;
  setsb sb;;
  cprintf (chars "sb: size %d nblocks %d ninodes %d nlog %d logstart %d inodestart %d bmap start %d" ++ [newline])
    [AInt (sb_size sb); AInt (sb_nblocks sb); AInt (sb_ninodes sb); AInt (sb_nlog sb);
     AInt (sb_logstart sb); AInt (sb_inodestart sb); AInt (sb_bmapstart sb)].

(** The loop of iget(): the entry found, or the first empty slot remembered. *)
Fixpoint iget_scan (dev inum : Z) (l : list inode) (i : nat) (empty : option nat) : nat + option nat :=
  match l with
  | [] => inr empty
  | x :: l' =>
      if (i_ref x >? 0) && (i_dev x =? dev) && (i_inum x =? inum) then inl i else
      iget_scan dev inum l' (S i)
        (match empty with None => if i_ref x =? 0 then Some i else None | Some _ => empty end)
  end.

Definition iget (dev inum : Z) : K nat :=
  acquire LkIcache;;
  l ← gets inodes;
  match iget_scan dev inum l 0 None with
  | inl i =>
      updino i (λ x, set_ref (i_ref x + 1) x);;
      release LkIcache;;
      mret i
  | inr None => panic "iget: no inodes"
  | inr (Some i) =>
      updino i (λ x, Inode dev inum 1 0 (i_type x) (i_major x) (i_minor x) (i_nlink x) (i_size x) (i_addrs x));;
      release LkIcache;;
      mret i
  end.

Definition ialloc_one (dev type : Z) (sb : superblock) (inum : Z) : K (option nat) :=
  bp ← bread dev (IBLOCK inum sb);
  x ← getbuf bp;
  if din_type inum (b_data x) =? 0 then
    updbuf bp (λ x, set_data (clear_dinode inum type (b_data x)) x);;
    log_write bp;;
    brelse bp;;
    ip ← iget dev inum;
    mret (Some ip)
  else brelse bp;; mret None.

Definition ialloc (dev type : Z) : K nat :=
  sb ← getsb;
  r ← scan (Z.of_nat <$> seq 1 (Z.to_nat (sb_ninodes sb) - 1)) (ialloc_one dev type sb);
  match r with
  | Some ip => mret ip
  | None => panic "ialloc: no inodes"
  end.

Definition iupdate (ip : nat) : K unit :=
  x ← getino ip;
  sb ← getsb;
  bp ← bread (i_dev x) (IBLOCK (i_inum x) sb);
  updbuf bp (λ b, set_data (store_dinode x (b_data b)) b);;
  log_write bp;;
  brelse bp.

Definition idup (ip : nat) : K nat :=
  acquire LkIcache;;
  updino ip (λ x, set_ref (i_ref x + 1) x);;
  release LkIcache;;
  mret ip.

Definition ilock (ip : option nat) : K unit :=
  match ip with
  | None => panic "ilock"
  | Some ip =>
      x ← getino ip;
      if i_ref x <? 1 then panic "ilock" else
      acquiresleep (SlInode ip);;
      x ← getino ip;
      when (Z.land (i_flags x) I_VALID =? 0)
        (sb ← getsb;
         bp ← bread (i_dev x) (IBLOCK (i_inum x) sb);
         b ← getbuf bp;
         updino ip (load_dinode (b_data b));;
         brelse bp;;
         updino ip (λ x, set_iflags (Z.lor (i_flags x) I_VALID) x);;
         x ← getino ip;
         if i_type x =? 0 then panic "ilock: no type" else mret tt)
  end.

Definition iunlock (ip : option nat) : K unit :=
  match ip with
  | None => panic "iunlock"
  | Some ip =>
      h ← holdingsleep (SlInode ip);
      x ← getino ip;
      if negb h || (i_ref x <? 1) then panic "iunlock" else
      releasesleep (SlInode ip)
  end.

Definition itrunc_direct (ip i : nat) : K unit :=
  x ← getino ip;
  when (negb (addr_of i x =? 0))
    (bfree (i_dev x) (addr_of i x);;
     updino ip (set_addr i 0)).

Definition itrunc_indirect (dev : Z) (bp j : nat) : K unit :=
  b ← getbuf bp;
  let a := get32 (4 * j) (b_data b) in
  when (negb (a =? 0)) (bfree dev a).

Definition itrunc (ip : nat) : K unit :=
  for_each (seq 0 NDIRECT) (itrunc_direct ip);;
  x ← getino ip;
  when (negb (addr_of NDIRECT x =? 0))
    (bp ← bread (i_dev x) (addr_of NDIRECT x);
     for_each (seq 0 (Z.to_nat NINDIRECT)) (itrunc_indirect (i_dev x) bp);;
     brelse bp;;
     bfree (i_dev x) (addr_of NDIRECT x);;
     updino ip (set_addr NDIRECT 0));;
  updino ip (set_size 0);;
  iupdate ip.

Definition iput (ip : nat) : K unit :=
  acquire LkIcache;;
  x ← getino ip;
  when ((i_ref x =? 1) && negb (Z.land (i_flags x) I_VALID =? 0) && (i_nlink x =? 0))
    (release LkIcache;;
     itrunc ip;;
     updino ip (set_type 0);;
     iupdate ip;;
     acquire LkIcache;;
     updino ip (set_iflags 0));;
  updino ip (λ x, set_ref (i_ref x - 1) x);;
  release LkIcache.

Definition iunlockput (ip : nat) : K unit :=
  iunlock (Some ip);;
  iput ip.

(** ** File contents *)

Definition bmap (ip : nat) (bn : Z) : K Z :=
  x ← getino ip;
  if bn <? Z.of_nat NDIRECT then
    let k := Z.to_nat bn in
    if addr_of k x =? 0 then
      a ← balloc (i_dev x);
      updino ip (set_addr k a);;
      mret a
    else mret (addr_of k x)
  else
  let bn := bn - Z.of_nat NDIRECT in
  if bn <? NINDIRECT then
    addr ←
      (if addr_of NDIRECT x =? 0 then
         a ← balloc (i_dev x);
         updino ip (set_addr NDIRECT a);;
         mret a
       else mret (addr_of NDIRECT x));
    bp ← bread (i_dev x) addr;
    b ← getbuf bp;
    let a := get32 (4 * Z.to_nat bn) (b_data b) in
    r ←
      (if a =? 0 then
         a ← balloc (i_dev x);
         updbuf bp (λ b, set_data (set32 (4 * Z.to_nat bn) a (b_data b)) b);;
         log_write bp;;
         mret a
       else mret a);
    brelse bp;;
    mret r
  else panic "bmap: out of range".

Definition stati (ip : nat) : K stat :=
  x ← getino ip;
  mret (Stat (i_dev x) (i_inum x) (i_type x) (i_nlink x) (i_size x)).

End fs.

(** The device switch: the read and write functions of the devices, by major
    number; [None] is a null pointer. *)
Class Devsw := {
  dev_read : Z → option (∀ X : Type, (X → list Z → K X) → nat → X → Z → K (Z * X));
  dev_write : Z → option ((Z → Z → K (list Z)) → nat → Z → K Z)
}.

Section content.
Context `{IdeDriver, Devsw}.

(** A device number the table has. *)
Definition dev_ok (major : Z) : bool := (0 <=? major) && (major <? NDEV).

(** One iteration of the loop of readi(): [tot], [off] and the destination. *)
Definition readi_step {X} (put : X → list Z → K X) (ip : nat) (n : Z) (v : Z * Z * X) : K (Z * Z * X + X) :=
  let '(tot, off, x) := v in
  if negb (tot <? n) then mret (inr x) else
  p ← getino ip;
  a ← bmap ip (off / BSIZE);
  bp ← bread (i_dev p) a;
  let m := Z.min (n - tot) (BSIZE - off mod BSIZE) in
  b ← getbuf bp;
  x' ← put x (get_bytes (Z.to_nat (off mod BSIZE)) (Z.to_nat m) (b_data b));
  brelse bp;;
  mret (inl (tot + m, off + m, x')).

(** Iterations of the loops of readi() and writei(): one per block touched. *)
Definition io_fuel (n : Z) : nat := S (S (S (Z.to_nat (n / BSIZE)))).

Definition readi {X} (put : X → list Z → K X) (ip : nat) (dst : X) (off n : Z) : K (Z * X) :=
  p ← getino ip;
  if i_type p =? T_DEV then
    match (if dev_ok (i_major p) then dev_read (i_major p) else None) with
    | Some f => f X put ip dst (s32 n)
    | None => mret (-1, dst)
    end
  else if (off >? i_size p) || (u32 (off + n) <? off) then mret (-1, dst) else
  let n := if u32 (off + n) >? i_size p then i_size p - off else n in
  x ← loop (io_fuel n) (readi_step put ip n) (0, off, dst);
  mret (s32 n, x).

(** One iteration of the loop of writei(); [src tot m] is the next piece. *)
Definition writei_step (src : Z → Z → K (list Z)) (ip : nat) (n : Z) (v : Z * Z) : K (Z * Z + Z) :=
  let '(tot, off) := v in
  if negb (tot <? n) then mret (inr off) else
  p ← getino ip;
  a ← bmap ip (off / BSIZE);
  bp ← bread (i_dev p) a;
  let m := Z.min (n - tot) (BSIZE - off mod BSIZE) in
  bs ← src tot m;
  updbuf bp (λ b, set_data (set_bytes (Z.to_nat (off mod BSIZE)) bs (b_data b)) b);;
  log_write bp;;
  brelse bp;;
  mret (inl (tot + m, off + m)).

Definition writei (src : Z → Z → K (list Z)) (ip : nat) (off n : Z) : K Z :=
  p ← getino ip;
  if i_type p =? T_DEV then
    match (if dev_ok (i_major p) then dev_write (i_major p) else None) with
    | Some f => f src ip (s32 n)
    | None => mret (-1)
    end
  else if (off >? i_size p) || (u32 (off + n) <? off) then mret (-1) else
  if u32 (off + n) >? MAXFILE * BSIZE then mret (-1) else
  off' ← loop (io_fuel n) (writei_step src ip n) (0, off);
  p ← getino ip;
  when ((0 <? n) && (off' >? i_size p))
    (updino ip (set_size off');;
     iupdate ip);;
  mret (s32 n).

(** Local variables as destination and source. *)
Definition put_local (acc bs : list Z) : K (list Z) := mret (acc ++ bs).
Definition src_local (l : list Z) (tot m : Z) : K (list Z) := mret (get_bytes (Z.to_nat tot) (Z.to_nat m) l).

(** ** Directories *)

(** strncmp() on names, which end at a NUL or at the end of the array. *)
Fixpoint namecmp_n (n : nat) (s t : list Z) : Z :=
  match n with
  | O => 0
  | S n' =>
      let a := hd 0 s in
      let b := hd 0 t in
      if negb (a =? 0) && (a =? b) then namecmp_n n' (tail s) (tail t) else a - b
  end.

Definition namecmp (s t : list Z) : Z := namecmp_n DIRSIZ s t.

(** strncpy(de.name, name, DIRSIZ) *)
Definition dirname (name : list Z) : list Z :=
  take DIRSIZ (name ++ replicate DIRSIZ 0).

(** The offsets [0, 16, ... < size] of the entries of a directory. *)
Definition dirent_offs (size : Z) : list Z :=
  (λ k, Z.of_nat k * sizeof_dirent) <$> seq 0 (Z.to_nat ((size + sizeof_dirent - 1) / sizeof_dirent)).

Definition read_dirent (dp : nat) (off : Z) : K dirent :=
  '(r, bs) ← readi put_local dp [] off sizeof_dirent;
  if negb (r =? sizeof_dirent) then panic "dirlink read" else
  mret (dirent_of bs).

Definition dirlookup_one (dp : nat) (name : list Z) (off : Z) : K (option (nat * Z)) :=
  de ← read_dirent dp off;
  if de_inum de =? 0 then mret None else
  if namecmp name (de_name de) =? 0 then
    p ← getino dp;
    ip ← iget (i_dev p) (de_inum de);
    mret (Some (ip, off))
  else mret None.

(** dirlookup(dp, name, poff): the inode and the offset stored in [*poff]. *)
Definition dirlookup (dp : nat) (name : list Z) : K (option (nat * Z)) :=
  p ← getino dp;
  if negb (i_type p =? T_DIR) then panic "dirlookup not DIR" else
  scan (dirent_offs (i_size p)) (dirlookup_one dp name).

Definition dirlink (dp : nat) (name : list Z) (inum : Z) : K Z :=
  r ← dirlookup dp name;
  match r with
  | Some (ip, _) => iput ip;; mret (-1)
  | None =>
      p ← getino dp;
      r ← scan (dirent_offs (i_size p)) (λ off,
        de ← read_dirent dp off;
        mret (if de_inum de =? 0 then Some off else None));
      let off := default (Z.of_nat (length (dirent_offs (i_size p))) * sizeof_dirent) r in
      w ← writei (src_local (dirent_bytes (Dirent (u16 inum) (dirname name)))) dp off sizeof_dirent;
      if negb (w =? sizeof_dirent) then panic "dirlink" else
      mret 0
  end.

End content.

(** ** Paths *)

Definition slash : Z := 47.

Fixpoint skip_slashes (path : list Z) : list Z :=
  match path with
  | c :: p => if c =? slash then skip_slashes p else path
  | [] => []
  end.

(** [while( *path is neither a slash nor NUL) path++;]: the element and what follows. *)
Fixpoint take_elem (path : list Z) : list Z * list Z :=
  match path with
  | c :: p => if c =? slash then ([], path) else let '(e, r) := take_elem p in (c :: e, r)
  | [] => ([], [])
  end.

Definition skipelem (path : list Z) : option (list Z * list Z) :=
  match skip_slashes path with
  | [] => None
  | p =>
      let '(e, rest) := take_elem p in
      Some (take DIRSIZ e, skip_slashes rest)
  end.

Section path.
Context `{IdeDriver, Devsw}.

(** One iteration of the loop of namex(), on the current inode and the path. *)
Definition namex_step (parent : bool) (v : nat * list Z) : K (nat * list Z + option (nat * list Z)) :=
  let '(ip, path) := v in
  match skipelem path with
  | None => if parent then iput ip;; mret (inr None) else mret (inr (Some (ip, [])))
  | Some (name, path) =>
      ilock (Some ip);;
      p ← getino ip;
      if negb (i_type p =? T_DIR) then
        iunlockput ip;;
        mret (inr None)
      else if parent && bool_decide (path = []) then
        iunlock (Some ip);;
        mret (inr (Some (ip, name)))
      else
      r ← dirlookup ip name;
      match r with
      | None => iunlockput ip;; mret (inr None)
      | Some (next, _) => iunlockput ip;; mret (inl (next, path))
      end
  end.

(** Every element takes at least one character of the path. *)
Definition namex (path : list Z) (parent : bool) : K (option (nat * list Z)) :=
  ip ←
    (if hd 0 path =? slash then iget ROOTDEV ROOTINO
     else
       i ← cur;
       p ← getproc i;
       match p_cwd p with Some d => idup d | None => fault 0 end);
  loop (S (S (length path))) (namex_step parent) (ip, path).

Definition namei (path : list Z) : K (option nat) :=
  r ← namex path false;
  mret (fst <$> r).

Definition nameiparent (path : list Z) : K (option (nat * list Z)) := namex path true.

End path.
