(* ===== verification/FsSpec.v ===== *)
(** * File contents: readi() and writei()

    A file is a sequence of bytes, found through the direct addresses of its
    inode and its indirect block. readi() returns the bytes of a range, and
    writei() replaces them inside the current transaction. *)

From S2P Require Import Prelude Param Bytes String State Spinlock Sched Sleeplock Bio Memide BioSpec Log LogSpec LogOps Fs.

(** ** Files *)

(** The disk block of block [bn] of a file with inode [x]. *)
Definition file_block (s : kstate) (x : inode) (bn : Z) : Z :=
  if bn <? Z.of_nat NDIRECT then addr_of (Z.to_nat bn) x
  else get32 (4 * Z.to_nat (bn - Z.of_nat NDIRECT)) (blk s (addr_of NDIRECT x)).

(** The byte at offset [o], and [n] bytes from [o] on. *)
Definition fbyte (s : kstate) (x : inode) (o : Z) : Z :=
  get8 (Z.to_nat (o mod BSIZE)) (blk s (file_block s x (o / BSIZE))).
Definition fbytes (s : kstate) (x : inode) (o n : Z) : list Z :=
  (λ k, fbyte s x (o + Z.of_nat k)) <$> seq 0 (Z.to_nat n).

(** A block of the disk that can hold file data. *)
Definition data_block (s : kstate) (b : Z) : Prop := b ≠ 0 ∧ on_disk s b ∧ ¬ in_log (k_log s) b.

(** Inode [ip] of the cache is [x], a file of [i_size x] bytes on blocks of its
    own. *)
Record file_ok (s : kstate) (ip : nat) (x : inode) : Prop := {
  fo_inode : inodes s !! ip = Some x;
  fo_dev : i_dev x = 1;
  fo_type : i_type x ≠ T_DEV;
  fo_size : 0 ≤ i_size x ≤ MAXFILE * BSIZE;
  fo_block bn : 0 ≤ bn → bn * BSIZE < i_size x → data_block s (file_block s x bn);
  fo_inj bn bn' : 0 ≤ bn → bn * BSIZE < i_size x → 0 ≤ bn' → bn' * BSIZE < i_size x →
    file_block s x bn = file_block s x bn' → bn = bn';
  fo_indirect : Z.of_nat NDIRECT * BSIZE < i_size x →
    data_block s (addr_of NDIRECT x) ∧
    ∀ bn, 0 ≤ bn → bn * BSIZE < i_size x → file_block s x bn ≠ addr_of NDIRECT x
}.

(** The file system state seen by one process: the log's invariant with no buffer
    held, and a spare buffer. *)
Record fs_ready (s : kstate) : Prop := {
  fr_log : log_inv ∅ s;
  fr_cap : (lh_len (k_log s) < NBUF)%nat
}.

(** [s'] shows the same disk, log and inodes as [s]. *)
Definition same_fs (s s' : kstate) : Prop := fs_ready s' ∧ bio_same ∅ s s'.

Lemma bio_same_refl s : bio_same ∅ s s.
Proof. split; try done. apply bio_only_refl. Qed.

Lemma bio_same_trans s1 s2 s3 : bio_same ∅ s1 s2 → bio_same ∅ s2 s3 → bio_same ∅ s1 s3.
Proof.
  intros P Q. pose proof (bio_post_trans _ _ _ _ _ _ _ _ _ _ _ _ _ P Q ltac:(done)) as R.
  apply (bio_post_ext _ _ _ _ _ _ _ _ _ _ _ R); try apply P.
Qed.

Lemma same_fs_log s s' : same_fs s s' → k_log s' = k_log s ∧ k_fs s' = k_fs s.
Proof. intros [_ P]. destruct (bio_only_fields _ _ (bp_only _ _ _ _ _ _ _ P)) as (_ & _ & _ & ? & ? & _). done. Qed.

Lemma same_fs_blk s s' b : same_fs s s' → blk s' b = blk s b.
Proof. intros [_ P]. apply P. Qed.

Lemma same_fs_file s s' x bn : same_fs s s' → file_block s' x bn = file_block s x bn.
Proof. intros HS. rewrite /file_block (same_fs_blk s s') //. Qed.

Lemma same_fs_fbyte s s' x o : same_fs s s' → fbyte s' x o = fbyte s x o.
Proof. intros HS. rewrite /fbyte (same_fs_file s s') // (same_fs_blk s s') //. Qed.

Lemma same_fs_fbytes s s' x o n : same_fs s s' → fbytes s' x o n = fbytes s x o n.
Proof. intros HS. apply list_fmap_ext. intros. by apply same_fs_fbyte. Qed.

Lemma same_fs_block s s' b : same_fs s s' → data_block s' b ↔ data_block s b.
Proof.
  intros HS. destruct (same_fs_log _ _ HS) as [El _]. destruct HS as [_ P].
  by rewrite /data_block /on_disk El (bp_size _ _ _ _ _ _ _ P).
Qed.

Lemma same_fs_ok s s' ip x : same_fs s s' → file_ok s ip x → file_ok s' ip x.
Proof.
  intros HS [H1 H2 H3 H4 H5 H6 H7]. destruct (same_fs_log _ _ HS) as [_ Ef].
  split; try done.
  - by rewrite /inodes Ef.
  - intros bn Hb Hb'. rewrite (same_fs_file s s') // (same_fs_block s s' _ HS). by apply H5.
  - intros bn bn'. rewrite !(same_fs_file s s') //. apply H6.
  - intros Hi. destruct (H7 Hi) as [D Hn]. split; [by rewrite (same_fs_block s s' _ HS)|].
    intros bn Hb Hb'. rewrite (same_fs_file s s') //. by apply Hn.
Qed.

Lemma same_fs_refl s : fs_ready s → same_fs s s.
Proof. intros. split; [done|apply bio_same_refl]. Qed.

Lemma same_fs_trans s1 s2 s3 : same_fs s1 s2 → same_fs s2 s3 → same_fs s1 s3.
Proof. intros [_ P] [H Q]. split; [done|]. exact (bio_same_trans _ _ _ P Q). Qed.

(** ** Reading *)

Section read.
Context `{IdeDriver}.

Lemma room_fs s b : fs_ready s → room s b.
Proof.
  intros [HI Hc]. apply (room_count ∅ s (logged (k_log s)) _ (li_bio _ _ HI)).
  - intros c. by rewrite (li_dirty _ _ HI).
  - rewrite size_empty (length_logged s (k_log s)) //. apply HI.
Qed.

(** bread(), a look at the buffer, brelse(). *)
Lemma read_block s b :
  fs_ready s → on_disk s b →
  ∃ i x s1 s2, bread 1 b s = Ok i s1 ∧ getbuf i s1 = Ok x s1 ∧ b_data x = blk s b ∧
    brelse i s1 = Ok tt s2 ∧ same_fs s s2.
Proof.
  intros HF Hb. pose proof (fr_log _ HF) as HI. pose proof (li_bio _ _ HI) as HB.
  destruct (bread_Ok ∅ s b HB Hb (room_fs s b HF) (unheld_empty s b))
    as (i & x & s1 & H1 & Hi & Hx & [Hxd Hxb] & Hdx & Hfx & HB1 & P1).
  destruct (brelse_Ok ({[i]} ∪ ∅) s1 i x HB1) as (s2 & H2 & HB2 & P2); [set_solver|done| |].
  { intros Hfl. rewrite Hdx Hxb /dblock (bp_blocks _ _ _ _ _ _ _ P1). apply (clean_blk ∅ s b HB); [apply unheld_empty|].
    intros Hd. rewrite -Hfx Hfl in Hd. done. }
  replace (({[i]} ∪ ∅) ∖ {[i]} : gset nat) with (∅ : gset nat) in HB2, P2 by set_solver.
  pose proof (bio_same_trans _ _ _ P1 P2) as P.
  exists i, x, s1, s2. split_and!; [done|by rewrite (getbuf_Ok i x)|done|done|]. split; [|done].
  split.
  - apply (log_inv_post ∅ ∅ ∅ s s2 HI HB2). apply (bio_post_ext _ _ _ _ _ _ _ _ _ _ _ P); try done.
    intros c. symmetry. apply P.
  - rewrite (bio_only_log _ _ (bp_only _ _ _ _ _ _ _ P)). exact (fr_cap _ HF).
Qed.

Lemma getino_Ok ip x s : inodes s !! ip = Some x → getino ip s = Ok x s.
Proof. intros E. by rewrite /getino bind_gets E. Qed.

(** bmap() on a block the file has. *)
Lemma bmap_Ok s ip x bn :
  fs_ready s → file_ok s ip x → 0 ≤ bn → bn * BSIZE < i_size x →
  ∃ s', bmap ip bn s = Ok (file_block s x bn) s' ∧ same_fs s s'.
Proof.
  intros HF HO H0 Hbn. destruct (fo_block _ _ _ HO bn H0 Hbn) as [Hnz Hd].
  rewrite /bmap (bind_Ok _ _ _ _ _ (getino_Ok _ _ _ (fo_inode _ _ _ HO))).
  pose proof (fo_size _ _ _ HO) as Hsz. rewrite /file_block in Hnz |- *.
  destruct (Z.ltb_spec bn (Z.of_nat NDIRECT)) as [Hlt|Hge].
  - rewrite (proj2 (Z.eqb_neq _ _) Hnz). exists s. split; [done|]. by apply same_fs_refl.
  - assert (Z.of_nat NDIRECT * BSIZE < i_size x) as Hind.
    { rewrite /NDIRECT /BSIZE in Hge, Hbn |- *. lia. }
    destruct (fo_indirect _ _ _ HO Hind) as [(Hiz & Hid & _) _].
    assert (bn - Z.of_nat NDIRECT <? NINDIRECT = true) as ->.
    { apply Z.ltb_lt. rewrite /MAXFILE /NDIRECT /BSIZE in Hsz, Hbn, Hge |- *. change NINDIRECT with 128 in Hsz |- *. lia. }
    rewrite (proj2 (Z.eqb_neq _ _) Hiz) bind_ret (fo_dev _ _ _ HO).
    destruct (read_block s (addr_of NDIRECT x) HF Hid) as (i & b & s1 & s2 & H1 & H2 & Hb & H3 & HS).
    exists s2. split; [|done].
    rewrite (bind_Ok _ _ _ _ _ H1) (bind_Ok _ _ _ _ _ H2) Hb (proj2 (Z.eqb_neq _ _) Hnz).
    by rewrite bind_ret (bind_Ok _ _ _ _ _ H3).
Qed.

(** The bytes of a piece within one block. *)
Lemma fbytes_piece s x off m :
  bio_inv ∅ s → 0 ≤ off → 0 ≤ m ≤ BSIZE - off mod BSIZE →
  get_bytes (Z.to_nat (off mod BSIZE)) (Z.to_nat m) (blk s (file_block s x (off / BSIZE))) = fbytes s x off m.
Proof.
  intros HB Hoff Hm. pose proof (blk_len ∅ s (file_block s x (off / BSIZE)) HB) as Hlen.
  rewrite /BSIZE in Hm. rewrite /get_bytes /fbytes /BSIZE. apply list_eq. intros k.
  pose proof (Z.mod_pos_bound off 512 ltac:(done)) as Hmod.
  destruct (decide (k < Z.to_nat m)%nat) as [Hk|Hk].
  - rewrite lookup_take_lt // lookup_drop list_lookup_fmap lookup_seq_lt //=. rewrite /fbyte /BSIZE.
    assert ((off + Z.of_nat k) / 512 = off / 512 ∧ (off + Z.of_nat k) mod 512 = off mod 512 + Z.of_nat k) as [-> ->].
    { Z.to_euclidean_division_equations. lia. }
    rewrite Z2Nat.inj_add; [lia..|]. rewrite Nat2Z.id /get8 /BSIZE in Hlen |- *.
    destruct (lookup_lt_is_Some_2 (blk s (file_block s x (off / 512))) (Z.to_nat (off mod 512) + k)) as [c ->]; [lia|done].
  - rewrite lookup_take_ge; [lia|]. rewrite list_lookup_fmap lookup_seq_ge //. lia.
Qed.

Lemma fbytes_app s x off a b :
  0 ≤ a → 0 ≤ b → fbytes s x off a ++ fbytes s x (off + a) b = fbytes s x off (a + b).
Proof.
  intros Ha Hb. rewrite /fbytes Z2Nat.inj_add // seq_app fmap_app. f_equal.
  replace (seq (0 + Z.to_nat a) (Z.to_nat b)) with (Nat.add (Z.to_nat a) <$> seq 0 (Z.to_nat b))
    by (rewrite fmap_add_seq; f_equal; lia).
  rewrite -list_fmap_compose. apply list_fmap_ext. intros _ k _. simpl. f_equal. lia.
Qed.

(** Blocks that [n] bytes from [off] on touch. *)
Definition pieces (off n : Z) : Z := if n <=? 0 then 0 else (off mod BSIZE + n + (BSIZE - 1)) / BSIZE.

Lemma pieces_step off r :
  0 ≤ off → 0 < r →
  let m := Z.min r (BSIZE - off mod BSIZE) in
  0 < m ≤ r ∧ m ≤ BSIZE - off mod BSIZE ∧ pieces (off + m) (r - m) + 1 ≤ pieces off r.
Proof.
  intros Ho Hr m. rewrite /pieces /BSIZE. subst m. rewrite /BSIZE.
  pose proof (Z.mod_pos_bound off 512 ltac:(done)) as Hmod. split_and!; [lia..|].
  rewrite (proj2 (Z.leb_gt r 0)) //. destruct (Z.leb_spec (r - Z.min r (512 - off mod 512)) 0) as [Hle|Hgt].
  - Z.to_euclidean_division_equations. lia.
  - replace (Z.min r (512 - off mod 512)) with (512 - off mod 512) in * by lia.
    assert ((off + (512 - off mod 512)) mod 512 = 0) as ->; Z.to_euclidean_division_equations; lia.
Qed.

Lemma pieces_nonneg off n : 0 ≤ pieces off n.
Proof.
  rewrite /pieces. destruct (Z.leb_spec n 0); [done|]. apply Z.div_pos; [|done].
  pose proof (Z.mod_pos_bound off BSIZE ltac:(done)) as Hmod. rewrite /BSIZE in Hmod |- *. lia.
Qed.

Lemma pieces_fuel off n : 0 ≤ n → pieces off n < Z.of_nat (io_fuel n).
Proof.
  intros Hn. rewrite /pieces /io_fuel /BSIZE. pose proof (Z.mod_pos_bound off 512 ltac:(done)).
  assert (0 ≤ n / 512) by (apply Z.div_pos; lia).
  rewrite !Nat2Z.inj_succ Z2Nat.id //. destruct (n <=? 0); Z.to_euclidean_division_equations; lia.
Qed.

Context `{Devsw}.

Lemma readi_loop ip x n fuel : ∀ tot off acc s,
  fs_ready s → file_ok s ip x → 0 ≤ off → 0 ≤ tot ≤ n → off + (n - tot) ≤ i_size x →
  pieces off (n - tot) < Z.of_nat fuel →
  ∃ s', loop fuel (readi_step put_local ip n) (tot, off, acc) s = Ok (acc ++ fbytes s x off (n - tot)) s' ∧ same_fs s s'.
Proof.
  induction fuel as [|fuel IH]; intros tot off acc s HF HO Hoff Htot Hend Hfuel.
  { rewrite /pieces in Hfuel. destruct (Z.leb_spec (n - tot) 0); [lia|].
    pose proof (Z.mod_pos_bound off BSIZE ltac:(done)). rewrite /BSIZE in Hfuel. Z.to_euclidean_division_equations. lia. }
  destruct (Z.ltb_spec tot n) as [Hlt|Hge].
  2:{ exists s. split; [|by apply same_fs_refl]. replace (n - tot) with 0 by lia. rewrite app_nil_r.
      apply loop_done. rewrite /readi_step. by rewrite (proj2 (Z.ltb_ge _ _)). }
  destruct (pieces_step off (n - tot) Hoff) as (Hm1 & Hm2 & Hp); [lia|].
  set (m := Z.min (n - tot) (BSIZE - off mod BSIZE)) in *.
  assert (off / BSIZE * BSIZE < i_size x) as Hbn. { rewrite /BSIZE. Z.to_euclidean_division_equations. lia. }
  destruct (bmap_Ok s ip x (off / BSIZE) HF HO) as (s1 & H1 & S1); [by apply Z.div_pos|done|].
  pose proof (same_fs_ok _ _ _ _ S1 HO) as HO1. pose proof S1 as [HF1 _].
  destruct (read_block s1 (file_block s x (off / BSIZE)) HF1) as (i & b & s2 & s3 & H2 & H3 & Hb & H4 & S3).
  { rewrite -(same_fs_file s s1 x _ S1). apply (fo_block _ _ _ HO1); [by apply Z.div_pos|done]. }
  pose proof (same_fs_trans _ _ _ S1 S3) as S13. pose proof S13 as [HF3 _].
  destruct (IH (tot + m) (off + m) (acc ++ fbytes s x off m) s3) as (s4 & H5 & S4);
    [done|by apply (same_fs_ok s)|lia|lia|lia|rewrite Z.sub_add_distr; lia|].
  exists s4. split; [|by apply (same_fs_trans _ s3)].
  rewrite (loop_S _ _ _ _ (tot + m, off + m, acc ++ fbytes s x off m) s3).
  - rewrite /readi_step (proj2 (Z.ltb_lt _ _) Hlt) /= (bind_Ok _ _ _ _ _ (getino_Ok _ _ _ (fo_inode _ _ _ HO))).
    rewrite (bind_Ok _ _ _ _ _ H1) (fo_dev _ _ _ HO) (bind_Ok _ _ _ _ _ H2) (bind_Ok _ _ _ _ _ H3). fold m.
    rewrite Hb (same_fs_blk s s1 _ S1) /put_local bind_ret (bind_Ok _ _ _ _ _ H4) fbytes_piece //; [apply HF|lia].
  - rewrite H5 (same_fs_fbytes s s3) // -app_assoc fbytes_app; [lia..|]. do 3 f_equal. lia.
Qed.

End read.

(** ** Writing *)

(** The transaction has room for [k] more blocks. *)
Record log_space (s : kstate) (k : Z) : Prop := {
  sp_log : lh_n (log_lh (k_log s)) + k < LOGSIZE;
  sp_size : lh_n (log_lh (k_log s)) + k < log_size (k_log s);
  sp_op : 1 ≤ log_outstanding (k_log s)
}.

Lemma log_add_space s s' b k :
  log_space s k → k_log s' = log_add b (k_log s) → log_space s' (k - 1).
Proof.
  intros [H1 H2 H3] E. destruct (log_add_fields b (k_log s)) as (_ & E2 & E3 & _).
  split; rewrite E ?E2 ?E3 // /log_add; case_bool_decide; simpl; lia.
Qed.

Section write.
Context `{IdeDriver}.

(** A logged write to a block of a file. *)
Lemma file_write s ip x bn f k :
  fs_ready s → file_ok s ip x → 0 ≤ bn → bn * BSIZE < i_size x → log_space s k → 1 ≤ k →
  length (f (blk s (file_block s x bn))) = 512%nat →
  ∃ s', tx_write (file_block s x bn) f s = Ok tt s' ∧ fs_ready s' ∧ file_ok s' ip x ∧ log_space s' (k - 1) ∧
    (∀ c, blk s' c = if bool_decide (c = file_block s x bn) then f (blk s (file_block s x bn)) else blk s c) ∧
    (∀ bn', 0 ≤ bn' → bn' * BSIZE < i_size x → file_block s' x bn' = file_block s x bn') ∧ k_fs s' = k_fs s.
Proof.
  intros HF HO H0 Hbn HS Hk Hlen. set (b := file_block s x bn) in *.
  destruct (fo_block _ _ _ HO bn H0 Hbn) as (Hnz & Hd & Hl). fold b in Hnz, Hd, Hl.
  pose proof HS as [HS1 HS2 HS3].
  destruct (tx_write_Ok ∅ s b f (fr_log _ HF)) as (s' & Hrun & HI' & El & P); try done; try lia.
  { by apply room_fs. }
  assert (∀ c, blk s' c = if bool_decide (c = b) then f (blk s b) else blk s c) as Hv.
  { intros c. rewrite (bp_blk _ _ _ _ _ _ _ P). case_bool_decide as E; [subst c; by rewrite fn_lookup_insert|].
    by rewrite fn_lookup_insert_ne; [congruence|]. }
  assert (k_fs s' = k_fs s) as Ef.
  { by destruct (bio_only_fields _ _ (bp_only _ _ _ _ _ _ _ P)) as (_ & _ & _ & _ & ? & _). }
  assert (∀ c, data_block s' c ↔ data_block s c) as Hdb.
  { intros c. rewrite /data_block /on_disk /in_log El (bp_size _ _ _ _ _ _ _ P).
    by destruct (log_add_fields b (k_log s)) as (-> & -> & _). }
  assert (∀ bn', 0 ≤ bn' → bn' * BSIZE < i_size x → file_block s' x bn' = file_block s x bn') as Hfb.
  { intros bn' Hb0 Hb'. rewrite /file_block. destruct (Z.ltb_spec bn' (Z.of_nat NDIRECT)) as [|Hge]; [done|]. rewrite Hv.
    rewrite bool_decide_eq_false_2 //. intros E. apply (proj2 (fo_indirect _ _ _ HO ltac:(rewrite /BSIZE in Hb' |- *; lia)) bn); done. }
  exists s'. split_and!; try done.
  - split; [done|]. pose proof (log_add_space _ _ _ _ HS El) as [L1 _ _]. rewrite /lh_len. change LOGSIZE with 30 in L1.
    change NBUF with 30%nat. lia.
  - destruct HO as [O1 O2 O3 O4 O5 O6 O7]. split; try done.
    + by rewrite /inodes Ef.
    + intros bn' ? ?. rewrite Hfb // Hdb. by apply O5.
    + intros bn1 bn2 ? ? ? ?. rewrite !Hfb //. by apply O6.
    + intros Hi. destruct (O7 Hi) as [D Hn]. split; [by rewrite Hdb|]. intros bn' ? ?. rewrite Hfb //. by apply Hn.
  - exact (log_add_space _ _ _ _ HS El).
Qed.

(** [s'] has [data] in the file at [off] where [s] has other bytes. *)
Definition written (s s' : kstate) (x : inode) (data : list Z) (off n : Z) : Prop :=
  ∀ o, 0 ≤ o < i_size x →
  fbyte s' x o = if bool_decide (off ≤ o < off + n) then get8 (Z.to_nat (o - off)) data else fbyte s x o.

Lemma get8_get_bytes a k j l :
  (j < k)%nat → (a + k ≤ length l)%nat → get8 j (get_bytes a k l) = get8 (a + j) l.
Proof. intros Hj Hl. by rewrite /get8 /get_bytes lookup_take_lt // lookup_drop. Qed.

Lemma length_get_bytes a k l : (a + k ≤ length l)%nat → length (get_bytes a k l) = k.
Proof. intros Hl. rewrite /get_bytes length_take length_drop. lia. Qed.

(** Writing one piece. *)
Lemma written_piece s s1 s2 x data off tot m :
  let bn := (off + tot) / BSIZE in
  let b := file_block s1 x bn in
  written s s1 x data off tot → bio_inv ∅ s1 → 0 ≤ off → 0 ≤ tot → 0 < m ≤ BSIZE - (off + tot) mod BSIZE →
  tot + m ≤ Z.of_nat (length data) → off + tot + m ≤ i_size x →
  (∀ c, blk s2 c = if bool_decide (c = b)
     then set_bytes (Z.to_nat ((off + tot) mod BSIZE)) (get_bytes (Z.to_nat tot) (Z.to_nat m) data) (blk s1 b) else blk s1 c) →
  (∀ bn', 0 ≤ bn' → bn' * BSIZE < i_size x → file_block s2 x bn' = file_block s1 x bn') →
  (∀ bn', 0 ≤ bn' → bn' * BSIZE < i_size x → file_block s1 x bn' = b → bn' = bn) →
  written s s2 x data off (tot + m).
Proof.
  intros bn b Hw HB Hoff Htot Hm Hlen Hsz Hv Hfb Hinj o Ho. set (e := off + tot) in *.
  pose proof (blk_len ∅ s1 b HB) as Hbl. pose proof (Z.mod_pos_bound e BSIZE ltac:(done)) as Hmod.
  assert (0 ≤ o / BSIZE ∧ o / BSIZE * BSIZE < i_size x) as [Hq0 Hq].
  { rewrite /BSIZE. Z.to_euclidean_division_equations. lia. }
  pose proof (Z.div_mod e BSIZE ltac:(done)) as Ee. pose proof (Z.div_mod o BSIZE ltac:(done)) as Eo.
  pose proof (Z.mod_pos_bound o BSIZE ltac:(done)) as Hmo. change BSIZE with 512 in *.
  assert (0 ≤ e) as He by (rewrite /e; lia). pose proof (Z.div_pos e 512 He ltac:(done)) as Hqe.
  assert (¬ e ≤ o < e + m → bool_decide (off ≤ o < off + (tot + m)) = bool_decide (off ≤ o < off + tot)) as Hbd.
  { intros Hk. apply bool_decide_ext. rewrite /e in Hk. lia. }
  rewrite {1}/fbyte Hfb // Hv. destruct (decide (file_block s1 x (o / 512) = b)) as [Hb|Hb].
  - rewrite (bool_decide_eq_true_2 _ Hb). apply Hinj in Hb; [|done..]. rewrite /bn in Hb. change BSIZE with 512.
    destruct (decide (e ≤ o < e + m)) as [Hin|Hout].
    + rewrite bool_decide_eq_true_2; [rewrite /e in Hin; lia|].
      rewrite get8_set_in; rewrite ?length_get_bytes; [lia..|].
      rewrite get8_get_bytes; [lia..|]. f_equal. assert (e = off + tot) as E by done. lia.
    + rewrite (Hbd Hout) -Hw // get8_set_out; [rewrite length_get_bytes; lia|].
      rewrite /fbyte. change BSIZE with 512. rewrite Hb //.
  - rewrite (bool_decide_eq_false_2 _ Hb) Hbd; [|rewrite -Hw //]. intros Hin. apply Hb. rewrite /b /bn. f_equal.
    apply Z.le_antisymm; apply Z.lt_succ_r; lia.
Qed.

Context `{Devsw}.

(** One turn of writei()'s loop. *)
Lemma writei_step_Ok s ip x data n tot off k :
  fs_ready s → file_ok s ip x → 0 ≤ off → 0 ≤ tot < n → n = Z.of_nat (length data) → off + (n - tot) ≤ i_size x →
  log_space s k → 1 ≤ k →
  let m := Z.min (n - tot) (BSIZE - off mod BSIZE) in
  let b := file_block s x (off / BSIZE) in
  let d := set_bytes (Z.to_nat (off mod BSIZE)) (get_bytes (Z.to_nat tot) (Z.to_nat m) data) (blk s b) in
  ∃ s', writei_step (src_local data) ip n (tot, off) s = Ok (inl (tot + m, off + m)) s' ∧
    fs_ready s' ∧ file_ok s' ip x ∧ log_space s' (k - 1) ∧ k_fs s' = k_fs s ∧
    (∀ c, blk s' c = if bool_decide (c = b) then d else blk s c) ∧
    (∀ bn', 0 ≤ bn' → bn' * BSIZE < i_size x → file_block s' x bn' = file_block s x bn').
Proof.
  intros HF HO Hoff Htot Hn Hend HS Hk m b d.
  assert (0 ≤ off / BSIZE) as Hb0 by by apply Z.div_pos.
  assert (off / BSIZE * BSIZE < i_size x) as Hbn. { rewrite /BSIZE. Z.to_euclidean_division_equations. lia. }
  destruct (bmap_Ok s ip x (off / BSIZE) HF HO Hb0 Hbn) as (s1 & H1 & S1).
  pose proof (same_fs_ok _ _ _ _ S1 HO) as HO1. pose proof S1 as [HF1 _]. destruct (same_fs_log _ _ S1) as [El Ef].
  assert (log_space s1 k) as HS1 by (destruct HS; split; by rewrite El).
  set (f := set_bytes (Z.to_nat (off mod BSIZE)) (get_bytes (Z.to_nat tot) (Z.to_nat m) data)).
  destruct (file_write s1 ip x (off / BSIZE) f k HF1 HO1 Hb0 Hbn HS1 Hk) as (s2 & H2 & HF2 & HO2 & HS2 & Hv & Hfb & Ef2).
  { rewrite /f length_set_bytes. apply (blk_len ∅). apply HF1. }
  rewrite (same_fs_file s s1) // in H2 Hv. fold b in H2, Hv.
  exists s2. split_and!; try done.
  - rewrite /writei_step (proj2 (Z.ltb_lt _ _)); [lia|]. cbn [negb].
    rewrite (bind_Ok _ _ _ _ _ (getino_Ok _ _ _ (fo_inode _ _ _ HO))) (bind_Ok _ _ _ _ _ H1) (fo_dev _ _ _ HO).
    rewrite /tx_write in H2. fold b m. apply bind_Ok_inv in H2 as (i & s3 & Hr & H2). rewrite (bind_Ok _ _ _ _ _ Hr).
    rewrite /src_local bind_ret. apply bind_Ok_inv in H2 as (u & s4 & Hu & H2). rewrite (bind_Ok _ _ _ _ _ Hu).
    apply bind_Ok_inv in H2 as ([] & s5 & Hl & H2). by rewrite (bind_Ok _ _ _ _ _ Hl) (bind_Ok _ _ _ _ _ H2).
  - by rewrite Ef2.
  - intros c. rewrite Hv !(same_fs_blk s s1) //.
  - intros bn' ? ?. rewrite Hfb // (same_fs_file s s1) //.
Qed.

Lemma writei_loop s ip x data n off fuel : ∀ tot s1,
  fs_ready s1 → file_ok s1 ip x → 0 ≤ off → 0 ≤ tot ≤ n → n = Z.of_nat (length data) → off + n ≤ i_size x →
  log_space s1 (pieces (off + tot) (n - tot)) → written s s1 x data off tot → k_fs s1 = k_fs s →
  pieces (off + tot) (n - tot) < Z.of_nat fuel →
  ∃ s', loop fuel (writei_step (src_local data) ip n) (tot, off + tot) s1 = Ok (off + n) s' ∧
    fs_ready s' ∧ file_ok s' ip x ∧ written s s' x data off n ∧ k_fs s' = k_fs s.
Proof.
  induction fuel as [|fuel IH]; intros tot s1 HF HO Hoff Htot Hn Hend HS Hw Ef Hfuel.
  { rewrite /pieces in Hfuel. destruct (Z.leb_spec (n - tot) 0); [lia|].
    pose proof (Z.mod_pos_bound (off + tot) BSIZE ltac:(done)). rewrite /BSIZE in Hfuel. Z.to_euclidean_division_equations. lia. }
  destruct (Z.ltb_spec tot n) as [Hlt|Hge].
  2:{ assert (tot = n) as -> by lia. exists s1. split_and!; try done. apply loop_done. rewrite /writei_step.
      by rewrite (proj2 (Z.ltb_ge n n)). }
  destruct (pieces_step (off + tot) (n - tot)) as (Hm1 & Hm2 & Hp); [lia..|].
  set (m := Z.min (n - tot) (BSIZE - (off + tot) mod BSIZE)) in *.
  assert (0 ≤ pieces (off + tot + m) (n - tot - m)) as Hp0.
  { rewrite /pieces. destruct (Z.leb_spec (n - tot - m) 0); [done|]. apply Z.div_pos; [|done].
    pose proof (Z.mod_pos_bound (off + tot + m) BSIZE ltac:(done)) as Hmod. rewrite /BSIZE in Hmod |- *. lia. }
  destruct (writei_step_Ok s1 ip x data n tot (off + tot) (pieces (off + tot) (n - tot)) HF HO) as (s2 & H2 & HF2 & HO2 & HS2 & Ef2 & Hv & Hfb); try done; try lia.
  fold m in H2, Hv. destruct (IH (tot + m) s2) as (s3 & H3 & HF3 & HO3 & Hw3 & Ef3); try done; try lia.
  - replace (n - (tot + m)) with (n - tot - m) by lia. rewrite Z.add_assoc. destruct HS2. split; lia.
  - apply (written_piece s s1 s2); try done; try lia. { apply (fr_log _ HF). }
    intros bn' Hb0 Hb' E. apply (fo_inj _ _ _ HO) in E; try done; [apply Z.div_pos; [lia|done]|].
    rewrite /BSIZE. Z.to_euclidean_division_equations. lia.
  - by rewrite Ef2.
  - rewrite Z.add_assoc. replace (n - (tot + m)) with (n - tot - m) by lia. lia.
  - exists s3. split_and!; try done. rewrite Z.add_assoc in H3. by rewrite (loop_S _ _ _ _ _ _ H2).
Qed.

End write.

(** ** Main properties *)

Section properties.
Context `{IdeDriver, Devsw}.

Lemma readi_Ok s ip x off n :
  fs_ready s → file_ok s ip x → 0 ≤ off ≤ i_size x → 0 ≤ n < 2 ^ 31 →
  ∃ s', readi put_local ip [] off n s = Ok (Z.min n (i_size x - off), fbytes s x off (Z.min n (i_size x - off))) s' ∧
    same_fs s s'.
Proof.
  intros HF HO Hoff Hn. pose proof (fo_size _ _ _ HO) as Hsz. change (MAXFILE * BSIZE) with 71680 in Hsz.
  rewrite /readi (bind_Ok _ _ _ _ _ (getino_Ok _ _ _ (fo_inode _ _ _ HO))) (proj2 (Z.eqb_neq _ _) (fo_type _ _ _ HO)).
  rewrite !Z.gtb_ltb (proj2 (Z.ltb_ge (i_size x) off)); [lia|]. rewrite orb_false_l.
  rewrite u32_id; [lia|]. rewrite (proj2 (Z.ltb_ge (off + n) off)); [lia|].
  set (len := Z.min n (i_size x - off)).
  assert ((if i_size x <? off + n then i_size x - off else n) = len) as ->.
  { rewrite /len. destruct (Z.ltb_spec (i_size x) (off + n)); lia. }
  assert (0 ≤ len ∧ off + len ≤ i_size x) as [Hl0 Hl1] by (rewrite /len; lia).
  destruct (readi_loop ip x len (io_fuel len) 0 off [] s HF HO) as (s' & Hrun & HS); [lia|lia|lia| |].
  { rewrite Z.sub_0_r. by apply pieces_fuel. }
  rewrite Z.sub_0_r app_nil_l in Hrun. exists s'. rewrite (bind_Ok _ _ _ _ _ Hrun). split; [|done].
  rewrite /= s32_id //. rewrite /len. lia.
Qed.

(** C21: readi() returns the contents of the file. A read that starts past the end
    fails; any other returns the bytes of the file from [off] on, [n] of them or
    as many as there are, collected from the direct blocks and through the
    indirect block, and leaves disk, log and inodes as they were. *)
Theorem readi_correct s ip x off n :
  fs_ready s → file_ok s ip x → 0 ≤ off < 2 ^ 32 → 0 ≤ n < 2 ^ 31 →
  if off >? i_size x then readi put_local ip [] off n s = Ok (-1, []) s
  else let len := Z.min n (i_size x - off) in
       ∃ s', readi put_local ip [] off n s = Ok (len, fbytes s x off len) s' ∧ same_fs s s'.
Proof.
  intros HF HO Hoff Hn. rewrite Z.gtb_ltb. destruct (Z.ltb_spec (i_size x) off) as [Hlt|Hle].
  - rewrite /readi (bind_Ok _ _ _ _ _ (getino_Ok _ _ _ (fo_inode _ _ _ HO))) (proj2 (Z.eqb_neq _ _) (fo_type _ _ _ HO)).
    by rewrite Z.gtb_ltb (proj2 (Z.ltb_lt _ _) Hlt).
  - apply readi_Ok; [done..|lia|done].
Qed.

(** What was written is what the file holds. *)
Lemma written_fbytes s s' x data off :
  written s s' x data off (Z.of_nat (length data)) → 0 ≤ off → off + Z.of_nat (length data) ≤ i_size x →
  fbytes s' x off (Z.of_nat (length data)) = data.
Proof.
  intros Hw Hoff Hend. rewrite /fbytes Nat2Z.id. apply list_eq. intros k.
  destruct (decide (k < length data)%nat) as [Hk|Hk].
  - rewrite list_lookup_fmap lookup_seq_lt //= Hw; [lia|]. rewrite bool_decide_eq_true_2; [lia|].
    replace (Z.to_nat (off + Z.of_nat k - off)) with k by lia. rewrite /get8.
    by destruct (lookup_lt_is_Some_2 data k Hk) as [c ->].
  - rewrite list_lookup_fmap lookup_seq_ge; [lia|]. rewrite lookup_ge_None_2 //. lia.
Qed.

(** C10: what writei() writes, readi() reads back. A write over a part of the file
    replaces exactly these bytes, block by block, inside the transaction: a read of
    the same range returns the data written, every other byte of the file is what
    it was, and the inode is unchanged. *)
Theorem writei_readi s ip x data off :
  let n := Z.of_nat (length data) in
  fs_ready s → file_ok s ip x → 0 ≤ off → off + n ≤ i_size x → log_space s (pieces off n) →
  ∃ s1 s2, writei (src_local data) ip off n s = Ok n s1 ∧ readi put_local ip [] off n s1 = Ok (n, data) s2 ∧
    same_fs s1 s2 ∧ file_ok s1 ip x ∧ k_fs s1 = k_fs s ∧
    ∀ o, 0 ≤ o < i_size x → ¬ off ≤ o < off + n → fbyte s1 x o = fbyte s x o.
Proof.
  intros n HF HO Hoff Hend HS. pose proof (fo_size _ _ _ HO) as Hsz. change (MAXFILE * BSIZE) with 71680 in Hsz.
  destruct (writei_loop s ip x data n off (io_fuel n) 0 s HF HO) as (s1 & Hrun & HF1 & HO1 & Hw & Ef); try done; try lia.
  { by rewrite Z.add_0_r Z.sub_0_r. }
  { intros o Ho. rewrite bool_decide_eq_false_2 //. lia. }
  { rewrite Z.add_0_r Z.sub_0_r. apply pieces_fuel. lia. }
  rewrite Z.add_0_r in Hrun.
  assert (0 ≤ n) as Hn0 by lia.
  destruct (readi_Ok s1 ip x off n HF1 HO1) as (s2 & H2 & S2); [lia..|]. replace (Z.min n (i_size x - off)) with n in H2 by lia.
  rewrite /n (written_fbytes s s1) // in H2. exists s1, s2. split_and!; try done.
  - rewrite /writei (bind_Ok _ _ _ _ _ (getino_Ok _ _ _ (fo_inode _ _ _ HO))) (proj2 (Z.eqb_neq _ _) (fo_type _ _ _ HO)).
    rewrite !Z.gtb_ltb (proj2 (Z.ltb_ge _ _)) //=; [lia|].
    rewrite u32_id; [lia|]. rewrite (proj2 (Z.ltb_ge (off + n) off)); [lia|].
    rewrite (proj2 (Z.ltb_ge (MAXFILE * BSIZE) (off + n))); [change (MAXFILE * BSIZE) with 71680; lia|].
    rewrite (bind_Ok _ _ _ _ _ Hrun) (bind_Ok _ _ _ _ _ (getino_Ok _ _ _ (fo_inode _ _ _ HO1))).
    rewrite !Z.gtb_ltb (proj2 (Z.ltb_ge (i_size x) (off + n))) // andb_false_r /= s32_id //. lia.
  - intros o Ho Hout. rewrite Hw // bool_decide_eq_false_2 //.
Qed.

End properties.

(** ** A running example

    A file of 1000 bytes on blocks 60 and 61, all zeros. *)

Lemma log_inv_set_fs v s : log_inv ∅ s → log_inv ∅ (set_fs v s).
Proof.
  intros [[[? ? ?] ? HB ? ? ?] [? ? ? ? ? ? ? ?] ? ? ?]. split; try done. split; try done.
  intros i x Hi Hx. by destruct (HB i x Hi Hx).
Qed.

Definition demo_inode : inode := Inode 1 5 1 I_VALID T_FILE 0 0 1 1000 (60 :: 61 :: replicate 11 0).

Definition demo_fs (s : kstate) : kstate :=
  set_fs (Fs (Superblock 1000 941 200 30 2 32 58) [demo_inode])
    (set_log (Log 2 30 1 false 1 (Logheader 0 (replicate 30 0))) s).

Lemma demo_fs_ready s : fresh_cache s → fs_ready (demo_fs s).
Proof.
  intros Hf. split; [|by vm_compute; lia]. apply log_inv_set_fs. by apply fresh_log.
Qed.

Lemma demo_file s : fresh_cache s → file_ok (demo_fs s) 0 demo_inode.
Proof.
  intros Hf. assert (∀ bn, 0 ≤ bn → bn * BSIZE < 1000 → file_block (demo_fs s) demo_inode bn = 60 + bn) as Hfb.
  { intros bn H0 H1. rewrite /BSIZE in H1. assert (bn = 0 ∨ bn = 1) as [-> | ->] by lia; done. }
  assert (∀ b, b = 60 ∨ b = 61 → data_block (demo_fs s) b) as Hd.
  { intros b Hb. split_and!; [lia| |].
    - rewrite /on_disk /= (fr_size _ Hf) /FSSIZE. lia.
    - rewrite /in_log /=. lia. }
  split; try done.
  - intros bn H0 H1. rewrite Hfb //. apply Hd. simpl in H1. rewrite /BSIZE in H1. lia.
  - intros bn bn' H0 H1 H0' H1'. rewrite !Hfb //. lia.
Qed.

#[local] Existing Instance Memide.memide.
#[local] Instance no_devices : Devsw := {| dev_read _ := None; dev_write _ := None |}.

Lemma readi_correct_witness :
  ∃ s d s', readi put_local 0 [] 990 100 s = Ok (10, d) s' ∧ length d = 10%nat.
Proof.
  pose proof (readi_correct (demo_fs booted) 0 demo_inode 990 100
    (demo_fs_ready _ booted_fresh) (demo_file _ booted_fresh) ltac:(lia) ltac:(lia)) as (s' & H & _).
  exists (demo_fs booted), (fbytes (demo_fs booted) demo_inode 990 10), s'. split; [exact H|done].
Defined.

Lemma writei_readi_witness :
  ∃ s s1 s2, writei (src_local (replicate 600 120)) 0 300 600 s = Ok 600 s1 ∧
    readi put_local 0 [] 300 600 s1 = Ok (600, replicate 600 120) s2.
Proof.
  destruct (writei_readi (demo_fs booted) 0 demo_inode (replicate 600 120) 300
    (demo_fs_ready _ booted_fresh) (demo_file _ booted_fresh)) as (s1 & s2 & H1 & H2 & _).
  - lia.
  - by vm_compute.
  - split; by vm_compute.
  - exists (demo_fs booted), s1, s2. split; [exact H1|exact H2].
Defined.
