(* ===== verification/Mkfs.v ===== *)
(** * The file system image builder: mkfs.c

    The host program that makes the image the kernel boots from. [img] is the image
    file by sectors: every lseek() of the program goes to a multiple of BSIZE and
    every read() and write() on the image is of one sector. The host's write()
    and lseek() succeed; a read() of a sector the file does not have comes short,
    and the program ends. The files named on the command line are given by [host],
    their contents by name; read() on them returns BSIZE bytes as long as there are
    as many. exit(1) and a failed assert() are panics. Words are stored in the byte
    order of the x86, whatever the host's is. *)

From S2P Require Import Prelude Param Bytes String State Spinlock Console Sched Sleeplock Bio Log Fs.

Module Mkfs.

Definition NINODES : Z := 200.

(** struct dinode (fs.h). *)
Record dinode := Dinode {
  dn_type : Z; dn_major : Z; dn_minor : Z; dn_nlink : Z; dn_size : Z;
  dn_addrs : list Z
}.

(** The global variables of mkfs.c, and what it printed. *)
Record mkst := Mkst {
  img : gmap Z (list Z);
  freeinode : Z;
  freeblock : Z;
  mk_out : list (string * list Z)
}.

Abbreviation HK := (M Empty_set mkst).

Definition set_img (v : gmap Z (list Z)) (s : mkst) : mkst := Mkst v (freeinode s) (freeblock s) (mk_out s).
Definition set_freeinode (v : Z) (s : mkst) : mkst := Mkst (img s) v (freeblock s) (mk_out s).
Definition set_freeblock (v : Z) (s : mkst) : mkst := Mkst (img s) (freeinode s) v (mk_out s).
Definition mk_printf (fmt : string) (args : list Z) : HK unit :=
  modify (λ s, Mkst (img s) (freeinode s) (freeblock s) (mk_out s ++ [(fmt, args)])).

Definition assert_ (b : bool) : HK unit := if b then mret tt else panic "assert".

Definition nbitmap : Z := FSSIZE / (BSIZE * 8) + 1.
Definition ninodeblocks : Z := NINODES / IPB + 1.
Definition nlog : Z := LOGSIZE.
Definition nmeta : Z := 2 + nlog + ninodeblocks + nbitmap.
Definition nblocks : Z := FSSIZE - nmeta.

(** The bytes of a word in the order of the x86, read back as the host's word. *)
Definition xshort (x : Z) : Z := get16 0 (le2 x).
Definition xint (x : Z) : Z := get32 0 (le4 x).

(** The superblock main() fills in. *)
Definition mksb : superblock :=
  Superblock (xint FSSIZE) (xint nblocks) (xint NINODES) (xint nlog) (xint 2) (xint (2 + nlog))
             (xint (2 + nlog + ninodeblocks)).

Definition sb_bytes (sb : superblock) : list Z :=
  le4 (sb_size sb) ++ le4 (sb_nblocks sb) ++ le4 (sb_ninodes sb) ++ le4 (sb_nlog sb) ++
  le4 (sb_logstart sb) ++ le4 (sb_inodestart sb) ++ le4 (sb_bmapstart sb).

Definition zeroes : list Z := replicate 512 0.

(** ** Sectors and inodes *)

Definition wsect (sec : Z) (buf : list Z) : HK unit := modify (λ s, set_img (<[sec := buf]> (img s)) s).

Definition rsect (sec : Z) : HK (list Z) :=
  m ← gets img;
  match m !! sec with Some d => mret d | None => panic "read" end.

(** A dinode in memory, and at an offset of a sector. *)
Definition dinode_bytes (d : dinode) : list Z :=
  le2 (dn_type d) ++ le2 (dn_major d) ++ le2 (dn_minor d) ++ le2 (dn_nlink d) ++
  le4 (dn_size d) ++ concat (le4 <$> dn_addrs d).

Definition dinode_at (o : nat) (l : list Z) : dinode :=
  Dinode (get16 o l) (get16 (o + 2) l) (get16 (o + 4) l) (get16 (o + 6) l) (get32 (o + 8) l)
    ((λ k, get32 (o + 12 + 4 * k) l) <$> seq 0 (S NDIRECT)).

Definition winode (inum : Z) (ip : dinode) : HK unit :=
  let bn := IBLOCK inum mksb in
  buf ← rsect bn;
  wsect bn (set_bytes (dinode_off inum) (dinode_bytes ip) buf).

Definition rinode (inum : Z) : HK dinode :=
  let bn := IBLOCK inum mksb in
  buf ← rsect bn;
  mret (dinode_at (dinode_off inum) buf).

Definition ialloc (type : Z) : HK Z :=
  inum ← gets freeinode;
  modify (set_freeinode (u32 (inum + 1)));;
  winode inum (Dinode (xshort type) 0 0 (xshort 1) (xint 0) (replicate (S NDIRECT) 0));;
  mret inum.

(** [buf[i/8] = buf[i/8] | (0x1 << (i%8))] for the blocks below [used]. *)
Definition mark (buf : list Z) (i : nat) : list Z :=
  <[(i / 8)%nat := Z.lor (get8 (i / 8) buf) (Z.shiftl 1 (Z.of_nat (i mod 8)))]> buf.

Definition balloc (used : Z) : HK unit :=
  mk_printf "balloc: first %d blocks have been allocated" [used];;
  assert_ (used <? BSIZE * 8);;
  mk_printf "balloc: write bitmap block at sector %d" [sb_bmapstart mksb];;
  wsect (sb_bmapstart mksb) (foldl mark zeroes (seq 0 (Z.to_nat used))).

(** ** Appending to a file *)

(** [freeblock++] *)
Definition newblock : HK Z :=
  b ← gets freeblock;
  modify (set_freeblock (u32 (b + 1)));;
  mret b.

Definition set_dn_addr (k : nat) (v : Z) (d : dinode) : dinode :=
  Dinode (dn_type d) (dn_major d) (dn_minor d) (dn_nlink d) (dn_size d) (<[k := v]> (dn_addrs d)).
Definition set_dn_size (v : Z) (d : dinode) : dinode :=
  Dinode (dn_type d) (dn_major d) (dn_minor d) (dn_nlink d) v (dn_addrs d).
Definition dn_addr (k : nat) (d : dinode) : Z := default 0 (dn_addrs d !! k).

(** [if(xint(din.addrs[k]) == 0) din.addrs[k] = xint(freeblock++);] *)
Definition iappend_addr (k : nat) (d : dinode) : HK dinode :=
  if xint (dn_addr k d) =? 0 then b ← newblock; mret (set_dn_addr k (xint b) d) else mret d.

(** The block [x] of the file's block number [fbn], allocated if it has none. *)
Definition iappend_block (fbn : Z) (d : dinode) : HK (dinode * Z) :=
  if fbn <? Z.of_nat NDIRECT then
    d ← iappend_addr (Z.to_nat fbn) d;
    mret (d, xint (dn_addr (Z.to_nat fbn) d))
  else
    d ← iappend_addr NDIRECT d;
    let k := Z.to_nat (fbn - Z.of_nat NDIRECT) in
    indirect ← rsect (xint (dn_addr NDIRECT d));
    if get32 (4 * k) indirect =? 0 then
      b ← newblock;
      let indirect := set32 (4 * k) (xint b) indirect in
      wsect (xint (dn_addr NDIRECT d)) indirect;;
      mret (d, xint (get32 (4 * k) indirect))
    else mret (d, xint (get32 (4 * k) indirect)).

(** One turn of the loop: the inode, the offset and the bytes left. *)
Definition iappend_step (v : dinode * Z * list Z) : HK (dinode * Z * list Z + dinode * Z) :=
  let '(d, off, p) := v in
  if negb (0 <? Z.of_nat (length p)) then mret (inr (d, off)) else
  let fbn := off / BSIZE in
  assert_ (fbn <? MAXFILE);;
  '(d, x) ← iappend_block fbn d;
  let n1 := Z.min (Z.of_nat (length p)) ((fbn + 1) * BSIZE - off) in
  buf ← rsect x;
  wsect x (set_bytes (Z.to_nat (off - fbn * BSIZE)) (take (Z.to_nat n1) p) buf);;
  mret (inl (d, u32 (off + n1), drop (Z.to_nat n1) p)).

Definition iappend (inum : Z) (p : list Z) : HK unit :=
  d ← rinode inum;
  '(d, off) ← loop (S (length p)) iappend_step (d, xint (dn_size d), p);
  winode inum (set_dn_size (xint off) d).

(** ** main *)

Definition dirent_for (inum : Z) (name : list Z) : list Z :=
  dirent_bytes (Dirent (xshort inum) (dirname name)).

(** The successive results of [read(fd, buf, sizeof(buf))]. *)
Fixpoint reads (fuel : nat) (l : list Z) : list (list Z) :=
  match fuel, l with
  | O, _ | _, [] => []
  | S fuel', _ => take 512 l :: reads fuel' (drop 512 l)
  end.

(** [if(argv[i][0] == '_') ++argv[i];] *)
Definition strip (name : list Z) : list Z :=
  match name with c :: rest => if c =? 95 then rest else name | [] => [] end.

Section main.
Context (host : list Z → option (list Z)).

Definition add_file (rootino : Z) (arg : list Z) : HK unit :=
  assert_ (negb (bool_decide (slash ∈ arg)));;
  match host arg with
  | None => panic "perror"
  | Some content =>
      inum ← ialloc T_FILE;
      iappend rootino (dirent_for inum (strip arg));;
      for_each (reads (S (length content)) content) (iappend inum)
  end.

(** Rounding the size of the root directory up to whole blocks. *)
Definition fix_root (rootino : Z) : HK unit :=
  d ← rinode rootino;
  let off := xint (dn_size d) in
  let off := u32 ((off / BSIZE + 1) * BSIZE) in
  winode rootino (set_dn_size (xint off) d).

(** main() with the arguments after the name of the image, which open() has made
    an empty file. *)
Definition mkfs (args : list (list Z)) : HK unit :=
  mk_printf "nmeta %d (boot, super, log blocks %u inode blocks %u, bitmap blocks %u) blocks %d total %d"
    [nmeta; nlog; ninodeblocks; nbitmap; nblocks; FSSIZE];;
  modify (set_freeblock nmeta);;
  for_each (seq 0 (Z.to_nat FSSIZE)) (λ i, wsect (Z.of_nat i) zeroes);;
  wsect 1 (set_bytes 0 (sb_bytes mksb) zeroes);;
  rootino ← ialloc T_DIR;
  assert_ (rootino =? ROOTINO);;
  iappend rootino (dirent_for rootino (chars "."));;
  iappend rootino (dirent_for rootino (chars ".."));;
  for_each args (add_file rootino);;
  fix_root rootino;;
  b ← gets freeblock;
  balloc b.
End main.

Definition mk_start : mkst := Mkst ∅ 1 0 [].

End Mkfs.
