(* ===== verification/MkfsSpec.v ===== *)
(** * What mkfs builds

    [built] describes an image under construction: which blocks each file has, what
    they hold, and that the blocks and inodes not given out yet are zero. ialloc()
    and iappend() keep it, so main() ends with an image that is [finished]: every
    file has the blocks for its contents, and the bitmap marks those in use. *)

From S2P Require Import Prelude Param Bytes String State Spinlock Console Sched Sleeplock Bio Log Fs Mkfs.

Import Mkfs.

#[local] Arguments Z.div : simpl never.
#[local] Arguments Z.modulo : simpl never.

(** ** Words and inodes in a sector *)

Lemma xint_id x : 0 ≤ x < 2 ^ 32 → xint x = x.
Proof. intros H. rewrite /xint /get32 /= of_le4_le4. by apply Z.mod_small. Qed.

Lemma xshort_id x : 0 ≤ x < 2 ^ 16 → xshort x = x.
Proof. intros H. rewrite /xshort /get16 /= of_le2_le2. by apply Z.mod_small. Qed.

Lemma get32_sub o k src l :
  (k + 4 ≤ length src)%nat → (o + length src ≤ length l)%nat →
  get32 (o + k) (set_bytes o src l) = get32 k src.
Proof.
  intros Hk Hl. rewrite /get32 !get8_set_in; [lia..|]. do 4 f_equal; f_equal; lia.
Qed.

Lemma get16_sub o k src l :
  (k + 2 ≤ length src)%nat → (o + length src ≤ length l)%nat →
  get16 (o + k) (set_bytes o src l) = get16 k src.
Proof.
  intros Hk Hl. rewrite /get16 !get8_set_in; [lia..|]. do 2 f_equal; f_equal; lia.
Qed.

Lemma dinode_at_sub o src l :
  length src = sizeof_dinode → (o + sizeof_dinode ≤ length l)%nat →
  dinode_at o (set_bytes o src l) = dinode_at 0 src.
Proof.
  intros Hs Hl. rewrite /dinode_at. rewrite /sizeof_dinode in Hs, Hl. f_equal.
  - rewrite -{1}(Nat.add_0_r o). apply get16_sub; lia.
  - apply get16_sub; lia.
  - apply get16_sub; lia.
  - apply get16_sub; lia.
  - apply get32_sub; lia.
  - apply list_fmap_ext. intros k j Hj%lookup_seq. rewrite /NDIRECT in Hj.
    rewrite -Nat.add_assoc. apply get32_sub; lia.
Qed.

(** Values that fit in their fields. *)
Record dinode_ok (d : dinode) : Prop := {
  dno_type : 0 ≤ dn_type d < 2 ^ 16;
  dno_major : 0 ≤ dn_major d < 2 ^ 16;
  dno_minor : 0 ≤ dn_minor d < 2 ^ 16;
  dno_nlink : 0 ≤ dn_nlink d < 2 ^ 16;
  dno_size : 0 ≤ dn_size d < 2 ^ 32;
  dno_len : length (dn_addrs d) = S NDIRECT;
  dno_addrs : Forall (λ a, 0 ≤ a < 2 ^ 32) (dn_addrs d)
}.

Lemma length_words (l : list Z) : length (concat (le4 <$> l)) = (4 * length l)%nat.
Proof. induction l as [|x l IH]; simpl; [done|]. rewrite IH. lia. Qed.

Lemma length_dinode_bytes d : length (dn_addrs d) = S NDIRECT → length (dinode_bytes d) = sizeof_dinode.
Proof. intros H. by rewrite /dinode_bytes !length_app length_words H. Qed.

Lemma get32_words (pre l : list Z) k :
  (k < length l)%nat →
  get32 (length pre + 4 * k) (pre ++ concat (le4 <$> l)) = u32 (default 0 (l !! k)).
Proof.
  revert pre k. induction l as [|x l IH]; intros pre k Hk; simpl in Hk; [lia|]. destruct k as [|k].
  - rewrite Nat.mul_0_r Nat.add_0_r /= -of_le4_le4 /get32 /get8.
    rewrite !lookup_app_r; [lia..|]. rewrite Nat.sub_diag.
    replace (length pre + 1 - length pre)%nat with 1%nat by lia.
    replace (length pre + 2 - length pre)%nat with 2%nat by lia.
    replace (length pre + 3 - length pre)%nat with 3%nat by lia. done.
  - cbn [fmap list_fmap concat lookup list_lookup]. rewrite app_assoc. rewrite -(IH (pre ++ le4 x)); [lia|].
    rewrite length_app /=. f_equal. lia.
Qed.

(** Storing an inode and reading it back. *)
Lemma dinode_at_bytes d : dinode_ok d → dinode_at 0 (dinode_bytes d) = d.
Proof.
  intros [H1 H2 H3 H4 H5 Hlen HF]. rewrite /dinode_at /dinode_bytes. destruct d as [t ma mi nl sz l]; cbn [dn_type dn_major dn_minor dn_nlink dn_size dn_addrs] in *.
  f_equal.
  - transitivity (xshort t); [done|by apply xshort_id].
  - transitivity (xshort ma); [done|by apply xshort_id].
  - transitivity (xshort mi); [done|by apply xshort_id].
  - transitivity (xshort nl); [done|by apply xshort_id].
  - transitivity (xint sz); [done|by apply xint_id].
  - apply list_eq. intros k. rewrite list_lookup_fmap. destruct (decide (k < S NDIRECT)%nat) as [Hk|Hk].
    + rewrite lookup_seq_lt //. destruct (lookup_lt_is_Some_2 l k) as [x Hx]; [lia|].
      rewrite Hx. cbn [fmap option_fmap option_map]. f_equal.
      pose proof (get32_words (le2 t ++ le2 ma ++ le2 mi ++ le2 nl ++ le4 sz) l k) as Hw.
      rewrite -!app_assoc Hx in Hw. rewrite Hw; [lia|]. apply Z.mod_small.
      by apply (Forall_lookup_1 _ _ _ _ HF Hx).
    + rewrite lookup_seq_ge; [lia|]. rewrite lookup_ge_None_2 //. lia.
Qed.

(** ** Sectors *)

Definition blk (s : mkst) (b : Z) : list Z := default zeroes (img s !! b).

(** The sectors of a complete image. *)
Record sectors (s : mkst) : Prop := {
  se_dom b : is_Some (img s !! b) ↔ 0 ≤ b < FSSIZE;
  se_len b d : img s !! b = Some d → length d = 512%nat
}.

Lemma sector_len s b : sectors s → length (blk s b) = 512%nat.
Proof. intros Hs. rewrite /blk. destruct (img s !! b) eqn:E; [by apply (se_len s Hs b)|done]. Qed.

Lemma rsect_Ok b s : sectors s → 0 ≤ b < FSSIZE → rsect b s = Ok (blk s b) s.
Proof.
  intros Hs Hb. rewrite /rsect bind_gets /blk. by destruct (proj2 (se_dom s Hs b) Hb) as [d ->].
Qed.

Definition wrote (b : Z) (d : list Z) (s : mkst) : mkst := set_img (<[b := d]> (img s)) s.

Lemma blk_wrote b d s b' : blk (wrote b d s) b' = if bool_decide (b' = b) then d else blk s b'.
Proof.
  rewrite /blk /wrote /=. case_bool_decide as E; [subst; by rewrite lookup_insert_eq|].
  rewrite lookup_insert_ne //; congruence.
Qed.

Lemma sectors_wrote b d s : sectors s → 0 ≤ b < FSSIZE → length d = 512%nat → sectors (wrote b d s).
Proof.
  intros [Hd Hl] Hb Hlen. split.
  - intros b'. rewrite /wrote /=. destruct (decide (b' = b)) as [->|Hne].
    + rewrite lookup_insert_eq. split; [done|by eexists].
    + rewrite lookup_insert_ne //; congruence.
  - intros b' d'. rewrite /wrote /=. destruct (decide (b' = b)) as [->|Hne].
    + rewrite lookup_insert_eq. by intros [= <-].
    + rewrite lookup_insert_ne; [congruence|apply Hl].
Qed.

(** ** Inodes on the image *)

Definition disk_inode (s : mkst) (i : Z) : dinode := dinode_at (dinode_off i) (blk s (IBLOCK i mksb)).

Lemma iblock_eq i : 0 ≤ i → i < NINODES → IBLOCK i mksb = 32 + i / 8 ∧ 32 ≤ 32 + i / 8 < 58.
Proof.
  intros H0 H1. rewrite /IBLOCK /NINODES in H1 |- *. change IPB with 8. change (sb_inodestart mksb) with 32.
  rewrite /u32 Z.mod_small; Z.to_euclidean_division_equations; lia.
Qed.

Lemma dinode_off_bound i : (dinode_off i + sizeof_dinode ≤ 512)%nat.
Proof.
  rewrite /dinode_off /sizeof_dinode. change IPB with 8. pose proof (Z.mod_pos_bound i 8 ltac:(lia)). lia.
Qed.

Lemma dinode_off_ne i j : 0 ≤ i → 0 ≤ j → i / 8 = j / 8 → i ≠ j →
  (dinode_off i + sizeof_dinode ≤ dinode_off j ∨ dinode_off j + sizeof_dinode ≤ dinode_off i)%nat.
Proof.
  rewrite /dinode_off /sizeof_dinode. change IPB with 8. intros.
  assert (i mod 8 ≠ j mod 8) by (Z.to_euclidean_division_equations; lia).
  pose proof (Z.mod_pos_bound i 8 ltac:(lia)). pose proof (Z.mod_pos_bound j 8 ltac:(lia)). lia.
Qed.

Lemma dinode_at_out o o' src l :
  length src = sizeof_dinode → (o + sizeof_dinode ≤ o' ∨ o' + sizeof_dinode ≤ o)%nat →
  dinode_at o' (set_bytes o src l) = dinode_at o' l.
Proof.
  intros Hs Ho. rewrite /sizeof_dinode in Hs, Ho. rewrite /dinode_at. f_equal.
  1-4: by apply get16_set_out; lia.
  - apply get32_set_out. lia.
  - apply list_fmap_ext. intros k j Hj%lookup_seq. rewrite /NDIRECT in Hj. apply get32_set_out. lia.
Qed.

Definition winoded (i : Z) (d : dinode) (s : mkst) : mkst :=
  wrote (IBLOCK i mksb) (set_bytes (dinode_off i) (dinode_bytes d) (blk s (IBLOCK i mksb))) s.

Lemma winode_Ok i d s : sectors s → 0 ≤ i < NINODES → winode i d s = Ok tt (winoded i d s).
Proof.
  intros Hs Hi. destruct (iblock_eq i) as [E ?]; [lia|lia|]. rewrite /winode.
  rewrite (bind_Ok _ _ _ _ _ (rsect_Ok _ s Hs _)); [rewrite E /FSSIZE; lia|]. done.
Qed.

Lemma rinode_Ok i s : sectors s → 0 ≤ i < NINODES → rinode i s = Ok (disk_inode s i) s.
Proof.
  intros Hs Hi. destruct (iblock_eq i) as [E ?]; [lia|lia|]. rewrite /rinode.
  rewrite (bind_Ok _ _ _ _ _ (rsect_Ok _ s Hs _)); [rewrite E /FSSIZE; lia|]. done.
Qed.

Lemma winoded_sectors i d s : sectors s → 0 ≤ i < NINODES → sectors (winoded i d s).
Proof.
  intros Hs Hi. destruct (iblock_eq i) as [E ?]; [lia|lia|].
  apply sectors_wrote; [done|rewrite E /FSSIZE; lia|]. by rewrite length_set_bytes sector_len.
Qed.

Lemma disk_inode_winoded i d s : sectors s → dinode_ok d → disk_inode (winoded i d s) i = d.
Proof.
  intros Hs Hd. rewrite /disk_inode /winoded blk_wrote bool_decide_eq_true_2 //.
  rewrite dinode_at_sub; [apply length_dinode_bytes, Hd|rewrite sector_len //; apply dinode_off_bound|].
  by apply dinode_at_bytes.
Qed.

Lemma disk_inode_other i j d s :
  0 ≤ i < NINODES → 0 ≤ j < NINODES → i ≠ j → length (dn_addrs d) = S NDIRECT →
  disk_inode (winoded i d s) j = disk_inode s j.
Proof.
  intros Hi Hj Hne Hd. destruct (iblock_eq i) as [Ei _]; [lia|lia|]. destruct (iblock_eq j) as [Ej _]; [lia|lia|].
  rewrite /disk_inode /winoded blk_wrote. case_bool_decide as E; [|done].
  rewrite E. apply dinode_at_out; [by apply length_dinode_bytes|]. apply dinode_off_ne; lia.
Qed.

Lemma blk_winoded i d s b : 0 ≤ i < NINODES → ¬ (32 ≤ b < 58) → blk (winoded i d s) b = blk s b.
Proof.
  intros Hi Hb. destruct (iblock_eq i) as [E ?]; [lia|lia|].
  rewrite /winoded blk_wrote bool_decide_eq_false_2 //. lia.
Qed.

(** ** The blocks of the files *)

(** [P] gives the block in each slot of each inode: slots 0 to 11 are the direct
    blocks, 12 the indirect block, and 13 on the blocks it lists. *)
Notation layout := (gmap (Z * Z) Z).

Definition slot (bn : Z) : Z := if bn <? Z.of_nat NDIRECT then bn else bn + 1.

Definition addrs (P : layout) (i : Z) : list Z := (λ k, default 0 (P !! (i, Z.of_nat k))) <$> seq 0 (S NDIRECT).

Record lay (P : layout) (s : mkst) : Prop := {
  la_sec : sectors s;
  la_range k b : P !! k = Some b → nmeta ≤ b < freeblock s;
  la_inj k k' b : P !! k = Some b → P !! k' = Some b → k = k';
  la_bound : nmeta ≤ freeblock s ≤ FSSIZE;
  la_free b : freeblock s ≤ b < FSSIZE → blk s b = zeroes;
  la_ind i b k : P !! (i, 12) = Some b → (k < 128)%nat →
    get32 (4 * k) (blk s b) = default 0 (P !! (i, 13 + Z.of_nat k));
  la_need i j : 13 ≤ j → is_Some (P !! (i, j)) → is_Some (P !! (i, 12))
}.

(** What a change of inode [i] leaves alone. *)
Record others (i : Z) (P : layout) (s : mkst) (P' : layout) (s' : mkst) : Prop := {
  ot_slots k : k.1 ≠ i → P' !! k = P !! k;
  ot_sub : P ⊆ P';
  ot_meta b : b < nmeta → blk s' b = blk s b;
  ot_blocks k b : P !! k = Some b → k.1 ≠ i → blk s' b = blk s b;
  ot_freeinode : freeinode s' = freeinode s
}.

Lemma others_refl i P s : others i P s P s.
Proof. by split. Qed.

Lemma others_trans i P1 s1 P2 s2 P3 s3 :
  others i P1 s1 P2 s2 → others i P2 s2 P3 s3 → others i P1 s1 P3 s3.
Proof.
  intros [A1 A2 A3 A4 A5] [B1 B2 B3 B4 B5]. split.
  - intros k Hk. by rewrite B1 // A1.
  - by transitivity P2.
  - intros b Hb. by rewrite B3 // A3.
  - intros k b Hk Hi. rewrite (B4 k) //; [|by apply (A4 k)]. by apply (lookup_weaken _ _ _ _ Hk).
  - congruence.
Qed.

Definition taken (s : mkst) : mkst := set_freeblock (freeblock s + 1) s.

Lemma taken_sectors s : sectors s → sectors (taken s).
Proof. by intros []. Qed.

Lemma newblock_Ok s : 0 ≤ freeblock s < FSSIZE → newblock s = Ok (freeblock s) (taken s).
Proof.
  intros H. rewrite /newblock bind_gets bind_modify /taken. rewrite /u32 Z.mod_small //. rewrite /FSSIZE in H. lia.
Qed.

Lemma nmeta_eq : nmeta = 59.
Proof. done. Qed.

Lemma get32_zeroes k : get32 k zeroes = 0.
Proof.
  assert (∀ j, get8 j zeroes = 0) as H.
  { intros j. rewrite /get8 /zeroes. destruct (decide (j < 512)%nat).
    - by rewrite lookup_replicate_2.
    - rewrite lookup_ge_None_2 //. rewrite length_replicate. lia. }
  by rewrite /get32 !H.
Qed.

Lemma get8_zeroes k : get8 k zeroes = 0.
Proof.
  rewrite /get8 /zeroes. destruct (decide (k < 512)%nat).
  - by rewrite lookup_replicate_2.
  - rewrite lookup_ge_None_2 //. rewrite length_replicate. lia.
Qed.

(** A block given to a slot of the inode itself. *)
Lemma take_inode_slot P s i j :
  lay P s → freeblock s < FSSIZE → 0 ≤ j ≤ 12 → P !! (i, j) = None →
  lay (<[(i, j) := freeblock s]> P) (taken s) ∧
  others i P s (<[(i, j) := freeblock s]> P) (taken s).
Proof.
  intros [Hs Hr Hinj Hb Hf Hind Hneed] Hfb Hj Hn. split; [split|split].
  - by apply taken_sectors.
  - intros k b. rewrite lookup_insert_Some. intros [[<- <-]|[_ H%Hr]]; rewrite /taken /=; lia.
  - intros k k' b. rewrite !lookup_insert_Some.
    intros [[<- <-]|[? Hk]] [[<- E]|[? Hk']]; [done| | |by apply (Hinj _ _ b)].
    + apply Hr in Hk'. lia.
    + apply Hr in Hk. lia.
  - rewrite /taken /=. lia.
  - intros b H. rewrite /taken /= in H. apply Hf. lia.
  - intros i' b k. rewrite lookup_insert_Some. rewrite (lookup_insert_ne _ _ (i', 13 + _)); [intros [= _ ?]; lia|].
    intros [[[= <- ->] <-]|[_ H]] Hk; [|by apply (Hind i')].
    change (blk (taken s)) with (blk s). rewrite Hf; [lia|]. rewrite get32_zeroes.
    destruct (P !! (i, 13 + Z.of_nat k)) eqn:E; [|done].
    destruct (Hneed i (13 + Z.of_nat k)) as [? ?]; [lia|rewrite E; eauto|congruence].
  - intros i' j' Hj'. rewrite lookup_insert_ne; [intros [= _ ?]; lia|]. intros H.
    destruct (decide ((i, j) = (i', 12))) as [->|Hne]; [rewrite lookup_insert_eq; by eexists|].
    rewrite lookup_insert_ne //. by apply (Hneed _ j').
  - intros k Hk. rewrite lookup_insert_ne //. intros <-. done.
  - by apply insert_subseteq.
  - done.
  - done.
  - done.
Qed.

(** ... and to a slot of its indirect block. *)
Lemma take_indirect_slot P s i ib k :
  lay P s → freeblock s < FSSIZE → (k < 128)%nat → P !! (i, 12) = Some ib → P !! (i, 13 + Z.of_nat k) = None →
  let s' := wrote ib (set32 (4 * k) (freeblock s) (blk s ib)) (taken s) in
  let P' := <[(i, 13 + Z.of_nat k) := freeblock s]> P in
  lay P' s' ∧ others i P s P' s' ∧ get32 (4 * k) (blk s' ib) = freeblock s ∧
  (∀ b, b ≠ ib → blk s' b = blk s b).
Proof.
  intros [Hs Hr Hinj Hb Hf Hind Hneed] Hfb Hk Hib Hn s' P'.
  pose proof (Hr _ _ Hib) as Hibr. rewrite nmeta_eq in Hibr, Hb. rewrite /FSSIZE in Hfb, Hb.
  assert (length (blk s ib) = 512%nat) as Hlen by by apply sector_len.
  assert (∀ b, b ≠ ib → blk s' b = blk s b) as Hne.
  { intros b Hb'. rewrite /s' blk_wrote bool_decide_eq_false_2 //. }
  assert (blk s' ib = set32 (4 * k) (freeblock s) (blk s ib)) as Hnew by by rewrite /s' blk_wrote bool_decide_eq_true_2.
  assert (get32 (4 * k) (blk s' ib) = freeblock s) as Hget.
  { rewrite Hnew get32_set32; [lia|]. apply Z.mod_small. lia. }
  split_and!; [split|split|done|done].
  - apply sectors_wrote; [by apply taken_sectors|rewrite /FSSIZE; lia|by rewrite length_set32].
  - intros k' b. rewrite lookup_insert_Some nmeta_eq /s' /taken /=. intros [[<- <-]|[_ H%Hr]]; [lia|]. rewrite nmeta_eq in H. lia.
  - intros k1 k2 b. rewrite !lookup_insert_Some.
    intros [[<- <-]|[? Hk1]] [[<- E]|[? Hk2]]; [done| | |by apply (Hinj _ _ b)].
    + apply Hr in Hk2. lia.
    + apply Hr in Hk1. lia.
  - rewrite nmeta_eq /s' /taken /FSSIZE /=. lia.
  - intros b H. rewrite /s' /taken /FSSIZE /= in H. rewrite Hne; [lia|]. apply Hf. rewrite /FSSIZE. lia.
  - intros i' b k' Hb' Hk'. rewrite lookup_insert_ne in Hb'; [intros [= _ ?]; lia|].
    destruct (decide (b = ib)) as [->|Hbne].
    + assert (i' = i) as -> by (pose proof (Hinj _ _ _ Hb' Hib) as E; congruence).
      rewrite Hnew. destruct (decide (k' = k)) as [->|Hkne].
      * rewrite lookup_insert_eq -Hnew Hget //.
      * rewrite lookup_insert_ne; [intros [= ?]; lia|]. rewrite get32_set32_ne; [lia|]. by apply (Hind i).
    + rewrite Hne // lookup_insert_ne; [|by apply (Hind i')].
      intros [= -> _]. congruence.
  - intros i' j' Hj' H. rewrite lookup_insert_ne; [intros [= _ ?]; lia|].
    destruct (decide ((i, 13 + Z.of_nat k) = (i', j'))) as [[= <- _]|Hne'].
    + eauto.
    + rewrite lookup_insert_ne // in H. by apply (Hneed _ j').
  - intros k' Hk'. rewrite lookup_insert_ne //. intros <-. done.
  - by apply insert_subseteq.
  - intros b Hb'. apply Hne. rewrite nmeta_eq in Hb'. lia.
  - intros k' b Hk' Hi'. apply Hne. intros ->. apply Hi'. by rewrite (Hinj _ _ _ Hk' Hib).
  - done.
Qed.

(** ** The block for an offset *)

Definition with_addrs (l : list Z) (d : dinode) : dinode :=
  Dinode (dn_type d) (dn_major d) (dn_minor d) (dn_nlink d) (dn_size d) l.

(** The blocks it takes to fill a slot. *)
Definition fresh (P : layout) (k : Z * Z) : Z := match P !! k with None => 1 | Some _ => 0 end.

Lemma addrs_lookup P i k : (k ≤ NDIRECT)%nat → addrs P i !! k = Some (default 0 (P !! (i, Z.of_nat k))).
Proof. intros Hk. rewrite /addrs list_lookup_fmap lookup_seq_lt //. lia. Qed.

Lemma addrs_insert P i k b :
  (k ≤ NDIRECT)%nat → addrs (<[(i, Z.of_nat k) := b]> P) i = <[k := b]> (addrs P i).
Proof.
  intros Hk. apply list_eq. intros j. destruct (decide (j ≤ NDIRECT)%nat) as [Hj|Hj].
  - rewrite addrs_lookup //. destruct (decide (j = k)) as [->|Hne].
    + rewrite lookup_insert_eq list_lookup_insert_eq //. rewrite /addrs length_fmap length_seq. lia.
    + rewrite lookup_insert_ne; [intros [= ?]; lia|]. rewrite list_lookup_insert_ne; [congruence|]. by rewrite addrs_lookup.
  - rewrite !lookup_ge_None_2 // ?length_insert /addrs length_fmap length_seq; lia.
Qed.

Lemma addrs_insert_far P i j b : 13 ≤ j → addrs (<[(i, j) := b]> P) i = addrs P i.
Proof.
  intros Hj. apply list_fmap_ext. intros k x Hx%lookup_seq. rewrite /NDIRECT in Hx.
  rewrite lookup_insert_ne //. intros [= ?]. lia.
Qed.

Lemma block_nonzero P s k b : lay P s → P !! k = Some b → xint b = b ∧ 0 < b < FSSIZE.
Proof.
  intros HL Hk. pose proof (la_range _ _ HL _ _ Hk) as H. pose proof (la_bound _ _ HL) as Hb.
  rewrite nmeta_eq in H, Hb. split; [|lia]. apply xint_id. rewrite /FSSIZE in Hb. lia.
Qed.

Lemma iappend_addr_Ok P s i d k :
  lay P s → dn_addrs d = addrs P i → (k ≤ NDIRECT)%nat → freeblock s + fresh P (i, Z.of_nat k) ≤ FSSIZE →
  ∃ P' s' b, iappend_addr k d s = Ok (with_addrs (addrs P' i) d) s' ∧ lay P' s' ∧ others i P s P' s' ∧
    P' !! (i, Z.of_nat k) = Some b ∧ (∀ k', k' ≠ (i, Z.of_nat k) → P' !! k' = P !! k') ∧
    (∀ b', blk s' b' = blk s b') ∧ (P !! (i, Z.of_nat k) = None → b = freeblock s) ∧
    freeblock s' = freeblock s + fresh P (i, Z.of_nat k).
Proof.
  intros HL Hd Hk Hroom. rewrite /iappend_addr /dn_addr Hd addrs_lookup //. rewrite /fresh in Hroom |- *.
  destruct (P !! (i, Z.of_nat k)) as [b|] eqn:Hb; cbn [default from_option id].
  - destruct (block_nonzero _ _ _ _ HL Hb) as [-> ?]. replace (b =? 0) with false by lia.
    exists P, s, b. split_and!; [|done|apply others_refl|done|done|done|done|lia].
    rewrite /with_addrs -Hd. by destruct d.
  - pose proof (la_bound _ _ HL) as Hbd. rewrite nmeta_eq in Hbd.
    change (xint 0) with 0. rewrite Z.eqb_refl (bind_Ok _ _ _ _ _ (newblock_Ok s _)); [lia|].
    destruct (take_inode_slot P s i (Z.of_nat k) HL) as [HL' Ho]; [lia|rewrite /NDIRECT in Hk; lia|done|].
    eexists _, _, _. split_and!; [|exact HL'|exact Ho|by rewrite lookup_insert_eq| |done|done|done].
    + rewrite addrs_insert // /set_dn_addr Hd xint_id //. rewrite /FSSIZE in Hroom. lia.
    + intros k' Hne. rewrite lookup_insert_ne; [congruence|done].
Qed.

Lemma iappend_block_Ok P s i d fbn :
  lay P s → dn_addrs d = addrs P i → 0 ≤ fbn < MAXFILE →
  freeblock s + fresh P (i, slot fbn) + (if fbn <? 12 then 0 else fresh P (i, 12)) ≤ FSSIZE →
  ∃ P' s' x, iappend_block fbn d s = Ok (with_addrs (addrs P' i) d, x) s' ∧ lay P' s' ∧ others i P s P' s' ∧
    P' !! (i, slot fbn) = Some x ∧
    (∀ j, j ≠ slot fbn → (fbn < 12 ∨ j ≠ 12) → P' !! (i, j) = P !! (i, j)) ∧
    (12 ≤ fbn → is_Some (P' !! (i, 12))) ∧
    (∀ k b, P !! k = Some b → k ≠ (i, 12) → blk s' b = blk s b) ∧
    (P !! (i, slot fbn) = None → blk s' x = zeroes) ∧
    freeblock s' = freeblock s + fresh P (i, slot fbn) + (if fbn <? 12 then 0 else fresh P (i, 12)).
Proof.
  intros HL Hd Hf. rewrite /iappend_block /slot. change (Z.of_nat NDIRECT) with 12. change MAXFILE with 140 in Hf.
  destruct (fbn <? 12) eqn:E; intros Hroom.
  - destruct (iappend_addr_Ok P s i d (Z.to_nat fbn)) as (P' & s' & b & Hrun & HL' & Ho & Hb & Hne & Hblk & Hnew & Hfb);
      [done|done|rewrite /NDIRECT; lia|rewrite Z2Nat.id; lia|].
    rewrite Z2Nat.id in Hb, Hne, Hnew, Hfb; [lia..|]. rewrite (bind_Ok _ _ _ _ _ Hrun).
    rewrite /dn_addr /= addrs_lookup; [rewrite /NDIRECT; lia|]. rewrite Z2Nat.id; [lia|]. rewrite Hb /=.
    destruct (block_nonzero _ _ _ _ HL' Hb) as [-> ?].
    exists P', s', b. split_and!; [done|done|done|done| |lia|done| |lia].
    + intros j Hj _. apply Hne. congruence.
    + intros Hn. rewrite Hblk Hnew //. apply (la_free _ _ HL). rewrite /fresh Hn in Hroom. lia.
  - assert (freeblock s + fresh P (i, Z.of_nat NDIRECT) ≤ FSSIZE) as Hroom1.
    { change (Z.of_nat NDIRECT) with 12. rewrite /fresh in Hroom |- *. destruct (P !! (i, 12)), (P !! (i, fbn + 1)); lia. }
    destruct (iappend_addr_Ok P s i d NDIRECT) as (P1 & s1 & ib & Hrun & HL1 & Ho1 & Hib & Hne1 & Hblk1 & Hnew1 & Hfb1); [done..|].
    change (Z.of_nat NDIRECT) with 12 in *.
    rewrite (bind_Ok _ _ _ _ _ Hrun) /dn_addr. cbn [with_addrs dn_addrs]. rewrite addrs_lookup //.
    change (Z.of_nat NDIRECT) with 12. rewrite Hib. cbn [default from_option id].
    destruct (block_nonzero _ _ _ _ HL1 Hib) as [-> Hibr].
    rewrite (bind_Ok _ _ _ _ _ (rsect_Ok ib s1 (la_sec _ _ HL1) _)); [lia|].
    set (k := Z.to_nat (fbn - 12)). assert (k < 128)%nat as Hk by lia.
    assert (fbn + 1 = 13 + Z.of_nat k) as Ek by lia. rewrite Ek in Hroom |- *.
    rewrite (la_ind _ _ HL1 i ib k Hib Hk).
    assert (P1 !! (i, 13 + Z.of_nat k) = P !! (i, 13 + Z.of_nat k)) as E1 by (apply Hne1; intros [= ?]; lia).
    rewrite E1 /fresh in Hroom |- *. destruct (P !! (i, 13 + Z.of_nat k)) as [x|] eqn:Hx; cbn [default from_option id].
    + destruct (block_nonzero _ _ _ _ HL Hx) as [-> ?]. replace (x =? 0) with false by lia.
      exists P1, s1, x. split_and!; [done|done|done|by rewrite E1| | |done|done|rewrite Hfb1 /fresh; lia].
      * intros j Hj [?|Hj']; [lia|]. apply Hne1. congruence.
      * intros _. rewrite Hib. eauto.
    + assert (freeblock s1 < FSSIZE) as Hlt by (rewrite Hfb1 /fresh; lia).
      pose proof (la_bound _ _ HL1) as Hbd. rewrite nmeta_eq in Hbd.
      rewrite Z.eqb_refl (bind_Ok _ _ _ _ _ (newblock_Ok s1 _)); [lia|].
      destruct (take_indirect_slot P1 s1 i ib k HL1 Hlt Hk Hib E1) as (HL2 & Ho2 & Hget & Hother).
      rewrite (xint_id (freeblock s1)); [rewrite /FSSIZE in Hlt; lia|].
      assert (get32 (4 * k) (set32 (4 * k) (freeblock s1) (blk s1 ib)) = freeblock s1) as Hg.
      { rewrite get32_set32; [rewrite sector_len; [apply HL1|lia]|]. apply Z.mod_small. rewrite /FSSIZE in Hlt. lia. }
      rewrite Hg xint_id; [rewrite /FSSIZE in Hlt; lia|].
      eexists _, _, (freeblock s1). split_and!; [|exact HL2|by apply (others_trans _ _ _ P1 s1)|by rewrite lookup_insert_eq| | | | |].
      * rewrite addrs_insert_far //. lia.
      * intros j Hj [?|Hj']; [lia|]. rewrite lookup_insert_ne; [congruence|]. apply Hne1. congruence.
      * intros _. rewrite lookup_insert_ne; [intros [= ?]; lia|]. rewrite Hib. eauto.
      * intros k' b Hb Hk'. rewrite Hother; [|by apply Hblk1]. intros ->.
        assert (P1 !! k' = Some ib) as Hb' by (rewrite Hne1 //). apply Hk'. by apply (la_inj _ _ HL1 _ _ ib).
      * intros _. rewrite Hother; [|apply (la_free _ _ HL1); lia].
        pose proof (la_range _ _ HL1 _ _ Hib). lia.
      * rewrite /taken /= Hfb1 /fresh. lia.
Qed.

(** ** The contents of a file *)

Definition nblk (n : Z) : Z := (n + 511) / 512.

(** The slots of a file of [n] blocks, and how many they are for a size. *)
Definition used (n j : Z) : Prop := 0 ≤ j ∧ (j < 12 ∧ j < n ∨ j = 12 ∧ 12 < n ∨ 12 < j ∧ j - 1 < n).
Definition cost (n : Z) : Z := nblk n + (if 12 <? nblk n then 1 else 0).

(** Inode [i] has the blocks for the contents [c], which they hold, followed by
    zeros. *)
Record holds (P : layout) (i : Z) (c : list Z) (s : mkst) : Prop := {
  ho_dom j : is_Some (P !! (i, j)) ↔ used (nblk (Z.of_nat (length c))) j;
  ho_data o b : 0 ≤ o → P !! (i, slot (o / 512)) = Some b →
    get8 (Z.to_nat (o mod 512)) (blk s b) = default 0 (c !! Z.to_nat o)
}.

Lemma slot_spec bn : 0 ≤ bn → (bn < 12 ∧ slot bn = bn ∨ 12 ≤ bn ∧ slot bn = bn + 1).
Proof. intros. rewrite /slot. change (Z.of_nat NDIRECT) with 12. destruct (bn <? 12) eqn:E; lia. Qed.

Lemma slot_inj b b' : 0 ≤ b → 0 ≤ b' → slot b = slot b' → b = b'.
Proof. intros Hb Hb'. destruct (slot_spec b Hb), (slot_spec b' Hb'); lia. Qed.

Lemma used_slot n bn : 0 ≤ bn → used n (slot bn) ↔ bn < n.
Proof. intros H. rewrite /used. destruct (slot_spec bn H); lia. Qed.

Lemma fresh_used P i c s j : holds P i c s → fresh P (i, j) = 0 ∧ used (nblk (Z.of_nat (length c))) j ∨
  fresh P (i, j) = 1 ∧ ¬ used (nblk (Z.of_nat (length c))) j.
Proof.
  intros [Hd _]. rewrite -Hd /fresh. destruct (P !! (i, j)) as [b|]; [left|right]; (split; [done|]).
  - eauto.
  - by intros [? ?].
Qed.

(** The blocks taken by adding [m] bytes that end in the block of the end. *)
Lemma cost_step n m :
  0 ≤ n → 0 < m ≤ 512 - n mod 512 →
  nblk (n + m) = n / 512 + 1 ∧ (nblk n = n / 512 ∧ n mod 512 = 0 ∨ nblk n = n / 512 + 1 ∧ 0 < n mod 512).
Proof. intros Hn Hm. rewrite /nblk. Z.to_euclidean_division_equations. lia. Qed.

(** A write to a data block of the file. *)
Lemma lay_wrote P s i j x d :
  lay P s → P !! (i, j) = Some x → j ≠ 12 → length d = 512%nat →
  lay P (wrote x d s) ∧ others i P s P (wrote x d s) ∧ ∀ k b, P !! k = Some b → k ≠ (i, j) → blk (wrote x d s) b = blk s b.
Proof.
  intros HL Hx Hj Hd. pose proof HL as [Hs Hr Hinj Hb Hf Hind Hneed]. pose proof (Hr _ _ Hx) as Hxr.
  rewrite nmeta_eq in Hxr, Hb.
  assert (∀ b, b ≠ x → blk (wrote x d s) b = blk s b) as Hne.
  { intros b Hbx. by rewrite blk_wrote bool_decide_eq_false_2. }
  assert (∀ k b, P !! k = Some b → k ≠ (i, j) → blk (wrote x d s) b = blk s b) as Hk.
  { intros k b Hkb Hk. apply Hne. intros ->. by apply Hk, (Hinj _ _ x). }
  split_and!; [split|split|done]; try done.
  - apply sectors_wrote; [done|lia|done].
  - intros b Hb'. rewrite Hne; [simpl in Hb'; lia|]. by apply Hf.
  - intros i' b k Hb' Hk'. rewrite (Hk (i', 12)) //; [|by apply (Hind i')]. congruence.
  - intros b Hb'. apply Hne. rewrite nmeta_eq in Hb'. lia.
  - intros k b Hkb Hki. apply (Hk k); [done|]. by intros ->.
Qed.

(** The bytes of the block at the end of the file. *)
Lemma tail_bytes c q old o :
  length old = 512%nat → (Z.to_nat (Z.of_nat (length c) mod 512) + length q ≤ 512)%nat →
  0 ≤ o → o / 512 = Z.of_nat (length c) / 512 →
  get8 (Z.to_nat (o mod 512)) old = default 0 (c !! Z.to_nat o) →
  get8 (Z.to_nat (o mod 512)) (set_bytes (Z.to_nat (Z.of_nat (length c) mod 512)) q old) =
    default 0 ((c ++ q) !! Z.to_nat o).
Proof.
  intros Hold Hq Ho Eo Hg. set (n := Z.of_nat (length c)) in *.
  assert (Z.to_nat o = Z.to_nat (o mod 512) + Z.to_nat (512 * (n / 512)))%nat as E1 by (Z.to_euclidean_division_equations; lia).
  assert (length c = Z.to_nat (n mod 512) + Z.to_nat (512 * (n / 512)))%nat as E2 by (Z.to_euclidean_division_equations; lia).
  destruct (decide (Z.to_nat (n mod 512) ≤ Z.to_nat (o mod 512) < Z.to_nat (n mod 512) + length q)%nat) as [Hin|Hout].
  - rewrite get8_set_in; [lia|lia|]. rewrite lookup_app_r; [lia|]. rewrite /get8. do 2 f_equal. lia.
  - rewrite get8_set_out; [lia|]. rewrite Hg. destruct (decide (Z.to_nat o < length c)%nat).
    + by rewrite lookup_app_l.
    + rewrite !lookup_ge_None_2 // ?length_app; lia.
Qed.

Lemma cost_mono n m : n ≤ m → cost n ≤ cost m.
Proof.
  intros H. rewrite /cost. assert (nblk n ≤ nblk m) by (apply Z.div_le_mono; lia).
  destruct (12 <? nblk n) eqn:Ea, (12 <? nblk m) eqn:Eb; lia.
Qed.

Lemma with_addrs_id d l : dn_addrs d = l → with_addrs l d = d.
Proof. intros <-. by destruct d. Qed.

(** One turn of the loop of iappend(): the first [n1] of the bytes [p] go to the
    end of the file. *)
Lemma iappend_step_Ok P s i d c p :
  let n := Z.of_nat (length c) in
  let n1 := Z.min (Z.of_nat (length p)) (512 - n mod 512) in
  let q := take (Z.to_nat n1) p in
  lay P s → holds P i c s → dn_addrs d = addrs P i → p ≠ [] → n / 512 < MAXFILE →
  freeblock s + cost (n + n1) - cost n ≤ FSSIZE →
  ∃ P' s', iappend_step (d, n, p) s =
      Ok (inl (with_addrs (addrs P' i) d, n + n1, drop (Z.to_nat n1) p)) s' ∧
    lay P' s' ∧ holds P' i (c ++ q) s' ∧ others i P s P' s' ∧
    freeblock s' = freeblock s + cost (n + n1) - cost n ∧ 0 < n1.
Proof.
  intros n n1 q HL Hc Hd Hp Hfb Hroom. assert (0 < Z.of_nat (length p)) as Hlp by (destruct p; [done|simpl; lia]).
  pose proof (Z.mod_pos_bound n 512 ltac:(lia)) as Hmod. assert (0 < n1 ≤ 512 - n mod 512) as Hn1 by lia.
  assert (Z.of_nat (length q) = n1) as Hlq by (rewrite /q length_take; lia).
  destruct (cost_step n n1) as [E1 E0]; [lia|done|]. set (fbn := n / 512) in *. assert (0 ≤ fbn) as Hf0 by (apply Z.div_pos; lia).
  assert (freeblock s + fresh P (i, slot fbn) + (if fbn <? 12 then 0 else fresh P (i, 12)) =
          freeblock s + cost (n + n1) - cost n) as Hcost.
  { rewrite /cost E1. pose proof (fresh_used P i c s (slot fbn) Hc) as F1. rewrite used_slot // in F1.
    pose proof (fresh_used P i c s 12 Hc) as F2. fold n in F1, F2. rewrite /used in F2.
    destruct (fbn <? 12) eqn:Ef; destruct (12 <? fbn + 1) eqn:Eg; destruct (12 <? nblk n) eqn:Eh; lia. }
  destruct (iappend_block_Ok P s i d fbn HL Hd) as (P1 & s1 & x & Hrun & HL1 & Ho1 & Hx & Hsame & Hind & Hblk & Hz & Hfb1); [lia|lia|].
  set (d1 := with_addrs (addrs P1 i) d) in *. set (w := set_bytes (Z.to_nat (n mod 512)) q (blk s1 x)).
  assert (length (blk s1 x) = 512%nat) as Hlen by apply sector_len, HL1.
  assert (slot fbn ≠ 12) as Hs12 by (destruct (slot_spec fbn Hf0); lia).
  destruct (lay_wrote P1 s1 i (slot fbn) x w HL1 Hx Hs12) as (HL2 & Ho2 & Hblk2); [by rewrite /w length_set_bytes|].
  exists P1, (wrote x w s1). split_and!; [|done| |by apply (others_trans _ _ _ P1 s1)|simpl; lia|lia].
  - rewrite /iappend_step. replace (0 <? Z.of_nat (length p)) with true by lia. cbn [negb].
    change (n / BSIZE) with fbn. replace (fbn <? MAXFILE) with true by lia. rewrite bind_ret.
    rewrite (bind_Ok _ _ _ _ _ Hrun). destruct (block_nonzero _ _ _ _ HL1 Hx) as [_ Hxb].
    rewrite (bind_Ok _ _ _ _ _ (rsect_Ok x s1 (la_sec _ _ HL1) _)); [lia|].
    assert (n = 512 * fbn + n mod 512) as En by (apply Z.div_mod; lia). change BSIZE with 512.
    replace ((fbn + 1) * 512 - n) with (512 - n mod 512) by lia. replace (n - fbn * 512) with (n mod 512) by lia.
    fold n1 q w. rewrite /wsect bind_modify. rewrite /u32 Z.mod_small //. change MAXFILE with 140 in Hfb. lia.
  - split.
    + intros j. rewrite length_app Nat2Z.inj_add Hlq. fold n. rewrite E1.
      destruct (decide (j = slot fbn)) as [->|Hj].
      { rewrite Hx used_slot //. split; [lia|eauto]. }
      destruct (decide (12 ≤ fbn ∧ j = 12)) as [[H12 ->]|Hj'].
      { split; [rewrite /used; lia|]. intros _. by apply Hind. }
      rewrite Hsame //; [lia|]. rewrite (ho_dom _ _ _ _ Hc). fold n. rewrite /used.
      destruct (slot_spec fbn Hf0); destruct E0 as [[-> _]|[-> _]]; lia.
    + intros o b Ho Hb. destruct (decide (o / 512 = fbn)) as [Eo|Hne].
      * rewrite Eo Hx in Hb. injection Hb as <-. rewrite blk_wrote bool_decide_eq_true_2 //.
        apply tail_bytes; [done|fold n; lia|done|done|].
        destruct (P !! (i, slot fbn)) as [x0|] eqn:E.
        -- assert (x0 = x) as -> by (pose proof (lookup_weaken _ _ _ _ E (ot_sub _ _ _ _ _ Ho1)); congruence).
           rewrite (Hblk _ _ E); [congruence|]. apply (ho_data _ _ _ _ Hc); [done|]. by rewrite Eo.
        -- rewrite Hz // get8_zeroes. rewrite lookup_ge_None_2 //.
           assert (¬ fbn < nblk n) as Hnu.
           { rewrite -(used_slot _ _ Hf0) -(ho_dom _ _ _ _ Hc) E. by intros [? ?]. }
           rewrite -Eo in Hnu. rewrite /nblk in Hnu. Z.to_euclidean_division_equations. lia.
      * assert (0 ≤ o / 512) as Ho5 by (apply Z.div_pos; lia).
        assert (slot (o / 512) ≠ slot fbn) as Hslot by (intros H%slot_inj; lia).
        rewrite (Hblk2 _ _ Hb); [congruence|].
        assert (slot (o / 512) ≠ 12) by (destruct (slot_spec (o / 512) Ho5); lia).
        rewrite Hsame // in Hb; [by right|]. rewrite (Hblk _ _ Hb); [congruence|].
        rewrite (ho_data _ _ _ _ Hc o b Ho Hb).
        assert (o / 512 < nblk n) as Hlt.
        { rewrite -(used_slot _ _ Ho5) -(ho_dom _ _ _ _ Hc). eauto. }
        rewrite lookup_app_l //. unfold nblk, fbn in *. Z.to_euclidean_division_equations. lia.
Qed.

Lemma iappend_loop fuel P s i d c p :
  lay P s → holds P i c s → dn_addrs d = addrs P i → (length p < fuel)%nat →
  Z.of_nat (length c + length p) ≤ MAXFILE * 512 →
  freeblock s + cost (Z.of_nat (length c + length p)) - cost (Z.of_nat (length c)) ≤ FSSIZE →
  ∃ P' s', loop fuel iappend_step (d, Z.of_nat (length c), p) s =
      Ok (with_addrs (addrs P' i) d, Z.of_nat (length c + length p)) s' ∧
    lay P' s' ∧ holds P' i (c ++ p) s' ∧ others i P s P' s' ∧
    freeblock s' = freeblock s + cost (Z.of_nat (length c + length p)) - cost (Z.of_nat (length c)).
Proof.
  revert P s d c p. induction fuel as [|fuel IH]; intros P s d c p HL Hc Hd Hfuel Hmax Hroom; [lia|].
  destruct (decide (p = [])) as [->|Hp].
  { exists P, s. rewrite app_nil_r Nat.add_0_r. split_and!; [|done|done|apply others_refl|lia].
    rewrite (with_addrs_id d) //. }
  set (n1 := Z.min (Z.of_nat (length p)) (512 - Z.of_nat (length c) mod 512)) in *.
  assert (0 < length p)%nat as Hlp by (destruct p; [done|simpl; lia]).
  assert (cost (Z.of_nat (length c) + n1) ≤ cost (Z.of_nat (length c + length p))) as Hmono by (apply cost_mono; lia).
  destruct (iappend_step_Ok P s i d c p) as (P1 & s1 & Hrun & HL1 & Hc1 & Ho1 & Hfb1 & Hpos); [done|done|done|done| | |].
  { change MAXFILE with 140 in *. Z.to_euclidean_division_equations. lia. }
  { fold n1. lia. }
  fold n1 in Hrun, Hc1, Hfb1, Hpos. rewrite (loop_S _ _ _ _ _ _ Hrun).
  assert (Z.of_nat (length (c ++ take (Z.to_nat n1) p)) = Z.of_nat (length c) + n1) as El by (rewrite length_app length_take; lia).
  assert (length (c ++ take (Z.to_nat n1) p) + length (drop (Z.to_nat n1) p) = length c + length p)%nat as El2
    by (rewrite length_app length_take length_drop; lia).
  destruct (IH P1 s1 (with_addrs (addrs P1 i) d) (c ++ take (Z.to_nat n1) p) (drop (Z.to_nat n1) p))
    as (P2 & s2 & Hrun2 & HL2 & Hc2 & Ho2 & Hfb2); [done|done|done|rewrite length_drop; lia|by rewrite El2|rewrite El2 El; lia|].
  rewrite El El2 in Hrun2, Hfb2. exists P2, s2. split_and!; [by rewrite Hrun2|done| |by apply (others_trans _ _ _ P1 s1)|lia].
  by rewrite -app_assoc take_drop in Hc2.
Qed.

(** ** The image under construction *)

(** The files made so far, by inode number from 1: type and contents. *)
Notation files := (list (Z * list Z)).

Definition fcost (f : Z * list Z) : Z := cost (Z.of_nat (length f.2)).
Definition total (fs : files) : Z := foldr (λ f n, fcost f + n) 0 fs.
Definition no_inode : dinode := Dinode 0 0 0 0 0 (replicate (S NDIRECT) 0).

Record built (P : layout) (fs : files) (s : mkst) : Prop := {
  bu_lay : lay P s;
  bu_freeinode : freeinode s = Z.of_nat (length fs) + 1;
  bu_inodes : freeinode s ≤ NINODES;
  bu_freeblock : freeblock s = nmeta + total fs;
  bu_dom i j : is_Some (P !! (i, j)) → 1 ≤ i < freeinode s;
  bu_file k ty c : fs !! k = Some (ty, c) →
    holds P (Z.of_nat k + 1) c s ∧
    disk_inode s (Z.of_nat k + 1) = Dinode ty 0 0 1 (Z.of_nat (length c)) (addrs P (Z.of_nat k + 1)) ∧
    0 ≤ ty < 2 ^ 16 ∧ Z.of_nat (length c) ≤ MAXFILE * 512;
  bu_none i : freeinode s ≤ i < NINODES → disk_inode s i = no_inode;
  bu_sb : blk s 1 = set_bytes 0 (sb_bytes mksb) zeroes;
  bu_meta b : b = 0 ∨ 2 ≤ b < 32 ∨ b = 58 → blk s b = zeroes
}.

Lemma cost_nonneg n : 0 ≤ n → 0 ≤ cost n.
Proof. intros H. rewrite /cost. assert (0 ≤ nblk n) by (apply Z.div_pos; lia). destruct (12 <? nblk n); lia. Qed.

Lemma total_insert fs k f f' : fs !! k = Some f → total (<[k := f']> fs) = total fs + fcost f' - fcost f.
Proof.
  revert k. induction fs as [|g fs IH]; intros [|k] Hk; simplify_eq/=; [lia|]. rewrite (IH k Hk). lia.
Qed.

Lemma total_cons f fs : total (f :: fs) = fcost f + total fs.
Proof. done. Qed.

Lemma total_app fs fs' : total (fs ++ fs') = total fs + total fs'.
Proof. induction fs as [|g fs IH]; simpl; [done|]. rewrite IH. lia. Qed.

Lemma addrs_range P s i : lay P s → Forall (λ a, 0 ≤ a < 2 ^ 32) (addrs P i).
Proof.
  intros HL. apply Forall_fmap, Forall_true. intros k. rewrite /compose.
  destruct (P !! (i, Z.of_nat k)) as [b|] eqn:E; cbn [default from_option id]; [|lia].
  pose proof (la_range _ _ HL _ _ E) as Hr. pose proof (la_bound _ _ HL) as Hb. rewrite nmeta_eq in Hr. rewrite /FSSIZE in Hb. lia.
Qed.

(** Writing an inode changes no block of a file. *)
Lemma lay_winoded P s i d : 0 ≤ i < NINODES → lay P s → lay P (winoded i d s).
Proof.
  intros Hi [Hs Hr Hinj Hb Hf Hind Hneed]. split; try done.
  - by apply winoded_sectors.
  - intros b Hb'. change (freeblock (winoded i d s)) with (freeblock s) in Hb'. rewrite nmeta_eq in Hb. rewrite blk_winoded //; [lia|]. by apply Hf.
  - intros i' b k Hb' Hk. pose proof (Hr _ _ Hb') as Hr'. rewrite nmeta_eq in Hr'. rewrite blk_winoded //; [lia|]. by apply (Hind i').
Qed.

Lemma holds_winoded P s i d i' c : 0 ≤ i < NINODES → lay P s → holds P i' c s → holds P i' c (winoded i d s).
Proof.
  intros Hi HL [Hd Hdata]. split; [done|]. intros o b Ho Hb. pose proof (la_range _ _ HL _ _ Hb) as Hr.
  rewrite nmeta_eq in Hr. rewrite blk_winoded //; [lia|]. by apply Hdata.
Qed.

Lemma holds_others i i' P s P' s' c : i' ≠ i → others i P s P' s' → holds P i' c s → holds P' i' c s'.
Proof.
  intros Hne [Hsl Hsub Hm Hb _] [Hd Hdata]. split.
  - intros j. by rewrite Hsl.
  - intros o b Ho E. rewrite Hsl // in E. rewrite (Hb _ _ E) //. by apply Hdata.
Qed.

Lemma addrs_others i i' P s P' s' : i' ≠ i → others i P s P' s' → addrs P' i' = addrs P i'.
Proof. intros Hne Ho. apply list_fmap_ext. intros k j _. by rewrite (ot_slots _ _ _ _ _ Ho). Qed.

Lemma disk_inode_others i P s P' s' k : 0 ≤ k < NINODES → others i P s P' s' → disk_inode s' k = disk_inode s k.
Proof.
  intros Hk Ho. destruct (iblock_eq k) as [E ?]; [lia|lia|]. rewrite /disk_inode (ot_meta _ _ _ _ _ Ho) //. rewrite E nmeta_eq. lia.
Qed.

Lemma iappend_Ok P fs s k ty c p :
  built P fs s → fs !! k = Some (ty, c) → Z.of_nat (length c + length p) ≤ MAXFILE * 512 →
  nmeta + total (<[k := (ty, c ++ p)]> fs) ≤ FSSIZE →
  ∃ P' s', iappend (Z.of_nat k + 1) p s = Ok tt s' ∧ built P' (<[k := (ty, c ++ p)]> fs) s'.
Proof.
  intros HB Hk Hmax Hroom. set (i := Z.of_nat k + 1). pose proof HB as [HL Hfi Hin Hfb Hdom Hfile Hnone Hsb Hmeta].
  destruct (Hfile _ _ _ Hk) as (Hc & Hdi & Hty & Hlc). fold i in Hc, Hdi. pose proof (lookup_lt_Some _ _ _ Hk) as Hlt.
  assert (0 ≤ i < NINODES) as Hi by lia. rewrite (total_insert _ _ _ _ Hk) /fcost length_app /= in Hroom |- *.
  change (MAXFILE * 512) with 71680 in *.
  destruct (iappend_loop (S (length p)) P s i (disk_inode s i) c p HL Hc) as (P' & s1 & Hrun & HL1 & Hc1 & Ho & Hfb1);
    [by rewrite Hdi|lia|done|lia|].
  set (d := Dinode ty 0 0 1 (Z.of_nat (length (c ++ p))) (addrs P' i)).
  assert (iappend i p s = Ok tt (winoded i d s1)) as Hall.
  { rewrite /iappend (bind_Ok _ _ _ _ _ (rinode_Ok i s (la_sec _ _ HL) Hi)).
    rewrite {2}Hdi. cbn [dn_size]. rewrite xint_id; [lia|]. rewrite (bind_Ok _ _ _ _ _ Hrun).
    rewrite winode_Ok; [apply HL1|done|]. rewrite Hdi xint_id; [lia|]. by rewrite /d length_app. }
  assert (dinode_ok d) as Hd.
  { split; cbn [dn_type dn_major dn_minor dn_nlink dn_size dn_addrs d]; [done|lia|lia|lia|rewrite length_app; lia|done|by apply (addrs_range _ s1)]. }
  exists P', (winoded i d s1). split; [done|]. pose proof (ot_freeinode _ _ _ _ _ Ho) as Efi. split.
  - by apply lay_winoded.
  - by rewrite length_insert /= Efi.
  - by rewrite /= Efi.
  - rewrite (total_insert _ _ _ _ Hk) /fcost length_app /= Hfb1 Hfb. lia.
  - intros i' j Hs. change (freeinode (winoded i d s1)) with (freeinode s1). rewrite Efi. destruct (decide (i' = i)) as [->|Hne]; [lia|].
    rewrite (ot_slots _ _ _ _ _ Ho) // in Hs. by apply (Hdom i' j).
  - intros k' ty' c' Hk'. apply list_lookup_insert_Some in Hk' as [(-> & [= <- <-] & _)|[Hne Hk']].
    + fold i. split_and!; [by apply holds_winoded|apply disk_inode_winoded; [apply HL1|done]|lia|lia|rewrite length_app; change (MAXFILE * 512) with 71680; lia].
    + destruct (Hfile _ _ _ Hk') as (Hc' & Hdi' & ? & ?). pose proof (lookup_lt_Some _ _ _ Hk').
      assert (Z.of_nat k' + 1 ≠ i) as Hni by lia. split_and!; [|rewrite disk_inode_other //; [lia|lia|]|lia|lia|done].
      * apply holds_winoded; [done|done|]. by apply (holds_others i _ P s).
      * rewrite (disk_inode_others i P s P') //; [lia|]. rewrite Hdi'. by rewrite (addrs_others i _ P s P' s1).
  - intros i' Hi'. change (freeinode (winoded i d s1)) with (freeinode s1) in Hi'. rewrite Efi Hfi in Hi'.
    rewrite disk_inode_other //; [lia|lia|].
    rewrite (disk_inode_others i P s P') //; [lia|]. apply Hnone. lia.
  - rewrite blk_winoded //; [lia|]. rewrite (ot_meta _ _ _ _ _ Ho) //.
  - intros b Hb. rewrite blk_winoded //; [lia|]. rewrite (ot_meta _ _ _ _ _ Ho); [rewrite nmeta_eq; lia|]. by apply Hmeta.
Qed.

Lemma ialloc_Ok P fs s ty :
  built P fs s → freeinode s < NINODES → 0 ≤ ty < 2 ^ 16 →
  ∃ s', ialloc ty s = Ok (Z.of_nat (length fs) + 1) s' ∧ built P (fs ++ [(ty, [])]) s'.
Proof.
  intros HB Hlt Hty. pose proof HB as [HL Hfi Hin Hfb Hdom Hfile Hnone Hsb Hmeta].
  set (i := freeinode s) in *. set (d := Dinode ty 0 0 1 0 (replicate (S NDIRECT) 0)).
  assert (0 ≤ i < NINODES) as Hi by lia. assert (NINODES = 200) as HN by done.
  set (s1 := set_freeinode (i + 1) s). assert (sectors s1) as Hs1 by by destruct (la_sec _ _ HL).
  assert (lay P s1) as HL1 by by destruct HL. assert (dinode_ok d) as Hd.
  { split; cbn [dn_type dn_major dn_minor dn_nlink dn_size dn_addrs d]; [done|lia|lia|lia|lia|done|].
    apply Forall_replicate. lia. }
  assert (∀ j, P !! (i, j) = None) as HP.
  { intros j. destruct (P !! (i, j)) eqn:E; [|done]. assert (1 ≤ i < i) by (apply (Hdom i j); eauto). lia. }
  exists (winoded i d s1). split.
  { rewrite /ialloc bind_gets bind_modify. fold i. rewrite /u32 Z.mod_small; [lia|]. fold s1.
    rewrite xshort_id //. change (Dinode ty 0 0 (xshort 1) (xint 0) (replicate (S NDIRECT) 0)) with d.
    rewrite (bind_Ok _ _ _ _ _ (winode_Ok i d s1 Hs1 Hi)). by rewrite Hfi. }
  split; [by apply lay_winoded| | | | | | | |]; try change (freeinode (winoded i d s1)) with (i + 1).
  - rewrite length_app /=. lia.
  - lia.
  - rewrite total_app. change (total [(ty, [])]) with 0. change (freeblock (winoded i d s1)) with (freeblock s). lia.
  - intros i' j Hs. specialize (Hdom _ _ Hs). lia.
  - intros k ty' c' Hk. apply lookup_app_Some in Hk as [Hk|[Hk1 Hk]].
    + destruct (Hfile _ _ _ Hk) as (Hc & Hdi & ? & ?). pose proof (lookup_lt_Some _ _ _ Hk).
      split_and!; [|rewrite disk_inode_other //; [lia|lia]|lia|lia|done]. apply holds_winoded; [done|done|]. by destruct Hc.
    + apply list_lookup_singleton_Some in Hk as [Hk0 [= <- <-]]. replace (Z.of_nat k + 1) with i by lia.
      split_and!; [|rewrite disk_inode_winoded //|lia|lia|done].
      * split; [|intros o b _; by rewrite HP]. intros j. rewrite HP /used. change (nblk (Z.of_nat (length []))) with 0. split; [by intros [? ?]|lia].
      * rewrite /d /addrs. f_equal. apply list_eq_same_length with (n := S NDIRECT); [done|done|].
        intros j x y Hj Hx Hy. apply lookup_replicate in Hx as [-> _]. rewrite list_lookup_fmap lookup_seq_lt // in Hy. injection Hy as <-. by rewrite HP.
  - intros j Hj. rewrite disk_inode_other //; [lia|lia|]. apply Hnone. lia.
  - by rewrite blk_winoded; [done|lia|].
  - intros b Hb. rewrite blk_winoded //; [lia|]. by apply Hmeta.
Qed.

(** ** The files of the command line *)

Lemma fcost_app ty c p : fcost (ty, c) ≤ fcost (ty, c ++ p).
Proof. apply cost_mono. simpl. rewrite length_app. lia. Qed.

Lemma total_nonneg fs : 0 ≤ total fs.
Proof. induction fs as [|f fs IH]; simpl; [lia|]. pose proof (cost_nonneg (Z.of_nat (length f.2))). rewrite /fcost. lia. Qed.

Lemma appends_Ok ls : ∀ P fs s k ty c,
  built P fs s → fs !! k = Some (ty, c) → Z.of_nat (length c + length (concat ls)) ≤ MAXFILE * 512 →
  nmeta + total (<[k := (ty, c ++ concat ls)]> fs) ≤ FSSIZE →
  ∃ P' s', for_each ls (iappend (Z.of_nat k + 1)) s = Ok tt s' ∧ built P' (<[k := (ty, c ++ concat ls)]> fs) s'.
Proof.
  induction ls as [|p ls IH]; intros P fs s k ty c HB Hk Hmax Hroom; cbn [concat] in *.
  { rewrite app_nil_r list_insert_id //. eauto. }
  rewrite length_app in Hmax. rewrite (total_insert _ _ _ _ Hk) in Hroom. rewrite app_assoc in Hroom |- *.
  pose proof (fcost_app ty (c ++ p) (concat ls)). pose proof (lookup_lt_Some _ _ _ Hk).
  destruct (iappend_Ok P fs s k ty c p) as (P1 & s1 & Hrun & HB1); [done|done|lia|rewrite (total_insert _ _ _ _ Hk); lia|].
  assert (<[k := (ty, c ++ p)]> fs !! k = Some (ty, c ++ p)) as Hk1 by by rewrite list_lookup_insert_eq.
  destruct (IH _ _ _ _ _ _ HB1 Hk1) as (P2 & s2 & Hrun2 & HB2).
  - rewrite length_app. lia.
  - rewrite list_insert_insert_eq (total_insert _ _ _ _ Hk). lia.
  - exists P2, s2. cbn [for_each]. rewrite (bind_Ok _ _ _ _ _ Hrun). rewrite list_insert_insert_eq in HB2. done.
Qed.

Lemma concat_reads fuel l : (length l < fuel)%nat → concat (reads fuel l) = l.
Proof.
  revert l. induction fuel as [|fuel IH]; intros l Hl; [lia|]. destruct l as [|x l]; [done|].
  cbn [reads concat]. rewrite IH; [rewrite length_drop; simpl in *; lia|]. by rewrite take_drop.
Qed.

Section files.
Context (host : list Z → option (list Z)).

(** The directory entries of the files, the first with inode number [k]. *)
Fixpoint dirents (k : Z) (args : list (list Z)) : list Z :=
  match args with [] => [] | a :: r => dirent_for k (strip a) ++ dirents (k + 1) r end.

Definition host_files (args : list (list Z)) : files := (λ a, (T_FILE, default [] (host a))) <$> args.

(** A file mkfs accepts: named without a slash, readable, and not too large. *)
Definition usable (a : list Z) : Prop :=
  slash ∉ a ∧ ∃ c, host a = Some c ∧ Z.of_nat (length c) ≤ MAXFILE * BSIZE.

Lemma length_dirent_for k n : length (dirent_for k n) = 16%nat.
Proof.
  rewrite /dirent_for /dirent_bytes length_app. cbn [de_name]. rewrite /dirname length_take length_app length_replicate. change DIRSIZ with 14%nat.
  change (length (le2 _)) with 2%nat. lia.
Qed.

Lemma length_dirents k args : length (dirents k args) = (16 * length args)%nat.
Proof. revert k. induction args as [|a args IH]; intros k; cbn [dirents]; [done|]. rewrite length_app length_dirent_for IH /=. lia. Qed.

Lemma add_file_Ok P s d rest a :
  let fs := (T_DIR, d ++ dirent_for (Z.of_nat (length rest) + 2) (strip a)) :: rest ++ host_files [a] in
  built P ((T_DIR, d) :: rest) s → usable a → freeinode s < NINODES → Z.of_nat (length d + 16) ≤ MAXFILE * 512 →
  nmeta + total fs ≤ FSSIZE →
  ∃ P' s', add_file host 1 a s = Ok tt s' ∧ built P' fs s'.
Proof.
  intros fs HB [Hsl (c & Hc & Hlc)] Hfi Hd Hroom. subst fs. rewrite /host_files /= Hc in Hroom |- *.
  set (de := dirent_for _ _) in *. rewrite total_app /= in Hroom. rewrite /add_file Hc bool_decide_eq_false_2 //. cbn [negb]. rewrite bind_ret.
  destruct (ialloc_Ok P _ s T_FILE HB Hfi) as (s1 & Hrun1 & HB1); [done|]. rewrite (bind_Ok _ _ _ _ _ Hrun1).
  replace (Z.of_nat (length ((T_DIR, d) :: rest)) + 1) with (Z.of_nat (length rest) + 2) by (simpl; lia). fold de.
  pose proof (cost_nonneg (Z.of_nat (length c))). assert (fcost (T_FILE, c) = cost (Z.of_nat (length c))) as Ec by done.
  destruct (iappend_Ok P _ s1 0 T_DIR d de HB1 eq_refl) as (P2 & s2 & Hrun2 & HB2).
  { rewrite length_dirent_for. lia. }
  { rewrite /= total_app /=. change (fcost (T_FILE, [])) with 0. lia. }
  change (Z.of_nat 0 + 1) with 1 in Hrun2. rewrite (bind_Ok _ _ _ _ _ Hrun2). cbn [app insert list_insert] in HB2.
  destruct (appends_Ok (reads (S (length c)) c) P2 _ s2 (S (length rest)) T_FILE [] HB2) as (P3 & s3 & Hrun3 & HB3).
  - by rewrite /= lookup_app_r // Nat.sub_diag.
  - rewrite concat_reads; [lia|done].
  - rewrite concat_reads; [lia|]. cbn [insert list_insert]. rewrite insert_app_r_alt // Nat.sub_diag /= total_app /=. lia.
  - exists P3, s3. split.
    + rewrite -Hrun3. do 2 f_equal. lia.
    + rewrite concat_reads in HB3; [lia|]. cbn [insert list_insert] in HB3. rewrite insert_app_r_alt // Nat.sub_diag in HB3. exact HB3.
Qed.

Lemma add_files_Ok args : ∀ P s d rest,
  let fs := (T_DIR, d ++ dirents (Z.of_nat (length rest) + 2) args) :: rest ++ host_files args in
  built P ((T_DIR, d) :: rest) s → Forall usable args → Z.of_nat (length rest + length args) + 2 ≤ NINODES →
  Z.of_nat (length d + 16 * length args) ≤ MAXFILE * 512 → nmeta + total fs ≤ FSSIZE →
  ∃ P' s', for_each args (add_file host 1) s = Ok tt s' ∧ built P' fs s'.
Proof.
  induction args as [|a args IH]; intros P s d rest fs HB HU Hn Hd Hroom; subst fs.
  { rewrite /= !app_nil_r. eauto. }
  apply Forall_cons in HU as [Ha HU]. cbn [dirents host_files fmap list_fmap length] in *.
  set (de := dirent_for _ _) in *. set (f := (T_FILE, default [] (host a))) in *. fold (host_files args) in *.
  rewrite (app_assoc d) in Hroom |- *. rewrite (cons_middle f rest) (app_assoc rest) in Hroom |- *.
  pose proof (fcost_app T_DIR (d ++ de) (dirents (Z.of_nat (length rest) + 2 + 1) args)).
  rewrite total_cons total_app in Hroom. pose proof (total_nonneg (host_files args)).
  pose proof (bu_freeinode _ _ _ HB) as Hfi. cbn [length] in Hfi.
  destruct (add_file_Ok P s d rest a) as (P1 & s1 & Hrun1 & HB1); [done|done|lia|lia| |].
  { change (host_files [a]) with [f]. fold de. rewrite total_cons. lia. }
  fold de in HB1. change (host_files [a]) with [f] in HB1.
  assert (Z.of_nat (length (rest ++ [f])) + 2 = Z.of_nat (length rest) + 2 + 1) as El by (rewrite length_app /=; lia).
  destruct (IH P1 s1 (d ++ de) (rest ++ [f])) as (P2 & s2 & Hrun2 & HB2); [done|done| | | |].
  - rewrite length_app /=. lia.
  - rewrite length_app length_dirent_for. lia.
  - rewrite El. rewrite total_cons total_app. lia.
  - exists P2, s2. cbn [for_each]. rewrite (bind_Ok _ _ _ _ _ Hrun1). by rewrite El in HB2.
Qed.

End files.

(** The image cleared, with its superblock. *)
Lemma cleared n s :
  ∃ m, for_each (seq 0 n) (λ i, wsect (Z.of_nat i) zeroes) s = Ok tt (set_img m s) ∧
    ∀ b, m !! b = if bool_decide (0 ≤ b < Z.of_nat n) then Some zeroes else img s !! b.
Proof.
  induction n as [|n (m & Hm & Hb)].
  - exists (img s). split; [by destruct s|]. intros b. by rewrite bool_decide_eq_false_2; [lia|].
  - exists (<[Z.of_nat n := zeroes]> m). rewrite seq_S (for_each_app _ _ _ _ _ Hm). split; [done|].
    intros b. destruct (decide (b = Z.of_nat n)) as [->|Hne].
    + rewrite lookup_insert_eq bool_decide_eq_true_2 //. lia.
    + rewrite lookup_insert_ne; [congruence|]. rewrite Hb. do 2 case_bool_decide; done || lia.
Qed.

Lemma built_start m out :
  (∀ b, m !! b = if bool_decide (0 ≤ b < FSSIZE) then Some zeroes else None) →
  built ∅ [] (wrote 1 (set_bytes 0 (sb_bytes mksb) zeroes) (Mkst m 1 nmeta out)).
Proof.
  intros Hm. set (s0 := Mkst m 1 nmeta out). set (sb := set_bytes 0 (sb_bytes mksb) zeroes).
  assert (sectors s0) as Hs0.
  { split; [intros b|intros b d]; rewrite /s0 /= Hm; case_bool_decide as E.
    - split; [done|eauto].
    - split; [by intros [? ?]|done].
    - by intros [= <-].
    - done. }
  assert (∀ b, b ≠ 1 → blk (wrote 1 sb s0) b = zeroes) as Hz.
  { intros b Hb. rewrite blk_wrote bool_decide_eq_false_2 //. rewrite /blk /s0 /= Hm. by case_bool_decide. }
  split; [split|..]; try done.
  - by apply sectors_wrote.
  - intros b Hb. apply Hz. change (59 ≤ b < FSSIZE) in Hb. lia.
  - intros i j. rewrite lookup_empty. by intros [? ?].
  - intros i Hi. cbn [freeinode wrote set_img s0] in Hi. destruct (iblock_eq i) as [E ?]; [lia|lia|].
    rewrite /disk_inode Hz; [lia|]. rewrite /dinode_at /get16 get32_zeroes !get8_zeroes. rewrite /no_inode. f_equal.
    apply list_eq_same_length with (n := S NDIRECT); [done|done|]. intros j x y Hj Hx Hy.
    rewrite list_lookup_fmap lookup_seq_lt // in Hx. injection Hx as <-. rewrite get32_zeroes.
    by apply lookup_replicate in Hy as [-> _].
  - by rewrite blk_wrote bool_decide_eq_true_2.
  - intros b Hb. apply Hz. lia.
Qed.

(** ** The bitmap *)

Lemma land_bit v n : 0 ≤ n → (Z.land v (Z.shiftl 1 n) =? 0) = negb (Z.testbit v n).
Proof.
  intros Hn. destruct (Z.testbit v n) eqn:E; cbn [negb].
  - apply Z.eqb_neq. intros H0. assert (Z.testbit (Z.land v (Z.shiftl 1 n)) n = true) as H; [|by rewrite H0 Z.bits_0 in H].
    by rewrite Z.land_spec E Z.shiftl_spec // Z.sub_diag.
  - apply Z.eqb_eq, Z.bits_inj'. intros k Hk. rewrite Z.bits_0 Z.land_spec Z.shiftl_spec //.
    destruct (decide (k = n)) as [->|Hne]; [by rewrite E|].
    destruct (Z.testbit 1 (k - n)) eqn:E1; [|by rewrite andb_false_r].
    change 1 with (2 ^ 0) in E1. rewrite Z.pow2_bits_eqb in E1; lia.
Qed.

Lemma length_marks n : length (foldl mark zeroes (seq 0 n)) = 512%nat.
Proof. induction n as [|n IH]; [done|]. by rewrite seq_S foldl_app /= /mark length_insert. Qed.

(** Bit [b] of the block balloc() writes. *)
Lemma mark_bits n b :
  (n ≤ 4096)%nat → (b < 4096)%nat →
  Z.testbit (get8 (b / 8) (foldl mark zeroes (seq 0 n))) (Z.of_nat (b mod 8)) = bool_decide (b < n)%nat.
Proof.
  intros Hn Hb. induction n as [|n IH].
  { rewrite get8_zeroes Z.bits_0 bool_decide_eq_false_2 //. lia. }
  rewrite seq_S foldl_app. cbn [foldl Nat.add]. rewrite {1}/mark. set (d := foldl mark zeroes (seq 0 n)) in *.
  assert (n / 8 < 512)%nat as Hn8 by (apply Nat.Div0.div_lt_upper_bound; lia). assert (length d = 512%nat) as Hd by apply length_marks.
  specialize (IH ltac:(lia)). pose proof (Nat.div_mod_eq b 8) as Eb. pose proof (Nat.div_mod_eq n 8) as En.
  destruct (decide (b / 8 = n / 8)%nat) as [E|E].
  - rewrite {1}/get8 E list_lookup_insert_eq; [lia|]. cbn [default from_option id].
    rewrite Z.lor_spec -E IH Z.shiftl_spec; [lia|].
    destruct (decide (b = n)) as [->|Hne].
    + by rewrite Z.sub_diag orb_true_r bool_decide_eq_true_2; [lia|].
    + replace (Z.testbit 1 (Z.of_nat (b mod 8) - Z.of_nat (n mod 8))) with false.
      * rewrite orb_false_r. apply bool_decide_ext. lia.
      * symmetry. change 1 with (2 ^ 0). rewrite Z.pow2_bits_false //. lia.
  - rewrite {1}/get8 list_lookup_insert_ne; [congruence|]. fold (get8 (b / 8) d). rewrite IH.
    apply bool_decide_ext. assert (b ≠ n) by congruence. lia.
Qed.

(** As the kernel's balloc() tests it. *)
Lemma bitmap_bit n b :
  0 ≤ n ≤ 4096 → 0 ≤ b < 4096 →
  (Z.land (get8 (bit_byte b) (foldl mark zeroes (seq 0 (Z.to_nat n)))) (bit_mask b) =? 0) = bool_decide (n ≤ b).
Proof.
  intros Hn Hb. rewrite /bit_mask land_bit; [by apply Z.mod_pos_bound|]. rewrite /bit_byte.
  assert (Z.to_nat (b / 8) = (Z.to_nat b / 8)%nat) as -> by (rewrite Z2Nat.inj_div; [lia..|done]).
  assert (b mod 8 = Z.of_nat (Z.to_nat b mod 8)) as -> by (rewrite Nat2Z.inj_mod Z2Nat.id; [lia|done]).
  rewrite mark_bits; [lia|lia|]. case_bool_decide; case_bool_decide; done || lia.
Qed.

(** ** The finished image *)

(** The files of the image: the root directory, then those of the command line. *)
Definition image (host : list Z → option (list Z)) (args : list (list Z)) : files :=
  (T_DIR, (dirent_for 1 (chars ".") ++ dirent_for 1 (chars "..")) ++ dirents 2 args) :: host_files host args.

(** What the image has room for. *)
Record fits (host : list Z → option (list Z)) (args : list (list Z)) : Prop := {
  ft_usable : Forall (usable host) args;
  ft_inodes : Z.of_nat (length args) + 2 ≤ NINODES;
  ft_blocks : nmeta + total (image host args) ≤ FSSIZE
}.

(** The size of file [k] on the image: that of the root directory is rounded. *)
Definition disk_size (k : nat) (c : list Z) : Z :=
  let n := Z.of_nat (length c) in
  match k with O => (n / BSIZE + 1) * BSIZE | _ => n end.

Record finished (P : layout) (fs : files) (m : mkst) : Prop := {
  fi_lay : lay P m;
  fi_file k ty c : fs !! k = Some (ty, c) →
    holds P (Z.of_nat k + 1) c m ∧
    disk_inode m (Z.of_nat k + 1) = Dinode ty 0 0 1 (disk_size k c) (addrs P (Z.of_nat k + 1)) ∧
    0 ≤ ty < 2 ^ 16 ∧ Z.of_nat (length c) ≤ MAXFILE * 512;
  fi_none i : Z.of_nat (length fs) < i < NINODES → disk_inode m i = no_inode;
  fi_inodes : Z.of_nat (length fs) < NINODES;
  fi_sb : blk m 1 = set_bytes 0 (sb_bytes mksb) zeroes;
  fi_log b : 2 ≤ b < 32 → blk m b = zeroes;
  fi_bitmap : blk m 58 = foldl mark zeroes (seq 0 (Z.to_nat (freeblock m)))
}.

(** The last steps of main(): the size of the root directory and the bitmap. *)
Lemma finish_image_Ok P fs s d :
  built P fs s → fs !! 0%nat = Some (T_DIR, d) → Z.of_nat (length d) + 512 < 2 ^ 32 →
  ∃ m, (fix_root 1;; b ← gets freeblock; balloc b) s = Ok tt m ∧ finished P fs m.
Proof.
  intros HB H0 Hd. pose proof HB as [HL Hfi Hin Hfb Hdom Hfile Hnone Hsb Hmeta].
  destruct (Hfile _ _ _ H0) as (Hc0 & Hd0 & Hty0 & Hl0). change (Z.of_nat 0 + 1) with 1 in *.
  assert (NINODES = 200) as HN by done. pose proof (lookup_lt_Some _ _ _ H0).
  set (n := disk_size 0 d). assert (0 ≤ n < 2 ^ 32) as Hn.
  { rewrite /n /disk_size. change BSIZE with 512. Z.to_euclidean_division_equations. lia. }
  set (di := Dinode T_DIR 0 0 1 n (addrs P 1)). set (s1 := winoded 1 di s).
  assert (fix_root 1 s = Ok tt s1) as Hfix.
  { rewrite /fix_root (bind_Ok _ _ _ _ _ (rinode_Ok 1 s (la_sec _ _ HL) _)); [lia|]. rewrite Hd0. cbn [dn_size].
    rewrite (xint_id (Z.of_nat (length d))); [lia|]. fold (disk_size 0 d). fold n.
    rewrite /u32 (Z.mod_small n) // xint_id // /set_dn_size. cbn [dn_type dn_major dn_minor dn_nlink dn_addrs].
    rewrite winode_Ok; [apply HL|lia|done]. }
  assert (dinode_ok di) as Hdi.
  { split; cbn [dn_type dn_major dn_minor dn_nlink dn_size dn_addrs di]; [done|lia|lia|lia|done|done|by apply (addrs_range _ s)]. }
  assert (lay P s1) as HL1 by (apply lay_winoded; [lia|done]). pose proof (la_bound _ _ HL) as Hbd. rewrite nmeta_eq /FSSIZE in Hbd.
  set (bm := foldl mark zeroes (seq 0 (Z.to_nat (freeblock s)))).
  eexists (wrote 58 bm (Mkst (img s1) (freeinode s) (freeblock s) _)). split.
  { rewrite (bind_Ok _ _ _ _ _ Hfix) bind_gets /balloc /mk_printf bind_modify. change (freeblock s1) with (freeblock s).
    rewrite /assert_. replace (freeblock s <? BSIZE * 8) with true by (change (BSIZE * 8) with 4096; lia).
    rewrite bind_ret bind_modify. reflexivity. }
  set (s2 := Mkst _ _ _ _).
  assert (∀ b, b ≠ 58 → blk (wrote 58 bm s2) b = blk s1 b) as Hne.
  { intros b Hb. by rewrite blk_wrote bool_decide_eq_false_2. }
  assert (∀ i, 0 ≤ i < NINODES → disk_inode (wrote 58 bm s2) i = disk_inode s1 i) as Hino.
  { intros i Hi. destruct (iblock_eq i) as [E ?]; [lia|lia|]. rewrite /disk_inode Hne //. lia. }
  assert (∀ k b, P !! k = Some b → blk (wrote 58 bm s2) b = blk s1 b) as Hblk.
  { intros k b Hb. apply Hne. pose proof (la_range _ _ HL1 _ _ Hb) as Hr. rewrite nmeta_eq in Hr. lia. }
  split.
  - destruct HL1 as [Hs Hr Hinj Hb Hf Hind Hneed]. split; try done.
    + apply sectors_wrote; [by destruct Hs|done|]. apply length_marks.
    + intros b Hb'. change (freeblock (wrote 58 bm s2)) with (freeblock s) in Hb'. rewrite Hne; [lia|]. by apply Hf.
    + intros i b k Hb' Hk. rewrite (Hblk (i, 12)) //. by apply (Hind i).
  - intros k ty c Hk. destruct (Hfile _ _ _ Hk) as (Hc & Hdk & ? & ?). pose proof (lookup_lt_Some _ _ _ Hk).
    split_and!; [| |lia|lia|done].
    + destruct (holds_winoded P s 1 di _ c ltac:(lia) HL Hc) as [Hdom' Hdata]. split; [done|].
      intros o b Ho Hb. rewrite (Hblk _ _ Hb). by apply Hdata.
    + rewrite Hino; [lia|]. destruct k as [|k].
      * rewrite H0 in Hk. injection Hk as <- <-. apply disk_inode_winoded; [apply HL|done].
      * rewrite disk_inode_other //; lia.
  - intros i Hi. rewrite Hino; [lia|]. rewrite disk_inode_other //; [lia..|]. apply Hnone. lia.
  - lia.
  - rewrite Hne // blk_winoded //; lia.
  - intros b Hb. rewrite Hne; [lia|]. rewrite blk_winoded; [lia|lia|]. apply Hmeta. lia.
  - by rewrite blk_wrote bool_decide_eq_true_2.
Qed.

Lemma mkfs_Ok host args :
  fits host args → ∃ P m, mkfs host args mk_start = Ok tt m ∧ finished P (image host args) m.
Proof.
  intros [HU Hn Hroom]. assert (NINODES = 200) as HN by done. assert (T_DIR = 1) as HT by done.
  rewrite /image in Hroom |- *. set (d1 := dirent_for 1 (chars ".")) in *. set (d2 := dirent_for 1 (chars "..")) in *.
  rewrite total_cons in Hroom. pose proof (total_nonneg (host_files host args)).
  pose proof (fcost_app T_DIR (d1 ++ d2) (dirents 2 args)). pose proof (fcost_app T_DIR d1 d2).
  rewrite /mkfs /mk_printf. rewrite bind_modify. rewrite bind_modify.
  cbn [set_freeblock mk_out img freeinode freeblock mk_start app]. set (out := [(_, _)]). clearbody out.
  destruct (cleared (Z.to_nat FSSIZE) (Mkst ∅ 1 nmeta out)) as (m & Hm & Hb).
  assert (∀ b, m !! b = if bool_decide (0 ≤ b < FSSIZE) then Some zeroes else None) as Hb' by exact Hb.
  rewrite (bind_Ok _ _ _ _ _ Hm) {1}/wsect bind_modify. clear Hm Hb.
  destruct (ialloc_Ok _ _ _ T_DIR (built_start m out Hb')) as (s1 & Hr1 & B1); [done|done|]. rewrite (bind_Ok _ _ _ _ _ Hr1) bind_ret.
  change (Z.of_nat (length []) + 1) with 1. fold d1 d2. change ([] ++ [(T_DIR, [])]) with [(T_DIR, @nil Z)] in B1.
  assert (length d1 = 16%nat) as L1 by apply length_dirent_for. assert (length d2 = 16%nat) as L2 by apply length_dirent_for.
  clearbody d1 d2. change (MAXFILE * 512) with 71680 in *.
  destruct (iappend_Ok _ _ _ 0 T_DIR [] d1 B1 eq_refl) as (P2 & s2 & Hr2 & B2).
  { change (MAXFILE * 512) with 71680. simpl. lia. }
  { change (<[0%nat := (T_DIR, [] ++ d1)]> [(T_DIR, [])]) with [(T_DIR, d1)]. rewrite total_cons. change (total []) with 0. lia. }
  change (<[0%nat := (T_DIR, [] ++ d1)]> [(T_DIR, [])]) with [(T_DIR, d1)] in B2. rewrite (bind_Ok _ _ _ _ _ Hr2).
  destruct (iappend_Ok _ _ _ 0 T_DIR d1 d2 B2 eq_refl) as (P3 & s3 & Hr3 & B3).
  { change (MAXFILE * 512) with 71680. lia. }
  { change (<[0%nat := (T_DIR, d1 ++ d2)]> [(T_DIR, d1)]) with [(T_DIR, d1 ++ d2)]. rewrite total_cons. change (total []) with 0. lia. }
  change (<[0%nat := (T_DIR, d1 ++ d2)]> [(T_DIR, d1)]) with [(T_DIR, d1 ++ d2)] in B3. rewrite (bind_Ok _ _ _ _ _ Hr3).
  destruct (add_files_Ok host args P3 s3 (d1 ++ d2) []) as (P4 & s4 & Hr4 & B4); [done|done|simpl; lia| | |].
  { rewrite length_app L1 L2. change (MAXFILE * 512) with 71680. lia. }
  { rewrite total_cons. exact Hroom. }
  rewrite (bind_Ok _ _ _ _ _ Hr4).
  destruct (finish_image_Ok _ _ _ _ B4 eq_refl) as (m5 & Hr5 & HF).
  { rewrite !length_app L1 L2 length_dirents. lia. }
  eauto.
Qed.
