(* ===== verification/MkfsRead.v ===== *)
(** * Reading the image of mkfs with the kernel

    The kernel's view of a disk that holds the image: the superblock and log header
    it reads at boot, the inodes ilock() loads, the bytes readi() returns, and the
    blocks and inodes its allocators take for free. *)

From S2P Require Import Prelude Param Bytes String State Spinlock Console Sched Sleeplock Bio Memide BioSpec Log LogSpec LogOps Fs FsSpec Mkfs MkfsSpec.

Import Mkfs.

#[local] Arguments Z.div : simpl never.
#[local] Arguments Z.modulo : simpl never.

Lemma sb_of_mksb : sb_of (set_bytes 0 (sb_bytes mksb) zeroes) = Superblock 1000 941 200 30 2 32 58.
Proof. by vm_compute. Qed.

Lemma hd_n_zeroes : hd_n zeroes = 0.
Proof. by vm_compute. Qed.

(** The kernel state [s] sees the disk image [m], with the log where initlog() puts
    it for the image's superblock. *)
Record mounted (m : mkst) (s : kstate) : Prop := {
  mo_ready : fs_ready s;
  mo_blk b : 0 ≤ b < FSSIZE → BioSpec.blk s b = MkfsSpec.blk m b;
  mo_size : dk_size (k_bio s) = FSSIZE;
  mo_start : log_start (k_log s) = sb_logstart mksb;
  mo_nlog : log_size (k_log s) = sb_nlog mksb
}.

(** Slot [ip] of the inode cache holds inode [inum] as ilock() loads it. *)
Record loaded (s : kstate) (ip : nat) (inum : Z) (x : inode) : Prop := {
  ld_slot : inodes s !! ip = Some x;
  ld_dev : i_dev x = 1;
  ld_inum : i_inum x = inum;
  ld_fields : x = load_dinode (BioSpec.blk s (IBLOCK inum mksb)) x
}.

Section view.
Context (P : layout) (fs : files) (m : mkst) (s : kstate).
Context (HF : finished P fs m) (HM : mounted m s).

Lemma inode_block inum : 0 ≤ inum < NINODES →
  BioSpec.blk s (IBLOCK inum mksb) = MkfsSpec.blk m (IBLOCK inum mksb).
Proof. intros Hi. destruct (iblock_eq inum) as [E ?]; [lia|lia|]. apply (mo_blk _ _ HM). rewrite E /FSSIZE. lia. Qed.

Lemma loaded_fields ip k ty c x :
  fs !! k = Some (ty, c) → loaded s ip (Z.of_nat k + 1) x → ty < 2 ^ 15 →
  i_type x = ty ∧ i_nlink x = 1 ∧ i_size x = disk_size k c ∧ i_addrs x = addrs P (Z.of_nat k + 1).
Proof.
  intros Hk [_ _ Hin Hx] Hty. destruct (fi_file _ _ _ HF _ _ _ Hk) as (_ & Hd & Ht & _).
  pose proof (lookup_lt_Some _ _ _ Hk). pose proof (fi_inodes _ _ _ HF).
  rewrite inode_block in Hx; [lia|]. rewrite /load_dinode Hin in Hx. rewrite /disk_inode /dinode_at in Hd.
  set (l := MkfsSpec.blk m (IBLOCK (Z.of_nat k + 1) mksb)) in *. 
  pose proof (f_equal dn_type Hd) as E1. pose proof (f_equal dn_nlink Hd) as E4. pose proof (f_equal dn_size Hd) as E5.
  pose proof (f_equal dn_addrs Hd) as E6. cbn [dn_type dn_nlink dn_size dn_addrs] in E1, E4, E5, E6.
  rewrite Hx. cbn [i_type i_nlink i_size i_addrs]. split_and!.
  - rewrite E1 /s16 /u16 Z.mod_small; [lia|]. by replace (ty <? 2 ^ 15) with true by lia.
  - by rewrite E4.
  - exact E5.
  - exact E6.
Qed.

(** bmap() finds the blocks of the layout. *)
Lemma loaded_block ip k ty c x bn b :
  fs !! k = Some (ty, c) → loaded s ip (Z.of_nat k + 1) x → ty < 2 ^ 15 → 0 ≤ bn < MAXFILE →
  P !! (Z.of_nat k + 1, slot bn) = Some b → file_block s x bn = b.
Proof.
  intros Hk Hx Hty Hbn Hb. destruct (loaded_fields ip k ty c x Hk Hx Hty) as (_ & _ & _ & Ha).
  pose proof (fi_lay _ _ _ HF) as HL. rewrite /file_block /addr_of Ha. change (Z.of_nat NDIRECT) with 12.
  change MAXFILE with 140 in Hbn. destruct (slot_spec bn) as [[Hlt Es]|[Hge Es]]; [lia| |]; rewrite Es in Hb.
  - replace (bn <? 12) with true by lia. rewrite addrs_lookup; [rewrite /NDIRECT; lia|].
    rewrite Z2Nat.id; [lia|]. by rewrite Hb.
  - replace (bn <? 12) with false by lia. rewrite addrs_lookup //. change (Z.of_nat NDIRECT) with 12.
    destruct (la_need _ _ HL (Z.of_nat k + 1) (bn + 1)) as [ib Hib]; [lia|eauto|]. rewrite Hib. cbn [default from_option id].
    pose proof (la_range _ _ HL _ _ Hib) as Hr. pose proof (la_bound _ _ HL). rewrite nmeta_eq in Hr.
    rewrite (mo_blk _ _ HM); [lia|]. rewrite (la_ind _ _ HL _ _ _ Hib); [lia|].
    replace (13 + Z.of_nat (Z.to_nat (bn - 12))) with (bn + 1) by lia. by rewrite Hb.
Qed.

(** The rounded size of the root directory stays inside the blocks it has, unless
    its entries fill their last block. *)
Definition sized (k : nat) (c : list Z) : Prop := k = 0%nat → Z.of_nat (length c) mod 512 ≠ 0.

Lemma size_blocks k c bn :
  sized k c → 0 ≤ bn → bn * 512 < disk_size k c → bn < nblk (Z.of_nat (length c)).
Proof.
  rewrite /sized /disk_size /nblk. change BSIZE with 512. intros Hk Hb. destruct k as [|k].
  - specialize (Hk eq_refl). Z.to_euclidean_division_equations. lia.
  - Z.to_euclidean_division_equations. lia.
Qed.

Lemma size_bounds k c : Z.of_nat (length c) ≤ MAXFILE * 512 → sized k c →
  Z.of_nat (length c) ≤ disk_size k c ≤ MAXFILE * 512.
Proof.
  change (MAXFILE * 512) with 71680. rewrite /sized /disk_size. change BSIZE with 512. intros Hl Hk. destruct k as [|k]; [|lia].
  specialize (Hk eq_refl). Z.to_euclidean_division_equations. lia.
Qed.

Lemma nblk_max n : n ≤ MAXFILE * 512 → nblk n ≤ MAXFILE.
Proof. change MAXFILE with 140. rewrite /nblk. intros. Z.to_euclidean_division_equations. lia. Qed.

(** The block after the last has no address. *)
Lemma unallocated ip k ty c x :
  fs !! k = Some (ty, c) → loaded s ip (Z.of_nat k + 1) x → ty < 2 ^ 15 →
  Z.of_nat (length c) mod 512 = 0 → Z.of_nat (length c) ≤ 16 * NINODES → file_block s x (Z.of_nat (length c) / 512) = 0.
Proof.
  intros Hk Hx Hty Hmod Hlen. destruct (loaded_fields ip k ty c x Hk Hx Hty) as (_ & _ & _ & Ha). rewrite /NINODES in Hlen.
  set (bn := Z.of_nat (length c) / 512). assert (0 ≤ bn < 12 ∧ nblk (Z.of_nat (length c)) = bn) as [Hbn En].
  { rewrite /bn /nblk. Z.to_euclidean_division_equations. lia. }
  rewrite /file_block /addr_of Ha. change (Z.of_nat NDIRECT) with 12. replace (bn <? 12) with true by lia.
  rewrite addrs_lookup; [rewrite /NDIRECT; lia|]. rewrite Z2Nat.id; [lia|].
  destruct (P !! (Z.of_nat k + 1, bn)) eqn:E; [|done]. exfalso. destruct (fi_file _ _ _ HF _ _ _ Hk) as (Hc & _).
  pose proof (proj1 (ho_dom _ _ _ _ Hc bn) (ex_intro _ _ E)) as Hu. rewrite /used En in Hu. lia.
Qed.

(** The block of file [k] that holds its block [bn]. *)
Lemma has_block k ty c bn :
  fs !! k = Some (ty, c) → 0 ≤ bn < nblk (Z.of_nat (length c)) → is_Some (P !! (Z.of_nat k + 1, slot bn)).
Proof.
  intros Hk Hb. destruct (fi_file _ _ _ HF _ _ _ Hk) as (Hc & _). apply (ho_dom _ _ _ _ Hc), used_slot; lia.
Qed.

Lemma layout_data k b : P !! k = Some b → data_block s b.
Proof.
  intros Hb. pose proof (fi_lay _ _ _ HF) as HL. pose proof (la_range _ _ HL _ _ Hb) as Hr. pose proof (la_bound _ _ HL).
  rewrite nmeta_eq in Hr. split_and!; [lia| |].
  - rewrite /on_disk (mo_size _ _ HM). lia.
  - rewrite /in_log (mo_start _ _ HM) (mo_nlog _ _ HM). change (sb_logstart mksb) with 2. change (sb_nlog mksb) with 30. lia.
Qed.

Lemma loaded_ok ip k ty c x :
  fs !! k = Some (ty, c) → loaded s ip (Z.of_nat k + 1) x → ty < T_DEV → sized k c → file_ok s ip x.
Proof.
  intros Hk Hx Hty Hsz. change T_DEV with 3 in Hty. pose proof (fi_lay _ _ _ HF) as HL. assert (ty < 2 ^ 15) as Hty' by lia.
  destruct (loaded_fields ip k ty c x Hk Hx Hty') as (Et & _ & Es & Ea).
  destruct (fi_file _ _ _ HF _ _ _ Hk) as (Hc & _ & _ & Hlc).
  pose proof (size_bounds k c Hlc Hsz) as Hb. pose proof (nblk_max _ Hlc) as Hn.
  assert (∀ bn, 0 ≤ bn → bn * BSIZE < i_size x → P !! (Z.of_nat k + 1, slot bn) = Some (file_block s x bn) ∧ bn < MAXFILE) as HB.
  { intros bn H0 H1. rewrite Es in H1. pose proof (size_blocks k c bn Hsz H0 H1) as H2.
    destruct (has_block k ty c bn Hk) as [b E]; [lia|]. rewrite (loaded_block ip k ty c x bn b) //; [lia|]. split; [done|lia]. }
  split; [apply Hx|apply Hx| | | | |].
  - rewrite Et. change T_DEV with 3. lia.
  - rewrite Es. change BSIZE with 512. lia.
  - intros bn H0 H1. destruct (HB bn H0 H1) as [E _]. by apply layout_data in E.
  - intros bn bn' H0 H1 H0' H1' E. destruct (HB bn H0 H1) as [E1 _]. destruct (HB bn' H0' H1') as [E2 _]. rewrite -E in E2.
    pose proof (la_inj _ _ HL _ _ _ E1 E2) as [= E3]. by apply slot_inj.
  - intros H12. rewrite /addr_of Ea addrs_lookup //. change (Z.of_nat NDIRECT) with 12 in *.
    destruct (HB 12) as [E _]; [lia|done|]. destruct (la_need _ _ HL (Z.of_nat k + 1) (slot 12)) as [ib Hib]; [done|eauto|].
    rewrite Hib. cbn [default from_option id]. split; [by apply layout_data in Hib|].
    intros bn H0 H1 Heq. destruct (HB bn H0 H1) as [E1 _]. rewrite Heq in E1.
    pose proof (la_inj _ _ HL _ _ _ E1 Hib) as [= E3]. destruct (slot_spec bn H0); lia.
Qed.

Lemma loaded_bytes ip k ty c x :
  fs !! k = Some (ty, c) → loaded s ip (Z.of_nat k + 1) x → ty < T_DEV → sized k c →
  fbytes s x 0 (i_size x) = c ++ replicate (Z.to_nat (i_size x) - length c) 0.
Proof.
  intros Hk Hx Hty Hsz. change T_DEV with 3 in Hty. assert (ty < 2 ^ 15) as Hty' by lia. pose proof (fi_lay _ _ _ HF) as HL.
  destruct (loaded_fields ip k ty c x Hk Hx Hty') as (_ & _ & Es & _). destruct (fi_file _ _ _ HF _ _ _ Hk) as (Hc & _ & _ & Hlc).
  pose proof (size_bounds k c Hlc Hsz) as Hb. pose proof (nblk_max _ Hlc) as Hn. rewrite Es.
  apply list_eq_same_length with (n := Z.to_nat (disk_size k c)).
  - rewrite length_app length_replicate. lia.
  - by rewrite /fbytes length_fmap length_seq.
  - intros j a b Hj Ha Hb'. rewrite /fbytes list_lookup_fmap lookup_seq_lt // in Ha. injection Ha as <-.
    rewrite /fbyte. change BSIZE with 512. set (o := 0 + Z.of_nat j).
    assert (0 ≤ o / 512) as Ho by (apply Z.div_pos; lia).
    assert (o / 512 < nblk (Z.of_nat (length c))) as Hob.
    { apply (size_blocks k c); [done|done|]. Z.to_euclidean_division_equations. lia. }
    destruct (has_block k ty c (o / 512) Hk) as [z E]; [lia|]. rewrite (loaded_block ip k ty c x (o / 512) z) //; [lia|].
    pose proof (la_range _ _ HL _ _ E) as Hr. pose proof (la_bound _ _ HL). rewrite nmeta_eq in Hr.
    rewrite (mo_blk _ _ HM); [lia|]. rewrite (ho_data _ _ _ _ Hc o z) //; [lia|]. replace (Z.to_nat o) with j by lia.
    apply lookup_app_Some in Hb' as [->|[Hj2 Hb']]; [done|]. apply lookup_replicate in Hb' as [-> _]. by rewrite lookup_ge_None_2.
Qed.

Lemma loaded_slot ip k ty c x bn :
  fs !! k = Some (ty, c) → ty < 2 ^ 15 → loaded s ip (Z.of_nat k + 1) x → 0 ≤ bn < nblk (Z.of_nat (length c)) →
  P !! (Z.of_nat k + 1, slot bn) = Some (file_block s x bn).
Proof.
  intros Hk Hty Hx Hbn. destruct (fi_file _ _ _ HF _ _ _ Hk) as (_ & _ & _ & Hlc). pose proof (nblk_max _ Hlc).
  destruct (has_block k ty c bn Hk Hbn) as [b E]. rewrite (loaded_block ip k ty c x bn b) //. lia.
Qed.

(** The test of balloc() on the image. *)
Lemma bitmap_free b :
  0 ≤ b < FSSIZE →
  (Z.land (get8 (bit_byte b) (BioSpec.blk s (BBLOCK b mksb))) (bit_mask b) =? 0) = bool_decide (freeblock m ≤ b).
Proof.
  intros Hb. pose proof (la_bound _ _ (fi_lay _ _ _ HF)) as Hfb. rewrite nmeta_eq /FSSIZE in Hfb. rewrite /FSSIZE in Hb.
  assert (BBLOCK b mksb = 58) as ->.
  { rewrite /BBLOCK. change BPB with 4096. change (sb_bmapstart mksb) with 58. rewrite Z.div_small; [lia|done]. }
  rewrite (mo_blk _ _ HM) // (fi_bitmap _ _ _ HF). apply bitmap_bit; lia.
Qed.

(** The test of ialloc() on the image. *)
Lemma free_inode n i :
  (∀ k ty c, fs !! k = Some (ty, c) → k = 0%nat ∧ ty = T_DIR ∨ k ≠ 0%nat ∧ ty = T_FILE) →
  length fs = S n → 1 ≤ i < NINODES →
  din_type i (BioSpec.blk s (IBLOCK i mksb)) = 0 ↔ Z.of_nat n + 1 < i.
Proof.
  intros Hty Hn Hi. rewrite inode_block; [lia|]. rewrite /din_type.
  change (get16 (dinode_off i) (MkfsSpec.blk m (IBLOCK i mksb))) with (dn_type (disk_inode m i)).
  destruct (decide (Z.of_nat n + 1 < i)) as [Hlt|Hge].
  - rewrite (fi_none _ _ _ HF); [lia|]. done.
  - destruct (lookup_lt_is_Some_2 fs (Z.to_nat (i - 1))) as [[ty c] Hk]; [lia|].
    destruct (fi_file _ _ _ HF _ _ _ Hk) as (_ & Hd & _). replace (Z.of_nat (Z.to_nat (i - 1)) + 1) with i in Hd by lia.
    rewrite Hd. cbn [dn_type]. by destruct (Hty _ _ _ Hk) as [[_ ->]|[_ ->]].
Qed.

End view.

(** ** An example: the image in the memory disk *)

Definition load_image (m : mkst) (l : list inode) (s : kstate) : kstate :=
  set_fs (Fs mksb l) (set_log (Log 2 30 1 false 1 (Logheader 0 (replicate 30 0)))
    (set_bio (Bio (bufs s) (img m) FSSIZE (dk_trace (k_bio s))) s)).

Lemma image_mounted P fs m l s : finished P fs m → fresh_cache s → mounted m (load_image m l s).
Proof.
  intros HF Hf. pose proof (fi_lay _ _ _ HF) as HL. set (s' := load_image m l s).
  assert (∀ b, dblock s' b = MkfsSpec.blk m b) as Hd by done.
  assert (∀ b i x, bufs s' !! i = Some x → ¬ caches b x) as Hnc by (intros b i x; apply (fresh_uncached s Hf)).
  assert (bio_inv ∅ s') as HB.
  { apply (bio_inv_fresh s' (rev (seq 0 NBUF))).
    - by destruct (bi_calm _ _ (fr_inv _ Hf)).
    - apply (fr_dll _ Hf).
    - intros b. rewrite Hd. apply sector_len, HL.
    - intros i Hi. destruct (dll_lookup _ _ i (fr_dll _ Hf)) as [x Hx]; [done|].
      pose proof (ok_lock _ _ _ _ (bi_buf _ _ (fr_inv _ Hf) i x Hi Hx)) as E. rewrite bool_decide_eq_false_2 in E; [set_solver|exact E].
    - intros i x. apply (fr_core _ Hf). }
  split; [split|..]; try done.
  - split; [done| |apply NoDup_nil_2| |].
    + split; try done; [intros c; rewrite /in_log /on_disk /= /FSSIZE; lia|].
      intros k Hk. rewrite /lh_len /= in Hk. lia.
    + intros b. split; [|by intros ?%elem_of_nil]. intros (i & x & _ & Hx & Hc & _). by apply (Hnc b i x Hx) in Hc.
    + by rewrite Hd /= (fi_log _ _ _ HF).
  - vm_compute. lia.
  - intros b Hb. rewrite -Hd. apply blk_uncached. intros i x _. apply Hnc.
Qed.

Definition image_inode (m : mkst) (inum : Z) : inode :=
  load_dinode (MkfsSpec.blk m (IBLOCK inum mksb)) (Inode 1 inum 1 I_VALID 0 0 0 0 0 []).

Lemma image_loaded P fs m s inum :
  finished P fs m → fresh_cache s → 0 ≤ inum < NINODES →
  loaded (load_image m [image_inode m inum] s) 0 inum (image_inode m inum).
Proof.
  intros HF Hf Hi. split; [done..|]. by rewrite (inode_block m _ (image_mounted P fs m _ s HF Hf)).
Qed.

(** ** The theorems *)

Lemma image_types host args k ty c : image host args !! k = Some (ty, c) →
  k = 0%nat ∧ ty = T_DIR ∨ k ≠ 0%nat ∧ ty = T_FILE.
Proof.
  destruct k as [|k]; [intros [= <- _]; by left|]. intros Hk. right. split; [done|].
  change (host_files host args !! k = Some (ty, c)) in Hk. apply list_lookup_fmap_Some in Hk as (a & [= -> _] & _). done.
Qed.

Lemma image_file host args k a c :
  args !! k = Some a → host a = Some c → image host args !! S k = Some (T_FILE, c).
Proof. intros Ha Hc. change (host_files host args !! k = Some (T_FILE, c)). by rewrite list_lookup_fmap Ha /= Hc. Qed.

Lemma disk_size_file k c : k ≠ 0%nat → disk_size k c = Z.of_nat (length c).
Proof. by destruct k. Qed.

(** The root directory has at most one entry for each inode. *)
Lemma image_root_length host args c ty : fits host args → image host args !! 0%nat = Some (ty, c) → Z.of_nat (length c) ≤ 16 * NINODES.
Proof.
  intros Hfit Hc. pose proof (ft_inodes _ _ Hfit) as Hn. rewrite /image in Hc. set (d := (_ ++ _) ++ _) in Hc.
  assert (length d = 16 * (length args + 2))%nat as Hd.
  { rewrite /d (length_app (_ ++ _)) (length_app (dirent_for _ _)) !length_dirent_for length_dirents. lia. }
  clearbody d. injection Hc as _ <-. lia.
Qed.

Section properties.
Context `{IdeDriver, Devsw}.

(** C2: the files of the image are the files of the host. When the files of the
    command line fit, mkfs makes an image on which the kernel finds, under the inode
    number the root directory gives it, each of them with its contents: the inode
    ilock() loads has the right type and size and one link, and readi() returns the
    bytes. The root directory is read back in the same way, its entries followed by
    zeros up to its rounded size, unless they end exactly at the end of a block: then
    its size takes in one more block, for which it has no address. *)
Theorem mkfs_read_back host args :
  fits host args →
  ∃ m, mkfs host args mk_start = Ok tt m ∧
    ∀ s ip k ty c x, mounted m s → image host args !! k = Some (ty, c) → loaded s ip (Z.of_nat k + 1) x →
      i_type x = ty ∧ i_nlink x = 1 ∧ i_size x = disk_size k c ∧
      (k ≠ 0%nat → disk_size k c = Z.of_nat (length c)) ∧
      (k ≠ 0%nat ∨ Z.of_nat (length c) mod BSIZE ≠ 0 →
        ∃ s', readi put_local ip [] 0 (i_size x) s =
          Ok (i_size x, c ++ replicate (Z.to_nat (i_size x) - length c) 0) s' ∧ same_fs s s') ∧
      (k = 0%nat ∧ Z.of_nat (length c) mod BSIZE = 0 →
        i_size x = Z.of_nat (length c) + BSIZE ∧ file_block s x (Z.of_nat (length c) / BSIZE) = 0).
Proof.
  intros Hfit. destruct (mkfs_Ok host args Hfit) as (P & m & Hrun & HF). exists m. split; [done|].
  intros s ip k ty c x HM Hk Hx. assert (ty < T_DEV) as Hty by (destruct (image_types _ _ _ _ _ Hk) as [[_ ->]|[_ ->]]; done).
  assert (ty < 2 ^ 15) as Hty' by (change T_DEV with 3 in Hty; lia).
  destruct (loaded_fields P _ m s HF HM ip k ty c x Hk Hx Hty') as (E1 & E2 & E3 & _). split_and!; [done..| | |].
  - exact (disk_size_file k c).
  - intros Hsz'. assert (sized k c) as Hsz by (intros E0; destruct Hsz' as [Hne|Hmod]; [exfalso; exact (Hne E0)|exact Hmod]).
    pose proof (loaded_ok P _ m s HF HM ip k ty c x Hk Hx Hty Hsz) as HO. pose proof (fo_size _ _ _ HO) as Hs.
    change (MAXFILE * BSIZE) with 71680 in Hs.
    destruct (readi_Ok s ip x 0 (i_size x) (mo_ready _ _ HM) HO) as (s' & Hr & HS); [lia|lia|]. exists s'.
    rewrite Z.sub_0_r Z.min_id (loaded_bytes P _ m s HF HM ip k ty c x Hk Hx Hty Hsz) in Hr. exact (conj Hr HS).
  - intros [-> Hmod]. pose proof (image_root_length host args c ty Hfit Hk) as Hlen. split.
    + rewrite E3 /disk_size. change BSIZE with 512 in *. Z.to_euclidean_division_equations. lia.
    + by apply (unallocated P _ m s HF HM ip 0 ty c x).
Qed.

(** C17: what the kernel takes for free on the image is free. The superblock readsb()
    returns is the layout of the image and the log header is empty; an inode is free
    exactly when mkfs did not hand it out; a block whose bit balloc() finds clear is
    a data block that is zero and belongs to no file, while blocks of different files
    are different. *)
Theorem mkfs_free_space host args :
  fits host args →
  ∃ m, mkfs host args mk_start = Ok tt m ∧ ∀ s, mounted m s →
    sb_of (BioSpec.blk s 1) = Superblock 1000 941 200 30 2 32 58 ∧
    hd_n (BioSpec.blk s (log_start (k_log s))) = 0 ∧
    (∀ i, 1 ≤ i < NINODES → din_type i (BioSpec.blk s (IBLOCK i mksb)) = 0 ↔ Z.of_nat (length args) + 1 < i) ∧
    (∀ b, 0 ≤ b < nmeta → Z.land (get8 (bit_byte b) (BioSpec.blk s (BBLOCK b mksb))) (bit_mask b) ≠ 0) ∧
    (∀ b, 0 ≤ b < FSSIZE → Z.land (get8 (bit_byte b) (BioSpec.blk s (BBLOCK b mksb))) (bit_mask b) = 0 →
      BioSpec.blk s b = replicate 512 0) ∧
    ∀ ip k ty c x bn, image host args !! k = Some (ty, c) → loaded s ip (Z.of_nat k + 1) x →
      0 ≤ bn < nblk (Z.of_nat (length c)) →
      Z.land (get8 (bit_byte (file_block s x bn)) (BioSpec.blk s (BBLOCK (file_block s x bn) mksb)))
        (bit_mask (file_block s x bn)) ≠ 0 ∧
      ∀ ip' k' ty' c' x' bn', image host args !! k' = Some (ty', c') → loaded s ip' (Z.of_nat k' + 1) x' →
        0 ≤ bn' < nblk (Z.of_nat (length c')) → file_block s x bn = file_block s x' bn' → k = k' ∧ bn = bn'.
Proof.
  intros Hfit. destruct (mkfs_Ok host args Hfit) as (P & m & Hrun & HF). exists m. split; [done|]. intros s HM.
  pose proof (fi_lay _ _ _ HF) as HL. pose proof (la_bound _ _ HL) as Hfb. rewrite nmeta_eq /FSSIZE in Hfb.
  assert (∀ b, 0 ≤ b < FSSIZE → (Z.land (get8 (bit_byte b) (BioSpec.blk s (BBLOCK b mksb))) (bit_mask b) =? 0) =
    bool_decide (freeblock m ≤ b)) as Hbit by exact (bitmap_free P _ m s HF HM).
  assert (∀ ip k ty c x bn, image host args !! k = Some (ty, c) → loaded s ip (Z.of_nat k + 1) x →
    0 ≤ bn < nblk (Z.of_nat (length c)) → P !! (Z.of_nat k + 1, slot bn) = Some (file_block s x bn)) as HP.
  { intros ip k ty c x bn Hk. apply (loaded_slot P _ m s HF HM ip k ty c x bn Hk).
    destruct (image_types _ _ _ _ _ Hk) as [[_ ->]|[_ ->]]; done. }
  split_and!.
  - rewrite (mo_blk _ _ HM); [rewrite /FSSIZE; lia|]. rewrite (fi_sb _ _ _ HF). exact sb_of_mksb.
  - rewrite (mo_start _ _ HM). change (sb_logstart mksb) with 2. rewrite (mo_blk _ _ HM); [rewrite /FSSIZE; lia|].
    rewrite (fi_log _ _ _ HF); [lia|]. exact hd_n_zeroes.
  - intros i Hi. apply (free_inode P _ m s HF HM); [apply image_types|by rewrite /image /= length_fmap|done].
  - intros b Hb. rewrite nmeta_eq in Hb. specialize (Hbit b ltac:(rewrite /FSSIZE; lia)).
    rewrite bool_decide_eq_false_2 in Hbit; [lia|]. by apply Z.eqb_neq.
  - intros b Hb E. specialize (Hbit b Hb). rewrite E in Hbit. symmetry in Hbit. apply bool_decide_eq_true in Hbit.
    rewrite (mo_blk _ _ HM); [done|]. apply (la_free _ _ HL). lia.
  - intros ip k ty c x bn Hk Hx Hbn. pose proof (HP _ _ _ _ _ _ Hk Hx Hbn) as E1. pose proof (la_range _ _ HL _ _ E1) as Hr.
    rewrite nmeta_eq in Hr. split.
    + specialize (Hbit (file_block s x bn) ltac:(rewrite /FSSIZE; lia)).
      rewrite bool_decide_eq_false_2 in Hbit; [lia|]. by apply Z.eqb_neq.
    + intros ip' k' ty' c' x' bn' Hk' Hx' Hbn' Eb. pose proof (HP _ _ _ _ _ _ Hk' Hx' Hbn') as E2. rewrite -Eb in E2.
      pose proof (la_inj _ _ HL _ _ _ E1 E2) as E. injection E as Ek Es. apply slot_inj in Es; [|lia|lia]. split; [lia|done].
Qed.

End properties.

(** Two files, one of them with an indirect block. *)
Definition demo_host (a : list Z) : option (list Z) :=
  if bool_decide (a = chars "README") then Some (chars "xv6") else
  if bool_decide (a = chars "_big") then Some (replicate (Z.to_nat 7000) 66) else None.

Lemma demo_fits : fits demo_host [chars "README"; chars "_big"].
Proof.
  split; [|by vm_compute|by vm_compute]. repeat apply Forall_cons_2; [| |apply Forall_nil_2].
  - split; [by apply (bool_decide_unpack _); vm_compute|]. exists (chars "xv6"). split; [done|by vm_compute].
  - split; [by apply (bool_decide_unpack _); vm_compute|]. exists (replicate (Z.to_nat 7000) 66). split; [done|by vm_compute].
Qed.

#[local] Existing Instance Memide.memide.
#[local] Instance no_devs : Devsw := {| dev_read _ := None; dev_write _ := None |}.

Lemma mkfs_read_back_witness :
  ∃ m s s', mkfs demo_host [chars "README"; chars "_big"] mk_start = Ok tt m ∧
    readi put_local 0 [] 0 7000 s = Ok (7000, replicate (Z.to_nat 7000) 66) s'.
Proof.
  destruct (mkfs_read_back demo_host [chars "README"; chars "_big"] demo_fits) as (m & Hm & H).
  destruct (mkfs_Ok _ _ demo_fits) as (P & m' & Hm' & HF). rewrite Hm in Hm'. injection Hm' as <-.
  pose proof booted_fresh as Hf. revert Hf. generalize booted. intros s Hf.
  destruct (H (load_image m [image_inode m 3] s) 0%nat 2%nat T_FILE (replicate (Z.to_nat 7000) 66) (image_inode m 3))
    as (_ & _ & Esz & _ & Hr & _).
  - by apply (image_mounted P (image demo_host [chars "README"; chars "_big"])).
  - by apply (image_file _ _ 1 (chars "_big")).
  - assert (0 ≤ 3 < NINODES) as H3 by (rewrite /NINODES; lia). exact (image_loaded P _ m s 3 HF Hf H3).
  - destruct Hr as (s' & Hr & _); [by left|]. assert (disk_size 2 (replicate (Z.to_nat 7000) 66) = 7000) as E7 by by vm_compute. rewrite Esz E7 in Hr.
    replace (Z.to_nat 7000 - length (replicate (Z.to_nat 7000) 66))%nat with 0%nat in Hr by (rewrite length_replicate; lia).
    rewrite app_nil_r in Hr. exists m, (load_image m [image_inode m 3] s), s'. split; [exact Hm|exact Hr].
Defined.

Lemma mkfs_free_space_witness :
  ∃ m s, mkfs demo_host [chars "README"; chars "_big"] mk_start = Ok tt m ∧
    sb_of (BioSpec.blk s 1) = Superblock 1000 941 200 30 2 32 58 ∧
    din_type 4 (BioSpec.blk s (IBLOCK 4 mksb)) = 0 ∧ din_type 3 (BioSpec.blk s (IBLOCK 3 mksb)) ≠ 0.
Proof.
  destruct (mkfs_free_space demo_host [chars "README"; chars "_big"] demo_fits) as (m & Hm & H).
  destruct (mkfs_Ok _ _ demo_fits) as (P & m' & Hm' & HF). rewrite Hm in Hm'. injection Hm' as <-.
  pose proof booted_fresh as Hf. revert Hf. generalize booted. intros s Hf.
  destruct (H (load_image m [] s)) as (Hsb & _ & Hin & _).
  - by apply (image_mounted P (image demo_host [chars "README"; chars "_big"])).
  - exists m, (load_image m [] s). split_and!; [exact Hm|exact Hsb| |].
    + apply Hin; [rewrite /NINODES; lia|simpl; lia].
    + rewrite Hin; [rewrite /NINODES; lia|simpl; lia].
Defined.
