(* ===== verification/Mp.v ===== *)
(** * Finding the processors: mp.c

    The search for the firmware's multiprocessor tables in memory, and what
    mpinit() takes from them. *)

From S2P Require Import Prelude Param Bytes String Console Hw Irq.

(** ** mp.h *)

(** struct mp and struct mpconf are read at their offsets. *)
Definition sizeof_mp : Z := 16.
Definition sizeof_mpconf : Z := 44.
Definition sizeof_mpproc : Z := 20.
Definition sizeof_mpioapic : Z := 8.

Definition mp_physaddr (m : mem) (mp : Z) : Z := load32 m (mp + 4).
Definition mp_imcrp (m : mem) (mp : Z) : Z := byte m (mp + 12).
Definition conf_length (m : mem) (conf : Z) : Z := of_le2 (byte m (conf + 4)) (byte m (conf + 5)).
Definition conf_version (m : mem) (conf : Z) : Z := byte m (conf + 6).
Definition conf_lapicaddr (m : mem) (conf : Z) : Z := load32 m (conf + 36).

Definition MPPROC : Z := 0x00.
Definition MPBUS : Z := 0x01.
Definition MPIOAPIC : Z := 0x02.
Definition MPIOINTR : Z := 0x03.
Definition MPLINTR : Z := 0x04.

(** ** mp.c *)

Definition sum (m : mem) (addr len : Z) : Z := u8 (foldl Z.add 0 (bytes m addr (Z.to_nat len))).

(** memcmp(p, lit, n) == 0 for a literal. *)
Definition memcmp_lit (m : mem) (p : Z) (lit : list Z) : bool := bool_decide (bytes m p (length lit) = lit).

Definition mp_at (m : mem) (p : Z) : bool := memcmp_lit m p (chars "_MP_") && (sum m p sizeof_mp =? 0).

(** The addresses from [p] on, one struct mp apart. *)
Fixpoint mpsearch_from (m : mem) (n : nat) (p : Z) : option Z :=
  match n with
  | O => None
  | S n' => if mp_at m p then Some p else mpsearch_from m n' (p + sizeof_mp)
  end.

Definition mpsearch1 (m : mem) (a len : Z) : option Z := mpsearch_from m (Z.to_nat (len / sizeof_mp)) (P2V a).

Definition mpsearch (m : mem) : option Z :=
  let bda := P2V 0x400 in
  let p := Z.shiftl (Z.lor (Z.shiftl (byte m (bda + 0x0F)) 8) (byte m (bda + 0x0E))) 4 in
  let found :=
    if negb (p =? 0) then mpsearch1 m p 1024
    else
      let p := Z.lor (Z.shiftl (byte m (bda + 0x14)) 8) (byte m (bda + 0x13)) * 1024 in
      mpsearch1 m (u32 (p - 1024)) 1024 in
  match found with
  | Some mp => Some mp
  | None => mpsearch1 m 0xF0000 0x10000
  end.

(** The tables [mp] and [conf], or [None] for 0. *)
Definition mpconfig (m : mem) : option (Z * Z) :=
  match mpsearch m with
  | None => None
  | Some mp =>
      if mp_physaddr m mp =? 0 then None else
      let conf := P2V (mp_physaddr m mp) in
      if negb (memcmp_lit m conf (chars "PCMP")) then None else
      if negb (conf_version m conf =? 1) && negb (conf_version m conf =? 4) then None else
      if negb (sum m conf (conf_length m conf) =? 0) then None else
      Some (mp, conf)
  end.

(** One turn of the loop of mpinit() over the entries: [p] is the entry, [e] the end
    of the table. The [break] of the last case leaves the switch, not the loop. *)
Definition mpinit_step (e p : Z) : W (Z + unit) :=
  if negb (p <? e) then mret (inr ()) else
  m ← gets hw_mem;
  let t := byte m p in
  if t =? MPPROC then
    n ← gets ncpu;
    (if n <? Z.of_nat NCPU then
       modify (λ s, set_cpus (n + 1) (<[Z.to_nat n := byte m (p + 1)]> (cpus s)) s)
     else mret ());;
    mret (inl (p + sizeof_mpproc))
  else if t =? MPIOAPIC then
    modify (set_ioapicid (byte m (p + 1)));;
    mret (inl (p + sizeof_mpioapic))
  else if (t =? MPBUS) || (t =? MPIOINTR) || (t =? MPLINTR) then mret (inl (p + 8))
  else
    modify (set_ismp false);;
    mret (inl p).

Section init.
Context `{Devices}.

Definition mpinit (fuel : nat) : W unit :=
  m ← gets hw_mem;
  match mpconfig m with
  | None => mret ()
  | Some (mp, conf) =>
      modify (set_ismp true);;
      modify (set_lapic (conf_lapicaddr m conf));;
      loop fuel (mpinit_step (conf + conf_length m conf)) (conf + sizeof_mpconf);;
      b ← gets ismp;
      if negb b then
        modify (λ s, set_cpus 1 (cpus s) s);;
        modify (set_lapic 0);;
        modify (set_ioapicid 0)
      else
      if negb (mp_imcrp m mp =? 0) then
        outb 0x22 0x70;;
        v ← inb 0x23;
        outb 0x23 (Z.lor v 1)
      else mret ()
  end.

(** ** Tables *)

(** The search finds the first structure of the range, and only a valid one. *)
Lemma mpsearch_from_spec m n p :
  match mpsearch_from m n p with
  | Some q => ∃ k, (k < n)%nat ∧ q = p + sizeof_mp * Z.of_nat k ∧ mp_at m q = true ∧
                   ∀ j, (j < k)%nat → mp_at m (p + sizeof_mp * Z.of_nat j) = false
  | None => ∀ j, (j < n)%nat → mp_at m (p + sizeof_mp * Z.of_nat j) = false
  end.
Proof.
  revert p. induction n as [|n IH]; intros p; simpl; [lia|]. destruct (mp_at m p) eqn:E.
  { exists 0%nat. split_and!; [lia|lia|done|lia]. }
  specialize (IH (p + sizeof_mp)).
  assert (∀ j, p + sizeof_mp + sizeof_mp * Z.of_nat j = p + sizeof_mp * Z.of_nat (S j)) as Hj by (intros; lia).
  destruct (mpsearch_from m n _) as [q|].
  - destruct IH as (k & Hk & -> & Hq & Hlt). exists (S k). rewrite Hj in Hq |- *. split_and!; [lia|done|done|].
    intros [|j] Hlj; [by rewrite Z.mul_0_r Z.add_0_r|]. rewrite -Hj. apply Hlt. lia.
  - intros [|j] Hlj; [by rewrite Z.mul_0_r Z.add_0_r|]. rewrite -Hj. apply IH. lia.
Qed.

(** An entry of the configuration table: a processor or an I/O APIC with its id,
    or another one of the types that are skipped. *)
Inductive entry := EProc (apicid : Z) | EIoapic (apicno : Z) | EOther (type : Z).

Definition size (x : entry) : Z := match x with EProc _ => sizeof_mpproc | _ => 8 end.

Definition entry_at (m : mem) (p : Z) (x : entry) : Prop :=
  match x with
  | EProc a => byte m p = MPPROC ∧ byte m (p + 1) = a
  | EIoapic a => byte m p = MPIOAPIC ∧ byte m (p + 1) = a
  | EOther t => byte m p = t ∧ (t = MPBUS ∨ t = MPIOINTR ∨ t = MPLINTR)
  end.

Fixpoint table_at (m : mem) (p : Z) (es : list entry) : Prop :=
  match es with
  | [] => True
  | x :: es' => entry_at m p x ∧ table_at m (p + size x) es'
  end.

Fixpoint total (es : list entry) : Z := match es with [] => 0 | x :: es' => size x + total es' end.

Definition procs_of (es : list entry) : list Z := omap (λ x, match x with EProc a => Some a | _ => None end) es.
Definition ioapics_of (es : list entry) : list Z := omap (λ x, match x with EIoapic a => Some a | _ => None end) es.

(** The processors known, in a state: the first [ncpu] of the array. *)
Definition known (s : hwst) : list Z := take (Z.to_nat (ncpu s)) (cpus s).

Definition cpus_ok (s : hwst) : Prop := 0 ≤ ncpu s ≤ Z.of_nat NCPU ∧ length (cpus s) = NCPU.

Lemma length_known s : cpus_ok s → Z.of_nat (length (known s)) = ncpu s.
Proof. intros [H1 H2]. rewrite /known length_take. lia. Qed.

(** The state after the entries [es]. *)
Record after (es : list entry) (s s' : hwst) : Prop := {
  af_known : known s' = take NCPU (known s ++ procs_of es);
  af_ok : cpus_ok s';
  af_ioapic : ioapicid s' = default (ioapicid s) (last (ioapics_of es));
  af_ismp : ismp s' = ismp s;
  af_lapic : lapic s' = lapic s;
  af_mem : hw_mem s' = hw_mem s
}.

(** One entry. *)
Lemma mpinit_entry e p x s :
  entry_at (hw_mem s) p x → p < e → cpus_ok s →
  ∃ s', mpinit_step e p s = Ok (inl (p + size x)) s' ∧ after [x] s s'.
Proof.
  intros Hx Hp Hok. pose proof Hok as [Hn Hl]. pose proof (length_known s Hok) as Hk. rewrite /mpinit_step (proj2 (Z.ltb_lt p e) Hp). cbn [negb].
  assert (take NCPU (known s) = known s) as Ht by (apply take_ge; lia).
  rewrite bind_gets. destruct x as [a|a|t]; destruct Hx as [E1 E2].
  - rewrite E1 Z.eqb_refl bind_gets E2. destruct (Z.ltb_spec (ncpu s) (Z.of_nat NCPU)) as [Hlt|Hge].
    + rewrite bind_modify. eexists. split; [reflexivity|]. split; try done.
      * rewrite (take_ge (known s ++ _)); [rewrite length_app /=; lia|]. rewrite /known /=.
        replace (Z.to_nat (ncpu s + 1)) with (S (Z.to_nat (ncpu s))) by lia.
        rewrite (take_S_r _ _ a); [rewrite list_lookup_insert_eq //; lia|]. by rewrite take_insert_ge.
      * split; simpl; [lia|]. by rewrite length_insert.
    + eexists. split; [reflexivity|]. split; try done.
      rewrite take_app_le; [lia|]. done.
  - rewrite E1. change (MPIOAPIC =? MPPROC) with false. rewrite Z.eqb_refl bind_modify E2. eexists. split; [reflexivity|].
    split; try done. by rewrite app_nil_r.
  - exists s. split; [|by split; try done; rewrite app_nil_r]. rewrite E1. by destruct E2 as [->|[->| ->]].
Qed.

Lemma take_take_app {A} n (l k : list A) : take n (take n l ++ k) = take n (l ++ k).
Proof. rewrite (take_app (take n l)) (take_app l) take_take Nat.min_id length_take. do 2 f_equal. lia. Qed.

Lemma after_trans es es' s s' s'' : after es s s' → after es' s' s'' → after (es ++ es') s s''.
Proof.
  intros [A1 A2 A3 A4 A5 A6] [B1 B2 B3 B4 B5 B6]. split; [|done| |congruence..].
  - rewrite B1 A1 /procs_of omap_app app_assoc take_take_app //.
  - rewrite B3 A3 /ioapics_of omap_app last_app. by destruct (last (omap _ es')).
Qed.

Lemma size_pos x : 0 < size x.
Proof. by destruct x. Qed.

Lemma total_pos es : 0 ≤ total es.
Proof. induction es as [|x es IH]; simpl; [done|]. pose proof (size_pos x). lia. Qed.

Lemma mpinit_loop e p es s fuel :
  table_at (hw_mem s) p es → e = p + total es → cpus_ok s → (length es < fuel)%nat →
  ∃ s', loop fuel (mpinit_step e) p s = Ok () s' ∧ after es s s'.
Proof.
  revert p s fuel. induction es as [|x es IH]; intros p s fuel Ht -> Hok Hf; (destruct fuel as [|fuel]; [simpl in Hf; lia|]).
  - exists s. split.
    + apply loop_done. rewrite /mpinit_step (proj2 (Z.ltb_ge p _)) //. simpl. lia.
    + split; try done. rewrite app_nil_r take_ge //. pose proof (length_known s Hok). destruct Hok. lia.
  - destruct Ht as [Hx Ht].
    pose proof (total_pos es) as Htp. pose proof (size_pos x) as Hsp.
    destruct (mpinit_entry (p + total (x :: es)) p x s) as (s1 & H1 & A1); [done|simpl; lia|done|].
    destruct (IH (p + size x) s1 fuel) as (s2 & H2 & A2); [by rewrite (af_mem _ _ _ A1)|simpl; lia|apply A1|simpl in Hf; lia|].
    exists s2. split; [|exact (after_trans [x] es _ _ _ A1 A2)].
    by rewrite (loop_S _ _ _ _ _ _ H1).
Qed.

(** C34: mpinit() takes the processors from the firmware's table. When the tables
    are found and consist of entries of the known types, the kernel knows the
    processors of the table, in its order and at most [NCPU] of them, the local
    APIC's address and the last I/O APIC's id, and runs as a multiprocessor; and
    cpunum(), run on the [i]-th of the processors, returns [i]. *)
Theorem mpinit_correct s mp conf es fuel :
  mpconfig (hw_mem s) = Some (mp, conf) →
  table_at (hw_mem s) (conf + sizeof_mpconf) es → conf_length (hw_mem s) conf = sizeof_mpconf + total es →
  ncpu s = 0 → length (cpus s) = NCPU → (length es < fuel)%nat →
  ∃ s', mpinit fuel s = Ok () s' ∧ ismp s' = true ∧ lapic s' = conf_lapicaddr (hw_mem s) conf ∧
    known s' = take NCPU (procs_of es) ∧ ioapicid s' = default (ioapicid s) (last (ioapics_of es)) ∧
    ∀ i a, NoDup (known s') → known s' !! i = Some a → 0 ≤ a < 256 → lapic s' ≠ 0 →
      u32 (reg_load (hw_hist s') (lapic s' + 4 * ID)) = Z.shiftl a 24 →
      ∃ s'', cpunum s' = Ok (Z.of_nat i) s''.
Proof.
  intros Hc Ht Hl Hn Hlen Hf. set (s1 := set_lapic (conf_lapicaddr (hw_mem s) conf) (set_ismp true s)).
  destruct (mpinit_loop (conf + conf_length (hw_mem s) conf) (conf + sizeof_mpconf) es s1 fuel) as (s2 & H2 & A);
    [done|lia|split; [simpl; rewrite Hn; lia|done]|done|].
  assert (∃ s', mpinit fuel s = Ok () s' ∧ ismp s' = ismp s2 ∧ lapic s' = lapic s2 ∧ ncpu s' = ncpu s2 ∧ cpus s' = cpus s2 ∧ ioapicid s' = ioapicid s2)
    as (s' & Hs & E1 & E2 & E3 & E4 & E5).
  { rewrite /mpinit bind_gets Hc bind_modify bind_modify (bind_Ok _ _ _ _ _ H2) bind_gets (af_ismp _ _ _ A).
    cbn [negb ismp set_lapic set_ismp s1].
    destruct (mp_imcrp _ _ =? 0); cbn [negb].
    - exists s2. split_and!; try done. apply (af_ismp _ _ _ A).
    - rewrite bind_outb bind_inb. eexists. split; [reflexivity|]. split_and!; try done. apply (af_ismp _ _ _ A). }
  assert (known s' = known s2) as Ek by rewrite /known E3 E4 //.
  exists s'. split_and!; [done|by rewrite E1 (af_ismp _ _ _ A)|by rewrite E2 (af_lapic _ _ _ A)| |by rewrite E5 (af_ioapic _ _ _ A)|].
  - rewrite Ek (af_known _ _ _ A) {1}/known /= Hn //.
  - intros i a Hnd Hi Ha Hlp Hr. rewrite /cpunum bind_gets (proj2 (Z.eqb_neq _ 0) Hlp) /lapicr bind_assoc bind_gets bind_load Hr.
    cbv zeta. rewrite !bind_gets. cbn [ncpu cpus note set_hist]. fold (known s').
    assert (Z.shiftr (Z.shiftl a 24) 24 = a) as -> by (rewrite Z.shiftr_shiftl_l // Z.shiftl_0_r //).
    assert (list_find (λ a', a' = a) (known s') = Some (i, a)) as ->; [|by eexists].
    apply list_find_Some. split_and!; [done|done|]. intros j b Hj Hlt ->.
    pose proof (NoDup_lookup _ _ _ _ Hnd Hi Hj). lia.
Qed.

(** An entry of an unknown type is not skipped: the [break] meant to give up leaves
    only the switch, and the loop runs on the same entry for ever. *)
Lemma mpinit_hangs e p s fuel :
  p < e → (∀ t, t ∈ [MPPROC; MPBUS; MPIOAPIC; MPIOINTR; MPLINTR] → byte (hw_mem s) p ≠ t) →
  loop fuel (mpinit_step e) p s = NoFuel.
Proof.
  intros Hp Ht. revert s Ht. induction fuel as [|fuel IH]; intros s Ht; [done|].
  rewrite (loop_S _ _ _ _ p (set_ismp false s)); [|by apply IH].
  rewrite /mpinit_step (proj2 (Z.ltb_lt p e) Hp). cbn [negb]. rewrite bind_gets.
  assert (∀ t, t ∈ [MPPROC; MPBUS; MPIOAPIC; MPIOINTR; MPLINTR] → byte (hw_mem s) p =? t = false) as E.
  { intros t Hin. apply Z.eqb_neq. by apply Ht. }
  rewrite (E MPPROC); [set_solver|]. rewrite (E MPIOAPIC); [set_solver|]. rewrite (E MPBUS); [set_solver|].
  rewrite (E MPIOINTR); [set_solver|]. rewrite (E MPLINTR); [set_solver|]. done.
Qed.

End init.

(** ** Two processors, a bus and an I/O APIC *)

Definition demo_pointer : list Z := [95; 77; 80; 95; 0; 253; 9; 0; 1; 4; 154; 0; 0; 0; 0; 0].
Definition demo_conf : list Z :=
  [80; 67; 77; 80; 100; 0; 4; 128; 0; 0; 0; 0; 0; 0; 0; 0; 0; 0; 0; 0; 0; 0; 0; 0; 0; 0; 0; 0; 0; 0; 0; 0; 0; 0; 4; 0; 0; 0; 224; 254; 0; 0; 0; 0].
Definition demo_entries : list Z :=
  [0; 0; 0; 0; 0; 0; 0; 0; 0; 0; 0; 0; 0; 0; 0; 0; 0; 0; 0; 0; 0; 1; 0; 0; 0; 0; 0; 0; 0; 0; 0; 0; 0; 0; 0; 0; 0; 0; 0; 0] ++
  [1; 0; 0; 0; 0; 0; 0; 0; 2; 2; 0; 0; 0; 0; 0; 0].

Definition demo_tables : mem :=
  store (store (store ∅ (P2V 0x40E) [0xC0; 0x9F]) (P2V 0x9FC00) demo_pointer) (P2V 0x9FD00) (demo_conf ++ demo_entries).

Definition demo_boot : hwst := Hwst [] demo_tables irqmask_init 0 false 0 (replicate NCPU 0) 0.

Lemma mpinit_correct_witness :
  ∃ s', mpinit (H := demo_devices) 5 demo_boot = Ok () s' ∧ ismp s' = true ∧ lapic s' = 0xFEE00000 ∧ known s' = [0; 1] ∧ ioapicid s' = 2.
Proof.
  destruct (mpinit_correct (H := demo_devices) demo_boot (P2V 0x9FC00) (P2V 0x9FD00) [EProc 0; EProc 1; EOther MPBUS; EIoapic 2] 5)
    as (s' & H1 & H2 & H3 & H4 & H5 & _).
  - vm_compute. reflexivity.
  - vm_compute. tauto.
  - vm_compute. reflexivity.
  - reflexivity.
  - reflexivity.
  - simpl. lia.
  - exists s'. split_and!; [exact H1|exact H2|rewrite H3; vm_compute; reflexivity|exact H4|exact H5].
Defined.
