(* ===== verification/Pipe.v ===== *)
(** * Pipes: pipe.c

    A pipe is a ring buffer in a page of its own, kept in [ft_pipes] under the
    page's address. [addr] is an address of the calling process. A writer that
    finds the ring full and a reader that finds it empty sleep; the [_resume]
    definitions are what they do when they are scheduled again. *)

From S2P Require Import Prelude Param Bytes String State Spinlock Sched Kalloc Vm.

Definition PIPESIZE : Z := 512.

Definition pipes (s : kstate) : gmap Z pipe := ft_pipes (k_files s).

Definition set_pipes (v : gmap Z pipe) (s : kstate) : kstate :=
  set_files (Files (ft_file (k_files s)) v) s.

Definition getpipe (p : Z) : K pipe :=
  m ← gets pipes;
  match m !! p with Some x => mret x | None => fault p end.

Definition setpipe (p : Z) (x : pipe) : K unit :=
  modify (λ s, set_pipes (<[p := x]> (pipes s)) s).

Definition set_readopen (b : bool) (x : pipe) : pipe :=
  Pipe (pi_data x) (nread x) (nwrite x) b (writeopen x).
Definition set_writeopen (b : bool) (x : pipe) : pipe :=
  Pipe (pi_data x) (nread x) (nwrite x) (readopen x) b.

(** [proc->killed] *)
Definition proc_killed : K bool :=
  i ← cur;
  p ← getproc i;
  mret (p_killed p).

(** [p->data[p->nwrite++ % PIPESIZE] = c] *)
Definition push (c : Z) (x : pipe) : pipe :=
  Pipe (<[Z.to_nat (nwrite x mod PIPESIZE) := c]> (pi_data x))
       (nread x) (u32 (nwrite x + 1)) (readopen x) (writeopen x).

(** [p->data[p->nread++ % PIPESIZE]] *)
Definition front (x : pipe) : Z := get8 (Z.to_nat (nread x mod PIPESIZE)) (pi_data x).
Definition pop (x : pipe) : pipe :=
  Pipe (pi_data x) (u32 (nread x + 1)) (nwrite x) (readopen x) (writeopen x).

Section pipe.
Context (end_ : Z).

Definition pipeclose (p : Z) (writable : bool) : K unit :=
  acquire (LkPipe p);;
  x ← getpipe p;
  (if writable then
     setpipe p (set_writeopen false x);;
     wakeup (ChPipeR p)
   else
     setpipe p (set_readopen false x);;
     wakeup (ChPipeW p));;
  x ← getpipe p;
  if negb (readopen x) && negb (writeopen x) then
    release (LkPipe p);;
    modify (λ s, set_pipes (delete p (pipes s)) s);;
    kfree end_ p
  else
    release (LkPipe p).

(** One turn of pipewrite()'s loops at index [i]. *)
Definition pipewrite_step (p addr n : Z) (i : Z) : K (Z + Z) :=
  if negb (i <? n) then
    wakeup (ChPipeR p);;
    release (LkPipe p);;
    mret (inr n)
  else
  x ← getpipe p;
  if nwrite x =? u32 (nread x + PIPESIZE) then
    (* [readopen] first: [proc->killed] is only read when it is set *)
    k ← (if readopen x then proc_killed else mret true);
    if k then
      release (LkPipe p);;
      mret (inr (-1))
    else
      wakeup (ChPipeR p);;
      sleep (ChPipeW p) (LkPipe p)
  else
    c ← vload8 (u32 (addr + i));
    setpipe p (push c x);;
    mret (inl (i + 1)).

(** The loop makes one turn per byte left, and one that leaves it. *)
Definition pipewrite_loop (p addr n i : Z) : K Z :=
  loop (S (Z.to_nat (n - i))) (pipewrite_step p addr n) i.

Definition pipewrite (p addr n : Z) : K Z :=
  acquire (LkPipe p);;
  pipewrite_loop p addr n 0.

(** Woken with [i] bytes written: the while condition is tested again. *)
Definition pipewrite_resume (p addr n i : Z) (ie : bool) : K Z :=
  sleep_resume (LkPipe p) ie;;
  pipewrite_loop p addr n i.

(** One turn of the copying loop of piperead(). *)
Definition piperead_step (p addr n : Z) (i : Z) : K (Z + Z) :=
  if negb (i <? n) then mret (inr i) else
  x ← getpipe p;
  if nread x =? nwrite x then mret (inr i) else
  setpipe p (pop x);;
  vstore8 (u32 (addr + i)) (front x);;
  mret (inl (i + 1)).

(** From the test of the waiting loop on. *)
Definition piperead_body (p addr n : Z) : K Z :=
  x ← getpipe p;
  if (nread x =? nwrite x) && writeopen x then
    k ← proc_killed;
    if k then
      release (LkPipe p);;
      mret (-1)
    else
      sleep (ChPipeR p) (LkPipe p)
  else
    i ← loop (S (Z.to_nat n)) (piperead_step p addr n) 0;
    wakeup (ChPipeW p);;
    release (LkPipe p);;
    mret i.

Definition piperead (p addr n : Z) : K Z :=
  acquire (LkPipe p);;
  piperead_body p addr n.

Definition piperead_resume (p addr n : Z) (ie : bool) : K Z :=
  sleep_resume (LkPipe p) ie;;
  piperead_body p addr n.

End pipe.
