(* ===== verification/PipeSpec.v ===== *)
(** * Pipes are bounded FIFO queues

    The bytes in a pipe's ring buffer, oldest first, are the abstract queue
    [contents]. A write appends to it until it is full, a read takes from its
    front; the counters may wrap around. *)

From S2P Require Import Prelude Param Bytes String State Spinlock Sched Kalloc Vm Pipe.

(** ** The queue in the ring buffer *)

Definition pipe_len (x : pipe) : Z := u32 (nwrite x - nread x).

Record pipe_ok (x : pipe) : Prop := {
  po_data : length (pi_data x) = Z.to_nat PIPESIZE;
  po_read : 0 ≤ nread x < 2 ^ 32;
  po_write : 0 ≤ nwrite x < 2 ^ 32;
  po_len : pipe_len x ≤ PIPESIZE
}.

Definition contents (x : pipe) : list Z :=
  (λ k, get8 (Z.to_nat ((nread x + Z.of_nat k) mod PIPESIZE)) (pi_data x)) <$> seq 0 (Z.to_nat (pipe_len x)).

Lemma contents_length x : length (contents x) = Z.to_nat (pipe_len x).
Proof. rewrite /contents length_fmap length_seq //. Qed.

Lemma pipe_len_bound x : 0 ≤ pipe_len x.
Proof. apply u32_bound. Qed.

Lemma u32_mod_pipe z : u32 z mod PIPESIZE = z mod PIPESIZE.
Proof.
  rewrite /u32 /PIPESIZE. change (2 ^ 32) with (512 * 8388608).
  rewrite -(Z.mod_mod_divide z (512 * 8388608) 512) //. by exists 8388608.
Qed.

Lemma pipe_full x : pipe_ok x → (nwrite x =? u32 (nread x + PIPESIZE)) = (pipe_len x =? PIPESIZE).
Proof.
  intros [_ Hr Hw Hl]. rewrite /pipe_len /u32 /PIPESIZE in Hl |- *.
  apply eq_true_iff_eq. rewrite !Z.eqb_eq. Z.to_euclidean_division_equations; lia.
Qed.

Lemma pipe_empty x : pipe_ok x → (nread x =? nwrite x) = (pipe_len x =? 0).
Proof.
  intros [_ Hr Hw Hl]. rewrite /pipe_len /u32 in Hl |- *.
  apply eq_true_iff_eq. rewrite !Z.eqb_eq. Z.to_euclidean_division_equations; lia.
Qed.

Lemma push_len c x : pipe_ok x → pipe_len x < PIPESIZE → pipe_len (push c x) = pipe_len x + 1.
Proof.
  intros [_ Hr Hw _] Hl. rewrite /pipe_len /u32 /PIPESIZE /= in Hl |- *.
  rewrite /u32. Z.to_euclidean_division_equations; lia.
Qed.

Lemma pop_len x : pipe_ok x → 0 < pipe_len x → pipe_len (pop x) = pipe_len x - 1.
Proof.
  intros [_ Hr Hw Hlen] Hl. rewrite /pipe_len /u32 /PIPESIZE /= in Hl, Hlen |- *.
  rewrite /u32. Z.to_euclidean_division_equations; lia.
Qed.

Lemma push_ok c x : pipe_ok x → pipe_len x < PIPESIZE → pipe_ok (push c x).
Proof.
  intros Hok Hl. pose proof (push_len c x Hok Hl). destruct Hok as [Hd Hr Hw _].
  split; [rewrite /= length_insert //|done|apply u32_bound|lia].
Qed.

Lemma pop_ok x : pipe_ok x → 0 < pipe_len x → pipe_ok (pop x).
Proof.
  intros Hok Hl. pose proof (pop_len x Hok Hl). destruct Hok as [Hd Hr Hw Hlen].
  split; [done|apply u32_bound|done|lia].
Qed.

Lemma seq_snoc n : seq 0 (S n) = seq 0 n ++ [n].
Proof. rewrite -Nat.add_1_r seq_app //. Qed.

(** The next free slot is not one of those in use. *)
Lemma slot_ne x k :
  pipe_ok x → pipe_len x < PIPESIZE → 0 ≤ k < pipe_len x →
  Z.to_nat ((nread x + k) mod PIPESIZE) ≠ Z.to_nat (nwrite x mod PIPESIZE).
Proof.
  intros [_ Hr Hw _] Hl Hk E.
  assert ((nread x + k) mod PIPESIZE = nwrite x mod PIPESIZE) as E'.
  { apply Z2Nat.inj; [by apply Z.mod_pos_bound..|done]. }
  clear E. rewrite /pipe_len /u32 /PIPESIZE in Hl, Hk, E'. Z.to_euclidean_division_equations; lia.
Qed.

Lemma push_contents c x :
  pipe_ok x → pipe_len x < PIPESIZE → contents (push c x) = contents x ++ [c].
Proof.
  intros Hok Hl. pose proof (pipe_len_bound x). rewrite /contents push_len //.
  rewrite Z2Nat.inj_add; [lia..|]. rewrite Nat.add_1_r seq_snoc fmap_app /=. f_equal.
  - apply list_fmap_ext. intros i k [-> Hk]%lookup_seq. simpl. rewrite /get8 list_lookup_insert_ne //.
    symmetry. apply slot_ne; [done..|lia].
  - f_equal. rewrite Z2Nat.id //.
    assert ((nread x + pipe_len x) mod PIPESIZE = nwrite x mod PIPESIZE) as ->.
    { rewrite /pipe_len -(u32_mod_pipe (nwrite x)). rewrite -u32_mod_pipe. f_equal.
      rewrite /u32 Zplus_mod_idemp_r. f_equal. lia. }
    rewrite /get8 list_lookup_insert_eq //. rewrite (po_data _ Hok).
    by apply Z2Nat.inj_lt; [apply Z.mod_pos_bound|..|apply Z.mod_pos_bound].
Qed.

Lemma pop_contents x : pipe_ok x → 0 < pipe_len x → contents x = front x :: contents (pop x).
Proof.
  intros Hok Hl. rewrite /contents pop_len //.
  replace (Z.to_nat (pipe_len x)) with (S (Z.to_nat (pipe_len x - 1))) by lia.
  rewrite -cons_seq fmap_cons. f_equal; [by rewrite Z.add_0_r|].
  rewrite -fmap_S_seq -list_fmap_compose. apply list_fmap_ext. intros i k _. simpl.
  do 2 f_equal. rewrite -(u32_mod_pipe (nread x + _)) -(u32_mod_pipe (u32 _ + _)). f_equal.
  rewrite /u32 Zplus_mod_idemp_l. f_equal. lia.
Qed.

(** ** Writing *)

(** The process can read the bytes [d] at [addr]. *)
Definition user_bytes (s : kstate) (addr : Z) (d : list Z) : Prop :=
  ∀ i b, d !! i = Some b → ∃ ka,
    translate false (u32 (addr + Z.of_nat i)) s = Some ka ∧ byte (mem_bytes (k_mem s)) ka = b.

(** Replacing the pipe at [p]. *)
Definition with_pipe (p : Z) (x : pipe) (s : kstate) : kstate := set_pipes (<[p := x]> (pipes s)) s.

Lemma with_pipe_twice p x y s : with_pipe p y (with_pipe p x s) = with_pipe p y s.
Proof.
  rewrite /with_pipe. change (pipes (set_pipes (<[p := x]> (pipes s)) s)) with (<[p := x]> (pipes s)).
  by rewrite insert_insert_eq.
Qed.

Lemma with_pipe_id p x s : pipes s !! p = Some x → with_pipe p x s = s.
Proof. intros Hx. rewrite /with_pipe insert_id //. by destruct s as [? ? ? ? ? ? ? ? ? [] ? ?]. Qed.

Lemma pipes_with_pipe p x s : pipes (with_pipe p x s) !! p = Some x.
Proof. apply lookup_insert_eq. Qed.

Lemma setpipe_enter p x lk s : setpipe p x (enter lk s) = Ok tt (enter lk (with_pipe p x s)).
Proof. done. Qed.

Lemma getpipe_enter p x lk s : pipes s !! p = Some x → getpipe p (enter lk s) = Ok x (enter lk s).
Proof.
  intros Hx. rewrite /getpipe bind_gets. change (pipes (enter lk s)) with (pipes s). by rewrite Hx.
Qed.

Lemma user_bytes_load s addr d i b lk :
  user_bytes s addr d → d !! i = Some b → vload8 (u32 (addr + Z.of_nat i)) (enter lk s) = Ok b (enter lk s).
Proof.
  intros Hd Hi. destruct (Hd i b Hi) as (ka & Ht & Hb). rewrite /vload8 bind_gets.
  assert (translate false (u32 (addr + Z.of_nat i)) (enter lk s) = Some ka) as -> by exact Ht.
  rewrite /gets /=. by rewrite Hb.
Qed.

(** The turns of the loop that copy a byte each. *)
Lemma pipewrite_push p addr n d s x i k :
  user_bytes s addr d → length d = Z.to_nat n → 0 ≤ i → 0 ≤ n →
  pipes s !! p = Some x → pipe_ok x →
  (Z.to_nat i + k ≤ Z.to_nat n)%nat → pipe_len x + Z.of_nat k ≤ PIPESIZE →
  ∃ x', pipe_ok x' ∧ contents x' = contents x ++ take k (drop (Z.to_nat i) d) ∧
    pipe_len x' = pipe_len x + Z.of_nat k ∧ readopen x' = readopen x ∧ writeopen x' = writeopen x ∧
    pipewrite_loop p addr n i (enter (LkPipe p) s) =
    pipewrite_loop p addr n (i + Z.of_nat k) (enter (LkPipe p) (with_pipe p x' s)).
Proof.
  revert i s x. induction k as [|k IH]; intros i s x Hd Hlen Hi Hn Hx Hok Hk Hroom.
  { exists x. rewrite take_0 app_nil_r !Z.add_0_r. split_and!; try done.
    by rewrite with_pipe_id. }
  destruct (lookup_lt_is_Some_2 d (Z.to_nat i)) as [b Hb]; [lia|].
  set (x1 := push b x). set (s1 := with_pipe p x1 s).
  assert (pipe_len x < PIPESIZE) as Hlt by lia.
  destruct (IH (i + 1) s1 x1) as (x' & Hok' & Hc' & Hl' & Hr' & Hw' & Hloop).
  { exact Hd. } { done. } { lia. } { done. } { apply pipes_with_pipe. } { by apply push_ok. } { lia. }
  { rewrite push_len //. lia. }
  exists x'. split_and!; try done.
  - rewrite Hc' push_contents // -app_assoc (drop_S _ _ _ Hb) /=.
    rewrite Z2Nat.inj_add; [lia..|]. rewrite Nat.add_1_r //.
  - rewrite Hl' push_len //. lia.
  - replace (i + Z.of_nat (S k)) with (i + 1 + Z.of_nat k) by lia.
    rewrite /s1 with_pipe_twice in Hloop. rewrite -Hloop {1}/pipewrite_loop.
    replace (Z.to_nat (n - i)) with (S (Z.to_nat (n - (i + 1)))) by lia.
    rewrite (loop_S _ _ _ _ (i + 1) (enter (LkPipe p) (with_pipe p x1 s))) //.
    rewrite /pipewrite_step (proj2 (Z.ltb_lt _ _)); [lia|]. cbn [negb].
    rewrite (bind_Ok _ _ _ _ _ (getpipe_enter p x _ s Hx)) pipe_full // (proj2 (Z.eqb_neq _ _)); [lia|].
    replace i with (Z.of_nat (Z.to_nat i)) at 1 by lia.
    rewrite (bind_Ok _ _ _ _ _ (user_bytes_load s addr d _ b _ Hd Hb)).
    rewrite (bind_Ok _ _ _ _ _ (setpipe_enter p x1 _ s)) //.
Qed.

Section ops.
Context (p : Z) (s : kstate) (i : nat) (pr : proc).
Hypothesis Hlock : k_locks s !! LkPipe p = None.
Hypothesis Hpt : k_locks s !! LkPtable = None.
Hypothesis Hcli : ncli (k_cpu s) = 0.
Hypothesis Hproc : k_proc s = Some i.
Hypothesis Hpr : procs s !! i = Some pr.

Lemma ops_cpu_ok : cpu_ok (k_cpu s).
Proof. split; rewrite Hcli; [done|lia]. Qed.

Lemma proc_killed_enter y : proc_killed (enter (LkPipe p) (with_pipe p y s)) = Ok (p_killed pr) (enter (LkPipe p) (with_pipe p y s)).
Proof.
  rewrite /proc_killed /cur bind_assoc bind_gets.
  change (k_proc (enter (LkPipe p) (with_pipe p y s))) with (k_proc s). rewrite Hproc bind_ret.
  rewrite (bind_Ok _ _ _ pr (enter (LkPipe p) (with_pipe p y s))) //. by apply getproc_Ok.
Qed.

(** What pipewrite() does when it has written all, or the ring is full. *)
Definition write_end (n : Z) (left : bool) (x : pipe) : outcome switch kstate Z :=
  if left then
    if negb (readopen x) || p_killed pr then Ok (-1) (crit (with_pipe p x s))
    else Switch (SwSleep (ChPipeW p) (LkPipe p) (eflags_IF (k_cpu s)))
           (set_procs (alter (asleep (ChPipeW p)) i (wake (ChPipeR p) <$> procs s))
              (enter LkPtable (crit (with_pipe p x s))))
  else Ok n (woken (ChPipeR p) (crit (with_pipe p x s))).

Lemma pipewrite_done addr n x :
  pipewrite_loop p addr n n (enter (LkPipe p) (with_pipe p x s)) = write_end n false x.
Proof.
  rewrite /pipewrite_loop Z.sub_diag. set (s1 := with_pipe p x s).
  assert (loop (S (Z.to_nat 0)) (pipewrite_step p addr n) n (enter (LkPipe p) s1) =
          (r ← pipewrite_step p addr n n; match r with inl x' => nofuel | inr a => mret a end)
            (enter (LkPipe p) s1)) as -> by done.
  rewrite /pipewrite_step Z.ltb_irrefl. cbn [negb]. rewrite bind_assoc.
  rewrite (bind_Ok _ _ _ _ _ (wakeup_enter (ChPipeR p) (LkPipe p) s1 _ Hpt ops_cpu_ok)) //.
  rewrite bind_assoc (bind_Ok _ _ _ _ _ (release_enter (LkPipe p) (woken (ChPipeR p) s1) Hlock ops_cpu_ok)) //.
Qed.

Lemma pipewrite_full addr n k x :
  0 ≤ k < n → pipe_ok x → pipe_len x = PIPESIZE →
  pipewrite_loop p addr n k (enter (LkPipe p) (with_pipe p x s)) = write_end n true x.
Proof.
  intros Hk Hok Hfull. rewrite /pipewrite_loop. set (s1 := with_pipe p x s).
  cbn [loop]. set (next := λ r : Z + Z, _). rewrite /pipewrite_step (proj2 (Z.ltb_lt _ _)); [lia|]. cbn [negb].
  rewrite bind_assoc.
  rewrite (bind_Ok _ _ _ _ _ (getpipe_enter p x _ s1 (pipes_with_pipe p x s))).
  rewrite pipe_full // Hfull Z.eqb_refl bind_assoc /write_end. fold s1.
  assert ((if readopen x then proc_killed else mret true) (enter (LkPipe p) s1) =
          Ok (negb (readopen x) || p_killed pr) (enter (LkPipe p) s1)) as Hkill.
  { destruct (readopen x); [apply proc_killed_enter|done]. }
  rewrite (bind_Ok _ _ _ _ _ Hkill). destruct (negb (readopen x) || p_killed pr).
  - rewrite bind_assoc (bind_Ok _ _ _ _ _ (release_enter (LkPipe p) s1 Hlock ops_cpu_ok)) //.
  - rewrite bind_assoc (bind_Ok _ _ _ _ _ (wakeup_enter (ChPipeR p) (LkPipe p) s1 _ Hpt ops_cpu_ok)) //.
    rewrite {1}/mbind /M_bind. rewrite (sleep_Switch (ChPipeW p) (LkPipe p) (woken (ChPipeR p) s1) i (wake (ChPipeR p) pr)) //.
    rewrite /woken set_procs_procs list_lookup_fmap. change (procs s1) with (procs s). by rewrite Hpr.
Qed.

Lemma pipewrite_loop_spec addr n d x k :
  user_bytes s addr d → length d = Z.to_nat n → 0 ≤ k ≤ n → pipes s !! p = Some x → pipe_ok x →
  let room := PIPESIZE - pipe_len x in
  ∃ x', pipe_ok x' ∧ contents x' = contents x ++ take (Z.to_nat room) (drop (Z.to_nat k) d) ∧
        readopen x' = readopen x ∧ writeopen x' = writeopen x ∧
        pipewrite_loop p addr n k (enter (LkPipe p) s) = write_end n (room <? n - k) x'.
Proof.
  intros Hd Hlen Hk Hx Hok room. pose proof (po_len x Hok). pose proof (pipe_len_bound x).
  destruct (pipewrite_push p addr n d s x k (Z.to_nat (Z.min room (n - k)))) as (x' & Hok' & Hc & Hl & Hr & Hw & Hp);
    try done; try lia.
  exists x'. split_and!; try done.
  - rewrite Hc. f_equal. destruct (Z.le_gt_cases room (n - k)).
    + by rewrite Z.min_l.
    + rewrite Z.min_r; [lia|]. rewrite !take_ge //; rewrite length_drop; lia.
  - rewrite Hp Z2Nat.id; [lia|]. destruct (Z.ltb_spec room (n - k)).
    + rewrite Z.min_l; [lia|]. apply pipewrite_full; [lia|done|]. rewrite Hl. lia.
    + rewrite Z.min_r; [lia|]. replace (k + (n - k)) with n by lia. apply pipewrite_done.
Qed.

(** ** Reading *)

(** The bytes [l] put at the addresses [f j], [f (j + 1)], ... *)
Fixpoint fill (f : Z → Z) (j : Z) (l : list Z) (m : mem) : mem :=
  match l with
  | [] => m
  | b :: l' => fill f (j + 1) l' (<[f j := b]> m)
  end.

Lemma fill_snoc f j l b m : fill f j (l ++ [b]) m = <[f (j + Z.of_nat (length l)) := b]> (fill f j l m).
Proof.
  revert j m. induction l as [|a l IH]; intros j m; simpl; [by rewrite Z.add_0_r|].
  rewrite IH. do 2 f_equal. lia.
Qed.

Lemma fill_other f j l m a :
  (∀ k, j ≤ k < j + Z.of_nat (length l) → a ≠ f k) → fill f j l m !! a = m !! a.
Proof.
  revert j m. induction l as [|b l IH]; intros j m Ha; simpl; [done|].
  rewrite IH; [intros k Hk; apply Ha; simpl; lia|]. apply lookup_insert_ne.
  intros E. symmetry in E. revert E. apply Ha. simpl. lia.
Qed.

(** The process can write its [n] bytes at [addr]; they are the bytes of kernel
    memory at [f 0], [f 1], ..., which hold no page table. *)
Definition user_buffer (addr n : Z) (f : Z → Z) : Prop :=
  ∀ m, (∀ a, (∀ j, 0 ≤ j < n → a ≠ f j) → m !! a = mem_bytes (k_mem s) !! a) →
       ∀ j, 0 ≤ j < n → translate true (u32 (addr + j)) (set_bytes_of (λ _, m) s) = Some (f j).

(** The state after the bytes [l] were delivered and the pipe became [x]. *)
Definition delivered (f : Z → Z) (l : list Z) (x : pipe) : kstate :=
  set_bytes_of (fill f 0 l) (with_pipe p x s).

Lemma piperead_step_Ok addr n f l x :
  user_buffer addr n f → pipe_ok x → 0 < pipe_len x → Z.of_nat (length l) < n →
  piperead_step p addr n (Z.of_nat (length l)) (enter (LkPipe p) (delivered f l x)) =
  Ok (inl (Z.of_nat (length l) + 1)) (enter (LkPipe p) (delivered f (l ++ [front x]) (pop x))).
Proof.
  intros Hb Hok Hpos Hn. rewrite /piperead_step (proj2 (Z.ltb_lt _ _)) //. cbn [negb].
  rewrite (bind_Ok _ _ _ _ _ (getpipe_enter p x _ (delivered f l x) (pipes_with_pipe p x s))).
  rewrite pipe_empty // (proj2 (Z.eqb_neq _ _)); [lia|].
  rewrite (bind_Ok _ _ _ _ _ (setpipe_enter p (pop x) _ (delivered f l x))).
  set (s1 := with_pipe p (pop x) (delivered f l x)).
  assert (vstore8 (u32 (addr + Z.of_nat (length l))) (front x) (enter (LkPipe p) s1) =
          Ok tt (enter (LkPipe p) (delivered f (l ++ [front x]) (pop x)))) as Hst.
  { rewrite /vstore8 /vaddr_w bind_assoc bind_gets.
    assert (translate true (u32 (addr + Z.of_nat (length l))) (enter (LkPipe p) s1) = Some (f (Z.of_nat (length l)))) as ->.
    { apply (Hb (fill f 0 l (mem_bytes (k_mem s)))); [|lia].
      intros a Ha. apply fill_other. intros k Hk. apply Ha. lia. }
    rewrite bind_ret /kstore /modify /delivered. f_equal.
    assert (s1 = set_bytes_of (fill f 0 l) (with_pipe p (pop x) s)) as ->.
    { rewrite /s1 -(with_pipe_twice p x (pop x) s) //. }
    rewrite {3}/set_bytes_of fill_snoc Z.add_0_l //. }
  rewrite (bind_Ok _ _ _ _ _ Hst) //.
Qed.

(** The copying loop takes what is there, up to [n] bytes. *)
Lemma piperead_copy addr n f l x k :
  user_buffer addr n f → pipe_ok x → 0 ≤ n →
  (k ≤ length (contents x))%nat → Z.of_nat (length l) + Z.of_nat k = Z.min n (Z.of_nat (length l + length (contents x))) →
  ∃ x', pipe_ok x' ∧ contents x' = drop k (contents x) ∧ readopen x' = readopen x ∧ writeopen x' = writeopen x ∧
    loop (S (Z.to_nat (n - Z.of_nat (length l)))) (piperead_step p addr n) (Z.of_nat (length l))
      (enter (LkPipe p) (delivered f l x)) =
    Ok (Z.of_nat (length l + k)) (enter (LkPipe p) (delivered f (l ++ take k (contents x)) x')).
Proof.
  revert l x. induction k as [|k IH]; intros l x Hb Hok Hn Hk Hmin.
  - exists x. rewrite take_0 app_nil_r drop_0 Nat.add_0_r. split_and!; try done.
    apply loop_done. rewrite /piperead_step. destruct (Z.ltb_spec (Z.of_nat (length l)) n); [|done].
    cbn [negb]. rewrite (bind_Ok _ _ _ _ _ (getpipe_enter p x _ (delivered f l x) (pipes_with_pipe p x s))).
    rewrite pipe_empty // (proj2 (Z.eqb_eq _ _)) //. rewrite contents_length in Hmin. pose proof (pipe_len_bound x). lia.
  - assert (0 < pipe_len x) as Hpos by (rewrite contents_length in Hk; lia).
    pose proof (pop_contents x Hok Hpos) as Hc. rewrite Hc /= in Hk, Hmin.
    destruct (IH (l ++ [front x]) (pop x)) as (x' & Hok' & Hc' & Hr & Hw & Hl);
      [done|by apply pop_ok|done|lia|rewrite length_app /=; lia|].
    exists x'. split_and!; try done.
    + rewrite Hc' Hc //.
    + rewrite length_app in Hl. change (length [front x]) with 1%nat in Hl. rewrite Hc firstn_cons.
      replace (Z.to_nat (n - Z.of_nat (length l))) with (S (Z.to_nat (n - Z.of_nat (length l + 1)))) by lia.
      rewrite (loop_S _ _ _ _ (Z.of_nat (length l + 1)) (enter (LkPipe p) (delivered f (l ++ [front x]) (pop x)))).
      * rewrite piperead_step_Ok //; [lia|]. do 2 f_equal. lia.
      * rewrite Hl -app_assoc /=. do 2 f_equal. lia.
Qed.

Lemma delivered_nil f x : pipes s !! p = Some x → delivered f [] x = s.
Proof.
  intros Hx. rewrite /delivered with_pipe_id //. by destruct s as [? ? ? ? ? [] ? ? ? ? ? ?].
Qed.

(** What a read of [n] bytes does. *)
Definition read_result (n : Z) (f : Z → Z) (x x' : pipe) : outcome switch kstate Z :=
  if bool_decide (contents x = []) && writeopen x then
    if p_killed pr then Ok (-1) (crit s)
    else Switch (SwSleep (ChPipeR p) (LkPipe p) (eflags_IF (k_cpu s)))
           (set_procs (alter (asleep (ChPipeR p)) i (procs s)) (enter LkPtable (crit s)))
  else
    let k := Z.to_nat (Z.min n (Z.of_nat (length (contents x)))) in
    Ok (Z.of_nat k) (woken (ChPipeW p) (crit (delivered f (take k (contents x)) x'))).

Lemma piperead_body_spec addr n f x :
  user_buffer addr n f → 0 ≤ n → pipes s !! p = Some x → pipe_ok x →
  ∃ x', pipe_ok x' ∧ contents x' = drop (Z.to_nat n) (contents x) ∧
        readopen x' = readopen x ∧ writeopen x' = writeopen x ∧
        piperead_body p addr n (enter (LkPipe p) s) = read_result n f x x'.
Proof.
  intros Hb Hn Hx Hok. set (k := Z.to_nat (Z.min n (Z.of_nat (length (contents x))))).
  destruct (piperead_copy addr n f [] x k Hb Hok Hn) as (x' & Hok' & Hc' & Hr & Hw & Hl); [lia|simpl; lia|].
  exists x'. split_and!; try done.
  { rewrite Hc'. destruct (Z.le_gt_cases n (Z.of_nat (length (contents x)))).
    - rewrite /k Z.min_l //.
    - rewrite !drop_ge //; lia. }
  rewrite /piperead_body (bind_Ok _ _ _ _ _ (getpipe_enter p x _ s Hx)) pipe_empty // /read_result.
  assert (bool_decide (contents x = []) = (pipe_len x =? 0)) as ->.
  { apply eq_true_iff_eq. rewrite bool_decide_eq_true Z.eqb_eq -length_zero_iff_nil contents_length.
    pose proof (pipe_len_bound x). lia. }
  destruct ((pipe_len x =? 0) && writeopen x).
  - pose proof (proc_killed_enter x) as Hkl. rewrite with_pipe_id // in Hkl.
    rewrite (bind_Ok _ _ _ _ _ Hkl). destruct (p_killed pr).
    + rewrite (bind_Ok _ _ _ _ _ (release_enter (LkPipe p) s Hlock ops_cpu_ok)) //.
    + by apply (sleep_Switch _ _ _ _ pr).
  - rewrite delivered_nil // in Hl. rewrite Nat.add_0_l app_nil_l Z.sub_0_r in Hl.
    rewrite (bind_Ok _ _ _ _ _ Hl). set (s1 := delivered f _ x').
    rewrite (bind_Ok _ _ _ _ _ (wakeup_enter (ChPipeW p) (LkPipe p) s1 _ Hpt ops_cpu_ok)) //.
    rewrite (bind_Ok _ _ _ _ _ (release_enter (LkPipe p) (woken (ChPipeW p) s1) Hlock ops_cpu_ok)) //.
Qed.

End ops.

(** ** Main properties *)

(** Process [i] calls an operation on the pipe [x] at [p], holding no lock. *)
Record pipe_call (p : Z) (s : kstate) (i : nat) (pr : proc) (x : pipe) : Prop := {
  pc_lock : k_locks s !! LkPipe p = None;
  pc_ptable : k_locks s !! LkPtable = None;
  pc_ncli : ncli (k_cpu s) = 0;
  pc_cur : k_proc s = Some i;
  pc_proc : procs s !! i = Some pr;
  pc_pipe : pipes s !! p = Some x;
  pc_ok : pipe_ok x
}.

(** C15: pipewrite() refines appending to a queue of at most [PIPESIZE] bytes. With
    room for the whole message, the message is appended, the readers are woken
    and [n] is returned. Otherwise the bytes that fit are appended; the caller
    gets -1 if there is no reader or it was killed, and else wakes the readers
    and sleeps with the pipe's lock free. Resumed after [k] bytes, it goes on
    with the rest of the message in the same way. *)
Theorem pipewrite_correct p s i pr x addr n d k :
  pipe_call p s i pr x → user_bytes s addr d → length d = Z.to_nat n → 0 ≤ k ≤ n →
  let room := PIPESIZE - pipe_len x in
  ∃ x', pipe_ok x' ∧ contents x' = contents x ++ take (Z.to_nat room) (drop (Z.to_nat k) d) ∧
    readopen x' = readopen x ∧ writeopen x' = writeopen x ∧
    pipewrite_loop p addr n k (enter (LkPipe p) s) = write_end p s i pr n (room <? n - k) x' ∧
    (k = 0 → pipewrite p addr n s = write_end p s i pr n (room <? n) x').
Proof.
  intros [Hl Hpt Hn Hc Hpr Hx Hok] Hd Hlen Hk room.
  destruct (pipewrite_loop_spec p s i pr Hl Hpt Hn Hc Hpr addr n d x k) as (x' & H1 & H2 & H3 & H4 & H5); try done.
  exists x'. split_and!; try done. intros ->. rewrite Z.sub_0_r in H5.
  by rewrite /pipewrite (bind_Ok _ _ _ _ _ (acquire_Ok _ _ Hl)) H5.
Qed.

(** C16: piperead() refines taking from the front of that queue. The oldest bytes,
    as many as there are up to [n], are stored in the process's buffer in order
    and removed, and the writers are woken. An empty pipe with a writer makes the
    reader sleep, or return -1 if it was killed; without a writer it gives 0. *)
Theorem piperead_correct p s i pr x addr n f :
  pipe_call p s i pr x → user_buffer s addr n f → 0 ≤ n →
  ∃ x', pipe_ok x' ∧ contents x' = drop (Z.to_nat n) (contents x) ∧
    readopen x' = readopen x ∧ writeopen x' = writeopen x ∧
    piperead p addr n s = read_result p s i pr n f x x'.
Proof.
  intros [Hl Hpt Hn Hc Hpr Hx Hok] Hb H0.
  destruct (piperead_body_spec p s i pr Hl Hpt Hn Hc Hpr addr n f x) as (x' & H1 & H2 & H3 & H4 & H5); try done.
  exists x'. split_and!; try done. by rewrite /piperead (bind_Ok _ _ _ _ _ (acquire_Ok _ _ Hl)) H5.
Qed.

(** A pipe whose write counter is about to wrap around. *)
Definition demo_pipe : pipe := Pipe (replicate 512 7) (2 ^ 32 - 2) (2 ^ 32 - 1) true true.
Definition demo_pipe_state : kstate := with_pipe 0x80400000 demo_pipe one_proc.

Lemma demo_pipe_call : pipe_call 0x80400000 demo_pipe_state 0 (set_state RUNNING zero_proc) demo_pipe.
Proof. by split; [..|split]. Qed.

Lemma pipewrite_correct_witness :
  ∃ x', contents x' = [7; 0; 0; 0] ∧
    pipewrite 0x80400000 0x80000000 3 demo_pipe_state =
    Ok 3 (woken (ChPipeR 0x80400000) (crit (with_pipe 0x80400000 x' demo_pipe_state))).
Proof.
  destruct (pipewrite_correct 0x80400000 demo_pipe_state 0 (set_state RUNNING zero_proc) demo_pipe
    0x80000000 3 [0; 0; 0] 0) as (x' & _ & Hc & _ & _ & _ & Hw).
  - exact demo_pipe_call.
  - intros j b Hj. exists (u32 (0x80000000 + Z.of_nat j)).
    do 3 (destruct j as [|j]; [injection Hj as <-; split; reflexivity|]). discriminate Hj.
  - reflexivity.
  - lia.
  - exists x'. split; [rewrite Hc; reflexivity|]. rewrite (Hw eq_refl). reflexivity.
Defined.

Lemma piperead_correct_witness :
  ∃ x', contents x' = [] ∧
    piperead 0x80400000 0x80000000 9 demo_pipe_state =
    Ok 1 (woken (ChPipeW 0x80400000)
      (crit (delivered 0x80400000 demo_pipe_state (λ j, 0x80000000 + j) [7] x'))).
Proof.
  destruct (piperead_correct 0x80400000 demo_pipe_state 0 (set_state RUNNING zero_proc) demo_pipe
    0x80000000 9 (λ j, 0x80000000 + j)) as (x' & _ & Hc & _ & _ & Hr).
  - exact demo_pipe_call.
  - intros m _ j Hj. rewrite /translate u32_id; [lia|].
    assert (KERNBASE <=? 0x80000000 + j = true) as -> by (apply Z.leb_le; unfold KERNBASE; lia). reflexivity.
  - lia.
  - exists x'. split; [rewrite Hc; reflexivity|]. rewrite Hr. reflexivity.
Defined.
