(* ===== verification/File.v ===== *)
(** * Open files: file.c, and pipealloc() of pipe.c

    The system-wide table of open files. A file pointer is an index into
    [ftable.file]. Addresses given to fileread() and filewrite() are addresses
    of the calling process. *)

From S2P Require Import Prelude Param Bytes String State Spinlock Sched Sleeplock Bio Log Kalloc Vm Fs Pipe.

(** ** Access to the table *)

Definition files (s : kstate) : list file := ft_file (k_files s).

Definition set_ftable (l : list file) (s : kstate) : kstate :=
  set_files (Files l (ft_pipes (k_files s))) s.

Definition getfile (f : nat) : K file :=
  l ← gets files;
  match l !! f with Some x => mret x | None => fault 0 end.

Definition updfile (f : nat) (g : file → file) : K unit :=
  modify (λ s, set_ftable (alter g f (files s)) s).

Definition set_fref (v : Z) (x : file) : file :=
  File (f_type x) v (f_readable x) (f_writable x) (f_pipe x) (f_ip x) (f_off x).
Definition set_ftype (t : ftype) (x : file) : file :=
  File t (f_ref x) (f_readable x) (f_writable x) (f_pipe x) (f_ip x) (f_off x).
Definition set_foff (v : Z) (x : file) : file :=
  File (f_type x) (f_ref x) (f_readable x) (f_writable x) (f_pipe x) (f_ip x) v.

(** ** Reference counts *)

Definition fileinit : K unit := initlock LkFtable.

Definition filealloc : K (option nat) :=
  acquire LkFtable;;
  r ← scan (seq 0 NFILE) (λ f,
    x ← getfile f;
    if f_ref x =? 0 then
      updfile f (set_fref 1);;
      release LkFtable;;
      mret (Some f)
    else mret None);
  match r with
  | Some f => mret (Some f)
  | None => release LkFtable;; mret None
  end.

Definition filedup (f : nat) : K nat :=
  acquire LkFtable;;
  x ← getfile f;
  if f_ref x <? 1 then panic "filedup" else
  updfile f (set_fref (f_ref x + 1));;
  release LkFtable;;
  mret f.

Section file.
Context `{IdeDriver, Devsw} (end_ : Z).

Definition fileclose (f : nat) : K unit :=
  acquire LkFtable;;
  x ← getfile f;
  if f_ref x <? 1 then panic "fileclose" else
  updfile f (set_fref (f_ref x - 1));;
  if f_ref x - 1 >? 0 then release LkFtable else
  ff ← getfile f;
  updfile f (λ x, set_ftype FD_NONE (set_fref 0 x));;
  release LkFtable;;
  if bool_decide (f_type ff = FD_PIPE) then pipeclose end_ (f_pipe ff) (f_writable ff)
  else when (bool_decide (f_type ff = FD_INODE))
    (begin_op;;
     (match f_ip ff with Some ip => iput ip | None => fault 0 end);;
     end_op).

(** ** Contents *)

(** The stores of stati() to a struct stat of the process at [st]. *)
Definition vstore16 (a v : Z) : K unit := vstore8 a (v mod 256);; vstore8 (u32 (a + 1)) (v / 2 ^ 8 mod 256).

Definition put_stat (st : Z) (v : stat) : K unit :=
  vstore32 (u32 (st + 4)) (st_dev v);;
  vstore32 (u32 (st + 8)) (st_ino v);;
  vstore16 st (st_type v);;
  vstore16 (u32 (st + 12)) (st_nlink v);;
  vstore32 (u32 (st + 16)) (st_size v).

Definition sizeof_stat : Z := 20.

Definition filestat (f : nat) (st : Z) : K Z :=
  x ← getfile f;
  match f_type x, f_ip x with
  | FD_INODE, Some ip =>
      ilock (Some ip);;
      v ← stati ip;
      put_stat st v;;
      iunlock (Some ip);;
      mret 0
  | FD_INODE, None => panic "ilock"
  | _, _ => mret (-1)
  end.

(** User memory as the destination of readi() (the address advances) and as the
    source of writei(). *)
Definition put_user (dst : Z) (bs : list Z) : K Z :=
  for_each (imap (λ k b, (k, b)) bs) (λ '(k, b), vstore8 (u32 (dst + Z.of_nat k)) b);;
  mret (u32 (dst + Z.of_nat (length bs))).

Fixpoint vload_bytes (a : Z) (n : nat) : K (list Z) :=
  match n with
  | O => mret []
  | S n' => b ← vload8 a; l ← vload_bytes (u32 (a + 1)) n'; mret (b :: l)
  end.

Definition src_user (addr : Z) (tot m : Z) : K (list Z) := vload_bytes (u32 (addr + tot)) (Z.to_nat m).

Definition fileread (f : nat) (addr n : Z) : K Z :=
  x ← getfile f;
  if negb (f_readable x) then mret (-1) else
  match f_type x with
  | FD_PIPE => piperead (f_pipe x) addr n
  | FD_INODE =>
      ilock (f_ip x);;
      match f_ip x with
      | None => panic "ilock"
      | Some ip =>
          '(r, _) ← readi put_user ip addr (f_off x) (u32 n);
          when (r >? 0) (updfile f (λ x, set_foff (u32 (f_off x + r)) x));;
          iunlock (Some ip);;
          mret r
      end
  | FD_NONE => panic "fileread"
  end.

(** Bytes written in one transaction. *)
Definition filewrite_max : Z := (LOGSIZE - 1 - 1 - 2) / 2 * 512.

(** One turn of the loop of filewrite(): [inr] leaves it with the final [i]. *)
Definition filewrite_step (f ip : nat) (addr n : Z) (i : Z) : K (Z + Z) :=
  if negb (i <? n) then mret (inr i) else
  let n1 := Z.min (n - i) filewrite_max in
  begin_op;;
  ilock (Some ip);;
  x ← getfile f;
  r ← writei (src_user (u32 (addr + i))) ip (f_off x) n1;
  when (r >? 0) (updfile f (λ x, set_foff (u32 (f_off x + r)) x));;
  iunlock (Some ip);;
  end_op;;
  if r <? 0 then mret (inr i) else
  if negb (r =? n1) then panic "short filewrite" else
  mret (inl (i + r)).

Definition filewrite (f : nat) (addr n : Z) : K Z :=
  x ← getfile f;
  if negb (f_writable x) then mret (-1) else
  match f_type x with
  | FD_PIPE => pipewrite (f_pipe x) addr n
  | FD_INODE =>
      match f_ip x with
      | None => if 0 <? n then begin_op;; panic "ilock" else mret (if n =? 0 then 0 else -1)
      | Some ip =>
          i ← loop (S (S (Z.to_nat (n / filewrite_max)))) (filewrite_step f ip addr n) 0;
          mret (if i =? n then n else -1)
      end
  | FD_NONE => panic "filewrite"
  end.

(** ** pipealloc *)

(** The label [bad]. *)
Definition pipealloc_bad (f0 f1 : option nat) : K (option (nat * nat)) :=
  (match f0 with Some f => fileclose f | None => mret tt end);;
  (match f1 with Some f => fileclose f | None => mret tt end);;
  mret None.

(** The two ends of a pipe at [p]. *)
Definition pipe_end (p : Z) (writable : bool) (x : file) : file :=
  File FD_PIPE (f_ref x) (negb writable) writable p (f_ip x) (f_off x).

Definition pipealloc : K (option (nat * nat)) :=
  f0 ← filealloc;
  match f0 with
  | None => pipealloc_bad None None
  | Some a =>
      f1 ← filealloc;
      match f1 with
      | None => pipealloc_bad (Some a) None
      | Some b =>
          p ← kalloc;
          if p =? 0 then pipealloc_bad (Some a) (Some b) else
          d ← gets (λ s, bytes (mem_bytes (k_mem s)) (p + 52) (Z.to_nat PIPESIZE));
          setpipe p (Pipe d 0 0 true true);;
          initlock (LkPipe p);;
          updfile a (pipe_end p false);;
          updfile b (pipe_end p true);;
          mret (Some (a, b))
      end
  end.

End file.
