(* ===== verification/Proc.v ===== *)
(** * Processes: proc.c, and the signal framework in it

    Process creation, termination and waiting, memory growth, the scheduler's
    loop, and signals. The trap frame of a process is the value [p_tf]; of its
    kernel stack only the page and the saved context are kept. *)

From S2P Require Import Prelude Param Bytes String State Spinlock Sched Sleeplock Bio Log Kalloc Vm Fs Console Pipe File.

(** ** Setters of struct proc *)

Definition set_sz (v : Z) (p : proc) : proc :=
  Proc v (p_pgdir p) (p_kstack p) (p_state p) (p_pid p) (p_parent p) (p_tf p) (p_context
       p) (p_chan p) (p_killed p) (p_ofile p) (p_cwd p) (p_name p) (p_pending p)
       (p_sighandlers p) (p_procHandlingSigNow p) (p_tfToRestore p) (p_sigretAdd p)
       (p_alarm_ticks_num p).
Definition set_pgdir (v : Z) (p : proc) : proc :=
  Proc (p_sz p) v (p_kstack p) (p_state p) (p_pid p) (p_parent p) (p_tf p) (p_context p)
       (p_chan p) (p_killed p) (p_ofile p) (p_cwd p) (p_name p) (p_pending p) (p_sighandlers
       p) (p_procHandlingSigNow p) (p_tfToRestore p) (p_sigretAdd p) (p_alarm_ticks_num p).
Definition set_kstack (v : Z) (p : proc) : proc :=
  Proc (p_sz p) (p_pgdir p) v (p_state p) (p_pid p) (p_parent p) (p_tf p) (p_context p)
       (p_chan p) (p_killed p) (p_ofile p) (p_cwd p) (p_name p) (p_pending p) (p_sighandlers
       p) (p_procHandlingSigNow p) (p_tfToRestore p) (p_sigretAdd p) (p_alarm_ticks_num p).
Definition set_pid (v : Z) (p : proc) : proc :=
  Proc (p_sz p) (p_pgdir p) (p_kstack p) (p_state p) v (p_parent p) (p_tf p) (p_context
       p) (p_chan p) (p_killed p) (p_ofile p) (p_cwd p) (p_name p) (p_pending p)
       (p_sighandlers p) (p_procHandlingSigNow p) (p_tfToRestore p) (p_sigretAdd p)
       (p_alarm_ticks_num p).
Definition set_parent (v : option nat) (p : proc) : proc :=
  Proc (p_sz p) (p_pgdir p) (p_kstack p) (p_state p) (p_pid p) v (p_tf p) (p_context p)
       (p_chan p) (p_killed p) (p_ofile p) (p_cwd p) (p_name p) (p_pending p) (p_sighandlers
       p) (p_procHandlingSigNow p) (p_tfToRestore p) (p_sigretAdd p) (p_alarm_ticks_num p).
Definition set_tf (v : trapframe) (p : proc) : proc :=
  Proc (p_sz p) (p_pgdir p) (p_kstack p) (p_state p) (p_pid p) (p_parent p) v (p_context
       p) (p_chan p) (p_killed p) (p_ofile p) (p_cwd p) (p_name p) (p_pending p)
       (p_sighandlers p) (p_procHandlingSigNow p) (p_tfToRestore p) (p_sigretAdd p)
       (p_alarm_ticks_num p).
Definition set_context (v : context) (p : proc) : proc :=
  Proc (p_sz p) (p_pgdir p) (p_kstack p) (p_state p) (p_pid p) (p_parent p) (p_tf p) v
       (p_chan p) (p_killed p) (p_ofile p) (p_cwd p) (p_name p) (p_pending p) (p_sighandlers
       p) (p_procHandlingSigNow p) (p_tfToRestore p) (p_sigretAdd p) (p_alarm_ticks_num p).
Definition set_ofile (v : list (option nat)) (p : proc) : proc :=
  Proc (p_sz p) (p_pgdir p) (p_kstack p) (p_state p) (p_pid p) (p_parent p) (p_tf p)
       (p_context p) (p_chan p) (p_killed p) v (p_cwd p) (p_name p) (p_pending p)
       (p_sighandlers p) (p_procHandlingSigNow p) (p_tfToRestore p) (p_sigretAdd p)
       (p_alarm_ticks_num p).
Definition set_cwd (v : option nat) (p : proc) : proc :=
  Proc (p_sz p) (p_pgdir p) (p_kstack p) (p_state p) (p_pid p) (p_parent p) (p_tf p)
       (p_context p) (p_chan p) (p_killed p) (p_ofile p) v (p_name p) (p_pending p)
       (p_sighandlers p) (p_procHandlingSigNow p) (p_tfToRestore p) (p_sigretAdd p)
       (p_alarm_ticks_num p).
Definition set_name (v : list Z) (p : proc) : proc :=
  Proc (p_sz p) (p_pgdir p) (p_kstack p) (p_state p) (p_pid p) (p_parent p) (p_tf p)
       (p_context p) (p_chan p) (p_killed p) (p_ofile p) (p_cwd p) v (p_pending p)
       (p_sighandlers p) (p_procHandlingSigNow p) (p_tfToRestore p) (p_sigretAdd p)
       (p_alarm_ticks_num p).
Definition set_pending (v : list Z) (p : proc) : proc :=
  Proc (p_sz p) (p_pgdir p) (p_kstack p) (p_state p) (p_pid p) (p_parent p) (p_tf p)
       (p_context p) (p_chan p) (p_killed p) (p_ofile p) (p_cwd p) (p_name p) v
       (p_sighandlers p) (p_procHandlingSigNow p) (p_tfToRestore p) (p_sigretAdd p)
       (p_alarm_ticks_num p).
Definition set_sighandlers (v : list Z) (p : proc) : proc :=
  Proc (p_sz p) (p_pgdir p) (p_kstack p) (p_state p) (p_pid p) (p_parent p) (p_tf p)
       (p_context p) (p_chan p) (p_killed p) (p_ofile p) (p_cwd p) (p_name p) (p_pending p) v
       (p_procHandlingSigNow p) (p_tfToRestore p) (p_sigretAdd p) (p_alarm_ticks_num p).
Definition set_procHandlingSigNow (v : Z) (p : proc) : proc :=
  Proc (p_sz p) (p_pgdir p) (p_kstack p) (p_state p) (p_pid p) (p_parent p) (p_tf p)
       (p_context p) (p_chan p) (p_killed p) (p_ofile p) (p_cwd p) (p_name p) (p_pending p)
       (p_sighandlers p) v (p_tfToRestore p) (p_sigretAdd p) (p_alarm_ticks_num p).
Definition set_sigretAdd (v : Z) (p : proc) : proc :=
  Proc (p_sz p) (p_pgdir p) (p_kstack p) (p_state p) (p_pid p) (p_parent p) (p_tf p)
       (p_context p) (p_chan p) (p_killed p) (p_ofile p) (p_cwd p) (p_name p) (p_pending p)
       (p_sighandlers p) (p_procHandlingSigNow p) (p_tfToRestore p) v (p_alarm_ticks_num p).
Definition set_alarm_ticks_num (v : Z) (p : proc) : proc :=
  Proc (p_sz p) (p_pgdir p) (p_kstack p) (p_state p) (p_pid p) (p_parent p) (p_tf p)
       (p_context p) (p_chan p) (p_killed p) (p_ofile p) (p_cwd p) (p_name p) (p_pending p)
       (p_sighandlers p) (p_procHandlingSigNow p) (p_tfToRestore p) (p_sigretAdd p) v.

(** Trap frame registers written by the kernel. *)
Definition set_eax (v : Z) (t : trapframe) : trapframe :=
  Trapframe (tf_edi t) (tf_esi t) (tf_ebp t) (tf_oesp t) (tf_ebx t) (tf_edx t) (tf_ecx t) v
    (tf_gs t) (tf_fs t) (tf_es t) (tf_ds t) (tf_trapno t) (tf_err t) (tf_eip t) (tf_cs t)
    (tf_eflags t) (tf_esp t) (tf_ss t).
Definition set_eip_esp (eip esp : Z) (t : trapframe) : trapframe :=
  Trapframe (tf_edi t) (tf_esi t) (tf_ebp t) (tf_oesp t) (tf_ebx t) (tf_edx t) (tf_ecx t) (tf_eax t)
    (tf_gs t) (tf_fs t) (tf_es t) (tf_ds t) (tf_trapno t) (tf_err t) eip (tf_cs t)
    (tf_eflags t) esp (tf_ss t).

Definition pinit : K unit := initlock LkPtable.

(** ** Creation *)

(** What allocproc() does to the slot it takes, under [ptable.lock]. *)
Definition embryo (pid : Z) (p : proc) : proc :=
  set_alarm_ticks_num 0
    (set_sighandlers (replicate NUMSIG defualtHandlerAdd)
      (set_pending (replicate NUMSIG 0) (set_pid pid (set_state EMBRYO p)))).

(** The frame of a fresh process is left to its creator, which overwrites it. *)
Definition allocproc : K (option nat) :=
  acquire LkPtable;;
  r ← scan (seq 0 NPROC) (λ i,
    p ← getproc i;
    mret (if bool_decide (p_state p = UNUSED) then Some i else None));
  match r with
  | None => release LkPtable;; mret None
  | Some i =>
      pid ← gets (λ s, pt_nextpid (k_pt s));
      updproc i (embryo pid);;
      modify (λ s, set_pt (Ptable (procs s) (s32 (pid + 1)) (pt_initproc (k_pt s))) s);;
      release LkPtable;;
      k ← kalloc;
      updproc i (set_kstack k);;
      if k =? 0 then
        updproc i (set_state UNUSED);;
        mret None
      else
        updproc i (set_context CtxForkret);;
        mret (Some i)
  end.

(** safestrcpy(p->name, s, sizeof(p->name)) on a string without its NUL. *)
Definition name_copy (l : list Z) : list Z := take 15 l.

(** The frame userinit() builds. *)
Definition init_tf : trapframe :=
  let ds := Z.lor (Z.shiftl SEG_UDATA 3) DPL_USER in
  Trapframe 0 0 0 0 0 0 0 0 0 0 ds ds 0 0 0 (Z.lor (Z.shiftl SEG_UCODE 3) DPL_USER) FL_IF PGSIZE ds.

Section proc.
Context `{IdeDriver, Devsw} (end_ data_ : Z).

(** [init] and [size] are the linker symbols of the embedded initcode. *)
Definition userinit (init size : Z) : K unit :=
  r ← allocproc;
  match r with
  | None => fault 0
  | Some i =>
      modify (λ s, set_pt (Ptable (procs s) (pt_nextpid (k_pt s)) (Some i)) s);;
      d ← setupkvm data_;
      updproc i (set_pgdir d);;
      if d =? 0 then panic "userinit: out of memory?" else
      inituvm d init (s32 size);;
      updproc i (λ p, set_tf init_tf (set_sz PGSIZE p));;
      updproc i (set_name (name_copy (chars "initcode")));;
      c ← namei [slash];
      updproc i (set_cwd c);;
      acquire LkPtable;;
      updproc i (set_state RUNNABLE);;
      release LkPtable
  end.

Definition growproc (n : Z) : K Z :=
  i ← cur;
  p ← getproc i;
  sz ←
    (if n >? 0 then allocuvm end_ (p_pgdir p) (p_sz p) (u32 (p_sz p + n))
     else if n <? 0 then deallocuvm end_ (p_pgdir p) (p_sz p) (u32 (p_sz p + n))
     else mret (p_sz p));
  if negb (n =? 0) && (sz =? 0) then mret (-1) else
  updproc i (set_sz sz);;
  switchuvm i;;
  mret 0.

(** One turn of fork()'s loop over the open files. *)
Definition fork_file (i np fd : nat) : K unit :=
  p ← getproc i;
  match p_ofile p !! fd with
  | Some (Some f) =>
      f' ← filedup f;
      updproc np (λ q, set_ofile (<[fd := Some f']> (p_ofile q)) q)
  | _ => mret tt
  end.

Definition fork : K Z :=
  r ← allocproc;
  match r with
  | None => mret (-1)
  | Some np =>
      i ← cur;
      p ← getproc i;
      d ← copyuvm end_ data_ (p_pgdir p) (p_sz p);
      updproc np (set_pgdir d);;
      if d =? 0 then
        q ← getproc np;
        kfree end_ (p_kstack q);;
        updproc np (λ q, set_state UNUSED (set_kstack 0 q));;
        mret (-1)
      else
      updproc np (λ q, set_tf (p_tf p) (set_parent (Some i) (set_sz (p_sz p) q)));;
      updproc np (set_alarm_ticks_num (p_alarm_ticks_num p));;
      updproc np (λ q, set_tf (set_eax 0 (p_tf q)) q);;
      for_each (seq 0 NOFILE) (fork_file i np);;
      c ← (match p_cwd p with Some c => idup c | None => fault 0 end);
      updproc np (set_cwd (Some c));;
      updproc np (set_name (name_copy (p_name p)));;
      q ← getproc np;
      acquire LkPtable;;
      updproc np (set_state RUNNABLE);;
      release LkPtable;;
      mret (p_pid q)
  end.

(** ** Termination *)

Definition exit_file (i fd : nat) : K unit :=
  p ← getproc i;
  match p_ofile p !! fd with
  | Some (Some f) =>
      fileclose end_ f;;
      updproc i (λ q, set_ofile (<[fd := None]> (p_ofile q)) q)
  | _ => mret tt
  end.

(** wakeup1() on the address of a process; no process sleeps on address 0. *)
Definition wakeup_proc (o : option nat) : K unit :=
  match o with Some i => wakeup1 (ChProc i) | None => mret tt end.

(** One turn of the loop that passes the children of [i] to init. *)
Definition reparent (i : nat) (o : option nat) (j : nat) : K unit :=
  q ← getproc j;
  when (bool_decide (p_parent q = Some i))
    (updproc j (set_parent o);;
     when (bool_decide (p_state q = ZOMBIE)) (wakeup_proc o)).

Definition exit {A} : K A :=
  i ← cur;
  o ← gets (λ s, pt_initproc (k_pt s));
  if bool_decide (o = Some i) then panic "init exiting" else
  for_each (seq 0 NOFILE) (exit_file i);;
  begin_op;;
  p ← getproc i;
  (match p_cwd p with Some c => iput c | None => fault 0 end);;
  end_op;;
  updproc i (set_cwd None);;
  acquire LkPtable;;
  p ← getproc i;
  wakeup_proc (p_parent p);;
  for_each (seq 0 NPROC) (reparent i o);;
  updproc i (set_state ZOMBIE);;
  sched (λ _, SwExit).

(** What wait() does to the ZOMBIE child it reaps. *)
Definition reap (p : proc) : proc :=
  set_state UNUSED (set_killed false (set_name [] (set_parent None (set_pid 0 p)))).

(** wait()'s scan of the table: a reaped child's pid, or [havekids]. *)
Fixpoint wait_scan (i : nat) (l : list nat) (havekids : bool) : K (bool + Z) :=
  match l with
  | [] => mret (inl havekids)
  | j :: l' =>
      p ← getproc j;
      if bool_decide (p_parent p ≠ Some i) then wait_scan i l' havekids else
      if bool_decide (p_state p = ZOMBIE) then
        kfree end_ (p_kstack p);;
        updproc j (set_kstack 0);;
        freevm end_ (p_pgdir p);;
        updproc j reap;;
        release LkPtable;;
        mret (inr (p_pid p))
      else wait_scan i l' true
  end.

(** One turn of wait()'s [for(;;)]; it ends the call or sleeps. *)
Definition wait_body : K Z :=
  i ← cur;
  r ← wait_scan i (seq 0 NPROC) false;
  match r with
  | inr pid => mret pid
  | inl havekids =>
      p ← getproc i;
      if negb havekids || p_killed p then
        release LkPtable;;
        mret (-1)
      else sleep (ChProc i) LkPtable
  end.

Definition wait : K Z :=
  acquire LkPtable;;
  wait_body.

Definition wait_resume (ie : bool) : K Z :=
  sleep_resume LkPtable ie;;
  wait_body.

End proc.

(** ** The scheduler *)

Section scheduler.
(** [run i]: what happens between swtch() to process [i] and the swtch() by
    which it comes back. *)
Context (run : nat → K unit).

Definition scheduler_one (i : nat) : K unit :=
  p ← getproc i;
  when (bool_decide (p_state p = RUNNABLE))
    (modify (set_proc (Some i));;
     switchuvm i;;
     updproc i (set_state RUNNING);;
     run i;;
     switchkvm;;
     modify (set_proc None)).

(** sti() *)
Definition sti : K unit :=
  modify (λ s, set_cpu (Cpu (cpu_id (k_cpu s)) (ncli (k_cpu s)) (intena (k_cpu s)) true) s).

(** One turn of the scheduler's [for(;;)]. *)
Definition scheduler_pass : K unit :=
  sti;;
  acquire LkPtable;;
  for_each (seq 0 NPROC) scheduler_one;;
  release LkPtable.

End scheduler.

(** forkret(), with its static variable [first]. *)
Definition forkret `{IdeDriver} (first : bool) : K bool :=
  release LkPtable;;
  when first (iinit ROOTDEV;; initlog ROOTDEV);;
  mret false.

(** ** procdump *)

Definition state_name (st : procstate) : list Z :=
  chars match st with
        | UNUSED => "unused" | EMBRYO => "embryo" | SLEEPING => "sleep "
        | RUNNABLE => "runble" | RUNNING => "run   " | ZOMBIE => "zombie"
        end.

(** The leading entries of [pc] that are not 0. *)
Fixpoint nonzero_prefix (l : list Z) : list Z :=
  match l with
  | x :: l' => if x =? 0 then [] else x :: nonzero_prefix l'
  | [] => []
  end.

(** [pcs i]: getcallerpcs() on the kernel stack of sleeping process [i]. *)
Definition procdump (pcs : nat → list Z) : K unit :=
  for_each (seq 0 NPROC) (λ i,
    p ← getproc i;
    if bool_decide (p_state p = UNUSED) then mret tt else
    cprintf (chars "%d %s %s") [AInt (p_pid p); AStr (Some (state_name (p_state p))); AStr (Some (p_name p))];;
    when (bool_decide (p_state p = SLEEPING))
      (for_each (nonzero_prefix (pcs i)) (λ a, cprintf (chars " %p") [AInt a]));;
    cprintf [newline] []).

(** ** Signals

    An access outside of an array of struct proc is a fault. *)

(** (sighandler_t)(-1) as a word. *)
Definition SIG_ERR : Z := u32 (-1).

Definition signal (sigNum newHandler : Z) : K Z :=
  if (sigNum <? 0) || (sigNum >? Z.of_nat NUMSIG - 1) then mret SIG_ERR else
  i ← cur;
  p ← getproc i;
  match p_sighandlers p !! Z.to_nat sigNum with
  | None => fault 0
  | Some handlerToReturn =>
      updproc i (λ p, set_sighandlers (<[Z.to_nat sigNum := newHandler]> (p_sighandlers p)) p);;
      mret handlerToReturn
  end.

(** [p->pending[sigNum] = 1] *)
Definition raise (sigNum : nat) (p : proc) : proc := set_pending (<[sigNum := 1]> (p_pending p)) p.

Definition sigsend (Pid sigNum : Z) : K Z :=
  if (Pid <? 0) || (sigNum <? 0) || (sigNum >? Z.of_nat NUMSIG - 1) then mret (-1) else
  acquire LkPtable;;
  r ← scan (seq 0 NPROC) (λ i,
    p ← getproc i;
    if p_pid p =? Pid then
      if negb (Z.to_nat sigNum <? length (p_pending p))%nat then fault 0 else
      updproc i (raise (Z.to_nat sigNum));;
      release LkPtable;;
      mret (Some 0)
    else mret None);
  match r with
  | Some v => mret v
  | None => release LkPtable;; mret (-1)
  end.

(** A trap frame from its 19 words; the segment registers are 16 bits wide. *)
Definition tf_of_words (l : list Z) : trapframe :=
  let w k := default 0 (l !! k) in
  Trapframe (w 0%nat) (w 1%nat) (w 2%nat) (w 3%nat) (w 4%nat) (w 5%nat) (w 6%nat) (w 7%nat)
    (u16 (w 8%nat)) (u16 (w 9%nat)) (u16 (w 10%nat)) (u16 (w 11%nat)) (w 12%nat) (w 13%nat)
    (w 14%nat) (u16 (w 15%nat)) (w 16%nat) (w 17%nat) (u16 (w 18%nat)).

(** The words from [&proc->tfToRestore] on: the last three fields of the slot
    and [beyond], the 16 words of memory after it. *)
Definition words_at_tfToRestore (p : proc) (beyond : list Z) : list Z :=
  [p_tfToRestore p; p_sigretAdd p; u32 (p_alarm_ticks_num p)] ++ beyond.

Definition sigreturn (beyond : nat → kstate → list Z) : K Z :=
  i ← cur;
  p ← getproc i;
  cprintf (chars "proc.c : sigreturn for process %d " ++ [newline]) [AInt (p_pid p)];;
  p ← getproc i;
  b ← gets (beyond i);
  updproc i (λ p, set_procHandlingSigNow 0 (set_tf (tf_of_words (words_at_tfToRestore p b)) p));;
  mret 0.

(** One turn of Alarm()'s loop. *)
Definition tick (p : proc) : proc :=
  if p_alarm_ticks_num p >? 0 then
    let p' := set_alarm_ticks_num (p_alarm_ticks_num p - 1) p in
    if p_alarm_ticks_num p' =? 0 then raise SIGALRM p' else p'
  else p.

Definition Alarm : K unit :=
  acquire LkPtable;;
  modify (λ s, set_procs (tick <$> procs s) s);;
  release LkPtable.
