(* ===== verification/SchedSpec.v ===== *)
(** * The scheduler reaches every runnable process

    One turn of scheduler()'s endless loop dispatches every process that is
    RUNNABLE when it begins, whatever the processes before it in the table do
    while they run. *)

From S2P Require Import Prelude Param Bytes String State Spinlock Sched Kalloc Vm Proc.

(** The scheduler between two iterations over the table: this CPU holds the lock
    of the process table and no other, with interrupts off, and a process that
    can run has a page table. *)
Record scheduling (s : kstate) : Prop := {
  sc_ncli : ncli (k_cpu s) = 1;
  sc_if : eflags_IF (k_cpu s) = false;
  sc_lock : k_locks s !! LkPtable = Some (Spinlock true (Some (cpu_id (k_cpu s))));
  sc_len : length (procs s) = NPROC;
  sc_pgdir i p : procs s !! i = Some p → p_state p = RUNNABLE → p_pgdir p ≠ 0
}.

Definition runnable (s : kstate) (i : nat) : Prop :=
  ∃ p, procs s !! i = Some p ∧ p_state p = RUNNABLE.

(** The state in which swtch() enters process [i]: it is the current process and
    RUNNING, on its own page table and with its kernel stack in the task state. *)
Definition entered (i : nat) (p : proc) (s : kstate) : kstate :=
  set_procs (alter (set_state RUNNING) i (procs s))
    (set_hw (Hw (V2P (p_pgdir p)) (u32 (p_kstack p + KSTACKSIZE)) (kpgdir (k_hw s)) (hw_cons (k_hw s)))
      (set_proc (Some i) s)).

(** Back on the scheduler's stack and the kernel's page table. *)
Definition returned (s : kstate) : kstate :=
  set_proc None
    (set_hw (Hw (V2P (kpgdir (k_hw s))) (hw_esp0 (k_hw s)) (kpgdir (k_hw s)) (hw_cons (k_hw s))) s).

(** [dispatches run todo s l s']: going over the slots [todo] from [s] to [s'], the
    scheduler ran the processes [l] in this order. *)
Inductive dispatches (run : nat → K unit) : list nat → kstate → list nat → kstate → Prop :=
| dispatches_nil s : dispatches run [] s [] s
| dispatches_skip i todo s l s' :
    ¬ runnable s i → dispatches run todo s l s' → dispatches run (i :: todo) s l s'
| dispatches_run i p todo s s1 l s' :
    procs s !! i = Some p → p_state p = RUNNABLE → run i (entered i p s) = Ok tt s1 →
    dispatches run todo (returned s1) l s' → dispatches run (i :: todo) s (i :: l) s'.

(** What the processes do while they have the CPU: a process comes back through
    sched(), which checks that it holds the lock of the table only, and it makes
    no other process unable to run. *)
Definition comes_back (run : nat → K unit) : Prop :=
  ∀ i p s, scheduling s → k_proc s = Some i → procs s !! i = Some p → p_state p = RUNNING → p_pgdir p ≠ 0 →
  ∃ s', run i s = Ok tt s' ∧ scheduling s' ∧ ∀ j, j ≠ i → runnable s j → runnable s' j.

Lemma crit_cpu_held c : ncli c = 1 → crit_cpu c = c.
Proof. intros E. rewrite /crit_cpu E /=. by destruct c as [? ? ? ?]; simpl in *; subst. Qed.

(** switchuvm() on the process about to run. *)
Lemma switchuvm_Ok i p s :
  scheduling s → k_proc s = Some i → procs s !! i = Some p → p_pgdir p ≠ 0 →
  switchuvm i s =
    Ok tt (set_hw (Hw (V2P (p_pgdir p)) (u32 (p_kstack p + KSTACKSIZE)) (kpgdir (k_hw s)) (hw_cons (k_hw s))) s).
Proof.
  intros HS Hcur Hp Hpg. rewrite /switchuvm /pushcli bind_modify /cur bind_assoc bind_gets /= Hcur bind_ret.
  rewrite (bind_Ok _ _ _ _ _ (getproc_Ok i (set_cpu _ s) p Hp)) bind_modify.
  rewrite (bind_Ok _ _ _ _ _ (getproc_Ok i (set_hw _ (set_cpu _ s)) p Hp)). rewrite (proj2 (Z.eqb_neq _ _) Hpg) /lcr3 bind_modify.
  assert (cpu_ok (k_cpu s)) as Hok by (destruct HS as [E E' _ _ _]; rewrite /cpu_ok E; split; [lia|done]).
  rewrite /popcli bind_gets /=. replace (ncli (k_cpu s) + 1 - 1 <? 0) with false by (rewrite (sc_ncli _ HS) //).
  rewrite /modify /=. rewrite (pop_push_cpu _ Hok) crit_cpu_held; [apply HS|]. by destruct s.
Qed.

Lemma entered_scheduling i p s :
  scheduling s → procs s !! i = Some p → p_state p = RUNNABLE → scheduling (entered i p s).
Proof.
  intros [H1 H2 H3 H4 H5] Hp Hst. split; try done.
  - rewrite /entered set_procs_procs length_alter //.
  - intros j q. rewrite /entered set_procs_procs. destruct (decide (j = i)) as [->|Hne].
    + rewrite list_lookup_alter_eq Hp /=. by intros [= <-].
    + rewrite list_lookup_alter_ne; [congruence|]. apply H5.
Qed.

Lemma scheduler_one_run run i p s s1 :
  scheduling s → procs s !! i = Some p → p_state p = RUNNABLE → run i (entered i p s) = Ok tt s1 →
  scheduler_one run i s = Ok tt (returned s1).
Proof.
  intros HS Hp Hst Hrun. rewrite /scheduler_one (bind_Ok _ _ _ _ _ (getproc_Ok i s p Hp)).
  rewrite bool_decide_eq_true_2 // /when bind_modify.
  rewrite (bind_Ok _ _ _ _ _ (switchuvm_Ok i p (set_proc (Some i) s) _ _ _ _)) //.
  { by destruct HS. } { by apply (sc_pgdir _ HS i). }
  rewrite /updproc bind_modify (bind_Ok _ _ _ _ _ Hrun) /switchkvm bind_assoc bind_gets /lcr3 bind_modify. done.
Qed.

Lemma scheduler_one_skip run i s :
  scheduling s → (i < NPROC)%nat → ¬ runnable s i → scheduler_one run i s = Ok tt s.
Proof.
  intros HS Hi Hn. destruct (lookup_lt_is_Some_2 (procs s) i) as [p Hp]; [rewrite (sc_len _ HS) //|].
  rewrite /scheduler_one (bind_Ok _ _ _ _ _ (getproc_Ok i s p Hp)) bool_decide_eq_false_2 //.
  intros Hst. apply Hn. by exists p.
Qed.

Lemma entered_runnable i j p s : j ≠ i → runnable s j → runnable (entered i p s) j.
Proof.
  intros Hne (q & Hq & Hst). exists q. split; [|done]. rewrite /entered set_procs_procs list_lookup_alter_ne //. congruence.
Qed.

Lemma returned_scheduling s : scheduling s → scheduling (returned s).
Proof. by intros [? ? ? ? ?]. Qed.

Lemma pass_over run todo s :
  comes_back run → scheduling s → k_proc s = None → NoDup todo → Forall (λ i, i < NPROC)%nat todo →
  ∃ l s', for_each todo (scheduler_one run) s = Ok tt s' ∧ dispatches run todo s l s' ∧
    scheduling s' ∧ k_proc s' = None ∧ ∀ i, i ∈ todo → runnable s i → i ∈ l.
Proof.
  intros Hrun. revert s. induction todo as [|i todo IH]; intros s HS Hcur Hnd Hlt; simpl.
  { exists [], s. split_and!; [done|constructor|done|done|]. intros i Hi. by apply elem_of_nil in Hi. }
  apply NoDup_cons in Hnd as [Hi Hnd]. apply Forall_cons in Hlt as [Hil Hlt].
  destruct (lookup_lt_is_Some_2 (procs s) i) as [p Hp]; [rewrite (sc_len _ HS) //|].
  destruct (decide (p_state p = RUNNABLE)) as [Hst|Hst].
  - pose proof (entered_scheduling i p s HS Hp Hst) as HE.
    destruct (Hrun i (set_state RUNNING p) (entered i p s)) as (s1 & Hs1 & HS1 & Hkeep); [done|done| |done|exact (sc_pgdir _ HS i p Hp Hst)|].
    { rewrite /entered set_procs_procs list_lookup_alter_eq Hp //. }
    destruct (IH (returned s1)) as (l & s' & Hl & Hd & HS' & Hc & Hin); [by apply returned_scheduling|done..|].
    exists (i :: l), s'. rewrite (bind_Ok _ _ _ _ _ (scheduler_one_run _ _ _ _ _ HS Hp Hst Hs1)).
    split_and!; [done|exact (dispatches_run _ _ _ _ _ _ _ _ Hp Hst Hs1 Hd)|done|done|].
    intros j [->|Hj]%elem_of_cons Hr; [apply list_elem_of_here|]. apply elem_of_cons. right. apply Hin; [done|].
    assert (j ≠ i) by congruence. by apply Hkeep, entered_runnable.
  - assert (¬ runnable s i) as Hn. { intros (q & Hq & ?). congruence. }
    destruct (IH s) as (l & s' & Hl & Hd & HS' & Hc & Hin); [done..|]. exists l, s'.
    rewrite (bind_Ok _ _ _ _ _ (scheduler_one_skip run i s HS Hil Hn)).
    split_and!; [done|by constructor|done|done|]. intros j [->|Hj]%elem_of_cons Hr; [done|by apply Hin].
Qed.

(** The scheduler at the head of its loop. *)
Record idle (s : kstate) : Prop := {
  id_ncli : ncli (k_cpu s) = 0;
  id_lock : k_locks s !! LkPtable = None;
  id_cur : k_proc s = None;
  id_len : length (procs s) = NPROC;
  id_pgdir i p : procs s !! i = Some p → p_state p = RUNNABLE → p_pgdir p ≠ 0
}.

Definition interruptible (s : kstate) : kstate :=
  set_cpu (Cpu (cpu_id (k_cpu s)) (ncli (k_cpu s)) (intena (k_cpu s)) true) s.

Lemma release_scheduling s :
  scheduling s → ∃ c, release LkPtable s = Ok tt (set_cpu c (set_locks (delete LkPtable (k_locks s)) s)) ∧ ncli c = 0.
Proof.
  intros [H1 H2 H3 _ _]. eexists. split.
  - rewrite /release /holding bind_gets /holding_lock /lock_of H3 /= bool_decide_eq_true_2 //= bind_modify.
    rewrite /popcli bind_gets /= H2 H1 /=. done.
  - by rewrite /= H1.
Qed.

(** C24: the scheduler is fair within a turn. From the head of its loop it reaches
    the head again, and in between every process that was RUNNABLE at the start
    got the CPU, in a state in which it is the current process, RUNNING, on its
    own page table and kernel stack; the processes before it in the table cannot
    prevent this. *)
Theorem scheduler_pass_fair run s :
  comes_back run → idle s →
  ∃ l s1 s', scheduler_pass run s = Ok tt s' ∧ idle s' ∧
    dispatches run (seq 0 NPROC) (enter LkPtable (interruptible s)) l s1 ∧
    ∀ i, runnable s i → i ∈ l.
Proof.
  intros Hrun [H1 H2 H3 H4 H5]. rewrite /scheduler_pass /sti bind_modify bind_acquire //.
  assert (scheduling (enter LkPtable (interruptible s))) as HS.
  { split; simpl; [by rewrite H1|done| |done|done]. by rewrite lookup_insert_eq. }
  destruct (pass_over run (seq 0 NPROC) _ Hrun HS H3 (NoDup_seq _ _)) as (l & s1 & Hl & Hd & HS1 & Hc & Hin).
  { apply Forall_forall. intros i Hi%elem_of_seq. lia. }
  destruct (release_scheduling s1 HS1) as (c & Hrel & Hn).
  exists l, s1, (set_cpu c (set_locks (delete LkPtable (k_locks s1)) s1)).
  rewrite (bind_Ok _ _ _ _ _ Hl) Hrel. split_and!; [done| |exact Hd|].
  - destruct HS1. split; try done. simpl. by rewrite lookup_delete_eq.
  - intros i Hi. apply Hin; [|done]. destruct Hi as (p & Hp%lookup_lt_Some & _). apply elem_of_seq. lia.
Qed.

(** Three runnable processes that yield at once. *)
Definition ready_proc : proc := set_pgdir 0x8010e000 (set_state RUNNABLE zero_proc).
Definition ready_state : kstate :=
  set_procs (<[5%nat := ready_proc]> (<[3%nat := ready_proc]> (<[0%nat := ready_proc]> (procs boot_state)))) boot_state.

Lemma scheduler_pass_fair_witness :
  ∃ l s1 s', scheduler_pass (λ i, updproc i (set_state RUNNABLE)) ready_state = Ok tt s' ∧
    dispatches (λ i, updproc i (set_state RUNNABLE)) (seq 0 NPROC) (enter LkPtable (interruptible ready_state)) l s1 ∧
    (0 ∈ l ∧ 3 ∈ l ∧ 5 ∈ l)%nat.
Proof.
  destruct (scheduler_pass_fair (λ i, updproc i (set_state RUNNABLE)) ready_state) as (l & s1 & s' & H1 & _ & H2 & H3).
  - intros i p s [E1 E2 E3 E4 E5] Hc Hp Hst Hpg. eexists. split; [done|]. split.
    + split; [done|done|done|by rewrite set_procs_procs length_alter|].
      intros j q. rewrite set_procs_procs. destruct (decide (j = i)) as [->|Hne].
      * rewrite list_lookup_alter_eq Hp. by intros [= <-].
      * rewrite list_lookup_alter_ne; [congruence|]. apply E5.
    + intros j Hne (q & Hq & Hr). exists q. split; [|done].
      rewrite set_procs_procs list_lookup_alter_ne //. congruence.
  - assert (Forall (λ p, p_state p = RUNNABLE → p_pgdir p ≠ 0) (procs ready_state)) as Hall.
    { by apply (bool_decide_unpack _); vm_compute. }
    split; try done. intros i p. exact (Forall_lookup_1 _ _ _ _ Hall).
  - exists l, s1, s'. split_and!; [done|done|apply H3; by eexists..].
Defined.
