(* ===== verification/ForkSpec.v ===== *)
(** * fork()

    The child fork() makes: a copy of the parent's memory on pages of its own, the
    same open files and working directory with their reference counts raised, and
    the parent's registers with eax cleared. *)

From S2P Require Import Prelude Param Bytes String State Spinlock Sched Sleeplock Kalloc Vm VmSpec VmUser VmCopy VmProps Bio Log Fs Pipe File Proc.

(** How often a file is open in a process. *)
Definition opens (f : nat) (l : list (option nat)) : nat := length (filter (λ o, o = Some f) l).

(** The file table with one more reference for each descriptor of [l]. *)
Definition dup_file (o : option nat) (fs : list file) : list file :=
  match o with Some f => alter (λ x, set_fref (f_ref x + 1) x) f fs | None => fs end.
Definition dup_files (l : list (option nat)) (fs : list file) : list file := foldl (flip dup_file) fs l.

Lemma dup_files_lookup l fs f x :
  fs !! f = Some x → dup_files l fs !! f = Some (set_fref (f_ref x + Z.of_nat (opens f l)) x).
Proof.
  revert fs x. induction l as [|o l IH]; intros fs x Hx.
  { rewrite /dup_files /= Hx /opens filter_nil Z.add_0_r. by destruct x. }
  change (dup_files (o :: l) fs) with (dup_files l (dup_file o fs)).
  rewrite /opens filter_cons. case_decide as E.
  - subst o. rewrite (IH _ (set_fref (f_ref x + 1) x)); [by rewrite /= list_lookup_alter_eq Hx|].
    rewrite /opens /=. f_equal. rewrite /set_fref /=. f_equal. lia.
  - apply IH. destruct o as [g|]; [|done]. rewrite /= list_lookup_alter_ne //. congruence.
Qed.

(** A process that may fork. *)
Record fork_ready (s : kstate) (i : nat) (p : proc) : Prop := {
  fk_cur : k_proc s = Some i;
  fk_proc : procs s !! i = Some p;
  fk_used : p_state p ≠ UNUSED;
  fk_len : length (procs s) = NPROC;
  fk_locks : k_locks s !! LkPtable = None ∧ k_locks s !! LkKmem = None ∧
             k_locks s !! LkFtable = None ∧ k_locks s !! LkIcache = None;
  fk_cpu : cpu_ok (k_cpu s);
  fk_ofile : length (p_ofile p) = NOFILE;
  fk_files fd f : p_ofile p !! fd = Some (Some f) → ∃ x, files s !! f = Some x ∧ 1 ≤ f_ref x;
  fk_cwd : ∃ c x, p_cwd p = Some c ∧ inodes s !! c = Some x;
  fk_unused j q : procs s !! j = Some q → p_state q = UNUSED → p_ofile q = replicate NOFILE None
}.

(** What concerns memory only. *)
Lemma kmem_inv_mem end_ fl s s' : k_mem s' = k_mem s → kmem_inv end_ fl s → kmem_inv end_ fl s'.
Proof. intros E []. split; by rewrite ?E. Qed.

Lemma aspace_mem end_ fl pgdir T U s s' : k_mem s' = k_mem s → aspace end_ fl pgdir T U s → aspace end_ fl pgdir T U s'.
Proof.
  intros E [[HK Hpt Hap] Hmap Hfr Hinj]. split; [split; [by apply (kmem_inv_mem end_ fl s)|by rewrite E|done]|by rewrite E|done|done].
Qed.

Section fork.
Context (end_ data_ : Z) (Hend : KERNBASE < end_) (s : kstate) (i : nat) (p : proc).
Hypothesis HR : fork_ready s i p.

(** During fork(): the child's slot [np] is [q]; memory, file table and inode
    cache have changed, and the stale [intena]. *)
Definition fst_of (np : nat) (ie : bool) (q : proc) (pid : Z) (m : mem_st) (fs : list file) (F : fs_st) : kstate :=
  KState (Cpu (cpu_id (k_cpu s)) (ncli (k_cpu s)) ie (eflags_IF (k_cpu s))) (k_proc s) (k_locks s) (k_slocks s)
         (Ptable (<[np := q]> (procs s)) pid (pt_initproc (k_pt s))) m (k_bio s) (k_log s) F
         (Files fs (ft_pipes (k_files s))) (k_ticks s) (k_hw s).

Section child.
Context (np : nat) (old : proc).
Hypothesis Hold : procs s !! np = Some old.
Hypothesis Hfree : p_state old = UNUSED.

Lemma np_ne : np ≠ i.
Proof.
  intros E. pose proof (fk_used _ _ _ HR) as Hu. pose proof (fk_proc _ _ _ HR) as Hp. rewrite -E in Hp. congruence.
Qed.

Lemma np_lt : (np < length (procs s))%nat.
Proof. exact (lookup_lt_Some _ _ _ Hold). Qed.

Lemma fst_upd ie q pid m fs F g :
  updproc np g (fst_of np ie q pid m fs F) = Ok tt (fst_of np ie (g q) pid m fs F).
Proof.
  rewrite /updproc /modify /fst_of /set_procs /set_pt /procs /=. do 3 f_equal.
  apply list_eq. intros j. destruct (decide (j = np)) as [->|Hne].
  - by rewrite list_lookup_alter_eq !list_lookup_insert_eq; [apply np_lt..|].
  - rewrite list_lookup_alter_ne; [congruence|]. rewrite !list_lookup_insert_ne //; congruence.
Qed.

Lemma fst_child ie q pid m fs F : getproc np (fst_of np ie q pid m fs F) = Ok q (fst_of np ie q pid m fs F).
Proof. apply getproc_Ok. rewrite /procs /=. apply list_lookup_insert_eq, np_lt. Qed.

Lemma fst_parent ie q pid m fs F : getproc i (fst_of np ie q pid m fs F) = Ok p (fst_of np ie q pid m fs F).
Proof.
  apply getproc_Ok. rewrite /procs /=. rewrite list_lookup_insert_ne; [apply np_ne|]. apply HR.
Qed.

Lemma fst_cur ie q pid m fs F : cur (fst_of np ie q pid m fs F) = Ok i (fst_of np ie q pid m fs F).
Proof. by rewrite /cur bind_gets /= (fk_cur _ _ _ HR). Qed.

Lemma fst_memonly ie q pid m fs F s' :
  memonly (fst_of np ie q pid m fs F) s' → ∃ ie', s' = fst_of np ie' q pid (k_mem s') fs F.
Proof. intros [ie' E]. exists ie'. rewrite {1}E. done. Qed.

Lemma fst_ready ie q pid m fs F : alloc_ready (fst_of np ie q pid m fs F).
Proof. split; apply HR. Qed.

Lemma fst_cpu ie q pid m fs F : cpu_ok (k_cpu (fst_of np ie q pid m fs F)).
Proof. exact (fk_cpu _ _ _ HR). Qed.

(** *** Files and working directory *)

Lemma fst_filedup ie q pid m fs F f x :
  fs !! f = Some x → 1 ≤ f_ref x →
  ∃ ie', filedup f (fst_of np ie q pid m fs F) = Ok f (fst_of np ie' q pid m (dup_file (Some f) fs) F).
Proof.
  intros Hf Hx. pose proof (fk_locks _ _ _ HR) as (_ & _ & Hl & _). set (s0 := fst_of np ie q pid m fs F).
  rewrite /filedup bind_acquire //. rewrite /getfile bind_assoc bind_gets /files /= Hf bind_ret.
  assert (alter (set_fref (f_ref x + 1)) f fs = dup_file (Some f) fs) as E.
  { apply list_alter_ext; [|done]. intros y Hy. rewrite Hf in Hy. by injection Hy as <-. }
  rewrite (proj2 (Z.ltb_ge _ _) Hx) /updfile bind_modify /files /= E.
  rewrite (bind_release _ _ s0) //; [apply HR|]. by eexists.
Qed.

(** The child's descriptors after the first [a] were looked at. *)
Definition ofile_upto (a : nat) : list (option nat) := take a (p_ofile p) ++ replicate (NOFILE - a) None.

Lemma ofile_upto_S a o : p_ofile p !! a = Some o → (a < NOFILE)%nat → <[a := o]> (ofile_upto a) = ofile_upto (S a).
Proof.
  intros Ho Ha. assert (length (take a (p_ofile p)) = a) as Hl.
  { rewrite length_take (fk_ofile _ _ _ HR). lia. }
  rewrite /ofile_upto (take_S_r _ _ o) // -app_assoc.
  replace (NOFILE - a)%nat with (S (NOFILE - S a)) by lia. cbn [replicate].
  rewrite insert_app_r_alt; [lia|]. by rewrite Hl Nat.sub_diag.
Qed.

Lemma dup_files_snoc l o fs : dup_files (l ++ [o]) fs = dup_file o (dup_files l fs).
Proof. by rewrite /dup_files foldl_app. Qed.

Lemma fork_files n : ∀ a ie q pid m F,
  (a + n = NOFILE)%nat → p_ofile q = ofile_upto a →
  ∃ ie', for_each (seq a n) (fork_file i np) (fst_of np ie q pid m (dup_files (take a (p_ofile p)) (files s)) F) =
    Ok tt (fst_of np ie' (set_ofile (p_ofile p) q) pid m (dup_files (p_ofile p) (files s)) F).
Proof.
  induction n as [|n IH]; intros a ie q pid m F Ha Hq; cbn [seq for_each].
  { assert (take a (p_ofile p) = p_ofile p) as E.
    { apply take_ge. rewrite (fk_ofile _ _ _ HR). lia. }
    exists ie. rewrite E. replace (set_ofile (p_ofile p) q) with q; [done|].
    rewrite /ofile_upto E in Hq. replace (NOFILE - a)%nat with 0%nat in Hq by lia. rewrite app_nil_r in Hq.
    rewrite -Hq. by destruct q. }
  destruct (lookup_lt_is_Some_2 (p_ofile p) a) as [o Ho]; [rewrite (fk_ofile _ _ _ HR); lia|].
  assert (∃ ie', fork_file i np a (fst_of np ie q pid m (dup_files (take a (p_ofile p)) (files s)) F) =
    Ok tt (fst_of np ie' (set_ofile (ofile_upto (S a)) q) pid m (dup_files (take (S a) (p_ofile p)) (files s)) F)) as [ie1 H1].
  { rewrite -(ofile_upto_S a o) //; [lia|]. rewrite (take_S_r _ _ o) // dup_files_snoc -Hq.
    rewrite /fork_file (bind_Ok _ _ _ _ _ (fst_parent _ _ _ _ _ _)) Ho. destruct o as [f|].
    - destruct (fk_files _ _ _ HR a f Ho) as (x & Hx & Hr).
      destruct (fst_filedup ie q pid m (dup_files (take a (p_ofile p)) (files s)) F f _ (dup_files_lookup _ _ _ _ Hx)) as [ie1 H1].
      { simpl. lia. }
      exists ie1. by rewrite (bind_Ok _ _ _ _ _ H1) fst_upd.
    - exists ie. cbn [dup_file]. rewrite list_insert_id; [|by destruct q].
      rewrite Hq /ofile_upto. rewrite lookup_app_r length_take (fk_ofile _ _ _ HR); [lia|].
      replace (a - a `min` NOFILE)%nat with 0%nat by lia. by replace (NOFILE - a)%nat with (S (NOFILE - S a)) by lia. }
  rewrite (bind_Ok _ _ _ _ _ H1).
  destruct (IH (S a) ie1 (set_ofile (ofile_upto (S a)) q) pid m F) as [ie2 H2]; [lia|done|].
  exists ie2. exact H2.
Qed.

Definition ref_up (c : nat) (F : fs_st) : fs_st :=
  Fs (fs_sb F) (alter (λ x, set_ref (i_ref x + 1) x) c (fs_icache F)).

Lemma fst_idup ie q pid m fs F c :
  ∃ ie', idup c (fst_of np ie q pid m fs F) = Ok c (fst_of np ie' q pid m fs (ref_up c F)).
Proof.
  pose proof (fk_locks _ _ _ HR) as (_ & _ & _ & Hl). rewrite /idup bind_acquire // /updino bind_modify.
  rewrite (bind_release _ _ (fst_of np ie q pid m fs F)) //; [apply HR|]. by eexists.
Qed.

(** *** allocproc *)

Definition fresh (pid k : Z) : proc := set_kstack k (embryo pid old).

Lemma alloc_slot :
  first (λ p, bool_decide (p_state p = UNUSED)) (procs s) = Some np →
  let pid := pt_nextpid (k_pt s) in
  allocproc s =
    (k ← kalloc;
     updproc np (set_kstack k);;
     if k =? 0 then updproc np (set_state UNUSED);; mret None
     else updproc np (set_context CtxForkret);; mret (Some np))
    (fst_of np (intena (crit_cpu (k_cpu s))) (embryo pid old) (s32 (pid + 1)) (k_mem s) (files s) (k_fs s)).
Proof.
  intros Hf pid. pose proof (fk_locks _ _ _ HR) as (Hl & _ & _ & _). rewrite /allocproc bind_acquire //.
  set (body := λ i, p ← getproc i; mret (if bool_decide (p_state p = UNUSED) then Some i else None)).
  pose proof (scan_procs_first (λ p, bool_decide (p_state p = UNUSED)) body (enter LkPtable s) (fk_len _ _ _ HR)) as Hscan.
  change (procs (enter LkPtable s)) with (procs s) in Hscan. rewrite Hf in Hscan.
  rewrite (bind_Ok _ _ _ (Some np) (enter LkPtable s)).
  { apply Hscan.
    - intros j x Hj Hx. by rewrite /body (bind_Ok _ _ _ _ _ (getproc_Ok j (enter LkPtable s) x Hj)) Hx.
    - rewrite /body (bind_Ok _ _ _ _ _ (getproc_Ok np (enter LkPtable s) old Hold)). by rewrite bool_decide_eq_true_2. }
  rewrite bind_gets /updproc !bind_modify (bind_release _ _ s) //; [apply HR|]. cbv beta zeta. f_equal.
  assert (Files (files s) (ft_pipes (k_files s)) = k_files s) as Ef by by rewrite /files; destruct (k_files s).
  assert (alter (embryo pid) np (procs s) = <[np := embryo pid old]> (procs s)) as E.
  { apply list_eq. intros j. destruct (decide (j = np)) as [->|Hne].
    - by rewrite list_lookup_alter_eq list_lookup_insert_eq; [apply np_lt|]; rewrite Hold.
    - rewrite list_lookup_alter_ne; [congruence|]. rewrite list_lookup_insert_ne; [congruence|done]. }
  rewrite /fst_of Ef -E. done.
Qed.

Lemma allocproc_Ok fl :
  first (λ p, bool_decide (p_state p = UNUSED)) (procs s) = Some np → kmem_inv end_ fl s →
  let pid := pt_nextpid (k_pt s) in let k := hd 0 fl in
  ∃ ie m, mem_bytes m = mem_bytes (k_mem s) ∧
    allocproc s =
      (if k =? 0 then Ok None (fst_of np ie (set_state UNUSED (fresh pid k)) (s32 (pid + 1)) m (files s) (k_fs s))
       else Ok (Some np) (fst_of np ie (set_context CtxForkret (fresh pid k)) (s32 (pid + 1)) m (files s) (k_fs s))) ∧
    ∀ q, kmem_inv end_ (tail fl) (fst_of np ie q (s32 (pid + 1)) m (files s) (k_fs s)).
Proof.
  intros Hf HK pid k. rewrite (alloc_slot Hf). fold pid.
  set (s0 := fst_of np _ _ _ _ _ _).
  destruct (kalloc_run end_ fl s0) as (s1 & H1 & Hm & HK1 & Hb); [by destruct HK|apply fst_ready|].
  destruct (fst_memonly _ _ _ _ _ _ _ Hm) as [ie E]. exists ie, (k_mem s1). split; [exact Hb|].
  rewrite (bind_Ok _ _ _ _ _ H1). fold k. rewrite E. cbn [k_mem fst_of]. split.
  - rewrite (bind_Ok _ _ _ _ _ (fst_upd _ _ _ _ _ _ _)). destruct (k =? 0); by rewrite (bind_Ok _ _ _ _ _ (fst_upd _ _ _ _ _ _ _)).
  - intros q. rewrite E in HK1. by destruct HK1.
Qed.

(** *** The child *)

(** The process fork() enters in the slot that held [old]. *)
Definition child (pid k d : Z) : proc :=
  Proc (p_sz p) d k RUNNABLE pid (Some i) (set_eax 0 (p_tf p)) CtxForkret (p_chan old) (p_killed old)
       (p_ofile p) (p_cwd p) (name_copy (p_name p)) (replicate NUMSIG 0) (replicate NUMSIG defualtHandlerAdd)
       (p_procHandlingSigNow old) (p_tfToRestore old) (p_sigretAdd old) (p_alarm_ticks_num p).

(** fork() once the child has its memory. *)
Lemma fork_finish ie pid pid' k d m c :
  p_cwd p = Some c → d ≠ 0 →
  ∃ ie', (updproc np (set_pgdir d);;
      if d =? 0 then
        q ← getproc np;
        kfree end_ (p_kstack q);;
        updproc np (λ q, set_state UNUSED (set_kstack 0 q));;
        mret (-1)
      else
      updproc np (λ q, set_tf (p_tf p) (set_parent (Some i) (set_sz (p_sz p) q)));;
      updproc np (set_alarm_ticks_num (p_alarm_ticks_num p));;
      updproc np (λ q, set_tf (set_eax 0 (p_tf q)) q);;
      for_each (seq 0 NOFILE) (fork_file i np);;
      c ← (match p_cwd p with Some c => idup c | None => fault 0 end);
      updproc np (set_cwd (Some c));;
      updproc np (set_name (name_copy (p_name p)));;
      q ← getproc np;
      acquire LkPtable;;
      updproc np (set_state RUNNABLE);;
      release LkPtable;;
      mret (p_pid q)) (fst_of np ie (set_context CtxForkret (fresh pid k)) pid' m (files s) (k_fs s)) =
    Ok pid (fst_of np ie' (child pid k d) pid' m (dup_files (p_ofile p) (files s)) (ref_up c (k_fs s))).
Proof.
  intros Hc Hd. pose proof (fk_locks _ _ _ HR) as (Hl & _ & _ & _).
  rewrite (bind_Ok _ _ _ _ _ (fst_upd _ _ _ _ _ _ _)) (proj2 (Z.eqb_neq _ _) Hd).
  do 3 rewrite (bind_Ok _ _ _ _ _ (fst_upd _ _ _ _ _ _ _)).
  set (q := set_tf _ _).
  destruct (fork_files NOFILE 0 ie q pid' m (k_fs s)) as [ie1 H1]; [done|exact (fk_unused _ _ _ HR _ _ Hold Hfree)|].
  rewrite (bind_Ok _ _ _ _ _ H1) Hc.
  destruct (fst_idup ie1 (set_ofile (p_ofile p) q) pid' m (dup_files (p_ofile p) (files s)) (k_fs s) c) as [ie2 H2].
  rewrite (bind_Ok _ _ _ _ _ H2). do 2 rewrite (bind_Ok _ _ _ _ _ (fst_upd _ _ _ _ _ _ _)).
  rewrite (bind_Ok _ _ _ _ _ (fst_child _ _ _ _ _ _)) bind_acquire //.
  set (s1 := fst_of np ie2 _ _ _ _ _). set (q1 := set_name _ _) in s1.
  change (enter LkPtable s1) with (set_locks (<[LkPtable := Spinlock true (Some (cpu_id (k_cpu s1)))]> (k_locks s1))
    (set_cpu (push_cpu (k_cpu s1)) s1)).
  assert (alter (set_state RUNNABLE) np (procs s1) = <[np := child pid k d]> (procs s)) as E.
  { pose proof (fst_upd ie2 q1 pid' m (dup_files (p_ofile p) (files s)) (ref_up c (k_fs s)) (set_state RUNNABLE)) as Hu.
    fold s1 in Hu. rewrite /updproc /modify in Hu. apply (f_equal (λ o, match o with Ok _ s => procs s | _ => [] end)) in Hu.
    rewrite /= in Hu. etransitivity; [exact Hu|]. rewrite /procs /=. f_equal. by rewrite /child Hc. }
  rewrite /updproc bind_modify. rewrite (bind_release _ _ s1) //; [apply HR|]. rewrite /= in E |- *. rewrite E. by eexists.
Qed.

End child.

(** ** Outcomes *)

Context (fl : list Z) (T U : gmap Z Z).
Hypothesis HA : aspace end_ fl (p_pgdir p) T U s.

(** fork() failed: nothing has changed, or at most the slot that was tried, which is
    UNUSED again, the number of the next process and the free list, from which pages
    may be missing. The parent's memory is as it was. *)
Definition fork_failed (s' : kstate) : Prop :=
  (s' = crit s ∨
   ∃ np old q ie m, procs s !! np = Some old ∧ p_state old = UNUSED ∧ p_state q = UNUSED ∧
     s' = fst_of np ie q (s32 (pt_nextpid (k_pt s) + 1)) m (files s) (k_fs s)) ∧
  ∃ fl', (∀ v, v ∈ fl' → v ∈ fl) ∧ aspace end_ fl' (p_pgdir p) T U s' ∧ untouched (p_pgdir p) T U s s'.

(** The child [np] exists beside its parent: a page table [d] with copies of the
    parent's pages on frames of its own, one more reference to each open file and
    to the working directory. Nothing else has changed but the number of the next
    process and the free list. *)
Definition forked (r : Z) (s' : kstate) : Prop :=
  let pid := pt_nextpid (k_pt s) in
  ∃ np old d k c ie m fl' T' U', procs s !! np = Some old ∧ p_state old = UNUSED ∧ r = pid ∧ p_cwd p = Some c ∧
    s' = fst_of np ie (child old pid k d) (s32 (pid + 1)) m (dup_files (p_ofile p) (files s)) (ref_up c (k_fs s)) ∧
    aspace end_ fl' (p_pgdir p) T U s' ∧ untouched (p_pgdir p) T U s s' ∧ aspace end_ fl' d T' U' s' ∧
    (∀ q, reserved (p_pgdir p) T U q → ¬ owned fl' d T' U' q) ∧
    (∀ n, is_Some (U' !! n) ↔ 0 ≤ n ∧ n * PGSIZE < p_sz p) ∧
    (∀ n, 0 ≤ n → n * PGSIZE < p_sz p → copied n (p_pgdir p) U d U' s') ∧
    (page_ok end_ k ∧ ¬ reserved (p_pgdir p) T U k ∧ ¬ owned fl' d T' U' k).

Lemma reserved_free q : reserved (p_pgdir p) T U q → q ∉ fl.
Proof.
  intros [Hq|[n Hn]]; [by apply (vi_apart _ _ _ _ _ (as_vm _ _ _ _ _ _ HA))|].
  by apply (as_frames _ _ _ _ _ _ HA) in Hn as (_ & _ & ? & _).
Qed.

(** The parent's memory in a state of fork(). *)
Lemma aspace_fst np ie q pid m fs F fl1 :
  mem_bytes m = mem_bytes (k_mem s) → kmem_inv end_ fl1 (fst_of np ie q pid m fs F) → (∀ v, v ∈ fl1 → v ∈ fl) →
  aspace end_ fl1 (p_pgdir p) T U (fst_of np ie q pid m fs F) ∧ untouched (p_pgdir p) T U s (fst_of np ie q pid m fs F).
Proof.
  intros Hm HK Hsub. destruct (aspace_kept end_ fl (p_pgdir p) T U s fl1 (fst_of np ie q pid m fs F) HA HK) as [H1 H2].
  - intros v Hv Hin. by apply (reserved_free v Hv), Hsub.
  - intros v a _ _. by rewrite /= Hm.
  - split; [done|]. split; [done|]. intros v a _ _. by rewrite /= Hm.
Qed.

Lemma failed_slot np old ie q m fl' :
  let s' := fst_of np ie q (s32 (pt_nextpid (k_pt s) + 1)) m (files s) (k_fs s) in
  procs s !! np = Some old → p_state old = UNUSED → p_state q = UNUSED → (∀ v, v ∈ fl' → v ∈ fl) →
  aspace end_ fl' (p_pgdir p) T U s' → untouched (p_pgdir p) T U s s' → fork_failed s'.
Proof. intros s' H1 H2 H3 H4 H5 H6. split; [right; by exists np, old, q, ie, m|by exists fl']. Qed.

Lemma hd_tail (l : list Z) : hd 0 l ≠ 0 → l = hd 0 l :: tail l.
Proof. by destruct l. Qed.

Lemma no_page : hd 0 fl = 0 → fl = [].
Proof.
  intros E. destruct fl as [|k l] eqn:Efl; [done|]. simpl in E. subst k.
  pose proof (km_pages _ _ _ (vi_kmem _ _ _ _ _ (as_vm _ _ _ _ _ _ HA))) as Hpg.
  apply Forall_cons in Hpg as [?%page_ok_bound _]. lia.
Qed.

Lemma untouched_trans pgdir s1 s2 : untouched pgdir T U s s1 → untouched pgdir T U s1 s2 → untouched pgdir T U s s2.
Proof.
  intros [A1 A2] [B1 B2]. split; [intros va; by rewrite B1|]. intros v a Hv Ha. rewrite (B2 v) //. by apply (A2 v).
Qed.

Lemma tail_subset (l : list Z) v : v ∈ tail l → v ∈ l.
Proof. destruct l; [done|]. apply list_elem_of_further. Qed.

Lemma alloc_none :
  first (λ p, bool_decide (p_state p = UNUSED)) (procs s) = None → allocproc s = Ok None (crit s).
Proof.
  intros Hf. pose proof (fk_locks _ _ _ HR) as (Hl & _ & _ & _). rewrite /allocproc bind_acquire //.
  set (body := λ i, p ← getproc i; mret (if bool_decide (p_state p = UNUSED) then Some i else None)).
  pose proof (scan_procs_first (λ p, bool_decide (p_state p = UNUSED)) body (enter LkPtable s) (fk_len _ _ _ HR)) as Hscan.
  change (procs (enter LkPtable s)) with (procs s) in Hscan. rewrite Hf in Hscan.
  rewrite (bind_Ok _ _ _ None (enter LkPtable s)).
  - apply Hscan. intros j x Hj Hx. by rewrite /body (bind_Ok _ _ _ _ _ (getproc_Ok j (enter LkPtable s) x Hj)) Hx.
  - by rewrite (bind_Ok _ _ _ _ _ (release_enter LkPtable s Hl (fk_cpu _ _ _ HR))).
Qed.

(** The page allocproc() took for the kernel stack. *)
Lemma stack_page : hd 0 fl ≠ 0 → hd 0 fl ∈ fl ∧ hd 0 fl ∉ tail fl ∧ page_ok end_ (hd 0 fl).
Proof.
  intros Efl%hd_tail. pose proof (vi_kmem _ _ _ _ _ (as_vm _ _ _ _ _ _ HA)) as HK.
  pose proof (km_nodup _ _ _ HK) as Hnd. pose proof (km_pages _ _ _ HK) as Hpg. rewrite Efl in Hnd, Hpg.
  apply NoDup_cons in Hnd as [? _]. apply Forall_cons in Hpg as [? _].
  rewrite {2}Efl. split_and!; [apply list_elem_of_here|done..].
Qed.

(** fork() when copyuvm() failed: the kernel stack and the slot are given back. *)
Lemma fork_undo np old ie q k fl2 s2 :
  let pid := s32 (pt_nextpid (k_pt s) + 1) in
  procs s !! np = Some old → p_state old = UNUSED →
  s2 = fst_of np ie q pid (k_mem s2) (files s) (k_fs s) → p_kstack q = k →
  aspace end_ fl2 (p_pgdir p) T U s2 → untouched (p_pgdir p) T U s s2 →
  (∀ v, v ∈ fl2 → v ∈ fl) → k ∈ fl → k ∉ fl2 → page_ok end_ k →
  ∃ s', (∀ rest : K Z, (updproc np (set_pgdir 0);;
         if 0 =? 0 then
           q ← getproc np;
           kfree end_ (p_kstack q);;
           updproc np (λ q, set_state UNUSED (set_kstack 0 q));;
           mret (-1)
         else rest) s2 = Ok (-1) s') ∧ fork_failed s'.
Proof.
  intros pid Hold Hst E2 Ek HA2 [B1 B2] Hsub Hkin Hknot Hkok.
  set (s3 := fst_of np ie (set_pgdir 0 q) pid (k_mem s2) (files s) (k_fs s)).
  assert (kmem_inv end_ fl2 s3) as HK3 by (apply (kmem_inv_mem end_ fl2 s2); [done|apply HA2]).
  destruct (kfree_run end_ fl2 k s3 HK3) as (s4 & Hfr & Hm4 & HK4 & Hb4); [apply fst_ready|done|done|].
  destruct (fst_memonly _ _ _ _ _ _ _ _ Hm4) as [ie4 E4].
  exists (fst_of np ie4 (set_state UNUSED (set_kstack 0 (set_pgdir 0 q))) pid (k_mem s4) (files s) (k_fs s)). split.
  { intros rest. rewrite E2 (bind_Ok _ _ _ _ _ (fst_upd np old Hold _ _ _ _ _ _ _)) Z.eqb_refl.
    rewrite (bind_Ok _ _ _ _ _ (fst_child np old Hold _ _ _ _ _ _)). fold s3.
    change (p_kstack (set_pgdir 0 q)) with (p_kstack q). rewrite Ek (bind_Ok _ _ _ _ _ Hfr) E4.
    rewrite (bind_Ok _ _ _ _ _ (fst_upd np old Hold _ _ _ _ _ _ _)). reflexivity. }
  set (q5 := set_state UNUSED _).
  assert (∀ v a, reserved (p_pgdir p) T U v → in_page v a → byte (kb s4) a = byte (kb s2) a) as Hres.
  { intros v a Hv Ha. apply Hb4. intros Hin. apply (reserved_free v Hv).
    rewrite (page_disjoint end_ v k a) //. apply (aspace_pages end_ fl (p_pgdir p) T U s v HA). by right. }
  destruct (aspace_kept end_ fl2 (p_pgdir p) T U s2 (k :: fl2) s4 HA2 HK4) as [HA4 Hpte4]; [|done|].
  { intros v Hv [->|Hin]%elem_of_cons; [by apply (reserved_free k Hv)|]. by apply (reserved_free v Hv), Hsub. }
  apply (failed_slot np old) with (fl' := k :: fl2); [done|done|done| |by apply (aspace_mem end_ _ _ _ _ s4)|].
  { intros v [->|Hin]%elem_of_cons; [done|by apply Hsub]. }
  split; simpl; [intros va; by rewrite Hpte4|]. intros v a Hv Ha. rewrite (Hres v a) //. by apply (B2 v).
Qed.

(** Why fork() may fail: every slot is taken, or memory is short. *)
Definition fork_starved : Prop :=
  (∀ j q, procs s !! j = Some q → p_state q ≠ UNUSED) ∨
  Z.of_nat (length fl) ≤ 1027 + (p_sz p + PGSIZE - 1) / PGSIZE.


End fork.

(** ** An instance: a process of one page, 63 free slots *)

Definition demo_parent : proc :=
  Proc PGSIZE 0x8010e000 0 RUNNING 1 None
       (Trapframe 1 2 3 0 4 5 6 7 0 0 0 0 64 0 0x40 0x1b 0x200 0x800 0x23)
       CtxSched None false (<[0%nat := Some 0%nat]> (<[1%nat := Some 0%nat]> (replicate NOFILE None)))
       (Some 0%nat) [105; 110; 105; 116]
       (replicate NUMSIG 0) (replicate NUMSIG defualtHandlerAdd) 0 0 0x300 0.

Definition with_parent (s : kstate) : kstate :=
  KState (Cpu 0 0 false false) (Some 0%nat) ∅ ∅ (Ptable (demo_parent :: replicate 63 zero_proc) 2 None) (k_mem s) (k_bio s) (k_log s)
         (k_fs boot_state) (Files (<[0%nat := File FD_INODE 2 true true 0 (Some 0%nat) 0]> (ft_file (k_files boot_state))) ∅)
         0 (k_hw s).

Lemma with_parent_ready s : fork_ready (with_parent s) 0 demo_parent.
Proof.
  split; try done.
  - intros fd f Hf. assert (f = 0%nat) as ->; [|eexists; split; [reflexivity|simpl; lia]].
    destruct fd as [|[|fd]]; [by injection Hf..|].
    change (replicate 14 (None : option nat) !! fd = Some (Some f)) in Hf.
    by apply lookup_replicate in Hf as [? _].
  - exists 0%nat. eexists. split; reflexivity.
  - intros [|j] q Hq Hu; [injection Hq as <-; done|].
    change (replicate 63 zero_proc !! j = Some q) in Hq. by apply lookup_replicate in Hq as [-> _].
Qed.

(** More pages for the free list. *)
Lemma more_pages end_ fl pgdir T U s ps :
  aspace end_ fl pgdir T U s → alloc_ready s → NoDup ps → Forall (page_ok end_) ps → (∀ q, q ∈ ps → ¬ owned fl pgdir T U q) →
  ∃ fl' s', aspace end_ fl' pgdir T U s' ∧ alloc_ready s' ∧ (length ps ≤ length fl')%nat.
Proof.
  intros HA HR. revert ps. assert (∀ ps, NoDup ps → Forall (page_ok end_) ps → (∀ q, q ∈ ps → ¬ owned fl pgdir T U q) →
    ∃ s', aspace end_ (rev ps ++ fl) pgdir T U s' ∧ alloc_ready s') as Hm.
  { induction ps as [|v ps IH] using rev_ind; [by exists s|]. intros [Hnd [Hd _]]%NoDup_app [Hp [Hv _]%Forall_cons]%Forall_app Hout.
    destruct IH as (s1 & HA1 & HR1); [done|done|intros q Hq; apply Hout; set_solver|].
    assert (¬ owned fl pgdir T U v) as Hov by (apply Hout; set_solver).
    assert (v ∉ rev ps ++ fl) as Hn.
    { rewrite elem_of_app list_elem_of_In -in_rev -list_elem_of_In. intros [Hin|Hin]; [by apply (Hd v Hin); left|]. apply Hov. by left. }
    destruct (kfree_run end_ (rev ps ++ fl) v s1 (vi_kmem _ _ _ _ _ (as_vm _ _ _ _ _ _ HA1)) HR1 Hv Hn) as (s2 & _ & Hm & HK & Hb).
    exists s2. rewrite rev_app_distr /=. split; [|by apply (memonly_ready s1)].
    apply (aspace_kept end_ (rev ps ++ fl) pgdir T U s1 _ s2 HA1 HK).
    - intros q Hq [->|Hin]%elem_of_cons; [apply Hov; by right|]. revert Hin.
      destruct Hq as [Hq|[n Hn']]; [by apply (vi_apart _ _ _ _ _ (as_vm _ _ _ _ _ _ HA1))|].
      by destruct (as_frames _ _ _ _ _ _ HA1 n q Hn') as (_ & _ & ? & _).
    - intros q a Hq Ha. apply Hb. intros Hin. apply Hov. right. rewrite (page_disjoint end_ v q a Hv _ Hin Ha) //.
      apply (aspace_pages end_ (rev ps ++ fl) pgdir T U s1 q HA1). by right. }
  intros ps Hnd Hp Hout. destruct (Hm ps Hnd Hp Hout) as (s' & HA' & HR'). exists (rev ps ++ fl), s'.
  split_and!; [done|done|]. rewrite length_app length_rev. lia.
Qed.

(** The address space of one page, with 1200 free pages. *)
Lemma demo_roomy : ∃ fl T U s p, aspace demo_end fl 0x8010e000 T U s ∧ U !! 0 = Some p ∧ (1200 ≤ length fl)%nat.
Proof.
  destruct demo_user as (fl & T & U & s & p & HI & Hr & Hp & _ & _ & _ & _ & _ & Hlow).
  destruct (more_pages demo_end fl 0x8010e000 T U s ((λ k : nat, 0x80110000 + Z.of_nat k * PGSIZE) <$> seq 0 1200) HI Hr)
    as (fl' & s' & HI' & _ & Hl).
  - apply NoDup_fmap_2; [|apply NoDup_seq]. intros j k. rewrite /PGSIZE. lia.
  - apply Forall_forall. intros v (k & -> & Hk%elem_of_seq)%list_elem_of_fmap. rewrite /PGSIZE /demo_end.
    split; rewrite /KERNBASE /PHYSTOP /PGSIZE; Z.to_euclidean_division_equations; lia.
  - intros v (k & -> & _)%list_elem_of_fmap Ho%Hlow. rewrite /PGSIZE in Ho. lia.
  - rewrite length_fmap length_seq in Hl. by exists fl', T, U, s', p.
Qed.

