(* ===== verification/Consoledev.v ===== *)
(** * Console input: console.c, kbd.c and the receiving side of uart.c

    The keyboard driver's scan-code decoder, the line editor run by the
    interrupt handler on [input], and the read and write functions the console
    enters in the device switch. [input_r], [input_w] and [input_e] are the
    read, write and edit indices, counted modulo 2^32. *)

From S2P Require Import Prelude Param Bytes State Spinlock Sched Sleeplock Bio Log Fs Console Pipe File Proc.

Definition INPUT_BUF : Z := 128.

(** C(x): Control-x *)
Definition ctrl (x : Z) : Z := x - 64.

Definition set_input (buf : list Z) (r w e : Z) (x : cons_st) : cons_st :=
  Cons (cons_locking x) (panicked x) buf r w e (crt x) (crt_pos x) (uart x) (uart_out x) (kbd_shift x).
Definition set_shift (v : Z) (x : cons_st) : cons_st :=
  Cons (cons_locking x) (panicked x) (input_buf x) (input_r x) (input_w x) (input_e x)
       (crt x) (crt_pos x) (uart x) (uart_out x) v.

(** ** The interrupt handler *)

Definition input_at (k : Z) (x : cons_st) : Z := get8 (Z.to_nat (k mod INPUT_BUF)) (input_buf x).

(** Erase the last character being edited. *)
Definition erase : K unit :=
  updcons (λ x, set_input (input_buf x) (input_r x) (input_w x) (u32 (input_e x - 1)) x);;
  consputc BACKSPACE.

(** One turn of the kill-line loop. *)
Definition kill_step (u : unit) : K (unit + unit) :=
  x ← gets cons_of;
  if negb (input_e x =? input_w x) && negb (input_at (u32 (input_e x - 1)) x =? newline) then
    erase;;
    mret (inl tt)
  else mret (inr tt).

(** The default case: store and echo the character. *)
Definition accept (c : Z) : K unit :=
  x ← gets cons_of;
  if negb (c =? 0) && (u32 (input_e x - input_r x) <? INPUT_BUF) then
    let c := if c =? 13 then newline else c in
    updcons (λ x, set_input (<[Z.to_nat (input_e x mod INPUT_BUF) := u8 c]> (input_buf x))
                            (input_r x) (input_w x) (u32 (input_e x + 1)) x);;
    consputc c;;
    x ← gets cons_of;
    when ((c =? newline) || (c =? ctrl 68) || (input_e x =? u32 (input_r x + INPUT_BUF)))
      (updcons (λ x, set_input (input_buf x) (input_r x) (input_e x) (input_e x) x);;
       wakeup ChInput)
  else mret tt.

(** The switch on one character; the result is [doprocdump]. *)
Definition console_key (c : Z) (dump : bool) : K bool :=
  if c =? ctrl 80 then mret true
  else if c =? ctrl 85 then loop (S (Z.to_nat INPUT_BUF)) kill_step tt;; mret dump
  else if (c =? ctrl 72) || (c =? 127) then
    x ← gets cons_of;
    when (negb (input_e x =? input_w x)) erase;;
    mret dump
  else accept c;; mret dump.

(** consoleintr(getc) for a source of characters with the state [X]; [fuel]
    bounds the number of characters it has. *)
Fixpoint console_keys {X} (fuel : nat) (getc : X → K (Z * X)) (x : X) (dump : bool) : K bool :=
  match fuel with
  | O => nofuel
  | S fuel' =>
      '(c, x') ← getc x;
      if c <? 0 then mret dump else
      dump' ← console_key c dump;
      console_keys fuel' getc x' dump'
  end.

Definition consoleintr {X} (pcs : nat → list Z) (fuel : nat) (getc : X → K (Z * X)) (x : X) : K unit :=
  acquire LkCons;;
  dump ← console_keys fuel getc x false;
  release LkCons;;
  when dump (procdump pcs).

(** ** The device functions *)

(** One turn of the loop of consoleread(): bytes left, and the destination;
    [inr None] is the return of -1. *)
Definition consoleread_step {X} (put : X → list Z → K X) (target : Z) (v : Z * X) : K (Z * X + (option Z * X)) :=
  let '(n, dst) := v in
  if negb (n >? 0) then mret (inr (Some n, dst)) else
  x ← gets cons_of;
  if input_r x =? input_w x then
    k ← proc_killed;
    if k then mret (inr (None, dst)) else sleep ChInput LkCons
  else
  let c := input_at (input_r x) x in
  updcons (λ x, set_input (input_buf x) (u32 (input_r x + 1)) (input_w x) (input_e x) x);;
  if c =? ctrl 68 then
    when (n <? target)
      (updcons (λ x, set_input (input_buf x) (u32 (input_r x - 1)) (input_w x) (input_e x) x));;
    mret (inr (Some n, dst))
  else
  dst' ← put dst [c];
  if c =? newline then mret (inr (Some (n - 1), dst')) else
  mret (inl (n - 1, dst')).

Section dev.
Context `{IdeDriver}.

Definition consoleread X (put : X → list Z → K X) (ip : nat) (dst : X) (n : Z) : K (Z * X) :=
  iunlock (Some ip);;
  acquire LkCons;;
  '(r, dst) ← loop (S (Z.to_nat n)) (consoleread_step put n) (n, dst);
  release LkCons;;
  ilock (Some ip);;
  mret (match r with Some k => n - k | None => -1 end, dst).

Definition consolewrite (src : Z → Z → K (list Z)) (ip : nat) (n : Z) : K Z :=
  iunlock (Some ip);;
  acquire LkCons;;
  for_each (seq 0 (Z.to_nat n)) (λ i,
    bs ← src (Z.of_nat i) 1;
    consputc (Z.land (hd 0 bs) 0xff));;
  release LkCons;;
  ilock (Some ip);;
  mret n.

(** consoleinit()'s entries of the device switch. *)
#[global] Instance console_devsw : Devsw := {
  dev_read major := if major =? CONSOLE then Some consoleread else None;
  dev_write major := if major =? CONSOLE then Some consolewrite else None
}.

Definition consoleinit : K unit :=
  initlock LkCons;;
  updcons (set_locking true).

End dev.

(** ** The keyboard *)

Definition SHIFT : Z := 1.
Definition CTL : Z := 2.
Definition ALT : Z := 4.
Definition CAPSLOCK : Z := 8.
Definition NUMLOCK : Z := 16.
Definition SCROLLLOCK : Z := 32.
Definition E0ESC : Z := 64.

(** A C table of 256 bytes from its positional and its designated entries. *)
Definition keymap (l : list Z) (des : list (Z * Z)) : list Z :=
  foldl (λ t '(k, v), <[Z.to_nat k := u8 v]> t) (u8 <$> (l ++ replicate (256 - length l) 0)) des.

Definition shiftcode : list Z :=
  keymap [] [(0x1D, CTL); (0x2A, SHIFT); (0x36, SHIFT); (0x38, ALT); (0x9D, CTL); (0xB8, ALT)].

Definition togglecode : list Z := keymap [] [(0x3A, CAPSLOCK); (0x45, NUMLOCK); (0x46, SCROLLLOCK)].

Definition normalmap : list Z := keymap
  [0; 27; 49; 50; 51; 52; 53; 54; 55; 56; 57; 48; 45; 61; 8; 9;
   113; 119; 101; 114; 116; 121; 117; 105; 111; 112; 91; 93; 10; 0; 97; 115;
   100; 102; 103; 104; 106; 107; 108; 59; 39; 96; 0; 92; 122; 120; 99; 118;
   98; 110; 109; 44; 46; 47; 0; 42; 0; 32; 0; 0; 0; 0; 0; 0;
   0; 0; 0; 0; 0; 0; 0; 55; 56; 57; 45; 52; 53; 54; 43; 49;
   50; 51; 48; 46; 0; 0; 0; 0]
  [(0x9C, 10); (0xB5, 47); (0xC8, 226); (0xD0, 227); (0xC9, 230); (0xD1, 231);
   (0xCB, 228); (0xCD, 229); (0x97, 224); (0xCF, 225); (0xD2, 232); (0xD3, 233)].

Definition shiftmap : list Z := keymap
  [0; 27; 33; 64; 35; 36; 37; 94; 38; 42; 40; 41; 95; 43; 8; 9;
   81; 87; 69; 82; 84; 89; 85; 73; 79; 80; 123; 125; 10; 0; 65; 83;
   68; 70; 71; 72; 74; 75; 76; 58; 34; 126; 0; 124; 90; 88; 67; 86;
   66; 78; 77; 60; 62; 63; 0; 42; 0; 32; 0; 0; 0; 0; 0; 0;
   0; 0; 0; 0; 0; 0; 0; 55; 56; 57; 45; 52; 53; 54; 43; 49;
   50; 51; 48; 46; 0; 0; 0; 0]
  [(0x9C, 10); (0xB5, 47); (0xC8, 226); (0xD0, 227); (0xC9, 230); (0xD1, 231);
   (0xCB, 228); (0xCD, 229); (0x97, 224); (0xCF, 225); (0xD2, 232); (0xD3, 233)].

Definition ctlmap : list Z := keymap
  [0; 0; 0; 0; 0; 0; 0; 0; 0; 0; 0; 0; 0; 0; 0; 0;
   17; 23; 5; 18; 20; 25; 21; 9; 15; 16; 0; 0; 13; 0; 1; 19;
   4; 6; 7; 8; 10; 11; 12; 0; 0; 0; 0; 28; 26; 24; 3; 22;
   2; 14; 13; 0; 0; -17; 0; 0]
  [(0x9C, 13); (0xB5, -17); (0xC8, 226); (0xD0, 227); (0xC9, 230); (0xD1, 231);
   (0xCB, 228); (0xCD, 229); (0x97, 224); (0xCF, 225); (0xD2, 232); (0xD3, 233)].

(** [charcode[shift & (CTL | SHIFT)]] *)
Definition charcode (k : Z) : list Z :=
  if k =? 0 then normalmap else if k =? 1 then shiftmap else ctlmap.

(** kbdgetc() on one byte of the data port: the new [shift] and the result. *)
Definition kbd_decode (shift data : Z) : Z * Z :=
  if data =? 0xE0 then (Z.lor shift E0ESC, 0) else
  if negb (Z.land data 0x80 =? 0) then
    let data := if negb (Z.land shift E0ESC =? 0) then data else Z.land data 0x7F in
    (Z.land shift (Z.lnot (Z.lor (get8 (Z.to_nat data) shiftcode) E0ESC)), 0)
  else
  let '(shift, data) :=
    if negb (Z.land shift E0ESC =? 0)
    then (Z.land shift (Z.lnot E0ESC), Z.lor data 0x80) else (shift, data) in
  let shift := Z.lor shift (get8 (Z.to_nat data) shiftcode) in
  let shift := Z.lxor shift (get8 (Z.to_nat data) togglecode) in
  let c := get8 (Z.to_nat data) (charcode (Z.land shift (Z.lor CTL SHIFT))) in
  let c :=
    if negb (Z.land shift CAPSLOCK =? 0) then
      if (97 <=? c) && (c <=? 122) then c - 32
      else if (65 <=? c) && (c <=? 90) then c + 32 else c
    else c in
  (shift, c).

(** kbdgetc(), with the bytes waiting in the keyboard controller. *)
Definition kbdgetc (port : list Z) : K (Z * list Z) :=
  match port with
  | [] => mret (-1, [])
  | data :: port' =>
      x ← gets cons_of;
      let '(shift, c) := kbd_decode (kbd_shift x) data in
      updcons (set_shift shift);;
      mret (c, port')
  end.

Definition kbdintr (pcs : nat → list Z) (port : list Z) : K unit :=
  consoleintr pcs (S (length port)) kbdgetc port.

(** uartgetc(), with the bytes waiting in the receiver. *)
Definition uartgetc (port : list Z) : K (Z * list Z) :=
  x ← gets cons_of;
  if negb (uart x) then mret (-1, port) else
  match port with
  | [] => mret (-1, [])
  | c :: port' => mret (c, port')
  end.

Definition uartintr (pcs : nat → list Z) (port : list Z) : K unit :=
  consoleintr pcs (S (length port)) uartgetc port.
