(* ===== verification/ConsoledevSpec.v ===== *)
(** * The console's line editor

    consoleintr() and the keyboard decoder refine a line editor on two strings:
    the input committed for readers and the line being edited. *)

From S2P Require Import Prelude Param Bytes State Spinlock Sched Console ConsoleSpec Pipe PipeSpec Proc Consoledev.

(** ** The abstract editor *)

Record line := Line { committed : list Z; editing : list Z }.

Definition line_len (l : line) : Z := Z.of_nat (length (committed l) + length (editing l)).

(** A typed character: the new input, what is echoed, and whether the readers are
    woken. *)
Definition key (c : Z) (l : line) : line * list Z * bool :=
  if c =? ctrl 80 then (l, [], false)
  else if c =? ctrl 85 then (Line (committed l) [], concat (replicate (length (editing l)) (echo BACKSPACE)), false)
  else if (c =? ctrl 72) || (c =? 127) then
    match editing l with
    | [] => (l, [], false)
    | _ => (Line (committed l) (removelast (editing l)), echo BACKSPACE, false)
    end
  else if (c =? 0) || (INPUT_BUF <=? line_len l) then (l, [], false)
  else
    let c := if c =? 13 then newline else c in
    if (c =? newline) || (c =? ctrl 68) || (line_len l + 1 =? INPUT_BUF)
    then (Line (committed l ++ editing l ++ [u8 c]) [], echo c, true)
    else (Line (committed l) (editing l ++ [u8 c]), echo c, false).

Fixpoint edit (keys : list Z) (l : line) : line * list Z * bool :=
  match keys with
  | [] => (l, [], false)
  | c :: keys' =>
      let '(l1, out1, w1) := key c l in
      let '(l2, out2, w2) := edit keys' l1 in
      (l2, out1 ++ out2, w1 || w2)
  end.

(** The characters the keyboard controller's bytes stand for, and the state of
    the modifiers after them. *)
Fixpoint kbd_text (shift : Z) (port : list Z) : list Z * Z :=
  match port with
  | [] => ([], shift)
  | data :: port' =>
      let '(shift', c) := kbd_decode shift data in
      let '(keys, shift'') := kbd_text shift' port' in
      (c :: keys, shift'')
  end.

(** ** The ring buffer *)

(** The console's [input] holds [l]. *)
Record holds (x : cons_st) (l : line) : Prop := {
  h_buf : length (input_buf x) = Z.to_nat INPUT_BUF;
  h_r : 0 ≤ input_r x < 2 ^ 32;
  h_w : input_w x = u32 (input_r x + Z.of_nat (length (committed l)));
  h_e : input_e x = u32 (input_r x + line_len l);
  h_len : line_len l ≤ INPUT_BUF;
  h_at k c : (committed l ++ editing l) !! k = Some c → input_at (input_r x + Z.of_nat k) x = c;
  h_line : newline ∉ editing l;
  h_full : line_len l = INPUT_BUF → editing l = []
}.

(** [x'] is the console after echoing [out]. *)
Record shown (out : list Z) (x x' : cons_st) : Prop := {
  sh_ok : cons_ok x';
  sh_out : uart_out x' = uart_out x ++ (if uart x then out else []);
  sh_uart : uart x' = uart x;
  sh_locking : cons_locking x' = cons_locking x;
  sh_shift : kbd_shift x' = kbd_shift x
}.

Lemma shown_nil x : cons_ok x → shown [] x x.
Proof. intros. split; try done. destruct (uart x); by rewrite app_nil_r. Qed.

Lemma shown_trans o1 o2 x y z : shown o1 x y → shown o2 y z → shown (o1 ++ o2) x z.
Proof.
  intros [_ A1 A2 A3 A4] [Hz C1 C2 C3 C4]. split; [done|..|congruence].
  - rewrite C1 A1 A2 -app_assoc. f_equal. by destruct (uart x).
  - congruence.
  - congruence.
Qed.

Lemma shown_set_input out x x' b r w e : shown out x x' → shown out (set_input b r w e x) x'.
Proof. by intros []. Qed.

Lemma shown_input_set out x x' b r w e : shown out x x' → shown out x (set_input b r w e x').
Proof. intros [[] ? ? ? ?]. by split. Qed.

Lemma printed_shown out x x' : printed out x x' → shown out x x'.
Proof. by intros []. Qed.

(** Positions in the ring are counted modulo its size. *)
Lemma u32_mod_buf z : u32 z mod INPUT_BUF = z mod INPUT_BUF.
Proof. rewrite /u32 /INPUT_BUF. Z.to_euclidean_division_equations. lia. Qed.

Lemma input_at_mod a b x : a mod INPUT_BUF = b mod INPUT_BUF → input_at a x = input_at b x.
Proof. by rewrite /input_at => ->. Qed.

Lemma u32_sub_mod z : u32 (u32 z - 1) mod INPUT_BUF = (z - 1) mod INPUT_BUF.
Proof. rewrite u32_mod_buf -Zminus_mod_idemp_l u32_mod_buf Zminus_mod_idemp_l //. Qed.

Lemma u32_same a n : 0 ≤ n < 2 ^ 32 → u32 (a + n) = u32 a ↔ n = 0.
Proof. intros. rewrite /u32. Z.to_euclidean_division_equations. lia. Qed.

Lemma u32_diff a n : 0 ≤ n < 2 ^ 32 → 0 ≤ a < 2 ^ 32 → u32 (u32 (a + n) - a) = n.
Proof. intros. rewrite /u32. Z.to_euclidean_division_equations. lia. Qed.

(** ** One character *)

Section editor.
Context (s : kstate).
Hypothesis Hpt : k_locks s !! LkPtable = None.
Hypothesis Hcpu : cpu_ok (k_cpu s).

(** Inside consoleintr(), with the console [x]; [w] tells whether the readers were
    woken. *)
Definition at_input (x : cons_st) (w : bool) : kstate :=
  enter LkCons (set_cons x (if w then woken ChInput s else s)).

Lemma echo_Ok c x w :
  cons_ok x → ∃ x', consputc c (at_input x w) = Ok tt (at_input x' w) ∧ printed (echo c) x x'.
Proof. intros Hx. exact (consputc_Ok c (at_input x w) Hx). Qed.

Lemma woken_twice ch s0 : woken ch (woken ch s0) = woken ch s0.
Proof.
  transitivity (set_procs (wake ch <$> (wake ch <$> procs s0)) s0); [done|].
  rewrite /woken. f_equal. rewrite -list_fmap_compose. apply list_fmap_ext. intros _ p _.
  rewrite /= /wake. destruct (decide (p_state p = SLEEPING ∧ p_chan p = Some ch)) as [H|H].
  - rewrite (bool_decide_eq_true_2 _ H) bool_decide_eq_false_2 //. by intros [? _].
  - by rewrite !(bool_decide_eq_false_2 _ H).
Qed.

Lemma wakeup_input x w : wakeup ChInput (at_input x w) = Ok tt (at_input x true).
Proof.
  rewrite /at_input wakeup_enter //; [by destruct w|by destruct w|]. do 2 f_equal. destruct w; [|done].
  change (woken ChInput (set_cons x (woken ChInput s))) with (set_cons x (woken ChInput (woken ChInput s))).
  by rewrite woken_twice.
Qed.

Lemma holds_empty x l : holds x l → (input_e x =? input_w x) = bool_decide (editing l = []).
Proof.
  intros [_ Hr Hw He Hl _ _ _]. rewrite He Hw /line_len. rewrite /line_len /INPUT_BUF in Hl.
  replace (input_r x + Z.of_nat (length (committed l) + length (editing l)))
    with (input_r x + Z.of_nat (length (committed l)) + Z.of_nat (length (editing l))) by lia.
  case_bool_decide as E; [apply Z.eqb_eq|apply Z.eqb_neq]; rewrite u32_same; try lia.
  - by rewrite E.
  - destruct (editing l); simpl; [done|lia].
Qed.

Lemma holds_last x com ed c : holds x (Line com (ed ++ [c])) → input_at (u32 (input_e x - 1)) x = c.
Proof.
  intros H. rewrite (h_e _ _ H). rewrite (input_at_mod _ (input_r x + line_len (Line com (ed ++ [c])) - 1)); [apply u32_sub_mod|].
  rewrite /line_len /= length_app /=.
  replace (_ - 1) with (input_r x + Z.of_nat (length com + length ed)) by lia.
  apply (h_at _ _ H). rewrite /= app_assoc list_lookup_middle // length_app. lia.
Qed.

(** Forgetting the last character. *)
Lemma holds_erase x com ed c :
  holds x (Line com (ed ++ [c])) →
  holds (set_input (input_buf x) (input_r x) (input_w x) (u32 (input_e x - 1)) x) (Line com ed).
Proof.
  intros [Hb Hr Hw He Hl Ha Hn Hf]. rewrite /line_len /= length_app /= in He, Hl, Hf. split; simpl; try done.
  - rewrite He /line_len /= /u32 Zminus_mod_idemp_l. f_equal. lia.
  - rewrite /line_len /=. lia.
  - intros k d Hk. apply Ha. simpl. rewrite app_assoc. by apply lookup_app_l_Some.
  - simpl in Hn. intros Hin. apply Hn. apply elem_of_app. by left.
  - rewrite /line_len /=. lia.
Qed.

Lemma printed_holds out x x' l : printed out x x' → holds x l → holds x' l.
Proof.
  intros [_ _ _ _ (E1 & E2 & E3 & E4) _] [Hb Hr Hw He Hl Ha Hn Hf]. split; rewrite ?E1 ?E2 ?E3 ?E4 //.
  intros k c Hk. rewrite -(Ha k c Hk) /input_at E1 //.
Qed.

Lemma cons_ok_input b r w e x : cons_ok x → cons_ok (set_input b r w e x).
Proof. by intros []. Qed.

Lemma erase_Ok x w com ed c :
  cons_ok x → holds x (Line com (ed ++ [c])) →
  ∃ x', erase (at_input x w) = Ok tt (at_input x' w) ∧ holds x' (Line com ed) ∧ shown (echo BACKSPACE) x x'.
Proof.
  intros Hx Hh. rewrite /erase /updcons bind_modify.
  set (x1 := set_input (input_buf x) (input_r x) (input_w x) (u32 (input_e x - 1)) x).
  destruct (echo_Ok BACKSPACE x1 w) as (x' & Hrun & Hp); [by apply cons_ok_input|].
  exists x'. split; [exact Hrun|]. split.
  - eapply printed_holds; [exact Hp|]. by apply holds_erase in Hh.
  - by apply printed_shown in Hp as [].
Qed.

Lemma kill_loop n x w com ed :
  cons_ok x → holds x (Line com ed) → (length ed < n)%nat →
  ∃ x', loop n kill_step tt (at_input x w) = Ok tt (at_input x' w) ∧ holds x' (Line com []) ∧
        shown (concat (replicate (length ed) (echo BACKSPACE))) x x'.
Proof.
  revert x n. induction ed as [|c ed IH] using rev_ind; intros x n Hx Hh Hn; (destruct n as [|n]; [simpl in Hn; lia|]).
  - exists x. split_and!; [|done|by apply shown_nil]. apply loop_done.
    rewrite /kill_step bind_gets. change (cons_of (at_input x w)) with x. by rewrite (holds_empty _ _ Hh).
  - rewrite length_app /= in Hn. destruct (erase_Ok x w com ed c Hx Hh) as (x1 & H1 & Hh1 & S1).
    destruct (IH x1 n) as (x2 & H2 & Hh2 & S2); [apply S1|done|lia|]. exists x2. split_and!; [|done|].
    + rewrite (loop_S _ _ _ _ tt (at_input x1 w)) //.
      rewrite /kill_step bind_gets. change (cons_of (at_input x w)) with x.
      rewrite (holds_empty _ _ Hh) (holds_last _ _ _ _ Hh) /=.
      rewrite bool_decide_eq_false_2; [by destruct ed|]. assert (c ≠ newline) as Hc.
      { intros ->. apply (h_line _ _ Hh). simpl. apply elem_of_app. right. apply list_elem_of_here. }
      by rewrite (proj2 (Z.eqb_neq _ _) Hc) /= (bind_Ok _ _ _ _ _ H1).
    + rewrite length_app /= Nat.add_1_r replicate_S /=. exact (shown_trans (echo BACKSPACE) _ x x1 x2 S1 S2).
Qed.

(** Storing a character at the edit index. *)
Definition stored (c : Z) (x : cons_st) : cons_st :=
  set_input (<[Z.to_nat (input_e x mod INPUT_BUF) := u8 c]> (input_buf x)) (input_r x) (input_w x) (u32 (input_e x + 1)) x.

Lemma input_at_stored c x l k :
  holds x l → 0 ≤ k ≤ line_len l → line_len l < INPUT_BUF →
  input_at (input_r x + k) (stored c x) = if bool_decide (k = line_len l) then u8 c else input_at (input_r x + k) x.
Proof.
  intros [Hb _ _ He _ _ _ _] Hk Hl. rewrite /input_at /stored /= He u32_mod_buf /get8. case_bool_decide as E.
  - subst k. rewrite list_lookup_insert_eq //. rewrite Hb.
    pose proof (Z.mod_pos_bound (input_r x + line_len l) INPUT_BUF ltac:(done)). lia.
  - rewrite list_lookup_insert_ne //. rewrite /INPUT_BUF in Hl |- *. intros E'.
    apply E. Z.to_euclidean_division_equations. lia.
Qed.

Lemma stored_at c x l k d :
  holds x l → line_len l < INPUT_BUF → (committed l ++ editing l ++ [u8 c]) !! k = Some d →
  input_at (input_r x + Z.of_nat k) (stored c x) = d.
Proof.
  intros H Hl Hk. rewrite (input_at_stored c x l) //.
  { apply lookup_lt_Some in Hk. rewrite !length_app /= in Hk. rewrite /line_len. lia. }
  rewrite app_assoc in Hk. apply lookup_app_Some in Hk as [Hk|[Hlen Hk]].
  - rewrite bool_decide_eq_false_2; [|by apply (h_at _ _ H)]. apply lookup_lt_Some in Hk. rewrite length_app in Hk.
    rewrite /line_len. lia.
  - apply list_lookup_singleton_Some in Hk as [Hk <-]. rewrite bool_decide_eq_true_2 //.
    rewrite length_app in Hlen, Hk. rewrite /line_len. lia.
Qed.

Lemma holds_stored c x l :
  holds x l → line_len l < INPUT_BUF → u8 c ≠ newline → line_len l + 1 ≠ INPUT_BUF →
  holds (stored c x) (Line (committed l) (editing l ++ [u8 c])).
Proof.
  intros H Hl Hc Hf. pose proof H as [Hb Hr Hw He _ Ha Hn _].
  assert (line_len (Line (committed l) (editing l ++ [u8 c])) = line_len l + 1) as El.
  { rewrite /line_len /= length_app /=. lia. }
  split; rewrite ?El; try done; simpl.
  - by rewrite length_insert.
  - rewrite He /u32 Zplus_mod_idemp_l. f_equal. lia.
  - lia.
  - intros k d Hk. by apply (stored_at c x l).
  - rewrite elem_of_app list_elem_of_singleton. intros [Hin|Hin]; [by apply Hn|congruence].
Qed.

(** Committing the line. *)
Lemma holds_commit c x l :
  holds x l → line_len l < INPUT_BUF →
  holds (set_input (input_buf (stored c x)) (input_r x) (input_e (stored c x)) (input_e (stored c x)) (stored c x))
        (Line (committed l ++ editing l ++ [u8 c]) []).
Proof.
  intros H Hl. pose proof H as [Hb Hr Hw He _ Ha Hn _].
  assert (line_len (Line (committed l ++ editing l ++ [u8 c]) []) = line_len l + 1) as El.
  { rewrite /line_len /= !length_app /=. lia. }
  assert (input_e (stored c x) = u32 (input_r x + (line_len l + 1))) as Ee.
  { rewrite /= He /u32 Zplus_mod_idemp_l. f_equal. lia. }
  split; rewrite ?El; try done; simpl.
  - by rewrite length_insert.
  - rewrite -[u32 (input_e x + 1)]/(input_e (stored c x)) Ee !length_app /= /line_len. f_equal. lia.
  - lia.
  - intros k d Hk. rewrite app_nil_r in Hk. by apply (stored_at c x l).
  - apply not_elem_of_nil.
Qed.

Lemma accept_Ok c x w l :
  cons_ok x → holds x l → 0 < c < 256 → line_len l < INPUT_BUF →
  let c' := if c =? 13 then newline else c in
  let ends := (c' =? newline) || (c' =? ctrl 68) || (line_len l + 1 =? INPUT_BUF) in
  ∃ x', accept c (at_input x w) = Ok tt (at_input x' (w || ends)) ∧ shown (echo c') x x' ∧
    holds x' (if ends then Line (committed l ++ editing l ++ [u8 c']) [] else Line (committed l) (editing l ++ [u8 c'])).
Proof.
  intros Hx Hh Hc Hl c' ends. pose proof (h_r _ _ Hh) as Hr. pose proof (h_e _ _ Hh) as He.
  assert (0 ≤ line_len l) as H0 by (rewrite /line_len; lia). rewrite /INPUT_BUF in Hl.
  rewrite /accept bind_gets. change (cons_of (at_input x w)) with x.
  rewrite (proj2 (Z.eqb_neq c 0)); [lia|]. rewrite He u32_diff; [lia..|].
  rewrite (proj2 (Z.ltb_lt (line_len l) INPUT_BUF)); [done|]. cbn [negb andb]. fold c'.
  rewrite /updcons bind_modify. change (set_cons _ (at_input x w)) with (at_input (stored c' x) w).
  destruct (echo_Ok c' (stored c' x) w) as (x1 & H1 & P1); [by apply cons_ok_input|].
  rewrite (bind_Ok _ _ _ _ _ H1) bind_gets. change (cons_of (at_input x1 w)) with x1.
  pose proof P1 as [Hok1 _ _ _ (E1 & E2 & E3 & E4) _].
  assert ((input_e x1 =? u32 (input_r x1 + INPUT_BUF)) = (line_len l + 1 =? INPUT_BUF)) as ->.
  { rewrite E4 E2 /= He /u32 Zplus_mod_idemp_l /INPUT_BUF. fold (u32 (input_r x + line_len l + 1)).
    destruct (Z.eqb_spec (line_len l + 1) 128) as [E|E]; [apply Z.eqb_eq|apply Z.eqb_neq].
    - rewrite /u32. f_equal. lia.
    - rewrite /u32. Z.to_euclidean_division_equations. lia. }
  fold ends. assert (shown (echo c') x x1) as S1 by by apply printed_shown in P1 as [].
  rewrite /when. destruct ends eqn:Eends.
  - rewrite bind_modify. change (set_cons ?y (at_input x1 w)) with (at_input y w). rewrite wakeup_input orb_true_r.
    eexists. split; [done|]. split; [by apply shown_input_set|].
    destruct (holds_commit c' x l Hh Hl) as [A1 A2 A3 A4 A5 A6 A7 A8]. split; simpl; rewrite ?E1 ?E2 ?E4 //.
  - exists x1. rewrite orb_false_r. split; [done|]. split; [done|]. eapply printed_holds; [exact P1|].
    apply orb_false_iff in Eends as [[En%Z.eqb_neq _]%orb_false_iff Ef%Z.eqb_neq]. apply holds_stored; try done.
    rewrite /u8 Z.mod_small //. rewrite /c'. destruct (c =? 13); rewrite /newline; lia.
Qed.

Lemma console_key_Ok c dump x w l :
  cons_ok x → holds x l → 0 ≤ c < 256 →
  ∃ x', console_key c dump (at_input x w) = Ok (dump || (c =? ctrl 80)) (at_input x' (w || (key c l).2)) ∧
    holds x' (key c l).1.1 ∧ shown (key c l).1.2 x x'.
Proof.
  intros Hx Hh Hc. rewrite /console_key /key. destruct l as [com ed]. cbn [committed editing].
  destruct (c =? ctrl 80) eqn:E1.
  { exists x. rewrite orb_true_r orb_false_r. split_and!; [done|done|by apply shown_nil]. }
  rewrite orb_false_r. destruct (c =? ctrl 85).
  { pose proof (h_len _ _ Hh) as Hlen. rewrite /line_len /= in Hlen.
    destruct (kill_loop (S (Z.to_nat INPUT_BUF)) x w com ed Hx Hh) as (x' & H1 & H2 & H3); [rewrite /INPUT_BUF in Hlen |- *; lia|].
    exists x'. rewrite (bind_Ok _ _ _ _ _ H1) orb_false_r. done. }
  destruct ((c =? ctrl 72) || (c =? 127)).
  { rewrite bind_gets. change (cons_of (at_input x w)) with x. rewrite (holds_empty _ _ Hh) /=.
    destruct ed as [|d ed _] using rev_ind.
    - exists x. rewrite orb_false_r. split_and!; [done|done|by apply shown_nil].
    - destruct (erase_Ok x w com ed d Hx Hh) as (x' & H1 & H2 & H3). exists x'.
      rewrite bool_decide_eq_false_2; [by destruct ed|]. rewrite /when (bind_Ok _ _ _ _ _ H1).
      replace (match ed ++ [d] with [] => _ | _ => _ end)
        with (Line com (removelast (ed ++ [d])), echo BACKSPACE, false) by by destruct ed.
      rewrite removelast_last orb_false_r. done. }
  destruct (Z.eqb_spec c 0) as [->|Hc0].
  { exists x. rewrite orb_false_r. split_and!; [|done|by apply shown_nil]. by rewrite /accept bind_assoc bind_gets. }
  rewrite orb_false_l. destruct (Z.leb_spec INPUT_BUF (line_len (Line com ed))) as [Hfull|Hroom].
  - exists x. rewrite orb_false_r. split_and!; [|done|by apply shown_nil].
    rewrite /accept bind_assoc bind_gets. change (cons_of (at_input x w)) with x.
    pose proof (h_r _ _ Hh) as Hr. pose proof (h_len _ _ Hh) as Hlen.
    rewrite (h_e _ _ Hh) u32_diff; [rewrite /INPUT_BUF in Hfull, Hlen; lia|lia|].
    rewrite (proj2 (Z.ltb_ge _ _) Hfull) andb_false_r. done.
  - destruct (accept_Ok c x w (Line com ed) Hx Hh) as (x' & H1 & H2 & H3); [lia|done|].
    exists x'. rewrite (bind_Ok _ _ _ _ _ H1). set (c' := if c =? 13 then newline else c) in *.
    by destruct ((c' =? newline) || (c' =? ctrl 68) || (line_len (Line com ed) + 1 =? INPUT_BUF)).
Qed.

(** ** The keyboard's characters *)

Lemma get8_range k l : Forall (λ c, 0 ≤ c < 256) l → 0 ≤ get8 k l < 256.
Proof.
  intros Hl. rewrite /get8. destruct (l !! k) as [c|] eqn:E; [|done]. exact (Forall_lookup_1 _ _ _ _ Hl E).
Qed.

Lemma charcode_range k : Forall (λ c, 0 ≤ c < 256) (charcode k).
Proof.
  rewrite /charcode. destruct (k =? 0), (k =? 1); by apply (bool_decide_unpack _); vm_compute.
Qed.

Lemma kbd_decode_range shift data : 0 ≤ (kbd_decode shift data).2 < 256.
Proof.
  rewrite /kbd_decode. destruct (data =? 0xE0); [done|]. destruct (negb (Z.land data 0x80 =? 0)); [done|].
  destruct (if negb (Z.land shift E0ESC =? 0) then _ else _) as [sh d]. cbn [snd].
  set (c := get8 _ (charcode _)). assert (0 ≤ c < 256) as Hc by apply get8_range, charcode_range.
  destruct (negb _); [|done]. destruct ((97 <=? c) && (c <=? 122)) eqn:E1; [lia|].
  destruct ((65 <=? c) && (c <=? 90)) eqn:E2; lia.
Qed.

Lemma shown_shift sh out x x' : shown out x x' → shown out (set_shift sh x) (set_shift sh x').
Proof. by intros [[] ? ? ? ?]. Qed.

Lemma holds_shift sh x l : holds x l → holds (set_shift sh x) l.
Proof. by intros []. Qed.

Lemma kbd_keys_Ok port : ∀ dump x w l,
  cons_ok x → holds x l →
  let '(keys, shift) := kbd_text (kbd_shift x) port in
  let '(l', out, w') := edit keys l in
  ∃ x', console_keys (S (length port)) kbdgetc port dump (at_input x w) =
      Ok (dump || existsb (λ c, c =? ctrl 80) keys) (at_input x' (w || w')) ∧
    holds x' l' ∧ shown out (set_shift shift x) x'.
Proof.
  induction port as [|data port IH]; intros dump x w l Hx Hh.
  { exists x. rewrite !orb_false_r. split_and!; [done|done|]. destruct x. by apply shown_nil. }
  cbn [kbd_text]. pose proof (kbd_decode_range (kbd_shift x) data) as Hc.
  destruct (kbd_decode (kbd_shift x) data) as [sh c] eqn:Ed. cbn [snd] in Hc.
  destruct (console_key_Ok c dump (set_shift sh x) w l) as (x1 & H1 & Hh1 & S1); [by destruct Hx|by apply holds_shift|done|].
  specialize (IH (dump || (c =? ctrl 80)) x1 (w || (key c l).2) (key c l).1.1 (sh_ok _ _ _ S1) Hh1).
  rewrite (sh_shift _ _ _ S1) in IH. cbn [kbd_shift set_shift] in IH.
  destruct (kbd_text sh port) as [keys shift]. cbn [edit]. destruct (key c l) as [[l1 o1] w1]. cbn [fst snd] in *.
  destruct (edit keys l1) as [[l2 o2] w2]. destruct IH as (x2 & H2 & Hh2 & S2). exists x2. split_and!; [|done|].
  - cbn [length]. remember (S (length port)) as n eqn:En. cbn [console_keys existsb].
    rewrite /kbdgetc bind_assoc bind_gets. change (cons_of (at_input x w)) with x. rewrite Ed.
    rewrite bind_assoc /updcons bind_modify bind_ret. rewrite (proj2 (Z.ltb_ge c 0)); [lia|].
    change (set_cons _ (at_input x w)) with (at_input (set_shift sh x) w).
    rewrite (bind_Ok _ _ _ _ _ H1) H2. by rewrite !orb_assoc.
  - apply (shown_trans _ _ _ (set_shift shift x1)); [|done]. exact (shown_shift shift _ _ _ S1).
Qed.

End editor.

(** ** Main property *)

(** The console is not in use and its input holds [l]. *)
Record editor_ready (s : kstate) (l : line) : Prop := {
  er_locks : k_locks s !! LkCons = None ∧ k_locks s !! LkPtable = None;
  er_cpu : cpu_ok (k_cpu s);
  er_cons : cons_ok (cons_of s);
  er_input : holds (cons_of s) l
}.

(** C23: a keyboard interrupt refines the line editor. The bytes waiting in the
    controller are decoded with the state of the modifier keys; the resulting
    characters edit the input: erasing and killing reach back to the start of the
    line and no further, a character is dropped when the buffer is full, and a
    line is committed to the readers, who are then woken, by a newline, by ^D or
    by filling the buffer. Everything is echoed. ^P prints the process table at
    the end. The ring of 128 bytes, with indices that wrap around at 2^32, never
    loses or mixes up input. *)
Theorem kbdintr_line_editor pcs port s l :
  editor_ready s l →
  let '(keys, shift) := kbd_text (kbd_shift (cons_of s)) port in
  let '(l', out, w) := edit keys l in
  ∃ x', holds x' l' ∧ shown out (set_shift shift (cons_of s)) x' ∧
    kbdintr pcs port s =
      (when (existsb (λ c, c =? ctrl 80) keys) (procdump pcs)) (crit (set_cons x' (if w then woken ChInput s else s))).
Proof.
  intros [[Hl Hpt] Hcpu Hx Hh]. pose proof (kbd_keys_Ok s Hpt Hcpu port false (cons_of s) false l Hx Hh) as H.
  destruct (kbd_text _ port) as [keys shift]. destruct (edit keys l) as [[l' out] w].
  destruct H as (x' & Hrun & Hh' & S'). exists x'. split_and!; [done|done|].
  rewrite /kbdintr /consoleintr bind_acquire //.
  assert (at_input s (cons_of s) false = enter LkCons s) as Es by by rewrite /at_input set_cons_id.
  rewrite -Es (bind_Ok _ _ _ _ _ Hrun) /at_input orb_false_l.
  assert (k_locks (set_cons x' (if w then woken ChInput s else s)) !! LkCons = None) as Hl' by by destruct w.
  assert (cpu_ok (k_cpu (set_cons x' (if w then woken ChInput s else s)))) as Hc' by by destruct w.
  by rewrite (bind_Ok _ _ _ _ _ (release_enter LkCons _ Hl' Hc')).
Qed.

(** Typing "l", shift and "s", backspace, "s", Enter, then "x". *)
Definition typed : list Z := [0x26; 0xa6; 0x2a; 0x1f; 0xaa; 0x0e; 0x1f; 0x1c; 0x2d].

Lemma typed_text : kbd_text 0 typed = ([108; 0; 0; 83; 0; 8; 115; 10; 120], 0).
Proof. by vm_compute. Qed.

Lemma typed_edit : ∃ out, edit [108; 0; 0; 83; 0; 8; 115; 10; 120] (Line [] []) = (Line [108; 115; 10] [120], out, true).
Proof. eexists. by vm_compute. Qed.

Lemma kbdintr_line_editor_witness :
  ∃ x', holds x' (Line [108; 115; 10] [120]) ∧
    kbdintr (λ _, []) typed boot_state = Ok tt (crit (set_cons x' (woken ChInput boot_state))).
Proof.
  assert (editor_ready boot_state (Line [] [])) as Hr.
  { split; [done|by split|by split|]. split; try done. by apply not_elem_of_nil. }
  pose proof (kbdintr_line_editor (λ _, []) typed boot_state (Line [] []) Hr) as H.
  change (kbd_shift (cons_of boot_state)) with 0 in H. rewrite typed_text in H.
  destruct typed_edit as [out E]. rewrite E in H. destruct H as (x' & H1 & _ & H2).
  exists x'. split; [exact H1|exact H2].
Defined.
