(* ===== verification/Sysarg.v ===== *)
(** * System call arguments: fetchint ... argstr of syscall.c

    Arguments are fetched from the user stack through the page table of the
    current process, after checks against [proc->sz]. [None] is the result -1;
    a fetched string is the list of its characters. *)

From S2P Require Import Prelude Param Bytes String State Spinlock Sched Kalloc Vm.

Definition curproc : K proc :=
  i ← cur;
  getproc i.

Definition fetchint (addr : Z) : K (option Z) :=
  p ← curproc;
  if (addr >=? p_sz p) || (u32 (addr + 4) >? p_sz p) then mret None else
  v ← vload32 addr;
  mret (Some (s32 v)).

(** [for(s = *pp; s < ep; s++) if( *s == 0) return s - *pp;] *)
Fixpoint fetch_chars (a : Z) (n : nat) : K (option (list Z)) :=
  match n with
  | O => mret None
  | S n' =>
      c ← vload8 a;
      if c =? 0 then mret (Some []) else
      r ← fetch_chars (a + 1) n';
      mret (cons c <$> r)
  end.

Definition fetchstr (addr : Z) : K (option (list Z)) :=
  p ← curproc;
  if addr >=? p_sz p then mret None else
  fetch_chars addr (Z.to_nat (p_sz p - addr)).

Definition argint (n : Z) : K (option Z) :=
  p ← curproc;
  fetchint (u32 (tf_esp (p_tf p) + 4 + 4 * n)).

Definition argptr (n size : Z) : K (option Z) :=
  o ← argint n;
  match o with
  | None => mret None
  | Some i =>
      p ← curproc;
      if (size <? 0) || (u32 i >=? p_sz p) || (u32 (u32 i + size) >? p_sz p) then mret None
      else mret (Some (u32 i))
  end.

Definition argstr (n : Z) : K (option (list Z)) :=
  o ← argint n;
  match o with
  | None => mret None
  | Some addr => fetchstr (u32 addr)
  end.
