(* ===== verification/Exec.v ===== *)
(** * Loading programs: exec.c, and loaduvm() of vm.c

    [argv] is the list of the argument strings' addresses in the old address
    space, which stays in cr3 until the new image is complete. *)

From S2P Require Import Prelude Param Bytes String State Spinlock Sched Sleeplock Bio Log Kalloc Vm Fs Console Pipe File Proc Sysarg.

(** ** elf.h *)

Definition ELF_MAGIC : Z := 0x464C457F.
Definition ELF_PROG_LOAD : Z := 1.
Definition sizeof_elfhdr : Z := 52.
Definition sizeof_proghdr : Z := 32.

(** The fields of struct elfhdr and struct proghdr that exec() reads. *)
Record elfhdr := Elfhdr { elf_magic : Z; elf_entry : Z; elf_phoff : Z; elf_phnum : Z }.
Definition elfhdr_of (l : list Z) : elfhdr :=
  Elfhdr (get32 0 l) (get32 24 l) (get32 28 l) (get16 44 l).

Record proghdr := Proghdr { ph_type : Z; ph_off : Z; ph_vaddr : Z; ph_filesz : Z; ph_memsz : Z }.
Definition proghdr_of (l : list Z) : proghdr :=
  Proghdr (get32 0 l) (get32 4 l) (get32 8 l) (get32 16 l) (get32 20 l).

(** Kernel memory as the destination of readi(). *)
Definition put_kernel (dst : Z) (bs : list Z) : K Z :=
  kstore (λ m, store m dst bs);;
  mret (dst + Z.of_nat (length bs)).

Section exec.
Context `{IdeDriver, Devsw} (end_ data_ : Z).

(** One page of loaduvm(). *)
Definition loaduvm_page (pgdir addr : Z) (ip : nat) (offset sz i : Z) : K (option unit) :=
  pte ← walkpgdir pgdir (u32 (addr + i)) false;
  if pte =? 0 then panic "loaduvm: address should exist" else
  e ← kload32 pte;
  let n := Z.min (sz - i) PGSIZE in
  '(r, _) ← readi put_kernel ip (P2V (PTE_ADDR e)) (u32 (offset + i)) n;
  mret (if u32 r =? n then None else Some tt).

Definition loaduvm (pgdir addr : Z) (ip : nat) (offset sz : Z) : K Z :=
  if negb (addr mod PGSIZE =? 0) then panic "loaduvm: addr must be page aligned" else
  r ← scan (page_starts sz) (loaduvm_page pgdir addr ip offset sz);
  mret (match r with None => 0 | Some _ => -1 end).

(** One program header: the new size, or [None] for [goto bad]. [junk] is what
    an uninitialised local holds. *)
Definition exec_segment (pgdir : Z) (ip : nat) (off sz : Z) : K (option Z) :=
  '(r, bs) ← readi put_local ip [] off sizeof_proghdr;
  if negb (u32 r =? sizeof_proghdr) then mret None else
  let ph := proghdr_of bs in
  if negb (ph_type ph =? ELF_PROG_LOAD) then mret (Some sz) else
  if ph_memsz ph <? ph_filesz ph then mret None else
  if u32 (ph_vaddr ph + ph_memsz ph) <? ph_vaddr ph then mret None else
  sz ← allocuvm end_ pgdir sz (u32 (ph_vaddr ph + ph_memsz ph));
  if sz =? 0 then mret None else
  if negb (ph_vaddr ph mod PGSIZE =? 0) then mret None else
  l ← loaduvm pgdir (ph_vaddr ph) ip (ph_off ph) (ph_filesz ph);
  if l <? 0 then mret None else mret (Some sz).

Fixpoint exec_load (pgdir : Z) (ip : nat) (n : nat) (off sz : Z) : K (option Z) :=
  match n with
  | O => mret (Some sz)
  | S n' =>
      r ← exec_segment pgdir ip (u32 off) sz;
      match r with
      | None => mret None
      | Some sz' => exec_load pgdir ip n' (off + sizeof_proghdr) sz'
      end
  end.

(** strlen() on a user string, which fetchstr() has seen end below [proc->sz]. *)
Fixpoint vstrlen (a : Z) (fuel : nat) : K Z :=
  match fuel with
  | O => nofuel
  | S fuel' =>
      c ← vload8 a;
      if c =? 0 then mret 0 else n ← vstrlen (u32 (a + 1)) fuel'; mret (n + 1)
  end.

(** The loop pushing the argument strings: the stack pointer and the pointers
    stored in [ustack]. *)
Fixpoint push_args (pgdir fuel : Z) (argv : list Z) (argc : nat) (sp : Z) (ptrs : list Z) :
    K (option (Z * list Z)) :=
  match argv with
  | [] => mret (Some (sp, ptrs))
  | a :: argv' =>
      if a =? 0 then mret (Some (sp, ptrs)) else
      if (MAXARG <=? argc)%nat then mret None else
      n ← vstrlen a (Z.to_nat fuel);
      let sp := Z.land (u32 (sp - (n + 1))) (u32 (Z.lnot 3)) in
      r ← copyout pgdir sp a (n + 1);
      if r <? 0 then mret None else
      push_args pgdir fuel argv' (S argc) sp (ptrs ++ [sp])
  end.

(** [for(last=s=path; *s; s++) if( *s == '/') last = s+1;] *)
Fixpoint last_elem (path last : list Z) : list Z :=
  match path with
  | [] => last
  | c :: p => last_elem p (if c =? slash then p else last)
  end.

(** [sigretimplicit] and [alltraps] are the symbols of trapasm.S; [ustack] is
    the address of exec()'s local of that name. *)
Context (sigretimplicit alltraps ustack : Z) (junk : list Z).

(** The label [bad]. *)
Definition exec_bad (pgdir : Z) (ip : option nat) : K Z :=
  when (negb (pgdir =? 0)) (freevm end_ pgdir);;
  (match ip with
   | Some ip => iunlockput ip;; end_op
   | None => mret tt
   end);;
  mret (-1).

(** From [sz = PGROUNDUP(sz)] on, with the program loaded. *)
Definition exec_stack (path : list Z) (argv : list Z) (elf : elfhdr) (pgdir sz : Z) : K Z :=
  let sz := PGROUNDUP sz in
  sz ← allocuvm end_ pgdir sz (u32 (sz + 2 * PGSIZE));
  if sz =? 0 then exec_bad pgdir None else
  clearpteu pgdir (u32 (sz - 2 * PGSIZE));;
  let retFuncSize := s32 (alltraps - sigretimplicit) in
  let sp := u32 (sz - retFuncSize) in
  _ ← copyout pgdir sp sigretimplicit (u32 retFuncSize);
  i ← cur;
  updproc i (λ p, set_procHandlingSigNow 0 (set_sigretAdd sp p));;
  p ← getproc i;
  r ← push_args pgdir (p_sz p) argv 0 sp [];
  match r with
  | None => exec_bad pgdir None
  | Some (sp, ptrs) =>
      let argc := Z.of_nat (length ptrs) in
      let words := [0xffffffff; argc; u32 (sp - (argc + 1) * 4)] ++ ptrs ++ [0] in
      kstore (λ m, store m ustack (concat (le4 <$> words)));;
      let sp := u32 (sp - (3 + argc + 1) * 4) in
      c ← copyout pgdir sp ustack ((3 + argc + 1) * 4);
      if c <? 0 then exec_bad pgdir None else
      updproc i (set_name (name_copy (last_elem path path)));;
      p ← getproc i;
      updproc i (λ p, set_sz sz (set_pgdir pgdir p));;
      updproc i (λ p, set_tf (set_eip_esp (elf_entry elf) sp (p_tf p)) p);;
      switchuvm i;;
      freevm end_ (p_pgdir p);;
      mret 0
  end.

Definition exec (path : list Z) (argv : list Z) : K Z :=
  begin_op;;
  o ← namei path;
  match o with
  | None => end_op;; mret (-1)
  | Some ip =>
      ilock (Some ip);;
      '(r, bs) ← readi put_local ip [] 0 sizeof_elfhdr;
      if u32 r <? sizeof_elfhdr then exec_bad 0 (Some ip) else
      let elf := elfhdr_of (bs ++ drop (length bs) junk) in
      if negb (elf_magic elf =? ELF_MAGIC) then exec_bad 0 (Some ip) else
      pgdir ← setupkvm data_;
      if pgdir =? 0 then exec_bad 0 (Some ip) else
      l ← exec_load pgdir ip (Z.to_nat (elf_phnum elf)) (elf_phoff elf) 0;
      match l with
      | None => exec_bad pgdir (Some ip)
      | Some sz =>
          iunlockput ip;;
          end_op;;
          exec_stack path argv elf pgdir sz
      end
  end.

End exec.
