(* ===== verification/Bootmain.v ===== *)
(** * The boot loader: bootmain.c

    Loading the kernel from the disk with programmed I/O. The machine runs without
    page tables, so that [hw_mem] is the physical memory. The theorem says that the
    segments of the kernel are in memory when its entry point is called. *)

From S2P Require Import Prelude Param Bytes String State Spinlock Sched Sleeplock Bio Hw Irq Ide IdeSpec Exec.

Module Bootmain.

Definition SECTSIZE : Z := 512.

(** Where bootmain() keeps the first page of the kernel file. *)
Definition scratch : Z := 0x10000.

Definition upd_mem (f : mem → mem) : W unit := modify (λ s, set_hwmem (f (hw_mem s)) s).

Section boot.
Context `{Devices} (fuel : nat).

Definition waitdisk : W unit :=
  loop fuel (λ _, r ← inb 0x1F7; if Z.land r 0xC0 =? 0x40 then mret (inr ()) else mret (inl ())) ().

Definition readsect (dst offset : Z) : W unit :=
  waitdisk;;
  outb 0x1F2 1;;
  outb 0x1F3 offset;;
  outb 0x1F4 (Z.shiftr offset 8);;
  outb 0x1F5 (Z.shiftr offset 16);;
  outb 0x1F6 (Z.lor (Z.shiftr offset 24) 0xE0);;
  outb 0x1F7 0x20;;
  waitdisk;;
  bs ← insl 0x1F0 (Z.to_nat (SECTSIZE / 4));
  upd_mem (λ m, store m dst bs).

Definition readseg_step (epa : Z) (x : Z * Z) : W (Z * Z + unit) :=
  let '(pa, offset) := x in
  if pa <? epa then
    readsect pa offset;;
    mret (inl (u32 (pa + SECTSIZE), u32 (offset + 1)))
  else mret (inr ()).

(** The loop ends unless the address wraps around, after at most one sector per
    SECTSIZE bytes. *)
Definition readseg (pa count offset : Z) : W unit :=
  let epa := u32 (pa + count) in
  let pa := u32 (pa - offset mod SECTSIZE) in
  let offset := u32 (offset / SECTSIZE + 1) in
  loop (S (S (Z.to_nat ((epa - pa) / SECTSIZE)))) (readseg_step epa) (pa, offset).

(** The fields of the ELF header and of a program header, in memory. *)
Definition elf_phnum_at (m : mem) (elf : Z) : Z := of_le2 (byte m (elf + 44)) (byte m (elf + 45)).
Definition ph_off_at (m : mem) (ph : Z) : Z := load32 m (ph + 4).
Definition ph_paddr_at (m : mem) (ph : Z) : Z := load32 m (ph + 12).
Definition ph_filesz_at (m : mem) (ph : Z) : Z := load32 m (ph + 16).
Definition ph_memsz_at (m : mem) (ph : Z) : Z := load32 m (ph + 20).

Definition load_segment (ph : Z) : W unit :=
  m ← gets hw_mem;
  let pa := ph_paddr_at m ph in
  readseg pa (ph_filesz_at m ph) (ph_off_at m ph);;
  m ← gets hw_mem;
  if ph_memsz_at m ph >? ph_filesz_at m ph then
    upd_mem (λ m', stosb m' (u32 (pa + ph_filesz_at m ph)) 0 (Z.to_nat (ph_memsz_at m ph - ph_filesz_at m ph)))
  else mret ().

(** The entry point that is called; [None] when the file is not an ELF file. *)
Definition bootmain : W (option Z) :=
  readseg scratch 4096 0;;
  m ← gets hw_mem;
  if negb (load32 m scratch =? ELF_MAGIC) then mret None else
  let ph := scratch + load32 m (scratch + 28) in
  for_each (seq 0 (Z.to_nat (elf_phnum_at m scratch))) (λ k, load_segment (ph + sizeof_proghdr * Z.of_nat k));;
  m ← gets hw_mem;
  mret (Some (load32 m (scratch + 24))).

End boot.

End Bootmain.

Import Bootmain.

#[local] Arguments Z.div : simpl never.
#[local] Arguments Z.modulo : simpl never.

(** ** Reading sectors *)

Section controller.
Context `{Devices} (x0 : ata) (patience fuel : nat).

(** The controller, as in IdeSpec. *)
Hypothesis ata_ready : ∀ h vs, (patience ≤ length vs)%nat →
  Z.land (u8 (port_in (h ++ (In 0x1f7 <$> vs)) 0x1f7)) (Z.lor Ide.IDE_BSY Ide.IDE_DRDY) = Ide.IDE_DRDY.
Hypothesis ata_data : ∀ h d n, a_phase (ata_of x0 h) = Reading d n →
  port_ins (hw_hist h) 0x1f0 128 = content (a_disk (ata_of x0 h)) d n.
Hypothesis fuel_enough : (patience < fuel)%nat.

Lemma waitdisk_Ok h : ∃ h', waitdisk fuel h = Ok () h' ∧ ata_of x0 h' = ata_of x0 h ∧ hw_mem h' = hw_mem h.
Proof.
  assert (∀ n vs, (length vs ≤ patience < n + length vs)%nat →
    ∃ h', loop n (λ _, r ← inb 0x1F7; if Z.land r 0xC0 =? 0x40 then mret (inr ()) else mret (inl ())) ()
            (set_hist (hw_hist h ++ (In 0x1f7 <$> vs)) h) = Ok () h' ∧ ata_of x0 h' = ata_of x0 h ∧ hw_mem h' = hw_mem h) as Hl.
  { induction n as [|n IH]; intros vs Hn; [lia|]. set (h1 := set_hist _ h). set (v := u8 (port_in (hw_hist h1) 0x1f7)).
    assert (note (In 0x1f7 v) h1 = set_hist (hw_hist h ++ (In 0x1f7 <$> vs ++ [v])) h) as E1.
    { by rewrite /note /h1 /set_hist /= fmap_app app_assoc. }
    destruct (Z.eqb_spec (Z.land v 0xC0) 0x40) as [E|E].
    - exists (note (In 0x1f7 v) h1). split_and!; [|by rewrite ata_of_note /= /ata_of /= foldl_app ata_of_polls|done].
      apply loop_done. rewrite bind_inb. cbv zeta. fold v. by rewrite (proj2 (Z.eqb_eq _ _) E).
    - destruct (decide (patience ≤ length vs)%nat) as [Hp|Hp]; [by destruct E; apply ata_ready|].
      destruct (IH (vs ++ [v])) as (h' & Hr & Eh); [rewrite length_app /=; lia|]. exists h'. split; [|done].
      rewrite -Hr -E1. apply loop_S. rewrite bind_inb. cbv zeta. fold v. by rewrite (proj2 (Z.eqb_neq _ _) E). }
  destruct (Hl fuel []) as (h' & Hr & E); [simpl; lia|]. exists h'. split; [|done].
  rewrite -Hr /waitdisk. f_equal. destruct h. by rewrite /set_hist /= app_nil_r.
Qed.

(** The registers name the sector, on drive 0. *)
Lemma boot_registers n x :
  0 ≤ n < 2 ^ 24 →
  let y := Ata (a_disk x) 1 (u8 n) (u8 (Z.shiftr n 8)) (u8 (Z.shiftr n 16)) (u8 (Z.lor (Z.shiftr n 24) 0xE0)) (a_phase x) in
  drive_of y = 0 ∧ sector_of y = n.
Proof.
  intros Hn. rewrite !Z.shiftr_div_pow2 //. rewrite (Z.div_small n (2 ^ 24)) //.
  split; [done|]. rewrite /sector_of /u8. cbn [a_lo a_mid a_hi a_dh].
  change (Z.land (Z.lor 0 224 mod 2 ^ 8) 15) with 0. Z.to_euclidean_division_equations. lia.
Qed.

(** The disk is [D] and the controller idle: the state between two sectors. *)
Definition idle (D : gmap (Z * Z) (list Z)) (h : hwst) : Prop := a_disk (ata_of x0 h) = D ∧ a_phase (ata_of x0 h) = Idle.

Lemma readsect_Ok D dst n h :
  idle D h → 0 ≤ n < 2 ^ 24 →
  ∃ h', readsect fuel dst n h = Ok () h' ∧ idle D h' ∧ hw_mem h' = store (hw_mem h) dst (content D 0 n).
Proof.
  intros [HD Hp] Hn. rewrite /readsect. destruct (waitdisk_Ok h) as (h1 & Hw1 & E1 & M1).
  rewrite (bind_Ok _ _ _ _ _ Hw1) !bind_outb.
  destruct (boot_registers n (ata_of x0 h) Hn) as [Ed En]. cbv zeta in Ed, En. set (y := Ata _ _ _ _ _ _ _) in Ed, En.
  set (h2 := note (Out 0x1F7 _) _). assert (ata_of x0 h2 = set_phase (Reading 0 n) y) as E2.
  { rewrite /h2 !ata_of_note E1. cbn -[u8 Z.shiftr Z.lor drive_of sector_of]. change (u8 32) with 32. change (u8 1) with 1. by rewrite -/y Ed En. }
  assert (hw_mem h2 = hw_mem h) as M2 by by rewrite /h2 /= M1. clearbody h2.
  destruct (waitdisk_Ok h2) as (h3 & Hw3 & E3 & M3). rewrite (bind_Ok _ _ _ _ _ Hw3).
  rewrite /insl bind_assoc bind_gets bind_assoc /record_ bind_modify bind_ret.
  change (Z.to_nat (SECTSIZE / 4)) with 128%nat. rewrite (ata_data h3 0 n); [by rewrite E3 E2|].
  eexists. split; [reflexivity|]. rewrite E3 E2. cbn [a_disk set_phase y]. rewrite HD. split; [|by rewrite /= M3 M2].
  split; rewrite /ata_of /= foldl_app -/(ata_of x0 h3) E3 E2 /=; [exact HD|done].
Qed.

(** ** Reading a piece of the kernel *)

Context (kernel : list Z) (D : gmap (Z * Z) (list Z)).

Definition kbyte (o : Z) : Z := default 0 (kernel !! Z.to_nat o).

(** The file of the kernel is on drive 0 from sector 1 on. *)
Hypothesis kernel_on_disk : ∀ n j, 0 ≤ n → (j < 512)%nat → default 0 (content D 0 (n + 1) !! j) = kbyte (512 * n + Z.of_nat j).
Hypothesis sector_size : ∀ n, length (content D 0 n) = 512%nat.

(** Memory [m'] is [m] with the [len] bytes from [lo] on read from offset [o]. *)
Definition filled (lo len o : Z) (m m' : mem) : Prop :=
  ∀ a, byte m' a = if bool_decide (lo ≤ a < lo + len) then kbyte (o + (a - lo)) else byte m a.

Lemma readseg_loop k : ∀ j epa p n h,
  (k < j)%nat → idle D h → 0 ≤ p → 1 ≤ n → n + Z.of_nat k < 2 ^ 24 → p + 512 * Z.of_nat k < 2 ^ 32 →
  (k = 0%nat ∧ epa ≤ p ∨ p + 512 * Z.of_nat k - 512 < epa ≤ p + 512 * Z.of_nat k ∧ (0 < k)%nat) →
  ∃ h', loop j (readseg_step fuel epa) (p, n) h = Ok () h' ∧ idle D h' ∧
    filled p (512 * Z.of_nat k) (512 * (n - 1)) (hw_mem h) (hw_mem h').
Proof.
  induction k as [|k IH]; intros [|j] epa p n h Hj Hi Hp Hn Hn2 Hp2 Hk; [lia| |lia|].
  - exists h. split_and!; [|done|].
    + apply loop_done. rewrite /readseg_step. by replace (p <? epa) with false by lia.
    + intros a. rewrite bool_decide_eq_false_2 //. lia.
  - destruct (readsect_Ok D p n h Hi) as (h1 & Hr & Hi1 & M1); [lia|].
    destruct (IH j epa (p + 512) (n + 1) h1) as (h2 & Hl & Hi2 & HF); [lia|done|lia..|].
    exists h2. split_and!; [|done|].
    + rewrite (loop_S _ _ _ _ (p + 512, n + 1) h1); [|exact Hl]. rewrite /readseg_step.
      replace (p <? epa) with true by lia. rewrite (bind_Ok _ _ _ _ _ Hr). rewrite !u32_id /SECTSIZE //; lia.
    + intros a. rewrite HF M1 byte_store sector_size. destruct (decide (p ≤ a < p + 512)) as [Ha|Ha].
      * rewrite bool_decide_eq_false_2; [lia|]. rewrite !bool_decide_eq_true_2; [lia..|].
        replace n with (n - 1 + 1) at 1 by lia. rewrite kernel_on_disk; [lia|lia|]. f_equal. lia.
      * rewrite (bool_decide_eq_false_2 (p ≤ a < p + Z.of_nat 512)); [lia|].
        case_bool_decide; case_bool_decide; [f_equal; lia|lia|lia|done].
Qed.

(** The bytes readseg() writes: whole sectors around the ones asked for. *)
Definition seg_lo (pa off : Z) : Z := pa - off mod 512.
Definition seg_len (count off : Z) : Z := 512 * ((count + off mod 512 + 511) / 512).

Lemma readseg_Ok pa count off h :
  idle D h → off mod 512 ≤ pa → 0 ≤ count → 0 ≤ off → off + count < 2 ^ 32 - 1024 → pa + count + 512 < 2 ^ 32 →
  ∃ h', readseg fuel pa count off h = Ok () h' ∧ idle D h' ∧
    filled (seg_lo pa off) (seg_len count off) (off - off mod 512) (hw_mem h) (hw_mem h').
Proof.
  intros Hi Hpa Hc Ho Hoc Hpc. rewrite /readseg /SECTSIZE. pose proof (Z.mod_pos_bound off 512 ltac:(lia)) as Hm.
  rewrite (u32_id (pa + count)); [lia|]. rewrite (u32_id (pa - off mod 512)); [lia|].
  rewrite (u32_id (off / 512 + 1)); [Z.to_euclidean_division_equations; lia|].
  set (r := off mod 512) in *. set (k := Z.to_nat ((count + r + 511) / 512)).
  assert (Z.of_nat k = (count + r + 511) / 512) as Ek by (rewrite /k Z2Nat.id //; apply Z.div_pos; lia).
  destruct (readseg_loop k (S (S (Z.to_nat ((pa + count - (pa - r)) / 512)))) (pa + count) (pa - r) (off / 512 + 1) h)
    as (h' & Hl & Hi' & HF); [Z.to_euclidean_division_equations; lia|done|lia|Z.to_euclidean_division_equations; lia|Z.to_euclidean_division_equations; lia|Z.to_euclidean_division_equations; lia| |].
  { destruct (decide (k = 0%nat)); [left|right]; Z.to_euclidean_division_equations; lia. }
  exists h'. split_and!; [|done|].
  - exact Hl.
  - intros a. rewrite HF /seg_lo /seg_len -/r Ek. replace (512 * (off / 512 + 1 - 1)) with (off - r); [done|].
    rewrite /r. Z.to_euclidean_division_equations. lia.
Qed.

(** ** The segments *)

Definition kword (o : Z) : Z := of_le4 (kbyte o) (kbyte (o + 1)) (kbyte (o + 2)) (kbyte (o + 3)).
Definition kphnum : nat := Z.to_nat (of_le2 (kbyte 44) (kbyte 45)).

Record segment := Seg { sg_off : Z; sg_paddr : Z; sg_filesz : Z; sg_memsz : Z }.

(** Segment [k] as the file describes it. *)
Definition kseg (k : nat) : segment :=
  let ph := kword 28 + 32 * Z.of_nat k in
  Seg (kword (ph + 4)) (kword (ph + 12)) (kword (ph + 16)) (kword (ph + 20)).

(** The memory a segment is to occupy, and the memory that loading it changes: whole
    sectors, and the part that is cleared. *)
Definition sg_end (x : segment) : Z := sg_paddr x + Z.max (sg_filesz x) (sg_memsz x).
Definition sg_lo (x : segment) : Z := seg_lo (sg_paddr x) (sg_off x).
Definition sg_hi (x : segment) : Z := Z.max (sg_lo x + seg_len (sg_filesz x) (sg_off x)) (sg_paddr x + sg_memsz x).

Definition sg_loaded (x : segment) (m : mem) : Prop :=
  (∀ o, 0 ≤ o < sg_filesz x → byte m (sg_paddr x + o) = kbyte (sg_off x + o)) ∧
  (∀ o, sg_filesz x ≤ o < sg_memsz x → byte m (sg_paddr x + o) = 0).

(** Segments that can be loaded one after the other: none reaches into the scratch
    page, or touches one loaded before it. *)
Record segs_ok : Prop := {
  so_phoff : 0 ≤ kword 28 ∧ kword 28 + 32 * Z.of_nat kphnum ≤ 4096;
  so_range k : (k < kphnum)%nat → let x := kseg k in
    0 ≤ sg_off x ∧ 0 ≤ sg_filesz x ∧ 0 ≤ sg_memsz x ∧ sg_off x mod 512 ≤ sg_paddr x ∧
    sg_off x + sg_filesz x < 2 ^ 32 - 1024 ∧ sg_end x + 512 < 2 ^ 32;
  so_scratch k : (k < kphnum)%nat → sg_hi (kseg k) ≤ scratch ∨ scratch + 4096 ≤ sg_lo (kseg k);
  so_apart i k : (i < k < kphnum)%nat → sg_hi (kseg k) ≤ sg_paddr (kseg i) ∨ sg_end (kseg i) ≤ sg_lo (kseg k)
}.

(** The scratch page still holds the start of the file. *)
Definition header_in (m : mem) : Prop := ∀ a, 0 ≤ a < 4096 → byte m (scratch + a) = kbyte a.

Lemma header_load m o : header_in m → 0 ≤ o → o + 4 ≤ 4096 → load32 m (scratch + o) = kword o.
Proof. intros Hm H0 H1. rewrite /load32 /kword -!Z.add_assoc !Hm //; lia. Qed.

Lemma load_segment_Ok k h :
  segs_ok → (k < kphnum)%nat → idle D h → header_in (hw_mem h) →
  ∃ h', load_segment fuel (scratch + kword 28 + 32 * Z.of_nat k) h = Ok () h' ∧ idle D h' ∧
    sg_loaded (kseg k) (hw_mem h') ∧
    ∀ a, ¬ (sg_lo (kseg k) ≤ a < sg_hi (kseg k)) → byte (hw_mem h') a = byte (hw_mem h) a.
Proof.
  intros HS Hk Hi Hh. destruct (so_phoff HS) as [Hp0 Hp1]. pose proof (so_range HS k Hk) as Hx. pose proof (so_scratch HS k Hk) as Hsc.
  cbv zeta in Hx. set (x := kseg k) in *. pose proof (Z.mod_pos_bound (sg_off x) 512 ltac:(lia)) as Hmod. set (ph := kword 28 + 32 * Z.of_nat k).
  assert (∀ m, header_in m → ph_off_at m (scratch + kword 28 + 32 * Z.of_nat k) = sg_off x ∧
    ph_paddr_at m (scratch + kword 28 + 32 * Z.of_nat k) = sg_paddr x ∧
    ph_filesz_at m (scratch + kword 28 + 32 * Z.of_nat k) = sg_filesz x ∧
    ph_memsz_at m (scratch + kword 28 + 32 * Z.of_nat k) = sg_memsz x) as Hf.
  { intros m Hm. rewrite /ph_off_at /ph_paddr_at /ph_filesz_at /ph_memsz_at.
    replace (scratch + kword 28 + 32 * Z.of_nat k) with (scratch + ph) by lia.
    split_and!; (rewrite -Z.add_assoc header_load; [done|lia|lia|done]). }
  destruct (Hf _ Hh) as (E1 & E2 & E3 & E4). rewrite /load_segment bind_gets E1 E2 E3.
  destruct (readseg_Ok (sg_paddr x) (sg_filesz x) (sg_off x) h) as (h1 & Hr & Hi1 & HF); [done|lia|lia|lia|lia|rewrite /sg_end in Hx; lia|].
  rewrite (bind_Ok _ _ _ _ _ Hr) bind_gets.
  assert (header_in (hw_mem h1)) as Hh1.
  { intros a Ha. rewrite HF bool_decide_eq_false_2; [|by apply Hh]. rewrite /sg_hi /sg_lo in Hsc. lia. }
  destruct (Hf _ Hh1) as (_ & _ & F3 & F4). rewrite F3 F4.
  set (m1 := hw_mem h1) in *. set (n := Z.to_nat (sg_memsz x - sg_filesz x)).
  set (m2 := if sg_memsz x >? sg_filesz x then stosb m1 (sg_paddr x + sg_filesz x) 0 n else m1).
  exists (set_hwmem m2 h1). split_and!.
  - rewrite /m2. rewrite u32_id; [rewrite /sg_end in Hx; lia|]. destruct (sg_memsz x >? sg_filesz x); [done|]. by destruct h1.
  - done.
  - assert (∀ o, 0 ≤ o < sg_filesz x → byte m1 (sg_paddr x + o) = kbyte (sg_off x + o)) as Hm1.
    { intros o Ho. rewrite HF bool_decide_eq_true_2; [rewrite /seg_lo /seg_len; Z.to_euclidean_division_equations; lia|].
      f_equal. rewrite /seg_lo. lia. }
    split; intros o Ho; cbn [hw_mem set_hwmem]; rewrite /m2; destruct (Z.gtb_spec (sg_memsz x) (sg_filesz x)); try lia.
    + rewrite byte_stosb bool_decide_eq_false_2; [lia|]. by apply Hm1.
    + by apply Hm1.
    + rewrite byte_stosb bool_decide_eq_true_2 //. lia.
  - intros a Ha. cbn [hw_mem set_hwmem]. rewrite /m2 /sg_hi /sg_lo in Ha |- *.
    assert (byte m1 a = byte (hw_mem h) a) as Hm1 by (rewrite HF bool_decide_eq_false_2 //; lia).
    destruct (Z.gtb_spec (sg_memsz x) (sg_filesz x)); [|done]. rewrite byte_stosb bool_decide_eq_false_2 //.
    rewrite /seg_lo in Ha. lia.
Qed.

Lemma load_segments_Ok n h :
  segs_ok → (n ≤ kphnum)%nat → idle D h → header_in (hw_mem h) →
  ∃ h', for_each (seq 0 n) (λ k, load_segment fuel (scratch + kword 28 + sizeof_proghdr * Z.of_nat k)) h = Ok () h' ∧
    idle D h' ∧ header_in (hw_mem h') ∧ (∀ k, (k < n)%nat → sg_loaded (kseg k) (hw_mem h')) ∧
    ∀ a, (∀ k, (k < n)%nat → ¬ (sg_lo (kseg k) ≤ a < sg_hi (kseg k))) → byte (hw_mem h') a = byte (hw_mem h) a.
Proof.
  intros HS Hn Hi Hh. induction n as [|n IH]; [exists h; split_and!; [done..|lia|done]|].
  destruct IH as (h1 & Hr1 & Hi1 & Hh1 & Hl1 & Hf1); [lia|]. destruct (load_segment_Ok n h1 HS) as (h2 & Hr2 & Hi2 & Hl2 & Hout); [lia|done|done|].
  exists h2. split_and!; [|done| | |].
  - rewrite seq_S (for_each_app _ _ _ _ _ Hr1). cbn [for_each Nat.add]. change sizeof_proghdr with 32. by rewrite (bind_Ok _ _ _ _ _ Hr2).
  - intros a Ha. rewrite Hout; [|by apply Hh1]. pose proof (so_scratch HS n Hn). lia.
  - intros k Hk. destruct (decide (k = n)) as [->|Hne]; [done|]. destruct (Hl1 k) as [H1 H2]; [lia|].
    pose proof (so_apart HS k n ltac:(lia)) as Hap. rewrite /sg_end in Hap.
    split; intros o Ho; (rewrite Hout; [|auto]).
    + lia.
    + pose proof (so_range HS k ltac:(lia)) as (? & ? & ? & _). lia.
  - intros a Ha. rewrite Hout; [apply Ha; lia|]. apply Hf1. intros k Hk. apply Ha. lia.
Qed.


End controller.

(** ** A kernel of one segment *)

Definition tiny_kernel : list Z :=
  set32 0 ELF_MAGIC (set32 24 0x10000c (set32 28 52 (set16 44 1
    (set32 56 100 (set32 64 0x100064 (set32 68 8 (set32 72 20 (set_bytes 100 [1; 2; 3; 4; 5; 6; 7; 8] (replicate 512 0))))))))).

Definition tiny_ata : ata := Ata {[(0, 1) := tiny_kernel]} 0 0 0 0 0 Idle.

#[local] Instance tiny_ide : Devices := {
  port_in _ _ := 0x40;
  port_ins h _ n :=
    let x := foldl ata_access tiny_ata h in
    match a_phase x with Reading d s => content (a_disk x) d s | _ => replicate (4 * n) 0 end;
  reg_load _ _ := 0
}.

Lemma tiny_segs : segs_ok tiny_kernel.
Proof.
  assert (kphnum tiny_kernel = 1%nat) as E1 by by vm_compute.
  assert (kseg tiny_kernel 0 = Seg 100 0x100064 8 20) as E2 by by vm_compute.
  assert (kword tiny_kernel 28 = 52) as E3 by by vm_compute. split; rewrite ?E1 ?E3.
  - lia.
  - intros k Hk. assert (k = 0%nat) as -> by lia. rewrite E2 /sg_end. cbn [sg_off sg_paddr sg_filesz sg_memsz].
    change (100 mod 512) with 100. lia.
  - intros k Hk. assert (k = 0%nat) as -> by lia. rewrite E2. right. by vm_compute.
  - lia.
Qed.

