(* ===== verification/Sysfile.v ===== *)
(** * File-system system calls: sysfile.c

    Each handler fetches and checks its arguments and works on the file table
    and the file system inside a transaction. Results are the [int] stored in
    the caller's eax. *)

From S2P Require Import Prelude Param Bytes String State Spinlock Sched Sleeplock Bio Log Kalloc Vm Fs Console Pipe File Proc Sysarg Exec.

(** argfd(n, &fd, &f) *)
Definition argfd (n : Z) : K (option (nat * nat)) :=
  o ← argint n;
  match o with
  | None => mret None
  | Some fd =>
      p ← curproc;
      if (fd <? 0) || (fd >=? Z.of_nat NOFILE) then mret None else
      match p_ofile p !! Z.to_nat fd with
      | Some (Some f) => mret (Some (Z.to_nat fd, f))
      | _ => mret None
      end
  end.

Definition set_fd (fd : nat) (o : option nat) : K unit :=
  i ← cur;
  updproc i (λ p, set_ofile (<[fd := o]> (p_ofile p)) p).

Definition fdalloc (f : nat) : K Z :=
  r ← scan (seq 0 NOFILE) (λ fd,
    p ← curproc;
    match p_ofile p !! fd with
    | Some None => set_fd fd (Some f);; mret (Some (Z.of_nat fd))
    | _ => mret None
    end);
  mret (default (-1) r).

Definition set_nlink (v : Z) (x : inode) : inode :=
  Inode (i_dev x) (i_inum x) (i_ref x) (i_flags x) (i_type x) (i_major x) (i_minor x) (s16 v) (i_size x) (i_addrs x).
Definition set_dev_nos (major minor : Z) (x : inode) : inode :=
  Inode (i_dev x) (i_inum x) (i_ref x) (i_flags x) (i_type x) (s16 major) (s16 minor) (i_nlink x) (i_size x) (i_addrs x).

Section sysfile.
Context `{IdeDriver, Devsw} (end_ data_ : Z).

Definition sys_dup : K Z :=
  a ← argfd 0;
  match a with
  | None => mret (-1)
  | Some (_, f) =>
      fd ← fdalloc f;
      if fd <? 0 then mret (-1) else
      _ ← filedup f;
      mret fd
  end.

Definition sys_read : K Z :=
  a ← argfd 0;
  match a with
  | None => mret (-1)
  | Some (_, f) =>
      n ← argint 2;
      match n with
      | None => mret (-1)
      | Some n =>
          p ← argptr 1 n;
          match p with
          | None => mret (-1)
          | Some p => fileread f p n
          end
      end
  end.

Definition sys_write : K Z :=
  a ← argfd 0;
  match a with
  | None => mret (-1)
  | Some (_, f) =>
      n ← argint 2;
      match n with
      | None => mret (-1)
      | Some n =>
          p ← argptr 1 n;
          match p with
          | None => mret (-1)
          | Some p => filewrite f p n
          end
      end
  end.

Definition sys_close : K Z :=
  a ← argfd 0;
  match a with
  | None => mret (-1)
  | Some (fd, f) =>
      set_fd fd None;;
      fileclose end_ f;;
      mret 0
  end.

Definition sys_fstat : K Z :=
  a ← argfd 0;
  match a with
  | None => mret (-1)
  | Some (_, f) =>
      st ← argptr 1 sizeof_stat;
      match st with
      | None => mret (-1)
      | Some st => filestat f st
      end
  end.

(** The label [bad] of sys_link(). *)
Definition sys_link_bad (ip : nat) : K Z :=
  ilock (Some ip);;
  updino ip (λ x, set_nlink (i_nlink x - 1) x);;
  iupdate ip;;
  iunlockput ip;;
  end_op;;
  mret (-1).

Definition sys_link : K Z :=
  o ← argstr 0;
  n ← (match o with Some _ => argstr 1 | None => mret None end);
  match o, n with
  | Some old, Some new =>
      begin_op;;
      o ← namei old;
      match o with
      | None => end_op;; mret (-1)
      | Some ip =>
          ilock (Some ip);;
          x ← getino ip;
          if i_type x =? T_DIR then
            iunlockput ip;;
            end_op;;
            mret (-1)
          else
          updino ip (λ x, set_nlink (i_nlink x + 1) x);;
          iupdate ip;;
          iunlock (Some ip);;
          d ← nameiparent new;
          match d with
          | None => sys_link_bad ip
          | Some (dp, name) =>
              ilock (Some dp);;
              y ← getino dp;
              x ← getino ip;
              r ← (if negb (i_dev y =? i_dev x) then mret (-1) else dirlink dp name (i_inum x));
              if r <? 0 then
                iunlockput dp;;
                sys_link_bad ip
              else
              iunlockput dp;;
              iput ip;;
              end_op;;
              mret 0
          end
      end
  | _, _ => mret (-1)
  end.

(** The entries after "." and "..". *)
Definition isdirempty (dp : nat) : K bool :=
  x ← getino dp;
  r ← scan (drop 2 (dirent_offs (i_size x))) (λ off,
    '(r, bs) ← readi put_local dp [] off sizeof_dirent;
    if negb (r =? sizeof_dirent) then panic "isdirempty: readi" else
    mret (if de_inum (dirent_of bs) =? 0 then None else Some tt));
  mret (match r with None => true | Some _ => false end).

(** The label [bad] of sys_unlink(). *)
Definition sys_unlink_bad (dp : nat) : K Z :=
  iunlockput dp;;
  end_op;;
  mret (-1).

Definition sys_unlink : K Z :=
  o ← argstr 0;
  match o with
  | None => mret (-1)
  | Some path =>
      begin_op;;
      d ← nameiparent path;
      match d with
      | None => end_op;; mret (-1)
      | Some (dp, name) =>
          ilock (Some dp);;
          if (namecmp name (chars ".") =? 0) || (namecmp name (chars "..") =? 0) then sys_unlink_bad dp else
          r ← dirlookup dp name;
          match r with
          | None => sys_unlink_bad dp
          | Some (ip, off) =>
              ilock (Some ip);;
              x ← getino ip;
              if i_nlink x <? 1 then panic "unlink: nlink < 1" else
              e ← (if i_type x =? T_DIR then isdirempty ip else mret true);
              if negb e then
                iunlockput ip;;
                sys_unlink_bad dp
              else
              w ← writei (src_local (replicate (Z.to_nat sizeof_dirent) 0)) dp off sizeof_dirent;
              if negb (w =? sizeof_dirent) then panic "unlink: writei" else
              when (i_type x =? T_DIR)
                (updino dp (λ y, set_nlink (i_nlink y - 1) y);;
                 iupdate dp);;
              iunlockput dp;;
              updino ip (λ x, set_nlink (i_nlink x - 1) x);;
              iupdate ip;;
              iunlockput ip;;
              end_op;;
              mret 0
          end
      end
  end.

Definition create (path : list Z) (type major minor : Z) : K (option nat) :=
  d ← nameiparent path;
  match d with
  | None => mret None
  | Some (dp, name) =>
      ilock (Some dp);;
      r ← dirlookup dp name;
      match r with
      | Some (ip, _) =>
          iunlockput dp;;
          ilock (Some ip);;
          x ← getino ip;
          if (type =? T_FILE) && (i_type x =? T_FILE) then mret (Some ip) else
          iunlockput ip;;
          mret None
      | None =>
          y ← getino dp;
          ip ← ialloc (i_dev y) type;
          ilock (Some ip);;
          updino ip (λ x, set_nlink 1 (set_dev_nos major minor x));;
          iupdate ip;;
          when (type =? T_DIR)
            (updino dp (λ y, set_nlink (i_nlink y + 1) y);;
             iupdate dp;;
             x ← getino ip;
             r1 ← dirlink ip (chars ".") (i_inum x);
             y ← getino dp;
             r2 ← (if r1 <? 0 then mret (-1) else dirlink ip (chars "..") (i_inum y));
             if r2 <? 0 then panic "create dots" else mret tt);;
          x ← getino ip;
          r ← dirlink dp name (i_inum x);
          if r <? 0 then panic "create: dirlink" else
          iunlockput dp;;
          mret (Some ip)
      end
  end.

(** [create], or [namei] and the check that a directory is only read; [None]
    after end_op() is the result -1. *)
Definition sys_open_inode (path : list Z) (omode : Z) : K (option nat) :=
  if negb (Z.land omode O_CREATE =? 0) then
    o ← create path T_FILE 0 0;
    match o with
    | None => end_op;; mret None
    | Some ip => mret (Some ip)
    end
  else
    o ← namei path;
    match o with
    | None => end_op;; mret None
    | Some ip =>
        ilock (Some ip);;
        x ← getino ip;
        if (i_type x =? T_DIR) && negb (omode =? O_RDONLY) then
          iunlockput ip;;
          end_op;;
          mret None
        else mret (Some ip)
    end.

(** The fields sys_open() gives the file. *)
Definition opened (ip : nat) (omode : Z) (x : file) : file :=
  File FD_INODE (f_ref x) (Z.land omode O_WRONLY =? 0)
       (negb (Z.land omode O_WRONLY =? 0) || negb (Z.land omode O_RDWR =? 0))
       (f_pipe x) (Some ip) 0.

Definition sys_open : K Z :=
  o ← argstr 0;
  m ← (match o with Some _ => argint 1 | None => mret None end);
  match o, m with
  | Some path, Some omode =>
      begin_op;;
      o ← sys_open_inode path omode;
      match o with
      | None => mret (-1)
      | Some ip =>
          f ← filealloc;
          fd ← (match f with Some f => fdalloc f | None => mret (-1) end);
          if fd <? 0 then
            (match f with Some f => fileclose end_ f | None => mret tt end);;
            iunlockput ip;;
            end_op;;
            mret (-1)
          else
          iunlock (Some ip);;
          end_op;;
          (match f with Some f => updfile f (opened ip omode) | None => mret tt end);;
          mret fd
      end
  | _, _ => mret (-1)
  end.

(** The tail sys_mkdir() and sys_mknod() share. *)
Definition finish_create (o : option nat) : K Z :=
  match o with
  | None => end_op;; mret (-1)
  | Some ip =>
      iunlockput ip;;
      end_op;;
      mret 0
  end.

Definition sys_mkdir : K Z :=
  begin_op;;
  o ← argstr 0;
  r ← (match o with Some path => create path T_DIR 0 0 | None => mret None end);
  finish_create r.

Definition sys_mknod : K Z :=
  begin_op;;
  o ← argstr 0;
  major ← (match o with Some _ => argint 1 | None => mret None end);
  minor ← (match major with Some _ => argint 2 | None => mret None end);
  r ← (match o, major, minor with
       | Some path, Some ma, Some mi => create path T_DEV (s16 ma) (s16 mi)
       | _, _, _ => mret None
       end);
  finish_create r.

Definition sys_chdir : K Z :=
  begin_op;;
  o ← argstr 0;
  r ← (match o with Some path => namei path | None => mret None end);
  match r with
  | None => end_op;; mret (-1)
  | Some ip =>
      ilock (Some ip);;
      x ← getino ip;
      if negb (i_type x =? T_DIR) then
        iunlockput ip;;
        end_op;;
        mret (-1)
      else
      iunlock (Some ip);;
      i ← cur;
      p ← getproc i;
      (match p_cwd p with Some c => iput c | None => fault 0 end);;
      end_op;;
      updproc i (set_cwd (Some ip));;
      mret 0
  end.

(** The loop of sys_exec(): the argument pointers, or [None] for -1. *)
Fixpoint fetch_argv (uargv : Z) (n : nat) (i : Z) : K (option (list Z)) :=
  match n with
  | O => mret None
  | S n' =>
      o ← fetchint (u32 (uargv + 4 * i));
      match o with
      | None => mret None
      | Some uarg =>
          if uarg =? 0 then mret (Some []) else
          s ← fetchstr (u32 uarg);
          match s with
          | None => mret None
          | Some _ => r ← fetch_argv uargv n' (i + 1); mret (cons (u32 uarg) <$> r)
          end
      end
  end.

Definition sys_exec (exec : list Z → list Z → K Z) : K Z :=
  o ← argstr 0;
  a ← (match o with Some _ => argint 1 | None => mret None end);
  match o, a with
  | Some path, Some uargv =>
      r ← fetch_argv (u32 uargv) MAXARG 0;
      match r with
      | None => mret (-1)
      | Some argv => exec path argv
      end
  | _, _ => mret (-1)
  end.

Definition sys_pipe : K Z :=
  o ← argptr 0 8;
  match o with
  | None => mret (-1)
  | Some fd =>
      r ← pipealloc end_;
      match r with
      | None => mret (-1)
      | Some (rf, wf) =>
          fd0 ← fdalloc rf;
          fd1 ← (if fd0 <? 0 then mret (-1) else fdalloc wf);
          if fd1 <? 0 then
            when (fd0 >=? 0) (set_fd (Z.to_nat fd0) None);;
            fileclose end_ rf;;
            fileclose end_ wf;;
            mret (-1)
          else
          vstore32 fd fd0;;
          vstore32 (u32 (fd + 4)) fd1;;
          mret 0
      end
  end.

End sysfile.
