(* ===== verification/Sysproc.v ===== *)
(** * Process and signal system calls: sysproc.c, and sys_alarm() of trap.c *)

From S2P Require Import Prelude Param Bytes State Spinlock Sched Sleeplock Bio Log Kalloc Vm Fs Console Pipe File Proc Sysarg.

Section sysproc.
Context `{IdeDriver, Devsw} (end_ data_ : Z).

Definition sys_fork : K Z := fork end_ data_.

Definition sys_exit : K Z := exit end_.

Definition sys_wait : K Z := wait end_.

Definition sys_kill : K Z :=
  o ← argint 0;
  match o with
  | None => mret (-1)
  | Some pid => kill pid
  end.

Definition sys_getpid : K Z :=
  p ← curproc;
  mret (p_pid p).

Definition sys_sbrk : K Z :=
  o ← argint 0;
  match o with
  | None => mret (-1)
  | Some n =>
      p ← curproc;
      r ← growproc end_ n;
      mret (if r <? 0 then -1 else s32 (p_sz p))
  end.

(** The loop of sys_sleep(), which compares unsigned numbers. *)
Definition sys_sleep_body (n ticks0 : Z) : K Z :=
  t ← gets k_ticks;
  if u32 (t - ticks0) <? u32 n then
    k ← proc_killed;
    if k then
      release LkTicks;;
      mret (-1)
    else sleep ChTicks LkTicks
  else
    release LkTicks;;
    mret 0.

Definition sys_sleep : K Z :=
  o ← argint 0;
  match o with
  | None => mret (-1)
  | Some n =>
      acquire LkTicks;;
      ticks0 ← gets k_ticks;
      sys_sleep_body n ticks0
  end.

Definition sys_sleep_resume (n ticks0 : Z) (ie : bool) : K Z :=
  sleep_resume LkTicks ie;;
  sys_sleep_body n ticks0.

Definition sys_uptime : K Z :=
  acquire LkTicks;;
  xticks ← gets k_ticks;
  release LkTicks;;
  mret (s32 xticks).

Definition sys_signal : K Z :=
  p ← curproc;
  cprintf (chars "sysproc.c : sys_signal nom  for process %d " ++ [newline]) [AInt (p_pid p)];;
  o ← argint 0;
  match o with
  | None => mret (-1)
  | Some sig_Num =>
      h ← argint 1;
      match h with
      | None => mret (-1)
      | Some handler =>
          r ← signal sig_Num (u32 handler);
          mret (s32 r)
      end
  end.

(** The third test of sys_sigsend() compares the result of argint(), which is
    never above [NUMSIG]. *)
Definition sys_sigsend : K Z :=
  p ← curproc;
  cprintf (chars "sysproc.c : sys_sigsend nom.  for process %d " ++ [newline]) [AInt (p_pid p)];;
  o ← argint 0;
  match o with
  | None => mret (-1)
  | Some pid =>
      n ← argint 1;
      match n with
      | None => mret (-1)
      | Some _ =>
          n ← argint 1;
          match n with
          | None => mret (-1)
          | Some sig_Num => sigsend pid sig_Num
          end
      end
  end.

Definition sys_sigreturn (beyond : nat → kstate → list Z) : K Z :=
  p ← curproc;
  cprintf (chars "sysproc.c : sys_sigreturn for process %d " ++ [newline]) [AInt (p_pid p)];;
  sigreturn beyond.

Definition sys_alarm : K unit :=
  _ ← argint 0;
  o ← argint 0;
  match o with
  | None => mret tt
  | Some ticksNum =>
      i ← cur;
      updproc i (set_alarm_ticks_num ticksNum)
  end.

End sysproc.
