(* ===== verification/Trap.v ===== *)
(** * Traps and system call dispatch: trap.c, trapasm.S, syscall() of syscall.c

    [alltraps tf] is a trap with the frame [tf] the hardware and the entry code
    pushed, up to the return to the interrupted code, which resumes with the
    frame that [p_tf] then holds. *)

From S2P Require Import Prelude Param Bytes String State Spinlock Sched Sleeplock Bio Log Kalloc Vm Fs Console Pipe File Proc Sysarg Exec Sysfile Sysproc.

(** ** Delivery of signals *)

Definition defaultSigHandler (sigNum : Z) : K unit :=
  p ← curproc;
  cprintf (chars "A signal number %d was accepted by process %d") [AInt sigNum; AInt (p_pid p)].

Definition clear_pending (sigIdx : nat) (p : proc) : proc := set_pending (<[sigIdx := 0]> (p_pending p)) p.

(** [proc->tf->esp -= 4; *((uint* ) proc->tf->esp) = v] *)
Definition push_user (v : Z) : K unit :=
  i ← cur;
  updproc i (λ p, set_tf (set_eip_esp (tf_eip (p_tf p)) (u32 (tf_esp (p_tf p) - 4)) (p_tf p)) p);;
  p ← getproc i;
  vstore32 (tf_esp (p_tf p)) v.

Definition pushHandlingSig (sigIdx : nat) : K unit :=
  i ← cur;
  updproc i (clear_pending sigIdx);;
  p ← getproc i;
  push_user (tf_eip (p_tf p));;
  push_user (Z.of_nat sigIdx);;
  push_user (p_sigretAdd p);;
  p ← getproc i;
  updproc i (set_tf (set_eip_esp (default 0 (p_sighandlers p !! sigIdx)) (tf_esp (p_tf p)) (p_tf p))).

(** One turn of the loop of handling_signal(). *)
Definition handling_one (sigIdx : nat) : K unit :=
  i ← cur;
  p ← getproc i;
  when (default 0 (p_pending p !! sigIdx) =? 1)
    (updproc i (clear_pending sigIdx);;
     if default 0 (p_sighandlers p !! sigIdx) =? defualtHandlerAdd then
       defaultSigHandler (Z.of_nat sigIdx);;
       updproc i (clear_pending sigIdx)
     else pushHandlingSig sigIdx).

Definition handling_signal : K unit :=
  o ← gets k_proc;
  match o with
  | None => mret tt
  | Some _ => for_each (seq 0 NUMSIG) handling_one
  end.

Section trap.
Context `{IdeDriver, Devsw} (end_ data_ : Z).
Context (exec : list Z → list Z → K Z).
Context (beyond : nat → kstate → list Z).

(** ** System calls *)

(** [syscalls[num]]; sys_alarm() returns no value, so eax gets what the call
    leaves in it, [garbage]. *)
Definition syscalls (garbage : Z) (num : Z) : option (K Z) :=
  match num with
  | 1 => Some (sys_fork end_ data_)
  | 2 => Some (sys_exit end_)
  | 3 => Some (sys_wait end_)
  | 4 => Some (sys_pipe end_)
  | 5 => Some sys_read
  | 6 => Some sys_kill
  | 7 => Some (sys_exec exec)
  | 8 => Some sys_fstat
  | 9 => Some sys_chdir
  | 10 => Some sys_dup
  | 11 => Some sys_getpid
  | 12 => Some (sys_sbrk end_)
  | 13 => Some sys_sleep
  | 14 => Some sys_uptime
  | 15 => Some (sys_open end_)
  | 16 => Some sys_write
  | 17 => Some sys_mknod
  | 18 => Some sys_unlink
  | 19 => Some sys_link
  | 20 => Some sys_mkdir
  | 21 => Some (sys_close end_)
  | 22 => Some sys_signal
  | 23 => Some sys_sigsend
  | 24 => Some (sys_sigreturn beyond)
  | 25 => Some (sys_alarm;; mret garbage)
  | _ => None
  end.

Definition set_result (v : Z) : K unit :=
  i ← cur;
  updproc i (λ p, set_tf (set_eax (u32 v) (p_tf p)) p).

Definition syscall (garbage : Z) : K unit :=
  p ← curproc;
  let num := s32 (tf_eax (p_tf p)) in
  match syscalls garbage num with
  | Some f => v ← f; set_result v
  | None =>
      cprintf (chars "%d %s: unknown sys call %d" ++ [newline])
        [AInt (p_pid p); AStr (Some (p_name p)); AInt num];;
      set_result (-1)
  end.

(** ** trap *)

(** The interrupt handlers of the disk, the keyboard and the serial port. *)
Context (ideintr kbdintr uartintr : K unit).

Definition user_mode (tf : trapframe) : bool := Z.land (tf_cs tf) 3 =? DPL_USER.

(** [if(proc && proc->killed && from user space) exit();] *)
Definition exit_if_killed (tf : trapframe) : K unit :=
  o ← gets k_proc;
  match o with
  | None => mret tt
  | Some i =>
      p ← getproc i;
      when (p_killed p && user_mode tf) (exit end_)
  end.

Definition timer_interrupt : K unit :=
  c ← gets k_cpu;
  when (bool_decide (cpu_id c = 0%nat))
    (acquire LkTicks;;
     modify (λ s, set_ticks (u32 (k_ticks s + 1)) s);;
     wakeup ChTicks;;
     release LkTicks;;
     Alarm).

(** The default case of the switch; [cr2] is the faulting address. *)
Definition unexpected (tf : trapframe) (cr2 : Z) : K unit :=
  o ← gets k_proc;
  c ← gets k_cpu;
  match o with
  | Some i =>
      if Z.land (tf_cs tf) 3 =? 0 then panic "trap" else
      p ← getproc i;
      cprintf (chars "pid %d %s: trap %d err %d on cpu %d eip 0x%x addr 0x%x--kill proc" ++ [newline])
        [AInt (p_pid p); AStr (Some (p_name p)); AInt (tf_trapno tf); AInt (tf_err tf);
         AInt (Z.of_nat (cpu_id c)); AInt (tf_eip tf); AInt cr2];;
      updproc i (set_killed true)
  | None => panic "trap"
  end.

Definition interrupt (tf : trapframe) (cr2 : Z) : K unit :=
  let n := tf_trapno tf in
  if n =? T_IRQ0 + IRQ_TIMER then timer_interrupt
  else if n =? T_IRQ0 + IRQ_IDE then ideintr
  else if n =? T_IRQ0 + IRQ_IDE + 1 then mret tt
  else if n =? T_IRQ0 + IRQ_KBD then kbdintr
  else if n =? T_IRQ0 + IRQ_COM1 then uartintr
  else if (n =? T_IRQ0 + 7) || (n =? T_IRQ0 + IRQ_SPURIOUS) then
    c ← gets k_cpu;
    cprintf (chars "cpu%d: spurious interrupt at %x:%x" ++ [newline])
      [AInt (Z.of_nat (cpu_id c)); AInt (tf_cs tf); AInt (tf_eip tf)]
  else unexpected tf cr2.

Definition trap (garbage cr2 : Z) (tf : trapframe) : K unit :=
  if tf_trapno tf =? T_SYSCALL then
    i ← cur;
    p ← getproc i;
    when (p_killed p) (exit end_);;
    updproc i (set_tf tf);;
    syscall garbage;;
    p ← getproc i;
    when (p_killed p) (exit end_)
  else
    interrupt tf cr2;;
    exit_if_killed tf;;
    o ← gets k_proc;
    (match o with
     | None => mret tt
     | Some i =>
         p ← getproc i;
         when (bool_decide (p_state p = RUNNING) && (tf_trapno tf =? T_IRQ0 + IRQ_TIMER)) yield
     end);;
    exit_if_killed tf.

(** Scheduled again after the yield(). *)
Definition trap_resume (ie : bool) (tf : trapframe) : K unit :=
  yield_resume ie;;
  exit_if_killed tf.

(** alltraps and trapret. A trap from user mode has its frame at the top of the
    kernel stack, where [proc->tf] points. *)
Definition alltraps (garbage cr2 : Z) (tf : trapframe) : K unit :=
  o ← gets k_proc;
  (match o with
   | Some i => when (user_mode tf) (updproc i (set_tf tf))
   | None => mret tt
   end);;
  trap garbage cr2 tf;;
  handling_signal.

End trap.

(** Interrupt descriptors: tvinit() gives every vector an interrupt gate of the
    kernel's code segment, and the system call vector a trap gate user code may
    use. *)
Record gatedesc := Gate { gate_istrap : bool; gate_sel : Z; gate_off : Z; gate_dpl : Z }.

Definition tvinit (vectors : nat → Z) : K (list gatedesc) :=
  let idt := (λ i, Gate false (Z.shiftl SEG_KCODE 3) (vectors i) 0) <$> seq 0 256 in
  let idt := <[Z.to_nat T_SYSCALL := Gate true (Z.shiftl SEG_KCODE 3) (vectors (Z.to_nat T_SYSCALL)) DPL_USER]> idt in
  initlock LkTicks;;
  mret idt.
