(* ===== verification/Trapasm.v ===== *)
(** * Entering and leaving the kernel: vectors.S, trapasm.S and the gates

    What happens between a trap and the call of trap(): the processor's switch to the
    kernel stack, the entry points vectors.pl generates, and alltraps; and what
    trapret does with the frame. The frame in memory is struct trapframe, so that the
    theorems connect the processor's registers with the record the rest of the
    development uses. *)

From S2P Require Import Prelude Param Bytes String State Spinlock Sched Sleeplock Bio Log Fs Kalloc Vm Pipe File Proc Sysarg Trap Segs Asm.

(** ** Gates (mmu.h) *)

Definition STS_IG32 : Z := 0xE.
Definition STS_TG32 : Z := 0xF.

Record gatebits := Gatebits {
  off_15_0 : Z; gb_cs : Z; gb_args : Z; gb_rsv1 : Z; gb_type : Z; gb_s : Z; gb_dpl : Z; gb_p : Z; off_31_16 : Z
}.

(** Each field keeps as many bits as it has. *)
Definition SETGATE (istrap : bool) (sel off d : Z) : gatebits :=
  Gatebits (Z.land (u32 off) 0xffff) (sel mod 2 ^ 16) 0 0 (if istrap then STS_TG32 else STS_IG32) 0 (d mod 2 ^ 2) 1
           (Z.shiftr (u32 off) 16).

(** The gate as the processor reads it. *)
Definition gate_of (b : gatebits) : gatedesc :=
  Gate (gb_type b =? STS_TG32) (gb_cs b) (off_15_0 b + off_31_16 b * 2 ^ 16) (gb_dpl b).

Lemma gate_of_SETGATE istrap sel off d :
  0 ≤ sel < 2 ^ 16 → 0 ≤ off < 2 ^ 32 → 0 ≤ d < 4 → gate_of (SETGATE istrap sel off d) = Gate istrap sel off d.
Proof.
  intros Hs Ho Hd. rewrite /gate_of /SETGATE. cbn [off_15_0 gb_cs gb_type gb_dpl off_31_16]. rewrite u32_id //.
  change 0xffff with (Z.ones 16). rewrite Z.land_ones // Z.shiftr_div_pow2 // (Z.mod_small sel) // (Z.mod_small d) //.
  f_equal; [by destruct istrap|]. Z.to_euclidean_division_equations. lia.
Qed.

Definition sizeof_gatedesc : Z := 8.
Definition idtinit (idt : Z) : list Z := pseudo_desc idt (256 * sizeof_gatedesc).

(** ** The processor *)

(** The flags a gate clears: TF, NT, RF and VM, and IF unless it is a trap gate. *)
Definition gate_flags (istrap : bool) (fl : Z) : Z := Z.ldiff fl (if istrap then 0x34100 else 0x34300).

(** The code of the gate, with flags [fl] before. *)
Definition enter_gate (g : gatedesc) (fl : Z) (m : mach) : mach :=
  set_eip (gate_off g) (set_eflags (gate_flags (gate_istrap g) fl) (sets CS (gate_sel g) m)).

(** A trap through gate [g], whose code is the kernel's. Code that is not the
    kernel's goes on with the stack of the task state segment, and the old one is
    saved; some traps have an error code. *)
Definition interrupt (esp0 ss0 : Z) (g : gatedesc) (err : option Z) (m : mach) : mach :=
  let m1 := if cpl m =? 0 then m else push (r_esp m) (push (s_ss m) (setr ESP esp0 (sets SS ss0 m))) in
  let m2 := push (eip m) (push (s_cs m) (push (eflags m) m1)) in
  let m3 := match err with Some e => push e m2 | None => m2 end in
  enter_gate g (eflags m) m3.

(** The instruction [int n], which needs the privilege of the gate. *)
Definition int_ (esp0 ss0 : Z) (idt : list gatedesc) (n : Z) (m : mach) : option mach :=
  g ← idt !! Z.to_nat n;
  if cpl m <=? gate_dpl g then Some (interrupt esp0 ss0 g None m) else None.

(** ** vectors.pl *)

(** The traps for which the processor pushes an error code. *)
Definition has_err (i : Z) : bool := (i =? 8) || ((10 <=? i) && (i <=? 14)) || (i =? 17).

Definition vector (i : Z) : list instr := (if has_err i then [] else [PushlI 0]) ++ [PushlI i].

(** ** trapasm.S *)

Definition alltraps_entry : list instr :=
  [PushlS DS; PushlS ES; PushlS FS; PushlS GS; Pushal;
   MovwI (Z.shiftl SEG_KDATA 3) EAX; MovwS EAX DS; MovwS EAX ES;
   MovwI (Z.shiftl SEG_KCPU 3) EAX; MovwS EAX FS; MovwS EAX GS;
   Pushl ESP].
Definition alltraps_code : list instr := alltraps_entry ++ [Call "trap"; AddlI 4 ESP].

Definition trapret_signal : list instr := [Pushl ESP; Call "handling_signal"; AddlI 4 ESP].
Definition trapret_exit : list instr := [Popal; PoplS GS; PoplS FS; PoplS ES; PoplS DS; AddlI 8 ESP; Iret].
Definition trapret_code : list instr := trapret_signal ++ trapret_exit.

(** ** The frame *)

(** struct trapframe at address [a]. *)
Definition frame_at (me : mem) (a : Z) : trapframe :=
  Trapframe (word me a 0) (word me a 1) (word me a 2) (word me a 3) (word me a 4) (word me a 5) (word me a 6) (word me a 7)
    (word me a 8 mod 2 ^ 16) (word me a 9 mod 2 ^ 16) (word me a 10 mod 2 ^ 16) (word me a 11 mod 2 ^ 16)
    (word me a 12) (word me a 13) (word me a 14) (word me a 15 mod 2 ^ 16) (word me a 16) (word me a 17) (word me a 18 mod 2 ^ 16).

(** The frame that holds the registers of [m]. *)
Definition frame_of (m : mach) (oesp trapno err : Z) : trapframe :=
  Trapframe (r_edi m) (r_esi m) (r_ebp m) oesp (r_ebx m) (r_edx m) (r_ecx m) (r_eax m)
    (s_gs m) (s_fs m) (s_es m) (s_ds m) trapno err (eip m) (s_cs m) (eflags m) (r_esp m) (s_ss m).

(** Registers that fit. *)
Definition fits32 (v : Z) : Prop := 0 ≤ v < 2 ^ 32.
Definition fits16 (v : Z) : Prop := 0 ≤ v < 2 ^ 16.
Definition tf_fits (tf : trapframe) : Prop :=
  Forall fits32 [tf_edi tf; tf_esi tf; tf_ebp tf; tf_oesp tf; tf_ebx tf; tf_edx tf; tf_ecx tf; tf_eax tf;
                 tf_trapno tf; tf_err tf; tf_eip tf; tf_eflags tf; tf_esp tf] ∧
  Forall fits16 [tf_gs tf; tf_fs tf; tf_es tf; tf_ds tf; tf_cs tf; tf_ss tf].

(** The words of a frame, in the order they are pushed. *)
Definition frame_words (tf : trapframe) : list Z :=
  [tf_ss tf; tf_esp tf; tf_eflags tf; tf_cs tf; tf_eip tf; tf_err tf; tf_trapno tf; tf_ds tf; tf_es tf; tf_fs tf; tf_gs tf;
   tf_eax tf; tf_ecx tf; tf_edx tf; tf_ebx tf; tf_oesp tf; tf_ebp tf; tf_esi tf; tf_edi tf].

Lemma frame_pushed me b tf :
  tf_fits tf → (∀ k v, frame_words tf !! k = Some v → load32 me (b - 4 * Z.of_nat k - 4) = u32 v) →
  frame_at me (b - 76) = tf.
Proof.
  intros [H32 H16] Hw. assert (∀ k v, frame_words tf !! (18 - k)%nat = Some v → (k ≤ 18)%nat → word me (b - 76) (Z.of_nat k) = u32 v) as Hw'.
  { intros k v Hv Hk. rewrite -(Hw _ _ Hv) /word. f_equal. lia. }
  assert (∀ v, fits32 v → u32 v = v) as E32 by exact u32_id.
  assert (∀ v, fits16 v → u32 v mod 2 ^ 16 = v) as E16 by (rewrite /fits16; intros; rewrite u32_id; [lia|by apply Z.mod_small]).
  decompose_Forall. rewrite /frame_at.
  rewrite (Hw' 0%nat _ eq_refl) ?(Hw' 1%nat _ eq_refl) ?(Hw' 2%nat _ eq_refl) ?(Hw' 3%nat _ eq_refl) ?(Hw' 4%nat _ eq_refl)
    ?(Hw' 5%nat _ eq_refl) ?(Hw' 6%nat _ eq_refl) ?(Hw' 7%nat _ eq_refl) ?(Hw' 8%nat _ eq_refl) ?(Hw' 9%nat _ eq_refl)
    ?(Hw' 10%nat _ eq_refl) ?(Hw' 11%nat _ eq_refl) ?(Hw' 12%nat _ eq_refl) ?(Hw' 13%nat _ eq_refl) ?(Hw' 14%nat _ eq_refl)
    ?(Hw' 15%nat _ eq_refl) ?(Hw' 16%nat _ eq_refl) ?(Hw' 17%nat _ eq_refl) ?(Hw' 18%nat _ eq_refl); try lia.
  rewrite !E16 ?E32 //. by destruct tf.
Qed.

(** ** Entering *)

(** The words pushed before pushal. *)
Definition first_words (m : mach) (i err : Z) : list Z :=
  [s_ss m; r_esp m; eflags m; s_cs m; eip m; err; i; s_ds m; s_es m; s_fs m; s_gs m].

Definition err_word (i e : Z) : Z := if has_err i then e else 0.
Definition err_code (i e : Z) : option Z := if has_err i then Some e else None.

Lemma push_enter_gate g fl v m : push v (enter_gate g fl m) = enter_gate g fl (push v m).
Proof. by destruct m. Qed.

Lemma r_eax_enter_gate g fl m : r_eax (enter_gate g fl m) = r_eax m.
Proof. by destruct m. Qed.
Lemma r_ecx_enter_gate g fl m : r_ecx (enter_gate g fl m) = r_ecx m.
Proof. by destruct m. Qed.
Lemma r_edx_enter_gate g fl m : r_edx (enter_gate g fl m) = r_edx m.
Proof. by destruct m. Qed.
Lemma r_ebx_enter_gate g fl m : r_ebx (enter_gate g fl m) = r_ebx m.
Proof. by destruct m. Qed.
Lemma r_esp_enter_gate g fl m : r_esp (enter_gate g fl m) = r_esp m.
Proof. by destruct m. Qed.
Lemma r_ebp_enter_gate g fl m : r_ebp (enter_gate g fl m) = r_ebp m.
Proof. by destruct m. Qed.
Lemma r_esi_enter_gate g fl m : r_esi (enter_gate g fl m) = r_esi m.
Proof. by destruct m. Qed.
Lemma r_edi_enter_gate g fl m : r_edi (enter_gate g fl m) = r_edi m.
Proof. by destruct m. Qed.
Lemma s_ds_enter_gate g fl m : s_ds (enter_gate g fl m) = s_ds m.
Proof. by destruct m. Qed.
Lemma s_es_enter_gate g fl m : s_es (enter_gate g fl m) = s_es m.
Proof. by destruct m. Qed.
Lemma s_fs_enter_gate g fl m : s_fs (enter_gate g fl m) = s_fs m.
Proof. by destruct m. Qed.
Lemma s_gs_enter_gate g fl m : s_gs (enter_gate g fl m) = s_gs m.
Proof. by destruct m. Qed.

#[local] Hint Rewrite push_enter_gate r_eax_enter_gate r_ecx_enter_gate r_edx_enter_gate r_ebx_enter_gate r_esp_enter_gate
  r_ebp_enter_gate r_esi_enter_gate r_edi_enter_gate s_ds_enter_gate s_es_enter_gate s_fs_enter_gate s_gs_enter_gate : asm.

Lemma r_eax_stack sp ss m : r_eax (setr ESP sp (sets SS ss m)) = r_eax m.
Proof. by destruct m. Qed.
Lemma r_ecx_stack sp ss m : r_ecx (setr ESP sp (sets SS ss m)) = r_ecx m.
Proof. by destruct m. Qed.
Lemma r_edx_stack sp ss m : r_edx (setr ESP sp (sets SS ss m)) = r_edx m.
Proof. by destruct m. Qed.
Lemma r_ebx_stack sp ss m : r_ebx (setr ESP sp (sets SS ss m)) = r_ebx m.
Proof. by destruct m. Qed.
Lemma r_ebp_stack sp ss m : r_ebp (setr ESP sp (sets SS ss m)) = r_ebp m.
Proof. by destruct m. Qed.
Lemma r_esi_stack sp ss m : r_esi (setr ESP sp (sets SS ss m)) = r_esi m.
Proof. by destruct m. Qed.
Lemma r_edi_stack sp ss m : r_edi (setr ESP sp (sets SS ss m)) = r_edi m.
Proof. by destruct m. Qed.
Lemma s_ds_stack sp ss m : s_ds (setr ESP sp (sets SS ss m)) = s_ds m.
Proof. by destruct m. Qed.
Lemma s_es_stack sp ss m : s_es (setr ESP sp (sets SS ss m)) = s_es m.
Proof. by destruct m. Qed.
Lemma s_fs_stack sp ss m : s_fs (setr ESP sp (sets SS ss m)) = s_fs m.
Proof. by destruct m. Qed.
Lemma s_gs_stack sp ss m : s_gs (setr ESP sp (sets SS ss m)) = s_gs m.
Proof. by destruct m. Qed.

#[local] Hint Rewrite r_eax_stack r_ecx_stack r_edx_stack r_ebx_stack r_ebp_stack r_esi_stack r_edi_stack
  s_ds_stack s_es_stack s_fs_stack s_gs_stack : asm.

Section code.
Context (cfun : string → mach → mach).

Lemma entry_words i e esp0 ss0 g m :
  cpl m ≠ 0 →
  let base := setr ESP esp0 (sets SS ss0 m) in
  let oesp := r_esp (pushes (first_words m i (err_word i e)) base) in
  run cfun (vector i ++ take 5 alltraps_entry) (interrupt esp0 ss0 g (err_code i e) m) =
    enter_gate g (eflags m) (pushes (frame_words (frame_of m oesp i (err_word i e))) base).
Proof.
  intros Hc. rewrite /interrupt (proj2 (Z.eqb_neq _ _) Hc) /vector /err_code /err_word.
  destruct (has_err i); cbn [app take alltraps_entry run foldl step gets_ pushes frame_words frame_of first_words
    tf_edi tf_esi tf_ebp tf_oesp tf_ebx tf_edx tf_ecx tf_eax tf_gs tf_fs tf_es tf_ds tf_trapno tf_err tf_eip tf_cs tf_eflags tf_esp tf_ss];
    rewrite /pushal; autorewrite with asm; reflexivity.
Qed.

Lemma entry_oesp i e esp0 ss0 m :
  44 ≤ esp0 < 2 ^ 32 → r_esp (pushes (first_words m i (err_word i e)) (setr ESP esp0 (sets SS ss0 m))) = esp0 - 44.
Proof.
  intros He. set (base := setr ESP _ _). assert (r_esp base = esp0) as Eb by by destruct m.
  destruct (pushes_spec (first_words m i (err_word i e)) base) as (me & -> & _); [rewrite Eb /=; lia|].
  rewrite Eb. destruct base. cbn. lia.
Qed.

(** The machine when trap() is called, with the frame [tf] at [a]. *)
Record at_trap (g : gatedesc) (ss0 : Z) (tf : trapframe) (a : Z) (m c : mach) : Prop := {
  at_esp : r_esp c = a - 4;
  at_arg : load32 (mm c) (a - 4) = a;
  at_frame : frame_at (mm c) a = tf;
  at_eip : eip c = gate_off g;
  at_code : s_cs c = gate_sel g;
  at_stack : s_ss c = ss0;
  at_data : s_ds c = Z.shiftl SEG_KDATA 3 ∧ s_es c = Z.shiftl SEG_KDATA 3;
  at_cpu : s_fs c = Z.shiftl SEG_KCPU 3 ∧ s_gs c = Z.shiftl SEG_KCPU 3;
  at_mem b : ¬ (a - 4 ≤ b < a + 76) → byte (mm c) b = byte (mm m) b
}.

Lemma frame_at_ext me me' a : (∀ b, a ≤ b < a + 76 → byte me' b = byte me b) → frame_at me' a = frame_at me a.
Proof.
  intros H. assert (∀ k, 0 ≤ k ≤ 18 → word me' a k = word me a k) as Hw.
  { intros k Hk. apply load32_frame. intros b Hb. apply H. lia. }
  rewrite /frame_at !Hw //; lia.
Qed.

Lemma entry_user i e esp0 ss0 g m :
  let tf := frame_of m (esp0 - 44) i (err_word i e) in
  cpl m ≠ 0 → 80 ≤ esp0 < 2 ^ 32 → tf_fits tf →
  at_trap g ss0 tf (esp0 - 76) m
    (run cfun (vector i ++ alltraps_entry) (interrupt esp0 ss0 g (err_code i e) m)).
Proof.
  intros tf Hc He Hfit. rewrite -(take_drop 5 alltraps_entry) app_assoc run_app entry_words // entry_oesp; [lia|]. fold tf.
  set (base := setr ESP esp0 (sets SS ss0 m)). assert (r_esp base = esp0 ∧ mm base = mm m) as [Eb Em] by by destruct m.
  destruct (pushes_spec (frame_words tf) base) as (me & -> & Hw & Ho); [rewrite Eb /=; lia|].
  rewrite Eb Em in Hw, Ho |- *. change (length (frame_words tf)) with 19%nat in Ho |- *. change (4 * Z.of_nat 19) with 76 in Ho |- *.
  pose proof (frame_pushed me esp0 tf Hfit Hw) as HF. set (a := esp0 - 76) in *.
  assert (mm (run cfun (drop 5 alltraps_entry) (enter_gate g (eflags m) (setr ESP a (set_mm me base)))) = store32 me (a - 4) a ∧
    r_esp (run cfun (drop 5 alltraps_entry) (enter_gate g (eflags m) (setr ESP a (set_mm me base)))) = a - 4) as [Emm Esp].
  { assert (u32 (a - 4) = a - 4) as Hu by (apply u32_id; lia). destruct m. cbn -[Z.mul Z.sub u32 Z.modulo Z.shiftl]. by rewrite Hu. }
  split; rewrite ?Emm ?Esp //.
  - rewrite load32_store32 u32_id //. lia.
  - rewrite -HF. apply frame_at_ext. intros b Hb. apply byte_store32_out. lia.
  - by destruct m.
  - by destruct m.
  - by destruct m.
  - destruct m. cbn -[Z.mul Z.sub Z.add u32 Z.modulo Z.shiftl Z.pow]. by rewrite !movw_low.
  - destruct m. cbn -[Z.mul Z.sub Z.add u32 Z.modulo Z.shiftl Z.pow]. by rewrite !movw_low.
  - intros b Hb. rewrite byte_store32_out; [lia|]. apply Ho. lia.
Qed.

(** ** Leaving *)

(** The registers restored before iret. *)
Definition restored (a : Z) (d : mach) : mach :=
  let w := word (mm d) a in
  sets DS (w 11 mod 2 ^ 16) (sets ES (w 10 mod 2 ^ 16) (sets FS (w 9 mod 2 ^ 16) (sets GS (w 8 mod 2 ^ 16) (pop_regs a d)))).

Lemma trapret_exit_run a d : room a 76 → run cfun trapret_exit (setr ESP a d) = iret (setr ESP (a + 56) (restored a d)).
Proof.
  intros [Ha0 Ha1]. rewrite /trapret_exit /run. cbn [foldl step]. rewrite popal_at; [unfold room; lia|].
  set (x := pop_regs a d). assert (mm x = mm d) as Ex by by rewrite /x /pop_regs !mm_setr. do 4 (rewrite pop_seg_at; [unfold room; lia|]).
  assert (∀ v y, setr ESP (u32 (getr ESP (setr ESP v y) + 8)) (setr ESP v y) = setr ESP (u32 (v + 8)) y) as -> by by intros v [].
  rewrite u32_id; [lia|]. rewrite -!Z.add_assoc !mm_sets Ex. reflexivity.
Qed.

Lemma exit_user a d :
  room a 76 → cpl d = 0 →
  let tf := frame_at (mm d) a in
  Z.land (tf_cs tf) 3 ≠ 0 →
  frame_of (run cfun trapret_exit (setr ESP a d)) (tf_oesp tf) (tf_trapno tf) (tf_err tf) = tf ∧
  mm (run cfun trapret_exit (setr ESP a d)) = mm d.
Proof.
  intros Ha Hd tf Hu. pose proof Ha as [Ha0 Ha1]. rewrite trapret_exit_run // iret_at; [unfold room; lia|].
  assert (mm (restored a d) = mm d ∧ cpl (restored a d) = 0) as [Em Ec] by by destruct d.
  assert (∀ k, word (mm (restored a d)) (a + 56) k = word (mm d) a (14 + k)) as Hw.
  { intros k. rewrite Em /word. f_equal. lia. }
  rewrite Ec !Hw. change (tf_cs tf) with (word (mm d) a 15 mod 2 ^ 16) in Hu. rewrite (proj2 (Z.eqb_neq _ _) Hu).
  rewrite /irets !Hw. split; [|by destruct d]. by destruct d.
Qed.

(** The C functions return with the stack they were called with, in the kernel. *)
Definition returns_well : Prop := ∀ f c, r_esp (cfun f c) = r_esp c ∧ s_cs (cfun f c) = s_cs c.

(** The machine between trap() and the end of handling_signal(). *)
Lemma signal_run a c :
  returns_well → room a 76 → 4 ≤ a → r_esp c = a - 4 → cpl c = 0 →
  ∃ d, run cfun ([Call "trap"; AddlI 4 ESP] ++ trapret_signal) c = setr ESP a d ∧ cpl d = 0 ∧ mm d = mm (setr ESP a d).
Proof.
  intros HC [Ha0 Ha1] Ha4 Hesp Hc. cbn [app trapret_signal run foldl step getr].
  destruct (HC "trap"%string c) as [E1 E2]. set (c1 := cfun "trap"%string c) in *. rewrite E1 Hesp.
  replace (a - 4 + 4) with a by lia. rewrite (u32_id a); [lia|]. set (c2 := push _ (setr ESP a c1)).
  assert (r_esp c2 = a - 4 ∧ s_cs c2 = s_cs c) as [E3 E4].
  { split; [rewrite /c2 r_esp_push r_esp_setr; apply u32_id; lia|]. rewrite -E2 /c2 s_cs_push. by destruct c1. }
  destruct (HC "handling_signal"%string c2) as [E5 E6]. set (c3 := cfun _ c2) in *. rewrite E5 E3.
  replace (a - 4 + 4) with a by lia. rewrite (u32_id a); [lia|]. exists c3. split; [done|]. split; [|by destruct c3].
  by rewrite /cpl E6 E4.
Qed.

(** C6: a trap from user mode saves every register and returns with what the frame
    then holds. The C code is called with the address of a struct trapframe on the
    process's kernel stack that has all registers of the user, the number of the trap
    and its error code, and with the kernel's segments, and nothing but the 80 bytes of
    the stack has changed. When it has returned, and as long as the frame is one of user
    mode, the registers are those of the frame: if it has not been changed, the user's
    code goes on with every register as it was. *)
Theorem trap_roundtrip i e esp0 ss0 g m :
  let tf := frame_of m (esp0 - 44) i (err_word i e) in
  let a := esp0 - 76 in
  let start := interrupt esp0 ss0 g (err_code i e) m in
  returns_well → cpl m ≠ 0 → Z.land (gate_sel g) 3 = 0 → 80 ≤ esp0 < 2 ^ 32 → tf_fits tf →
  at_trap g ss0 tf a m (run cfun (vector i ++ alltraps_entry) start) ∧
  let d := run cfun (vector i ++ alltraps_code ++ trapret_signal) start in
  let tf' := frame_at (mm d) a in
  let m' := run cfun (vector i ++ alltraps_code ++ trapret_code) start in
  (user_mode tf' = true → frame_of m' (tf_oesp tf') (tf_trapno tf') (tf_err tf') = tf' ∧ mm m' = mm d).
Proof.
  intros tf a start HC Hm Hg He Hfit. pose proof (entry_user i e esp0 ss0 g m Hm He Hfit) as HA. fold tf a start in HA. split; [done|].
  set (c := run cfun (vector i ++ alltraps_entry) start) in *.
  assert (cpl c = 0) as Hc by by rewrite /cpl (at_code _ _ _ _ _ _ HA).
  destruct (signal_run a c HC) as (d & Hd & Hcd & Emm); [unfold room, a; lia|unfold a; lia|apply HA|done|].
  assert (run cfun (vector i ++ alltraps_code ++ trapret_signal) start = setr ESP a d) as Ed.
  { rewrite /alltraps_code -app_assoc app_assoc run_app. exact Hd. }
  assert (run cfun (vector i ++ alltraps_code ++ trapret_code) start = run cfun trapret_exit (setr ESP a d)) as Em.
  { rewrite /trapret_code -Ed -run_app -!app_assoc. done. }
  cbv zeta. rewrite Em Ed -Emm. intros Hu. apply exit_user; [unfold room, a; lia|done|].
  apply Z.eqb_eq in Hu. rewrite Hu. done.
Qed.

End code.

(** ** User code and gates *)

(** User code can use [int] for system calls only. *)
Lemma user_int vectors s idt s' esp0 ss0 n m :
  tvinit vectors s = Ok idt s' → cpl m = DPL_USER → 0 ≤ n < 256 →
  is_Some (int_ esp0 ss0 idt n m) ↔ n = T_SYSCALL.
Proof.
  intros Ht Hc Hn. assert (idt = <[Z.to_nat T_SYSCALL := Gate true (Z.shiftl SEG_KCODE 3) (vectors (Z.to_nat T_SYSCALL)) DPL_USER]>
    ((λ i, Gate false (Z.shiftl SEG_KCODE 3) (vectors i) 0) <$> seq 0 256)) as -> by by injection Ht.
  rewrite /int_ Hc. destruct (decide (n = T_SYSCALL)) as [->|Hne].
  - rewrite list_lookup_insert_eq; [|by eexists]. rewrite length_fmap length_seq. rewrite /T_SYSCALL. lia.
  - rewrite list_lookup_insert_ne; [rewrite /T_SYSCALL in Hne |- *; lia|]. rewrite list_lookup_fmap lookup_seq_lt; [lia|].
    split; [by intros [? ?]|done].
Qed.

(** A trap out of user code, and C code that changes the value a system call returns. *)
Definition demo_mach : mach :=
  Mach 5 1 2 3 0x3ff0 0x3ff8 6 7 0x23 0x2b 0x2b 0 0 0x2b 0x100 0x202 ∅.

Definition demo_trap (f : string) (m : mach) : mach :=
  if bool_decide (f = "trap"%string) then set_mm (store32 (mm m) (0x8dfff000 - 76 + 28) 42) m else m.

Definition demo_start : mach := interrupt 0x8dfff000 0x10 (Gate true 8 0x80105000 3) (err_code 64 0) demo_mach.
Definition demo_done : mach := run demo_trap (vector 64 ++ alltraps_code ++ trapret_code) demo_start.

Lemma trap_roundtrip_witness :
  frame_of demo_done 0x8dffefd4 64 0 = Trapframe 7 6 0x3ff8 0x8dffefd4 3 2 1 42 0 0 0x2b 0x2b 64 0 0x100 0x23 0x202 0x3ff0 0x2b.
Proof.
  destruct (trap_roundtrip demo_trap 64 0 0x8dfff000 0x10 (Gate true 8 0x80105000 3) demo_mach) as [_ H].
  - intros f c. rewrite /demo_trap. by destruct (bool_decide _), c.
  - done.
  - done.
  - lia.
  - by split; decompose_Forall; vm_compute.
  - cbv zeta in H. fold demo_start in H.
    assert (frame_at (mm (run demo_trap (vector 64 ++ alltraps_code ++ trapret_signal) demo_start)) (0x8dfff000 - 76) =
      Trapframe 7 6 0x3ff8 0x8dffefd4 3 2 1 42 0 0 0x2b 0x2b 64 0 0x100 0x23 0x202 0x3ff0 0x2b) as E by by vm_compute.
    rewrite E in H. destruct H as [H _]; [done|]. exact H.
Defined.
