(* ===== verification/Main.v ===== *)
(** * Starting the kernel: main.c

    main() initialises one subsystem after the other, and startothers() starts the other
    processors, which begin with what it left for them below the copy of entryother.S.
    The state joins those of the subsystems; the memory is one, although each of them has
    it as a component of its own. *)

From S2P Require Import Prelude Param Bytes String State Spinlock Console Sched Sleeplock Bio Hw Irq Ide Log Kalloc Vm VmSpec VmUser VmCopy VmProps Fs Mp Pipe File Proc Consoledev Sysarg Exec Trap Segs.

Module Main.

(** [b_booted]: for each processor that has set [started], the words entryother.S found. *)
Record bst := Bst {
  b_ist : Ide.ist;
  b_seg : pcpu;
  b_idt : list gatedesc;
  b_idtr : list Z;
  b_booted : gmap nat (Z * Z * Z)
}.

Definition B : Type → Type := M switch bst.

Definition set_ist (i : Ide.ist) (s : bst) : bst := Bst i (b_seg s) (b_idt s) (b_idtr s) (b_booted s).
Definition set_seg (x : pcpu) (s : bst) : bst := Bst (b_ist s) x (b_idt s) (b_idtr s) (b_booted s).
Definition set_idt (l : list gatedesc) (s : bst) : bst := Bst (b_ist s) (b_seg s) l (b_idtr s) (b_booted s).
Definition set_idtr (l : list Z) (s : bst) : bst := Bst (b_ist s) (b_seg s) (b_idt s) l (b_booted s).
Definition set_booted (b : gmap nat (Z * Z * Z)) (s : bst) : bst := Bst (b_ist s) (b_seg s) (b_idt s) (b_idtr s) b.

Definition kst (s : bst) : kstate := Ide.i_k (b_ist s).
Definition ram (s : bst) : mem := mem_bytes (k_mem (kst s)).

(** ** The subsystems *)

Definition ide {A} (m : Ide.I A) : B A := λ s,
  match m (b_ist s) with
  | Ok a i => Ok a (set_ist i s)
  | Panic msg => Panic msg
  | Switch w i => Switch w (set_ist i s)
  | Spin => Spin
  | Fault a => Fault a
  | NoFuel => NoFuel
  end.

Definition kern {A} (m : K A) : B A := ide (Ide.kern m).

(** Code that works on the devices' state finds the memory in it, and leaves it there. *)
Definition dev {A} (m : W A) : B A := λ s,
  match m (set_hwmem (ram s) (Ide.i_hw (b_ist s))) with
  | Ok a h => Ok a (set_ist (Ide.set_ik (set_bytes_of (λ _, hw_mem h) (kst s)) (Ide.set_ihw h (b_ist s))) s)
  | Panic msg => Panic msg
  | Switch w _ => match w : Empty_set with end
  | Spin => Spin
  | Fault a => Fault a
  | NoFuel => NoFuel
  end.

Definition seg (f : pcpu → pcpu) : B unit :=
  modify (λ s, let x := b_seg s in
    let y := f (Pcpu (pc_gdt x) (pc_gdtr x) (pc_gs x) (pc_tr x) (ram s)) in
    set_ist (Ide.set_ik (set_bytes_of (λ _, pc_mem y) (kst s)) (b_ist s)) (set_seg y s)).

(** ** entrypgdir *)

Definition PTE_PS : Z := 0x080.

Definition entrypgdir : list Z :=
  <[Z.to_nat (Z.shiftr KERNBASE PDXSHIFT) := Z.lor (Z.lor (Z.lor 0 PTE_P) PTE_W) PTE_PS]>
    (<[0%nat := Z.lor (Z.lor (Z.lor 0 PTE_P) PTE_W) PTE_PS]> (replicate (Z.to_nat NPDENTRIES) 0)).

(** The address a page directory of 4 MB pages gives. *)
Definition translate4m (pgdir : list Z) (va : Z) : option Z :=
  let e := default 0 (pgdir !! Z.to_nat (PDX va)) in
  if (Z.land e PTE_P =? 0) || (Z.land e PTE_PS =? 0) then None
  else Some (Z.land e 0xffc00000 + va mod 2 ^ PDXSHIFT).

(** The offset of [started] in struct cpu. *)
Definition cpu_started : Z := 168.

(** The interrupts the local APIC at [L] is told to send to other processors: a store to
    the low command word sends one, to the processor named in the top byte of the last
    store to the high word. *)
Definition ipi_step (L : Z) (x : Z * list (Z * Z)) (a : access) : Z * list (Z * Z) :=
  match a with
  | Store p v =>
      if p =? L + 4 * ICRHI then (Z.shiftr v 24, x.2)
      else if p =? L + 4 * ICRLO then (x.1, x.2 ++ [(x.1, v)]) else x
  | _ => x
  end.

Definition ipi_state (L : Z) (h : list access) : Z * list (Z * Z) := foldl (ipi_step L) (0, []) h.

Definition ipis (L : Z) (h : list access) : list (Z * Z) := (ipi_state L h).2.

Section main.
Context `{Devices, IdeDriver, Devsw} (fuel : nat).

(** The addresses the linker gives, and [vectors]. *)
Context (end_ data_ cpus_ idt_ entrypgdir_ mpenter_ : Z).
Context (entryother entryother_size initcode initcode_size : Z).
Context (vectors : nat → Z).
(** The line status port of the serial line, and the physical address at which the
    processor with an APIC id has begun to execute after a history of accesses. *)
Context (uart_status : Z) (begins : list access → Z → option Z).

Definition store_word (a v : Z) : B unit := kern (kstore (λ m, store32 m a v)).

(** [while(c->started == 0);] A processor that has begun to execute at [code], where it
    finds entryother.S, loads the three words below the code and calls mpenter(), which
    sets [started] in the end. *)
Definition await (k : nat) (code : Z) : B unit :=
  o ← gets (λ s, let h := Ide.i_hw (b_ist s) in begins (hw_hist h) (nth k (cpus h) 0));
  there ← gets (λ s, forallb (λ i, byte (ram s) (code + i) =? byte (ram s) (entryother + i)) (seqZ 0 entryother_size));
  if bool_decide (o = Some (V2P code)) && there then
    modify (λ s, set_booted (<[k := (load32 (ram s) (code - 4), load32 (ram s) (code - 8), load32 (ram s) (code - 12))]> (b_booted s)) s)
  else spin.

Definition start_one (code : Z) (k : nat) : B unit :=
  n ← dev cpunum;
  if Z.of_nat k =? n then mret () else
  stack ← kern kalloc;
  store_word (code - 4) (stack + KSTACKSIZE);;
  store_word (code - 8) mpenter_;;
  store_word (code - 12) (V2P entrypgdir_);;
  ids ← gets (λ s, cpus (Ide.i_hw (b_ist s)));
  dev (lapicstartap (nth k ids 0) (V2P code));;
  await k code.

Definition startothers : B unit :=
  let code := P2V 0x7000 in
  kern (kstore (λ m, memmove m code entryother (u32 entryother_size)));;
  n ← gets (λ s, ncpu (Ide.i_hw (b_ist s)));
  for_each (seq 0 (Z.to_nat n)) (start_one code).

Definition mpmain (scheduler : B unit) : B unit :=
  n ← dev cpunum;
  kern (cprintf (chars "cpu%d: starting" ++ [newline]) [AInt n]);;
  modify (set_idtr (pseudo_desc idt_ (256 * 8)));;
  c ← gets (λ s, load32 (ram s) (gs_addr (b_seg s) 0));
  store_word (c + cpu_started) 1;;
  scheduler.

Definition this_cpu : B Z := n ← dev cpunum; mret (cpus_ + sizeof_cpu * n).

Definition seginit_ : B unit := c ← this_cpu; seg (seginit c).

Definition main (scheduler : B unit) : B unit :=
  kern (kinit1 end_ end_ (P2V (4 * 1024 * 1024)));;
  kern (kvmalloc data_);;
  dev (mpinit fuel);;
  dev (lapicinit fuel);;
  seginit_;;
  n ← dev cpunum;
  kern (cprintf ([newline] ++ chars "cpu%d: starting xv6" ++ [newline; newline]) [AInt n]);;
  dev picinit;;
  differs ← dev ioapicinit;
  (if differs : bool then
     kern (cprintf (chars "ioapicinit: id isn't equal to ioapicid; not a MP" ++ [newline]) [])
   else mret ());;
  kern consoleinit;;
  kern (uartinit uart_status);;
  kern pinit;;
  idt ← kern (tvinit vectors);
  modify (set_idt idt);;
  kern binit;;
  kern fileinit;;
  ide (Ide.ideinit fuel);;
  mp ← gets (λ s, ismp (Ide.i_hw (b_ist s)));
  (if negb mp then dev timerinit else mret ());;
  startothers;;
  kern (kinit2 end_ (P2V (4 * 1024 * 1024)) (P2V PHYSTOP));;
  kern (userinit data_ initcode initcode_size);;
  mpmain scheduler.

(** The other processors' part of the start. *)
Definition mpenter (scheduler : B unit) : B unit :=
  kern switchkvm;;
  seginit_;;
  dev (lapicinit fuel);;
  mpmain scheduler.

End main.

End Main.

Import Main.

(** The page directory of the start: the first 4 MB of memory, at 0 and at KERNBASE. *)
Lemma entrypgdir_maps va :
  0 ≤ va < 2 ^ 32 →
  translate4m entrypgdir va =
    if bool_decide (va < 2 ^ 22) then Some va
    else if bool_decide (KERNBASE ≤ va < KERNBASE + 2 ^ 22) then Some (va - KERNBASE) else None.
Proof.
  intros Hva. rewrite /translate4m /PDX u32_id // /PDXSHIFT Z.shiftr_div_pow2 //. change 0x3FF with (Z.ones 10). rewrite Z.land_ones //.
  change KERNBASE with 0x80000000. set (i := Z.to_nat ((va / 2 ^ 22) mod 2 ^ 10)).
  assert (Z.of_nat i = va / 2 ^ 22) as Ei by (rewrite /i; Z.to_euclidean_division_equations; lia).
  assert (entrypgdir = <[512%nat := 0x83]> (<[0%nat := 0x83]> (replicate 1024 0))) as -> by by vm_compute.
  destruct (decide (i = 512%nat)) as [E|E512]; [|destruct (decide (i = 0%nat)) as [E|E0]].
  - rewrite E list_lookup_insert_eq; [rewrite length_insert length_replicate; lia|]. cbn [default from_option id].
    rewrite bool_decide_eq_false_2; [Z.to_euclidean_division_equations; lia|].
    rewrite bool_decide_eq_true_2; [Z.to_euclidean_division_equations; lia|]. f_equal.
    change (Z.land 131 4290772992) with 0. Z.to_euclidean_division_equations; lia.
  - rewrite E list_lookup_insert_ne; [done|]. rewrite list_lookup_insert_eq; [rewrite length_replicate; lia|]. cbn [default from_option id].
    rewrite bool_decide_eq_true_2; [Z.to_euclidean_division_equations; lia|]. f_equal.
    change (Z.land 131 4290772992) with 0. Z.to_euclidean_division_equations; lia.
  - rewrite list_lookup_insert_ne; [congruence|]. rewrite list_lookup_insert_ne; [congruence|]. rewrite lookup_replicate_2; [Z.to_euclidean_division_equations; lia|]. cbn [default from_option id].
    rewrite !bool_decide_eq_false_2 //; Z.to_euclidean_division_equations; lia.
Qed.

(** ** The other processors *)

Definition set_k (k : kstate) (s : bst) : bst := set_ist (Ide.set_ik k (b_ist s)) s.
Definition hw_of (s : bst) : hwst := set_hwmem (ram s) (Ide.i_hw (b_ist s)).
Definition with_dev (h : hwst) (s : bst) : bst :=
  set_ist (Ide.set_ik (set_bytes_of (λ _, hw_mem h) (kst s)) (Ide.set_ihw h (b_ist s))) s.

Lemma bind_bkern {A C} (m : K A) (f : A → B C) s a k : m (kst s) = Ok a k → (kern m ≫= f) s = f a (set_k k s).
Proof. intros E. rewrite /mbind /M_bind /kern /ide /Ide.kern. rewrite /kst in E. by rewrite E. Qed.

Lemma bind_bdev {A C} (m : W A) (f : A → B C) s a h : m (hw_of s) = Ok a h → (dev m ≫= f) s = f a (with_dev h s).
Proof. intros E. rewrite /mbind /M_bind /dev. rewrite /hw_of in E. by rewrite E. Qed.

Section others.
Context `{Devices} (end_ : Z).

(** The machine: the local APIC at [L], the processors' ids, and which one runs. *)
Context (L : Z) (ids : list Z) (self : nat).
Hypothesis lapic_there : L ≠ 0.
Hypothesis ids_differ : NoDup ids.
Hypothesis self_id : ∀ h, ids !! self = Some (Z.shiftr (u32 (reg_load h (L + 4 * ID))) 24).
Hypothesis ids_bytes : ∀ k a, ids !! k = Some a → 0 ≤ a < 256.
(** The kernel lies above the first megabyte. *)
Hypothesis end_high : KERNBASE + EXTMEM ≤ end_.
(** A processor to which an INIT interrupt and two STARTUP interrupts are sent begins to
    execute at the page the vector of the latter names: the universal startup algorithm of
    the MultiProcessor Specification, appendix B. *)
Context (begins : list access → Z → option Z).
Hypothesis universal_startup : ∀ h sent a v,
  0 ≤ v < 256 →
  ipis L h = sent ++ [(a, Z.lor (Z.lor INIT LEVEL) ASSERT); (a, Z.lor INIT LEVEL);
                      (a, Z.lor STARTUP v); (a, Z.lor STARTUP v)] →
  begins h a = Some (Z.shiftl v 12).

Record ready (fl : list Z) (s : bst) : Prop := {
  re_mem : kmem_inv end_ fl (kst s);
  re_alloc : alloc_ready (kst s);
  re_lapic : lapic (Ide.i_hw (b_ist s)) = L;
  re_ncpu : ncpu (Ide.i_hw (b_ist s)) = Z.of_nat (length ids);
  re_cpus : cpus (Ide.i_hw (b_ist s)) = ids
}.

(** The devices' state after code that leaves the processors alone. *)
Record hw_kept (h h' : hwst) : Prop := {
  hk_lapic : lapic h' = lapic h;
  hk_ncpu : ncpu h' = ncpu h;
  hk_cpus : cpus h' = cpus h
}.

Lemma cpunum_Ok h : lapic h = L → ncpu h = Z.of_nat (length ids) → cpus h = ids →
  ∃ h', cpunum h = Ok (Z.of_nat self) h' ∧ hw_kept h h' ∧ hw_mem h' = hw_mem h.
Proof.
  intros E1 E2 E3. rewrite /cpunum bind_gets E1 (proj2 (Z.eqb_neq _ _) lapic_there) /lapicr bind_assoc /lapic_at bind_gets E1 bind_load.
  cbv zeta. set (h1 := note _ h). rewrite !bind_gets. change (ncpu h1) with (ncpu h). change (cpus h1) with (cpus h).
  rewrite E2 E3 Nat2Z.id firstn_all. pose proof (self_id (hw_hist h)) as Hs. set (a := Z.shiftr _ 24) in Hs |- *.
  assert (list_find (λ b, b = a) ids = Some (self, a)) as ->; [|by exists h1].
  apply list_find_Some. split_and!; [done|done|]. intros j b Hj Hlt ->. pose proof (NoDup_lookup _ _ _ _ ids_differ Hs Hj). lia.
Qed.

(** The place of the warm reset vector. *)
Definition wrv : Z := P2V (Z.lor (Z.shiftl 0x40 4) 0x67).

(** Code that only talks to the local APIC, and what its stores tell it. *)
Definition tells (m : W unit) (f : Z * list (Z * Z) → Z * list (Z * Z)) : Prop := ∀ h, lapic h = L →
  ∃ h', m h = Ok () h' ∧ hw_kept h h' ∧ hw_mem h' = hw_mem h ∧ ipi_state L (hw_hist h') = f (ipi_state L (hw_hist h)).

Lemma tells_lapicw i v : tells (lapicw i v) (λ x, ipi_step L x (Store (L + 4 * i) (u32 v))).
Proof.
  intros h El. eexists. split; [reflexivity|]. split; [by split|]. split; [done|].
  cbn [hw_hist note set_hist lapic]. rewrite /ipi_state !foldl_app El. done.
Qed.

Lemma tells_ret : tells (mret ()) id.
Proof. intros h _. exists h. by split. Qed.

Lemma tells_bind {m k f g} : tells m f → tells k g → tells (m;; k) (λ x, g (f x)).
Proof.
  intros Hm Hk h El. destruct (Hm h El) as (h1 & E1 & [K1 K2 K3] & M1 & I1).
  destruct (Hk h1) as (h2 & E2 & [K4 K5 K6] & M2 & I2); [congruence|].
  exists h2. rewrite (bind_Ok _ _ _ _ _ E1). split_and!; [done|split; congruence|congruence|by rewrite I2 I1].
Qed.

Lemma tell_high x v : ipi_step L x (Store (L + 4 * ICRHI) v) = (Z.shiftr v 24, x.2).
Proof. by rewrite /ipi_step Z.eqb_refl. Qed.

Lemma tell_low x v : ipi_step L x (Store (L + 4 * ICRLO) v) = (x.1, x.2 ++ [(x.1, v)]).
Proof.
  rewrite /ipi_step Z.eqb_refl. replace (L + 4 * ICRLO =? L + 4 * ICRHI) with false; [done|].
  change ICRLO with 192. change ICRHI with 196. lia.
Qed.

(** The processor's number comes back from the top byte of the high word. *)
Lemma destination a : 0 ≤ a < 256 → Z.shiftr (u32 (Z.shiftl a 24)) 24 = a.
Proof.
  intros Ha. rewrite Z.shiftl_mul_pow2 // u32_id; [lia|]. rewrite Z.shiftr_div_pow2 //. apply Z.div_mul. lia.
Qed.

Lemma lapicstartap_Ok a addr h :
  lapic h = L → 0 ≤ a < 256 → 0 ≤ addr < 2 ^ 20 →
  ∃ h', lapicstartap a addr h = Ok () h' ∧ hw_kept h h' ∧ (∀ b, ¬ (wrv ≤ b < wrv + 4) → byte (hw_mem h') b = byte (hw_mem h) b) ∧
    begins (hw_hist h') a = Some (Z.shiftl (Z.shiftr addr 12) 12).
Proof.
  intros El Ha Haddr. rewrite /lapicstartap. do 2 rewrite bind_outb. do 2 rewrite bind_modify. fold wrv. cbn [for_each]. set (h0 := set_hwmem _ _).
  assert (hw_kept h h0 ∧ ∀ b, ¬ (wrv ≤ b < wrv + 4) → byte (hw_mem h0) b = byte (hw_mem h) b) as [K0 M0].
  { split; [by split|]. intros b Hb. unfold h0. cbn [hw_mem set_hwmem note set_hist].
    do 2 (rewrite byte_store bool_decide_eq_false_2; [cbn [length le2]; lia|]). reflexivity. }
  clearbody h0. pose proof (λ v, tells_lapicw ICRHI v) as hi. pose proof (λ v, tells_lapicw ICRLO v) as lo.
  set (hv := Z.shiftl a 24). set (sv := Z.lor STARTUP (Z.shiftr addr 12)).
  pose proof (tells_bind (hi hv) (tells_bind (lo (Z.lor (Z.lor INIT LEVEL) ASSERT)) (tells_bind (lo (Z.lor INIT LEVEL))
    (tells_bind (tells_bind (hi hv) (lo sv)) (tells_bind (tells_bind (hi hv) (lo sv)) tells_ret))))) as Hq.
  destruct K0 as [K1 K2 K3]. destruct (Hq h0) as (h1 & Hr & [K4 K5 K6] & M1 & I1); [congruence|].
  exists h1. split_and!; [exact Hr|split; congruence|intros b Hb; rewrite M1; by apply M0|].
  cbv beta in I1. rewrite /id !(tell_low, tell_high) /hv !destination // in I1. cbn [fst snd] in I1.
  assert (0 ≤ Z.shiftr addr 12 < 256) as Hv by (rewrite Z.shiftr_div_pow2 //; Z.to_euclidean_division_equations; lia).
  assert (u32 sv = sv) as E.
  { apply u32_id. unfold sv. pose proof (lor_small STARTUP (Z.shiftr addr 12)) as Hs. rewrite /PGSIZE /STARTUP in Hs |- *. lia. }
  apply (universal_startup _ (ipis L (hw_hist h0))); [done|]. rewrite /ipis I1 /= E -!app_assoc. done.
Qed.

(** Low memory, where the code of the other processors is put: not in a free page. *)
Lemma low_free fl s v a : kmem_inv end_ fl s → v ∈ fl → in_page v a → KERNBASE + EXTMEM ≤ a.
Proof.
  intros [_ _ Hp] Hv [Ha _]. rewrite Forall_forall in Hp. pose proof (pg_end _ _ (Hp v Hv)). lia.
Qed.

(** A step that changes low memory only. *)
Lemma ready_low fl s s' f :
  ready fl s → kst s' = set_bytes_of f (kst s) → hw_kept (Ide.i_hw (b_ist s)) (Ide.i_hw (b_ist s')) →
  (∀ a, KERNBASE + EXTMEM ≤ a → byte (f (ram s)) a = byte (ram s) a) → ready fl s'.
Proof.
  intros [R1 R2 R3 R4 R5] Ek [K1 K2 K3] Hf. split; [| |congruence..].
  - rewrite Ek. apply kmem_inv_store; [done|]. intros v a Hv Ha. apply Hf. by apply (low_free fl (kst s) v).
  - rewrite Ek. by apply (memonly_ready (kst s)); [apply memonly_store|].
Qed.

Lemma dev_cpunum {C} (f : Z → B C) fl s :
  ready fl s → ∃ s', (dev cpunum ≫= f) s = f (Z.of_nat self) s' ∧ ready fl s' ∧ ram s' = ram s ∧ b_booted s' = b_booted s.
Proof.
  intros HR. pose proof HR as [R1 R2 R3 R4 R5]. destruct (cpunum_Ok (hw_of s)) as (h' & Hr & HK & HM); [done..|].
  exists (with_dev h' s). rewrite (bind_bdev _ _ _ _ _ Hr). split_and!; [done| |exact HM|done].
  apply (ready_low fl s _ (λ _, hw_mem h')); [done|done|by destruct HK|]. intros a _. by rewrite HM.
Qed.

Definition store_words (code stack mp pgdir : Z) (m : mem) : mem :=
  store32 (store32 (store32 m (code - 4) stack) (code - 8) mp) (code - 12) pgdir.

Lemma store_words_load code stack mp pgdir m :
  load32 (store_words code stack mp pgdir m) (code - 4) = u32 stack ∧
  load32 (store_words code stack mp pgdir m) (code - 8) = u32 mp ∧
  load32 (store_words code stack mp pgdir m) (code - 12) = u32 pgdir.
Proof.
  rewrite /store_words. split_and!.
  - do 2 (rewrite load32_store32_ne; [lia|]). apply load32_store32.
  - rewrite load32_store32_ne; [lia|]. apply load32_store32.
  - apply load32_store32.
Qed.

Context (entrypgdir_ mpenter_ entryother_ size_ : Z).
Hypothesis image_high : KERNBASE + EXTMEM ≤ entryother_.
Hypothesis image_size : 0 ≤ size_ ≤ EXTMEM - 0x7000.
Notation code := (P2V 0x7000).
Notation start := (start_one entrypgdir_ mpenter_ entryother_ size_ begins code).

(** The start code is in its place. *)
Definition copied (m : mem) : Prop := ∀ i, 0 ≤ i < size_ → byte m (code + i) = byte m (entryother_ + i).

Lemma copied_frame m m' : (∀ b, code ≤ b → byte m' b = byte m b) → copied m → copied m'.
Proof.
  intros Hf Hc i Hi. rewrite !Hf; [lia| |by apply Hc]. pose proof image_high.
  change code with 0x80007000. change (KERNBASE + EXTMEM) with 0x80100000 in *. lia.
Qed.

Lemma await_Ok k s :
  copied (ram s) → begins (hw_hist (Ide.i_hw (b_ist s))) (nth k (cpus (Ide.i_hw (b_ist s))) 0) = Some (V2P code) →
  await entryother_ size_ begins k code s =
    Ok () (set_booted (<[k := (load32 (ram s) (code - 4), load32 (ram s) (code - 8), load32 (ram s) (code - 12))]> (b_booted s)) s).
Proof.
  intros Hc Hb. rewrite /await !bind_gets Hb bool_decide_eq_true_2 //. rewrite (proj2 (forallb_forall _ _)) //.
  intros i Hi. apply Z.eqb_eq, Hc. apply list_elem_of_In, elem_of_seqZ in Hi. lia.
Qed.

(** One processor is started, with the first free page as its stack. *)

Lemma start_one_self fl s :
  ready fl s → ∃ s', start self s = Ok () s' ∧ ready fl s' ∧ ram s' = ram s ∧ b_booted s' = b_booted s.
Proof.
  intros HR. rewrite /start_one. match goal with |- context [dev cpunum ≫= ?f] => destruct (dev_cpunum f fl s HR) as (s' & -> & HR' & Er & Eb) end.
  exists s'. rewrite Z.eqb_refl. done.
Qed.

Lemma start_one_other fl v k s :
  ready (v :: fl) s → copied (ram s) → k ≠ self → (k < length ids)%nat →
  ∃ s', start k s = Ok () s' ∧ ready fl s' ∧ copied (ram s') ∧
    b_booted s' = <[k := (u32 (v + KSTACKSIZE), u32 mpenter_, V2P entrypgdir_)]> (b_booted s).
Proof.
  intros HR Hc Hk Hlt. rewrite /start_one. match goal with |- context [dev cpunum ≫= ?f] => destruct (dev_cpunum f _ s HR) as (s1 & -> & HR1 & Er & Eb) end.
  replace (Z.of_nat k =? Z.of_nat self) with false by lia.
  destruct (kalloc_run end_ (v :: fl) (kst s1) (re_mem _ _ HR1) (re_alloc _ _ HR1)) as (k2 & Hka & Hmo & Hinv & Hbytes).
  rewrite (bind_bkern _ _ _ _ _ Hka). cbn [hd tail] in Hinv |- *. set (s2 := set_k k2 s1).
  assert (ready fl s2) as HR2.
  { destruct HR1 as [R1 R2 R3 R4 R5]. split; [done|by apply (memonly_ready (kst s1))|done..]. }
  set (f := store_words code (v + KSTACKSIZE) mpenter_ (V2P entrypgdir_)).
  set (s3 := set_k (set_bytes_of f (kst s2)) s2).
  assert (∀ C (g : B C), (store_word (code - 4) (v + KSTACKSIZE);; store_word (code - 8) mpenter_;;
    store_word (code - 12) (V2P entrypgdir_);; g) s2 = g s3) as Hst by done.
  assert (ready fl s3) as HR3.
  { apply (ready_low fl s2 s3 f); [done|done|by split|]. intros a Ha. rewrite /f /store_words !byte_store32_out //; change code with 0x80007000; change (KERNBASE + EXTMEM) with 0x80100000 in Ha; lia. }
  rewrite Hst bind_gets. 
  assert (0 ≤ nth k (cpus (Ide.i_hw (b_ist s3))) 0 < 256) as Hid.
  { rewrite (re_cpus _ _ HR3). destruct (lookup_lt_is_Some_2 ids k Hlt) as [a Ha]. rewrite (nth_lookup_Some _ _ _ _ Ha). by apply (ids_bytes k). }
  destruct (lapicstartap_Ok (nth k (cpus (Ide.i_hw (b_ist s3))) 0) (V2P code) (hw_of s3)) as (h4 & Hr4 & HK4 & HM4 & Hbeg); [apply HR3|done|done|].
  rewrite (bind_bdev _ _ _ _ _ Hr4). set (s4 := with_dev h4 s3). change (hw_mem (hw_of s3)) with (ram s3) in HM4.
  assert (ready fl s4) as HR4.
  { apply (ready_low fl s3 s4 (λ _, hw_mem h4)); [done|done|by destruct HK4|]. intros a Ha. apply HM4.
    change wrv with 0x80000467. change (KERNBASE + EXTMEM) with 0x80100000 in Ha. lia. }
  assert (copied (ram s4)) as Hc4.
  { apply (copied_frame (ram s)); [|done]. intros b Hb. change code with 0x80007000 in Hb. change (ram s4) with (hw_mem h4).
    rewrite HM4; [change wrv with 0x80000467; lia|]. change (ram s3) with (f (ram s2)).
    rewrite /f /store_words !byte_store32_out; [change code with 0x80007000; lia..|]. change (ram s2) with (mem_bytes (k_mem k2)). by rewrite Hbytes -Er. }
  rewrite await_Ok; [exact Hc4| |].
  { change (hw_hist (Ide.i_hw (b_ist s4))) with (hw_hist h4). change (cpus (Ide.i_hw (b_ist s4))) with (cpus h4). by rewrite (hk_cpus _ _ HK4). }
  eexists. split; [reflexivity|]. split; [by destruct HR4|]. split; [exact Hc4|]. cbn [b_booted set_booted].
  change (ram s4) with (hw_mem h4).
  assert (∀ o, 4 ≤ o ≤ 12 → load32 (hw_mem h4) (code - o) = load32 (ram s3) (code - o)) as Hl.
  { intros o Ho. apply load32_frame. intros b Hb. apply HM4. change wrv with 0x80000467. change code with 0x80007000 in Hb. lia. }
  rewrite !Hl; [lia..|]. change (ram s3) with (store_words code (v + KSTACKSIZE) mpenter_ (V2P entrypgdir_) (ram s2)).
  destruct (store_words_load code (v + KSTACKSIZE) mpenter_ (V2P entrypgdir_) (ram s2)) as (-> & -> & ->).
  change (b_booted s4) with (b_booted s1). rewrite Eb.
  assert (u32 (V2P entrypgdir_) = V2P entrypgdir_) as -> by (apply u32_id, u32_bound). reflexivity.
Qed.

(** The processors to start, of the first [n]. *)
Definition others (n : nat) : list nat := filter (.≠ self) (seq 0 n).

Lemma others_S n : others (S n) = others n ++ (if bool_decide (n = self) then [] else [n]).
Proof. rewrite /others seq_S filter_app. f_equal. rewrite filter_cons. case_decide; case_bool_decide; done. Qed.

Lemma starts_Ok n fl s :
  ready fl s → copied (ram s) → (n ≤ length ids)%nat → (length (others n) ≤ length fl)%nat →
  ∃ s', for_each (seq 0 n) start s = Ok () s' ∧ ready (drop (length (others n)) fl) s' ∧ copied (ram s') ∧
    ∀ j k v, others n !! j = Some k → fl !! j = Some v →
      b_booted s' !! k = Some (u32 (v + KSTACKSIZE), u32 mpenter_, V2P entrypgdir_).
Proof.
  intros HR Hc Hn Hlen. induction n as [|n IH]; [by exists s|]. rewrite others_S in Hlen |- *. rewrite length_app in Hlen |- *.
  destruct IH as (s1 & Hr1 & HR1 & Hc1 & Hb1); [lia..|]. rewrite seq_S. setoid_rewrite (for_each_app _ _ _ _ _ Hr1). cbn [Nat.add for_each].
  case_bool_decide as Hne; [subst n|]; cbn [length] in Hlen |- *.
  - destruct (start_one_self _ s1 HR1) as (s2 & Hr2 & HR2 & Er & Eb). exists s2. rewrite (bind_Ok _ _ _ _ _ Hr2) Nat.add_0_r app_nil_r.
    split_and!; [done|done|by rewrite Er|]. by rewrite Eb.
  - destruct (drop (length (others n)) fl) as [|v fl'] eqn:Ed.
    { apply (f_equal length) in Ed. rewrite length_drop /= in Ed. lia. }
    destruct (start_one_other fl' v n s1 HR1 Hc1 Hne) as (s2 & Hr2 & HR2 & Hc2 & Eb); [lia|].
    exists s2. rewrite (bind_Ok _ _ _ _ _ Hr2). split_and!; [done| |done|].
    + rewrite -drop_drop Ed. done.
    + intros j k w Hj Hw. rewrite Eb. apply lookup_app_Some in Hj as [Hj|[Hj1 Hj]].
      * rewrite lookup_insert_ne; [|by apply (Hb1 j)]. intros <-. apply list_elem_of_lookup_2, list_elem_of_filter in Hj as [_ Hj%elem_of_seq]. lia.
      * apply list_lookup_singleton_Some in Hj as [Hj2 <-]. rewrite lookup_insert_eq.
        assert (j = length (others n)) as -> by lia. pose proof (f_equal (.!! 0%nat) Ed) as E0. rewrite lookup_drop Nat.add_0_r Hw in E0.
        by injection E0 as ->.
Qed.

(** C35: startothers() starts every other processor, with a stack of its own, given that a
    processor begins to execute where the universal startup algorithm tells it to. When
    there are free pages for all of them, each of the other processors runs the copy of
    entryother.S and finds below it the top of a page taken from the allocator, no two of
    them the same, the address of mpenter() and that of the page directory it is to use. *)
Theorem startothers_correct fl s :
  let ks := others (length ids) in
  ready fl s → (length ks ≤ length fl)%nat →
  ∃ s', startothers entrypgdir_ mpenter_ entryother_ size_ begins s = Ok () s' ∧ kmem_inv end_ (drop (length ks) fl) (kst s') ∧
    ∀ j k, ks !! j = Some k → ∃ v, fl !! j = Some v ∧ page_ok end_ v ∧ (∀ j', fl !! j' = Some v → j' = j) ∧
      b_booted s' !! k = Some (v + KSTACKSIZE, u32 mpenter_, V2P entrypgdir_).
Proof.
  intros ks HR Hlen. pose proof image_size as Hsz. rewrite /startothers.
  assert (u32 size_ = size_) as -> by (apply u32_id; rewrite /EXTMEM in Hsz; lia).
  set (f := λ m, memmove m code entryother_ size_). set (s1 := set_k (set_bytes_of f (kst s)) s).
  rewrite (bind_bkern _ _ s () (set_bytes_of f (kst s))) //. fold s1. rewrite bind_gets.
  assert (ready fl s1) as HR1.
  { apply (ready_low fl s s1 f); [done|done|by split|]. intros a Ha. rewrite /f byte_memmove; [lia|].
    rewrite bool_decide_eq_false_2 //. change code with 0x80007000. rewrite /KERNBASE /EXTMEM in Ha, Hsz. lia. }
  assert (copied (ram s1)) as Hc1.
  { intros i Hi. change (ram s1) with (f (ram s)). pose proof image_high as Hh. rewrite /KERNBASE /EXTMEM in Hh, Hsz.
    rewrite /f !byte_memmove; [lia..|]. change code with 0x80007000.
    rewrite bool_decide_eq_true_2; [lia|]. rewrite bool_decide_eq_false_2; [lia|]. f_equal. lia. }
  rewrite (re_ncpu _ _ HR1) Nat2Z.id. destruct (starts_Ok (length ids) fl s1 HR1 Hc1 (le_n _) Hlen) as (s2 & Hr2 & HR2 & _ & Hb).
  exists s2. split_and!; [done|apply HR2|]. intros j k Hj. pose proof (lookup_lt_Some _ _ _ Hj).
  destruct (lookup_lt_is_Some_2 fl j) as [v Hv]; [fold ks in Hlen; lia|]. destruct (re_mem _ _ HR) as [_ Hnd Hpg].
  assert (page_ok end_ v) as Hpv by by apply (Forall_lookup_1 _ _ _ _ Hpg Hv).
  exists v. split_and!; [done|done|intros j' Hj'; by apply (NoDup_lookup _ _ _ _ Hnd Hj' Hv)|].
  rewrite (Hb j k v Hj Hv). do 3 f_equal. apply u32_id. pose proof (page_ok_bound end_ v Hpv). rewrite /KSTACKSIZE. rewrite /PGSIZE in H1. lia.
Qed.

End others.

(** ** Three processors *)

#[local] Instance demo_lapic : Devices := {| port_in _ _ := 0; port_ins _ _ n := replicate (4 * n) 0; reg_load _ _ := 0 |}.

Definition demo_bst (k : kstate) : bst :=
  Bst (Ide.Ist k (Hwst [] ∅ irqmask_init 0xFEE00000 true 3 [0; 1; 2] 2) None ∅ false) (Pcpu [] [] 0 0 ∅) [] [] ∅.

(** A processor that waits for INIT, then for STARTUP, and then runs: [None] while it
    waits for INIT, [Some None] while it waits for STARTUP. *)
Definition ap_step (a : Z) (x : option (option Z)) (m : Z * Z) : option (option Z) :=
  if negb (m.1 =? a) then x
  else if Z.land m.2 0x700 =? INIT then Some None
  else match x with
       | Some None => if Z.land m.2 0x700 =? STARTUP then Some (Some (Z.shiftl (Z.land m.2 0xff) 12)) else x
       | _ => x
       end.

Definition demo_begins (h : list access) (a : Z) : option Z :=
  match foldl (ap_step a) None (ipis 0xFEE00000 h) with Some (Some p) => Some p | _ => None end.

Lemma demo_startup h sent a v :
  0 ≤ v < 256 →
  ipis 0xFEE00000 h = sent ++ [(a, Z.lor (Z.lor INIT LEVEL) ASSERT); (a, Z.lor INIT LEVEL); (a, Z.lor STARTUP v); (a, Z.lor STARTUP v)] →
  demo_begins h a = Some (Z.shiftl v 12).
Proof.
  intros Hv E. rewrite /demo_begins E foldl_app. cbn [foldl]. rewrite /ap_step /= Z.eqb_refl /=.
  assert (Z.land (Z.lor STARTUP v) 0x700 = STARTUP ∧ Z.land (Z.lor STARTUP v) 0xff = v) as [-> ->]; [|done].
  assert (Z.land v 0x700 = 0 ∧ Z.land v 0xff = v) as [E1 E2].
  { change 0xff with (Z.ones 8). rewrite Z.land_ones // Z.mod_small; [done|]. split; [|done].
    change 0x700 with (Z.shiftl 7 8). apply Z.bits_inj'. intros i Hi. rewrite Z.land_spec Z.bits_0.
    destruct (Z.lt_ge_cases i 8); [rewrite Z.shiftl_spec_low // andb_false_r //|].
    rewrite (Z.bits_above_log2 v); [lia| |done]. destruct (decide (v = 0)) as [->|]; [simpl; lia|].
    apply Z.log2_lt_pow2; [lia|]. apply (Z.lt_le_trans _ (2 ^ 8)); [simpl; lia|]. apply Z.pow_le_mono_r; lia. }
  rewrite !Z.land_lor_distr_l E1 E2 /STARTUP /=. by destruct v.
Qed.

Lemma startothers_correct_witness :
  ∃ k s', startothers 0x80109000 0x80103000 0x8010b000 144 demo_begins (demo_bst k) = Ok () s' ∧
    b_booted s' !! 2%nat = Some (0x8010e000, 0x80103000, 0x109000).
Proof.
  destruct demo_mem_ok as [Hk Ha]. revert Hk Ha. generalize demo_mem. intros k Hk Ha.
  destruct (startothers_correct demo_end 0xFEE00000 [0; 1; 2] 0) with (entrypgdir_ := 0x80109000) (mpenter_ := 0x80103000)
    (begins := demo_begins) (entryother_ := 0x8010b000) (size_ := 144) (fl := demo_fl) (s := demo_bst k) as (s' & Hr & _ & Hb).
  - done.
  - apply (bool_decide_unpack _). by vm_compute.
  - done.
  - intros j a Hj. apply list_elem_of_lookup_2 in Hj. set_solver by lia.
  - by vm_compute.
  - exact demo_startup.
  - by vm_compute.
  - by vm_compute.
  - by split.
  - by vm_compute; lia.
  - exists k, s'. split; [exact Hr|]. destruct (Hb 1%nat 2%nat) as (v & Hv & _ & _ & E); [done|]. rewrite E.
    vm_compute in Hv. injection Hv as <-. by vm_compute.
Defined.
