(* ===== verification/Shape.v ===== *)
(** * The kernel's tables keep their shape

    Every C array of the kernel has a fixed number of elements and every pointer
    between its tables points into one. [shape] states it of the whole state, and
    [keeps R m Q] that a computation preserves it, relates the states it starts
    and stops in by [R] and returns a value satisfying [Q], whether it runs to its
    end or is suspended. This file has the rules for the control structures and
    the statements of the data, and the lemmas of the locks, the scheduler, the
    buffer cache, the log, the console and the memory; ShapeFs.v and ShapeSys.v go up to the
    system calls. *)

From S2P Require Import Prelude Param Bytes String State Spinlock Sched Sleeplock Bio Memide Log Kalloc Vm Fs Console Pipe File Proc.

Create HintDb keeps discriminated.
#[global] Hint Constants Opaque : keeps.

(** ** The shape *)

(** A pointer that is null or points into a table of [n] elements. *)
Definition points (n : nat) (o : option nat) : Prop := ∀ i, o = Some i → (i < n)%nat.

Record proc_ok (p : proc) : Prop := {
  pk_parent : points NPROC (p_parent p);
  pk_cwd : points NINODE (p_cwd p);
  pk_ofile : length (p_ofile p) = NOFILE;
  pk_files : Forall (points NFILE) (p_ofile p);
  pk_name : (length (p_name p) ≤ 15)%nat;
  pk_pending : length (p_pending p) = NUMSIG;
  pk_handlers : length (p_sighandlers p) = NUMSIG
}.

Record buf_ok (b : buf) : Prop := {
  bk_prev : (b_prev b ≤ NBUF)%nat;
  bk_next : (b_next b ≤ NBUF)%nat;
  bk_data : length (b_data b) = 512%nat
}.

Definition ino_ok (x : inode) : Prop := length (i_addrs x) = 13%nat.
Definition file_ok (x : file) : Prop := points NINODE (f_ip x).
Definition pipe_ok (x : pipe) : Prop := length (pi_data x) = 512%nat.
Definition block_ok (d : list Z) : Prop := length d = 512%nat.
Definition cons_sized (x : cons_st) : Prop := length (input_buf x) = 128%nat ∧ length (crt x) = 2000%nat.

(** A table of [n] elements that all satisfy [P]. *)
Definition table {A} (n : nat) (P : A → Prop) (l : list A) : Prop := length l = n ∧ Forall P l.

Record shape (s : kstate) : Prop := {
  sh_cur : points NPROC (k_proc s);
  sh_procs : table NPROC proc_ok (procs s);
  sh_init : points NPROC (pt_initproc (k_pt s));
  sh_bufs : table (S NBUF) buf_ok (bufs s);
  sh_disk : map_Forall (λ _, block_ok) (dk_blocks (k_bio s));
  sh_log : length (lh_block (log_lh (k_log s))) = Z.to_nat LOGSIZE;
  sh_inodes : table NINODE ino_ok (inodes s);
  sh_files : table NFILE file_ok (files s);
  sh_pipes : map_Forall (λ _, pipe_ok) (pipes s);
  sh_cons : cons_sized (cons_of s)
}.

Lemma shape_boot : shape boot_state.
Proof.
  split; try done; try (split; [done|by apply Forall_replicate]); try by intros ??.
  - split; [done|]. apply Forall_replicate.
    split; try done; [by apply (Forall_replicate (points NFILE) NOFILE None)|by apply Nat.leb_le].
  - split; [done|]. apply Forall_replicate. split; simpl; try done; lia.
Qed.

(** ** What a computation leaves alone *)

(** The part of a process that only fork(), exec(), exit(), the signal calls and
    the calls on its descriptors change: everything but its scheduling state and
    what exec() resets before it is sure to succeed. *)
Definition image (p : proc) :=
  (p_sz p, p_pgdir p, p_kstack p, p_pid p, p_parent p, p_tf p, p_context p,
   (p_ofile p, p_cwd p, p_name p, p_pending p, p_sighandlers p, p_tfToRestore p, p_alarm_ticks_num p)).

Definition same_images (s s' : kstate) : Prop :=
  k_proc s' = k_proc s ∧ image <$> procs s' = image <$> procs s.

#[export] Instance same_images_pre : PreOrder same_images.
Proof. split; [done|]. intros s1 s2 s3 [H1 H2] [H3 H4]. split; congruence. Qed.

(** A relation that holds at least when no process changes its image. *)
Class Frame (R : relation kstate) := {
  frame_pre :: PreOrder R;
  frame_images s s' : same_images s s' → R s s'
}.

Definition anything (s s' : kstate) : Prop := True.

#[export] Instance frame_same : Frame same_images.
Proof. by split; [apply _|]. Qed.
#[export] Instance frame_anything : Frame anything.
Proof. by split; [split|]. Qed.
#[export] Hint Resolve frame_same frame_anything : keeps.

(** ** Rules *)

Definition keeps (R : relation kstate) {A} (m : K A) (Q : A → Prop) : Prop :=
  ∀ s, shape s →
  match m s with
  | Ok a s' => shape s' ∧ R s s' ∧ Q a
  | Switch _ s' => shape s' ∧ R s s'
  | _ => True
  end.

Abbreviation safe R m := (keeps R m (λ _, True)).

Section rules.
Context {R : relation kstate} `{!Frame R}.

Lemma keeps_ret {A} (a : A) (Q : A → Prop) : Q a → keeps R (mret a) Q.
Proof. intros HQ s Hs. exact (conj Hs (conj (reflexivity s) HQ)). Qed.

Lemma keeps_panic {A} msg (Q : A → Prop) : keeps R (panic msg) Q.
Proof. by intros s _. Qed.

Lemma keeps_fault {A} a (Q : A → Prop) : keeps R (fault a) Q.
Proof. by intros s _. Qed.

Lemma keeps_spin {A} (Q : A → Prop) : keeps R spin Q.
Proof. by intros s _. Qed.

Lemma keeps_nofuel {A} (Q : A → Prop) : keeps R nofuel Q.
Proof. by intros s _. Qed.

Lemma keeps_mono {A} (m : K A) (P Q : A → Prop) : keeps R m P → (∀ a, P a → Q a) → keeps R m Q.
Proof. intros H HPQ s Hs. specialize (H s Hs). destruct (m s); naive_solver. Qed.

Lemma keeps_bind {A B} (P : A → Prop) (m : K A) (f : A → K B) Q :
  keeps R m P → (∀ a, P a → keeps R (f a) Q) → keeps R (m ≫= f) Q.
Proof.
  intros Hm Hf s Hs. specialize (Hm s Hs). rewrite /mbind /M_bind.
  destruct (m s) as [a s1| |why s1| | |]; try done.
  destruct Hm as (Hs1 & H1 & Ha). specialize (Hf a Ha s1 Hs1).
  destruct (f a s1) as [b s2| |why s2| | |]; try done.
  - destruct Hf as (? & ? & ?). split_and!; [done|by transitivity s1|done].
  - destruct Hf. split; [done|by transitivity s1].
Qed.

Lemma keeps_gets {A} (g : kstate → A) (Q : A → Prop) :
  (∀ s, shape s → Q (g s)) → keeps R (gets g) Q.
Proof. intros H s Hs. exact (conj Hs (conj (reflexivity s) (H s Hs))). Qed.

Lemma keeps_gets_bind {A B} (g : kstate → A) (f : A → K B) Q :
  (∀ s, shape s → keeps R (f (g s)) Q) → keeps R (gets g ≫= f) Q.
Proof. intros H s Hs. exact (H s Hs s Hs). Qed.

Lemma keeps_modify (f : kstate → kstate) :
  (∀ s, shape s → shape (f s) ∧ R s (f s)) → safe R (modify f).
Proof. intros H s Hs. destruct (H s Hs) as [H1 H2]. exact (conj H1 (conj H2 I)). Qed.

(** A statement that touches no process. *)
Lemma keeps_modify_data (f : kstate → kstate) :
  (∀ s, shape s → shape (f s)) → (∀ s, k_proc (f s) = k_proc s) → (∀ s, procs (f s) = procs s) →
  safe R (modify f).
Proof.
  intros H Hp Hpt. apply keeps_modify. intros s Hs. split; [by apply H|].
  apply frame_images. by rewrite /same_images Hp Hpt.
Qed.

Lemma keeps_when b (m : K unit) : (b = true → safe R m) → safe R (when b m).
Proof. intros H. destruct b; [by apply H|by apply keeps_ret]. Qed.

Lemma keeps_for_each {I} (l : list I) body :
  (∀ i, i ∈ l → safe R (body i)) → safe R (for_each l body).
Proof.
  induction l as [|i l IH]; intros H; simpl; [by apply keeps_ret|].
  eapply keeps_bind; [by apply H; left|]. intros _ _. apply IH. intros j Hj. apply H. by right.
Qed.

Lemma keeps_scan {I A} (l : list I) (body : I → K (option A)) (Q : A → Prop) :
  (∀ i, i ∈ l → keeps R (body i) (λ o, ∀ a, o = Some a → Q a)) →
  keeps R (scan l body) (λ o, ∀ a, o = Some a → Q a).
Proof.
  induction l as [|i l IH]; intros H; simpl; [by apply keeps_ret|].
  eapply keeps_bind; [by apply H; left|]. intros [a|] Ha.
  - by apply keeps_ret.
  - apply IH. intros j Hj. apply H. by right.
Qed.

Lemma keeps_loop {X A} (P : X → Prop) fuel (body : X → K (X + A)) x (Q : A → Prop) :
  P x → (∀ x, P x → keeps R (body x) (λ r, match r with inl x' => P x' | inr a => Q a end)) →
  keeps R (loop fuel body x) Q.
Proof.
  intros Hx H. revert x Hx. induction fuel as [|fuel IH]; intros x Hx; simpl; [apply keeps_nofuel|].
  eapply keeps_bind; [by apply H|]. intros [x'|a] Hr; [by apply IH|by apply keeps_ret].
Qed.

Lemma safe_scan {I A} (l : list I) (body : I → K (option A)) :
  (∀ i, i ∈ l → safe R (body i)) → safe R (scan l body).
Proof.
  intros H. eapply keeps_mono; [apply (keeps_scan _ _ (λ _, True))|done].
  intros i Hi. eapply keeps_mono; [by apply H|done].
Qed.

Lemma safe_loop {X A} fuel (body : X → K (X + A)) x :
  (∀ x, safe R (body x)) → safe R (loop fuel body x).
Proof.
  intros H. apply (keeps_loop (λ _, True)); [done|]. intros y _. eapply keeps_mono; [apply H|by intros []].
Qed.

End rules.

(** ** Tables and single statements *)

Lemma table_alter {A} n (P : A → Prop) l f i :
  (∀ x, P x → P (f x)) → table n P l → table n P (alter f i l).
Proof. intros Hf [Hl HP]. split; [by rewrite length_alter|]. apply Forall_alter; eauto. Qed.

Lemma table_fmap {A} n (P : A → Prop) l f :
  (∀ x, P x → P (f x)) → table n P l → table n P (f <$> l).
Proof. intros Hf [Hl HP]. split; [by rewrite length_fmap|]. apply Forall_fmap. exact (Forall_impl _ _ _ HP Hf). Qed.

Lemma table_lookup {A} n (P : A → Prop) l i x :
  table n P l → l !! i = Some x → (i < n)%nat ∧ P x.
Proof.
  intros [<- HP] Hi. exact (conj (lookup_lt_Some _ _ _ Hi) (Forall_lookup_1 _ _ _ _ HP Hi)).
Qed.

Lemma fmap_alter_same {A B} (g : A → B) f i (l : list A) :
  (∀ x, g (f x) = g x) → g <$> alter f i l = g <$> l.
Proof.
  intros Hf. apply list_eq. intros k. rewrite !list_lookup_fmap. destruct (decide (k = i)) as [->|Hne].
  - rewrite list_lookup_alter_eq. destruct (l !! i); [|done]. by rewrite /= Hf.
  - rewrite list_lookup_alter_ne //; congruence.
Qed.

Lemma points_None n : points n None.
Proof. by intros i. Qed.
Lemma points_Some n i : (i < n)%nat → points n (Some i).
Proof. by intros H j [= <-]. Qed.
Lemma points_inv n i : points n (Some i) → (i < n)%nat.
Proof. by intros H; apply H. Qed.
Lemma points_insert n l fd o :
  Forall (points n) l → points n o → Forall (points n) (<[fd := o]> l).
Proof. intros. by apply Forall_insert. Qed.
#[export] Hint Resolve points_None points_Some points_insert : keeps.
#[export] Hint Extern 4 (_ < _)%nat => eapply points_inv; eassumption : keeps.

Section statements.
Context {R : relation kstate} `{!Frame R}.

(** Registers, locks, the clock and the bytes of memory have no shape. *)
Lemma keeps_plain (f : kstate → kstate) :
  (∀ s, k_proc (f s) = k_proc s) → (∀ s, k_pt (f s) = k_pt s) → (∀ s, k_bio (f s) = k_bio s) →
  (∀ s, k_log (f s) = k_log s) → (∀ s, k_fs (f s) = k_fs s) → (∀ s, k_files (f s) = k_files s) →
  (∀ s, cons_of (f s) = cons_of s) → safe R (modify f).
Proof.
  intros H1 H2 H3 H4 H5 H6 H7. apply keeps_modify_data; [|done|by intros s; rewrite /procs H2].
  intros s []. split; rewrite /procs /bufs /inodes /files /pipes ?H1 ?H2 ?H3 ?H4 ?H5 ?H6 ?H7 //.
Qed.

(** A table of elements accessed by index; an index out of range is a fault. *)
Lemma keeps_lookup {A} (g : kstate → list A) n (P : A → Prop) i :
  (∀ s, shape s → table n P (g s)) →
  keeps R (l ← gets g; match l !! i with Some x => mret x | None => fault 0 end)
    (λ x, (i < n)%nat ∧ P x).
Proof.
  intros H. apply keeps_gets_bind. intros s Hs. destruct (g s !! i) eqn:Hi; [|apply keeps_fault].
  apply keeps_ret. exact (table_lookup _ _ _ _ _ (H s Hs) Hi).
Qed.

Lemma keeps_getproc i : keeps R (getproc i) (λ p, (i < NPROC)%nat ∧ proc_ok p).
Proof. apply keeps_lookup, sh_procs. Qed.

Lemma keeps_getbuf i : keeps R (getbuf i) (λ b, (i < S NBUF)%nat ∧ buf_ok b).
Proof. apply keeps_lookup, sh_bufs. Qed.

Lemma keeps_getino i : keeps R (getino i) (λ x, (i < NINODE)%nat ∧ ino_ok x).
Proof. apply keeps_lookup, sh_inodes. Qed.

Lemma keeps_getfile i : keeps R (getfile i) (λ x, (i < NFILE)%nat ∧ file_ok x).
Proof. apply keeps_lookup, sh_files. Qed.

Lemma keeps_cur : keeps R cur (λ i, (i < NPROC)%nat).
Proof.
  apply keeps_gets_bind. intros s Hs. destruct (k_proc s) as [i|] eqn:Hi; [|apply keeps_fault].
  apply keeps_ret. by apply (sh_cur s Hs).
Qed.

Lemma keeps_getpipe p : keeps R (getpipe p) pipe_ok.
Proof.
  apply keeps_gets_bind. intros s Hs. destruct (pipes s !! p) eqn:Hp; [|apply keeps_fault].
  apply keeps_ret. exact (sh_pipes s Hs _ _ Hp).
Qed.

Lemma keeps_updbuf i f : (∀ b, buf_ok b → buf_ok (f b)) → safe R (updbuf i f).
Proof.
  intros Hf. apply keeps_modify_data; [|done..]. intros s []. split; try done. by apply table_alter.
Qed.

Lemma keeps_updino i f : (∀ x, ino_ok x → ino_ok (f x)) → safe R (updino i f).
Proof.
  intros Hf. apply keeps_modify_data; [|done..]. intros s []. split; try done. by apply table_alter.
Qed.

Lemma keeps_updfile i f : (∀ x, file_ok x → file_ok (f x)) → safe R (updfile i f).
Proof.
  intros Hf. apply keeps_modify_data; [|done..]. intros s []. split; try done. by apply table_alter.
Qed.

Lemma keeps_setpipe p x : pipe_ok x → safe R (setpipe p x).
Proof.
  intros Hx. apply keeps_modify_data; [|done..]. intros s []. split; try done.
  by apply map_Forall_insert_2.
Qed.

Lemma keeps_delete_pipe p : safe R (modify (λ s, set_pipes (delete p (pipes s)) s)).
Proof.
  apply keeps_modify_data; [|done..]. intros s []. split; try done. by apply map_Forall_delete.
Qed.

Lemma keeps_updlog f :
  (∀ l, length (lh_block (log_lh l)) = Z.to_nat LOGSIZE →
        length (lh_block (log_lh (f l))) = Z.to_nat LOGSIZE) → safe R (updlog f).
Proof. intros Hf. apply keeps_modify_data; [|done..]. intros s []. split; try done. by apply Hf. Qed.

Lemma keeps_updcons f : (∀ x, cons_sized x → cons_sized (f x)) → safe R (updcons f).
Proof. intros Hf. apply keeps_modify_data; [|done..]. intros s []. split; try done. by apply Hf. Qed.

Lemma keeps_setsb sb : safe R (setsb sb).
Proof. apply keeps_modify_data; [|done..]. by intros s []. Qed.

Lemma keeps_disk_write b : buf_ok b → safe R (modify (disk_write b)).
Proof.
  intros Hb. apply keeps_modify_data; [|done..]. intros s []. split; try done.
  apply map_Forall_insert_2; [apply Hb|done].
Qed.

Lemma keeps_nextpid v : safe R (modify (λ s, set_pt (Ptable (procs s) v (pt_initproc (k_pt s))) s)).
Proof. apply keeps_modify_data; [|done..]. by intros s []. Qed.

Lemma keeps_initproc o :
  points NPROC o → safe R (modify (λ s, set_pt (Ptable (procs s) (pt_nextpid (k_pt s)) o) s)).
Proof. intros Ho. apply keeps_modify_data; [|done..]. by intros s []. Qed.

Lemma keeps_set_proc o : points NPROC o → safe anything (modify (set_proc o)).
Proof. intros Ho. apply keeps_modify. intros s []. split; [|done]. by split. Qed.

(** Changes of scheduling state only. *)
Lemma keeps_updproc_quiet i f :
  (∀ p, image (f p) = image p) → (∀ p, proc_ok p → proc_ok (f p)) → safe R (updproc i f).
Proof.
  intros Hi Hf. apply keeps_modify. intros s Hs. split.
  - destruct Hs. split; try done. by apply table_alter.
  - apply frame_images. split; [done|]. by apply fmap_alter_same.
Qed.
End statements.

(** Any well-formed change of a process. *)
Lemma keeps_updproc i f : (∀ p, proc_ok p → proc_ok (f p)) → safe anything (updproc i f).
Proof.
  intros Hf. apply keeps_modify. intros s []. split; [|done]. split; try done. by apply table_alter.
Qed.

(** ** Automation *)

#[export] Hint Resolve keeps_getproc keeps_getbuf keeps_getino keeps_getfile keeps_cur keeps_getpipe
  keeps_setsb keeps_delete_pipe keeps_disk_write keeps_nextpid keeps_initproc keeps_set_proc : keeps.

Lemma length_name_copy l : (length (name_copy l) ≤ 15)%nat.
Proof. rewrite /name_copy length_take. lia. Qed.
#[export] Hint Resolve length_name_copy sh_init sh_cur : keeps.

(** An element rebuilt with some fields changed is still well formed. *)
Ltac elem_ok :=
  intros; cbv beta in *;
  repeat match goal with
    | H : proc_ok _ |- _ => destruct H
    | H : buf_ok _ |- _ => destruct H
    | H : _ ∧ _ |- _ => destruct H
    end;
  unfold ino_ok, file_ok, pipe_ok, cons_sized, head in *;
  repeat match goal with H : _ ∧ _ |- _ => destruct H end;
  repeat match goal with
    | |- proc_ok _ => split
    | |- buf_ok _ => split
    | |- _ ∧ _ => split
    end;
  cbn -[length set_bytes replicate name_copy]; autorewrite with bytes; rewrite ?length_insert ?length_alter;
  try solve [done | lia | by eauto with keeps | apply Nat.le_0_l].

Ltac keeps_post :=
  try solve [done | by eauto with keeps | by intros ? [? ?] | intros; simplify_eq/=; split_and?; eauto with keeps].

Ltac keeps_call :=
  first [solve [eauto with keeps nocore] | eapply keeps_mono; [solve [eauto with keeps nocore]|keeps_post]].

(** The value of a call and what its lemma says of it; the index of a loop. *)
Ltac intro_value :=
  let H := fresh "Hv" in
  intros ? H; cbv beta in H;
  lazymatch type of H with True => clear H | _ ∧ _ => destruct H | _ => idtac end.

Ltac intro_index :=
  let H := fresh "Hi" in
  intros ? H; first [apply elem_of_seq in H | idtac].

#[export] Hint Extern 5 (_ < _)%nat => lia : keeps.

(** The proof of a computation: one rule per construct, the lemmas of the
    database for the functions it calls. *)
Ltac keeps_step :=
  cbv beta zeta;
  lazymatch goal with
  | |- keeps _ (mret _) _ => apply keeps_ret; keeps_post
  | |- keeps _ (panic _) _ => apply keeps_panic
  | |- keeps _ (fault _) _ => apply keeps_fault
  | |- keeps _ spin _ => apply keeps_spin
  | |- keeps _ nofuel _ => apply keeps_nofuel
  | |- keeps _ (gets _) _ => apply keeps_gets; intros ? ?; keeps_post
  | |- keeps _ (modify _) _ => first [apply keeps_plain; intros ?; reflexivity | keeps_call]
  | |- keeps _ (gets _ ≫= _) _ => apply keeps_gets_bind; intros ? ?
  | |- keeps _ (mbind (λ x, match x with (_, _) => _ end) _) _ =>
      first [eapply keeps_bind; [solve [eauto with keeps nocore]|] | apply (keeps_bind (λ _, True))];
      [..|intro_value; match goal with |- keeps _ (match ?x with _ => _ end) _ => destruct x end]
  | |- keeps _ (_ ≫= _) _ =>
      first [eapply keeps_bind; [solve [eauto with keeps nocore]|] | apply (keeps_bind (λ _, True))];
      [..|intro_value]
  | |- keeps _ (when _ _) _ => apply keeps_when; intros ?
  | |- keeps _ (for_each _ _) _ => apply keeps_for_each; intro_index
  | |- keeps _ (scan _ _) (λ _, True) => apply safe_scan; intro_index
  | |- keeps _ (loop _ _ _) (λ _, True) => apply safe_loop; intros ?
  | |- keeps _ (updbuf _ _) _ => apply keeps_updbuf; elem_ok
  | |- keeps _ (updino _ _) _ => apply keeps_updino; elem_ok
  | |- keeps _ (updfile _ _) _ => apply keeps_updfile; elem_ok
  | |- keeps _ (updlog _) _ => apply keeps_updlog; elem_ok
  | |- keeps _ (updcons _) _ => apply keeps_updcons; elem_ok
  | |- keeps _ (setpipe _ _) _ => apply keeps_setpipe; elem_ok
  | |- keeps _ (updproc _ _) _ =>
      first [apply keeps_updproc_quiet; [intros ?; reflexivity|elem_ok] | apply keeps_updproc; elem_ok]
  | |- keeps _ (match ?x with _ => _ end) _ => destruct x eqn:?
  | _ => keeps_call
  end.

Ltac keeps_auto := repeat keeps_step.

(** ** Locks and scheduling *)

Lemma keeps_pushcli `{Frame R} : safe R pushcli.
Proof. rewrite /pushcli. keeps_auto. Qed.
#[export] Hint Resolve keeps_pushcli : keeps.

Lemma keeps_popcli `{Frame R} : safe R popcli.
Proof. rewrite /popcli. keeps_auto. Qed.
#[export] Hint Resolve keeps_popcli : keeps.

Lemma keeps_initlock `{Frame R} lk : safe R (initlock lk).
Proof. rewrite /initlock. keeps_auto. Qed.
#[export] Hint Resolve keeps_initlock : keeps.

Lemma keeps_holding `{Frame R} lk : safe R (holding lk).
Proof. rewrite /holding. keeps_auto. Qed.
#[export] Hint Resolve keeps_holding : keeps.

Lemma keeps_acquire `{Frame R} lk : safe R (acquire lk).
Proof. rewrite /acquire. keeps_auto. Qed.
#[export] Hint Resolve keeps_acquire : keeps.

Lemma keeps_release `{Frame R} lk : safe R (release lk).
Proof. rewrite /release. keeps_auto. Qed.
#[export] Hint Resolve keeps_release : keeps.

Lemma keeps_swtch `{Frame R} {A} why (Q : A → Prop) : keeps R (swtch why) Q.
Proof. by intros s Hs; split; [done|reflexivity]. Qed.
#[export] Hint Resolve keeps_swtch : keeps.

Lemma keeps_sched_checks `{Frame R} : safe R sched_checks.
Proof. rewrite /sched_checks. keeps_auto. Qed.
#[export] Hint Resolve keeps_sched_checks : keeps.

Lemma keeps_sched `{Frame R} {A} why (Q : A → Prop) : keeps R (sched why) Q.
Proof. rewrite /sched. keeps_auto. Qed.
#[export] Hint Resolve keeps_sched : keeps.

Lemma keeps_sched_resume `{Frame R} ie : safe R (sched_resume ie).
Proof. rewrite /sched_resume. keeps_auto. Qed.
#[export] Hint Resolve keeps_sched_resume : keeps.

Lemma keeps_sleep `{Frame R} {A} ch lk (Q : A → Prop) : keeps R (sleep ch lk) Q.
Proof. rewrite /sleep. keeps_auto. Qed.
#[export] Hint Resolve keeps_sleep : keeps.

Lemma keeps_sleep_resume `{Frame R} lk ie : safe R (sleep_resume lk ie).
Proof. rewrite /sleep_resume. keeps_auto. Qed.
#[export] Hint Resolve keeps_sleep_resume : keeps.

Lemma keeps_yield `{Frame R} {A} (Q : A → Prop) : keeps R yield Q.
Proof. rewrite /yield. keeps_auto. Qed.
#[export] Hint Resolve keeps_yield : keeps.

Lemma keeps_yield_resume `{Frame R} ie : safe R (yield_resume ie).
Proof. rewrite /yield_resume. keeps_auto. Qed.
#[export] Hint Resolve keeps_yield_resume : keeps.

Lemma wake_image ch p : image (wake ch p) = image p.
Proof. rewrite /wake. by case_bool_decide. Qed.

Lemma wake_ok ch p : proc_ok p → proc_ok (wake ch p).
Proof. rewrite /wake. case_bool_decide; elem_ok. Qed.

Lemma keeps_wakeup1 `{Frame R} ch : safe R (wakeup1 ch).
Proof.
  apply keeps_modify. intros s Hs. split.
  - destruct Hs. split; try done. apply table_fmap; [apply wake_ok|done].
  - apply frame_images. split; [done|]. rewrite -list_fmap_compose.
    apply list_fmap_ext. intros ? p _. apply wake_image.
Qed.
#[export] Hint Resolve keeps_wakeup1 : keeps.

Lemma keeps_wakeup `{Frame R} ch : safe R (wakeup ch).
Proof. rewrite /wakeup. keeps_auto. Qed.
#[export] Hint Resolve keeps_wakeup : keeps.

Lemma keeps_kill `{Frame R} pid : safe R (kill pid).
Proof. rewrite /kill. keeps_auto. Qed.
#[export] Hint Resolve keeps_kill : keeps.

Lemma keeps_initsleeplock `{Frame R} sl : safe R (initsleeplock sl).
Proof. rewrite /initsleeplock. keeps_auto. Qed.
#[export] Hint Resolve keeps_initsleeplock : keeps.

Lemma keeps_acquiresleep_loop `{Frame R} sl : safe R (acquiresleep_loop sl).
Proof. rewrite /acquiresleep_loop. keeps_auto. Qed.
#[export] Hint Resolve keeps_acquiresleep_loop : keeps.

Lemma keeps_acquiresleep `{Frame R} sl : safe R (acquiresleep sl).
Proof. rewrite /acquiresleep. keeps_auto. Qed.
#[export] Hint Resolve keeps_acquiresleep : keeps.

Lemma keeps_acquiresleep_resume `{Frame R} sl ie : safe R (acquiresleep_resume sl ie).
Proof. rewrite /acquiresleep_resume. keeps_auto. Qed.
#[export] Hint Resolve keeps_acquiresleep_resume : keeps.

Lemma keeps_releasesleep `{Frame R} sl : safe R (releasesleep sl).
Proof. rewrite /releasesleep. keeps_auto. Qed.
#[export] Hint Resolve keeps_releasesleep : keeps.

Lemma keeps_holdingsleep `{Frame R} sl : safe R (holdingsleep sl).
Proof. rewrite /holdingsleep. keeps_auto. Qed.
#[export] Hint Resolve keeps_holdingsleep : keeps.

(** ** The buffer cache *)

(** The driver keeps the shape; the memory disk does. *)
Class SafeDriver (R : relation kstate) `{IdeDriver} : Prop := keeps_iderw i : safe R (iderw i).
#[export] Hint Resolve keeps_iderw : keeps.

Lemma keeps_binit_one `{Frame R} b (Hb : (b < NBUF)%nat) : safe R (binit_one b).
Proof. rewrite /binit_one. keeps_auto. Qed.
#[export] Hint Resolve keeps_binit_one : keeps.

Lemma keeps_binit `{Frame R} : safe R binit.
Proof. rewrite /binit. keeps_auto. Qed.
#[export] Hint Resolve keeps_binit : keeps.

(** The functions that read and write blocks. *)

Lemma keeps_bget_hit `{Frame R, SafeDriver R} dev blockno b : safe R (bget_hit dev blockno b).
Proof. rewrite /bget_hit. keeps_auto. Qed.
#[export] Hint Resolve keeps_bget_hit : keeps.

Lemma keeps_bget_recycle `{Frame R, SafeDriver R} dev blockno b : safe R (bget_recycle dev blockno b).
Proof. rewrite /bget_recycle. keeps_auto. Qed.
#[export] Hint Resolve keeps_bget_recycle : keeps.

Lemma keeps_bget `{Frame R, SafeDriver R} dev blockno : safe R (bget dev blockno).
Proof. rewrite /bget. keeps_auto. Qed.
#[export] Hint Resolve keeps_bget : keeps.

Lemma keeps_bread `{Frame R, SafeDriver R} dev blockno : safe R (bread dev blockno).
Proof. rewrite /bread. keeps_auto. Qed.
#[export] Hint Resolve keeps_bread : keeps.

Lemma keeps_bwrite `{Frame R, SafeDriver R} b : safe R (bwrite b).
Proof. rewrite /bwrite. keeps_auto. Qed.
#[export] Hint Resolve keeps_bwrite : keeps.

Lemma keeps_move_front `{Frame R, SafeDriver R} b : safe R (move_front b).
Proof. rewrite /move_front. keeps_auto. Qed.
#[export] Hint Resolve keeps_move_front : keeps.

Lemma keeps_brelse `{Frame R, SafeDriver R} b : safe R (brelse b).
Proof. rewrite /brelse. keeps_auto. Qed.
#[export] Hint Resolve keeps_brelse : keeps.

(** The memory disk is a safe driver. *)
Lemma length_dblock s b : shape s → length (dblock s b) = 512%nat.
Proof.
  intros Hs. rewrite /dblock. destruct (dk_blocks (k_bio s) !! b) eqn:Hb; [|done].
  exact (sh_disk s Hs _ _ Hb).
Qed.
#[export] Hint Resolve length_dblock : keeps.

#[export] Instance safe_memide `{Frame R} : @SafeDriver R Memide.memide.
Proof.
  intros i. rewrite /= /Memide.iderw /Memide.write_block /Memide.read_block. keeps_auto.
Qed.
#[export] Hint Resolve safe_memide : keeps.

(** ** The log *)

Lemma keeps_lh_block_get `{Frame R, SafeDriver R} i : safe R (lh_block_get i).
Proof. rewrite /lh_block_get. keeps_auto. Qed.
#[export] Hint Resolve keeps_lh_block_get : keeps.

Lemma keeps_lh_block_set `{Frame R, SafeDriver R} i b : safe R (lh_block_set i b).
Proof. rewrite /lh_block_set. keeps_auto. Qed.
#[export] Hint Resolve keeps_lh_block_set : keeps.

Lemma keeps_lh_n_set `{Frame R, SafeDriver R} n : safe R (lh_n_set n).
Proof. rewrite /lh_n_set. keeps_auto. Qed.
#[export] Hint Resolve keeps_lh_n_set : keeps.

Lemma keeps_tails `{Frame R, SafeDriver R} : safe R tails.
Proof. rewrite /tails. keeps_auto. Qed.
#[export] Hint Resolve keeps_tails : keeps.

Lemma keeps_copy_data `{Frame R, SafeDriver R} dst src : safe R (copy_data dst src).
Proof. rewrite /copy_data. keeps_auto. Qed.
#[export] Hint Resolve keeps_copy_data : keeps.

Lemma keeps_readsb `{Frame R, SafeDriver R} dev : safe R (readsb dev).
Proof. rewrite /readsb. keeps_auto. Qed.
#[export] Hint Resolve keeps_readsb : keeps.

Lemma keeps_install_one `{Frame R, SafeDriver R} tail : safe R (install_one tail).
Proof. rewrite /install_one. keeps_auto. Qed.
#[export] Hint Resolve keeps_install_one : keeps.

Lemma keeps_install_trans `{Frame R, SafeDriver R} : safe R install_trans.
Proof. rewrite /install_trans. keeps_auto. Qed.
#[export] Hint Resolve keeps_install_trans : keeps.

Lemma keeps_read_head `{Frame R, SafeDriver R} : safe R read_head.
Proof. rewrite /read_head. keeps_auto. Qed.
#[export] Hint Resolve keeps_read_head : keeps.

Lemma keeps_write_head_block `{Frame R, SafeDriver R} buf i : safe R (write_head_block buf i).
Proof. rewrite /write_head_block. keeps_auto. Qed.
#[export] Hint Resolve keeps_write_head_block : keeps.

Lemma keeps_write_head `{Frame R, SafeDriver R} : safe R write_head.
Proof. rewrite /write_head. keeps_auto. Qed.
#[export] Hint Resolve keeps_write_head : keeps.

Lemma keeps_recover_from_log `{Frame R, SafeDriver R} : safe R recover_from_log.
Proof. rewrite /recover_from_log. keeps_auto. Qed.
#[export] Hint Resolve keeps_recover_from_log : keeps.

Lemma keeps_initlog `{Frame R, SafeDriver R} dev : safe R (initlog dev).
Proof. rewrite /initlog. keeps_auto. Qed.
#[export] Hint Resolve keeps_initlog : keeps.

Lemma keeps_write_log_one `{Frame R, SafeDriver R} tail : safe R (write_log_one tail).
Proof. rewrite /write_log_one. keeps_auto. Qed.
#[export] Hint Resolve keeps_write_log_one : keeps.

Lemma keeps_write_log `{Frame R, SafeDriver R} : safe R write_log.
Proof. rewrite /write_log. keeps_auto. Qed.
#[export] Hint Resolve keeps_write_log : keeps.

Lemma keeps_commit `{Frame R, SafeDriver R} : safe R commit.
Proof. rewrite /commit. keeps_auto. Qed.
#[export] Hint Resolve keeps_commit : keeps.

Lemma keeps_begin_op_loop `{Frame R, SafeDriver R} : safe R begin_op_loop.
Proof. rewrite /begin_op_loop. keeps_auto. Qed.
#[export] Hint Resolve keeps_begin_op_loop : keeps.

Lemma keeps_begin_op `{Frame R, SafeDriver R} : safe R begin_op.
Proof. rewrite /begin_op. keeps_auto. Qed.
#[export] Hint Resolve keeps_begin_op : keeps.

Lemma keeps_begin_op_resume `{Frame R, SafeDriver R} ie : safe R (begin_op_resume ie).
Proof. rewrite /begin_op_resume. keeps_auto. Qed.
#[export] Hint Resolve keeps_begin_op_resume : keeps.

Lemma keeps_end_op `{Frame R, SafeDriver R} : safe R end_op.
Proof. rewrite /end_op. keeps_auto. Qed.
#[export] Hint Resolve keeps_end_op : keeps.

Lemma keeps_log_write `{Frame R, SafeDriver R} b : safe R (log_write b).
Proof. rewrite /log_write. keeps_auto. Qed.
#[export] Hint Resolve keeps_log_write : keeps.

(** ** The console *)

Lemma length_cga_place c pos mem : length (cga_place c pos mem).2 = length mem.
Proof. rewrite /cga_place. repeat case_match; simpl; by rewrite ?length_insert. Qed.

Lemma length_cga_scroll pos mem : length (cga_scroll pos mem) = length mem.
Proof. by rewrite /cga_scroll !length_inserts. Qed.

Lemma keeps_uartputc `{Frame R} c : safe R (uartputc c).
Proof. rewrite /uartputc. keeps_auto. Qed.
#[export] Hint Resolve keeps_uartputc : keeps.

Lemma keeps_uartinit `{Frame R} v : safe R (uartinit v).
Proof. rewrite /uartinit. keeps_auto. Qed.
#[export] Hint Resolve keeps_uartinit : keeps.

Lemma keeps_cgaputc `{Frame R} c : safe R (cgaputc c).
Proof.
  rewrite /cgaputc. keeps_step.
  pose proof (length_cga_place c (crt_pos (cons_of s)) (crt (cons_of s))) as Hp.
  destruct (cga_place c _ _) as [pos mem]. keeps_step; [keeps_auto|].
  destruct (pos / COLS >=? 24); keeps_step; rewrite ?length_cga_scroll;
    rewrite Hp; apply sh_cons; done.
Qed.
#[export] Hint Resolve keeps_cgaputc : keeps.

Lemma keeps_consputc `{Frame R} c : safe R (consputc c).
Proof. rewrite /consputc. keeps_auto. Qed.
#[export] Hint Resolve keeps_consputc : keeps.

Lemma keeps_printint `{Frame R} xx base sign : safe R (printint xx base sign).
Proof. rewrite /printint. keeps_auto. Qed.
#[export] Hint Resolve keeps_printint : keeps.

Lemma keeps_cprintf_conv `{Frame R} c args : safe R (cprintf_conv c args).
Proof. rewrite /cprintf_conv. keeps_auto. Qed.
#[export] Hint Resolve keeps_cprintf_conv : keeps.

Lemma keeps_cprintf_loop `{Frame R} fmt args : safe R (cprintf_loop fmt args).
Proof.
  revert args. induction fmt as [fmt IH] using (induction_ltof1 _ length); intros args.
  destruct fmt as [|c fmt]; simpl; [by keeps_auto|]. keeps_step.
  - keeps_step. apply IH. rewrite /ltof /=. lia.
  - destruct fmt as [|c' fmt]; [by keeps_auto|]. keeps_step. apply IH. rewrite /ltof /=. lia.
Qed.
#[export] Hint Resolve keeps_cprintf_loop : keeps.

Lemma keeps_cprintf `{Frame R} fmt args : safe R (cprintf fmt args).
Proof. rewrite /cprintf. keeps_auto. Qed.
#[export] Hint Resolve keeps_cprintf : keeps.

(** ** Memory *)

Lemma keeps_kstore `{Frame R} f : safe R (kstore f).
Proof. rewrite /kstore. keeps_auto. Qed.
#[export] Hint Resolve keeps_kstore : keeps.

Lemma keeps_kload32 `{Frame R} a : safe R (kload32 a).
Proof. rewrite /kload32. keeps_auto. Qed.
#[export] Hint Resolve keeps_kload32 : keeps.

Lemma keeps_set_freelist `{Frame R} r : safe R (set_freelist r).
Proof. rewrite /set_freelist. keeps_auto. Qed.
#[export] Hint Resolve keeps_set_freelist : keeps.

Lemma keeps_set_use_lock `{Frame R} b : safe R (set_use_lock b).
Proof. rewrite /set_use_lock. keeps_auto. Qed.
#[export] Hint Resolve keeps_set_use_lock : keeps.

Lemma keeps_kfree `{Frame R} end_ v : safe R (kfree end_ v).
Proof. rewrite /kfree. keeps_auto. Qed.
#[export] Hint Resolve keeps_kfree : keeps.

Lemma keeps_kalloc `{Frame R} : safe R kalloc.
Proof. rewrite /kalloc. keeps_auto. Qed.
#[export] Hint Resolve keeps_kalloc : keeps.

Lemma keeps_freerange `{Frame R} end_ a b : safe R (freerange end_ a b).
Proof. rewrite /freerange. keeps_auto. Qed.
#[export] Hint Resolve keeps_freerange : keeps.

Lemma keeps_kinit1 `{Frame R} end_ a b : safe R (kinit1 end_ a b).
Proof. rewrite /kinit1. keeps_auto. Qed.
#[export] Hint Resolve keeps_kinit1 : keeps.

Lemma keeps_kinit2 `{Frame R} end_ a b : safe R (kinit2 end_ a b).
Proof. rewrite /kinit2. keeps_auto. Qed.
#[export] Hint Resolve keeps_kinit2 : keeps.

Lemma keeps_vload8 `{Frame R} va : safe R (vload8 va).
Proof. rewrite /vload8. keeps_auto. Qed.
#[export] Hint Resolve keeps_vload8 : keeps.

Lemma keeps_vload32 `{Frame R} va : safe R (vload32 va).
Proof. rewrite /vload32. keeps_auto. Qed.
#[export] Hint Resolve keeps_vload32 : keeps.

Lemma keeps_vaddr_w `{Frame R} va : safe R (vaddr_w va).
Proof. rewrite /vaddr_w. keeps_auto. Qed.
#[export] Hint Resolve keeps_vaddr_w : keeps.

Lemma keeps_vstore32 `{Frame R} va v : safe R (vstore32 va v).
Proof. rewrite /vstore32. keeps_auto. Qed.
#[export] Hint Resolve keeps_vstore32 : keeps.

Lemma keeps_vstore8 `{Frame R} va b : safe R (vstore8 va b).
Proof. rewrite /vstore8. keeps_auto. Qed.
#[export] Hint Resolve keeps_vstore8 : keeps.

Lemma keeps_vcopy_up `{Frame R} d s n : safe R (vcopy_up d s n).
Proof. revert d s. induction n; intros d s; simpl; keeps_auto. Qed.
#[export] Hint Resolve keeps_vcopy_up : keeps.

Lemma keeps_vcopy_down `{Frame R} d s n : safe R (vcopy_down d s n).
Proof. revert d s. induction n; intros d s; simpl; keeps_auto. Qed.
#[export] Hint Resolve keeps_vcopy_down : keeps.

Lemma keeps_vmemmove `{Frame R} d s n : safe R (vmemmove d s n).
Proof. rewrite /vmemmove. keeps_auto. Qed.
#[export] Hint Resolve keeps_vmemmove : keeps.

Lemma keeps_lcr3 `{Frame R} a : safe R (lcr3 a).
Proof. rewrite /lcr3. keeps_auto. Qed.
#[export] Hint Resolve keeps_lcr3 : keeps.

Lemma keeps_walkpgdir `{Frame R} pgdir va alloc : safe R (walkpgdir pgdir va alloc).
Proof. rewrite /walkpgdir. keeps_auto. Qed.
#[export] Hint Resolve keeps_walkpgdir : keeps.

Lemma keeps_mappages_step `{Frame R} pgdir perm last x : safe R (mappages_step pgdir perm last x).
Proof. rewrite /mappages_step. keeps_auto. Qed.
#[export] Hint Resolve keeps_mappages_step : keeps.

Lemma keeps_mappages `{Frame R} pgdir va size pa perm : safe R (mappages pgdir va size pa perm).
Proof. rewrite /mappages. keeps_auto. Qed.
#[export] Hint Resolve keeps_mappages : keeps.

Lemma keeps_setupkvm `{Frame R} data_ : safe R (setupkvm data_).
Proof. rewrite /setupkvm. keeps_auto. Qed.
#[export] Hint Resolve keeps_setupkvm : keeps.

Lemma keeps_switchkvm `{Frame R} : safe R switchkvm.
Proof. rewrite /switchkvm. keeps_auto. Qed.
#[export] Hint Resolve keeps_switchkvm : keeps.

Lemma keeps_kvmalloc `{Frame R} data_ : safe R (kvmalloc data_).
Proof. rewrite /kvmalloc. keeps_auto. Qed.
#[export] Hint Resolve keeps_kvmalloc : keeps.

Lemma keeps_switchuvm `{Frame R} i : safe R (switchuvm i).
Proof. rewrite /switchuvm. keeps_auto. Qed.
#[export] Hint Resolve keeps_switchuvm : keeps.

Lemma keeps_inituvm `{Frame R} pgdir init sz : safe R (inituvm pgdir init sz).
Proof. rewrite /inituvm. keeps_auto. Qed.
#[export] Hint Resolve keeps_inituvm : keeps.

Lemma keeps_deallocuvm_step `{Frame R} end_ pgdir oldsz a : safe R (deallocuvm_step end_ pgdir oldsz a).
Proof. rewrite /deallocuvm_step. keeps_auto. Qed.
#[export] Hint Resolve keeps_deallocuvm_step : keeps.

Lemma keeps_deallocuvm `{Frame R} end_ pgdir oldsz newsz : safe R (deallocuvm end_ pgdir oldsz newsz).
Proof. rewrite /deallocuvm. keeps_auto. Qed.
#[export] Hint Resolve keeps_deallocuvm : keeps.

Lemma keeps_allocuvm_step `{Frame R} end_ pgdir oldsz newsz a :
  safe R (allocuvm_step end_ pgdir oldsz newsz a).
Proof. rewrite /allocuvm_step. keeps_auto. Qed.
#[export] Hint Resolve keeps_allocuvm_step : keeps.

Lemma keeps_allocuvm `{Frame R} end_ pgdir oldsz newsz : safe R (allocuvm end_ pgdir oldsz newsz).
Proof. rewrite /allocuvm. keeps_auto. Qed.
#[export] Hint Resolve keeps_allocuvm : keeps.

Lemma keeps_freevm `{Frame R} end_ pgdir : safe R (freevm end_ pgdir).
Proof. rewrite /freevm. keeps_auto. Qed.
#[export] Hint Resolve keeps_freevm : keeps.

Lemma keeps_clearpteu `{Frame R} pgdir uva : safe R (clearpteu pgdir uva).
Proof. rewrite /clearpteu. keeps_auto. Qed.
#[export] Hint Resolve keeps_clearpteu : keeps.

Lemma keeps_copyuvm_page `{Frame R} pgdir d i : safe R (copyuvm_page pgdir d i).
Proof. rewrite /copyuvm_page. keeps_auto. Qed.
#[export] Hint Resolve keeps_copyuvm_page : keeps.

Lemma keeps_copyuvm `{Frame R} end_ data_ pgdir sz : safe R (copyuvm end_ data_ pgdir sz).
Proof. rewrite /copyuvm. keeps_auto. Qed.
#[export] Hint Resolve keeps_copyuvm : keeps.

Lemma keeps_uva2ka `{Frame R} pgdir uva : safe R (uva2ka pgdir uva).
Proof. rewrite /uva2ka. keeps_auto. Qed.
#[export] Hint Resolve keeps_uva2ka : keeps.

Lemma keeps_copyout_step `{Frame R} pgdir x : safe R (copyout_step pgdir x).
Proof. rewrite /copyout_step. keeps_auto. Qed.
#[export] Hint Resolve keeps_copyout_step : keeps.

Lemma keeps_copyout `{Frame R} pgdir va p len : safe R (copyout pgdir va p len).
Proof. rewrite /copyout. keeps_auto. Qed.
#[export] Hint Resolve keeps_copyout : keeps.
