(* ===== verification/ShapeFs.v ===== *)
(** * The shape of the kernel's tables: files

    The lemmas of Shape.v continued for the file system, the pipes and the
    open files. *)

From S2P Require Import Prelude Param Bytes String State Spinlock Sched Sleeplock Bio Memide Log Kalloc Vm Fs Console Pipe File Shape.

(** ** Blocks and inodes *)

Lemma length_store_dinode x d : length (store_dinode x d) = length d.
Proof. rewrite /store_dinode. by autorewrite with bytes. Qed.

Lemma length_clear_dinode inum type d : length (clear_dinode inum type d) = length d.
Proof. rewrite /clear_dinode. by autorewrite with bytes. Qed.
#[export] Hint Rewrite length_store_dinode length_clear_dinode : bytes.

Lemma keeps_getsb `{Frame R, SafeDriver R} : safe R getsb.
Proof. rewrite /getsb. keeps_auto. Qed.
#[export] Hint Resolve keeps_getsb : keeps.

Lemma keeps_bzero `{Frame R, SafeDriver R} dev bno : safe R (bzero dev bno).
Proof. rewrite /bzero. keeps_auto. Qed.
#[export] Hint Resolve keeps_bzero : keeps.

Lemma keeps_balloc_bit `{Frame R, SafeDriver R} dev bp b bi : safe R (balloc_bit dev bp b bi).
Proof. rewrite /balloc_bit. keeps_auto. Qed.
#[export] Hint Resolve keeps_balloc_bit : keeps.

Lemma keeps_balloc_block `{Frame R, SafeDriver R} dev sb b : safe R (balloc_block dev sb b).
Proof. rewrite /balloc_block. keeps_auto. Qed.
#[export] Hint Resolve keeps_balloc_block : keeps.

Lemma keeps_balloc `{Frame R, SafeDriver R} dev : safe R (balloc dev).
Proof. rewrite /balloc. keeps_auto. Qed.
#[export] Hint Resolve keeps_balloc : keeps.

Lemma keeps_bfree `{Frame R, SafeDriver R} dev b : safe R (Fs.bfree dev b).
Proof. rewrite /Fs.bfree. keeps_auto. Qed.
#[export] Hint Resolve keeps_bfree : keeps.

Lemma keeps_iinit `{Frame R, SafeDriver R} dev : safe R (iinit dev).
Proof. rewrite /iinit. keeps_auto. Qed.
#[export] Hint Resolve keeps_iinit : keeps.

(** iget() finds a slot of the table. *)
Lemma iget_scan_range dev inum l i empty :
  points (i + length l) empty →
  match iget_scan dev inum l i empty with
  | inl j => (j < i + length l)%nat
  | inr o => points (i + length l) o
  end.
Proof.
  revert i empty. induction l as [|x l IH]; intros i empty He; simpl; [done|].
  destruct (_ && _); [lia|]. rewrite -Nat.add_succ_comm. apply IH.
  rewrite Nat.add_succ_comm. destruct empty; [done|]. destruct (i_ref x =? 0); [|done].
  intros j [= <-]. lia.
Qed.

Lemma iget_slot dev inum s :
  shape s →
  match iget_scan dev inum (inodes s) 0 None with
  | inl j => (j < NINODE)%nat
  | inr o => points NINODE o
  end.
Proof.
  intros Hs. pose proof (iget_scan_range dev inum (inodes s) 0 None (points_None _)) as H.
  simpl in H. by rewrite (proj1 (sh_inodes s Hs)) in H.
Qed.

Lemma keeps_iget `{Frame R, SafeDriver R} dev inum : keeps R (iget dev inum) (λ i, (i < NINODE)%nat).
Proof.
  rewrite /iget. keeps_step. keeps_step. pose proof (iget_slot dev inum s H2) as Hr.
  destruct (iget_scan dev inum (inodes s) 0 None) as [j|[j|]].
  - keeps_auto.
  - keeps_auto.
  - keeps_auto.
Qed.
#[export] Hint Resolve keeps_iget : keeps.

Lemma keeps_ialloc_one `{Frame R, SafeDriver R} dev type sb inum :
  keeps R (ialloc_one dev type sb inum) (points NINODE).
Proof. rewrite /ialloc_one. keeps_auto. Qed.
#[export] Hint Resolve keeps_ialloc_one : keeps.

Lemma keeps_ialloc `{Frame R, SafeDriver R} dev type : keeps R (ialloc dev type) (λ i, (i < NINODE)%nat).
Proof.
  rewrite /ialloc. keeps_step. eapply keeps_bind.
  - apply (keeps_scan _ _ (λ i, (i < NINODE)%nat)). intros. apply keeps_ialloc_one.
  - intros [ip|] Hip; keeps_auto.
Qed.
#[export] Hint Resolve keeps_ialloc : keeps.

Lemma keeps_iupdate `{Frame R, SafeDriver R} ip : safe R (iupdate ip).
Proof. rewrite /iupdate. keeps_auto. Qed.
#[export] Hint Resolve keeps_iupdate : keeps.

Lemma keeps_idup `{Frame R, SafeDriver R} ip : keeps R (idup ip) (λ r, r = ip).
Proof. rewrite /idup. keeps_auto. Qed.
#[export] Hint Resolve keeps_idup : keeps.

Lemma keeps_ilock `{Frame R, SafeDriver R} ip : safe R (ilock ip).
Proof. rewrite /ilock. keeps_auto. Qed.
#[export] Hint Resolve keeps_ilock : keeps.

Lemma keeps_iunlock `{Frame R, SafeDriver R} ip : safe R (iunlock ip).
Proof. rewrite /iunlock. keeps_auto. Qed.
#[export] Hint Resolve keeps_iunlock : keeps.

Lemma keeps_itrunc_direct `{Frame R, SafeDriver R} ip i : safe R (itrunc_direct ip i).
Proof. rewrite /itrunc_direct. keeps_auto. Qed.
#[export] Hint Resolve keeps_itrunc_direct : keeps.

Lemma keeps_itrunc_indirect `{Frame R, SafeDriver R} dev bp j : safe R (itrunc_indirect dev bp j).
Proof. rewrite /itrunc_indirect. keeps_auto. Qed.
#[export] Hint Resolve keeps_itrunc_indirect : keeps.

Lemma keeps_itrunc `{Frame R, SafeDriver R} ip : safe R (itrunc ip).
Proof. rewrite /itrunc. keeps_auto. Qed.
#[export] Hint Resolve keeps_itrunc : keeps.

Lemma keeps_iput `{Frame R, SafeDriver R} ip : safe R (iput ip).
Proof. rewrite /iput. keeps_auto. Qed.
#[export] Hint Resolve keeps_iput : keeps.

Lemma keeps_iunlockput `{Frame R, SafeDriver R} ip : safe R (iunlockput ip).
Proof. rewrite /iunlockput. keeps_auto. Qed.
#[export] Hint Resolve keeps_iunlockput : keeps.

Lemma keeps_bmap `{Frame R, SafeDriver R} ip bn : safe R (bmap ip bn).
Proof. rewrite /bmap. keeps_auto. Qed.
#[export] Hint Resolve keeps_bmap : keeps.

Lemma keeps_stati `{Frame R, SafeDriver R} ip : safe R (stati ip).
Proof. rewrite /stati. keeps_auto. Qed.
#[export] Hint Resolve keeps_stati : keeps.

(** ** Contents of files and directories *)

(** A device's read and write routines keep the shape when the functions that
    carry the bytes do. *)
Class SafeDevs (R : relation kstate) `{Devsw} : Prop := {
  keeps_dev_read k f X (put : X → list Z → K X) ip dst n :
    dev_read k = Some f → (∀ x bs, safe R (put x bs)) → safe R (f X put ip dst n);
  keeps_dev_write k f src ip n :
    dev_write k = Some f → (∀ a m, safe R (src a m)) → safe R (f src ip n)
}.

Lemma keeps_readi_step `{Frame R, SafeDriver R, SafeDevs R} {X} (put : X → list Z → K X) ip n v :
  (∀ x bs, safe R (put x bs)) → safe R (readi_step put ip n v).
Proof.
  intros Hput. rewrite /readi_step. destruct v as [[tot off] x]. keeps_auto.
Qed.
#[export] Hint Resolve keeps_readi_step : keeps.

Lemma keeps_readi `{Frame R, SafeDriver R, SafeDevs R} {X} (put : X → list Z → K X) ip dst off n :
  (∀ x bs, safe R (put x bs)) → safe R (readi put ip dst off n).
Proof.
  intros Hput. rewrite /readi. keeps_step. keeps_step.
  - destruct (dev_ok _); [|by keeps_auto]. destruct (dev_read _) as [f|] eqn:Hf; [|by keeps_auto].
    exact (keeps_dev_read _ _ _ _ _ _ _ Hf Hput).
  - keeps_auto.
Qed.
#[export] Hint Resolve keeps_readi : keeps.

Lemma keeps_writei_step `{Frame R, SafeDriver R, SafeDevs R} src ip n v :
  (∀ a m, safe R (src a m)) → safe R (writei_step src ip n v).
Proof.
  intros Hsrc. rewrite /writei_step. destruct v as [tot off]. keeps_auto.
Qed.
#[export] Hint Resolve keeps_writei_step : keeps.

Lemma keeps_writei `{Frame R, SafeDriver R, SafeDevs R} src ip off n :
  (∀ a m, safe R (src a m)) → safe R (writei src ip off n).
Proof.
  intros Hsrc. rewrite /writei. keeps_step. keeps_step.
  - destruct (dev_ok _); [|by keeps_auto]. destruct (dev_write _) as [f|] eqn:Hf; [|by keeps_auto].
    exact (keeps_dev_write _ _ _ _ _ Hf Hsrc).
  - keeps_auto.
Qed.
#[export] Hint Resolve keeps_writei : keeps.

Lemma keeps_put_local `{Frame R, SafeDriver R, SafeDevs R} acc bs : safe R (put_local acc bs).
Proof. rewrite /put_local. keeps_auto. Qed.
#[export] Hint Resolve keeps_put_local : keeps.

Lemma keeps_src_local `{Frame R, SafeDriver R, SafeDevs R} l tot m : safe R (src_local l tot m).
Proof. rewrite /src_local. keeps_auto. Qed.
#[export] Hint Resolve keeps_src_local : keeps.

Lemma keeps_read_dirent `{Frame R, SafeDriver R, SafeDevs R} dp off : safe R (read_dirent dp off).
Proof. rewrite /read_dirent. keeps_auto. Qed.
#[export] Hint Resolve keeps_read_dirent : keeps.

Lemma keeps_dirlookup_one `{Frame R, SafeDriver R, SafeDevs R} dp name off :
  keeps R (dirlookup_one dp name off) (λ r, points NINODE (fst <$> r)).
Proof. rewrite /dirlookup_one. keeps_auto. Qed.
#[export] Hint Resolve keeps_dirlookup_one : keeps.

Lemma keeps_dirlookup `{Frame R, SafeDriver R, SafeDevs R} dp name :
  keeps R (dirlookup dp name) (λ r, points NINODE (fst <$> r)).
Proof.
  rewrite /dirlookup. keeps_step. keeps_step; [keeps_step|].
  eapply keeps_mono; [apply (keeps_scan _ _ (λ a, (a.1 < NINODE)%nat))|].
  - intros off _. eapply keeps_mono; [apply keeps_dirlookup_one|]. intros ? Hr ? ->. by apply Hr.
  - intros ? Hr i (v & -> & ->)%fmap_Some. by apply Hr.
Qed.
#[export] Hint Resolve keeps_dirlookup : keeps.

Lemma keeps_dirlink `{Frame R, SafeDriver R, SafeDevs R} dp name inum : safe R (dirlink dp name inum).
Proof. rewrite /dirlink. keeps_auto. Qed.
#[export] Hint Resolve keeps_dirlink : keeps.

(** The reference a process takes on its current directory, or on its parent's. *)
Lemma keeps_dup_cwd `{Frame R, SafeDriver R} p :
  proc_ok p →
  keeps R (match p_cwd p with Some c => idup c | None => fault 0 end) (λ c, (c < NINODE)%nat).
Proof.
  intros Hp. destruct (p_cwd p) as [d|] eqn:Hd; [|keeps_auto].
  eapply keeps_mono; [apply keeps_idup|]. intros ? ->. exact (pk_cwd p Hp d Hd).
Qed.
#[export] Hint Resolve keeps_dup_cwd : keeps.

Lemma keeps_namex_step `{Frame R, SafeDriver R, SafeDevs R} parent v :
  (v.1 < NINODE)%nat →
  keeps R (namex_step parent v) (λ r, match r with inl v => (v.1 < NINODE)%nat | inr o => points NINODE (fst <$> o) end).
Proof.
  intros Hv. rewrite /namex_step. destruct v as [ip p]. destruct (skipelem p) as [[name p']|]; keeps_auto.
Qed.
#[export] Hint Resolve keeps_namex_step : keeps.

Lemma keeps_namex `{Frame R, SafeDriver R, SafeDevs R} path parent :
  keeps R (namex path parent) (λ r, points NINODE (fst <$> r)).
Proof.
  rewrite /namex. apply (keeps_bind (λ ip, (ip < NINODE)%nat)).
  - keeps_step; [keeps_auto|]. keeps_step. keeps_step. by apply keeps_dup_cwd.
  - intros ip Hip. apply (keeps_loop (λ v, (v.1 < NINODE)%nat)); [done|].
    intros v Hv. by apply keeps_namex_step.
Qed.
#[export] Hint Resolve keeps_namex : keeps.

Lemma keeps_namei `{Frame R, SafeDriver R, SafeDevs R} path : keeps R (namei path) (points NINODE).
Proof.
  rewrite /namei. keeps_step. by apply keeps_ret.
Qed.
#[export] Hint Resolve keeps_namei : keeps.

Lemma keeps_nameiparent `{Frame R, SafeDriver R, SafeDevs R} path :
  keeps R (nameiparent path) (λ r, points NINODE (fst <$> r)).
Proof.
  apply keeps_namex.
Qed.
#[export] Hint Resolve keeps_nameiparent : keeps.

(** ** Pipes and open files *)

Lemma keeps_proc_killed `{Frame R} : safe R proc_killed.
Proof. rewrite /proc_killed. keeps_auto. Qed.
#[export] Hint Resolve keeps_proc_killed : keeps.

Lemma keeps_pipeclose `{Frame R} end_ p w : safe R (pipeclose end_ p w).
Proof. rewrite /pipeclose. keeps_auto. Qed.
#[export] Hint Resolve keeps_pipeclose : keeps.

Lemma keeps_pipewrite_step `{Frame R} p addr n i : safe R (pipewrite_step p addr n i).
Proof. rewrite /pipewrite_step. keeps_auto. Qed.
#[export] Hint Resolve keeps_pipewrite_step : keeps.

Lemma keeps_pipewrite_loop `{Frame R} p addr n i : safe R (pipewrite_loop p addr n i).
Proof. rewrite /pipewrite_loop. keeps_auto. Qed.
#[export] Hint Resolve keeps_pipewrite_loop : keeps.

Lemma keeps_pipewrite `{Frame R} p addr n : safe R (pipewrite p addr n).
Proof. rewrite /pipewrite. keeps_auto. Qed.
#[export] Hint Resolve keeps_pipewrite : keeps.

Lemma keeps_pipewrite_resume `{Frame R} p addr n i ie : safe R (pipewrite_resume p addr n i ie).
Proof. rewrite /pipewrite_resume. keeps_auto. Qed.
#[export] Hint Resolve keeps_pipewrite_resume : keeps.

Lemma keeps_piperead_step `{Frame R} p addr n i : safe R (piperead_step p addr n i).
Proof. rewrite /piperead_step. keeps_auto. Qed.
#[export] Hint Resolve keeps_piperead_step : keeps.

Lemma keeps_piperead_body `{Frame R} p addr n : safe R (piperead_body p addr n).
Proof. rewrite /piperead_body. keeps_auto. Qed.
#[export] Hint Resolve keeps_piperead_body : keeps.

Lemma keeps_piperead `{Frame R} p addr n : safe R (piperead p addr n).
Proof. rewrite /piperead. keeps_auto. Qed.
#[export] Hint Resolve keeps_piperead : keeps.

Lemma keeps_piperead_resume `{Frame R} p addr n ie : safe R (piperead_resume p addr n ie).
Proof. rewrite /piperead_resume. keeps_auto. Qed.
#[export] Hint Resolve keeps_piperead_resume : keeps.

Lemma keeps_filealloc `{Frame R} : keeps R filealloc (points NFILE).
Proof.
  rewrite /filealloc. keeps_step. eapply keeps_bind.
  - apply (keeps_scan _ _ (λ f, (f < NFILE)%nat)). intros f Hf%elem_of_seq. keeps_auto.
  - intros [f|] Hf; keeps_auto.
Qed.
#[export] Hint Resolve keeps_filealloc : keeps.

Lemma keeps_filedup `{Frame R} f : keeps R (filedup f) (λ r, (r < NFILE)%nat).
Proof. rewrite /filedup. keeps_auto. Qed.
#[export] Hint Resolve keeps_filedup : keeps.

Lemma keeps_vstore16 `{Frame R} a v : safe R (vstore16 a v).
Proof. rewrite /vstore16. keeps_auto. Qed.
#[export] Hint Resolve keeps_vstore16 : keeps.

Lemma keeps_put_stat `{Frame R} st v : safe R (put_stat st v).
Proof. rewrite /put_stat. keeps_auto. Qed.
#[export] Hint Resolve keeps_put_stat : keeps.

Lemma keeps_put_user `{Frame R} dst bs : safe R (put_user dst bs).
Proof. rewrite /put_user. keeps_auto. Qed.
#[export] Hint Resolve keeps_put_user : keeps.

Lemma keeps_vload_bytes `{Frame R} a n : safe R (vload_bytes a n).
Proof. revert a. induction n; intros a; simpl; keeps_auto. Qed.
#[export] Hint Resolve keeps_vload_bytes : keeps.

Lemma keeps_src_user `{Frame R} addr tot m : safe R (src_user addr tot m).
Proof. rewrite /src_user. keeps_auto. Qed.
#[export] Hint Resolve keeps_src_user : keeps.

(** Reading, writing and closing an open file. *)

Lemma keeps_fileclose `{Frame R, SafeDriver R, SafeDevs R} end_ f : safe R (fileclose end_ f).
Proof. rewrite /fileclose. keeps_auto. Qed.
#[export] Hint Resolve keeps_fileclose : keeps.

Lemma keeps_filestat `{Frame R, SafeDriver R, SafeDevs R} f st : safe R (filestat f st).
Proof. rewrite /filestat. keeps_auto. Qed.
#[export] Hint Resolve keeps_filestat : keeps.

Lemma keeps_fileread `{Frame R, SafeDriver R, SafeDevs R} f addr n : safe R (fileread f addr n).
Proof. rewrite /fileread. keeps_auto. Qed.
#[export] Hint Resolve keeps_fileread : keeps.

Lemma keeps_filewrite_step `{Frame R, SafeDriver R, SafeDevs R} f ip addr n i :
  safe R (filewrite_step f ip addr n i).
Proof. rewrite /filewrite_step. keeps_auto. Qed.
#[export] Hint Resolve keeps_filewrite_step : keeps.

Lemma keeps_filewrite `{Frame R, SafeDriver R, SafeDevs R} f addr n : safe R (filewrite f addr n).
Proof. rewrite /filewrite. keeps_auto. Qed.
#[export] Hint Resolve keeps_filewrite : keeps.

Lemma keeps_pipealloc_bad `{Frame R, SafeDriver R, SafeDevs R} end_ f0 f1 :
  keeps R (pipealloc_bad end_ f0 f1) (λ r, r = None).
Proof. rewrite /pipealloc_bad. keeps_auto. Qed.
#[export] Hint Resolve keeps_pipealloc_bad : keeps.

Lemma keeps_pipealloc `{Frame R, SafeDriver R, SafeDevs R} end_ :
  keeps R (pipealloc end_) (λ r, points NFILE (fst <$> r) ∧ points NFILE (snd <$> r)).
Proof. rewrite /pipealloc. keeps_auto. Qed.
#[export] Hint Resolve keeps_pipealloc : keeps.
