(* ===== verification/ShapeSys.v ===== *)
(** * The shape of the kernel's tables: processes, system calls and traps

    The lemmas of Shape.v continued up to alltraps: whatever a trap does, system
    call or interrupt, the tables keep their shape. The calls that do not change a
    process's image are followed with an arbitrary frame, which gives what a
    failing exec() leaves behind. *)

From S2P Require Import Prelude Param Bytes String State Spinlock Sched Sleeplock Bio Memide Log Kalloc Vm Fs Console Pipe File Proc Consoledev Sysarg Exec Sysfile Sysproc Trap Shape ShapeFs.

(** ** The console device *)

Lemma keeps_procdump `{Frame R} pcs : safe R (procdump pcs).
Proof. rewrite /procdump. keeps_auto. Qed.
#[export] Hint Resolve keeps_procdump : keeps.

Lemma keeps_erase `{Frame R} : safe R erase.
Proof. rewrite /erase. keeps_auto. Qed.
#[export] Hint Resolve keeps_erase : keeps.

Lemma keeps_kill_step `{Frame R} u : safe R (kill_step u).
Proof. rewrite /kill_step. keeps_auto. Qed.
#[export] Hint Resolve keeps_kill_step : keeps.

Lemma keeps_accept `{Frame R} c : safe R (accept c).
Proof. rewrite /accept. keeps_auto. Qed.
#[export] Hint Resolve keeps_accept : keeps.

Lemma keeps_console_key `{Frame R} c dump : safe R (console_key c dump).
Proof. rewrite /console_key. keeps_auto. Qed.
#[export] Hint Resolve keeps_console_key : keeps.

Lemma keeps_console_keys `{Frame R} {X} fuel (getc : X → K (Z * X)) x dump :
  (∀ x, safe R (getc x)) → safe R (console_keys fuel getc x dump).
Proof.
  intros Hg. revert x dump. induction fuel; intros x dump; simpl; keeps_auto.
Qed.
#[export] Hint Resolve keeps_console_keys : keeps.

Lemma keeps_consoleintr `{Frame R} {X} pcs fuel (getc : X → K (Z * X)) x :
  (∀ x, safe R (getc x)) → safe R (consoleintr pcs fuel getc x).
Proof.
  intros Hg. rewrite /consoleintr. keeps_auto.
Qed.
#[export] Hint Resolve keeps_consoleintr : keeps.

Lemma keeps_kbdgetc `{Frame R} port : safe R (kbdgetc port).
Proof. rewrite /kbdgetc. keeps_auto. Qed.
#[export] Hint Resolve keeps_kbdgetc : keeps.

Lemma keeps_uartgetc `{Frame R} port : safe R (uartgetc port).
Proof. rewrite /uartgetc. keeps_auto. Qed.
#[export] Hint Resolve keeps_uartgetc : keeps.

Lemma keeps_kbdintr `{Frame R} pcs port : safe R (kbdintr pcs port).
Proof. rewrite /kbdintr. keeps_auto. Qed.
#[export] Hint Resolve keeps_kbdintr : keeps.

Lemma keeps_uartintr `{Frame R} pcs port : safe R (uartintr pcs port).
Proof. rewrite /uartintr. keeps_auto. Qed.
#[export] Hint Resolve keeps_uartintr : keeps.

Lemma keeps_consoleread_step `{Frame R} {X} (put : X → list Z → K X) target v :
  (∀ x bs, safe R (put x bs)) → safe R (consoleread_step put target v).
Proof.
  intros Hput. rewrite /consoleread_step. destruct v as [n dst]. keeps_auto.
Qed.
#[export] Hint Resolve keeps_consoleread_step : keeps.

(** The routines of the device table. *)

Lemma keeps_consoleread `{Frame R, SafeDriver R} {X} (put : X → list Z → K X) ip dst n :
  (∀ x bs, safe R (put x bs)) → safe R (consoleread X put ip dst n).
Proof.
  intros Hput. rewrite /consoleread. keeps_auto.
Qed.
#[export] Hint Resolve keeps_consoleread : keeps.

Lemma keeps_consolewrite `{Frame R, SafeDriver R} src ip n :
  (∀ a m, safe R (src a m)) → safe R (consolewrite src ip n).
Proof.
  intros Hsrc. rewrite /consolewrite. keeps_auto.
Qed.
#[export] Hint Resolve keeps_consolewrite : keeps.

(** ** Arguments of system calls *)

Lemma keeps_curproc `{Frame R} : keeps R curproc (proc_ok).
Proof. rewrite /curproc. keeps_auto. Qed.
#[export] Hint Resolve keeps_curproc : keeps.

Lemma keeps_fetchint `{Frame R} addr : safe R (fetchint addr).
Proof. rewrite /fetchint. keeps_auto. Qed.
#[export] Hint Resolve keeps_fetchint : keeps.

Lemma keeps_fetch_chars `{Frame R} a n : safe R (fetch_chars a n).
Proof. revert a. induction n; intros a; simpl; keeps_auto. Qed.
#[export] Hint Resolve keeps_fetch_chars : keeps.

Lemma keeps_fetchstr `{Frame R} addr : safe R (fetchstr addr).
Proof. rewrite /fetchstr. keeps_auto. Qed.
#[export] Hint Resolve keeps_fetchstr : keeps.

Lemma keeps_argint `{Frame R} n : safe R (argint n).
Proof. rewrite /argint. keeps_auto. Qed.
#[export] Hint Resolve keeps_argint : keeps.

Lemma keeps_argptr `{Frame R} n size : safe R (argptr n size).
Proof. rewrite /argptr. keeps_auto. Qed.
#[export] Hint Resolve keeps_argptr : keeps.

Lemma keeps_argstr `{Frame R} n : safe R (argstr n).
Proof. rewrite /argstr. keeps_auto. Qed.
#[export] Hint Resolve keeps_argstr : keeps.

Lemma keeps_argfd `{Frame R} n : keeps R (argfd n) (λ r, points NFILE (snd <$> r)).
Proof.
  rewrite /argfd. keeps_step. destruct a as [fd|]; [|by keeps_auto]. keeps_step. keeps_step; [keeps_auto|].
  destruct (p_ofile _ !! _) as [[f|]|] eqn:Hf; [|keeps_auto..].
  apply keeps_ret. exact (Forall_lookup_1 _ _ _ _ (pk_files _ Hv) Hf).
Qed.
#[export] Hint Resolve keeps_argfd : keeps.

Lemma keeps_fetch_argv `{Frame R} u n i : safe R (fetch_argv u n i).
Proof. revert i. induction n; intros i; simpl; keeps_auto. Qed.
#[export] Hint Resolve keeps_fetch_argv : keeps.

(** ** exec *)

Lemma keeps_put_kernel `{Frame R, SafeDriver R, SafeDevs R} dst bs : safe R (put_kernel dst bs).
Proof. rewrite /put_kernel. keeps_auto. Qed.
#[export] Hint Resolve keeps_put_kernel : keeps.

Lemma keeps_loaduvm_page `{Frame R, SafeDriver R, SafeDevs R} pgdir addr ip offset sz i :
  safe R (loaduvm_page pgdir addr ip offset sz i).
Proof. rewrite /loaduvm_page. keeps_auto. Qed.
#[export] Hint Resolve keeps_loaduvm_page : keeps.

Lemma keeps_loaduvm `{Frame R, SafeDriver R, SafeDevs R} pgdir addr ip offset sz :
  safe R (loaduvm pgdir addr ip offset sz).
Proof. rewrite /loaduvm. keeps_auto. Qed.
#[export] Hint Resolve keeps_loaduvm : keeps.

Lemma keeps_exec_segment `{Frame R, SafeDriver R, SafeDevs R} end_ pgdir ip off sz :
  safe R (exec_segment end_ pgdir ip off sz).
Proof. rewrite /exec_segment. keeps_auto. Qed.
#[export] Hint Resolve keeps_exec_segment : keeps.

Lemma keeps_exec_load `{Frame R, SafeDriver R, SafeDevs R} end_ pgdir ip n off sz :
  safe R (exec_load end_ pgdir ip n off sz).
Proof. revert off sz. induction n; intros off sz; simpl; keeps_auto. Qed.
#[export] Hint Resolve keeps_exec_load : keeps.

Lemma keeps_vstrlen `{Frame R, SafeDriver R, SafeDevs R} a fuel : safe R (vstrlen a fuel).
Proof. revert a. induction fuel; intros a; simpl; keeps_auto. Qed.
#[export] Hint Resolve keeps_vstrlen : keeps.

Lemma keeps_push_args `{Frame R, SafeDriver R, SafeDevs R} pgdir fuel argv argc sp ptrs :
  safe R (push_args pgdir fuel argv argc sp ptrs).
Proof. revert argc sp ptrs. induction argv; intros argc sp ptrs; simpl; keeps_auto. Qed.
#[export] Hint Resolve keeps_push_args : keeps.

Lemma keeps_exec_bad `{Frame R, SafeDriver R, SafeDevs R} end_ pgdir ip : safe R (exec_bad end_ pgdir ip).
Proof. rewrite /exec_bad. keeps_auto. Qed.
#[export] Hint Resolve keeps_exec_bad : keeps.

(** ** Processes *)

Lemma keeps_allocproc `{SafeDriver anything, SafeDevs anything} : keeps anything allocproc (points NPROC).
Proof.
  rewrite /allocproc. keeps_step. eapply keeps_bind.
  - apply (keeps_scan _ _ (λ i, (i < NPROC)%nat)). intros i Hi%elem_of_seq. keeps_step.
    case_bool_decide; keeps_auto.
  - intros [i|] Hi; keeps_auto.
Qed.
#[export] Hint Resolve keeps_allocproc : keeps.

Lemma keeps_userinit `{SafeDriver anything, SafeDevs anything} data_ init size :
  safe anything (userinit data_ init size).
Proof. rewrite /userinit. keeps_auto. Qed.
#[export] Hint Resolve keeps_userinit : keeps.

Lemma keeps_growproc `{SafeDriver anything, SafeDevs anything} end_ n : safe anything (growproc end_ n).
Proof. rewrite /growproc. keeps_auto. Qed.
#[export] Hint Resolve keeps_growproc : keeps.

Lemma keeps_fork_file `{SafeDriver anything, SafeDevs anything} i np fd : safe anything (fork_file i np fd).
Proof. rewrite /fork_file. keeps_auto. Qed.
#[export] Hint Resolve keeps_fork_file : keeps.

Lemma keeps_fork `{SafeDriver anything, SafeDevs anything} end_ data_ : safe anything (fork end_ data_).
Proof. rewrite /fork. keeps_auto. Qed.
#[export] Hint Resolve keeps_fork : keeps.

Lemma keeps_exit_file `{SafeDriver anything, SafeDevs anything} end_ i fd :
  safe anything (exit_file end_ i fd).
Proof. rewrite /exit_file. keeps_auto. Qed.
#[export] Hint Resolve keeps_exit_file : keeps.

Lemma keeps_wakeup_proc `{SafeDriver anything, SafeDevs anything} o : safe anything (wakeup_proc o).
Proof. rewrite /wakeup_proc. keeps_auto. Qed.
#[export] Hint Resolve keeps_wakeup_proc : keeps.

Lemma keeps_reparent `{SafeDriver anything, SafeDevs anything} i o j :
  points NPROC o → safe anything (reparent i o j).
Proof.
  intros Ho. rewrite /reparent. keeps_auto.
Qed.
#[export] Hint Resolve keeps_reparent : keeps.

Lemma keeps_exit `{SafeDriver anything, SafeDevs anything} {A} end_ (Q : A → Prop) :
  keeps anything (exit end_) Q.
Proof. rewrite /exit. keeps_auto. Qed.
#[export] Hint Resolve keeps_exit : keeps.

Lemma keeps_wait_scan `{SafeDriver anything, SafeDevs anything} end_ i l b :
  safe anything (wait_scan end_ i l b).
Proof. revert b. induction l; intros b; simpl; keeps_auto. Qed.
#[export] Hint Resolve keeps_wait_scan : keeps.

Lemma keeps_wait_body `{SafeDriver anything, SafeDevs anything} end_ : safe anything (wait_body end_).
Proof. rewrite /wait_body. keeps_auto. Qed.
#[export] Hint Resolve keeps_wait_body : keeps.

Lemma keeps_wait `{SafeDriver anything, SafeDevs anything} end_ : safe anything (wait end_).
Proof. rewrite /wait. keeps_auto. Qed.
#[export] Hint Resolve keeps_wait : keeps.

Lemma keeps_wait_resume `{SafeDriver anything, SafeDevs anything} end_ ie :
  safe anything (wait_resume end_ ie).
Proof. rewrite /wait_resume. keeps_auto. Qed.
#[export] Hint Resolve keeps_wait_resume : keeps.

Lemma keeps_signal `{SafeDriver anything, SafeDevs anything} sigNum h : safe anything (signal sigNum h).
Proof. rewrite /signal. keeps_auto. Qed.
#[export] Hint Resolve keeps_signal : keeps.

Lemma keeps_sigsend `{SafeDriver anything, SafeDevs anything} pid sigNum : safe anything (sigsend pid sigNum).
Proof. rewrite /sigsend. keeps_auto. Qed.
#[export] Hint Resolve keeps_sigsend : keeps.

Lemma keeps_sigreturn `{SafeDriver anything, SafeDevs anything} beyond : safe anything (sigreturn beyond).
Proof. rewrite /sigreturn. keeps_auto. Qed.
#[export] Hint Resolve keeps_sigreturn : keeps.

Lemma keeps_Alarm `{SafeDriver anything, SafeDevs anything} : safe anything Alarm.
Proof.
  rewrite /Alarm. keeps_auto. apply keeps_modify. intros s []. split; [|done]. split; try done.
  apply table_fmap; [|done]. intros p Hp. rewrite /tick. repeat case_match; elem_ok.
Qed.
#[export] Hint Resolve keeps_Alarm : keeps.

Lemma keeps_set_fd `{SafeDriver anything, SafeDevs anything} fd o (Ho : points NFILE o) :
  safe anything (set_fd fd o).
Proof. rewrite /set_fd. keeps_auto. Qed.
#[export] Hint Resolve keeps_set_fd : keeps.

Lemma keeps_fdalloc `{SafeDriver anything, SafeDevs anything} f (Hf : (f < NFILE)%nat) :
  safe anything (fdalloc f).
Proof. rewrite /fdalloc. keeps_auto. Qed.
#[export] Hint Resolve keeps_fdalloc : keeps.

Lemma keeps_exec `{SafeDriver anything, SafeDevs anything} end_ data_ sigret at_ ustack junk path argv :
  safe anything (exec end_ data_ sigret at_ ustack junk path argv).
Proof. rewrite /exec /exec_stack. keeps_auto. Qed.
#[export] Hint Resolve keeps_exec : keeps.

(** ** System calls *)

Lemma keeps_sys_dup `{SafeDriver anything, SafeDevs anything} : safe anything sys_dup.
Proof. rewrite /sys_dup. keeps_auto. Qed.
#[export] Hint Resolve keeps_sys_dup : keeps.

Lemma keeps_sys_read `{SafeDriver anything, SafeDevs anything} : safe anything sys_read.
Proof. rewrite /sys_read. keeps_auto. Qed.
#[export] Hint Resolve keeps_sys_read : keeps.

Lemma keeps_sys_write `{SafeDriver anything, SafeDevs anything} : safe anything sys_write.
Proof. rewrite /sys_write. keeps_auto. Qed.
#[export] Hint Resolve keeps_sys_write : keeps.

Lemma keeps_sys_close `{SafeDriver anything, SafeDevs anything} end_ : safe anything (sys_close end_).
Proof. rewrite /sys_close. keeps_auto. Qed.
#[export] Hint Resolve keeps_sys_close : keeps.

Lemma keeps_sys_fstat `{SafeDriver anything, SafeDevs anything} : safe anything sys_fstat.
Proof. rewrite /sys_fstat. keeps_auto. Qed.
#[export] Hint Resolve keeps_sys_fstat : keeps.

Lemma keeps_sys_link_bad `{SafeDriver anything, SafeDevs anything} ip : safe anything (sys_link_bad ip).
Proof. rewrite /sys_link_bad. keeps_auto. Qed.
#[export] Hint Resolve keeps_sys_link_bad : keeps.

Lemma keeps_sys_link `{SafeDriver anything, SafeDevs anything} : safe anything sys_link.
Proof. rewrite /sys_link. keeps_auto. Qed.
#[export] Hint Resolve keeps_sys_link : keeps.

Lemma keeps_isdirempty `{SafeDriver anything, SafeDevs anything} dp : safe anything (isdirempty dp).
Proof. rewrite /isdirempty. keeps_auto. Qed.
#[export] Hint Resolve keeps_isdirempty : keeps.

Lemma keeps_sys_unlink_bad `{SafeDriver anything, SafeDevs anything} dp : safe anything (sys_unlink_bad dp).
Proof. rewrite /sys_unlink_bad. keeps_auto. Qed.
#[export] Hint Resolve keeps_sys_unlink_bad : keeps.

Lemma keeps_sys_unlink `{SafeDriver anything, SafeDevs anything} : safe anything sys_unlink.
Proof. rewrite /sys_unlink. keeps_auto. Qed.
#[export] Hint Resolve keeps_sys_unlink : keeps.

Lemma keeps_create `{SafeDriver anything, SafeDevs anything} path type major minor :
  keeps anything (create path type major minor) (points NINODE).
Proof. rewrite /create. keeps_auto. Qed.
#[export] Hint Resolve keeps_create : keeps.

Lemma keeps_sys_open_inode `{SafeDriver anything, SafeDevs anything} path omode :
  keeps anything (sys_open_inode path omode) (points NINODE).
Proof. rewrite /sys_open_inode. keeps_auto. Qed.
#[export] Hint Resolve keeps_sys_open_inode : keeps.

Lemma keeps_sys_open `{SafeDriver anything, SafeDevs anything} end_ : safe anything (sys_open end_).
Proof. rewrite /sys_open. keeps_auto. Qed.
#[export] Hint Resolve keeps_sys_open : keeps.

Lemma keeps_finish_create `{SafeDriver anything, SafeDevs anything} o : safe anything (finish_create o).
Proof. rewrite /finish_create. keeps_auto. Qed.
#[export] Hint Resolve keeps_finish_create : keeps.

Lemma keeps_sys_mkdir `{SafeDriver anything, SafeDevs anything} : safe anything sys_mkdir.
Proof. rewrite /sys_mkdir. keeps_auto. Qed.
#[export] Hint Resolve keeps_sys_mkdir : keeps.

Lemma keeps_sys_mknod `{SafeDriver anything, SafeDevs anything} : safe anything sys_mknod.
Proof. rewrite /sys_mknod. keeps_auto. Qed.
#[export] Hint Resolve keeps_sys_mknod : keeps.

Lemma keeps_sys_chdir `{SafeDriver anything, SafeDevs anything} : safe anything sys_chdir.
Proof. rewrite /sys_chdir. keeps_auto. Qed.
#[export] Hint Resolve keeps_sys_chdir : keeps.

Lemma keeps_sys_exec `{SafeDriver anything, SafeDevs anything} f :
  (∀ path argv, safe anything (f path argv)) → safe anything (sys_exec f).
Proof.
  intros Hf. rewrite /sys_exec. keeps_auto.
Qed.
#[export] Hint Resolve keeps_sys_exec : keeps.

Lemma keeps_sys_pipe `{SafeDriver anything, SafeDevs anything} end_ : safe anything (sys_pipe end_).
Proof. rewrite /sys_pipe. keeps_auto. Qed.
#[export] Hint Resolve keeps_sys_pipe : keeps.

Lemma keeps_sys_kill `{SafeDriver anything, SafeDevs anything} : safe anything sys_kill.
Proof. rewrite /sys_kill. keeps_auto. Qed.
#[export] Hint Resolve keeps_sys_kill : keeps.

Lemma keeps_sys_getpid `{SafeDriver anything, SafeDevs anything} : safe anything sys_getpid.
Proof. rewrite /sys_getpid. keeps_auto. Qed.
#[export] Hint Resolve keeps_sys_getpid : keeps.

Lemma keeps_sys_sbrk `{SafeDriver anything, SafeDevs anything} end_ : safe anything (sys_sbrk end_).
Proof. rewrite /sys_sbrk. keeps_auto. Qed.
#[export] Hint Resolve keeps_sys_sbrk : keeps.

Lemma keeps_sys_sleep_body `{SafeDriver anything, SafeDevs anything} n t : safe anything (sys_sleep_body n t).
Proof. rewrite /sys_sleep_body. keeps_auto. Qed.
#[export] Hint Resolve keeps_sys_sleep_body : keeps.

Lemma keeps_sys_sleep `{SafeDriver anything, SafeDevs anything} : safe anything sys_sleep.
Proof. rewrite /sys_sleep. keeps_auto. Qed.
#[export] Hint Resolve keeps_sys_sleep : keeps.

Lemma keeps_sys_sleep_resume `{SafeDriver anything, SafeDevs anything} n t ie :
  safe anything (sys_sleep_resume n t ie).
Proof. rewrite /sys_sleep_resume. keeps_auto. Qed.
#[export] Hint Resolve keeps_sys_sleep_resume : keeps.

Lemma keeps_sys_uptime `{SafeDriver anything, SafeDevs anything} : safe anything sys_uptime.
Proof. rewrite /sys_uptime. keeps_auto. Qed.
#[export] Hint Resolve keeps_sys_uptime : keeps.

Lemma keeps_sys_signal `{SafeDriver anything, SafeDevs anything} : safe anything sys_signal.
Proof. rewrite /sys_signal. keeps_auto. Qed.
#[export] Hint Resolve keeps_sys_signal : keeps.

Lemma keeps_sys_sigsend `{SafeDriver anything, SafeDevs anything} : safe anything sys_sigsend.
Proof. rewrite /sys_sigsend. keeps_auto. Qed.
#[export] Hint Resolve keeps_sys_sigsend : keeps.

Lemma keeps_sys_sigreturn `{SafeDriver anything, SafeDevs anything} beyond :
  safe anything (sys_sigreturn beyond).
Proof. rewrite /sys_sigreturn. keeps_auto. Qed.
#[export] Hint Resolve keeps_sys_sigreturn : keeps.

Lemma keeps_sys_alarm `{SafeDriver anything, SafeDevs anything} : safe anything sys_alarm.
Proof. rewrite /sys_alarm. keeps_auto. Qed.
#[export] Hint Resolve keeps_sys_alarm : keeps.

(** ** Traps *)

Lemma keeps_defaultSigHandler `{SafeDriver anything, SafeDevs anything} n :
  safe anything (defaultSigHandler n).
Proof. rewrite /defaultSigHandler. keeps_auto. Qed.
#[export] Hint Resolve keeps_defaultSigHandler : keeps.

Lemma keeps_push_user `{SafeDriver anything, SafeDevs anything} v : safe anything (push_user v).
Proof. rewrite /push_user. keeps_auto. Qed.
#[export] Hint Resolve keeps_push_user : keeps.

Lemma keeps_pushHandlingSig `{SafeDriver anything, SafeDevs anything} k : safe anything (pushHandlingSig k).
Proof. rewrite /pushHandlingSig. keeps_auto. Qed.
#[export] Hint Resolve keeps_pushHandlingSig : keeps.

Lemma keeps_handling_one `{SafeDriver anything, SafeDevs anything} k : safe anything (handling_one k).
Proof. rewrite /handling_one. keeps_auto. Qed.
#[export] Hint Resolve keeps_handling_one : keeps.

Lemma keeps_handling_signal `{SafeDriver anything, SafeDevs anything} : safe anything handling_signal.
Proof. rewrite /handling_signal. keeps_auto. Qed.
#[export] Hint Resolve keeps_handling_signal : keeps.

Lemma keeps_set_result `{SafeDriver anything, SafeDevs anything} v : safe anything (set_result v).
Proof. rewrite /set_result. keeps_auto. Qed.
#[export] Hint Resolve keeps_set_result : keeps.

Lemma keeps_syscalls `{SafeDriver anything, SafeDevs anything} end_ data_ exec beyond garbage num f :
  (∀ path argv, safe anything (exec path argv)) →
  syscalls end_ data_ exec beyond garbage num = Some f → safe anything f.
Proof.
  intros He. rewrite /syscalls /sys_fork /sys_exit /sys_wait. repeat case_match; intros [= <-]; keeps_auto.
Qed.

Lemma keeps_syscall `{SafeDriver anything, SafeDevs anything} end_ data_ exec beyond garbage :
  (∀ path argv, safe anything (exec path argv)) → safe anything (syscall end_ data_ exec beyond garbage).
Proof.
  intros He. rewrite /syscall. keeps_step. cbv beta zeta.
  destruct (syscalls end_ data_ exec beyond garbage _) as [f|] eqn:Hf; [|keeps_auto].
  eapply keeps_bind; [exact (keeps_syscalls _ _ _ _ _ _ _ He Hf)|]. keeps_auto.
Qed.
#[export] Hint Resolve keeps_syscall : keeps.

Lemma keeps_exit_if_killed `{SafeDriver anything, SafeDevs anything} end_ tf :
  safe anything (exit_if_killed end_ tf).
Proof. rewrite /exit_if_killed. keeps_auto. Qed.
#[export] Hint Resolve keeps_exit_if_killed : keeps.

Lemma keeps_timer_interrupt `{SafeDriver anything, SafeDevs anything} : safe anything timer_interrupt.
Proof. rewrite /timer_interrupt. keeps_auto. Qed.
#[export] Hint Resolve keeps_timer_interrupt : keeps.

Lemma keeps_unexpected `{SafeDriver anything, SafeDevs anything} tf cr2 : safe anything (unexpected tf cr2).
Proof. rewrite /unexpected. keeps_auto. Qed.
#[export] Hint Resolve keeps_unexpected : keeps.

Lemma keeps_interrupt `{SafeDriver anything, SafeDevs anything} ideintr kbdintr uartintr tf cr2 :
  safe anything ideintr → safe anything kbdintr → safe anything uartintr →
  safe anything (interrupt ideintr kbdintr uartintr tf cr2).
Proof.
  intros Hi Hk Hu. rewrite /interrupt. keeps_auto.
Qed.
#[export] Hint Resolve keeps_interrupt : keeps.

(** The handlers of the interrupts and the whole trap. *)

Lemma keeps_trap `{SafeDriver anything, SafeDevs anything} end_ data_ exec beyond ideintr kbdintr uartintr garbage cr2 tf :
  (∀ path argv, safe anything (exec path argv)) →
  safe anything ideintr → safe anything kbdintr → safe anything uartintr →
  safe anything (trap end_ data_ exec beyond ideintr kbdintr uartintr garbage cr2 tf).
Proof.
  intros He Hi Hk Hu. rewrite /trap. keeps_auto.
Qed.
#[export] Hint Resolve keeps_trap : keeps.

Lemma keeps_trap_resume `{SafeDriver anything, SafeDevs anything} end_ ie tf :
  safe anything (trap_resume end_ ie tf).
Proof. rewrite /trap_resume. keeps_auto. Qed.
#[export] Hint Resolve keeps_trap_resume : keeps.

Lemma keeps_alltraps `{SafeDriver anything, SafeDevs anything} end_ data_ exec beyond ideintr kbdintr uartintr garbage cr2 tf :
  (∀ path argv, safe anything (exec path argv)) →
  safe anything ideintr → safe anything kbdintr → safe anything uartintr →
  safe anything (alltraps end_ data_ exec beyond ideintr kbdintr uartintr garbage cr2 tf).
Proof.
  intros He Hi Hk Hu. rewrite /alltraps. keeps_auto.
Qed.
#[export] Hint Resolve keeps_alltraps : keeps.

Lemma keeps_scheduler_one `{SafeDriver anything, SafeDevs anything} run i :
  (∀ i, safe anything (run i)) → (i < NPROC)%nat → safe anything (scheduler_one run i).
Proof.
  intros Hr Hi. rewrite /scheduler_one. keeps_auto.
Qed.
#[export] Hint Resolve keeps_scheduler_one : keeps.

Lemma keeps_scheduler_pass `{SafeDriver anything, SafeDevs anything} run :
  (∀ i, safe anything (run i)) → safe anything (scheduler_pass run).
Proof.
  intros Hr. rewrite /scheduler_pass /sti. keeps_auto.
Qed.
#[export] Hint Resolve keeps_scheduler_pass : keeps.

Lemma keeps_forkret `{SafeDriver anything, SafeDevs anything} first : safe anything (forkret first).
Proof. rewrite /forkret. keeps_auto. Qed.
#[export] Hint Resolve keeps_forkret : keeps.

(** The console is a safe device. *)
#[export] Instance safe_console `{Frame R, SafeDriver R} : @SafeDevs R console_devsw.
Proof.
  split; intros ? ?; intros; simpl in *; case_match; simplify_eq; eauto with keeps.
Qed.
#[export] Hint Resolve safe_console : keeps.

(** ** A failing exec *)

(** [m] returns 0, or -1 with every process's image as before. *)
Definition clean_failure (m : K Z) : Prop :=
  ∀ s v s', shape s → m s = Ok v s' → v = 0 ∨ (v = -1 ∧ same_images s s').

Definition succeeds (m : K Z) : Prop := ∀ s v s', m s = Ok v s' → v = 0.

Lemma clean_bind {A} (P : A → Prop) (m : K A) (f : A → K Z) :
  keeps same_images m P → (∀ a, P a → clean_failure (f a)) → clean_failure (m ≫= f).
Proof.
  intros Hm Hf s v s' Hs (a & s1 & H1 & H2)%bind_Ok_inv. specialize (Hm s Hs). rewrite H1 in Hm.
  destruct Hm as (Hs1 & HR & Ha). destruct (Hf a Ha s1 v s' Hs1 H2) as [?|[? ?]]; [by left|].
  right. split; [done|]. by transitivity s1.
Qed.

Lemma clean_return m : keeps same_images m (λ v, v = -1) → clean_failure m.
Proof. intros H s v s' Hs Hm. specialize (H s Hs). rewrite Hm in H. right. naive_solver. Qed.

Lemma clean_success m : succeeds m → clean_failure m.
Proof. intros H s v s' _ Hm. left. eauto. Qed.

Lemma clean_panic msg : clean_failure (panic msg).
Proof. by intros s v s' _ ?. Qed.

Lemma succeeds_bind {A} (m : K A) f : (∀ a, succeeds (f a)) → succeeds (m ≫= f).
Proof. intros H s v s' (a & s1 & _ & H2)%bind_Ok_inv. exact (H a s1 v s' H2). Qed.

Lemma succeeds_ret : succeeds (mret 0).
Proof. by intros s v s' [= <- _]. Qed.

Ltac clean_step :=
  cbv beta zeta;
  lazymatch goal with
  | |- clean_failure (gets _ ≫= _) => apply (clean_bind (λ _, True)); [keeps_auto|intro_value]
  | |- clean_failure (mbind (λ x, match x with (_, _) => _ end) _) =>
      apply (clean_bind (λ _, True)); [by keeps_auto|];
      intro_value; match goal with |- clean_failure (match ?x with _ => _ end) => destruct x end
  | |- clean_failure (_ ≫= _) =>
      apply (clean_bind (λ _, True)); [solve [keeps_auto]|intro_value]
  | |- clean_failure (match ?x with _ => _ end) => destruct x eqn:?
  | |- clean_failure (panic _) => apply clean_panic
  | |- clean_failure _ => apply clean_return; solve [keeps_auto]
  end.

Section exec.
Context `{SafeDriver same_images, SafeDevs same_images}.
Context (end_ data_ sigretimplicit alltraps ustack : Z) (junk : list Z).

Lemma keeps_exec_bad_value pgdir ip : keeps same_images (exec_bad end_ pgdir ip) (λ v, v = -1).
Proof. rewrite /exec_bad. keeps_auto. Qed.
#[local] Hint Resolve keeps_exec_bad_value : keeps.

Lemma exec_stack_clean path argv elf pgdir sz :
  clean_failure (exec_stack end_ sigretimplicit alltraps ustack path argv elf pgdir sz).
Proof.
  rewrite /exec_stack. repeat clean_step.
  apply clean_success. repeat (apply succeeds_bind; intros ?). apply succeeds_ret.
Qed.

Lemma exec_clean path argv :
  clean_failure (exec end_ data_ sigretimplicit alltraps ustack junk path argv).
Proof. rewrite /exec. repeat clean_step. all: apply exec_stack_clean. Qed.
End exec.

(** ** The runs of the kernel *)

(** swtch() back to the scheduler ends the turn of a kernel thread. *)
Definition until_switch {A} (m : K A) : K unit := λ s,
  match m s with
  | Ok _ s' | Switch _ s' => Ok tt s'
  | Panic msg => Panic msg
  | Spin => Spin
  | Fault a => Fault a
  | NoFuel => NoFuel
  end.

Lemma keeps_until_switch {A} (m : K A) Q : keeps anything m Q → safe anything (until_switch m).
Proof. intros H s Hs. specialize (H s Hs). rewrite /until_switch. destruct (m s); naive_solver. Qed.

Section kernel.
Context `{IdeDriver} (end_ data_ sigretimplicit alltraps_ ustack : Z) (junk : list Z).
Context (beyond : nat → kstate → list Z) (ideintr : K unit).

(** What the kernel runs between two switches of the CPU: the initialisation
    called by main(), the handler of a trap with its frame and what the devices
    have to say, the resumption of a call that slept, the first return from a
    fork, the scheduler's turn over the table, whose processes run such code; and
    user code, which only writes memory. *)
Inductive kernel_code : K unit → Prop :=
| kc_kinit1 a b : kernel_code (kinit1 end_ a b)
| kc_kvmalloc : kernel_code (kvmalloc data_)
| kc_consoleinit : kernel_code consoleinit
| kc_uartinit status : kernel_code (uartinit status)
| kc_pinit : kernel_code pinit
| kc_binit : kernel_code binit
| kc_fileinit : kernel_code fileinit
| kc_kinit2 a b : kernel_code (kinit2 end_ a b)
| kc_userinit init size : kernel_code (userinit data_ init size)
| kc_trap garbage cr2 tf pcs kbd com1 :
    kernel_code (alltraps end_ data_ (exec end_ data_ sigretimplicit alltraps_ ustack junk) beyond
                   ideintr (kbdintr pcs kbd) (uartintr pcs com1) garbage cr2 tf)
| kc_trap_resume ie tf : kernel_code (trap_resume end_ ie tf)
| kc_acquiresleep sl ie : kernel_code (acquiresleep_resume sl ie)
| kc_begin_op ie : kernel_code (begin_op_resume ie)
| kc_pipewrite p addr n i ie : kernel_code (until_switch (pipewrite_resume p addr n i ie))
| kc_piperead p addr n ie : kernel_code (until_switch (piperead_resume p addr n ie))
| kc_wait ie : kernel_code (until_switch (wait_resume end_ ie))
| kc_sleep n ticks0 ie : kernel_code (until_switch (sys_sleep_resume n ticks0 ie))
| kc_forkret first : kernel_code (until_switch (forkret first))
| kc_user f : kernel_code (kstore f)
| kc_seq m1 m2 : kernel_code m1 → kernel_code m2 → kernel_code (m1;; m2)
| kc_scheduler code :
    (∀ i, kernel_code (code i)) → kernel_code (scheduler_pass (λ i, until_switch (code i))).

(** The states of the kernel, from the zeroed data segment. *)
Inductive reachable : kstate → Prop :=
| reach_boot : reachable boot_state
| reach_run m s s' : reachable s → kernel_code m → until_switch m s = Ok tt s' → reachable s'.

Context {HD : SafeDriver anything} (Hide : safe anything ideintr).

Lemma kernel_code_safe m : kernel_code m → safe anything m.
Proof.
  induction 1; rewrite /consoleinit /pinit /fileinit; keeps_auto.
  all: try (apply (keeps_until_switch _ (λ _, True)); keeps_auto; fail).
  - apply keeps_alltraps; [intros; apply keeps_exec|done|keeps_auto..].
  - apply keeps_scheduler_pass. intros i. by apply (keeps_until_switch _ (λ _, True)).
Qed.
End kernel.

(** ** Properties *)

(** Every table of the kernel keeps its length and every pointer between the
    tables stays inside one, in all the states of the kernel: [reachable] starts
    from the zeroed data segment and runs the initialisation, traps with any frame
    and any device input, system calls with any arguments, resumed calls, the
    scheduler and user code, in any order and number. *)
Theorem kernel_tables_typed `{IdeDriver} end_ data_ sigretimplicit alltraps_ ustack junk beyond ideintr s :
  SafeDriver anything → safe anything ideintr →
  reachable end_ data_ sigretimplicit alltraps_ ustack junk beyond ideintr s → shape s.
Proof.
  intros HD Hide. induction 1 as [|m s s' _ IH Hm Hs]; [apply shape_boot|].
  pose proof (kernel_code_safe _ _ _ _ _ _ _ _ Hide m Hm s IH) as HS.
  rewrite /until_switch in Hs. by destruct (m s); simplify_eq; destruct HS.
Qed.

Lemma kernel_tables_typed_witness :
  shape (state_or boot_state (until_switch binit boot_state)).
Proof.
  apply (@kernel_tables_typed Memide.memide 0 0 0 0 0 [] (λ _ _, []) (mret tt) _ safe_memide).
  - by apply keeps_ret.
  - refine (reach_run _ _ _ _ _ _ _ _ _ _ _ (reach_boot _ _ _ _ _ _ _ _) (kc_binit _ _ _ _ _ _ _ _) _).
    vm_compute. reflexivity.
Defined.

(** C13: exec() that fails leaves every process as it was: the size, page table,
    kernel stack and saved registers of the caller, its name, open files, current
    directory, pending signals and handlers are those it was called with, whichever
    of the steps failed, so the program that called it goes on. It returns -1
    then, and 0 otherwise. *)
Theorem exec_failure_keeps_image `{IdeDriver} end_ data_ sigretimplicit alltraps_ ustack junk path argv s v s' :
  SafeDriver same_images → shape s →
  exec end_ data_ sigretimplicit alltraps_ ustack junk path argv s = Ok v s' →
  v = 0 ∨ (v = -1 ∧ k_proc s' = k_proc s ∧ image <$> procs s' = image <$> procs s).
Proof. intros HD Hs. by apply exec_clean. Qed.

(** A process whose current directory is a plain file; no path starting there
    leads anywhere. *)
Definition lost_proc : proc :=
  Proc PGSIZE 0x80400000 0 RUNNING 3 None zero_tf CtxSched None false
       (replicate NOFILE None) (Some 0%nat) [] (replicate NUMSIG 0) (replicate NUMSIG 0) 0 0 0 0.

Definition lost_state : kstate :=
  set_inodes (<[0%nat := Inode 1 2 1 2 T_FILE 0 0 1 0 (replicate 13 0)]> (inodes boot_state))
    (set_proc (Some 0%nat) (set_procs (<[0%nat := lost_proc]> (procs boot_state)) boot_state)).

Lemma lost_shape : shape lost_state.
Proof.
  destruct shape_boot as [Hc Hp Hi Hb Hd Hl Hn Hf Hpi Hco]. split; try done.
  - apply points_Some, Nat.ltb_lt. reflexivity.
  - destruct Hp as [Hlen Hall]. split; [done|]. apply Forall_insert; [done|].
    split; try done; [|by apply (Forall_replicate (points NFILE) NOFILE None)|apply Nat.le_0_l].
    apply points_Some, Nat.ltb_lt. reflexivity.
  - destruct Hn as [Hlen Hall]. split; [done|]. by apply Forall_insert.
Qed.

Lemma exec_failure_keeps_image_witness :
  let o := @exec Memide.memide (@console_devsw Memide.memide) 0x80108000 0x80107000 0 0 0 [] (chars "sh") [] lost_state in
  value_or 0 o = -1 ∧ p_pgdir <$> procs (state_or boot_state o) !! 0%nat = Some 0x80400000.
Proof.
  assert (@exec Memide.memide (@console_devsw Memide.memide) 0x80108000 0x80107000 0 0 0 [] (chars "sh") [] lost_state =
          Ok (-1) (state_or boot_state
            (@exec Memide.memide (@console_devsw Memide.memide) 0x80108000 0x80107000 0 0 0 [] (chars "sh") [] lost_state)))
    as Ho by (vm_compute; reflexivity).
  pose proof (@exec_failure_keeps_image Memide.memide _ _ _ _ _ _ _ _ _ _ _ safe_memide lost_shape Ho) as H.
  cbv zeta. rewrite {1}Ho. revert H. clear Ho.
  generalize (state_or boot_state
    (@exec Memide.memide (@console_devsw Memide.memide) 0x80108000 0x80107000 0 0 0 [] (chars "sh") [] lost_state)).
  intros s [H|(_ & _ & H)]; [discriminate H|]. split; [reflexivity|].
  apply (f_equal (lookup 0%nat)) in H. rewrite !list_lookup_fmap in H.
  destruct (procs s !! 0%nat) as [p|]; [|discriminate H].
  injection H as H1 H2. simpl. congruence.
Defined.
