(* ===== verification/TrapSpec.v ===== *)
(** * Delivery of signals

    On the way back to user space handling_signal() makes the process run the
    handlers of its pending signals: it pushes a frame for each on the user
    stack, such that a handler's return leads through sigretimplicit to the next
    handler and at last to the interrupted code. *)

From S2P Require Import Prelude Param Bytes String State Spinlock Sched Sleeplock Bio Log Kalloc Vm VmSpec VmUser VmProps Fs Console ConsoleSpec Pipe File Proc Sysarg Exec Sysfile Sysproc Trap.

(** ** User memory *)

(** The bytes of user memory from [lo] to [hi] are writable, at the distinct
    kernel addresses [f va], and writing there does not change how the range is
    mapped (the pages hold no page table). *)
Record user_range (s : kstate) (lo hi : Z) (f : Z → Z) : Prop := {
  ur_map m va :
    (∀ a, (∀ v, lo ≤ v < hi → a ≠ f v) → m !! a = mem_bytes (k_mem s) !! a) →
    lo ≤ va < hi → translate true va (set_bytes_of (λ _, m) s) = Some (f va);
  ur_inj v w : lo ≤ v < hi → lo ≤ w < hi → f v = f w → v = w
}.

(** A word of user memory. *)
Definition uword (m : mem) (f : Z → Z) (va : Z) : Z :=
  of_le4 (byte m (f va)) (byte m (f (va + 1))) (byte m (f (va + 2))) (byte m (f (va + 3))).

(** The memory after storing the word [v] at [va]. *)
Definition put_word (f : Z → Z) (va v : Z) (m : mem) : mem :=
  <[f (va + 3) := v / 2 ^ 24 mod 256]> (<[f (va + 2) := v / 2 ^ 16 mod 256]>
    (<[f (va + 1) := v / 2 ^ 8 mod 256]> (<[f va := v mod 256]> m))).

Lemma byte_insert_eq m a v : byte (<[a := v]> m) a = v.
Proof. by rewrite /byte lookup_insert_eq. Qed.

Lemma byte_insert_ne m a b v : a ≠ b → byte (<[a := v]> m) b = byte m b.
Proof. intros. by rewrite /byte lookup_insert_ne. Qed.

Section range.
Context (s : kstate) (lo hi : Z) (f : Z → Z).
Hypothesis HR : user_range s lo hi f.

(** The memory differs from that of [s] in the range only. *)
Definition within (m : mem) : Prop :=
  ∀ a, (∀ v, lo ≤ v < hi → a ≠ f v) → m !! a = mem_bytes (k_mem s) !! a.

Lemma f_ne v w : lo ≤ v < hi → lo ≤ w < hi → v ≠ w → f v ≠ f w.
Proof. intros ? ? Hne E. apply Hne. by apply (ur_inj _ _ _ _ HR). Qed.

Lemma within_put va v m : lo ≤ va → va + 4 ≤ hi → within m → within (put_word f va v m).
Proof.
  intros Hlo Hhi Hm a Ha. rewrite /put_word !lookup_insert_ne; try (apply Hm; done).
  all: intros E; symmetry in E; revert E; apply Ha; lia.
Qed.

Lemma uword_put va v m :
  lo ≤ va → va + 4 ≤ hi → 0 ≤ v < 2 ^ 32 → uword (put_word f va v m) f va = v.
Proof.
  intros Hlo Hhi Hv. rewrite /uword /put_word.
  repeat (rewrite byte_insert_eq || (rewrite byte_insert_ne; [apply f_ne; lia|])).
  rewrite /of_le4. Z.to_euclidean_division_equations; lia.
Qed.

Lemma uword_put_ne va v m w :
  lo ≤ va → va + 4 ≤ hi → lo ≤ w → w + 4 ≤ hi → (w + 4 ≤ va ∨ va + 4 ≤ w) →
  uword (put_word f va v m) f w = uword m f w.
Proof.
  intros. rewrite /uword /put_word. rewrite !byte_insert_ne //; apply f_ne; lia.
Qed.

(** A store by the kernel to a user address, in a state that maps the range as
    [s] does. *)
Lemma vstore32_Ok va v s' :
  lo ≤ va → va + 4 ≤ hi → within (mem_bytes (k_mem s')) → hw_cr3 (k_hw s') = hw_cr3 (k_hw s) →
  vstore32 va v s' = Ok tt (set_bytes_of (put_word f va v) s').
Proof.
  intros Hlo Hhi Hm Hcr.
  assert (∀ w, lo ≤ w < hi → vaddr_w w s' = Ok (f w) s') as Hw.
  { intros w Hw. rewrite /vaddr_w bind_gets.
    assert (translate true w s' = Some (f w)) as ->; [|done].
    rewrite -(ur_map _ _ _ _ HR _ _ Hm Hw). by rewrite /translate Hcr. }
  rewrite /vstore32 (bind_Ok _ _ _ _ _ (Hw va _)); [lia|].
  rewrite (bind_Ok _ _ _ _ _ (Hw (va + 1) _)); [lia|].
  rewrite (bind_Ok _ _ _ _ _ (Hw (va + 2) _)); [lia|].
  rewrite (bind_Ok _ _ _ _ _ (Hw (va + 3) _)); [lia|done].
Qed.

End range.

(** ** The state during delivery *)

Section delivery.
Context (s : kstate) (i : nat) (p0 : proc) (lo hi : Z) (f : Z → Z).
Hypothesis HR : user_range s lo hi f.
Hypothesis Hcur : k_proc s = Some i.
Hypothesis Hp0 : procs s !! i = Some p0.
Hypothesis Hlock : k_locks s !! LkCons = None.

(** [s] with the current process [p], memory [m], the console [x] and the CPU [c]. *)
Definition delivered (c : cpu) (p : proc) (m : mem) (x : cons_st) : kstate :=
  KState c (k_proc s) (k_locks s) (k_slocks s)
         (Ptable (<[i := p]> (procs s)) (pt_nextpid (k_pt s)) (pt_initproc (k_pt s)))
         (Mem m (km_freelist (k_mem s)) (km_use_lock (k_mem s))) (k_bio s) (k_log s) (k_fs s) (k_files s) (k_ticks s)
         (Hw (hw_cr3 (k_hw s)) (hw_esp0 (k_hw s)) (kpgdir (k_hw s)) x).

(** [s'] is [s] with the current process [p], memory [m], and [o] printed on the
    console; of the CPU only the stale [intena] may differ. *)
Record delivering (s' : kstate) (p : proc) (m : mem) (o : list Z) : Prop := {
  dl_state : ∃ c x, s' = delivered c p m x ∧ (c = k_cpu s ∨ c = crit_cpu (k_cpu s)) ∧ printed o (cons_of s) x;
  dl_within : within s lo hi f m
}.

Lemma i_lt : (i < length (procs s))%nat.
Proof. exact (lookup_lt_Some _ _ _ Hp0). Qed.

Lemma dl_lookup s' p m o : delivering s' p m o → procs s' !! i = Some p.
Proof. intros [(c & x & -> & _) _]. apply list_lookup_insert_eq, i_lt. Qed.

Lemma dl_cur_Ok s' p m o : delivering s' p m o → cur s' = Ok i s'.
Proof. intros [(c & x & -> & _) _]. by rewrite /cur bind_gets /= Hcur. Qed.

Lemma dl_getproc s' p m o : delivering s' p m o → getproc i s' = Ok p s'.
Proof. intros D. apply getproc_Ok. exact (dl_lookup _ _ _ _ D). Qed.

Lemma dl_curproc s' p m o : delivering s' p m o → curproc s' = Ok p s'.
Proof. intros D. rewrite /curproc (bind_Ok _ _ _ _ _ (dl_cur_Ok _ _ _ _ D)). exact (dl_getproc _ _ _ _ D). Qed.

Lemma dl_updproc s' p m o g :
  delivering s' p m o → ∃ s'', updproc i g s' = Ok tt s'' ∧ delivering s'' (g p) m o.
Proof.
  intros [(c & x & -> & Hx) Hm]. exists (delivered c (g p) m x). split; [|split; [by exists c, x|done]].
  rewrite /updproc /modify. f_equal. rewrite /delivered /set_procs /set_pt /=. f_equal. f_equal.
  apply list_eq. intros j. rewrite /procs /=. destruct (decide (j = i)) as [->|Hne].
  - rewrite list_lookup_alter_eq !list_lookup_insert_eq //; apply i_lt.
  - by rewrite list_lookup_alter_ne; [congruence|]; rewrite !list_lookup_insert_ne; congruence.
Qed.

Lemma dl_store s' p m o va v :
  delivering s' p m o → lo ≤ va → va + 4 ≤ hi →
  ∃ s'', vstore32 va v s' = Ok tt s'' ∧ delivering s'' p (put_word f va v m) o.
Proof.
  intros [(c & x & -> & Hx) Hm] Hlo Hhi. rewrite (vstore32_Ok s lo hi f HR va v (delivered c p m x)) //.
  eexists. split; [done|]. split; [by exists c, x|by apply (within_put s lo hi f)].
Qed.

Lemma dl_cprintf s' p m o fmt args out :
  cpu_ok (k_cpu s) → delivering s' p m o → format fmt args = Some out →
  ∃ s'', cprintf fmt args s' = Ok tt s'' ∧ delivering s'' p m (o ++ concat (echo <$> out)).
Proof.
  intros Hcpu [(c & x & -> & Hc & Hx) Hm] Hf.
  assert (cpu_ok c ∧ crit_cpu c = crit_cpu (k_cpu s)) as [Hok Hcc].
  { destruct Hc as [-> | ->]; [done|]. split; [by destruct Hcpu|]. rewrite /crit_cpu /=. by destruct (ncli (k_cpu s) =? 0). }
  destruct (cprintf_Ok fmt args out (delivered c p m x)) as (x' & c' & H1 & P & Hc'); [done|exact (pr_ok _ _ _ Hx)|done|done|].
  exists (delivered c' p m x'). split; [exact H1|]. split; [|done]. exists c', x'. split_and!; [done| |exact (printed_trans _ _ _ _ _ Hx P)].
  simpl in Hc'. rewrite Hcc in Hc'. destruct Hc' as [-> | ->]; [done|by right].
Qed.

(** The process with its user registers changed. *)
Definition at_regs (eip esp : Z) (p : proc) : proc := set_tf (set_eip_esp eip esp (p_tf p)) p.

(** One pushed word. *)
Lemma dl_push s' p m o v e :
  delivering s' p m o → tf_esp (p_tf p) = e + 4 → lo ≤ e → e + 4 ≤ hi → 0 ≤ lo → hi ≤ 2 ^ 32 →
  ∃ s'', push_user v s' = Ok tt s'' ∧ delivering s'' (at_regs (tf_eip (p_tf p)) e p) (put_word f e v m) o.
Proof.
  intros D He Hlo Hhi H0 H32. rewrite /push_user (bind_Ok _ _ _ _ _ (dl_cur_Ok _ _ _ _ D)).
  destruct (dl_updproc s' p m o (λ p, set_tf (set_eip_esp (tf_eip (p_tf p)) (u32 (tf_esp (p_tf p) - 4)) (p_tf p)) p) D)
    as (s1 & H1 & D1). simpl in D1. rewrite He u32_id in D1; [lia|].
  replace (e + 4 - 4) with e in D1 by lia.
  rewrite (bind_Ok _ _ _ _ _ H1) (bind_Ok _ _ _ _ _ (dl_getproc _ _ _ _ D1)).
  destruct (dl_store s1 _ m o e v D1) as (s2 & H2 & D2); [lia..|]. eauto.
Qed.

(** The process after pushHandlingSig(): three words lower, at its handler. *)
Definition handler_of (p : proc) (sig : nat) : Z := default 0 (p_sighandlers p !! sig).

Definition framed_proc (p : proc) (sig : nat) : proc :=
  at_regs (handler_of p sig) (tf_esp (p_tf p) - 12) (clear_pending sig p).

Definition frame (p : proc) (sig : nat) (m : mem) : mem :=
  put_word f (tf_esp (p_tf p) - 12) (p_sigretAdd p)
    (put_word f (tf_esp (p_tf p) - 8) (Z.of_nat sig)
      (put_word f (tf_esp (p_tf p) - 4) (tf_eip (p_tf p)) m)).

Lemma dl_pushHandlingSig s' p m o sig :
  delivering s' p m o → lo ≤ tf_esp (p_tf p) - 12 → tf_esp (p_tf p) ≤ hi → 0 ≤ lo → hi ≤ 2 ^ 32 →
  ∃ s'', pushHandlingSig sig s' = Ok tt s'' ∧ delivering s'' (framed_proc p sig) (frame p sig m) o.
Proof.
  intros D Hlo Hhi H0 H32. rewrite /pushHandlingSig (bind_Ok _ _ _ _ _ (dl_cur_Ok _ _ _ _ D)).
  destruct (dl_updproc _ _ _ _ (clear_pending sig) D) as (s1 & H1 & D1).
  rewrite (bind_Ok _ _ _ _ _ H1) (bind_Ok _ _ _ _ _ (dl_getproc _ _ _ _ D1)).
  set (e := tf_esp (p_tf p)) in *.
  destruct (dl_push _ _ _ _ (tf_eip (p_tf p)) (e - 4) D1) as (s2 & H2 & D2); [simpl; fold e; lia..|].
  rewrite (bind_Ok _ _ _ _ _ H2).
  destruct (dl_push _ _ _ _ (Z.of_nat sig) (e - 8) D2) as (s3 & H3 & D3); [simpl; lia..|].
  rewrite (bind_Ok _ _ _ _ _ H3).
  destruct (dl_push _ _ _ _ (p_sigretAdd p) (e - 12) D3) as (s4 & H4 & D4); [simpl; lia..|].
  rewrite (bind_Ok _ _ _ _ _ H4) (bind_Ok _ _ _ _ _ (dl_getproc _ _ _ _ D4)).
  exact (dl_updproc _ _ _ _ (set_tf (set_eip_esp (handler_of p sig) (e - 12) (p_tf p))) D4).
Qed.

(** What one turn of handling_signal()'s loop does to process and memory. *)
Definition deliver_one (pm : proc * mem) (sig : nat) : proc * mem :=
  let '(p, m) := pm in
  if default 0 (p_pending p !! sig) =? 1 then
    if handler_of p sig =? defualtHandlerAdd then (clear_pending sig p, m)
    else (framed_proc p sig, frame p sig m)
  else (p, m).

Lemma clear_pending_twice sig p : clear_pending sig (clear_pending sig p) = clear_pending sig p.
Proof. rewrite /clear_pending /=. by rewrite list_insert_insert_eq. Qed.

(** What the default handler of signal [sig] prints. *)
Definition message (pid : Z) (sig : nat) : list Z :=
  default [] (format (chars "A signal number %d was accepted by process %d") [AInt (Z.of_nat sig); AInt pid]).

Definition told (p : proc) (sig : nat) : list Z :=
  if (default 0 (p_pending p !! sig) =? 1) && (handler_of p sig =? defualtHandlerAdd)
  then concat (echo <$> message (p_pid p) sig) else [].

Lemma handling_one_Ok s' p m o sig :
  cpu_ok (k_cpu s) → delivering s' p m o → lo ≤ tf_esp (deliver_one (p, m) sig).1.(p_tf) → tf_esp (p_tf p) ≤ hi →
  0 ≤ lo → hi ≤ 2 ^ 32 →
  ∃ s'', handling_one sig s' = Ok tt s'' ∧
         delivering s'' (deliver_one (p, m) sig).1 (deliver_one (p, m) sig).2 (o ++ told p sig).
Proof.
  intros Hcpu D Hlo Hhi H0 H32. rewrite /handling_one (bind_Ok _ _ _ _ _ (dl_cur_Ok _ _ _ _ D)).
  rewrite (bind_Ok _ _ _ _ _ (dl_getproc _ _ _ _ D)). rewrite /deliver_one /told in Hlo |- *.
  destruct (default 0 (p_pending p !! sig) =? 1); [|by exists s'; rewrite app_nil_r].
  destruct (dl_updproc _ _ _ _ (clear_pending sig) D) as (s1 & H1 & D1). rewrite /when (bind_Ok _ _ _ _ _ H1).
  rewrite /handler_of in Hlo |- *. destruct (_ =? defualtHandlerAdd); cbn [andb].
  - destruct (dl_cprintf s1 _ m o (chars "A signal number %d was accepted by process %d")
      [AInt (Z.of_nat sig); AInt (p_pid p)] (message (p_pid p) sig) Hcpu D1 eq_refl) as (s2 & H2 & D2).
    rewrite /defaultSigHandler bind_assoc (bind_Ok _ _ _ _ _ (dl_curproc _ _ _ _ D1)) (bind_Ok _ _ _ _ _ H2).
    destruct (dl_updproc _ _ _ _ (clear_pending sig) D2) as (s3 & H3 & D3).
    exists s3. split; [done|]. by rewrite clear_pending_twice in D3.
  - destruct (dl_pushHandlingSig s1 _ m o sig D1) as (s2 & H2 & D2); [done..|].
    exists s2. split; [done|]. rewrite /framed_proc clear_pending_twice in D2. rewrite app_nil_r. exact D2.
Qed.

End delivery.

(** ** The frames on the user stack *)

Section frames.
Context (s : kstate) (i : nat) (p0 : proc) (lo : Z) (f : Z → Z).

Let eip0 := tf_eip (p_tf p0).
Let esp0 := tf_esp (p_tf p0).
Let sigret := p_sigretAdd p0.

(** The signals that run a handler of the process. *)
Definition custom (sig : nat) : bool :=
  (default 0 (p_pending p0 !! sig) =? 1) && negb (handler_of p0 sig =? defualtHandlerAdd).

Definition customs (l : list nat) : list nat := filter (λ a, custom a = true) l.

(** Frames for the handlers of [L], outermost first, with [ld] reading the user's
    words: at each handler's entry the stack holds its return address
    sigretimplicit, its argument, and what sigretimplicit returns to. *)
Fixpoint framed (ld : Z → Z) (L : list nat) (eip esp : Z) : Prop :=
  match L with
  | [] => eip = eip0 ∧ esp = esp0
  | a :: L' =>
      eip = handler_of p0 a ∧ ld esp = sigret ∧ ld (esp + 4) = Z.of_nat a ∧
      framed ld L' (ld (esp + 8)) (esp + 12)
  end.

Lemma framed_esp ld L eip esp : framed ld L eip esp → esp = esp0 - 12 * Z.of_nat (length L).
Proof.
  revert eip esp. induction L as [|a L IH]; intros eip esp; simpl; [lia|].
  intros (_ & _ & _ & H%IH). lia.
Qed.

Lemma framed_ext ld ld' L eip esp :
  (∀ va, esp ≤ va → va + 4 ≤ esp0 → ld' va = ld va) → framed ld L eip esp → framed ld' L eip esp.
Proof.
  revert eip esp. induction L as [|a L IH]; intros eip esp Hext; simpl; [done|].
  intros (H1 & H2 & H3 & H4). pose proof (framed_esp _ _ _ _ H4).
  rewrite !Hext; [lia..|]. split_and!; try done. apply IH; [|done]. intros. apply Hext; lia.
Qed.

Hypothesis HR : user_range s lo esp0 f.
Hypothesis Hlo : 0 ≤ lo.
Hypothesis Hhi : esp0 ≤ 2 ^ 32.
Hypothesis Heip : 0 ≤ eip0 < 2 ^ 32.
Hypothesis Hsigret : 0 ≤ sigret < 2 ^ 32.
Hypothesis Hhandlers : Forall (λ h, 0 ≤ h < 2 ^ 32) (p_sighandlers p0).

(** A flag after its signal was looked at. *)
Definition cleared (v : Z) : Z := if v =? 1 then 0 else v.

(** Process and memory after the signals of [l] were looked at. *)
Record treated (l : list nat) (p : proc) (m : mem) : Prop := {
  tr_eip : 0 ≤ tf_eip (p_tf p) < 2 ^ 32;
  tr_frames : framed (uword m f) (rev (customs l)) (tf_eip (p_tf p)) (tf_esp (p_tf p));
  tr_pending sig : sig ∉ l → p_pending p !! sig = p_pending p0 !! sig;
  tr_cleared sig : sig ∈ l → p_pending p !! sig = cleared <$> p_pending p0 !! sig;
  tr_rest : p = at_regs (tf_eip (p_tf p)) (tf_esp (p_tf p)) (set_pending (p_pending p) p0)
}.

Lemma handler_range sig : 0 ≤ handler_of p0 sig < 2 ^ 32.
Proof.
  rewrite /handler_of. destruct (p_sighandlers p0 !! sig) as [h|] eqn:E; [|done].
  exact (Forall_lookup_1 _ _ _ _ Hhandlers E).
Qed.

Lemma customs_snoc l a : customs (l ++ [a]) = customs l ++ (if custom a then [a] else []).
Proof. rewrite /customs filter_app filter_cons filter_nil. by case_decide; destruct (custom a). Qed.

Lemma treated_esp l p m : treated l p m → tf_esp (p_tf p) = esp0 - 12 * Z.of_nat (length (customs l)).
Proof. intros T. rewrite (framed_esp _ _ _ _ (tr_frames _ _ _ T)) length_rev //. Qed.

Lemma pending_flag (l : list Z) (sig : nat) : (default 0 (l !! sig) =? 1) = true → l !! sig = Some 1.
Proof. destruct (l !! sig) as [v|]; [|done]. simpl. by intros ->%Z.eqb_eq. Qed.

(** Clearing the flag of [sig] treats it, as far as the flags go. *)
Lemma treated_flags l sig p (m : mem) :
  treated l p m → sig ∉ l → p_pending p0 !! sig = Some 1 →
  (∀ a, a ∉ l ++ [sig] → <[sig := 0]> (p_pending p) !! a = p_pending p0 !! a) ∧
  (∀ a, a ∈ l ++ [sig] → <[sig := 0]> (p_pending p) !! a = cleared <$> p_pending p0 !! a).
Proof.
  intros T Hsig H1. split; intros a Ha.
  - rewrite not_elem_of_app in Ha. destruct Ha as [Hal Has].
    rewrite list_lookup_insert_ne; [intros ->; apply Has; apply list_elem_of_here|]. by apply (tr_pending _ _ _ T).
  - destruct (decide (a = sig)) as [->|Hne].
    + rewrite list_lookup_insert_eq; [|by rewrite H1]. apply (lookup_lt_Some _ _ 1). by rewrite (tr_pending _ _ _ T sig Hsig).
    + rewrite list_lookup_insert_ne; [congruence|]. apply (tr_cleared _ _ _ T).
      apply elem_of_app in Ha as [Ha|Ha]; [done|]. apply list_elem_of_singleton in Ha. congruence.
Qed.

Lemma framed_push l p m sig :
  treated l p m → (sig < NUMSIG)%nat → lo ≤ tf_esp (p_tf p) - 12 →
  framed (uword (frame f p sig m) f) (sig :: rev (customs l)) (handler_of p0 sig) (tf_esp (p_tf p) - 12).
Proof.
  intros T Hnum Hroom. rewrite /NUMSIG in Hnum.
  pose proof (treated_esp _ _ _ T) as He. pose proof (tr_eip _ _ _ T).
  assert (p_sigretAdd p = sigret) as Hsr by (rewrite (tr_rest _ _ _ T) //).
  set (e := tf_esp (p_tf p)) in *. assert (e ≤ esp0) by lia. rewrite /frame. fold e. simpl. rewrite Hsr.
  split_and!; [done|..].
  - apply (uword_put s lo esp0 f HR); lia.
  - rewrite (uword_put_ne s lo esp0 f HR); [lia..|].
    replace (e - 12 + 4) with (e - 8) by lia. apply (uword_put s lo esp0 f HR); lia.
  - replace (e - 12 + 8) with (e - 4) by lia. replace (e - 12 + 12) with e by lia.
    rewrite (uword_put_ne s lo esp0 f HR); [lia..|]. rewrite (uword_put_ne s lo esp0 f HR); [lia..|].
    rewrite (uword_put s lo esp0 f HR); [lia..|]. eapply framed_ext; [|exact (tr_frames _ _ _ T)].
    intros va Hva Hva'. fold e in Hva. rewrite !(uword_put_ne s lo esp0 f HR) //; lia.
Qed.

Lemma regs_pending p e sp q e' sp' sig :
  p = at_regs e sp (set_pending q p0) →
  at_regs e' sp' (clear_pending sig p) = at_regs e' sp' (set_pending (<[sig := 0]> (p_pending p)) p0).
Proof. by intros ->. Qed.

Lemma treated_same l p m sig :
  treated l p m → sig ∉ l → p_pending p !! sig = p_pending p0 !! sig ∧ handler_of p sig = handler_of p0 sig ∧ p_pid p = p_pid p0.
Proof. intros T Hsig. split; [by apply (tr_pending _ _ _ T)|]. by rewrite (tr_rest _ _ _ T). Qed.

Lemma told_same l p m sig : treated l p m → sig ∉ l → told p sig = told p0 sig.
Proof. intros T Hsig. destruct (treated_same l p m sig T Hsig) as (E1 & E2 & E3). by rewrite /told E1 E2 E3. Qed.

Lemma treated_one l p m sig :
  treated l p m → sig ∉ l → (sig < NUMSIG)%nat → lo ≤ esp0 - 12 * Z.of_nat (length (customs (l ++ [sig]))) →
  treated (l ++ [sig]) (deliver_one f (p, m) sig).1 (deliver_one f (p, m) sig).2.
Proof.
  intros T Hsig Hnum Hroom. rewrite customs_snoc in Hroom. pose proof (treated_esp _ _ _ T) as He.
  pose proof (tr_rest _ _ _ T) as Hrest. destruct (treated_same l p m sig T Hsig) as (Hpd & Hh & _).
  rewrite /deliver_one Hpd Hh. rewrite /custom in Hroom.
  destruct (default 0 (p_pending p0 !! sig) =? 1) eqn:Hp1; simpl.
  - pose proof (treated_flags l sig p m T Hsig (pending_flag _ _ Hp1)) as [HF1 HF2].
    destruct (handler_of p0 sig =? defualtHandlerAdd) eqn:Hdef; simpl in Hroom |- *.
    + split; simpl; try apply T; try done.
      * rewrite customs_snoc /custom Hp1 Hdef /= app_nil_r. apply T.
      * rewrite {1}Hrest //.
    + rewrite length_app /= in Hroom. rewrite /framed_proc Hh. split; simpl; try done.
      * apply handler_range.
      * rewrite customs_snoc /custom Hp1 Hdef /= rev_app_distr. apply framed_push; [done..|lia].
      * exact (regs_pending _ _ _ _ _ _ _ Hrest).
  - split; try apply T.
    + rewrite customs_snoc /custom Hp1 /= app_nil_r. apply T.
    + intros a Ha. apply (tr_pending _ _ _ T). intros Hin. apply Ha. apply elem_of_app. by left.
    + intros a Ha. apply elem_of_app in Ha as [Ha|Ha]; [by apply (tr_cleared _ _ _ T)|].
      apply list_elem_of_singleton in Ha as ->. rewrite Hpd. destruct (p_pending p0 !! sig) as [v|]; [|done].
      simpl in Hp1 |- *. by rewrite /cleared Hp1.
Qed.

End frames.

(** ** Main property *)

(** The user's side. A handler entered at [eip] with stack pointer [esp] finds
    its argument at [esp + 4]; it returns to the address at [esp], which must be
    [sigret], where sigretimplicit adds 4 to esp and returns once more. [unwind]
    follows [n] such returns: the handlers run with their arguments, and the eip
    and esp at the end. [ld] reads the words of user memory, which handlers
    leave alone from their own frame upwards. *)
Fixpoint unwind (ld : Z → Z) (sigret : Z) (n : nat) (eip esp : Z) : list (Z * Z) * (Z * Z) :=
  match n with
  | O => ([], (eip, esp))
  | S n' =>
      if ld esp =? sigret then
        let '(l, fin) := unwind ld sigret n' (ld (esp + 8)) (esp + 12) in
        ((eip, ld (esp + 4)) :: l, fin)
      else ([], (eip, esp))
  end.

Lemma unwind_framed p0 ld L eip esp :
  framed p0 ld L eip esp →
  unwind ld (p_sigretAdd p0) (length L) eip esp =
  ((λ a, (handler_of p0 a, Z.of_nat a)) <$> L, (tf_eip (p_tf p0), tf_esp (p_tf p0))).
Proof.
  revert eip esp. induction L as [|a L IH]; intros eip esp; simpl.
  - by intros [-> ->].
  - intros (-> & -> & -> & H). by rewrite Z.eqb_refl (IH _ _ H).
Qed.

Section signals.
Context (s : kstate) (i : nat) (p0 : proc) (f : Z → Z).

(** The signals that will run a handler, in the order of their numbers. *)
Definition to_run : list nat := customs p0 (seq 0 NUMSIG).

(** A process about to return to user space, with [12] bytes of stack for every
    handler to run. *)
Record signal_ready : Prop := {
  sr_cur : k_proc s = Some i;
  sr_proc : procs s !! i = Some p0;
  sr_cons : k_locks s !! LkCons = None ∧ cons_ok (cons_of s) ∧ cpu_ok (k_cpu s);
  sr_stack : user_range s (tf_esp (p_tf p0) - 12 * Z.of_nat (length to_run)) (tf_esp (p_tf p0)) f;
  sr_esp : 12 * Z.of_nat (length to_run) ≤ tf_esp (p_tf p0) < 2 ^ 32;
  sr_eip : 0 ≤ tf_eip (p_tf p0) < 2 ^ 32;
  sr_sigret : 0 ≤ p_sigretAdd p0 < 2 ^ 32;
  sr_handlers : Forall (λ h, 0 ≤ h < 2 ^ 32) (p_sighandlers p0)
}.

Lemma customs_prefix l1 l2 : (length (customs p0 l1) ≤ length (customs p0 (l1 ++ l2)))%nat.
Proof. rewrite /customs filter_app length_app. lia. Qed.

(** What the pending signals without a handler of the process print. *)
Definition notices (l : list nat) : list Z := concat (told p0 <$> l).

Lemma notices_snoc l sig : notices (l ++ [sig]) = notices l ++ told p0 sig.
Proof. by rewrite /notices fmap_app concat_app /= app_nil_r. Qed.

Lemma handling_loop lo esp0 s1 p m done todo :
  signal_ready → lo = tf_esp (p_tf p0) - 12 * Z.of_nat (length to_run) → esp0 = tf_esp (p_tf p0) →
  done ++ todo = seq 0 NUMSIG → delivering s i lo esp0 f s1 p m (notices done) → treated p0 f done p m →
  ∃ s2 p2 m2, for_each todo handling_one s1 = Ok tt s2 ∧
    delivering s i lo esp0 f s2 p2 m2 (notices (seq 0 NUMSIG)) ∧ treated p0 f (seq 0 NUMSIG) p2 m2.
Proof.
  intros [Hcur Hproc (Hlk & Hcons & Hcpu) HR Hesp Heip Hsr Hh] -> ->. revert s1 p m done.
  induction todo as [|sig todo IH]; intros s1 p m done Hl D T; simpl.
  { rewrite app_nil_r in Hl. rewrite Hl in T, D. by exists s1, p, m. }
  assert (sig ∉ done ∧ (sig < NUMSIG)%nat) as [Hnot Hnum].
  { pose proof (NoDup_seq 0 NUMSIG) as Hnd. rewrite -Hl NoDup_app in Hnd. destruct Hnd as (_ & Hd & _). split.
    - intros Hin. apply (Hd sig Hin). apply list_elem_of_here.
    - assert (sig ∈ seq 0 NUMSIG) as Hin; [|by apply elem_of_seq in Hin as [_ ?]].
      rewrite -Hl. apply elem_of_app. right. apply list_elem_of_here. }
  assert (length (customs p0 (done ++ [sig])) ≤ length to_run)%nat as Hle.
  { rewrite /to_run -Hl. replace (done ++ sig :: todo) with ((done ++ [sig]) ++ todo) by rewrite -app_assoc //.
    apply customs_prefix. }
  assert (treated p0 f (done ++ [sig]) (deliver_one f (p, m) sig).1 (deliver_one f (p, m) sig).2) as T'.
  { apply (treated_one s p0 _ f HR); try done; lia. }
  pose proof (treated_esp _ _ _ _ _ T) as E1. pose proof (treated_esp _ _ _ _ _ T') as E2.
  destruct (handling_one_Ok s i p0 _ _ f HR Hcur Hproc Hlk s1 p m (notices done) sig Hcpu D) as (s2 & H2 & D2); [lia..|].
  rewrite (told_same p0 f done p m sig T Hnot) -notices_snoc in D2.
  rewrite (bind_Ok _ _ _ _ _ H2). apply (IH s2 _ _ (done ++ [sig])) with (2 := D2) (3 := T'). by rewrite -app_assoc.
Qed.


End signals.

(** ** Stacks in an address space *)

(** The kernel address of a user address in the address space [U]. *)
Definition user_addr (U : gmap Z Z) (va : Z) : Z := default 0 (U !! (va / PGSIZE)) + va mod PGSIZE.

Lemma user_addr_page U va p : U !! (va / PGSIZE) = Some p → in_page p (user_addr U va).
Proof.
  intros E. rewrite /user_addr E /in_page /=. pose proof (Z.mod_pos_bound va PGSIZE ltac:(done)). lia.
Qed.

(** Pages mapped writable are a range of user memory. *)
Lemma aspace_user_range end_ fl pgdir T U s s' lo hi :
  aspace end_ fl pgdir T U s → kb s' = kb s → hw_cr3 (k_hw s') = V2P pgdir → 0 ≤ lo → hi ≤ KERNBASE →
  (∀ va, lo ≤ va < hi → is_Some (U !! (va / PGSIZE)) ∧ writable (pte_of (kb s) pgdir va) = true) →
  user_range s' lo hi (user_addr U).
Proof.
  intros HI Hkb Hcr Hlo Hhi Hmap. pose proof (vi_ptab _ _ _ _ _ (as_vm _ _ _ _ _ _ HI)) as Hpt.
  assert (P2V (V2P pgdir) = pgdir) as Hdir.
  { apply (page_V2P end_). apply Hpt. }
  split.
  - intros m va Hm Hva. destruct (Hmap va Hva) as [[p Hp] Hw].
    pose proof (as_map _ _ _ _ _ _ HI va) as Hpte. rewrite Hp in Hpte. destruct Hpte as [Hpr Haddr]; [lia|].
    assert (∀ va', pte_of m pgdir va' = pte_of (kb s) pgdir va') as Hsame.
    { refine (proj2 (ptab_frame end_ _ _ _ T _ Hpt)). intros t a Ht Ha. rewrite /byte Hm ?Hkb //.
      intros v Hv ->. destruct (Hmap v Hv) as [[q Hq] _].
      destruct (as_frames _ _ _ _ _ _ HI _ _ Hq) as (_ & Hqok & _ & Hqt). apply Hqt.
      rewrite (page_disjoint end_ q t (user_addr U v)) //.
      + by apply (tables_ok end_ (kb s) pgdir T).
      + by apply user_addr_page. }
    rewrite /translate /=. replace (KERNBASE <=? va) with false by lia. rewrite Hcr Hdir Hsame Hpr Hw /=.
    rewrite /ka_of Haddr /user_addr Hp /=.
    destruct (as_frames _ _ _ _ _ _ HI _ _ Hp) as (_ & Hpok & _). by destruct (page_V2P _ _ Hpok) as (_ & _ & _ & _ & ->).
  - intros v w Hv Hw E. destruct (Hmap v Hv) as [[p Hp] _], (Hmap w Hw) as [[q Hq] _].
    pose proof (user_addr_page _ _ _ Hp) as Hinp. pose proof (user_addr_page _ _ _ Hq) as Hinq. rewrite -E in Hinq.
    destruct (as_frames _ _ _ _ _ _ HI _ _ Hp) as (_ & Hpok & _), (as_frames _ _ _ _ _ _ HI _ _ Hq) as (_ & Hqok & _).
    pose proof (page_disjoint end_ _ _ _ Hpok Hqok Hinp Hinq) as <-.
    pose proof (as_inj _ _ _ _ _ _ HI _ _ _ Hp Hq) as En. rewrite /user_addr Hp Hq /= in E.
    rewrite (Z.div_mod v PGSIZE) // (Z.div_mod w PGSIZE) // En. lia.
Qed.

(** ** Witness *)

(** A process with three pending signals, two of them with handlers, its stack in
    the page at address 0. *)
Definition sig_proc : proc :=
  Proc PGSIZE 0x8010e000 0 RUNNING 1 None
       (Trapframe 1 2 3 0 4 5 6 7 0 0 0 0 64 0 0x40 0x1b 0x200 0x800 0x23)
       CtxSched None false (replicate NOFILE None) None []
       (<[14%nat := 1]> (<[5%nat := 1]> (<[3%nat := 1]> (replicate NUMSIG 0))))
       (<[14%nat := 0x200]> (<[3%nat := 0x100]> (replicate NUMSIG defualtHandlerAdd)))
       0 0 0x300 0.

(** [s] with that process running. *)
Definition with_sig_proc (s : kstate) : kstate :=
  KState (Cpu 0 0 false false) (Some 0%nat) ∅ ∅ (Ptable [sig_proc] 2 None) (k_mem s) (k_bio s) (k_log s)
         (k_fs s) (k_files s) 0 (Hw (V2P 0x8010e000) 0 0 (hw_cons (k_hw boot_state))).

