(* ===== verification/SignalSpec.v ===== *)
(** * Registering and sending signals: signal() and sigsend()

    signal() sets a handler of the calling process, sigsend() a flag of another;
    what is registered and sent is what handling_signal() then delivers. *)

From S2P Require Import Prelude Param Bytes String State Spinlock Sched Sleeplock Kalloc Vm VmUser Fs Console Pipe File Proc TrapSpec.

(** The numbers of signals. *)
Definition sig_ok (n : Z) : bool := (0 <=? n) && (n <? Z.of_nat NUMSIG).

Lemma sig_ok_guard n : (n <? 0) || (n >? Z.of_nat NUMSIG - 1) = negb (sig_ok n).
Proof. rewrite /sig_ok /NUMSIG. destruct (Z.ltb_spec n 0), (Z.gtb_spec n (Z.of_nat 32 - 1)), (Z.leb_spec 0 n), (Z.ltb_spec n (Z.of_nat 32)); try done; lia. Qed.

(** Process [i] runs, and every process has its arrays. *)
Record sig_tables (s : kstate) (i : nat) (p : proc) : Prop := {
  sg_cur : k_proc s = Some i;
  sg_proc : procs s !! i = Some p;
  sg_len : length (procs s) = NPROC;
  sg_arrays j q : procs s !! j = Some q → length (p_pending q) = NUMSIG ∧ length (p_sighandlers q) = NUMSIG;
  sg_lock : k_locks s !! LkPtable = None;
  sg_cpu : cpu_ok (k_cpu s)
}.

(** [p] with [h] as the handler of signal [n]. *)
Definition handle (n : nat) (h : Z) (p : proc) : proc := set_sighandlers (<[n := h]> (p_sighandlers p)) p.

Lemma signal_handled s i p n h :
  sig_tables s i p →
  signal n h s =
    if sig_ok n then Ok (handler_of p (Z.to_nat n)) (set_procs (<[i := handle (Z.to_nat n) h p]> (procs s)) s)
    else Ok SIG_ERR s.
Proof.
  intros [Hc Hp _ Ha _ _]. rewrite /signal sig_ok_guard. destruct (sig_ok n) eqn:E; [|done]. cbn [negb].
  rewrite /sig_ok in E. apply andb_prop in E as [E1 E2]. destruct (Ha i p Hp) as [_ Hl].
  rewrite /cur bind_assoc bind_gets Hc bind_ret (bind_Ok _ _ _ _ _ (getproc_Ok i s p Hp)) /handler_of.
  destruct (lookup_lt_is_Some_2 (p_sighandlers p) (Z.to_nat n)) as [o Ho]; [lia|]. rewrite Ho /updproc bind_modify.
  rewrite /mret /M_ret. do 2 f_equal. apply list_eq. intros j. destruct (decide (j = i)) as [->|Hne].
  - rewrite list_lookup_alter_eq Hp list_lookup_insert_eq //. by apply (lookup_lt_Some _ _ p).
  - rewrite list_lookup_alter_ne; [congruence|]. by rewrite list_lookup_insert_ne; [congruence|].
Qed.

Lemma sigsend_run s i p pid n :
  sig_tables s i p →
  sigsend pid n s =
    if (0 <=? pid) && sig_ok n then
      match first (λ q, p_pid q =? pid) (procs s) with
      | Some j => Ok 0 (set_procs (alter (raise (Z.to_nat n)) j (procs s)) (crit s))
      | None => Ok (-1) (crit s)
      end
    else Ok (-1) s.
Proof.
  intros [_ _ Hlen Ha Hl Hcpu]. rewrite /sigsend -orb_assoc sig_ok_guard.
  assert ((pid <? 0) || negb (sig_ok n) = negb ((0 <=? pid) && sig_ok n)) as ->.
  { destruct (Z.ltb_spec pid 0), (Z.leb_spec 0 pid); try lia; by destruct (sig_ok n). }
  destruct ((0 <=? pid) && sig_ok n) eqn:E; [|done]. cbn [negb]. apply andb_prop in E as [_ E]. rewrite /sig_ok in E.
  apply andb_prop in E as [E1 E2]. rewrite bind_acquire //. set (body := λ j : nat, _).
  pose proof (scan_procs_first (λ q, p_pid q =? pid) body (enter LkPtable s) Hlen) as Hscan.
  change (procs (enter LkPtable s)) with (procs s) in Hscan.
  assert (∀ j q, procs s !! j = Some q → (p_pid q =? pid) = false → body j (enter LkPtable s) = Ok None (enter LkPtable s)) as Hskip.
  { intros j q Hj Hq. by rewrite /body (bind_Ok _ _ _ _ _ (getproc_Ok j (enter LkPtable s) q Hj)) Hq. }
  destruct (first _ (procs s)) as [j|] eqn:Hf.
  - pose proof Hf as (q & Hj & HP & _)%first_Some. rewrite (bind_Ok _ _ _ (Some 0) (set_procs (alter (raise (Z.to_nat n)) j (procs s)) (crit s))); [|done].
    apply (Hscan Hskip). destruct (Ha j q Hj) as [Hlq _]. rewrite /body (bind_Ok _ _ _ _ _ (getproc_Ok j (enter LkPtable s) q Hj)) HP.
    rewrite Hlq (proj2 (Nat.ltb_lt _ _)); [lia|]. cbn [negb]. rewrite /updproc bind_modify (bind_release _ _ s) //.
  - by rewrite (bind_Ok _ _ _ _ _ (Hscan Hskip)) (bind_Ok _ _ _ _ _ (release_enter LkPtable s Hl Hcpu)).
Qed.

(** Signal [n] is now pending for a process with handler [h]. *)
Lemma raised_to_run p n h :
  length (p_pending p) = NUMSIG → length (p_sighandlers p) = NUMSIG → (n < NUMSIG)%nat → h ≠ defualtHandlerAdd →
  let p' := raise n (handle n h p) in
  n ∈ to_run p' ∧ handler_of p' n = h ∧ ∀ k, k ≠ n → k ∈ to_run p' ↔ k ∈ to_run p.
Proof.
  intros Hl1 Hl2 Hn Hh p'. assert (handler_of p' n = h) as E by (rewrite /handler_of /= list_lookup_insert_eq //; lia).
  split_and!; [|done|].
  - rewrite /to_run /customs list_elem_of_filter elem_of_seq /custom E /= list_lookup_insert_eq; [lia|]. cbn [default from_option id].
    rewrite (proj2 (Z.eqb_neq _ _) Hh). split; [done|lia].
  - intros k Hk. rewrite /to_run /customs !list_elem_of_filter /custom /handler_of /=. by rewrite !list_lookup_insert_ne; [congruence..|].
Qed.


(** ** An example *)

(** One process, with pid 1. *)
Definition sig_state : kstate :=
  set_proc (Some 0%nat) (set_procs (<[0%nat := set_pid 1 (set_state RUNNING zero_proc)]> (procs boot_state)) boot_state).

Lemma sig_state_ok : sig_tables sig_state 0 (set_pid 1 (set_state RUNNING zero_proc)).
Proof.
  split; try done. intros j q. rewrite /sig_state /=. destruct j as [|j]; [intros [= <-]; done|].
  change (replicate 63 zero_proc !! j = Some q → length (p_pending q) = NUMSIG ∧ length (p_sighandlers q) = NUMSIG).
  by intros [-> _]%lookup_replicate.
Qed.

