(* ===== verification/SysargSpec.v ===== *)
(** * Safety of the system call arguments

    The checks of fetchint(), fetchstr() and argptr() against [proc->sz] keep the
    kernel inside the memory of the process: no argument, however malformed, makes
    it fault or look at memory the process does not have. *)

From S2P Require Import Prelude Param Bytes String State Spinlock Sched Kalloc Vm VmSpec VmUser VmProps Proc Sysarg TrapSpec.

(** The byte and the word the process sees at an address. *)
Definition ubyte (s : kstate) (va : Z) : Z := byte (kb s) (default 0 (translate false va s)).
Definition uint_at (s : kstate) (va : Z) : Z :=
  of_le4 (ubyte s va) (ubyte s (va + 1)) (ubyte s (va + 2)) (ubyte s (va + 3)).

(** A process running in the kernel, with all its memory mapped. *)
Record in_syscall (s : kstate) (i : nat) (p : proc) : Prop := {
  is_cur : k_proc s = Some i;
  is_proc : procs s !! i = Some p;
  is_sz : 0 ≤ p_sz p ≤ KERNBASE;
  is_mapped va : 0 ≤ va < p_sz p → is_Some (translate false va s)
}.

(** Where the [n]th argument lies, and what it is if it lies in the process. *)
Definition arg_addr (p : proc) (n : Z) : Z := u32 (tf_esp (p_tf p) + 4 + 4 * n).

Definition arg_word (s : kstate) (p : proc) (n : Z) : option Z :=
  if bool_decide (arg_addr p n + 4 ≤ p_sz p) then Some (u32 (uint_at s (arg_addr p n))) else None.

(** [r] is the result of looking for a NUL-terminated string at [a]. *)
Definition string_result (s : kstate) (p : proc) (a : Z) (r : option (list Z)) : Prop :=
  match r with
  | Some str =>
      a + Z.of_nat (length str) < p_sz p ∧ ubyte s (a + Z.of_nat (length str)) = 0 ∧
      ∀ k c, str !! k = Some c → c = ubyte s (a + Z.of_nat k) ∧ c ≠ 0
  | None => ∀ va, a ≤ va < p_sz p → ubyte s va ≠ 0
  end.

Section args.
Context (s : kstate) (i : nat) (p : proc).
Hypothesis HS : in_syscall s i p.

Lemma curproc_Ok : curproc s = Ok p s.
Proof.
  rewrite /curproc /cur bind_assoc bind_gets (is_cur _ _ _ HS) bind_ret. apply getproc_Ok, HS.
Qed.

Lemma vload8_mapped va : 0 ≤ va < p_sz p → vload8 va s = Ok (ubyte s va) s.
Proof.
  intros Hva. destruct (is_mapped _ _ _ HS va Hva) as [ka Hka]. by rewrite /vload8 bind_gets /ubyte Hka.
Qed.

Lemma vload32_mapped va : 0 ≤ va → va + 4 ≤ p_sz p → vload32 va s = Ok (uint_at s va) s.
Proof.
  intros H0 H1. rewrite /vload32.
  rewrite (bind_Ok _ _ _ _ _ (vload8_mapped va _)); [lia|]. rewrite (bind_Ok _ _ _ _ _ (vload8_mapped (va + 1) _)); [lia|].
  rewrite (bind_Ok _ _ _ _ _ (vload8_mapped (va + 2) _)); [lia|].
  by rewrite (bind_Ok _ _ _ _ _ (vload8_mapped (va + 3) _)); [lia|].
Qed.

(** The check of a range: the sum does not wrap around, because the start was
    compared first. *)
Lemma range_check a k :
  0 ≤ a < 2 ^ 32 → 0 < k < 2 ^ 31 →
  ((a >=? p_sz p) || (u32 (a + k) >? p_sz p)) = negb (bool_decide (a + k ≤ p_sz p)).
Proof.
  intros Ha Hk. pose proof (is_sz _ _ _ HS) as Hsz. rewrite /KERNBASE in Hsz.
  rewrite Z.geb_leb Z.gtb_ltb. destruct (Z.leb_spec (p_sz p) a) as [Hle|Hlt]; simpl.
  - rewrite bool_decide_eq_false_2 //. lia.
  - rewrite u32_id; [lia|]. case_bool_decide; simpl; [apply Z.ltb_ge|apply Z.ltb_lt]; lia.
Qed.

Lemma argint_Ok n : argint n s = Ok (s32 <$> arg_word s p n) s.
Proof.
  rewrite /argint (bind_Ok _ _ _ _ _ curproc_Ok) /fetchint (bind_Ok _ _ _ _ _ curproc_Ok).
  change (u32 (tf_esp (p_tf p) + 4 + 4 * n)) with (arg_addr p n).
  assert (0 ≤ arg_addr p n < 2 ^ 32) as Ha by apply u32_bound.
  rewrite range_check //. rewrite /arg_word. case_bool_decide; [|done].
  rewrite /= (bind_Ok _ _ _ _ _ (vload32_mapped _ _ _)) //; [lia|]. by rewrite s32_u32.
Qed.

Lemma fetch_chars_Ok a n :
  0 ≤ a → p_sz p = a + Z.of_nat n → ∃ r, fetch_chars a n s = Ok r s ∧ string_result s p a r.
Proof.
  revert a. induction n as [|n IH]; intros a Ha Hn; simpl.
  - exists None. split; [done|]. simpl. lia.
  - rewrite (bind_Ok _ _ _ _ _ (vload8_mapped a _)); [lia|].
    destruct (Z.eqb_spec (ubyte s a) 0) as [E|E].
    + exists (Some []). split; [done|]. simpl. rewrite Z.add_0_r. split_and!; [lia|done|done].
    + destruct (IH (a + 1)) as (r & Hr & Hs); [lia..|]. exists (cons (ubyte s a) <$> r).
      split; [by rewrite (bind_Ok _ _ _ _ _ Hr)|]. destruct r as [str|]; simpl in *.
      * destruct Hs as (H1 & H2 & H3). rewrite Nat2Z.inj_succ.
        replace (a + Z.succ (Z.of_nat (length str))) with (a + 1 + Z.of_nat (length str)) by lia.
        split_and!; [lia|done|]. intros [|k] c Hc; simpl in Hc.
        { injection Hc as <-. by rewrite Z.add_0_r. }
        rewrite Nat2Z.inj_succ. replace (a + Z.succ (Z.of_nat k)) with (a + 1 + Z.of_nat k) by lia. by apply H3.
      * intros va Hva. destruct (decide (va = a)) as [->|]; [done|]. apply Hs. lia.
Qed.

End args.

(** C22: the system call arguments are safe to use. In a process with its memory
    [0..sz) mapped, whatever the user's stack pointer and arguments are, the
    kernel fetches an argument without faulting and without changing anything:
    argint() returns the word at its place on the stack, or fails when the place
    is not inside the process; argptr() succeeds exactly when all [size] bytes
    from the pointer on are inside; argstr() returns the string up to the first
    NUL byte, or fails when there is none before the end of the process. *)
Theorem syscall_args_safe s i p n size :
  in_syscall s i p → - 2 ^ 31 ≤ size < 2 ^ 31 →
  argint n s = Ok (s32 <$> arg_word s p n) s ∧
  argptr n size s =
    Ok (a ← arg_word s p n;
        if bool_decide (0 ≤ size ∧ a < p_sz p ∧ a + size ≤ p_sz p) then Some a else None) s ∧
  ∃ r, argstr n s = Ok r s ∧
    match arg_word s p n with Some a => string_result s p a r | None => r = None end.
Proof.
  intros HS Hsize. pose proof (argint_Ok s i p HS n) as Hi. pose proof (curproc_Ok s i p HS) as Hc.
  split; [done|]. rewrite /argptr /argstr !(bind_Ok _ _ _ _ _ Hi).
  destruct (arg_word s p n) as [a|] eqn:Ea; simpl; [|by split; [|exists None]].
  assert (0 ≤ a < 2 ^ 32) as Ha.
  { rewrite /arg_word in Ea. case_bool_decide; [|done]. injection Ea as <-. apply u32_bound. }
  assert (u32 (s32 a) = a) as Eu.
  { rewrite /s32 (u32_id a) //. case_match; [by apply u32_id|]. rewrite /u32. Z.to_euclidean_division_equations. lia. }
  rewrite (bind_Ok _ _ _ _ _ Hc) Eu. pose proof (is_sz _ _ _ HS) as Hsz. rewrite /KERNBASE in Hsz. split.
  - destruct (Z.ltb_spec size 0) as [Hneg|Hpos]; simpl; [by rewrite bool_decide_eq_false_2; [lia|]|].
    rewrite Z.geb_leb Z.gtb_ltb. destruct (Z.leb_spec (p_sz p) a); simpl; [by rewrite bool_decide_eq_false_2; [lia|]|].
    rewrite u32_id; [lia|]. case_bool_decide; destruct (Z.ltb_spec (p_sz p) (a + size)); first [done|lia].
  - rewrite /fetchstr (bind_Ok _ _ _ _ _ Hc) Z.geb_leb. destruct (Z.leb_spec (p_sz p) a).
    + exists None. split; [done|]. simpl. lia.
    + apply fetch_chars_Ok with i; [done|lia|lia].
Qed.

(** The process of [sig_proc] with an argument past the end of its memory. *)
Lemma syscall_args_safe_witness :
  ∃ s, argptr 4 16 s = Ok None s.
Proof.
  destruct demo_user as (fl & T & U & s & p & HI & _ & Hp & _ & _ & _ & Hw & _).
  set (s' := set_procs [set_tf (set_eip_esp 0 0xff0 zero_tf) sig_proc] (with_sig_proc s)).
  destruct (syscall_args_safe s' 0 (set_tf (set_eip_esp 0 0xff0 zero_tf) sig_proc) 4 16) as (_ & H & _).
  - split; [done|done|done|]. intros va Hva.
    assert (user_range s' 0 PGSIZE (user_addr U)) as HR.
    { apply (aspace_user_range demo_end fl 0x8010e000 T U s); [exact HI|done|done|done|done|].
      intros v Hv. rewrite Z.div_small //. split; [by rewrite Hp|by apply Hw]. }
    pose proof (ur_map _ _ _ _ HR (kb s') va ltac:(done) Hva) as Ht.
    rewrite /translate /= in Ht |- *. destruct (KERNBASE <=? va); [done|].
    destruct (present _); [done|]. discriminate.
  - lia.
  - exists s'. exact H.
Defined.
