(* ===== verification/Ulib.v ===== *)
(** * The user library: ulib.c, printf.c

    C strings that are only read are lists of characters without the final NUL;
    the functions that write memory work on [mem] as in String. The library's
    output is the list of characters given to write(), one call each. *)

From S2P Require Import Prelude Param Bytes String State Console.

(** ** ulib.c *)

(** strcpy(s, t): [fuel] bounds the length of the string at [t]. *)
Fixpoint strcpy (fuel : nat) (m : mem) (s t : Z) : option mem :=
  match fuel with
  | O => None
  | S fuel' =>
      let m' := <[s := byte m t]> m in
      if byte m t =? 0 then Some m' else strcpy fuel' m' (s + 1) (t + 1)
  end.

(** strcmp(p, q) *)
Fixpoint strcmp (p q : list Z) : Z :=
  match p with
  | [] => - hd 0 q
  | a :: p' => if a =? hd 0 q then strcmp p' (tail q) else a - hd 0 q
  end.

Definition ustrlen (s : list Z) : Z := u32 (Z.of_nat (length s)).

Definition umemset (m : mem) (dst c n : Z) : mem := stosb m dst c (Z.to_nat n).

(** strchr(s, c): the rest of the string from the first [c] on. *)
Fixpoint strchr (s : list Z) (c : Z) : option (list Z) :=
  match s with
  | [] => None
  | a :: s' => if a =? c then Some s else strchr s' c
  end.

(** The C string at the start of a buffer. *)
Fixpoint cstr (l : list Z) : list Z :=
  match l with
  | c :: l' => if c =? 0 then [] else c :: cstr l'
  | [] => []
  end.

(** gets(buf, max) on the bytes read(0, &c, 1) delivers until end of file: the
    line stored, and the bytes left. *)
Fixpoint gets_loop (input : list Z) (room : nat) : list Z * list Z :=
  match room, input with
  | S room', c :: input' =>
      if (c =? 10) || (c =? 13) then ([c], input')
      else let '(l, rest) := gets_loop input' room' in (c :: l, rest)
  | _, _ => ([], input)
  end.

Definition ugets (input : list Z) (max : Z) : list Z * list Z := gets_loop input (Z.to_nat (max - 1)).

(** atoi(s), with the wrap-around of int arithmetic. *)
Fixpoint atoi_loop (s : list Z) (n : Z) : Z :=
  match s with
  | c :: s' => if (48 <=? c) && (c <=? 57) then atoi_loop s' (s32 (n * 10 + c - 48)) else n
  | [] => n
  end.

Definition atoi (s : list Z) : Z := atoi_loop s 0.

(** memmove(vdst, vsrc, n), which copies upwards only. *)
Definition umemmove (m : mem) (vdst vsrc n : Z) : mem := copy_up m vdst vsrc (Z.to_nat n).

(** ** printf.c *)

(** The digits of printf.c are upper case. *)
Definition Digit (d : Z) : Z := if d <? 10 then 48 + d else 55 + d.

Fixpoint Digits_up (fuel : nat) (x base : Z) : list Z :=
  match fuel with
  | O => []
  | S fuel' =>
      Digit (x mod base) :: (if x / base =? 0 then [] else Digits_up fuel' (x / base) base)
  end.

(** printint(fd, xx, base, sgn): the characters in the order they are put. *)
Definition uprintint (xx base : Z) (sgn : bool) : list Z :=
  let neg := sgn && (xx <? 0) in
  let x := if neg then u32 (- xx) else u32 xx in
  rev (Digits_up 32 x base ++ (if neg then [45] else [])).

(** One conversion: its output and the arguments left; [None] is undefined. *)
Definition printf_conv (c : Z) (args : list arg) : option (list Z * list arg) :=
  if c =? 100 then
    match args with AInt v :: l => Some (uprintint (s32 v) 10 true, l) | _ => None end
  else if (c =? 120) || (c =? 112) then
    match args with AInt v :: l => Some (uprintint (s32 v) 16 false, l) | _ => None end
  else if c =? 115 then
    match args with AStr o :: l => Some (default (chars "(null)") o, l) | _ => None end
  else if c =? 99 then
    match args with AInt v :: l => Some ([u8 v], l) | _ => None end
  else if c =? 37 then Some ([37], args)
  else Some ([37; c], args).

(** printf(fd, fmt, ...): [pct] is [state == '%']. *)
Fixpoint printf_loop (fmt : list Z) (args : list arg) (pct : bool) : option (list Z) :=
  match fmt with
  | [] => Some []
  | c :: fmt' =>
      if negb pct then
        if c =? 37 then printf_loop fmt' args true
        else cons c <$> printf_loop fmt' args false
      else
        '(out, args') ← printf_conv c args;
        (app out) <$> printf_loop fmt' args' false
  end.

Definition printf (fmt : list Z) (args : list arg) : option (list Z) := printf_loop fmt args false.

(** ** Searching strings *)

Lemma strchr_spec s c :
  match strchr s c with
  | Some q => ∃ l t, s = l ++ c :: t ∧ q = c :: t ∧ c ∉ l
  | None => c ∉ s
  end.
Proof.
  induction s as [|a s IH]; simpl; [apply not_elem_of_nil|].
  destruct (Z.eqb_spec a c) as [->|Ha].
  - exists [], s. split_and!; [done..|apply not_elem_of_nil].
  - destruct (strchr s c) as [q|].
    + destruct IH as (l & t & -> & -> & Hl). exists (a :: l), t. split_and!; [done..|].
      rewrite not_elem_of_cons. by split; [congruence|].
    + rewrite not_elem_of_cons. by split; [congruence|].
Qed.

Lemma cstr_id l : 0 ∉ l → cstr l = l.
Proof.
  induction l as [|c l IH]; [done|]. rewrite not_elem_of_cons. intros [Hc Hl].
  simpl. destruct (Z.eqb_spec c 0); [congruence|]. by rewrite IH.
Qed.

(** ** Printing and reading numbers *)

(** Reading back the digits of [x], whatever follows them. *)
Lemma atoi_digits fuel x rest :
  0 ≤ x < 2 ^ 31 → x < 10 ^ Z.of_nat fuel → (0 < fuel)%nat →
  atoi_loop (rev (Digits_up fuel x 10) ++ rest) 0 = atoi_loop rest x.
Proof.
  revert x rest. induction fuel as [|fuel IH]; intros x rest Hx Hlt Hf; [lia|].
  assert (Digit (x mod 10) = 48 + x mod 10) as Hd.
  { rewrite /Digit. rewrite (proj2 (Z.ltb_lt _ _)) //. apply Z.mod_pos_bound. lia. }
  assert (atoi_loop (Digit (x mod 10) :: rest) (x / 10) = atoi_loop rest x) as Hstep.
  { pose proof (Z.mod_pos_bound x 10). rewrite Hd /= (proj2 (Z.leb_le _ _)) ?(proj2 (Z.leb_le _ _)); [lia..|].
    f_equal. pose proof (Z.div_mod x 10). rewrite s32_id; lia. }
  cbn [Digits_up rev]. rewrite -app_assoc. simpl app at 2.
  destruct (Z.eqb_spec (x / 10) 0) as [E|E].
  - rewrite E in Hstep. exact Hstep.
  - assert (0 < fuel)%nat.
    { destruct fuel; [|lia]. exfalso. apply E. apply Z.div_small. simpl in Hlt. lia. }
    rewrite IH //.
    + pose proof (Z.div_pos x 10). pose proof (Z.div_le_upper_bound x 10 x). lia.
    + apply Z.div_lt_upper_bound; [lia|]. rewrite Nat2Z.inj_succ Z.pow_succ_r in Hlt; lia.
Qed.

(** printf's %d and atoi are inverse to each other on the non-negative ints:
    atoi reads the number back from the digits printed, whatever text that does
    not start with a digit follows. A negative number is printed with a minus
    sign, which atoi does not read: the result is 0. *)
Theorem printint_atoi v rest :
  - 2 ^ 31 ≤ v < 2 ^ 31 → (∀ c, head rest = Some c → ¬ 48 ≤ c ≤ 57) →
  atoi (uprintint v 10 true ++ rest) = Z.max 0 v.
Proof.
  intros Hv Hrest. rewrite /uprintint /atoi andb_true_l. destruct (Z.ltb_spec v 0) as [Hneg|Hpos].
  - rewrite rev_app_distr. cbn [rev app]. rewrite Z.max_l; [lia|done].
  - rewrite app_nil_r u32_id; [lia|].
    assert (v < 10 ^ Z.of_nat 32) by (change (10 ^ Z.of_nat 32) with 100000000000000000000000000000000; lia).
    rewrite (atoi_digits 32); [lia..|]. destruct rest as [|c rest]; simpl; [lia|].
    specialize (Hrest c eq_refl).
    destruct (Z.leb_spec 48 c), (Z.leb_spec c 57); simpl; lia.
Qed.

Lemma printint_atoi_witness : atoi (uprintint 2147483647 10 true ++ [32; 49]) = 2147483647.
Proof.
  rewrite (printint_atoi 2147483647 [32; 49]).
  - lia.
  - intros c [= <-]. lia.
  - reflexivity.
Defined.
