(* ===== verification/Grep.v ===== *)
(** * grep.c

    The regular expression matcher on C strings (lists of characters without
    the NUL), and the buffered search through the lines of a file. *)

From S2P Require Import Prelude Param Ulib.

(** ** The matcher *)

(** matchstar(c, re, text), given [here] = matchhere(re, _). *)
Fixpoint matchstar (here : list Z → bool) (c : Z) (text : list Z) : bool :=
  if here text then true else
  match text with
  | [] => false
  | t :: text' => if (t =? c) || (c =? 46) then matchstar here c text' else false
  end.

Fixpoint matchhere (re : list Z) (text : list Z) {struct re} : bool :=
  match re with
  | [] => true
  | c :: re' =>
      let next :=
        if (c =? 36) && bool_decide (re' = []) then bool_decide (text = []) else
        match text with
        | [] => false
        | t :: text' => if (c =? 46) || (c =? t) then matchhere re' text' else false
        end in
      match re' with
      | d :: re'' => if d =? 42 then matchstar (matchhere re'') c text else next
      | [] => next
      end
  end.

(** The loop of match() over the positions of the text. *)
Fixpoint match_from (re : list Z) (text : list Z) : bool :=
  if matchhere re text then true else
  match text with
  | [] => false
  | _ :: text' => match_from re text'
  end.

Definition match_ (re text : list Z) : bool :=
  match re with
  | c :: re' => if c =? 94 then matchhere re' text else match_from re text
  | [] => match_from re text
  end.

(** ** The search *)

(** The inner loop of grep(): the complete lines of [p] that match, with their
    newlines, and the rest of the buffer. *)
Fixpoint grep_lines (pattern : list Z) (fuel : nat) (p : list Z) : list Z * list Z :=
  match fuel with
  | O => ([], p)
  | S fuel' =>
      match strchr (cstr p) 10 with
      | None => ([], p)
      | Some q =>
          let k := (length (cstr p) - length q)%nat in
          let line := take k p in
          let '(out, rest) := grep_lines pattern fuel' (drop (S k) p) in
          ((if match_ pattern line then line ++ [10] else []) ++ out, rest)
      end
  end.

(** The outer loop of grep(), over the chunks that read() returns; [buf] holds
    the [m] bytes kept from before. A chunk has at most [1023 - m] bytes. When no
    newline was found the buffer is dropped. *)
Fixpoint grep_loop (pattern : list Z) (chunks : list (list Z)) (buf : list Z) : list Z :=
  match chunks with
  | [] => []
  | chunk :: chunks' =>
      let buf := buf ++ chunk in
      let '(out, rest) := grep_lines pattern (S (length buf)) buf in
      out ++ grep_loop pattern chunks' (if (length rest =? length buf)%nat then [] else rest)
  end.

Definition grep (pattern : list Z) (chunks : list (list Z)) : list Z := grep_loop pattern chunks [].

(** ** What the matcher decides *)

(** A pattern is a sequence of items, a character or a starred character, with
    an optional anchor at each end. *)
Inductive item := One (c : Z) | Many (c : Z).

(** [.] stands for any character. *)
Definition sat (c t : Z) : Prop := c = 46 ∨ t = c.

Fixpoint items (re : list Z) : list item * bool :=
  match re with
  | [] => ([], false)
  | c :: re' =>
      match re' with
      | [] => if c =? 36 then ([], true) else ([One c], false)
      | d :: re'' =>
          if d =? 42 then let '(l, e) := items re'' in (Many c :: l, e)
          else let '(l, e) := items re' in (One c :: l, e)
      end
  end.

(** The strings a sequence of items stands for. *)
Inductive lang : list item → list Z → Prop :=
| lang_nil : lang [] []
| lang_one c t l s : sat c t → lang l s → lang (One c :: l) (t :: s)
| lang_many c l s1 s2 : Forall (sat c) s1 → lang l s2 → lang (Many c :: l) (s1 ++ s2).

(** [re] occurs at the beginning of [text], up to its end when [$] says so. *)
Definition occurs_here (re text : list Z) : Prop :=
  let '(l, e) := items re in
  ∃ s rest, text = s ++ rest ∧ lang l s ∧ (e = true → rest = []).

(** [re] occurs somewhere in [text], at its beginning when [^] says so. *)
Definition occurs (re text : list Z) : Prop :=
  match re with
  | 94 :: re' => occurs_here re' text
  | _ => ∃ before rest, text = before ++ rest ∧ occurs_here re rest
  end.

Lemma sat_spec c t : (t =? c) || (c =? 46) = true ↔ sat c t.
Proof. rewrite /sat orb_true_iff !Z.eqb_eq. tauto. Qed.

Lemma matchstar_spec here c text :
  matchstar here c text = true ↔
  ∃ s1 s2, text = s1 ++ s2 ∧ Forall (sat c) s1 ∧ here s2 = true.
Proof.
  induction text as [|t text IH]; simpl; destruct (here _) eqn:Hh.
  - split; [|done]. intros _. by exists [], [].
  - split; [done|]. intros (s1 & s2 & [-> ->]%eq_sym%app_nil & _ & ?). congruence.
  - split; [|done]. intros _. by exists [], (t :: text).
  - destruct (_ || _) eqn:Hs.
    + apply sat_spec in Hs. rewrite IH. split.
      * intros (s1 & s2 & -> & ? & ?). exists (t :: s1), s2. by rewrite Forall_cons.
      * intros ([|u s1] & s2 & E & HF & ?); simplify_eq/=; [congruence|].
        apply Forall_cons in HF as [_ HF]. eauto.
    + split; [done|]. intros ([|u s1] & s2 & E & HF & ?); simplify_eq/=; [congruence|].
      apply Forall_cons in HF as [HF _]. apply sat_spec in HF. congruence.
Qed.

Lemma occurs_here_star c re text :
  occurs_here (c :: 42 :: re) text ↔
  ∃ s1 s2, text = s1 ++ s2 ∧ Forall (sat c) s1 ∧ occurs_here re s2.
Proof.
  rewrite /occurs_here /=. destruct (items re) as [l e]. split.
  - intros (s & rest & -> & Hl & He). inversion Hl as [| |? ? s1 s2 Hs1 Hs2]; subst.
    exists s1, (s2 ++ rest). split_and!; [by rewrite app_assoc|done|]. by exists s2, rest.
  - intros (s1 & s2 & -> & Hs1 & s & rest & -> & Hl & He).
    exists (s1 ++ s), rest. split_and!; [by rewrite app_assoc|by apply lang_many|done].
Qed.

Lemma occurs_here_end text : occurs_here [36] text ↔ text = [].
Proof.
  rewrite /occurs_here /=. split.
  - intros (s & rest & -> & Hl & He). inversion Hl; subst. by rewrite He.
  - intros ->. exists [], []. eauto using lang_nil.
Qed.

(** An ordinary character in front. *)
Lemma occurs_here_one c re text :
  head re ≠ Some 42 → (c = 36 → re ≠ []) →
  occurs_here (c :: re) text ↔ ∃ t text', text = t :: text' ∧ sat c t ∧ occurs_here re text'.
Proof.
  intros Hstar Hend. rewrite /occurs_here.
  assert (items (c :: re) = (One c :: fst (items re), snd (items re))) as ->.
  { destruct re as [|d re].
    - simpl. destruct (Z.eqb_spec c 36); naive_solver.
    - change (items (c :: d :: re)) with
        (if d =? 42 then let '(l, e) := items re in (Many c :: l, e)
         else let '(l, e) := items (d :: re) in (One c :: l, e)).
      destruct (Z.eqb_spec d 42); [simpl in *; congruence|]. by destruct (items (d :: re)). }
  destruct (items re) as [l e]; simpl. split.
  - intros (s & rest & -> & Hl & He). inversion Hl as [|? t ? s' Hs Hl'|]; subst.
    exists t, (s' ++ rest). split_and!; [done..|]. by exists s', rest.
  - intros (t & text' & -> & Hs & s & rest & -> & Hl & He).
    exists (t :: s), rest. split_and!; [done|by apply lang_one|done].
Qed.

Lemma matchhere_spec re text : matchhere re text = true ↔ occurs_here re text.
Proof.
  remember (length re) as n eqn:Hn. revert re text Hn.
  induction (lt_wf n) as [n _ IH]. intros [|c re] text ->.
  { split; [|done]. intros _. exists [], text. split_and!; [done|constructor|done]. }
  destruct (decide (head re = Some 42)) as [Hd|Hd].
  { destruct re as [|d re]; [done|]. injection Hd as ->. simpl matchhere.
    rewrite matchstar_spec occurs_here_star.
    do 2 (apply exist_proper; intros ?). rewrite (IH (length re)) //. simpl. lia. }
  assert (matchhere (c :: re) text =
    if (c =? 36) && bool_decide (re = []) then bool_decide (text = []) else
    match text with
    | [] => false
    | t :: text' => if (c =? 46) || (c =? t) then matchhere re text' else false
    end) as ->.
  { destruct re as [|d re]; [done|]. simpl. destruct (Z.eqb_spec d 42); [simpl in *; congruence|done]. }
  destruct (decide (c = 36 ∧ re = [])) as [[-> ->]|Hend].
  { rewrite /= occurs_here_end. apply bool_decide_eq_true. }
  assert ((c =? 36) && bool_decide (re = []) = false) as ->.
  { apply andb_false_iff. rewrite Z.eqb_neq bool_decide_eq_false. destruct (decide (c = 36)); tauto. }
  rewrite occurs_here_one; [done|tauto|]. destruct text as [|t text].
  { split; [done|]. by intros (? & ? & ? & _). }
  replace ((c =? 46) || (c =? t)) with ((t =? c) || (c =? 46)) by (rewrite orb_comm (Z.eqb_sym t c) //).
  destruct ((t =? c) || (c =? 46)) eqn:Hs.
  - apply sat_spec in Hs. rewrite (IH (length re)); [simpl; lia|done|]. naive_solver.
  - split; [done|]. intros (t' & text' & [= <- <-] & Hs' & _). apply sat_spec in Hs'. congruence.
Qed.

Lemma match_from_spec re text :
  match_from re text = true ↔ ∃ before rest, text = before ++ rest ∧ occurs_here re rest.
Proof.
  induction text as [|t text IH]; simpl; destruct (matchhere _ _) eqn:Hm.
  1, 3: split; [|done]; intros _; apply matchhere_spec in Hm; by eexists [], _.
  - split; [done|]. intros (b & r & [-> ->]%eq_sym%app_nil & Ho%matchhere_spec). congruence.
  - rewrite IH. split.
    + intros (b & r & -> & ?). by exists (t :: b), r.
    + intros ([|u b] & r & E & Ho); simplify_eq/=; [|eauto]. apply matchhere_spec in Ho. congruence.
Qed.

(** C11: match(re, text) is true exactly when the regular expression [re] occurs in
    the text: a sequence of characters, [.] and starred characters somewhere in
    it, at its beginning when [re] starts with [^] and up to its end when [re]
    ends with [$]. The matcher, which backtracks, always terminates. *)
Theorem match_correct re text : match_ re text = true ↔ occurs re text.
Proof.
  rewrite /match_ /occurs. destruct re as [|c re]; [apply match_from_spec|].
  destruct (Z.eqb_spec c 94) as [->|Hc]; [apply matchhere_spec|].
  assert (occurs (c :: re) text ↔ ∃ b r, text = b ++ r ∧ occurs_here (c :: re) r) as Ho.
  { rewrite /occurs. by repeat (case_match; try done). }
  rewrite match_from_spec. symmetry. exact Ho.
Qed.

(** ** What the search prints *)

(** The complete lines of a text, without their newlines, and what follows the
    last newline. *)
Fixpoint lines (t : list Z) : list (list Z) * list Z :=
  match t with
  | [] => ([], [])
  | c :: t' =>
      let '(ls, tl) := lines t' in
      if c =? 10 then ([] :: ls, tl) else
      match ls with
      | [] => ([], c :: tl)
      | l :: ls' => ((c :: l) :: ls', tl)
      end
  end.

Definition matching (pattern : list Z) (ls : list (list Z)) : list Z :=
  concat ((λ l, l ++ [10]) <$> filter (λ l, match_ pattern l = true) ls).

Lemma lines_no_newline t : 10 ∉ t → lines t = ([], t).
Proof.
  induction t as [|c t IH]; [done|]. rewrite not_elem_of_cons. intros [Hc Ht].
  rewrite /= (IH Ht). destruct (Z.eqb_spec c 10); [congruence|done].
Qed.

Lemma lines_line l t : 10 ∉ l → lines (l ++ 10 :: t) = (l :: fst (lines t), snd (lines t)).
Proof.
  induction l as [|c l IH]; [intros _; simpl; by destruct (lines t)|].
  rewrite not_elem_of_cons. intros [Hc Hl]. rewrite /= (IH Hl).
  destruct (Z.eqb_spec c 10); [congruence|done].
Qed.

Lemma lines_app a b :
  lines (a ++ b) = (fst (lines a) ++ fst (lines (snd (lines a) ++ b)), snd (lines (snd (lines a) ++ b))).
Proof.
  induction a as [|c a IH]; simpl; [by destruct (lines b)|].
  rewrite IH. destruct (lines a) as [la ta] eqn:Ha. simpl.
  destruct (Z.eqb_spec c 10) as [->|Hc]; [done|].
  destruct la as [|l la]; simpl; [|done].
  destruct (lines (ta ++ b)) as [lb tb]. simpl. destruct (Z.eqb_spec c 10); [done|]. by destruct lb.
Qed.

Lemma grep_lines_spec pattern fuel p :
  0 ∉ p → (length p < fuel)%nat →
  grep_lines pattern fuel p = (matching pattern (fst (lines p)), snd (lines p)).
Proof.
  revert p. induction fuel as [|fuel IH]; intros p Hp Hf; [lia|].
  rewrite /= cstr_id //. pose proof (strchr_spec p 10) as Hs. destruct (strchr p 10) as [q|].
  - destruct Hs as (l & t & -> & -> & Hl).
    assert ((length (l ++ 10%Z :: t) - length (10%Z :: t))%nat = length l) as ->.
    { rewrite length_app. lia. }
    rewrite take_app_length. replace (drop (S (length l)) (l ++ 10 :: t)) with t.
    2:{ change (S (length l)) with (1 + length l)%nat.
        rewrite Nat.add_comm -drop_drop drop_app_length //. }
    rewrite IH; [|rewrite length_app /= in Hf; lia|].
    { intros H0. apply Hp. rewrite elem_of_app elem_of_cons. tauto. }
    rewrite lines_line //= /matching filter_cons. by case_decide; case_match.
  - by rewrite lines_no_newline.
Qed.

Lemma matching_app pattern l1 l2 : matching pattern (l1 ++ l2) = matching pattern l1 ++ matching pattern l2.
Proof. by rewrite /matching filter_app fmap_app concat_app. Qed.

(** A buffer with a newline keeps only the incomplete line. *)
Lemma lines_rest_shorter p : 10 ∈ p → (length (snd (lines p)) < length p)%nat.
Proof.
  pose proof (strchr_spec p 10) as Hs. destruct (strchr p 10) as [q|]; [|done].
  intros _. destruct Hs as (l & t & -> & _ & Hl). rewrite lines_line //= length_app /=.
  assert (∀ u, length (snd (lines u)) ≤ length u)%nat as Hle.
  { induction u as [|c u IH]; simpl; [done|]. destruct (lines u) as [ls tl]; simpl in *.
    destruct (c =? 10); simpl; [lia|]. destruct ls; simpl; lia. }
  specialize (Hle t). lia.
Qed.

Lemma lines_rest_sub p c : c ∈ snd (lines p) → c ∈ p.
Proof.
  induction p as [|a p IH]; simpl; [done|]. destruct (lines p) as [ls tl]; simpl in *.
  destruct (a =? 10); simpl; [rewrite elem_of_cons; auto|].
  destruct ls; simpl; rewrite !elem_of_cons; tauto.
Qed.

Lemma grep_loop_spec pattern chunks buf :
  Forall (λ ch, 10 ∈ ch ∧ 0 ∉ ch) chunks → 0 ∉ buf → 10 ∉ buf →
  grep_loop pattern chunks buf = matching pattern (fst (lines (buf ++ concat chunks))).
Proof.
  revert buf. induction chunks as [|ch chunks IH]; intros buf HF H0 H10; cbn [grep_loop concat].
  { by rewrite app_nil_r lines_no_newline. }
  apply Forall_cons in HF as [[Hn Hz] HF].
  assert (0 ∉ buf ++ ch) by (rewrite elem_of_app; tauto).
  rewrite grep_lines_spec; [done|lia|].
  assert (10 ∈ buf ++ ch) as Hin by (rewrite elem_of_app; tauto).
  pose proof (lines_rest_shorter _ Hin) as Hlt.
  rewrite (proj2 (Nat.eqb_neq _ _)); [lia|].
  rewrite app_assoc (lines_app (buf ++ ch) (concat chunks)) /= matching_app IH //.
  - by intros ?%lines_rest_sub.
  - clear. induction (buf ++ ch) as [|a p IHp]; simpl; [apply not_elem_of_nil|].
    destruct (lines p) as [ls tl]; simpl in *. destruct (Z.eqb_spec a 10); simpl; [done|].
    destruct ls; simpl; [|done]. rewrite not_elem_of_cons. by split; [congruence|].
Qed.

(** C33: grep prints exactly the complete lines of its input that match, each
    with its newline and in order, provided every chunk read() returns holds a
    newline (and the text has no NUL). *)
Theorem grep_correct pattern chunks :
  Forall (λ ch, 10 ∈ ch ∧ 0 ∉ ch) chunks →
  grep pattern chunks = matching pattern (fst (lines (concat chunks))).
Proof. intros. by apply grep_loop_spec; [|apply not_elem_of_nil..]. Qed.

Lemma grep_correct_witness :
  grep [98] [[97; 98; 10; 99]; [98; 10; 100; 10; 98]] = [97; 98; 10; 99; 98; 10].
Proof.
  rewrite (grep_correct [98] [[97; 98; 10; 99]; [98; 10; 100; 10; 98]]).
  - repeat constructor; try (by apply (bool_decide_unpack _); vm_compute).
  - vm_compute. reflexivity.
Defined.

(** Without that proviso the code loses text: a line that arrives in two pieces
    is dropped, although the whole line matches. *)
Lemma grep_drops_split_line :
  grep [97] [[97; 98]; [99; 10]] = [] ∧ matching [97] (fst (lines [97; 98; 99; 10])) = [97; 98; 99; 10].
Proof. by vm_compute. Qed.
