(* ===== verification/Sh.v ===== *)
(** * The shell: sh.c

    The recursive descent parser of command lines. A pointer into the line
    being parsed is the rest of the line from there on; the parsing functions
    thread the variable [*ps], which is the state of the monad. A parse error
    is the call of the shell's panic(). *)

From S2P Require Import Prelude Param Console Ulib.

(** ** Parsed commands *)

Definition ptr := list Z.

(** A counted string: pointers to its start and to its end. *)
Definition token : Type := ptr * ptr.

Inductive cmd :=
| EXEC (argv : list token)
| REDIR (c : cmd) (file : token) (mode fd : Z)
| PIPE (left right : cmd)
| LIST (left right : cmd)
| BACK (c : cmd).

Definition MAXARGS : nat := 10.

Definition whitespace : list Z := [32; 9; 13; 10; 11].
Definition symbols : list Z := chars "<|>&;()".

(** ** Tokens *)

Definition P (A : Type) : Type := M Empty_set ptr A.

(** [strchr(l, c) != 0] *)
Definition in_set (c : Z) (l : list Z) : bool := match strchr l c with Some _ => true | None => false end.

(** [while(s < es && strchr(whitespace, *s)) s++;] *)
Fixpoint skip_ws (s : ptr) : ptr :=
  match s with
  | c :: s' => if in_set c whitespace then skip_ws s' else s
  | [] => []
  end.

(** [while(s < es && !strchr(whitespace, *s) && !strchr(symbols, *s)) s++;] *)
Fixpoint skip_word (s : ptr) : ptr :=
  match s with
  | c :: s' => if negb (in_set c whitespace) && negb (in_set c symbols) then skip_word s' else s
  | [] => []
  end.

(** The switch of gettoken() at [s]: the token's kind and the pointer after it. *)
Definition token_at (s : ptr) : Z * ptr :=
  match s with
  | [] => (0, s)
  | c :: s' =>
      if c =? 0 then (0, s)
      else if in_set c (chars "|();&<") then (c, s')
      else if c =? 62 then
        match s' with
        | d :: s'' => if d =? 62 then (43, s'') else (c, s')
        | [] => (c, s')
        end
      else (97, skip_word s)
  end.

(** gettoken(ps, es, &q, &eq) *)
Definition gettoken : P (Z * token) := λ ps,
  let q := skip_ws ps in
  let '(ret, eq) := token_at q in
  Ok (ret, (q, eq)) (skip_ws eq).

Definition peek (toks : list Z) : P bool := λ ps,
  let s := skip_ws ps in
  Ok (match s with c :: _ => negb (c =? 0) && in_set c toks | [] => false end) s.

(** ** The parser *)

(** One turn of parseredirs()'s loop. *)
Definition parseredirs_step (c : cmd) : P (cmd + cmd) :=
  b ← peek (chars "<>");
  if negb b then mret (inr c) else
  '(tok, _) ← gettoken;
  '(t, file) ← gettoken;
  if negb (t =? 97) then panic "missing file for redirection" else
  if tok =? 60 then mret (inl (REDIR c file O_RDONLY 0))
  else if tok =? 62 then mret (inl (REDIR c file (Z.lor O_WRONLY O_CREATE) 1))
  else if tok =? 43 then mret (inl (REDIR c file (Z.lor O_WRONLY O_CREATE) 1))
  else mret (inl c).

(** Each turn of these loops takes a character of the line. *)
Definition parseredirs (c : cmd) : P cmd := λ ps, loop (S (length ps)) parseredirs_step c ps.

(** The EXEC node inside the redirections gets its next argument. *)
Fixpoint add_arg (t : token) (c : cmd) : cmd :=
  match c with
  | EXEC argv => EXEC (argv ++ [t])
  | REDIR c' file mode fd => REDIR (add_arg t c') file mode fd
  | _ => c
  end.

(** One turn of the loop of parseexec(): [argc] and the command. *)
Definition parseexec_step (v : nat * cmd) : P (nat * cmd + cmd) :=
  let '(argc, c) := v in
  b ← peek (chars "|)&;");
  if b then mret (inr c) else
  '(tok, t) ← gettoken;
  if tok =? 0 then mret (inr c) else
  if negb (tok =? 97) then panic "syntax" else
  let c := add_arg t c in
  let argc := S argc in
  if (MAXARGS <=? argc)%nat then panic "too many args" else
  c ← parseredirs c;
  mret (inl (argc, c)).

Definition parseline_back (c : cmd) : P (cmd + cmd) :=
  b ← peek (chars "&");
  if b then gettoken;; mret (inl (BACK c)) else mret (inr c).

Definition parsebacks (c : cmd) : P cmd := λ ps, loop (S (length ps)) parseline_back c ps.

(** The mutually recursive functions; [fuel] bounds the depth of the calls. *)
Fixpoint parseline (fuel : nat) : P cmd :=
  match fuel with
  | O => nofuel
  | S fuel' =>
      c ← parsepipe fuel';
      c ← parsebacks c;
      b ← peek (chars ";");
      if b then gettoken;; r ← parseline fuel'; mret (LIST c r) else mret c
  end
with parsepipe (fuel : nat) : P cmd :=
  match fuel with
  | O => nofuel
  | S fuel' =>
      c ← parseexec fuel';
      b ← peek (chars "|");
      if b then gettoken;; r ← parsepipe fuel'; mret (PIPE c r) else mret c
  end
with parseexec (fuel : nat) : P cmd :=
  match fuel with
  | O => nofuel
  | S fuel' =>
      b ← peek (chars "(");
      if b then parseblock fuel' else
      c ← parseredirs (EXEC []);
      loop (S MAXARGS) parseexec_step (0%nat, c)
  end
with parseblock (fuel : nat) : P cmd :=
  match fuel with
  | O => nofuel
  | S fuel' =>
      b ← peek (chars "(");
      if negb b then panic "parseblock" else
      gettoken;;
      c ← parseline fuel';
      b ← peek (chars ")");
      if negb b then panic "syntax - missing )" else
      gettoken;;
      parseredirs c
  end.

(** ** NUL-termination *)

(** [*eq = 0] in the line [buf]; [eq] is the rest of the line from there on. *)
Definition nul_at (eq : ptr) (n : nat) (buf : list Z) : list Z := <[(n - length eq)%nat := 0]> buf.

(** nulterminate(cmd), on a line of [n] characters followed by its NUL. *)
Fixpoint nulterminate (n : nat) (c : cmd) (buf : list Z) : list Z :=
  match c with
  | EXEC argv => foldl (λ b t, nul_at (snd t) n b) buf argv
  | REDIR c' file _ _ => nul_at (snd file) n (nulterminate n c' buf)
  | PIPE l r => nulterminate n r (nulterminate n l buf)
  | LIST l r => nulterminate n r (nulterminate n l buf)
  | BACK c' => nulterminate n c' buf
  end.

(** Four calls deep at most for every character taken. *)
Definition parse_fuel (s : ptr) : nat := (4 * length s + 4)%nat.

(** parsecmd(s): the command, and the buffer with its strings terminated. *)
Definition parsecmd (s : list Z) : outcome Empty_set ptr (cmd * list Z) :=
  (c ← parseline (parse_fuel s);
   _ ← peek [];
   rest ← gets id;
   if bool_decide (rest ≠ []) then panic "syntax" else
   mret (c, nulterminate (length s) c (s ++ [0]))) s.
