(* ===== verification/ShSpec.v ===== *)
(** * Properties of the shell's parser

    The parser terminates on every line, and reads back every command from a
    printed form of it. *)

From S2P Require Import Prelude Param Console Ulib Sh.

(** ** Termination *)

(** Run on [s], the parsing function reports an error or returns, with enough
    fuel, and leaves a pointer that is not before [s]. *)
Definition advances {A} (m : P A) (s : ptr) : Prop :=
  match m s with
  | Ok _ s' => (length s' ≤ length s)%nat
  | Panic _ => True
  | _ => False
  end.

Lemma advances_bind {A B} (m : P A) (f : A → P B) s :
  advances m s →
  (∀ a s', m s = Ok a s' → (length s' ≤ length s)%nat → advances (f a) s') →
  advances (m ≫= f) s.
Proof.
  rewrite /advances /mbind /M_bind. intros Hm Hf. destruct (m s) as [a s'| | | | |] eqn:E; try done.
  specialize (Hf a s' eq_refl Hm). destruct (f a s'); try done. lia.
Qed.

Lemma advances_ret {A} (a : A) s : advances (mret a) s.
Proof. rewrite /advances /=. lia. Qed.

Lemma advances_panic {A} msg s : advances (panic (A := A) msg) s.
Proof. done. Qed.

Lemma in_set_true c l : in_set c l = true ↔ c ∈ l.
Proof.
  rewrite /in_set. pose proof (strchr_spec l c) as Hs. destruct (strchr l c) as [q|]; [|by split].
  split; [|done]. destruct Hs as (l1 & t & -> & _). rewrite elem_of_app elem_of_cons. tauto.
Qed.

Lemma in_set_false c l : in_set c l = false ↔ c ∉ l.
Proof. by rewrite -in_set_true not_true_iff_false. Qed.

Lemma skip_ws_le s : (length (skip_ws s) ≤ length s)%nat.
Proof. induction s as [|c s IH]; simpl; [done|]. destruct (in_set _ _); simpl; lia. Qed.

Lemma skip_ws_idem s : skip_ws (skip_ws s) = skip_ws s.
Proof. induction s as [|c s IH]; simpl; [done|]. destruct (in_set c _) eqn:E; [done|]. by rewrite /= E. Qed.

Lemma skip_word_le s : (length (skip_word s) ≤ length s)%nat.
Proof. induction s as [|c s IH]; simpl; [done|]. destruct (_ && _); simpl; lia. Qed.

Lemma token_at_le s : (length (snd (token_at s)) ≤ length s)%nat.
Proof.
  destruct s as [|c s]; [done|]. unfold token_at. repeat case_match; simpl; try lia.
  all: by apply (skip_word_le (c :: s)).
Qed.

Lemma advances_gettoken s : advances gettoken s.
Proof.
  rewrite /advances /gettoken. pose proof (token_at_le (skip_ws s)) as Ht.
  destruct (token_at (skip_ws s)) as [r e]. simpl in Ht.
  pose proof (skip_ws_le e). pose proof (skip_ws_le s). lia.
Qed.

Lemma advances_peek toks s : advances (peek toks) s.
Proof. rewrite /advances /peek /=. apply skip_ws_le. Qed.

(** A token that is there takes at least a character. *)
Lemma token_at_lt c s :
  c ≠ 0 → in_set c whitespace = false → (length (snd (token_at (c :: s))) < length (c :: s))%nat.
Proof.
  intros H0 Hw. rewrite /token_at. destruct (Z.eqb_spec c 0); [done|].
  destruct (in_set c (chars "|();&<")) eqn:Hs; [simpl; lia|].
  destruct (Z.eqb_spec c 62) as [|H62].
  { destruct s as [|d s]; [simpl; lia|]. destruct (d =? 62); simpl; lia. }
  assert (in_set c symbols = false) as Hsym.
  { rewrite !in_set_false in Hs |- *. intros Hin. apply Hs. revert Hin. rewrite /symbols /=.
    rewrite !elem_of_cons. tauto. }
  simpl. rewrite Hw Hsym /=. pose proof (skip_word_le s). lia.
Qed.

(** What peek() leaves, and that it has seen a token. *)
Lemma peek_true toks s s' :
  peek toks s = Ok true s' →
  s' = skip_ws s ∧ ∃ c t, s' = c :: t ∧ c ≠ 0 ∧ in_set c toks = true ∧ in_set c whitespace = false.
Proof.
  rewrite /peek. intros [= Hc <-]. split; [done|].
  destruct (skip_ws s) as [|c t] eqn:E; [done|]. apply andb_true_iff in Hc as [Hc1 Hc2].
  exists c, t. apply negb_true_iff, Z.eqb_neq in Hc1. split_and!; try done.
  pose proof (skip_ws_idem s) as Hi. rewrite E /= in Hi.
  destruct (in_set c whitespace); [|done]. pose proof (skip_ws_le t) as Hl. rewrite Hi /= in Hl. lia.
Qed.

Lemma peek_gettoken toks s s' r s'' :
  peek toks s = Ok true s' → gettoken s' = Ok r s'' → (length s'' < length s')%nat.
Proof.
  intros (-> & c & t & E & H0 & _ & Hw)%peek_true. rewrite /gettoken skip_ws_idem E.
  pose proof (token_at_lt c t H0 Hw) as Hlt. destruct (token_at (c :: t)) as [k e]. intros [= _ <-].
  pose proof (skip_ws_le e). simpl in *. lia.
Qed.

(** A loop whose body takes a character whenever it goes on. *)
Lemma advances_loop {X A} (body : X → P (X + A)) fuel x s :
  (length s < fuel)%nat →
  (∀ x s, advances (body x) s) →
  (∀ x s x' s', body x s = Ok (inl x') s' → (length s' < length s)%nat) →
  advances (loop fuel body x) s.
Proof.
  revert x s. induction fuel as [|fuel IH]; intros x s Hf Hb Hlt; [lia|].
  cbn [loop]. apply advances_bind; [done|]. intros [x'|a] s' E Hle; [|apply advances_ret].
  apply IH; [|done..]. specialize (Hlt _ _ _ _ E). lia.
Qed.

Lemma bind_Ok_inv' {A B} (m : P A) (f : A → P B) s b s' :
  (m ≫= f) s = Ok b s' → ∃ a s1, m s = Ok a s1 ∧ f a s1 = Ok b s'.
Proof. apply bind_Ok_inv. Qed.

Lemma parseredirs_step_lt c s c' s' :
  parseredirs_step c s = Ok (inl c') s' → (length s' < length s)%nat.
Proof.
  intros ([] & s1 & Hp & H)%bind_Ok_inv'; simpl in H; [|by injection H].
  apply bind_Ok_inv' in H as ([tok t1] & s2 & Hg & H).
  apply bind_Ok_inv' in H as ([k t2] & s3 & Hg2 & H).
  assert (s' = s3) as ->.
  { destruct (negb _); [done|]. by repeat (case_match; try (by injection H)). }
  pose proof (peek_gettoken _ _ _ _ _ Hp Hg). pose proof (advances_gettoken s2) as Ha.
  pose proof (advances_peek (chars "<>") s) as Hb. rewrite /advances Hg2 in Ha. rewrite /advances Hp in Hb. lia.
Qed.

Lemma advances_parseredirs c s : advances (parseredirs c) s.
Proof.
  rewrite /advances /parseredirs. apply (advances_loop parseredirs_step); [lia| |apply parseredirs_step_lt].
  clear. intros c s. apply advances_bind; [apply advances_peek|]. intros [] s1 _ _; simpl; [|apply advances_ret].
  apply advances_bind; [apply advances_gettoken|]. intros [tok t1] s2 _ _.
  apply advances_bind; [apply advances_gettoken|]. intros [k t2] s3 _ _.
  destruct (negb _); [apply advances_panic|]. repeat case_match; apply advances_ret.
Qed.

Lemma advances_parseexec_loop fuel argc c s :
  (MAXARGS ≤ argc + fuel)%nat → (argc < MAXARGS)%nat → advances (loop (S fuel) parseexec_step (argc, c)) s.
Proof.
  revert argc c s. induction fuel as [|fuel IH]; intros argc c s Hf Ha; [lia|].
  cbn [loop]. rewrite /parseexec_step. apply advances_bind.
  - apply advances_bind; [apply advances_peek|]. intros [] s1 _ _; [apply advances_ret|].
    apply advances_bind; [apply advances_gettoken|]. intros [tok t] s2 _ _.
    destruct (tok =? 0); [apply advances_ret|]. destruct (negb _); [apply advances_panic|].
    destruct (_ <=? _)%nat; [apply advances_panic|].
    apply advances_bind; [apply advances_parseredirs|]. intros ? ? _ _. apply advances_ret.
  - intros [[argc' c']|a] s' E Hle; [|apply advances_ret].
    apply bind_Ok_inv' in E as ([] & s1 & _ & E); [done|].
    apply bind_Ok_inv' in E as ([tok t] & s2 & _ & E).
    destruct (tok =? 0); [done|]. destruct (negb _); [done|].
    destruct (Nat.leb_spec MAXARGS (S argc)); [done|].
    apply bind_Ok_inv' in E as (c2 & s3 & _ & E). injection E as <- <- <-. apply IH; lia.
Qed.

Lemma parseline_back_lt c s c' s' :
  parseline_back c s = Ok (inl c') s' → (length s' < length s)%nat.
Proof.
  intros ([] & s1 & Hp & H)%bind_Ok_inv'; [|by injection H].
  apply bind_Ok_inv' in H as (r & s2 & Hg & H). injection H as _ <-.
  pose proof (peek_gettoken _ _ _ _ _ Hp Hg). pose proof (advances_peek (chars "&") s) as Hb.
  rewrite /advances Hp in Hb. lia.
Qed.

Lemma advances_parsebacks c s : advances (parsebacks c) s.
Proof.
  rewrite /advances /parsebacks. apply (advances_loop parseline_back); [lia| |apply parseline_back_lt].
  clear. intros c s. apply advances_bind; [apply advances_peek|]. intros [] s1 _ _; [|apply advances_ret].
  apply advances_bind; [apply advances_gettoken|]. intros ? ? _ _. apply advances_ret.
Qed.

Lemma advances_parse fuel :
  (∀ s, (4 * length s + 4 ≤ fuel)%nat → advances (parseline fuel) s) ∧
  (∀ s, (4 * length s + 3 ≤ fuel)%nat → advances (parsepipe fuel) s) ∧
  (∀ s, (4 * length s + 2 ≤ fuel)%nat → advances (parseexec fuel) s) ∧
  (∀ s, (4 * length s + 1 ≤ fuel)%nat → advances (parseblock fuel) s).
Proof.
  induction fuel as [|fuel (IHl & IHp & IHe & IHb)].
  { split_and!; intros; lia. }
  split_and!; intros s Hs; cbn [parseline parsepipe parseexec parseblock].
  - apply advances_bind; [apply IHp; lia|]. intros c s1 _ Hs1.
    apply advances_bind; [apply advances_parsebacks|].
    intros c' s2 _ Hs2. apply advances_bind; [apply advances_peek|].
    intros [] s3 Hp Hs3; [|apply advances_ret].
    apply advances_bind; [apply advances_gettoken|]. intros r s4 Hg _.
    pose proof (peek_gettoken _ _ _ _ _ Hp Hg).
    apply advances_bind; [apply IHl; lia|]. intros ? ? _ _. apply advances_ret.
  - apply advances_bind; [apply IHe; lia|]. intros c s1 _ Hs1.
    apply advances_bind; [apply advances_peek|]. intros [] s2 Hp Hs2; [|apply advances_ret].
    apply advances_bind; [apply advances_gettoken|]. intros r s3 Hg _.
    pose proof (peek_gettoken _ _ _ _ _ Hp Hg).
    apply advances_bind; [apply IHp; lia|]. intros ? ? _ _. apply advances_ret.
  - apply advances_bind; [apply advances_peek|]. intros [] s1 _ Hs1; [apply IHb; lia|].
    apply advances_bind; [apply advances_parseredirs|]. intros c s2 _ _.
    apply advances_parseexec_loop; rewrite /MAXARGS; lia.
  - apply advances_bind; [apply advances_peek|]. intros [] s1 Hp Hs1; [|apply advances_panic].
    apply advances_bind; [apply advances_gettoken|]. intros r s2 Hg _.
    pose proof (peek_gettoken _ _ _ _ _ Hp Hg).
    apply advances_bind; [apply IHl; lia|]. intros c s3 _ _.
    apply advances_bind; [apply advances_peek|]. intros [] s4 _ _; [|apply advances_panic].
    apply advances_bind; [apply advances_gettoken|]. intros ? ? _ _. apply advances_parseredirs.
Qed.

(** C38: the shell's parser terminates on every command line: the call depth it
    needs is bounded by the line's length, each loop by what is left of it, and
    the result is a command or a syntax error reported through panic(). *)
Theorem parsecmd_terminates s :
  (∃ c buf, parsecmd s = Ok (c, buf) []) ∨ (∃ msg, parsecmd s = Panic msg).
Proof.
  rewrite /parsecmd. pose proof (proj1 (advances_parse (parse_fuel s)) s (le_n _)) as Ha.
  rewrite /advances in Ha. rewrite /mbind /M_bind.
  destruct (parseline _ s) as [c s1|msg| | | |]; try done; [|by right; eexists].
  rewrite /peek /gets /=. destruct (skip_ws s1) as [|a t]; [left; by eexists _, _|right; by eexists].
Qed.

(** ** Commands, as written and as read *)

(** A command by its words; a redirection has the mode and the descriptor to open
    the file with. *)
Inductive ast :=
| AExec (args : list (list Z))
| ARedir (c : ast) (file : list Z) (mode fd : Z)
| APipe (l r : ast)
| AList (l r : ast)
| ABack (c : ast).

Definition delim (c : Z) : bool := in_set c whitespace || in_set c symbols.

Definition word (w : list Z) : Prop := w ≠ [] ∧ Forall (λ c, delim c = false ∧ c ≠ 0) w.

(** [<] and [>] *)
Definition redir_mode (input : bool) : Z := if input then O_RDONLY else Z.lor O_WRONLY O_CREATE.
Definition redir_fd (input : bool) : Z := if input then 0 else 1.

Fixpoint wf (a : ast) : Prop :=
  match a with
  | AExec args => Forall word args ∧ (length args < MAXARGS)%nat
  | ARedir c file mode fd => wf c ∧ word file ∧ ∃ input, mode = redir_mode input ∧ fd = redir_fd input
  | APipe l r | AList l r => wf l ∧ wf r
  | ABack c => wf c
  end.

(** Every command but a simple one has its parts in parentheses. *)
Fixpoint print (a : ast) : list Z :=
  match a with
  | AExec args => concat ((λ w, w ++ [32]) <$> args)
  | ARedir c file _ fd => 40 :: print c ++ 41 :: (if fd =? 0 then 60 else 62) :: file
  | APipe l r => 40 :: print l ++ 41 :: 124 :: 40 :: print r ++ [41]
  | AList l r => 40 :: print l ++ 41 :: 59 :: 40 :: print r ++ [41]
  | ABack c => 40 :: print c ++ [41; 38]
  end.

(** The strings of a parsed command as [execve] and [open] see them: from the
    start pointer to the first NUL of the buffer. *)
Definition string_at (n : nat) (buf : list Z) (t : token) : list Z :=
  cstr (drop (n - length (fst t)) buf).

Fixpoint read_cmd (f : token → list Z) (c : cmd) : ast :=
  match c with
  | EXEC argv => AExec (f <$> argv)
  | REDIR c' file mode fd => ARedir (read_cmd f c') (f file) mode fd
  | PIPE l r => APipe (read_cmd f l) (read_cmd f r)
  | LIST l r => AList (read_cmd f l) (read_cmd f r)
  | BACK c' => ABack (read_cmd f c')
  end.

(** The characters between the two pointers of a token. *)
Definition tok_text (t : token) : list Z := take (length (fst t) - length (snd t)) (fst t).

(** A token of the line [s]: a word of it up to a delimiter or the end. *)
Definition tok_ok (s : ptr) (t : token) : Prop :=
  ∃ pre w, s = pre ++ fst t ∧ fst t = w ++ snd t ∧ word w ∧
           (∀ c, head (snd t) = Some c → delim c = true).

Fixpoint toks (c : cmd) : list token :=
  match c with
  | EXEC argv => argv
  | REDIR c' file _ _ => toks c' ++ [file]
  | PIPE l r | LIST l r => toks l ++ toks r
  | BACK c' => toks c'
  end.

Lemma tok_ok_app p s t : tok_ok s t → tok_ok (p ++ s) t.
Proof. intros (pre & w & -> & H). exists (p ++ pre), w. by rewrite app_assoc. Qed.

Lemma toks_ok_app p s c : Forall (tok_ok s) (toks c) → Forall (tok_ok (p ++ s)) (toks c).
Proof. intros H. eapply Forall_impl; [exact H|]. intros t. apply tok_ok_app. Qed.

(** *** Single tokens *)

(** Where a printed command may end. *)
Definition ends (rest : ptr) : Prop := rest = [] ∨ ∃ t, rest = 41 :: t.

Lemma skip_ws_ends rest : ends rest → skip_ws rest = rest.
Proof. intros [->|[t ->]]; done. Qed.

Lemma peek_ends toks rest : ends rest → in_set 41 toks = false → peek toks rest = Ok false rest.
Proof. intros [->|[t ->]] Hin; [done|]. by rewrite /peek /= Hin. Qed.

Lemma peek_cons toks c t : in_set c whitespace = false → c ≠ 0 → peek toks (c :: t) = Ok (in_set c toks) (c :: t).
Proof.
  intros Hw H0. rewrite /peek /= Hw. by rewrite (proj2 (Z.eqb_neq _ _) H0).
Qed.

Lemma peek_hit toks c t :
  in_set c toks && negb (in_set c whitespace || (c =? 0)) = true → peek toks (c :: t) = Ok true (c :: t).
Proof.
  rewrite andb_true_iff negb_true_iff orb_false_iff Z.eqb_neq. intros (Ht & Hw & H0). by rewrite peek_cons // Ht.
Qed.

Lemma delim_false c : delim c = false ↔ in_set c whitespace = false ∧ in_set c symbols = false.
Proof. rewrite /delim orb_false_iff //. Qed.

Lemma skip_word_word w r :
  Forall (λ c, delim c = false ∧ c ≠ 0) w → (∀ c, head r = Some c → delim c = true) → skip_word (w ++ r) = r.
Proof.
  intros Hw Hr. induction Hw as [|c w [Hc _] _ IH]; simpl.
  - destruct r as [|c r]; [done|]. simpl. specialize (Hr c eq_refl). rewrite /delim in Hr.
    apply orb_true_iff in Hr as [-> | ->]; [done|]. by rewrite andb_false_r.
  - apply delim_false in Hc as [-> ->]. done.
Qed.

Lemma gettoken_word w r :
  word w → (∀ c, head r = Some c → delim c = true) →
  gettoken (w ++ r) = Ok (97, (w ++ r, r)) (skip_ws r).
Proof.
  intros [Hne HF] Hr. destruct w as [|c w]; [done|].
  pose proof HF as [[[Hcw Hcs]%delim_false H0] _]%Forall_cons.
  rewrite /gettoken. assert (skip_ws ((c :: w) ++ r) = (c :: w) ++ r) as ->.
  { simpl. by rewrite Hcw. }
  assert (token_at ((c :: w) ++ r) = (97, r)) as ->; [|done].
  rewrite in_set_false in Hcs. rewrite /token_at -app_comm_cons (proj2 (Z.eqb_neq _ _) H0).
  rewrite (proj2 (in_set_false c _)).
  { intros Hin. apply Hcs. revert Hin. rewrite /symbols /= !elem_of_cons. tauto. }
  destruct (Z.eqb_spec c 62) as [->|]; [exfalso; apply Hcs; rewrite /symbols /= !elem_of_cons; tauto|].
  rewrite app_comm_cons (skip_word_word _ _ HF Hr) //.
Qed.

Lemma tok_text_word w r : tok_text (w ++ r, r) = w.
Proof. rewrite /tok_text /= length_app Nat.add_sub take_app_length //. Qed.

Lemma tok_ok_word pre w r :
  word w → (∀ c, head r = Some c → delim c = true) → tok_ok (pre ++ w ++ r) (w ++ r, r).
Proof. intros. by exists pre, w. Qed.

Lemma ends_delim rest c : ends rest → head rest = Some c → delim c = true.
Proof. by intros [->|[t ->]] [= <-]. Qed.

(** A word is not mistaken for anything else. *)
Lemma peek_word toks w r :
  word w → (∀ c, c ∈ toks → c ∈ symbols) → peek toks (w ++ r) = Ok false (w ++ r).
Proof.
  intros [Hne HF] Ht. destruct w as [|c w]; [done|].
  apply Forall_cons in HF as [[[Hcw Hcs]%delim_false H0] _].
  rewrite -app_comm_cons peek_cons //. f_equal. apply in_set_false. rewrite in_set_false in Hcs. auto.
Qed.

(** *** Simple commands *)

Lemma parseredirs_none c s : peek (chars "<>") s = Ok false s → parseredirs c s = Ok c s.
Proof.
  intros Hp. rewrite /parseredirs. apply loop_done. rewrite /parseredirs_step (bind_Ok _ _ _ _ _ Hp) //.
Qed.

Lemma args_start args rest :
  Forall word args → ends rest →
  skip_ws (print (AExec args) ++ rest) = print (AExec args) ++ rest ∧
  ∀ toks, (∀ c, c ∈ toks → c ∈ symbols) → in_set 41 toks = false →
          peek toks (print (AExec args) ++ rest) = Ok false (print (AExec args) ++ rest).
Proof.
  intros Hw He. destruct args as [|w args]; simpl.
  { split; [by apply skip_ws_ends|]. intros. by apply peek_ends. }
  apply Forall_cons in Hw as [Hw _]. rewrite -!app_assoc. split.
  - destruct Hw as [Hne HF]. destruct w as [|c w]; [done|].
    apply Forall_cons in HF as [[[Hcw _]%delim_false _] _]. by rewrite /= Hcw.
  - intros toks Ht _. by apply peek_word.
Qed.

Lemma subset_symbols l : forallb (λ x, in_set x symbols) l = true → ∀ c, c ∈ l → c ∈ symbols.
Proof. rewrite forallb_forall. intros H c Hc%list_elem_of_In. apply in_set_true. auto. Qed.

Lemma parse_args args argc ts rest fuel :
  Forall word args → (argc + length args < MAXARGS)%nat → (length args < fuel)%nat → ends rest →
  ∃ ts', loop fuel parseexec_step (argc, EXEC ts) (print (AExec args) ++ rest) = Ok (EXEC (ts ++ ts')) rest ∧
         tok_text <$> ts' = args ∧ Forall (tok_ok (print (AExec args) ++ rest)) ts'.
Proof.
  revert argc ts fuel. induction args as [|w args IH]; intros argc ts fuel HF Hn Hf He.
  - exists []. rewrite app_nil_r. split_and!; try done. destruct fuel; [simpl in *; lia|].
    apply loop_done. destruct He as [->|[t ->]]; done.
  - apply Forall_cons in HF as [Hw HF]. destruct (args_start args rest HF He) as [Hws Hpk].
    destruct fuel as [|fuel]; [simpl in *; lia|].
    set (more := print (AExec args) ++ rest) in *.
    assert (print (AExec (w :: args)) ++ rest = w ++ 32 :: more) as ->.
    { rewrite /more /= -!app_assoc //. }
    destruct (IH (S argc) (ts ++ [(w ++ 32 :: more, 32 :: more)]) fuel) as (ts' & Hl & Ht & Hok);
      [done|simpl in *; lia..|done|].
    exists ((w ++ 32 :: more, 32 :: more) :: ts'). split_and!.
    + rewrite (loop_S _ _ _ _ (S argc, EXEC (ts ++ [(w ++ 32 :: more, 32 :: more)])) more).
      2:{ rewrite Hl -app_assoc //. }
      rewrite /parseexec_step (bind_Ok _ _ _ _ _ (peek_word (chars "|)&;") w (32 :: more) Hw (subset_symbols (chars "|)&;") eq_refl))).
      rewrite (bind_Ok _ _ _ _ _ (gettoken_word w (32 :: more) Hw _)); [by intros c [= <-]|].
      cbv zeta beta iota. rewrite (proj2 (Nat.leb_gt MAXARGS (S argc))); [simpl in *; lia|].
      simpl. rewrite Hws. rewrite (bind_Ok _ _ _ _ _ (parseredirs_none _ more _)) //.
      by apply Hpk; [apply subset_symbols|].
    + rewrite fmap_cons tok_text_word Ht //.
    + apply Forall_cons. split.
      * apply (tok_ok_word []); [done|]. by intros c [= <-].
      * eapply Forall_impl; [exact Hok|]. intros t Ht'.
        change (tok_ok (w ++ [32] ++ more) t). rewrite app_assoc. by apply tok_ok_app.
Qed.

(** *** Compound commands *)

(** [parseline] reads the printed form of [a] back, up to what may follow it. *)
Definition parses (a : ast) : Prop := ∀ rest fuel,
  ends rest → (4 * length (print a ++ rest) + 4 ≤ fuel)%nat →
  ∃ c, parseline fuel (print a ++ rest) = Ok c rest ∧ read_cmd tok_text c = a ∧
       Forall (tok_ok (print a ++ rest)) (toks c).

Lemma skip_ws_print a rest : wf a → ends rest → skip_ws (print a ++ rest) = print a ++ rest.
Proof. intros Hwf He. destruct a; try done. by apply args_start; [apply Hwf|]. Qed.

Lemma gettoken_symbol c t :
  in_set c (chars "|();&<") = true → ∃ tk, gettoken (c :: t) = Ok (c, tk) (skip_ws t).
Proof.
  intros Hc. assert (in_set c whitespace = false ∧ c ≠ 0) as [Hw H0].
  { apply in_set_true in Hc. revert Hc. rewrite /= !elem_of_cons.
    intros Hc. repeat (destruct Hc as [->|Hc]; [done|]). by apply elem_of_nil in Hc. }
  rewrite /gettoken. assert (skip_ws (c :: t) = c :: t) as -> by rewrite /= Hw //.
  rewrite /token_at (proj2 (Z.eqb_neq _ _) H0) Hc. by eexists.
Qed.

(** A command in parentheses, up to its redirections. *)
Lemma parseexec_block a t fuel :
  wf a → parses a → (4 * length (40%Z :: print a ++ 41%Z :: t) + 2 ≤ fuel)%nat →
  ∃ c, parseexec fuel (40 :: print a ++ 41 :: t) = parseredirs c (skip_ws t) ∧
       read_cmd tok_text c = a ∧ Forall (tok_ok (40 :: print a ++ 41 :: t)) (toks c).
Proof.
  intros Hwf Ha Hf. destruct fuel as [|[|fuel]]; [simpl in Hf; lia..|].
  assert (ends (41 :: t)) as He by (right; eauto).
  destruct (Ha (41 :: t) fuel He) as (c & Hc & Hr & Hok); [simpl in *; lia|].
  exists c. split_and!; [|done|by apply (toks_ok_app [40])].
  assert (peek (chars "(") (40 :: print a ++ 41 :: t) = Ok true (40 :: print a ++ 41 :: t)) as Hp by done.
  cbn [parseexec parseblock]. rewrite (bind_Ok _ _ _ _ _ Hp) (bind_Ok _ _ _ _ _ Hp). cbn [negb].
  destruct (gettoken_symbol 40 (print a ++ 41 :: t)) as [tk Hg]; [done|].
  rewrite skip_ws_print // in Hg. rewrite (bind_Ok _ _ _ _ _ Hg) (bind_Ok _ _ _ _ _ Hc).
  rewrite (bind_Ok _ _ _ true (41 :: t)); [done|]. cbn [negb].
  destruct (gettoken_symbol 41 t) as [tk' Hg']; [done|]. by rewrite (bind_Ok _ _ _ _ _ Hg').
Qed.

(** ... when there are none. *)
Lemma parseexec_block_end a t fuel :
  wf a → parses a → (4 * length (40%Z :: print a ++ 41%Z :: t) + 2 ≤ fuel)%nat →
  peek (chars "<>") t = Ok false t →
  ∃ c, parseexec fuel (40 :: print a ++ 41 :: t) = Ok c t ∧
       read_cmd tok_text c = a ∧ Forall (tok_ok (40 :: print a ++ 41 :: t)) (toks c).
Proof.
  intros Hwf Ha Hf Hp. destruct (parseexec_block a t fuel Hwf Ha Hf) as (c & Hc & Hr).
  exists c. split; [|done]. rewrite Hc.
  assert (skip_ws t = t) as ->; [|by apply parseredirs_none].
  by injection Hp as _.
Qed.

(** The redirection after a block. *)
Lemma parseredirs_one c (input : bool) file rest :
  word file → ends rest →
  parseredirs c ((if input then 60 else 62) :: file ++ rest) =
    Ok (REDIR c (file ++ rest, rest) (redir_mode input) (redir_fd input)) rest.
Proof.
  intros Hw He. set (s := (if input then 60 else 62) :: file ++ rest).
  assert (∃ c' tk, file ++ rest = c' :: tk ∧ delim c' = false) as (d & tk & Ed & Hd).
  { destruct Hw as [Hne HF]. destruct file as [|d file]; [done|].
    apply Forall_cons in HF as [[? _] _]. by exists d, (file ++ rest). }
  assert (skip_ws (file ++ rest) = file ++ rest) as Hsk.
  { rewrite Ed /=. apply delim_false in Hd as [-> _]. done. }
  assert (gettoken s = Ok (if input then 60 else 62, (s, file ++ rest)) (file ++ rest)) as Hg.
  { rewrite /gettoken. assert (skip_ws s = s) as -> by by rewrite /s; destruct input.
    assert (token_at s = (if input then 60 else 62, file ++ rest)) as ->; [|by rewrite Hsk].
    rewrite /s Ed. destruct input; [done|]. rewrite /token_at.
    assert (d =? 62 = false) as ->; [|done]. apply Z.eqb_neq. intros ->. by apply delim_false in Hd as []. }
  rewrite /parseredirs (loop_S _ _ _ _ (REDIR c (file ++ rest, rest) (redir_mode input) (redir_fd input)) rest).
  - rewrite /parseredirs_step (bind_Ok _ _ _ true s); [by destruct input|]. cbn [negb].
    rewrite (bind_Ok _ _ _ _ _ Hg) (bind_Ok _ _ _ _ _ (gettoken_word file rest Hw (λ c, ends_delim rest c He))).
    rewrite skip_ws_ends //. by destruct input.
  - rewrite /s /=. apply loop_done. rewrite /parseredirs_step (bind_Ok _ _ _ _ _ (peek_ends (chars "<>") _ He eq_refl)) //.
Qed.

(** Nothing more follows on the level of [|], and on those of [&] and [;]. *)
Lemma parsepipe_end f s c rest :
  parseexec f s = Ok c rest → peek (chars "|") rest = Ok false rest → parsepipe (S f) s = Ok c rest.
Proof.
  intros Hc He. cbn [parsepipe]. rewrite (bind_Ok _ _ _ _ _ Hc) (bind_Ok _ _ _ _ _ He) //.
Qed.

Lemma parsebacks_end c s : peek (chars "&") s = Ok false s → parsebacks c s = Ok c s.
Proof. intros He. rewrite /parsebacks. apply loop_done. rewrite /parseline_back (bind_Ok _ _ _ _ _ He) //. Qed.

Lemma parseline_tail f s c rest : parsepipe f s = Ok c rest → ends rest → parseline (S f) s = Ok c rest.
Proof.
  intros Hc He. cbn [parseline]. rewrite (bind_Ok _ _ _ _ _ Hc).
  rewrite (bind_Ok _ _ _ _ _ (parsebacks_end c rest (peek_ends (chars "&") _ He eq_refl))).
  rewrite (bind_Ok _ _ _ _ _ (peek_ends (chars ";") _ He eq_refl)) //.
Qed.

Lemma parseline_end f s c rest :
  parseexec f s = Ok c rest → ends rest → parseline (S (S f)) s = Ok c rest.
Proof. intros Hc He. apply parseline_tail; [|done]. by apply parsepipe_end; [|apply peek_ends]. Qed.

Lemma parses_exec args : wf (AExec args) → parses (AExec args).
Proof.
  intros [Hw Hn] rest fuel He Hf. destruct fuel as [|[|[|fuel]]]; [simpl in Hf; lia..|].
  destruct (args_start args rest Hw He) as [_ Hp].
  destruct (parse_args args 0 [] rest (S MAXARGS)) as (ts & Hl & Ht & Hok); [done|lia..|done|].
  exists (EXEC ts). split_and!; [|by rewrite /= Ht|done]. apply parseline_end; [|done].
  cbn [parseexec]. rewrite (bind_Ok _ _ _ _ _ (Hp (chars "(") (subset_symbols (chars "(") eq_refl) eq_refl)).
  rewrite (bind_Ok _ _ _ _ _ (parseredirs_none _ _ (Hp (chars "<>") (subset_symbols (chars "<>") eq_refl) eq_refl))).
  exact Hl.
Qed.

Lemma parses_redir a file mode fd : wf (ARedir a file mode fd) → parses a → parses (ARedir a file mode fd).
Proof.
  intros (Hwf & Hw & input & -> & ->) Ha rest fuel He Hf. destruct fuel as [|[|[|fuel]]]; [simpl in Hf; lia..|].
  set (op := if input then 60 else 62).
  assert (print (ARedir a file (redir_mode input) (redir_fd input)) ++ rest = 40 :: print a ++ 41 :: op :: file ++ rest) as Hs.
  { rewrite /= -app_assoc /op. by destruct input. }
  rewrite Hs in Hf |- *. destruct (parseexec_block a (op :: file ++ rest) (S fuel) Hwf Ha) as (c & Hc & Hr & Hok);
    [simpl in *; lia|].
  exists (REDIR c (file ++ rest, rest) (redir_mode input) (redir_fd input)). split_and!.
  - apply parseline_end; [|done]. rewrite Hc.
    assert (skip_ws (op :: file ++ rest) = op :: file ++ rest) as -> by (rewrite /op; by destruct input).
    by apply parseredirs_one.
  - rewrite /= Hr tok_text_word //.
  - apply Forall_app. split; [done|]. apply Forall_singleton.
    change (40 :: print a ++ 41 :: op :: file ++ rest) with ((40 :: print a) ++ [41; op] ++ file ++ rest).
    rewrite app_assoc. by apply tok_ok_word; [|intros ?; apply ends_delim].
Qed.

(** The two commands of a pipe or a list. *)
Lemma parse_two l r op rest f1 f2 :
  wf l → wf r → parses l → parses r → ends rest → in_set op (chars "|;") = true →
  let t := 40 :: print r ++ 41 :: rest in
  let s := 40 :: print l ++ 41 :: op :: t in
  (4 * length s + 2 ≤ f1)%nat → (4 * length t + 2 ≤ f2)%nat →
  ∃ c1 c2 tk,
    parseexec f1 s = Ok c1 (op :: t) ∧ gettoken (op :: t) = Ok (op, tk) t ∧ parseexec f2 t = Ok c2 rest ∧
    read_cmd tok_text c1 = l ∧ read_cmd tok_text c2 = r ∧ Forall (tok_ok s) (toks c1 ++ toks c2).
Proof.
  intros Hl Hr Pl Pr He Hop t s Hf1 Hf2.
  assert (op = 124 ∨ op = 59) as Hc.
  { apply in_set_true in Hop. rewrite /= !elem_of_cons elem_of_nil in Hop. tauto. }
  destruct (parseexec_block_end l (op :: t) f1 Hl Pl Hf1) as (c1 & Hc1 & R1 & O1); [by destruct Hc as [-> | ->]|].
  destruct (parseexec_block_end r rest f2 Hr Pr Hf2) as (c2 & Hc2 & R2 & O2); [by apply peek_ends|].
  destruct (gettoken_symbol op t) as [tk Hg]; [by destruct Hc as [-> | ->]|].
  exists c1, c2, tk. split_and!; try done.
  apply Forall_app. split; [done|].
  assert (s = (40 :: print l ++ [41; op]) ++ t) as -> by rewrite /s /= -app_assoc //.
  by apply toks_ok_app.
Qed.

Lemma parses_pipe l r : wf (APipe l r) → parses l → parses r → parses (APipe l r).
Proof.
  intros [Hl Hr] Pl Pr rest fuel He Hf. destruct fuel as [|[|[|fuel]]]; [simpl in Hf; lia..|].
  assert (print (APipe l r) ++ rest = 40 :: print l ++ 41 :: 124 :: 40 :: print r ++ 41 :: rest) as Hs.
  { rewrite /= -app_assoc /= -app_assoc //. }
  rewrite Hs in Hf |- *. rewrite /= length_app /= in Hf.
  destruct (parse_two l r 124 rest (S fuel) fuel) as (c1 & c2 & tk & H1 & Hg & H2 & R1 & R2 & Hok); try done.
  { simpl. rewrite length_app /=. lia. } { simpl. lia. }
  exists (PIPE c1 c2). split_and!; [|by rewrite /= R1 R2|done]. apply parseline_tail; [|done].
  cbn [parsepipe]. rewrite (bind_Ok _ _ _ _ _ H1) (bind_Ok _ _ _ _ _ (peek_hit (chars "|") 124 _ eq_refl)).
  rewrite (bind_Ok _ _ _ _ _ Hg) (bind_Ok _ _ _ c2 rest) //.
  by apply (parsepipe_end fuel); [|apply peek_ends].
Qed.

Lemma parses_list l r : wf (AList l r) → parses l → parses r → parses (AList l r).
Proof.
  intros [Hl Hr] Pl Pr rest fuel He Hf. destruct fuel as [|[|[|[|fuel]]]]; [simpl in Hf; lia..|].
  assert (print (AList l r) ++ rest = 40 :: print l ++ 41 :: 59 :: 40 :: print r ++ 41 :: rest) as Hs.
  { rewrite /= -app_assoc /= -app_assoc //. }
  rewrite Hs in Hf |- *. rewrite /= length_app /= in Hf.
  destruct (parse_two l r 59 rest (S (S fuel)) (S fuel)) as (c1 & c2 & tk & H1 & Hg & H2 & R1 & R2 & Hok); try done.
  { simpl. rewrite length_app /=. lia. } { simpl. lia. }
  exists (LIST c1 c2). split_and!; [|by rewrite /= R1 R2|done].
  cbn [parseline]. rewrite (bind_Ok _ _ _ _ _ (parsepipe_end _ _ _ _ H1 eq_refl)).
  rewrite (bind_Ok _ _ _ _ _ (parsebacks_end c1 (59 :: 40 :: print r ++ 41 :: rest) eq_refl)) (bind_Ok _ _ _ _ _ (peek_hit (chars ";") 59 _ eq_refl)).
  rewrite (bind_Ok _ _ _ _ _ Hg) (bind_Ok _ _ _ c2 rest) //. by apply (parseline_end (S fuel)).
Qed.

Lemma parses_back a : wf (ABack a) → parses a → parses (ABack a).
Proof.
  intros Hwf Ha rest fuel He Hf. destruct fuel as [|[|[|fuel]]]; [simpl in Hf; lia..|].
  assert (print (ABack a) ++ rest = 40 :: print a ++ 41 :: 38 :: rest) as Hs.
  { rewrite /= -app_assoc //. }
  rewrite Hs in Hf |- *.
  destruct (parseexec_block_end a (38 :: rest) (S fuel) Hwf Ha) as (c & Hc & Hr & Hok); [simpl in *; lia|done|].
  exists (BACK c). split_and!; [|by rewrite /= Hr|done].
  cbn [parseline]. rewrite (bind_Ok _ _ _ _ _ (parsepipe_end _ _ _ _ Hc eq_refl)).
  rewrite (bind_Ok _ _ _ (BACK c) rest).
  { rewrite /parsebacks (loop_S _ _ _ _ (BACK c) rest).
    - rewrite /parseline_back (bind_Ok _ _ _ _ _ (peek_hit (chars "&") 38 _ eq_refl)). destruct (gettoken_symbol 38 rest) as [tk Hg]; [done|].
      rewrite (bind_Ok _ _ _ _ _ Hg) skip_ws_ends //.
    - apply loop_done. rewrite /parseline_back (bind_Ok _ _ _ _ _ (peek_ends (chars "&") _ He eq_refl)) //. }
  rewrite (bind_Ok _ _ _ _ _ (peek_ends (chars ";") _ He eq_refl)) //.
Qed.

Lemma parses_print a : wf a → parses a.
Proof.
  induction a; intros Hwf; [by apply parses_exec|apply parses_redir|apply parses_pipe|apply parses_list|apply parses_back];
    try done; simpl in Hwf; naive_solver.
Qed.

(** *** NUL-termination *)

Definition nuls (n : nat) (buf : list Z) (ts : list token) : list Z :=
  foldl (λ b (t : token), nul_at (snd t) n b) buf ts.

Lemma nulterminate_toks n c buf : nulterminate n c buf = nuls n buf (toks c).
Proof.
  revert buf. induction c; intros buf; rewrite /nuls /= ?foldl_app ?IHc ?IHc1 ?IHc2 //.
Qed.

Lemma nuls_length n ts buf : length (nuls n buf ts) = length buf.
Proof. revert buf. induction ts as [|t ts IH]; intros buf; simpl; [done|]. rewrite IH /nul_at length_insert //. Qed.

Lemma nuls_other n (ts : list token) buf k :
  (∀ t, t ∈ ts → k ≠ (n - length (snd t))%nat) →
  nuls n buf ts !! k = buf !! k.
Proof.
  revert buf. induction ts as [|t ts IH]; intros buf Hk; simpl; [done|].
  rewrite IH; [intros t' Ht'; apply Hk; by apply elem_of_cons; right|].
  apply list_lookup_insert_ne. intros E. symmetry in E. revert E. apply Hk. apply elem_of_cons. by left.
Qed.

(** The position of a NUL stays a NUL. *)
Lemma nuls_keep n (ts : list token) buf k :
  buf !! k = Some 0 → nuls n buf ts !! k = Some 0.
Proof.
  revert buf. induction ts as [|t ts IH]; intros buf Hk; simpl; [done|]. apply IH. rewrite /nul_at.
  destruct (decide (k = (n - length (snd t))%nat)) as [->|Hne].
  - apply list_lookup_insert_eq. by apply lookup_lt_Some in Hk.
  - rewrite list_lookup_insert_ne; [congruence|done].
Qed.

Lemma nuls_zero n (ts : list token) buf t :
  t ∈ ts → (n - length (snd t) < length buf)%nat →
  nuls n buf ts !! (n - length (snd t))%nat = Some 0.
Proof.
  revert buf. induction ts as [|u ts IH]; intros buf Hin Hk; [by apply elem_of_nil in Hin|]. simpl.
  apply elem_of_cons in Hin as [<-|Hin]; [|apply IH; [done|]; rewrite /nul_at length_insert //].
  apply nuls_keep. by apply list_lookup_insert_eq.
Qed.

(** The C string at a place of a buffer. *)
Lemma cstr_at buf k w :
  (∀ i c, w !! i = Some c → buf !! (k + i)%nat = Some c ∧ c ≠ 0) →
  buf !! (k + length w)%nat = Some 0 → cstr (drop k buf) = w.
Proof.
  revert k. induction w as [|c w IH]; intros k Hw H0.
  - rewrite Nat.add_0_r in H0. by rewrite (drop_S _ _ _ H0).
  - destruct (Hw 0%nat c eq_refl) as [Hc Hn]. rewrite Nat.add_0_r in Hc. rewrite (drop_S _ _ _ Hc) /=.
    rewrite (proj2 (Z.eqb_neq _ _) Hn). f_equal. apply IH.
    + intros i d Hi. specialize (Hw (S i) d Hi). by rewrite Nat.add_succ_r in Hw.
    + by rewrite /= Nat.add_succ_r in H0.
Qed.

(** No token's NUL falls into the word of another. *)
Lemma string_at_token s ts t :
  Forall (tok_ok s) ts → t ∈ ts →
  string_at (length s) (nuls (length s) (s ++ [0]) ts) t = tok_text t.
Proof.
  intros HF Hin. pose proof (proj1 (Forall_forall _ _) HF t Hin) as (pre & w & Hs & Hq & [_ Hw] & _).
  assert (tok_text t = w) as ->.
  { destruct t as [q e]; simpl in *. subst q. apply tok_text_word. }
  rewrite /string_at. assert (length s - length (fst t) = length pre)%nat as ->.
  { rewrite Hs length_app. lia. }
  assert (length s - length (snd t) = length pre + length w)%nat as Hend.
  { rewrite Hs Hq !length_app. lia. }
  apply cstr_at.
  - intros i c Hi. pose proof (proj1 (Forall_lookup _ _) Hw i c Hi) as [Hd H0]. split; [|done].
    pose proof (lookup_lt_Some _ _ _ Hi).
    assert (s !! (length pre + i)%nat = Some c) as Hsc.
    { rewrite Hs Hq lookup_app_r; [lia|]. rewrite Nat.add_comm Nat.add_sub lookup_app_l //. }
    rewrite nuls_other; [|by apply lookup_app_l_Some].
    intros [q' e'] Ht' E. simpl in E.
    pose proof (proj1 (Forall_forall _ _) HF _ Ht') as (pre' & w' & Hs' & Hq' & _ & Hd'). simpl in *.
    assert (s !! (length pre + i)%nat = head e') as Hh.
    { rewrite E Hs' Hq' app_assoc. replace (length _ - length e')%nat with (length (pre' ++ w') + 0)%nat
        by (rewrite !length_app; lia). rewrite lookup_app_r; [lia|].
      rewrite Nat.add_comm Nat.add_sub. by destruct e'. }
    rewrite Hsc in Hh. rewrite (Hd' c) // in Hd.
  - rewrite -Hend. apply nuls_zero; [done|]. rewrite length_app /=. lia.
Qed.

Lemma read_cmd_ext f g c : (∀ t, t ∈ toks c → f t = g t) → read_cmd f c = read_cmd g c.
Proof.
  induction c as [argv|c IH file mode fd|l IHl r IHr|l IHl r IHr|c IH]; simpl; intros H.
  - f_equal. apply list_fmap_ext. intros i t Ht. apply H. exact (list_elem_of_lookup_2 _ _ _ Ht).
  - rewrite IH; [intros; apply H; apply elem_of_app; by left|].
    rewrite H //. apply elem_of_app. right. apply list_elem_of_here.
  - rewrite IHl; [|rewrite IHr; [|done]]; intros; apply H; apply elem_of_app; auto.
  - rewrite IHl; [|rewrite IHr; [|done]]; intros; apply H; apply elem_of_app; auto.
  - by rewrite IH.
Qed.

Lemma parsecmd_reads a :
  wf a → ∃ c buf, parsecmd (print a) = Ok (c, buf) [] ∧
                  read_cmd (string_at (length (print a)) buf) c = a.
Proof.
  intros Hwf. set (s := print a).
  destruct (parses_print a Hwf [] (parse_fuel s)) as (c & Hc & Hr & Hok).
  { by left. } { rewrite app_nil_r. done. }
  rewrite app_nil_r in Hc, Hok. fold s in Hc, Hok.
  exists c, (nulterminate (length s) c (s ++ [0])). split.
  - rewrite /parsecmd (bind_Ok _ _ _ _ _ Hc) //.
  - fold s; rewrite -Hr. apply read_cmd_ext. intros t Ht.
    rewrite nulterminate_toks. by apply string_at_token.
Qed.

(** C14: the shell's parser inverts printing. The printed form of any command
    (words of ordinary characters, fewer than [MAXARGS] arguments, parts in
    parentheses) is parsed without error, and the strings of the tree returned,
    as exec() and open() find them in the NUL-terminated line, are the words of
    the command. *)
Theorem parsecmd_print a :
  wf a → ∃ c buf, parsecmd (print a) = Ok (c, buf) [] ∧
                  read_cmd (string_at (length (print a)) buf) c = a.
Proof. apply parsecmd_reads. Qed.

(** [(((cat )<in)|(wc -l ))&] *)
Definition demo_ast : ast :=
  ABack (APipe (ARedir (AExec [chars "cat"]) (chars "in") O_RDONLY 0) (AExec [chars "wc"; chars "-l"])).

Lemma word_check w : w ≠ [] → forallb (λ c, negb (delim c) && negb (c =? 0)) w = true → word w.
Proof.
  intros Hne Hb. split; [done|]. apply Forall_forall. intros c Hc%list_elem_of_In.
  apply (proj1 (forallb_forall _ _) Hb) in Hc. apply andb_true_iff in Hc as [Hd H0].
  split; [by apply negb_true_iff|]. by apply Z.eqb_neq, negb_true_iff.
Qed.

Lemma demo_wf : wf demo_ast.
Proof.
  assert (∀ ws, forallb (λ w, bool_decide (w ≠ []) && forallb (λ c, negb (delim c) && negb (c =? 0)) w) ws = true → Forall word ws) as Hws.
  { intros ws Hb. apply Forall_forall. intros w Hw%list_elem_of_In.
    apply (proj1 (forallb_forall _ _) Hb) in Hw. apply andb_true_iff in Hw as [Hne%bool_decide_eq_true ?]. by apply word_check. }
  repeat split; [by apply Hws|by apply (Nat.ltb_lt _ MAXARGS)|done|by apply (word_check (chars "in"))|by exists true|by apply Hws|by apply (Nat.ltb_lt _ MAXARGS)].
Qed.

Lemma parsecmd_print_witness :
  print demo_ast = chars "(((cat )<in)|(wc -l ))&" ∧
  ∃ c buf, parsecmd (print demo_ast) = Ok (c, buf) [] ∧
           read_cmd (string_at (length (print demo_ast)) buf) c = demo_ast.
Proof. split; [reflexivity|]. apply (parsecmd_print demo_ast), demo_wf. Defined.
