(* ===== verification/Usys.v ===== *)
(** * User programs as sequences of system calls

    A user program is an interaction tree over the system calls of user.h: it
    makes a call, gets its result and goes on, possibly forever. [procE] are the
    calls that concern processes and file descriptors ([SUndefined] stands for
    undefined behaviour), [ioE] those that move
    bytes or change directories. Library functions that only compute are pure
    (Ulib); those that make system calls are trees. *)

From ITree Require Export ITree.
From S2P Require Import Prelude Param Console Ulib.

(** ** System calls *)

Inductive procE : Type → Type :=
| SFork : procE Z
| SExit : procE Empty_set
| SWait : procE Z
| SExec (path : list Z) (argv : list (list Z)) : procE Z
| SPipe : procE (option (Z * Z))
| SOpen (path : list Z) (mode : Z) : procE Z
| SClose (fd : Z) : procE Z
| SDup (fd : Z) : procE Z
| SUndefined : procE Empty_set.

Record ustat := Ustat { us_type : Z; us_dev : Z; us_ino : Z; us_nlink : Z; us_size : Z }.

Inductive ioE : Type → Type :=
| SRead (fd n : Z) : ioE (option (list Z))
| SWrite (fd : Z) (bs : list Z) : ioE Z
| SFstat (fd : Z) : ioE (option ustat)
| SChdir (path : list Z) : ioE Z
| SMkdir (path : list Z) : ioE Z
| SMknod (path : list Z) (major minor : Z) : ioE Z
| SLink (old new : list Z) : ioE Z
| SUnlink (path : list Z) : ioE Z
| SKill (pid : Z) : ioE Z
| SSleep (n : Z) : ioE Z.

Definition U : Type → Type := itree (procE +' ioE).

#[global] Instance U_ret : MRet U := λ A a, Ret a.
#[global] Instance U_bind : MBind U := λ A B f t, ITree.bind t f.

(** A computation that does not return. *)
Definition noreturn {A} (t : U Empty_set) : U A := x ← t; match x : Empty_set with end.

(** A system call. *)
Definition proc_ {X} (e : procE X) : U X := ITree.trigger (inl1 e).
Definition io_ {X} (e : ioE X) : U X := ITree.trigger (inr1 e).

Definition fork_ : U Z := proc_ SFork.
Definition exit_ {A} : U A := noreturn (proc_ SExit).
Definition wait_ : U Z := proc_ SWait.
Definition exec_ (path : list Z) (argv : list (list Z)) : U Z := proc_ (SExec path argv).
Definition pipe_ : U (option (Z * Z)) := proc_ SPipe.
Definition open_ (path : list Z) (mode : Z) : U Z := proc_ (SOpen path mode).
Definition close_ (fd : Z) : U Z := proc_ (SClose fd).
Definition dup_ (fd : Z) : U Z := proc_ (SDup fd).
Definition read_ (fd n : Z) : U (option (list Z)) := io_ (SRead fd n).
Definition write_ (fd : Z) (bs : list Z) : U Z := io_ (SWrite fd bs).
Definition fstat_ (fd : Z) : U (option ustat) := io_ (SFstat fd).

#[global] Arguments U_bind : simpl never.
#[global] Arguments noreturn : simpl never.
#[global] Arguments proc_ : simpl never.
#[global] Arguments io_ : simpl never.

(** ** Library functions that make system calls *)

(** putc() of printf.c, for each character of a text. *)
Fixpoint putcs (fd : Z) (text : list Z) : U unit :=
  match text with
  | [] => mret tt
  | c :: text' => write_ fd [c];; putcs fd text'
  end.

(** printf(fd, fmt, ...): with arguments that do not fit the format its behaviour
    is undefined. *)
Definition uprintf (fd : Z) (fmt : list Z) (args : list arg) : U unit :=
  match printf fmt args with
  | Some text => putcs fd text
  | None => noreturn (proc_ SUndefined)
  end.

(** A C string as an argument of printf. *)
Definition str (s : list Z) : arg := AStr (Some s).

(** gets(buf, max): the line read, with its end-of-line character. *)
Fixpoint read_line (room : nat) : U (list Z) :=
  match room with
  | O => mret []
  | S room' =>
      o ← read_ 0 1;
      match o with
      | Some (c :: _) => if (c =? 10) || (c =? 13) then mret [c] else l ← read_line room'; mret (c :: l)
      | _ => mret []
      end
  end.
Definition gets_ (max : Z) : U (list Z) := read_line (Z.to_nat (max - 1)).

(** stat(n, st) of ulib.c. *)
Definition stat_ (n : list Z) : U (option ustat) :=
  fd ← open_ n O_RDONLY;
  if fd <? 0 then mret None else
  r ← fstat_ fd;
  close_ fd;;
  mret r.

(** The program runs forever, one turn after the other. *)
Definition forever (turn : U unit) : U Empty_set := ITree.iter (λ _, turn;; mret (inl ())) ().

(** ** Running a program

    A machine says what each system call does: given the state and what the program
    does with the call's result, what comes of it. *)

Class Machine (St R : Type) := {
  handle {X} : (procE +' ioE) X → St → (X → St → option R) → option R;
  finish : St → R;
  handle_ext {X} (e : (procE +' ioE) X) s k k' : (∀ x s, k x s = k' x s) → handle e s k = handle e s k'
}.

(** [None]: out of fuel, or what the machine gives no meaning to. *)
Fixpoint execute `{Machine St R} {A} (fuel : nat) (t : U A) (s : St) : option R :=
  match fuel with
  | O => None
  | S fuel' =>
      match observe t with
      | RetF _ => Some (finish s)
      | TauF t' => execute fuel' t' s
      | VisF e k => handle e s (λ x s', execute fuel' (k x) s')
      end
  end.

(** The program ends with [r]: with enough fuel, and with any more of it. *)
Definition yields `{Machine St R} {A} (t : U A) (s : St) (r : R) : Prop :=
  ∃ n, ∀ fuel, (n ≤ fuel)%nat → execute fuel t s = Some r.

Lemma observe_bind {A B} (t : U A) (k : A → U B) :
  observe (t ≫= k) = match observe t with
                     | RetF a => observe (k a)
                     | TauF t' => TauF (t' ≫= k)
                     | VisF e h => VisF e (λ x, h x ≫= k)
                     end.
Proof. rewrite /mbind /U_bind /observe /=. rewrite /observe. by destruct (_observe t). Qed.

Section machine.
Context `{Machine St R}.
Implicit Types (s : St) (r : R).

Lemma execute_observe {A} fuel (t t' : U A) s : observe t = observe t' → execute fuel t s = execute fuel t' s.
Proof. intros E. destruct fuel as [|fuel]; [done|]. by rewrite /= E. Qed.

Lemma execute_assoc {A B C} fuel (t : U A) (f : A → U B) (g : B → U C) s :
  execute fuel ((t ≫= f) ≫= g) s = execute fuel (t ≫= λ x, f x ≫= g) s.
Proof.
  revert t s. induction fuel as [|fuel IH]; intros t s; [done|].
  destruct (observe t) as [a|t'|X e h] eqn:E.
  - apply execute_observe. rewrite !observe_bind E. exact (eq_sym (observe_bind (f a) g)).
  - cbn [execute]. rewrite !observe_bind E. apply IH.
  - cbn [execute]. rewrite !observe_bind E. apply handle_ext. intros. apply IH.
Qed.

Lemma execute_noreturn {B} fuel (t : U Empty_set) (k : Empty_set → U B) s : execute fuel (t ≫= k) s = execute fuel t s.
Proof.
  revert t s. induction fuel as [|fuel IH]; intros t s; [done|]. cbn [execute]. rewrite observe_bind.
  destruct (observe t) as [[]|t'|X e h]; [apply IH|]. apply handle_ext. intros. apply IH.
Qed.

Lemma yields_eq {A B} (t : U A) (t' : U B) s r :
  (∀ fuel, execute fuel t s = execute fuel t' s) → yields t' s r → yields t s r.
Proof. intros E [n Hn]. exists n. intros fuel Hf. by rewrite E Hn. Qed.

Lemma yields_assoc {A B C} (t : U A) (f : A → U B) (g : B → U C) s r :
  yields (t ≫= λ x, f x ≫= g) s r → yields ((t ≫= f) ≫= g) s r.
Proof. apply yields_eq. intros. apply execute_assoc. Qed.

Lemma yields_ret {A B} a (k : A → U B) s r : yields (k a) s r → yields (mret a ≫= k) s r.
Proof. apply yields_eq. intros. by apply execute_observe. Qed.

Lemma yields_noreturn {A B} (t : U Empty_set) (k : A → U B) s r : yields t s r → yields (noreturn t ≫= k) s r.
Proof. intros Ht. apply yields_assoc. revert Ht. apply yields_eq. intros. apply execute_noreturn. Qed.

Lemma yields_tail {A} (t : U Empty_set) s r : yields t s r → yields (noreturn (A := A) t) s r.
Proof. apply yields_eq. intros. apply execute_noreturn. Qed.

Lemma execute_call {X A} fuel (e : (procE +' ioE) X) (k : X → U A) s :
  execute (S fuel) (ITree.trigger e ≫= k) s = handle e s (λ x s', execute fuel (k x) s').
Proof. simpl. apply handle_ext. intros x s'. by apply execute_observe. Qed.

(** A call that returns. *)
Lemma yields_call {X A} (e : (procE +' ioE) X) (k : X → U A) s x s' r :
  (∀ K, handle e s K = K x s') → yields (k x) s' r → yields (ITree.trigger e ≫= k) s r.
Proof.
  intros E [n Hn]. exists (S n). intros [|fuel] Hf; [lia|]. rewrite execute_call E Hn //. lia.
Qed.

(** A call that ends the program. *)
Lemma yields_end {X A} (e : (procE +' ioE) X) (k : X → U A) s r :
  (∀ K, handle e s K = Some r) → yields (ITree.trigger e ≫= k) s r.
Proof. intros E. exists 1%nat. intros [|fuel] Hf; [lia|]. by rewrite execute_call E. Qed.

Lemma execute_ext {A B} fuel (t : U A) (k k' : A → U B) s :
  (∀ fuel x s, execute fuel (k x) s = execute fuel (k' x) s) → execute fuel (t ≫= k) s = execute fuel (t ≫= k') s.
Proof.
  intros E. revert t s. induction fuel as [|fuel IH]; intros t s; [done|].
  destruct (observe t) as [a|t'|X e h] eqn:Eo.
  - rewrite (execute_observe _ (t ≫= k) (k a)); [by rewrite observe_bind Eo|].
    rewrite (execute_observe _ (t ≫= k') (k' a)); [by rewrite observe_bind Eo|]. apply E.
  - cbn [execute]. rewrite !observe_bind Eo. apply IH.
  - cbn [execute]. rewrite !observe_bind Eo. apply handle_ext. intros. apply IH.
Qed.

Lemma yields_tau {A} (t : U A) s r : yields t s r → yields (Tau t) s r.
Proof. intros [n Hn]. exists (S n). intros [|fuel] Hf; [lia|]. apply Hn. lia. Qed.

(** One turn of a loop. *)
Lemma yields_iter {I A B} (f : I → U (I + A)) i (k : A → U B) s r :
  yields (f i ≫= λ x, match x with inl i' => Tau (ITree.iter f i' ≫= k) | inr a => k a end) s r →
  yields (ITree.iter f i ≫= k) s r.
Proof.
  intros Hy. apply (yields_eq _ ((f i ≫= λ x, match x with inl i' => Tau (ITree.iter f i') | inr a => mret a end) ≫= k)).
  - intros fuel. apply execute_observe. rewrite observe_bind. rewrite [in RHS]observe_bind. done.
  - apply yields_assoc. revert Hy. apply yields_eq. intros fuel. apply execute_ext.
    intros fuel' [i'|a] s'; by apply execute_observe.
Qed.

(** The part [t] of a program returns [a] and leaves the state [s']. *)
Definition gives {A} (t : U A) s (a : A) s' : Prop :=
  ∀ B (k : A → U B) r, yields (k a) s' r → yields (t ≫= k) s r.

Lemma gives_ret {A} (a : A) s : gives (mret a) s a s.
Proof. intros B k r. apply yields_ret. Qed.

Lemma gives_bind {A B} (t : U A) (f : A → U B) s a s' b s'' :
  gives t s a s' → gives (f a) s' b s'' → gives (t ≫= f) s b s''.
Proof. intros Ht Hf C k r Hk. apply yields_assoc, Ht. by apply Hf. Qed.

Lemma gives_call {X} (e : (procE +' ioE) X) s x s' : (∀ K, handle e s K = K x s') → gives (ITree.trigger e) s x s'.
Proof. intros E B k r. by apply yields_call. Qed.

Lemma gives_iter_next {I A} (f : I → U (I + A)) i i' s s' a s'' :
  gives (f i) s (inl i') s' → gives (ITree.iter f i') s' a s'' → gives (ITree.iter f i) s a s''.
Proof. intros Hf Hi B k r Hk. apply yields_iter, Hf, yields_tau. by apply Hi. Qed.

Lemma gives_iter_done {I A} (f : I → U (I + A)) i s a s' : gives (f i) s (inr a) s' → gives (ITree.iter f i) s a s'.
Proof. intros Hf B k r Hk. by apply yields_iter, Hf. Qed.

End machine.

(** ** What a program does to processes and descriptors

    The programs a process starts, with the descriptors they get, and in which
    order: [Seq j k] runs [k] when [j] has finished, [Par j k] runs both at once,
    [Bg j] starts [j] and does not wait for it. *)

Inductive obj := OGiven (n : Z) | OFile (path : list Z) (mode : Z) | OPipeR (name : list bool) | OPipeW (name : list bool).

Notation fdtable := (gmap Z obj).

Inductive job := Nop | Run (path : list Z) (argv : list (list Z)) (fds : fdtable) | Seq (j k : job) | Par (j k : job) | Bg (j : job).

(** fdalloc(): the lowest descriptor not in use, or -1. *)
Definition lowest {B} (F : gmap Z B) : Z :=
  default (-1) (list_find (λ fd, F !! fd = None) (seqZ 0 (Z.of_nat NOFILE)) ≫= λ x, Some x.2).

Lemma lowest_is {B} (F : gmap Z B) x :
  0 ≤ x < Z.of_nat NOFILE → F !! x = None → (∀ y, 0 ≤ y < x → is_Some (F !! y)) → lowest F = x.
Proof.
  intros Hx Hn Hlow. rewrite /lowest.
  assert (list_find (λ fd, F !! fd = None) (seqZ 0 (Z.of_nat NOFILE)) = Some (Z.to_nat x, x)) as ->; [|done].
  apply list_find_Some. split_and!; [apply lookup_seqZ; lia|done|].
  intros j y [-> ?]%lookup_seqZ Hj Hy. destruct (Hlow (0 + Z.of_nat j)) as [? ?]; [lia|congruence].
Qed.

Lemma lowest_ex {B} (F : gmap Z B) x :
  0 ≤ x < Z.of_nat NOFILE → F !! x = None → ∃ y, lowest F = y ∧ 0 ≤ y ≤ x ∧ F !! y = None.
Proof.
  intros Hx Hn. rewrite /lowest. destruct (list_find _ _) as [[i y]|] eqn:E.
  - apply list_find_Some in E as ([-> ?]%lookup_seqZ & Hy & Hlow). exists (0 + Z.of_nat i). split_and!; [done|lia| |done].
    destruct (decide (Z.to_nat x < i)%nat) as [Hlt|]; [|lia]. destruct (Hlow (Z.to_nat x) x); [apply lookup_seqZ; lia|done|done].
  - apply list_find_None in E. rewrite Forall_forall in E. destruct (E x); [apply elem_of_seqZ; lia|done].
Qed.

(** All of a process's children. *)
Fixpoint pars (l : list job) : job :=
  match l with
  | [] => Nop
  | [j] => j
  | j :: l' => Par j (pars l')
  end.

(** A process: its descriptors; a name for what it creates next; the children it
    has not waited for and how many times it has called wait() for them. *)
Record pst := Pst { p_fds : fdtable; p_name : list bool; p_kids : list job; p_waits : nat }.

Definition with_fds (F : fdtable) (s : pst) : pst := Pst F (p_name s) (p_kids s) (p_waits s).

Definition close_run (fd : Z) (s : pst) : Z * pst :=
  match p_fds s !! fd with Some _ => (0, with_fds (delete fd (p_fds s)) s) | None => (-1, s) end.

Definition dup_run (fd : Z) (s : pst) : Z * pst :=
  match p_fds s !! fd with
  | Some o => let fd' := lowest (p_fds s) in if fd' <? 0 then (-1, s) else (fd', with_fds (<[fd' := o]> (p_fds s)) s)
  | None => (-1, s)
  end.

Definition pipe_run (s : pst) : option (Z * Z) * pst :=
  let r := lowest (p_fds s) in
  if r <? 0 then (None, s) else
  let F := <[r := OPipeR (p_name s)]> (p_fds s) in
  let w := lowest F in
  if w <? 0 then (None, s) else
  (Some (r, w), Pst (<[w := OPipeW (p_name s)]> F) (true :: p_name s) (p_kids s) (p_waits s)).

(** The process ends, or becomes another program: what it did not wait for goes
    on in the background. *)
Definition leave (s : pst) (j : job) : job := match p_kids s with [] => j | _ => Par (Bg (pars (p_kids s))) j end.

Section jobs.
Context (can_open : list Z → Z → bool) (can_exec : list Z → bool) (answer : ∀ X, ioE X → X).

Definition open_run (path : list Z) (mode : Z) (s : pst) : Z * pst :=
  if can_open path mode then
    let fd := lowest (p_fds s) in
    if fd <? 0 then (-1, s) else (fd, with_fds (<[fd := OFile path mode]> (p_fds s)) s)
  else (-1, s).

Definition proc_handle {X} (e : procE X) (s : pst) : (X → pst → option job) → option job :=
  match e in procE X return (X → pst → option job) → option job with
  | SFork => λ k,
      j ← k 0 (Pst (p_fds s) (false :: p_name s) [] 0);
      k 1 (Pst (p_fds s) (true :: p_name s) (p_kids s ++ [j]) (p_waits s))
  | SExit => λ _, Some (leave s Nop)
  | SWait => λ k,
      match p_kids s with
      | [] => k (-1) s
      | _ =>
          if bool_decide (S (p_waits s) = length (p_kids s)) then
            Seq (pars (p_kids s)) <$> k 1 (Pst (p_fds s) (p_name s) [] 0)
          else k 1 (Pst (p_fds s) (p_name s) (p_kids s) (S (p_waits s)))
      end
  | SExec path argv => λ k, if can_exec path then Some (leave s (Run path argv (p_fds s))) else k (-1) s
  | SPipe => λ k, let '(r, s') := pipe_run s in k r s'
  | SOpen path mode => λ k, let '(r, s') := open_run path mode s in k r s'
  | SClose fd => λ k, let '(r, s') := close_run fd s in k r s'
  | SDup fd => λ k, let '(r, s') := dup_run fd s in k r s'
  | SUndefined => λ _, None
  end.

Definition jobs_handle {X} (e : (procE +' ioE) X) (s : pst) (k : X → pst → option job) : option job :=
  match e with
  | inl1 e => proc_handle e s k
  | inr1 e => k (answer _ e) s
  end.

(** The machine on which forks succeed, and whose result is the job. *)
#[local] Program Instance job_machine : Machine pst job :=
  {| handle := @jobs_handle; finish s := leave s Nop |}.
Next Obligation.
  intros X [e|e] s k k' E; [|apply E]. destruct e; simpl; try done.
  - rewrite E. by destruct (k' _ _); simpl; [apply E|].
  - destruct (p_kids s) as [|j l]; [apply E|]. destruct (bool_decide _); [f_equal; apply E|apply E].
  - destruct (can_exec _); [done|apply E].
  - destruct (pipe_run s). apply E.
  - destruct (open_run _ _ s). apply E.
  - destruct (close_run _ s). apply E.
  - destruct (dup_run _ s). apply E.
Qed.

Section steps.
Context {A : Type}.
Implicit Types s : pst.

Lemma yields_fork (k : Z → U A) s jc jp :
  yields (k 0) (Pst (p_fds s) (false :: p_name s) [] 0) jc →
  yields (k 1) (Pst (p_fds s) (true :: p_name s) (p_kids s ++ [jc]) (p_waits s)) jp → yields (fork_ ≫= k) s jp.
Proof.
  intros [n Hn] [m Hm]. exists (S (n + m)). intros [|fuel] Hf; [lia|].
  rewrite execute_call /= Hn; [lia|]. simpl. apply Hm. lia.
Qed.

Lemma yields_exit {B} (k : B → U A) s : yields (exit_ ≫= k) s (leave s Nop).
Proof. apply yields_noreturn. exists 1%nat. by intros [|fuel] Hf; [lia|]. Qed.

Lemma yields_exit_tail s : yields (exit_ (A := A)) s (leave s Nop).
Proof. apply yields_tail. exists 1%nat. by intros [|fuel] Hf; [lia|]. Qed.

Lemma yields_wait_all (k : Z → U A) F q kids w j :
  S w = length kids → yields (k 1) (Pst F q [] 0) j → yields (wait_ ≫= k) (Pst F q kids w) (Seq (pars kids) j).
Proof.
  intros Hl [n Hn]. exists (S n). intros [|fuel] Hf; [lia|]. rewrite execute_call /=.
  destruct kids as [|x kids]; [simpl in Hl; lia|]. rewrite bool_decide_eq_true_2 // Hn //. lia.
Qed.

Lemma yields_wait_more (k : Z → U A) F q kids w j :
  (S w < length kids)%nat → yields (k 1) (Pst F q kids (S w)) j → yields (wait_ ≫= k) (Pst F q kids w) j.
Proof.
  intros Hl. apply yields_call. intros K. simpl. destruct kids as [|x kids]; [simpl in Hl; lia|].
  rewrite bool_decide_eq_false_2 //. lia.
Qed.

Lemma yields_exec path argv (k : Z → U A) s :
  can_exec path = true → yields (exec_ path argv ≫= k) s (leave s (Run path argv (p_fds s))).
Proof. intros E. apply yields_end. intros K. by rewrite /= E. Qed.

Lemma yields_exec_fails path argv (k : Z → U A) s j :
  can_exec path = false → yields (k (-1)) s j → yields (exec_ path argv ≫= k) s j.
Proof. intros E. apply yields_call. intros K. by rewrite /= E. Qed.

Lemma yields_pipe (k : option (Z * Z) → U A) s r s' j :
  pipe_run s = (r, s') → yields (k r) s' j → yields (pipe_ ≫= k) s j.
Proof. intros E. apply yields_call. intros K. by rewrite /= E. Qed.

Lemma yields_open path mode (k : Z → U A) s r s' j :
  open_run path mode s = (r, s') → yields (k r) s' j → yields (open_ path mode ≫= k) s j.
Proof. intros E. apply yields_call. intros K. by rewrite /= E. Qed.

Lemma yields_close fd (k : Z → U A) s r s' j :
  close_run fd s = (r, s') → yields (k r) s' j → yields (close_ fd ≫= k) s j.
Proof. intros E. apply yields_call. intros K. by rewrite /= E. Qed.

Lemma yields_dup fd (k : Z → U A) s r s' j :
  dup_run fd s = (r, s') → yields (k r) s' j → yields (dup_ fd ≫= k) s j.
Proof. intros E. apply yields_call. intros K. by rewrite /= E. Qed.

Lemma yields_io {X} (e : ioE X) (k : X → U A) s j : yields (k (answer _ e)) s j → yields (io_ e ≫= k) s j.
Proof. by apply yields_call. Qed.

Lemma yields_putcs fd text (k : unit → U A) s j : yields (k ()) s j → yields (putcs fd text ≫= k) s j.
Proof.
  intros Hk. induction text as [|c text IH]; [by apply yields_ret|]. simpl. by apply yields_assoc, yields_io.
Qed.

Lemma yields_printf fd fmt args text (k : unit → U A) s j :
  printf fmt args = Some text → yields (k ()) s j → yields (uprintf fd fmt args ≫= k) s j.
Proof. intros E. rewrite /uprintf E. apply yields_putcs. Qed.

End steps.

End jobs.
