(* ===== verification/ShRun.v ===== *)
(** * The shell at work: runcmd(), getcmd() and main() of sh.c

    The second half of sh.c as a program of system calls, and what it makes of a
    command line: which programs run with which descriptors, in what order. *)

From S2P Require Import Prelude Param Console Ulib Sh ShSpec Usys.

(** panic(s) of sh.c. *)
Definition shpanic {A} (s : list Z) : U A :=
  uprintf 2 (chars "%s" ++ [10]) [str s];;
  exit_.

Definition fork1 : U Z :=
  pid ← fork_;
  if pid =? -1 then shpanic (chars "fork") else mret pid.

(** runcmd(cmd), which does not return; [text] gives the strings of the command. *)
Fixpoint runcmd (text : token → list Z) (c : cmd) : U Empty_set :=
  match c with
  | EXEC [] => exit_
  | EXEC (a0 :: args) =>
      exec_ (text a0) (text <$> a0 :: args);;
      uprintf 2 (chars "exec %s failed" ++ [10]) [str (text a0)];;
      exit_
  | REDIR c' file mode fd =>
      close_ fd;;
      d ← open_ (text file) mode;
      if d <? 0 then
        uprintf 2 (chars "open %s failed" ++ [10]) [str (text file)];;
        exit_
      else noreturn (runcmd text c')
  | LIST l r =>
      pid ← fork1;
      (if pid =? 0 then noreturn (runcmd text l) else mret ());;
      wait_;;
      runcmd text r
  | PIPE l r =>
      o ← pipe_;
      match o with
      | None => shpanic (chars "pipe")
      | Some (p0, p1) =>
          pid ← fork1;
          (if pid =? 0 then
             noreturn (
               close_ 1;;
               dup_ p1;;
               close_ p0;;
               close_ p1;;
               runcmd text l)
           else mret ());;
          pid ← fork1;
          (if pid =? 0 then
             noreturn (
               close_ 0;;
               dup_ p0;;
               close_ p0;;
               close_ p1;;
               runcmd text r)
           else mret ());;
          close_ p0;;
          close_ p1;;
          wait_;;
          wait_;;
          exit_
      end
  | BACK c' =>
      pid ← fork1;
      (if pid =? 0 then noreturn (runcmd text c') else mret ());;
      exit_
  end.

(** [runcmd(parsecmd(buf))]. The parser ends the process on an error; it shows what
    is left of the line when only a part of it is a command. *)
Definition run_line (line : list Z) : U Empty_set :=
  match parsecmd line with
  | Ok (c, buf) _ => runcmd (string_at (length line) buf) c
  | Panic msg =>
      (match parseline (parse_fuel line) line with
       | Ok _ rest => uprintf 2 (chars "leftovers: %s" ++ [10]) [str (skip_ws rest)]
       | _ => mret ()
       end);;
      shpanic (chars msg)
  | _ => noreturn (proc_ SUndefined)
  end.

(** getcmd(buf, nbuf): the string in the buffer, or [None] at the end of input. *)
Definition getcmd (nbuf : Z) : U (option (list Z)) :=
  uprintf 2 (chars "$ ") [];;
  l ← gets_ nbuf;
  match cstr l with [] => mret None | line => mret (Some line) end.

(** Opens the console until three descriptors are in use. *)
Definition open_console : U unit :=
  ITree.iter (λ _, fd ← open_ (chars "console") O_RDWR;
                   if fd <? 0 then mret (inr ()) else
                   if 3 <=? fd then close_ fd;; mret (inr ()) else mret (inl ())) ().

(** One turn of main()'s loop; [inr] ends it. *)
Definition main_turn : U (unit + unit) :=
  o ← getcmd 100;
  match o with
  | None => mret (inr ())
  | Some line =>
      if bool_decide (take 3 line = chars "cd ") then
        let dir := drop 3 (removelast line) in
        r ← io_ (SChdir dir);
        (if r <? 0 then uprintf 2 (chars "cannot cd %s" ++ [10]) [str dir] else mret ());;
        mret (inl ())
      else
        pid ← fork1;
        (if pid =? 0 then noreturn (run_line line) else mret ());;
        wait_;;
        mret (inl ())
  end.

Definition sh_main : U Empty_set :=
  open_console;;
  ITree.iter (λ _, main_turn) ();;
  exit_.

(** ** What a command means

    The programs of a command, given the descriptors [F] it starts with: the parts
    of a pipeline share a new pipe, from descriptor 1 of the left to descriptor 0
    of the right one, and nothing else of it is left open anywhere; a redirection
    replaces one descriptor; the parts of a list run one after the other. *)

Section plumbing.
Context (can_open : list Z → Z → bool) (can_exec : list Z → bool) (answer : ∀ X, ioE X → X).

Fixpoint plumb (a : ast) (F : fdtable) (q : list bool) : job :=
  match a with
  | AExec [] => Nop
  | AExec (p :: args) => if can_exec p then Run p (p :: args) F else Nop
  | ARedir a' file mode fd => if can_open file mode then plumb a' (<[fd := OFile file mode]> F) q else Nop
  | APipe l r =>
      Seq (Par (plumb l (<[1 := OPipeW q]> F) (false :: true :: q))
               (plumb r (<[0 := OPipeR q]> F) (false :: true :: true :: q))) Nop
  | AList l r => Seq (plumb l F (false :: q)) (plumb r F (true :: q))
  | ABack a' => Par (Bg (plumb a' F (false :: q))) Nop
  end.

Local Notation does := (yields (H := job_machine can_open can_exec answer)).

(** Descriptors 0 and 1 are open, and two more can be opened. *)
Definition fds_ok (F : fdtable) : Prop :=
  is_Some (F !! 0) ∧ is_Some (F !! 1) ∧ ∃ r w, 0 ≤ r < w ∧ w < Z.of_nat NOFILE ∧ F !! r = None ∧ F !! w = None.

Lemma fds_ok_insert F fd o : fds_ok F → is_Some (F !! fd) → fds_ok (<[fd := o]> F).
Proof.
  intros (H0 & H1 & r & w & ? & ? & Hr & Hw) [x Hx].
  split_and!; [| |exists r, w; split_and!; try lia; rewrite lookup_insert_ne //; congruence].
  all: rewrite lookup_insert; by case_decide.
Qed.

(** close() followed by open() or dup() of a descriptor whose predecessors are
    open replaces it. *)
Lemma lowest_delete (F : fdtable) fd : 0 ≤ fd < Z.of_nat NOFILE → (∀ x, 0 ≤ x < fd → is_Some (F !! x)) → lowest (delete fd F) = fd.
Proof.
  intros Hfd Hlow. apply lowest_is; [done|by rewrite lookup_delete_eq|].
  intros x Hx. rewrite lookup_delete_ne; [lia|by apply Hlow].
Qed.

Lemma yields_fork1 {A} (k : Z → U A) s jc jp :
  does (k 0) (Pst (p_fds s) (false :: p_name s) [] 0) jc →
  does (k 1) (Pst (p_fds s) (true :: p_name s) (p_kids s ++ [jc]) (p_waits s)) jp → does (fork1 ≫= k) s jp.
Proof. intros Hc Hp. apply yields_assoc. by apply yields_fork with jc; apply yields_ret. Qed.

(** The two ends of the pipe of a pipeline. *)
Lemma pipe_ends F q kids w :
  fds_ok F → ∃ r0 w0, 2 ≤ r0 ∧ 2 ≤ w0 ∧ r0 ≠ w0 ∧ F !! r0 = None ∧ F !! w0 = None ∧
    pipe_run (Pst F q kids w) = (Some (r0, w0), Pst (<[w0 := OPipeW q]> (<[r0 := OPipeR q]> F)) (true :: q) kids w).
Proof.
  intros (H0 & H1 & x & y & Hxy & Hy & Hx & Hw).
  assert (∀ (G : fdtable) z, is_Some (G !! 0) → is_Some (G !! 1) → 0 ≤ z → G !! z = None → 2 ≤ z) as Hge.
  { intros G z [? ?] [? ?] Hz Hn. destruct (decide (z = 0)) as [->|]; [congruence|]. destruct (decide (z = 1)) as [->|]; [congruence|lia]. }
  destruct (lowest_ex F x) as (r0 & E & Hr0 & Hn); [lia|done|].
  set (G := <[r0 := OPipeR q]> F).
  destruct (lowest_ex G y) as (w0 & E' & Hw0 & Hn'); [lia|by rewrite /G lookup_insert_ne; [lia|]|].
  assert (r0 ≠ w0) as Hne by (intros <-; by rewrite /G lookup_insert_eq in Hn').
  rewrite /G lookup_insert_ne // in Hn'. exists r0, w0.
  split_and!; [by apply (Hge F); [..|lia|]|by apply (Hge F); [..|lia|]|done|done|done|].
  rewrite /pipe_run /= E (proj2 (Z.ltb_ge r0 0)); [lia|]. fold G. rewrite E' (proj2 (Z.ltb_ge w0 0)); [lia|]. done.
Qed.

(** close(fd); dup(end); close(p[0]); close(p[1]): descriptor [fd] becomes the
    end and the pipe's own descriptors are gone. *)
Lemma yields_pipe_end {A} (k : U A) F q r0 w0 fd e oe j :
  fds_ok F → fd = 0 ∨ fd = 1 → 2 ≤ r0 → 2 ≤ w0 → r0 ≠ w0 → F !! r0 = None → F !! w0 = None →
  let F2 := <[w0 := OPipeW q]> (<[r0 := OPipeR q]> F) in
  (e = r0 ∨ e = w0) → F2 !! e = Some oe → ∀ q' w,
  does k (Pst (<[fd := oe]> F) q' [] w) j →
  does (close_ fd;; dup_ e;; close_ r0;; close_ w0;; k) (Pst F2 q' [] w) j.
Proof.
  intros (H0 & H1 & _) Hfd Hr0 Hw0 Hne Hr Hw F2 He Hoe q' w Hk.
  assert (∀ x, x = 0 ∨ x = 1 → F2 !! x = F !! x) as HF2.
  { intros x Hx. rewrite /F2 !lookup_insert_ne //; lia. }
  assert (is_Some (F2 !! fd)) as [o Ho] by (rewrite HF2 //; by destruct Hfd as [->| ->]).
  eapply yields_close; [by rewrite /close_run /= Ho|]. rewrite /with_fds /=.
  eapply yields_dup.
  { rewrite /dup_run /= lookup_delete_ne; [lia|]. rewrite Hoe lowest_delete; [rewrite /NOFILE; lia| |].
    - intros x Hx. rewrite HF2; [lia|]. by assert (x = 0) as -> by lia.
    - rewrite (proj2 (Z.ltb_ge fd 0)); [lia|]. done. }
  rewrite /with_fds /= insert_delete_eq.
  assert (F2 !! r0 = Some (OPipeR q)) as Er by (rewrite /F2 lookup_insert_ne; [lia|by rewrite lookup_insert_eq]).
  assert (F2 !! w0 = Some (OPipeW q)) as Ew by by rewrite /F2 lookup_insert_eq.
  eapply yields_close; [rewrite /close_run /= lookup_insert_ne; [lia|by rewrite Er]|].
  eapply yields_close; [rewrite /close_run /= lookup_delete_ne // lookup_insert_ne; [lia|by rewrite Ew]|].
  rewrite /with_fds /=.
  assert (∀ G, G = <[fd := oe]> F → does k (Pst G q' [] w) j) as HG by by intros G ->. apply HG.
  apply map_eq. intros x. rewrite /F2 !lookup_delete !lookup_insert. repeat case_decide; subst; try done; lia.
Qed.

(** Only the standard input and output are redirected, as by the parser. *)
Fixpoint redirs_ok (a : ast) : Prop :=
  match a with
  | AExec _ => True
  | ARedir a' _ _ fd => (fd = 0 ∨ fd = 1) ∧ redirs_ok a'
  | APipe l r | AList l r => redirs_ok l ∧ redirs_ok r
  | ABack a' => redirs_ok a'
  end.

Lemma wf_redirs a : wf a → redirs_ok a.
Proof.
  induction a as [|a IH file mode fd| | |]; simpl; try naive_solver.
  intros (? & ? & [] & -> & ->); split; auto.
Qed.

Lemma runcmd_redir text c file mode fd F q :
  fds_ok F → fd = 0 ∨ fd = 1 →
  (fds_ok (<[fd := OFile (text file) mode]> F) →
   does (runcmd text c) (Pst (<[fd := OFile (text file) mode]> F) q [] 0)
     (plumb (read_cmd text c) (<[fd := OFile (text file) mode]> F) q)) →
  does (runcmd text (REDIR c file mode fd)) (Pst F q [] 0) (plumb (read_cmd text (REDIR c file mode fd)) F q).
Proof.
  intros HF Hfd Hc. simpl. pose proof HF as (H0 & H1 & _).
  assert (is_Some (F !! fd)) as [o Ho] by by destruct Hfd as [->| ->].
  eapply yields_close; [by rewrite /close_run /= Ho|]. rewrite /with_fds /=.
  destruct (can_open (text file) mode) eqn:E.
  - eapply yields_open.
    { rewrite /open_run E /= lowest_delete; [rewrite /NOFILE; lia| |].
      - intros x Hx. by assert (x = 0) as -> by lia.
      - rewrite (proj2 (Z.ltb_ge fd 0)); [lia|]. done. }
    rewrite /with_fds /= insert_delete_eq (proj2 (Z.ltb_ge fd 0)); [lia|]. apply yields_tail, Hc. by apply fds_ok_insert.
  - eapply yields_open; [by rewrite /open_run E|]. eapply yields_printf; [reflexivity|]. apply yields_exit_tail.
Qed.

Lemma runcmd_pipe text l r F q :
  fds_ok F →
  (∀ F q, fds_ok F → does (runcmd text l) (Pst F q [] 0) (plumb (read_cmd text l) F q)) →
  (∀ F q, fds_ok F → does (runcmd text r) (Pst F q [] 0) (plumb (read_cmd text r) F q)) →
  does (runcmd text (PIPE l r)) (Pst F q [] 0) (plumb (read_cmd text (PIPE l r)) F q).
Proof.
  intros HF Hl Hr. simpl. pose proof HF as (H0 & H1 & _).
  destruct (pipe_ends F q [] 0 HF) as (r0 & w0 & Hr0 & Hw0 & Hne & Er & Ew & Ep).
  eapply yields_pipe; [exact Ep|]. set (F2 := <[w0 := _]> _).
  assert (F2 !! r0 = Some (OPipeR q)) as Er2 by (rewrite /F2 lookup_insert_ne; [lia|by rewrite lookup_insert_eq]).
  assert (F2 !! w0 = Some (OPipeW q)) as Ew2 by by rewrite /F2 lookup_insert_eq.
  eapply yields_fork1; simpl.
  { apply yields_noreturn, (yields_pipe_end _ F q r0 w0 1 w0 (OPipeW q)); auto. apply Hl, fds_ok_insert; done. }
  apply yields_ret. eapply yields_fork1; simpl.
  { apply yields_noreturn, (yields_pipe_end _ F q r0 w0 0 r0 (OPipeR q)); auto. apply Hr, fds_ok_insert; done. }
  apply yields_ret.
  eapply yields_close; [by rewrite /close_run /= Er2|]. rewrite /with_fds /=.
  eapply yields_close; [by rewrite /close_run /= lookup_delete_ne // Ew2|]. rewrite /with_fds /=.
  apply yields_wait_more; [simpl; lia|]. apply yields_wait_all; [done|]. apply yields_exit_tail.
Qed.

Lemma runcmd_plumb text c : redirs_ok (read_cmd text c) →
  ∀ F q, fds_ok F → does (runcmd text c) (Pst F q [] 0) (plumb (read_cmd text c) F q).
Proof.
  induction c as [argv|c IH file mode fd|l IHl r IHr|l IHl r IHr|c IH]; intros Hok F q HF.
  - destruct argv as [|a0 args]; simpl; [apply yields_exit_tail|]. destruct (can_exec (text a0)) eqn:E.
    + by apply (yields_exec _ _ _ _ _ _ (Pst F q [] 0)).
    + apply yields_exec_fails; [done|]. eapply yields_printf; [reflexivity|]. apply yields_exit_tail.
  - destruct Hok as [Hfd Hok]. apply runcmd_redir; auto.
  - destruct Hok as [Hl Hr]. apply runcmd_pipe; auto.
  - destruct Hok as [Hl Hr]. simpl. eapply yields_fork1; simpl; [by apply yields_noreturn, IHl|].
    apply yields_ret, yields_wait_all; [done|]. by apply IHr.
  - simpl. eapply yields_fork1; simpl; [by apply yields_noreturn, IH|]. apply yields_ret, yields_exit_tail.
Qed.

(** C12: the shell runs what was typed. From the line that is the printed form of
    a command, parsecmd() and runcmd() together start exactly the programs of the
    command, each with its arguments and with its descriptors: through all the
    calls of pipe, dup, close and open, a part of a pipeline gets the right end of
    the pipe as descriptor 0 or 1 and no other end of any pipe, a redirection
    changes its one descriptor, and the other descriptors are those of the shell.
    The parts of a list run one after the other, those of a pipeline together, and
    the shell does not wait for a command in the background. A command that cannot
    be run or a file that cannot be opened drops only its own part. *)
Theorem shell_runs_line a F q :
  wf a → fds_ok F → does (run_line (print a)) (Pst F q [] 0) (plumb a F q).
Proof.
  intros Hwf HF. destruct (parsecmd_reads a Hwf) as (c & buf & Hp & Hr). rewrite /run_line Hp.
  rewrite -{2}Hr. apply runcmd_plumb; [|done]. rewrite Hr. by apply wf_redirs.
Qed.

End plumbing.

(** [(((cat )<in)|(wc -l ))&] with the console as descriptors 0 to 2. *)
Definition tty : fdtable := {[0 := OGiven 0; 1 := OGiven 1; 2 := OGiven 2]}.

(** Reads find the end of the file, and the rest fails. *)
Definition no_answer (X : Type) (e : ioE X) : X :=
  match e with
  | SRead _ _ => Some []
  | SFstat _ => None
  | SWrite _ _ | SChdir _ | SMkdir _ | SMknod _ _ _ | SLink _ _ | SUnlink _ | SKill _ | SSleep _ => -1
  end.

Lemma shell_runs_line_witness :
  yields (H := job_machine (λ _ _, true) (λ _, true) no_answer) (run_line (chars "(((cat )<in)|(wc -l ))&")) (Pst tty [] [] 0)
    (Par (Bg (Seq (Par (Run (chars "cat") [chars "cat"] {[0 := OFile (chars "in") O_RDONLY; 1 := OPipeW [false]; 2 := OGiven 2]})
                       (Run (chars "wc") [chars "wc"; chars "-l"] {[0 := OPipeR [false]; 1 := OGiven 1; 2 := OGiven 2]})) Nop)) Nop).
Proof.
  apply (shell_runs_line (λ _ _, true) (λ _, true) no_answer demo_ast tty []); [apply demo_wf|].
  split_and!; [by exists (OGiven 0)|by exists (OGiven 1)|]. by exists 3, 4.
Defined.
