(* ===== verification/UserProgs.v ===== *)
(** * The small user programs

    cat.c, echo.c, wc.c, ls.c, ln.c, mkdir.c, rm.c, kill.c, init.c, zombie.c and
    main() of grep.c as programs of system calls. The arguments of main() are the
    strings of argv. *)

From S2P Require Import Prelude Param Bytes Fs Console Ulib Grep Usys.

(** ** The programs *)

(** cat(fd) *)
Definition cat (fd : Z) : U unit :=
  ITree.iter (λ _,
    o ← read_ fd 512;
    match o with
    | None => uprintf 1 (chars "cat: read error" ++ [10]) [];; exit_
    | Some [] => mret (inr ())
    | Some bs =>
        n ← write_ 1 bs;
        if negb (n =? Z.of_nat (length bs)) then
          uprintf 1 (chars "cat: write error" ++ [10]) [];;
          exit_
        else mret (inl ())
    end) ().

(** The loop of main() of cat, wc and grep over the files. *)
Fixpoint each_file (cannot : string) (f : Z → list Z → U unit) (files : list (list Z)) : U unit :=
  match files with
  | [] => mret ()
  | name :: files' =>
      fd ← open_ name O_RDONLY;
      (if fd <? 0 then uprintf 1 (chars cannot ++ [10]) [str name];; exit_ else mret ());;
      f fd name;;
      close_ fd;;
      each_file cannot f files'
  end.

Definition cat_main (argv : list (list Z)) : U Empty_set :=
  match argv with
  | _ :: file :: files => each_file "cat: cannot open %s" (λ fd _, cat fd) (file :: files);; exit_
  | _ => cat 0;; exit_
  end.

(** The counters of wc(): l, w, c and inword. *)
Record counts := Counts { wc_l : Z; wc_w : Z; wc_c : Z; wc_inword : bool }.

Definition wc_char (n : counts) (b : Z) : counts :=
  let c := s32 (wc_c n + 1) in
  let l := if b =? 10 then s32 (wc_l n + 1) else wc_l n in
  match strchr [32; 13; 9; 10; 11] b with
  | Some _ => Counts l (wc_w n) c false
  | None => if negb (wc_inword n) then Counts l (s32 (wc_w n + 1)) c true else Counts l (wc_w n) c true
  end.

(** One read() of wc(fd, name), and the line it prints at the end of the file. *)
Definition wc_step (fd : Z) (name : list Z) (n : counts) : U (counts + unit) :=
  o ← read_ fd 512;
  match o with
  | None => uprintf 1 (chars "wc: read error" ++ [10]) [];; exit_
  | Some [] =>
      uprintf 1 (chars "%d %d %d %s" ++ [10]) [AInt (wc_l n); AInt (wc_w n); AInt (wc_c n); str name];;
      mret (inr ())
  | Some bs => mret (inl (foldl wc_char n bs))
  end.

Definition wc (fd : Z) (name : list Z) : U unit := ITree.iter (wc_step fd name) (Counts 0 0 0 false).

Definition wc_main (argv : list (list Z)) : U Empty_set :=
  match argv with
  | _ :: file :: files => each_file "wc: cannot open %s" wc (file :: files);; exit_
  | _ => wc 0 [];; exit_
  end.

(** The inner loop of grep(): writes the complete lines of [p] that match; the rest
    of the buffer. *)
Fixpoint grep_buf (pattern : list Z) (fuel : nat) (p : list Z) : U (list Z) :=
  match fuel with
  | O => mret p
  | S fuel' =>
      match strchr (cstr p) 10 with
      | None => mret p
      | Some q =>
          let k := (length (cstr p) - length q)%nat in
          let line := take k p in
          (if match_ pattern line then write_ 1 (line ++ [10]);; mret () else mret ());;
          grep_buf pattern fuel' (drop (S k) p)
      end
  end.

(** One turn of the outer loop of grep(pattern, fd); [buf] holds the [m] bytes
    kept. *)
Definition grep_step (pattern : list Z) (fd : Z) (buf : list Z) : U (list Z + unit) :=
  o ← read_ fd (1024 - Z.of_nat (length buf) - 1);
  match o with
  | None | Some [] => mret (inr ())
  | Some bs =>
      let buf := buf ++ bs in
      rest ← grep_buf pattern (S (length buf)) buf;
      mret (inl (if (length rest =? length buf)%nat then [] else rest))
  end.

Definition grep_fd (pattern : list Z) (fd : Z) : U unit := ITree.iter (grep_step pattern fd) [].

Definition grep_main (argv : list (list Z)) : U Empty_set :=
  match argv with
  | _ :: pattern :: file :: files => each_file "grep: cannot open %s" (λ fd _, grep_fd pattern fd) (file :: files);; exit_
  | [_; pattern] => grep_fd pattern 0;; exit_
  | _ => uprintf 2 (chars "usage: grep pattern [file ...]" ++ [10]) [];; exit_
  end.

Fixpoint echo_args (args : list (list Z)) : U unit :=
  match args with
  | [] => mret ()
  | a :: args' => uprintf 1 (chars "%s%s") [str a; str (match args' with [] => [10] | _ => [32] end)];; echo_args args'
  end.

Definition echo_main (argv : list (list Z)) : U Empty_set := echo_args (tail argv);; exit_.

Definition ln_main (argv : list (list Z)) : U Empty_set :=
  match argv with
  | [_; old; new] =>
      r ← io_ (SLink old new);
      (if r <? 0 then uprintf 2 (chars "link %s %s: failed" ++ [10]) [str old; str new] else mret ());;
      exit_
  | _ => uprintf 2 (chars "Usage: ln old new" ++ [10]) [];; exit_
  end.

(** The loop of mkdir and rm: the first failure ends it. *)
Fixpoint each_name (call : list Z → ioE Z) (failed : string) (names : list (list Z)) : U unit :=
  match names with
  | [] => mret ()
  | name :: names' =>
      r ← io_ (call name);
      if r <? 0 then uprintf 2 (chars failed ++ [10]) [str name] else each_name call failed names'
  end.

Definition mkdir_main (argv : list (list Z)) : U Empty_set :=
  match argv with
  | _ :: name :: names => each_name SMkdir "mkdir: %s failed to create" (name :: names);; exit_
  | _ => uprintf 2 (chars "Usage: mkdir files..." ++ [10]) [];; exit_
  end.

Definition rm_main (argv : list (list Z)) : U Empty_set :=
  match argv with
  | _ :: name :: names => each_name SUnlink "rm: %s failed to delete" (name :: names);; exit_
  | _ => uprintf 2 (chars "Usage: rm files..." ++ [10]) [];; exit_
  end.

Fixpoint kill_args (args : list (list Z)) : U unit :=
  match args with
  | [] => mret ()
  | a :: args' => io_ (SKill (atoi a));; kill_args args'
  end.

Definition kill_main (argv : list (list Z)) : U Empty_set :=
  match argv with
  | _ :: a :: args => kill_args (a :: args);; exit_
  | _ => uprintf 2 (chars "usage: kill pid..." ++ [10]) [];; exit_
  end.

Definition zombie_main : U Empty_set :=
  pid ← fork_;
  (if 0 <? pid then io_ (SSleep 5);; mret () else mret ());;
  exit_.

(** *** ls *)

(** The part of a path after its last slash. *)
Fixpoint last_name (path : list Z) : list Z :=
  match path with
  | [] => []
  | c :: path' => if existsb (Z.eqb 47) path' then last_name path' else if c =? 47 then path' else c :: path'
  end.

Definition fmtname (path : list Z) : list Z :=
  let p := last_name path in
  if (DIRSIZ <=? length p)%nat then p else p ++ replicate (DIRSIZ - length p) 32.

Definition ls_line (path : list Z) (st : ustat) : U unit :=
  uprintf 1 (chars "%s %d %d %d" ++ [10]) [str (fmtname path); AInt (us_type st); AInt (us_ino st); AInt (us_size st)].

(** The loop over the entries of a directory: two bytes of inode number, then the
    name. *)
Definition ls_dir (fd : Z) (path : list Z) : U unit :=
  ITree.iter (λ _,
    o ← read_ fd 16;
    match o with
    | Some (b0 :: b1 :: name) =>
        if negb (length name =? DIRSIZ)%nat then mret (inr ()) else
        if (b0 =? 0) && (b1 =? 0) then mret (inl ()) else
        let buf := path ++ 47 :: cstr name in
        st ← stat_ buf;
        (match st with
         | None => uprintf 1 (chars "ls: cannot stat %s" ++ [10]) [str buf]
         | Some st => ls_line buf st
         end);;
        mret (inl ())
    | _ => mret (inr ())
    end) ().

Definition ls (path : list Z) : U unit :=
  fd ← open_ path O_RDONLY;
  if fd <? 0 then uprintf 2 (chars "ls: cannot open %s" ++ [10]) [str path] else
  o ← fstat_ fd;
  match o with
  | None => uprintf 2 (chars "ls: cannot stat %s" ++ [10]) [str path];; close_ fd;; mret ()
  | Some st =>
      (if us_type st =? T_FILE then ls_line path st
       else if us_type st =? T_DIR then
         if (512 <? length path + 1 + DIRSIZ + 1)%nat then uprintf 1 (chars "ls: path too long" ++ [10]) []
         else ls_dir fd path
       else mret ());;
      close_ fd;;
      mret ()
  end.

Fixpoint ls_args (args : list (list Z)) : U unit :=
  match args with
  | [] => mret ()
  | a :: args' => ls a;; ls_args args'
  end.

Definition ls_main (argv : list (list Z)) : U Empty_set :=
  match argv with
  | _ :: a :: args => ls_args (a :: args);; exit_
  | _ => ls (chars ".");; exit_
  end.

(** *** init *)

Definition init_open : U unit :=
  fd ← open_ (chars "console") O_RDWR;
  (if fd <? 0 then io_ (SMknod (chars "console") 1 1);; open_ (chars "console") O_RDWR;; mret () else mret ());;
  dup_ 0;;
  dup_ 0;;
  mret ().

Definition init_turn : U unit :=
  uprintf 1 (chars "init: starting sh" ++ [10]) [];;
  pid ← fork_;
  (if pid <? 0 then uprintf 1 (chars "init: fork failed" ++ [10]) [];; exit_ else mret ());;
  (if pid =? 0 then
     exec_ (chars "sh") [chars "sh"];;
     uprintf 1 (chars "init: exec sh failed" ++ [10]) [];;
     exit_
   else mret ());;
  ITree.iter (λ _,
    wpid ← wait_;
    if (wpid <? 0) || (wpid =? pid) then mret (inr ()) else
    uprintf 1 (chars "zombie!" ++ [10]) [];; mret (inl ())) ().

Definition init_main : U Empty_set :=
  init_open;;
  forever init_turn.

(** ** A world of files

    What the programs that only read files and print do. A file is the sequence of
    pieces in which read() delivers it (a disk file comes in pieces as large as
    asked for, a terminal or a pipe in smaller ones); other calls are recorded. *)

Record world := World {
  w_files : gmap (list Z) (list (list Z));
  w_stat : gmap (list Z) ustat;
  w_fds : gmap Z (list Z * list (list Z));
  w_log : list (ioE Z)
}.

Definition set_wfds (F : gmap Z (list Z * list (list Z))) (w : world) : world :=
  World (w_files w) (w_stat w) F (w_log w).
Definition add_log (e : ioE Z) (w : world) : world := World (w_files w) (w_stat w) (w_fds w) (w_log w ++ [e]).

(** What was written to a descriptor. *)
Definition written (fd : Z) (e : ioE Z) : list Z :=
  match e with SWrite fd' bs => if fd' =? fd then bs else [] | _ => [] end.
Definition out (fd : Z) (w : world) : list Z := concat (written fd <$> w_log w).

Section world.
Context (succeeds : ioE Z → bool).

Definition read_world (fd n : Z) (w : world) : option (list Z) * world :=
  match w_fds w !! fd with
  | None => (None, w)
  | Some (p, []) => (Some [], w)
  | Some (p, c :: cs) =>
      if Z.of_nat (length c) <=? n then (Some c, set_wfds (<[fd := (p, cs)]> (w_fds w)) w)
      else (Some (take (Z.to_nat n) c), set_wfds (<[fd := (p, drop (Z.to_nat n) c :: cs)]> (w_fds w)) w)
  end.

Definition do_world (e : ioE Z) (ok : Z) (w : world) : Z * world :=
  if succeeds e then (ok, add_log e w) else (-1, w).

Definition io_world {X} (e : ioE X) (w : world) : X * world :=
  match e in ioE X return X * world with
  | SRead fd n => read_world fd n w
  | SFstat fd => (w_fds w !! fd ≫= λ x, w_stat w !! x.1, w)
  | SWrite fd bs => do_world (SWrite fd bs) (Z.of_nat (length bs)) w
  | SChdir p => do_world (SChdir p) 0 w
  | SMkdir p => do_world (SMkdir p) 0 w
  | SMknod p a b => do_world (SMknod p a b) 0 w
  | SLink a b => do_world (SLink a b) 0 w
  | SUnlink p => do_world (SUnlink p) 0 w
  | SKill n => do_world (SKill n) 0 w
  | SSleep n => do_world (SSleep n) 0 w
  end.

Definition open_world (path : list Z) (w : world) : Z * world :=
  match w_files w !! path with
  | None => (-1, w)
  | Some cs =>
      let fd := lowest (w_fds w) in
      if fd <? 0 then (-1, w) else (fd, set_wfds (<[fd := (path, cs)]> (w_fds w)) w)
  end.

Definition proc_world {X} (e : procE X) (w : world) : (X → world → option world) → option world :=
  match e in procE X return (X → world → option world) → option world with
  | SExit => λ _, Some w
  | SOpen path _ => λ k, let '(r, w') := open_world path w in k r w'
  | SClose fd => λ k,
      match w_fds w !! fd with Some _ => k 0 (set_wfds (delete fd (w_fds w)) w) | None => k (-1) w end
  | _ => λ _, None
  end.

Definition world_handle {X} (e : (procE +' ioE) X) (w : world) (k : X → world → option world) : option world :=
  match e with
  | inl1 e => proc_world e w k
  | inr1 e => let '(r, w') := io_world e w in k r w'
  end.

#[local] Program Instance world_machine : Machine world world := {| handle := @world_handle; finish w := w |}.
Next Obligation.
  intros X [e|e] w k k' E; simpl; [|destruct (io_world e w); apply E]. destruct e; simpl; try done.
  - destruct (open_world path w). apply E.
  - destruct (_ !! _); apply E.
Qed.

(** *** Rules *)

Implicit Types w : world.

(** From [w] to [w'] the descriptors became [F] and [text] was printed. *)
Record prints (w : world) (F : gmap Z (list Z * list (list Z))) (fd : Z) (text : list Z) (w' : world) : Prop := {
  pr_files : w_files w' = w_files w;
  pr_stat : w_stat w' = w_stat w;
  pr_fds : w_fds w' = F;
  pr_out : out fd w' = out fd w ++ text
}.

Lemma prints_trans w F F' fd t t' w' w'' :
  prints w F fd t w' → prints w' F' fd t' w'' → prints w F' fd (t ++ t') w''.
Proof. intros [E1 E2 E3 E4] [G1 G2 G3 G4]. split; [congruence..|]. by rewrite G4 E4 app_assoc. Qed.

Lemma gives_write fd bs w :
  succeeds (SWrite fd bs) = true →
  gives (write_ fd bs) w (Z.of_nat (length bs)) (add_log (SWrite fd bs) w) ∧ prints w (w_fds w) fd bs (add_log (SWrite fd bs) w).
Proof.
  intros E. split; [apply gives_call; intros K; by rewrite /= /do_world E|]. split; try done.
  rewrite /out /= fmap_app concat_app /= Z.eqb_refl app_nil_r //.
Qed.

Hypothesis writes_ok : ∀ fd bs, succeeds (SWrite fd bs) = true.

Lemma gives_putcs fd text w : ∃ w', gives (putcs fd text) w () w' ∧ prints w (w_fds w) fd text w'.
Proof.
  revert w. induction text as [|c text IH]; intros w.
  - exists w. split; [apply gives_ret|]. split; try done. by rewrite app_nil_r.
  - destruct (gives_write fd [c] w) as [H1 P1]; [done|].
    destruct (IH (add_log (SWrite fd [c]) w)) as (w' & H2 & P2). exists w'. split.
    + eapply gives_bind; [exact H1|exact H2].
    + apply (prints_trans _ _ _ _ _ _ _ _ P1 P2).
Qed.

Lemma gives_printf fd fmt args text w :
  printf fmt args = Some text → ∃ w', gives (uprintf fd fmt args) w () w' ∧ prints w (w_fds w) fd text w'.
Proof. intros E. rewrite /uprintf E. apply gives_putcs. Qed.

(** read() delivers a piece of the file, not empty before its end. *)
Lemma gives_read fd n w p cs :
  0 < n → w_fds w !! fd = Some (p, cs) → Forall (λ c, c ≠ []) cs →
  (cs = [] ∧ gives (read_ fd n) w (Some []) w) ∨
  ∃ b bs cs', concat cs = b :: bs ++ concat cs' ∧ Forall (λ c, c ≠ []) cs' ∧ Z.of_nat (length (b :: bs)) ≤ n ∧
    gives (read_ fd n) w (Some (b :: bs)) (set_wfds (<[fd := (p, cs')]> (w_fds w)) w).
Proof.
  intros Hn E HF. destruct cs as [|c cs]; [left|right].
  { split; [done|]. apply gives_call. intros K. by rewrite /= /read_world E. }
  apply Forall_cons in HF as [Hc HF]. destruct (Z.leb_spec (Z.of_nat (length c)) n) as [Hle|Hgt].
  - destruct c as [|b bs]; [done|]. exists b, bs, cs. split_and!; [done|done|done|]. apply gives_call. intros K.
    by rewrite /= /read_world E (proj2 (Z.leb_le _ _) Hle).
  - destruct (take (Z.to_nat n) c) as [|b bs] eqn:Et.
    { apply (f_equal length) in Et. rewrite length_take /= in Et. lia. }
    exists b, bs, (drop (Z.to_nat n) c :: cs). split_and!.
    + by rewrite /= -{1}(take_drop (Z.to_nat n) c) Et -app_assoc.
    + apply Forall_cons. split; [|done]. intros Ed%(f_equal length). rewrite length_drop /= in Ed. lia.
    + rewrite -Et length_take. lia.
    + apply gives_call. intros K. by rewrite /= /read_world E (proj2 (Z.leb_gt _ _) Hgt) Et.
Qed.

Lemma cat_gives fd w p cs :
  w_fds w !! fd = Some (p, cs) → Forall (λ c, c ≠ []) cs →
  ∃ w', gives (cat fd) w () w' ∧ prints w (<[fd := (p, [])]> (w_fds w)) 1 (concat cs) w'.
Proof.
  remember (length (concat cs)) as n eqn:En. revert cs w En.
  induction (lt_wf n) as [n _ IH]. intros cs w -> E HF.
  destruct (gives_read fd 512 w p cs) as [[-> Hr]|(b & bs & cs' & Ec & HF' & _ & Hr)]; [lia|done|done| |].
  - exists w. split; [|split; try done; [by rewrite insert_id|by rewrite app_nil_r]].
    apply gives_iter_done. eapply gives_bind; [exact Hr|]. apply gives_ret.
  - set (w1 := set_wfds _ w) in Hr. destruct (gives_write 1 (b :: bs) w1) as [Hw Pw]; [done|].
    set (w2 := add_log _ w1) in Hw, Pw.
    destruct (IH (length (concat cs'))) with cs' w2 as (w' & Hc & Pc); [|done|by rewrite /= lookup_insert_eq|done|].
    { rewrite Ec /= length_app. lia. }
    exists w'. split.
    + eapply gives_iter_next; [|exact Hc]. eapply gives_bind; [exact Hr|]. cbv beta iota. eapply gives_bind; [exact Hw|].
      cbv beta. rewrite Z.eqb_refl. apply gives_ret.
    + rewrite Ec. destruct Pw as [G1 G2 G3 G4], Pc as [E1 E2 E3 E4]. split; [done|done| |].
      * rewrite E3 /= insert_insert_eq //.
      * rewrite E4 G4 /= -app_assoc //.
Qed.

(** *** grep *)

Lemma gives_nothing {A} (a : A) w : gives (mret a) w a w ∧ prints w (w_fds w) 1 [] w.
Proof. split; [apply gives_ret|]. split; try done. by rewrite app_nil_r. Qed.

Lemma grep_buf_gives pattern fuel p w :
  ∃ w', gives (grep_buf pattern fuel p) w (grep_lines pattern fuel p).2 w' ∧
        prints w (w_fds w) 1 (grep_lines pattern fuel p).1 w'.
Proof.
  revert p w. induction fuel as [|fuel IH]; intros p w; simpl; [exists w; apply gives_nothing|].
  destruct (strchr (cstr p) 10) as [q|]; [|exists w; apply gives_nothing].
  set (k := (length (cstr p) - length q)%nat). destruct (grep_lines pattern fuel (drop (S k) p)) as [o rest] eqn:E.
  assert (∃ w1, gives (if match_ pattern (take k p) then write_ 1 (take k p ++ [10]);; mret () else mret ()) w () w1 ∧
                prints w (w_fds w) 1 (if match_ pattern (take k p) then take k p ++ [10] else []) w1) as (w1 & H1 & P1).
  { destruct (match_ _ _).
    - eexists. destruct (gives_write 1 (take k p ++ [10]) w) as [Hw Pw]; [done|]. split; [|exact Pw].
      eapply gives_bind; [exact Hw|]. apply gives_ret.
    - exists w. apply gives_nothing. }
  destruct (IH (drop (S k) p) w1) as (w' & H2 & P2).
  rewrite E in H2, P2. exists w'. split; [eapply gives_bind; [exact H1|exact H2]|].
  rewrite (pr_fds _ _ _ _ _ P1) in P2. exact (prints_trans _ _ _ _ _ _ _ _ P1 P2).
Qed.

Lemma grep_lines_rest pattern fuel p : (length (grep_lines pattern fuel p).2 ≤ length p)%nat.
Proof.
  revert p. induction fuel as [|fuel IH]; intros p; simpl; [done|]. destruct (strchr _ _) as [q|]; [|done].
  specialize (IH (drop (S (length (cstr p) - length q)) p)). rewrite length_drop in IH.
  destruct (grep_lines _ _ _). simpl in *. lia.
Qed.

(** grep(pattern, fd) prints what the search of Grep finds in the pieces that
    read() delivers. *)
Lemma grep_fd_gives pattern fd w p cs buf :
  (length buf < 1023)%nat → w_fds w !! fd = Some (p, cs) → Forall (λ c, c ≠ []) cs →
  ∃ w' ps, gives (ITree.iter (grep_step pattern fd) buf) w () w' ∧ concat ps = concat cs ∧ Forall (λ c, c ≠ []) ps ∧
           prints w (<[fd := (p, [])]> (w_fds w)) 1 (grep_loop pattern ps buf) w'.
Proof.
  remember (length (concat cs)) as m eqn:En. revert cs w buf En.
  induction (lt_wf m) as [m _ IH]. intros cs w buf -> Hb E HF.
  destruct (gives_read fd (1024 - Z.of_nat (length buf) - 1) w p cs) as [[-> Hr]|(b & bs & cs' & Ec & HF' & Hn & Hr)]; [lia|done|done| |].
  - exists w, []. destruct (gives_nothing () w) as [_ [P1 P2 P3 P4]].
    split_and!; [|done|done|split; [done|done|by rewrite insert_id|done]].
    apply gives_iter_done. eapply gives_bind; [exact Hr|]. apply gives_ret.
  - set (w1 := set_wfds _ w) in Hr. set (buf' := buf ++ b :: bs).
    destruct (grep_buf_gives pattern (S (length buf')) buf' w1) as (w2 & H2 & [P1 P2 P3 P4]).
    pose proof (grep_lines_rest pattern (S (length buf')) buf') as Hrest.
    destruct (grep_lines pattern (S (length buf')) buf') as [o rest] eqn:Eg. cbn [fst snd] in H2, P4, Hrest.
    set (keep := if (length rest =? length buf')%nat then [] else rest).
    destruct (IH (length (concat cs'))) with cs' w2 keep as (w' & ps & H3 & Ep & HFp & [Q1 Q2 Q3 Q4]);
      [|done| |by rewrite P3 lookup_insert_eq|done|].
    { rewrite Ec /= length_app. lia. }
    { rewrite /keep. destruct (Nat.eqb_spec (length rest) (length buf')); simpl; [lia|].
      rewrite /buf' length_app in Hrest n. lia. }
    exists w', ((b :: bs) :: ps). split_and!; [|by rewrite Ec /= Ep|by constructor|].
    + eapply gives_iter_next; [|exact H3]. eapply gives_bind; [exact Hr|]. cbv beta iota. eapply gives_bind; [exact H2|]. apply gives_ret.
    + split; [by rewrite Q1 P1|by rewrite Q2 P2|by rewrite Q3 P3 /= insert_insert_eq|].
      cbn [grep_loop]. rewrite -/buf' Eg Q4 P4 -app_assoc //.
Qed.

(** *** Lines, words and characters *)

Definition is_space (b : Z) : bool := match strchr [32; 13; 9; 10; 11] b with Some _ => true | None => false end.
#[local] Arguments is_space : simpl never.

(** What lies between the spaces of a text. *)
Fixpoint pieces (t : list Z) : list Z * list (list Z) :=
  match t with
  | [] => ([], [])
  | b :: t' => let '(p, ps) := pieces t' in if is_space b then ([], p :: ps) else (b :: p, ps)
  end.

Definition words (t : list Z) : list (list Z) := filter (λ p, p ≠ []) (let '(p, ps) := pieces t in p :: ps).

Definition newlines (t : list Z) : Z := Z.of_nat (length (filter (λ b, b = 10) t)).

Lemma words_space b t : is_space b = true → words (b :: t) = words t.
Proof. intros E. rewrite /words /=. destruct (pieces t) as [p ps]. by rewrite E. Qed.

Lemma words_char b t : is_space b = false →
  length (words (b :: t)) = S (length (words t) - (if bool_decide ((pieces t).1 = []) then 0 else 1))%nat.
Proof.
  intros E. rewrite /words /=. destruct (pieces t) as [p ps]. rewrite E filter_cons_True //=.
  destruct p as [|x p]; [rewrite filter_cons_False; [tauto|]|rewrite filter_cons_True; [done|]]; simpl; lia.
Qed.

Lemma words_first t : (pieces t).1 ≠ [] → (1 ≤ length (words t))%nat.
Proof. rewrite /words. destruct (pieces t) as [p ps]. intros H. rewrite filter_cons decide_True //=. lia. Qed.

Lemma words_le t : (length (words t) ≤ length t)%nat.
Proof.
  induction t as [|b t IH]; [done|]. destruct (is_space b) eqn:E; [rewrite words_space //=; lia|].
  rewrite words_char //=. lia.
Qed.

Lemma wc_fold t n :
  0 ≤ wc_l n ≤ wc_c n → 0 ≤ wc_w n ≤ wc_c n → wc_c n + Z.of_nat (length t) < 2 ^ 31 →
  let n' := foldl wc_char n t in
  wc_l n' = wc_l n + newlines t ∧
  wc_w n' = wc_w n + Z.of_nat (length (words t)) - (if wc_inword n && negb (bool_decide ((pieces t).1 = [])) then 1 else 0) ∧
  wc_c n' = wc_c n + Z.of_nat (length t).
Proof.
  revert n. induction t as [|b t IH]; intros n Hl Hw Hc; simpl.
  { rewrite andb_false_r. rewrite /newlines /words /=. lia. }
  simpl in Hc. destruct (IH (wc_char n b)) as (E1 & E2 & E3).
  1-3: rewrite /wc_char; repeat case_match; simpl; rewrite ?s32_id; lia.
  rewrite E1 E2 E3.
  assert (wc_c (wc_char n b) = wc_c n + 1) as -> by (rewrite /wc_char; repeat case_match; simpl; rewrite s32_id; lia).
  assert (wc_l (wc_char n b) + newlines t = wc_l n + newlines (b :: t)) as ->.
  { rewrite /newlines filter_cons. destruct (Z.eqb_spec b 10) as [Eb|Eb].
    - rewrite decide_True //=. assert (wc_l (wc_char n b) = wc_l n + 1) as ->; [|lia].
      rewrite /wc_char (proj2 (Z.eqb_eq b 10) Eb). repeat case_match; simpl; rewrite s32_id; lia.
    - rewrite decide_False //=. assert (wc_l (wc_char n b) = wc_l n) as ->; [|lia].
      rewrite /wc_char (proj2 (Z.eqb_neq b 10) Eb). by repeat case_match. }
  split; [done|]. split; [|lia].
  destruct (is_space b) eqn:Es.
  - rewrite words_space //. assert (wc_w (wc_char n b) = wc_w n ∧ wc_inword (wc_char n b) = false) as [-> ->].
    { rewrite /is_space in Es. rewrite /wc_char. by destruct (strchr _ b). }
    destruct (pieces t). by rewrite /= andb_false_r.
  - rewrite words_char //. assert (wc_inword (wc_char n b) = true) as ->.
    { rewrite /is_space in Es. rewrite /wc_char. destruct (strchr _ b); [done|]. by destruct (wc_inword n). }
    assert (wc_w (wc_char n b) = wc_w n + (if wc_inword n then 0 else 1)) as ->.
    { rewrite /is_space in Es. rewrite /wc_char. destruct (strchr _ b); [done|].
      destruct (wc_inword n); simpl; [lia|]. rewrite s32_id; lia. }
    pose proof (words_first t) as Hf. destruct (pieces t) as [p ps]. simpl in *. rewrite andb_true_r.
    destruct p; simpl; [|specialize (Hf ltac:(done))]; destruct (wc_inword n); simpl; lia.
Qed.

(** What a program prints for each of its files: the first one that cannot be
    opened ends it. *)
Fixpoint files_text (text : list Z → list (list Z) → list Z) (cannot : list Z → list Z)
    (files : gmap (list Z) (list (list Z))) (names : list (list Z)) : list Z :=
  match names with
  | [] => []
  | n :: names' =>
      match files !! n with
      | None => cannot n
      | Some cs => text n cs ++ files_text text cannot files names'
      end
  end.

(** A descriptor is free, and no file has an empty piece. *)
Definition world_ok (w : world) : Prop :=
  (∃ x, 0 ≤ x < Z.of_nat NOFILE ∧ w_fds w !! x = None) ∧
  ∀ n cs, w_files w !! n = Some cs → Forall (λ c, c ≠ []) cs.

Lemma yields_exit_world {A} w : yields (exit_ (A := A)) w w.
Proof. apply yields_tail. exists 1%nat. by intros [|fuel] Hf; [lia|]. Qed.

Lemma each_file_yields cannot msg f text names files w :
  (∀ n, printf (chars cannot ++ [10]) [str n] = Some (msg n)) →
  (∀ fd name cs w, w_fds w !! fd = Some (name, cs) → files !! name = Some cs → Forall (λ c, c ≠ []) cs →
     ∃ w', gives (f fd name) w () w' ∧ prints w (<[fd := (name, [])]> (w_fds w)) 1 (text name cs) w') →
  world_ok w → w_files w = files →
  ∃ w', yields (A := Empty_set) (each_file cannot f names;; exit_) w w' ∧ out 1 w' = out 1 w ++ files_text text msg files names.
Proof.
  intros Hmsg Hf. revert w. induction names as [|n names IH]; intros w [(x & Hx & Ex) Hok] Ew.
  { exists w. split; [apply yields_ret, yields_exit_world|]. by rewrite app_nil_r. }
  simpl. rewrite -Ew in Hf IH |- *. destruct (w_files w !! n) as [cs|] eqn:En.
  - destruct (lowest_ex (w_fds w) x) as (fd & El & Hfd & Efd); [done|done|].
    set (w1 := set_wfds (<[fd := (n, cs)]> (w_fds w)) w).
    assert (gives (open_ n O_RDONLY) w fd w1) as Ho.
    { apply gives_call. intros K. rewrite /= /open_world En El (proj2 (Z.ltb_ge fd 0)); [lia|done]. }
    destruct (Hf fd n cs w1) as (w2 & H2 & [P1 P2 P3 P4]); [by rewrite /= lookup_insert_eq|done|by apply (Hok n)|].
    set (w3 := set_wfds (delete fd (w_fds w2)) w2).
    assert (gives (close_ fd) w2 0 w3) as Hc.
    { apply gives_call. intros K. simpl.
      by assert (w_fds w2 !! fd = Some (n, [])) as -> by by rewrite P3 lookup_insert_eq. }
    destruct (IH w3) as (w' & Hy & Eo); [|done|].
    { rewrite /w3. split; [exists x; rewrite /= P3 lookup_delete; case_decide; [done|]|by rewrite /= P1].
      rewrite lookup_insert_ne // lookup_insert_ne //. }
    exists w'. split.
    + apply yields_assoc, Ho. rewrite (proj2 (Z.ltb_ge fd 0)); [lia|].
      apply yields_assoc, yields_ret, yields_assoc, H2, yields_assoc. by apply Hc.
    + rewrite Eo /out /= -/(out 1 w2) P4 -app_assoc //.
  - destruct (gives_printf 1 (chars cannot ++ [10]) [str n] (msg n) w) as (w' & Hp & P); [done|].
    exists w'. split; [|apply P]. apply yields_assoc.
    assert (gives (open_ n O_RDONLY) w (-1) w) as Ho by (apply gives_call; intros K; by rewrite /= /open_world En).
    apply Ho. apply yields_assoc, yields_assoc, Hp. apply yields_noreturn. exists 1%nat. by intros [|fuel] Hf'; [lia|].
Qed.

(** The line wc prints. *)
Definition wc_line (l v c : Z) (name : list Z) : list Z :=
  uprintint l 10 true ++ 32 :: uprintint v 10 true ++ 32 :: uprintint c 10 true ++ 32 :: name ++ [10].

Lemma printf_wc l v c name :
  printf (chars "%d %d %d %s" ++ [10]) [AInt l; AInt v; AInt c; str name] = Some (wc_line (s32 l) (s32 v) (s32 c) name).
Proof. reflexivity. Qed.

Definition wc_text (name : list Z) (cs : list (list Z)) : list Z :=
  let t := concat cs in wc_line (newlines t) (Z.of_nat (length (words t))) (Z.of_nat (length t)) name.

Lemma wc_loop fd w p name cs n :
  w_fds w !! fd = Some (p, cs) → Forall (λ c, c ≠ []) cs →
  let n' := foldl wc_char n (concat cs) in
  ∃ w', gives (ITree.iter (wc_step fd name) n) w () w' ∧
        prints w (<[fd := (p, [])]> (w_fds w)) 1 (wc_line (s32 (wc_l n')) (s32 (wc_w n')) (s32 (wc_c n')) name) w'.
Proof.
  remember (length (concat cs)) as m eqn:En. revert cs w n En.
  induction (lt_wf m) as [m _ IH]. intros cs w n -> E HF.
  destruct (gives_read fd 512 w p cs) as [[-> Hr]|(b & bs & cs' & Ec & HF' & _ & Hr)]; [lia|done|done| |].
  - destruct (gives_printf 1 _ _ _ w (printf_wc (wc_l n) (wc_w n) (wc_c n) name)) as (w' & Hp & [P1 P2 P3 P4]).
    exists w'. split; [|split; [done|done|by rewrite insert_id|done]].
    apply gives_iter_done. eapply gives_bind; [exact Hr|]. cbv beta iota. eapply gives_bind; [exact Hp|]. apply gives_ret.
  - set (w1 := set_wfds _ w) in Hr.
    destruct (IH (length (concat cs'))) with cs' w1 (foldl wc_char n (b :: bs)) as (w' & Hc & [P1 P2 P3 P4]);
      [|done|by rewrite /= lookup_insert_eq|done|].
    { rewrite Ec /= length_app. lia. }
    exists w'. split.
    + eapply gives_iter_next; [|exact Hc]. eapply gives_bind; [exact Hr|]. apply gives_ret.
    + rewrite Ec app_comm_cons foldl_app. split; [done|done|by rewrite P3 /= insert_insert_eq|done].
Qed.

Lemma wc_gives fd w p name cs :
  w_fds w !! fd = Some (p, cs) → Forall (λ c, c ≠ []) cs → Z.of_nat (length (concat cs)) < 2 ^ 31 →
  ∃ w', gives (wc fd name) w () w' ∧ prints w (<[fd := (p, [])]> (w_fds w)) 1 (wc_text name cs) w'.
Proof.
  intros E HF Hl. destruct (wc_loop fd w p name cs (Counts 0 0 0 false) E HF) as (w' & Hg & P).
  exists w'. split; [exact Hg|].
  destruct (wc_fold (concat cs) (Counts 0 0 0 false)) as (E1 & E2 & E3); [done|done|simpl; lia|].
  simpl in E1, E2, E3. rewrite E1 E2 E3 in P. pose proof (words_le (concat cs)).
  assert (0 ≤ newlines (concat cs) ≤ Z.of_nat (length (concat cs))) by (rewrite /newlines; split; [lia|]; apply Nat2Z.inj_le, length_filter).
  rewrite Z.sub_0_r !s32_id in P; [lia..|exact P].
Qed.

(** wc counts. For each of its files, in order and until one cannot be opened,
    it prints the number of newlines, of words (the pieces between blanks that are
    not empty) and of bytes, however read() cuts the file into pieces; without
    arguments it does so for its standard input. It ends. *)
Theorem wc_correct w :
  world_ok w → (∀ n cs, w_files w !! n = Some cs → Z.of_nat (length (concat cs)) < 2 ^ 31) →
  (∀ prog name names, ∃ w', yields (wc_main (prog :: name :: names)) w w' ∧
     out 1 w' = out 1 w ++ files_text wc_text (λ n, chars "wc: cannot open " ++ n ++ [10]) (w_files w) (name :: names)) ∧
  (∀ prog p cs, w_fds w !! 0 = Some (p, cs) → Forall (λ c, c ≠ []) cs → Z.of_nat (length (concat cs)) < 2 ^ 31 →
     ∃ w', yields (wc_main [prog]) w w' ∧ out 1 w' = out 1 w ++ wc_text [] cs).
Proof.
  intros Hok Hlen. split.
  - intros prog name names. apply each_file_yields; [done| |done|done].
    intros fd n cs w1 E1 E2 HF. apply (wc_gives fd w1 n n cs); [done|done|]. by apply (Hlen n).
  - intros prog p cs E HF Hl. destruct (wc_gives 0 w p [] cs E HF Hl) as (w' & Hg & P).
    exists w'. split; [|apply P]. apply Hg, yields_exit_world.
Qed.

(** cat copies. It writes the contents of its files, in order and until one
    cannot be opened, to its standard output, without arguments those of its
    standard input, however read() cuts them into pieces. It ends. *)
Theorem cat_correct w :
  world_ok w →
  (∀ prog name names, ∃ w', yields (cat_main (prog :: name :: names)) w w' ∧
     out 1 w' = out 1 w ++ files_text (λ _ cs, concat cs) (λ n, chars "cat: cannot open " ++ n ++ [10]) (w_files w) (name :: names)) ∧
  (∀ prog p cs, w_fds w !! 0 = Some (p, cs) → Forall (λ c, c ≠ []) cs →
     ∃ w', yields (cat_main [prog]) w w' ∧ out 1 w' = out 1 w ++ concat cs).
Proof.
  intros Hok. split.
  - intros prog name names. apply each_file_yields; [done| |done|done]. intros fd n cs w1 E1 _ HF. by apply cat_gives.
  - intros prog p cs E HF. destruct (cat_gives 0 w p cs E HF) as (w' & Hg & P).
    exists w'. split; [|apply P]. apply Hg, yields_exit_world.
Qed.

End world.

(** *** Two files, one of them cut inside a word *)

Definition demo_world : world :=
  World {[chars "a" := [chars "one t"; chars "wo" ++ [10]]; chars "b" := []]} ∅ {[0 := ([], []); 1 := ([], []); 2 := ([], [])]} [].

Lemma demo_files n cs : w_files demo_world !! n = Some cs → cs = [chars "one t"; chars "wo" ++ [10]] ∨ cs = [].
Proof. rewrite /= lookup_insert_Some lookup_singleton_Some. intros [[_ <-]|(_ & _ & <-)]; auto. Qed.

Lemma demo_world_ok : world_ok demo_world.
Proof.
  split; [by exists 3|]. by intros n cs [-> | ->]%demo_files; apply (bool_decide_unpack _); vm_compute.
Qed.

Lemma wc_correct_witness :
  ∃ w', yields (H := world_machine (λ _, true)) (wc_main [chars "wc"; chars "a"; chars "b"; chars "c"; chars "a"]) demo_world w' ∧
        out 1 w' = chars "1 2 8 a" ++ [10] ++ chars "0 0 0 b" ++ [10] ++ chars "wc: cannot open c" ++ [10].
Proof.
  destruct (wc_correct (λ _, true) (λ _ _, eq_refl) demo_world) as [H _].
  - apply demo_world_ok.
  - intros n cs [-> | ->]%demo_files; reflexivity.
  - destruct (H (chars "wc") (chars "a") [chars "b"; chars "c"; chars "a"]) as (w' & Hy & Ho). exists w'. split; [exact Hy|].
    rewrite Ho. vm_compute. reflexivity.
Defined.

Lemma cat_correct_witness :
  ∃ w', yields (H := world_machine (λ _, true)) (cat_main [chars "cat"; chars "a"; chars "c"]) demo_world w' ∧
        out 1 w' = chars "one two" ++ [10] ++ chars "cat: cannot open c" ++ [10].
Proof.
  destruct (cat_correct (λ _, true) (λ _ _, eq_refl) demo_world) as [H _].
  - apply demo_world_ok.
  - destruct (H (chars "cat") (chars "a") [chars "c"]) as (w' & Hy & Ho). exists w'. split; [exact Hy|].
    rewrite Ho. vm_compute. reflexivity.
Defined.

(** ** init starts the shell

    With the console as descriptors 0, 1 and 2, made first if it is not there;
    here the turn that follows the opening, when the shell can be run. *)
Section init.
Context (can_open : list Z → Z → bool) (can_exec : list Z → bool) (answer : ∀ X, ioE X → X).
#[local] Instance init_machine : Machine pst job := job_machine can_open can_exec answer.

Definition console : obj := OFile (chars "console") O_RDWR.

Lemma init_open_gives q :
  can_open (chars "console") O_RDWR = true →
  gives init_open (Pst ∅ q [] 0) () (Pst {[0 := console; 1 := console; 2 := console]} q [] 0).
Proof.
  intros Ho.
  assert (gives (open_ (chars "console") O_RDWR) (Pst ∅ q [] 0) 0 (Pst {[0 := console]} q [] 0)) as H0.
  { apply gives_call. intros K. by rewrite /= /open_run Ho. }
  assert (gives (dup_ 0) (Pst {[0 := console]} q [] 0) 1 (Pst (<[1 := console]> {[0 := console]}) q [] 0)) as H1 by by apply gives_call.
  assert (gives (dup_ 0) (Pst (<[1 := console]> {[0 := console]}) q [] 0) 2
                (Pst {[0 := console; 1 := console; 2 := console]} q [] 0)) as H2.
  { apply gives_call. intros K. by vm_compute. }
  eapply gives_bind; [exact H0|]. eapply gives_bind; [apply gives_ret|]. eapply gives_bind; [exact H1|].
  eapply gives_bind; [exact H2|]. apply gives_ret.
Qed.

Lemma init_starts_shell q :
  can_open (chars "console") O_RDWR = true → can_exec (chars "sh") = true →
  yields (init_open;; init_turn;; exit_ (A := Empty_set)) (Pst ∅ q [] 0)
    (Seq (Run (chars "sh") [chars "sh"] {[0 := console; 1 := console; 2 := console]}) Nop).
Proof.
  intros Ho He. apply (init_open_gives q Ho), yields_assoc. eapply yields_printf; [reflexivity|].
  apply yields_assoc. eapply yields_fork.
  - apply yields_assoc, yields_ret, yields_assoc, yields_assoc. by apply yields_exec.
  - apply yields_assoc, yields_ret, yields_assoc, yields_ret. apply yields_iter, yields_assoc.
    apply yields_wait_all; [done|]. apply yields_ret, yields_exit_tail.
Qed.

End init.
