(* ===== verification/Umalloc.v ===== *)
(** * The user memory allocator: umalloc.c

    A circular list of free blocks in ascending order of addresses, threaded
    through the blocks' headers in the program's memory, and searched first fit.
    [base] is the address of the static header the list starts with. sbrk() is
    the kernel's: [grant n b] says whether it lets the program grow by [n] bytes
    from the break [b]. The loops run on fuel; twice the length of the free list
    is enough. *)

From stdpp Require Import sorting.
From S2P Require Import Prelude Param Bytes String.

(** ** Operations *)

Record arena := Arena { h_mem : mem; h_freep : Z; h_brk : Z }.

Definition set_hmem (m : mem) (h : arena) : arena := Arena m (h_freep h) (h_brk h).
Definition set_freep (p : Z) (h : arena) : arena := Arena (h_mem h) p (h_brk h).
Definition set_brk (b : Z) (h : arena) : arena := Arena (h_mem h) (h_freep h) b.

Definition HM : Type → Type := M Empty_set arena.

(** union header: [s.ptr] at offset 0, [s.size] at offset 4. *)
Definition hdr_size : Z := 8.
Definition s_ptr (p : Z) : HM Z := gets (λ h, load32 (h_mem h) p).
Definition s_size (p : Z) : HM Z := gets (λ h, load32 (h_mem h) (p + 4)).
Definition set_ptr (p v : Z) : HM unit := modify (λ h, set_hmem (store32 (h_mem h) p v) h).
Definition set_size (p v : Z) : HM unit := modify (λ h, set_hmem (store32 (h_mem h) (p + 4) v) h).

(** Arithmetic on a pointer of type [Header *]. *)
Definition padd (p n : Z) : Z := u32 (p + hdr_size * n).

Section umalloc.
Context (base : Z) (grant : Z → Z → bool).

Definition free_scan (bp p : Z) : HM (Z + Z) :=
  nx ← s_ptr p;
  if (bp >? p) && (bp <? nx) then mret (inr p)
  else if (p >=? nx) && ((bp >? p) || (bp <? nx)) then mret (inr p)
  else mret (inl nx).

Definition free (fuel : nat) (ap : Z) : HM unit :=
  let bp := padd ap (-1) in
  p0 ← gets h_freep;
  p ← loop fuel (free_scan bp) p0;
  n ← s_size bp;
  nx ← s_ptr p;
  (if padd bp n =? nx then
     k ← s_size nx;
     set_size bp (n + k);;
     q ← s_ptr nx;
     set_ptr bp q
   else set_ptr bp nx);;
  k ← s_size p;
  (if padd p k =? bp then
     n ← s_size bp;
     set_size p (k + n);;
     q ← s_ptr bp;
     set_ptr p q
   else set_ptr p bp);;
  modify (set_freep p).

(** The system call: the old break, or -1. *)
Definition sbrk (n : Z) : HM Z :=
  b ← gets h_brk;
  if grant n b then modify (set_brk (u32 (b + n)));; mret b
  else mret (u32 (-1)).

Definition morecore (fuel : nat) (nu : Z) : HM Z :=
  let nu := if nu <? 4096 then 4096 else nu in
  p ← sbrk (s32 (nu * hdr_size));
  if p =? u32 (-1) then mret 0 else
  set_size p nu;;
  free fuel (padd p 1);;
  gets h_freep.

Definition malloc_step (fuel : nat) (nunits : Z) (x : Z * Z) : HM (Z * Z + Z) :=
  let '(prevp, p) := x in
  n ← s_size p;
  if n >=? nunits then
    p' ← (if n =? nunits then
            q ← s_ptr p;
            set_ptr prevp q;;
            mret p
          else
            set_size p (n - nunits);;
            k ← s_size p;
            set_size (padd p k) nunits;;
            mret (padd p k));
    modify (set_freep prevp);;
    mret (inr (padd p' 1))
  else
    fp ← gets h_freep;
    if p =? fp then
      p' ← morecore fuel nunits;
      if p' =? 0 then mret (inr 0) else
      nx ← s_ptr p';
      mret (inl (p', nx))
    else
      nx ← s_ptr p;
      mret (inl (p, nx)).

Definition malloc (fuel : nat) (nbytes : Z) : HM Z :=
  let nunits := u32 (u32 (nbytes + hdr_size - 1) / hdr_size + 1) in
  fp ← gets h_freep;
  prevp ← (if fp =? 0 then
             set_ptr base base;;
             modify (set_freep base);;
             set_size base 0;;
             mret base
           else mret fp);
  p ← s_ptr prevp;
  loop fuel (malloc_step fuel nunits) (prevp, p).

End umalloc.

(** ** The list of free blocks *)

Section heap.
Context (base : Z).

(** Address of the first block of [L], or [e] if there is none. *)
Definition head_addr (L : list (Z * Z)) (e : Z) : Z := match L with [] => e | (a, _) :: _ => a end.

(** The headers of [L] in memory, each pointing to the next, the last to [e]. *)
Fixpoint chain (m : mem) (L : list (Z * Z)) (e : Z) : Prop :=
  match L with
  | [] => True
  | (a, s) :: L' => load32 m a = head_addr L' e ∧ load32 m (a + 4) = s ∧ chain m L' e
  end.

Lemma chain_app m L1 L2 e : chain m (L1 ++ L2) e ↔ chain m L1 (head_addr L2 e) ∧ chain m L2 e.
Proof.
  induction L1 as [|[a s] L1 IH]; simpl; [tauto|]. rewrite IH.
  replace (head_addr (L1 ++ L2) e) with (head_addr L1 (head_addr L2 e)) by by destruct L1. tauto.
Qed.

Lemma chain_frame m m' L e :
  (∀ a s x, (a, s) ∈ L → a ≤ x < a + 8 → byte m' x = byte m x) → chain m L e → chain m' L e.
Proof.
  induction L as [|[a s] L IH]; simpl; [done|]. intros Hb (H1 & H2 & H3).
  assert (∀ x, a ≤ x < a + 8 → byte m' x = byte m x) as Ha by (intros x; apply (Hb a s), list_elem_of_here).
  rewrite (load32_frame m m' a); [intros x ?; apply Ha; lia|].
  rewrite (load32_frame m m' (a + 4)); [intros x ?; apply Ha; lia|].
  split_and!; [done..|]. apply IH; [|done]. intros b t x Hin. apply (Hb b t). by apply list_elem_of_further.
Qed.

Lemma chain_lookup m L e i a s :
  chain m L e → L !! i = Some (a, s) → load32 m a = head_addr (drop (S i) L) e ∧ load32 m (a + 4) = s.
Proof.
  intros HC Hi. rewrite -(take_drop_middle L i (a, s) Hi) chain_app in HC.
  by destruct HC as [_ (? & ? & _)].
Qed.

(** ** Searching the ring *)

(** Free blocks in ascending order, apart from each other; [base], of size 0,
    comes first. *)
Definition before (x y : Z * Z) : Prop := x.1 + 8 ≤ y.1 ∧ x.1 + 8 * x.2 < y.1.

Record ring (h : arena) (L : list (Z * Z)) : Prop := {
  rg_chain : chain (h_mem h) L base;
  rg_base : ∃ L', L = (base, 0) :: L' ∧ Forall (λ x, 1 ≤ x.2) L';
  rg_sorted : StronglySorted before L;
  rg_freep : ∃ k s, L !! k = Some (h_freep h, s);
  rg_bound : 0 < base ∧ Forall (λ x, x.1 + 8 * x.2 ≤ h_brk h) L ∧ base + 8 ≤ h_brk h ≤ KERNBASE
}.

Lemma before_lookup L i j x y :
  StronglySorted before L → (i < j)%nat → L !! i = Some x → L !! j = Some y → before x y.
Proof.
  intros HS Hij Hx Hy. rewrite -(take_drop_middle L j y Hy) in HS. apply StronglySorted_app in HS as (HS & _).
  apply HS; [|apply list_elem_of_here]. apply list_elem_of_lookup. exists i. by rewrite lookup_take_lt.
Qed.

Lemma head_drop L e i :
  head_addr (drop i L) e = match L !! i with Some x => x.1 | None => e end.
Proof. revert i. induction L as [|[a s] L IH]; intros [|i]; simpl; done. Qed.

Section scan.
Context (h : arena) (L : list (Z * Z)) (bp : Z) (j : nat) (p sp : Z).
Hypothesis HR : ring h L.
Hypothesis Hbp : base < bp.
Hypothesis Hj : L !! j = Some (p, sp).
Hypothesis Hcut : ∀ i a s, L !! i = Some (a, s) → a ≠ bp ∧ (a < bp ↔ (i ≤ j)%nat).

(** One step of the loop of free() at block [i]. *)
Lemma free_scan_at i a s : L !! i = Some (a, s) →
  free_scan bp a h = Ok (if bool_decide (i = j) then inr a else inl (match L !! S i with Some x => x.1 | None => base end)) h.
Proof.
  intros Hi. destruct (Hcut _ _ _ Hi) as [Hne Hlt].
  rewrite /free_scan /s_ptr bind_gets (proj1 (chain_lookup _ _ _ _ _ _ (rg_chain _ _ HR) Hi)) head_drop.
  destruct (rg_base _ _ HR) as (L' & EL & _).
  assert (base ≤ a) as Hba.
  { destruct i as [|i]; [rewrite EL in Hi; injection Hi; lia|].
    assert (L !! 0%nat = Some (base, 0)) as H0 by by rewrite EL.
    destruct (before_lookup L 0 (S i) _ _ (rg_sorted _ _ HR) ltac:(lia) H0 Hi). simpl in *. lia. }
  destruct (L !! S i) as [[b t]|] eqn:Hn; simpl.
  - destruct (Hcut _ _ _ Hn) as [Hne' Hlt'].
    pose proof (before_lookup L i (S i) _ _ (rg_sorted _ _ HR) ltac:(lia) Hi Hn) as [Hab _]. simpl in Hab.
    case_bool_decide; [by replace ((bp >? a) && (bp <? b)) with true by lia|].
    replace ((bp >? a) && (bp <? b)) with false by lia. by replace (a >=? b) with false by lia.
  - apply lookup_ge_None_1 in Hn. pose proof (lookup_lt_Some _ _ _ Hi). pose proof (lookup_lt_Some _ _ _ Hj).
    replace ((bp >? a) && (bp <? base)) with false by lia. replace (a >=? base) with true by lia.
    case_bool_decide; [by replace (bp >? a) with true by lia|].
    by replace ((bp >? a) || (bp <? base)) with false by lia.
Qed.

(** From a block at or before [j]. *)
Lemma free_scan_up d i a s fuel :
  L !! i = Some (a, s) → (i + d = j)%nat → (d < fuel)%nat → loop fuel (free_scan bp) a h = Ok p h.
Proof.
  revert i a s fuel. induction d as [|d IH]; intros i a s [|fuel] Hi Hd Hf; [lia| |lia|].
  - rewrite Nat.add_0_r in Hd. subst i. rewrite Hj in Hi. injection Hi as <- <-.
    apply loop_done. by rewrite (free_scan_at _ _ _ Hj) bool_decide_eq_true_2.
  - destruct (lookup_lt_is_Some_2 L (S i)) as [[b t] Hn]; [apply lookup_lt_Some in Hj; lia|].
    erewrite loop_S; [|rewrite (free_scan_at _ _ _ Hi) bool_decide_eq_false_2; [lia|]; rewrite Hn; done].
    apply (IH (S i) b t); [done|lia|lia].
Qed.

(** From a block after [j], around the ring. *)
Lemma free_scan_around d i a s fuel :
  L !! i = Some (a, s) → (i + d = length L)%nat → (j < i)%nat → (d + j < fuel)%nat → loop fuel (free_scan bp) a h = Ok p h.
Proof.
  revert i a s fuel. induction d as [|d IH]; intros i a s [|fuel] Hi Hd Hij Hf; [lia|apply lookup_lt_Some in Hi; lia|lia|].
  erewrite loop_S; [|rewrite (free_scan_at _ _ _ Hi) bool_decide_eq_false_2; [lia|]; done].
  destruct (L !! S i) as [[b t]|] eqn:Hn.
  - apply (IH (S i) b t); [done|lia|lia|lia].
  - destruct (rg_base _ _ HR) as (L' & EL & _).
    apply (free_scan_up j 0 _ 0); [by rewrite EL|lia|lia].
Qed.

Lemma free_scan_run fuel : (length L ≤ fuel)%nat → loop fuel (free_scan bp) (h_freep h) h = Ok p h.
Proof.
  intros Hf. destruct (rg_freep _ _ HR) as (k & s & Hk). pose proof (lookup_lt_Some _ _ _ Hk).
  destruct (decide (k ≤ j)%nat).
  - apply (free_scan_up (j - k) k _ s); [done|lia|]. apply lookup_lt_Some in Hj. lia.
  - apply (free_scan_around (length L - k) k _ s); [done|lia|lia|lia].
Qed.

End scan.

(** ** free() *)

(** The addresses covered by free blocks. *)
Definition free_at (L : list (Z * Z)) (x : Z) : Prop := ∃ a s, (a, s) ∈ L ∧ a ≤ x < a + 8 * s.

Lemma free_at_cons a s L x : free_at ((a, s) :: L) x ↔ a ≤ x < a + 8 * s ∨ free_at L x.
Proof.
  rewrite /free_at. split.
  - intros (b & t & [[= -> ->]|Hin]%elem_of_cons & ?); [by left|right; eauto].
  - intros [?|(b & t & ? & ?)]; [exists a, s|exists b, t]; rewrite elem_of_cons; auto.
Qed.

Lemma free_at_app L1 L2 x : free_at (L1 ++ L2) x ↔ free_at L1 x ∨ free_at L2 x.
Proof. rewrite /free_at. setoid_rewrite elem_of_app. naive_solver. Qed.

(** The blocks that may follow an address. *)
Definition after (a : Z) (x : Z * Z) : Prop := a ≤ x.1 ∧ 1 ≤ x.2 ∧ x.1 + 8 * x.2 ≤ KERNBASE.

Lemma head_after a L : 0 < base → base < a → a ≤ KERNBASE → Forall (after a) L → 0 < head_addr L base < 2 ^ 32.
Proof.
  intros ? ? Ha HF. rewrite /after /KERNBASE in Ha, HF. destruct L as [|[b t] L]; simpl; [lia|].
  apply Forall_cons in HF as [? _]. simpl in *. lia.
Qed.

Lemma after_mono a a' L : a' ≤ a → Forall (after a) L → Forall (after a') L.
Proof. intros H HF. apply (Forall_impl _ _ _ HF). rewrite /after. intros x. lia. Qed.

(** A block [(bp, n)] joined with the block that follows it, if they touch. *)
Lemma join_right (bp n : Z) L2 h :
  0 < base → base < bp → 1 ≤ n → bp + 8 * n ≤ KERNBASE → load32 (h_mem h) (bp + 4) = n →
  chain (h_mem h) L2 base → StronglySorted before L2 → Forall (after (bp + 8 * n)) L2 →
  ∃ m n1 R,
    (if padd bp n =? head_addr L2 base then
       k ← s_size (head_addr L2 base);
       set_size bp (n + k);;
       q ← s_ptr (head_addr L2 base);
       set_ptr bp q
     else set_ptr bp (head_addr L2 base)) h = Ok tt (set_hmem m h) ∧
    load32 m bp = head_addr R base ∧ load32 m (bp + 4) = n1 ∧ n ≤ n1 ∧ bp + 8 * n1 ≤ KERNBASE ∧
    (∀ x, ¬ bp ≤ x < bp + 8 → byte m x = byte (h_mem h) x) ∧
    R `suffix_of` L2 ∧ Forall (λ x, bp + 8 * n1 < x.1) R ∧
    ∀ x, bp ≤ x < bp + 8 * n ∨ free_at L2 x ↔ bp ≤ x < bp + 8 * n1 ∨ free_at R x.
Proof.
  intros Hb0 Hbp Hn Hk Hs HC HS HF.
  assert (padd bp n = bp + 8 * n) as Ep by (rewrite /padd /hdr_size u32_id; rewrite /KERNBASE in Hk; lia). rewrite Ep.
  destruct (decide (bp + 8 * n = head_addr L2 base)) as [E|E].
  - destruct L2 as [|[b t] R]; simpl in E; [lia|]. destruct HC as (C1 & C2 & HC). simpl.
    apply Forall_cons in HF as [(F1 & F2 & F3) HF]. simpl in F1, F2, F3. apply StronglySorted_cons in HS as [HB HS].
    rewrite -E Z.eqb_refl /s_size /set_size /s_ptr /set_ptr bind_gets E C2 bind_modify bind_gets /=.
    rewrite load32_store32_ne; [lia|]. rewrite C1.
    assert (0 < head_addr R base < 2 ^ 32) as Hh by (apply (head_after (bp + 8 * n)); [lia..|done]).
    exists (store32 (store32 (h_mem h) (bp + 4) (n + t)) bp (head_addr R base)), (n + t), R.
    split_and!; [done| | |lia|lia| |by exists [(b, t)]| |].
    + rewrite load32_store32 u32_id //. lia.
    + rewrite load32_store32_ne; [lia|]. rewrite load32_store32 u32_id //. rewrite /KERNBASE in F3. lia.
    + intros x Hx. rewrite !byte_store32_out //; lia.
    + apply (Forall_impl _ _ _ HB). rewrite /before /=. intros x. lia.
    + intros x. rewrite free_at_cons. split; [intros [?|[?|?]]; [left; lia..|by right]|intros [?|?]; [|by right; right]].
      destruct (decide (x < bp + 8 * n)); [left; lia|right; left; lia].
  - rewrite (proj2 (Z.eqb_neq _ _) E) /set_ptr.
    exists (store32 (h_mem h) bp (head_addr L2 base)), n, L2.
    pose proof (head_after (bp + 8 * n) L2 Hb0 ltac:(lia) Hk HF) as Hh.
    split_and!; [done| |by rewrite load32_store32_ne; [lia|]|lia|done| |done| |done].
    + rewrite load32_store32 u32_id //. lia.
    + intros x Hx. rewrite byte_store32_out //. lia.
    + destruct L2 as [|[b t] R]; [done|]. apply StronglySorted_cons in HS as [HB _]. apply Forall_cons in HF as [(F1 & _) _].
      simpl in E, F1. constructor; simpl; [lia|]. apply (Forall_impl _ _ _ HB). rewrite /before /=. intros x. lia.
Qed.

(** The block [(p, sp)] joined with the block [(bp, n1)] that follows it, if they
    touch; the result is the list of blocks from [p] on. *)
Definition joined (p sp bp n1 : Z) (R : list (Z * Z)) : list (Z * Z) :=
  if p + 8 * sp =? bp then (p, sp + n1) :: R else (p, sp) :: (bp, n1) :: R.

Lemma join_left (p sp bp n1 : Z) R h :
  0 < p → 0 ≤ sp → p + 8 ≤ bp → p + 8 * sp ≤ bp → 1 ≤ n1 → bp + 8 * n1 ≤ KERNBASE →
  load32 (h_mem h) (p + 4) = sp → load32 (h_mem h) bp = head_addr R base → load32 (h_mem h) (bp + 4) = n1 →
  0 < head_addr R base < 2 ^ 32 → chain (h_mem h) R base → Forall (λ x, bp + 8 * n1 < x.1) R →
  ∃ m,
    (k ← s_size p;
     (if padd p k =? bp then
        n ← s_size bp;
        set_size p (k + n);;
        q ← s_ptr bp;
        set_ptr p q
      else set_ptr p bp);;
     modify (set_freep p)) h = Ok tt (set_freep p (set_hmem m h)) ∧
    chain m (joined p sp bp n1 R) base ∧ ∀ x, ¬ p ≤ x < p + 8 → byte m x = byte (h_mem h) x.
Proof.
  intros Hp Hsp Hp8 Hpb Hn Hk Hs Hb1 Hb2 Hh HC HF. rewrite /KERNBASE in Hk.
  assert (padd p sp = p + 8 * sp) as Ep by (rewrite /padd /hdr_size u32_id; lia).
  rewrite /s_size /set_size /s_ptr /set_ptr bind_gets Hs Ep /joined.
  assert (∀ m, (∀ x, ¬ p ≤ x < p + 8 → byte m x = byte (h_mem h) x) → chain m R base) as HC'.
  { intros m Hm. apply (chain_frame (h_mem h)); [|done]. intros a s x Hin Hx. apply Hm.
    apply (proj1 (Forall_forall _ _) HF) in Hin. simpl in Hin. lia. }
  destruct (Z.eqb_spec (p + 8 * sp) bp) as [E|E].
  - rewrite bind_assoc bind_gets bind_assoc bind_modify bind_assoc bind_gets !bind_modify /=.
    rewrite Hb2 load32_store32_ne; [lia|]. rewrite Hb1.
    eexists. split; [reflexivity|]. simpl.
    assert (∀ x, ¬ p ≤ x < p + 8 →
      byte (store32 (store32 (h_mem h) (p + 4) (sp + n1)) p (head_addr R base)) x = byte (h_mem h) x) as Hout
      by (intros x Hx; rewrite !byte_store32_out //; lia).
    split; [|done]. rewrite load32_store32 u32_id; [lia|]. rewrite load32_store32_ne; [lia|].
    rewrite load32_store32 u32_id; [lia|]. split_and!; [done..|by apply HC'].
  - rewrite !bind_modify. eexists. split; [reflexivity|]. simpl.
    assert (∀ x, ¬ p ≤ x < p + 8 → byte (store32 (h_mem h) p bp) x = byte (h_mem h) x) as Hout
      by (intros x Hx; rewrite byte_store32_out //; lia).
    split; [|done]. rewrite load32_store32 u32_id; [lia|]. rewrite !load32_store32_ne; [lia..|].
    split_and!; [done..|by apply HC'].
Qed.

(** Where in the list a block belongs. *)
Lemma cut L bp n x0 :
  StronglySorted before (x0 :: L) → x0.1 + 8 ≤ bp ∧ x0.1 + 8 * x0.2 ≤ bp →
  (∀ x, x ∈ L → x.1 + 8 ≤ bp ∧ x.1 + 8 * x.2 ≤ bp ∨ bp + 8 * n ≤ x.1) → 1 ≤ n →
  ∃ L1 p sp L2, x0 :: L = L1 ++ (p, sp) :: L2 ∧ p + 8 ≤ bp ∧ p + 8 * sp ≤ bp ∧ Forall (λ x, bp + 8 * n ≤ x.1) L2.
Proof.
  revert x0. induction L as [|y L IH]; intros [a s] HS Hx Hall Hn.
  { exists [], a, s, []. split_and!; [done|apply Hx|apply Hx|done]. }
  destruct (Hall y) as [Hy|Hy]; [apply list_elem_of_here| |].
  - destruct (IH y) as (L1 & p & sp & L2 & -> & ? & ? & ?); [|done| |done|].
    + by apply StronglySorted_cons in HS as [_ ?].
    + intros x Hin. apply Hall. by apply list_elem_of_further.
    + exists ((a, s) :: L1), p, sp, L2. done.
  - exists [], a, s, (y :: L). split_and!; [done|apply Hx|apply Hx|]. constructor; [done|].
    apply StronglySorted_cons in HS as [_ HS]. apply StronglySorted_cons in HS as [HB _].
    apply (Forall_impl _ _ _ HB). rewrite /before. intros x. lia.
Qed.

Lemma ring_blocks h L x : ring h L → x ∈ L → x = (base, 0) ∨ base + 8 ≤ x.1 ∧ 1 ≤ x.2 ∧ x.1 + 8 * x.2 ≤ h_brk h.
Proof.
  intros HR Hx. destruct (rg_base _ _ HR) as (L' & -> & HF). apply elem_of_cons in Hx as [->|Hx]; [by left|right].
  pose proof (rg_sorted _ _ HR) as [HB _]%StronglySorted_cons. rewrite !Forall_forall in HB, HF.
  destruct (HB x Hx) as [H1 _]. specialize (HF x Hx). destruct (rg_bound _ _ HR) as (_ & HK & _).
  rewrite Forall_cons Forall_forall in HK. destruct HK as [_ HK]. specialize (HK x Hx). simpl in *. lia.
Qed.

(** Disjoint intervals. *)
Lemma interval_apart a s b t :
  1 ≤ s → 1 ≤ t → (∀ x, a ≤ x < a + 8 * s → ¬ b ≤ x < b + 8 * t) → a + 8 * s ≤ b ∨ b + 8 * t ≤ a.
Proof. intros Hs Ht H. specialize (H (Z.max a b)). lia. Qed.

Lemma ring_cut h L bp n :
  ring h L → base + 8 ≤ bp → 1 ≤ n → (∀ x, bp ≤ x < bp + 8 * n → ¬ free_at L x) →
  ∃ L1 p sp L2, L = L1 ++ (p, sp) :: L2 ∧ p + 8 ≤ bp ∧ p + 8 * sp ≤ bp ∧ Forall (λ x, bp + 8 * n ≤ x.1) L2.
Proof.
  intros HR Hbp Hn Hd. destruct (rg_base _ _ HR) as (L' & EL & _). pose proof (rg_sorted _ _ HR) as HS.
  destruct (cut L' bp n (base, 0)) as (L1 & p & sp & L2 & E & H); [by rewrite -EL|simpl; lia| |done|].
  - intros [a s] Hx. assert ((a, s) ∈ L) as Hx' by (rewrite EL; by apply list_elem_of_further).
    destruct (ring_blocks _ _ _ HR Hx') as [[= -> ->]|(H1 & H2 & H3)]; simpl in *; [lia|].
    destruct (interval_apart a s bp n) as [?|?]; [done|done| |left; lia|by right].
    intros x Ha Hb. apply (Hd x Hb). by exists a, s.
  - exists L1, p, sp, L2. by rewrite EL.
Qed.

Lemma before_joined p sp bp n1 R x : p + 8 ≤ bp → before x (p, sp) → Forall (λ y, bp < y.1) R → Forall (before x) (joined p sp bp n1 R).
Proof.
  intros Hp Hx HR. assert (Forall (before x) R) as HR'.
  { apply (Forall_impl _ _ _ HR). destruct Hx. rewrite /before /= in H, H0 |- *. intros y. lia. }
  destruct Hx. simpl in *. rewrite /joined. destruct (_ =? _); repeat constructor; simpl; try done; lia.
Qed.

Lemma sorted_joined L1 p sp L2 bp n1 R :
  StronglySorted before (L1 ++ (p, sp) :: L2) → R `suffix_of` L2 → p + 8 ≤ bp → p + 8 * sp ≤ bp → 1 ≤ n1 →
  Forall (λ x, bp + 8 * n1 < x.1) R → StronglySorted before (L1 ++ joined p sp bp n1 R).
Proof.
  intros (H1 & HL1 & HL2)%StronglySorted_app [L0 ->] Hp Hpb Hn HR.
  apply StronglySorted_cons in HL2 as [Hp2 (_ & _ & HSR)%StronglySorted_app].
  assert (Forall (λ y, bp < y.1) R) as HR' by (apply (Forall_impl _ _ _ HR); intros y; lia).
  apply StronglySorted_app. split_and!; [|done|].
  - intros x y Hx Hy. specialize (H1 x (p, sp) Hx (list_elem_of_here _ _)).
    pose proof (before_joined p sp bp n1 R x Hp H1 HR') as HF. by apply (proj1 (Forall_forall _ _) HF).
  - rewrite /joined. destruct (Z.eqb_spec (p + 8 * sp) bp); rewrite !StronglySorted_cons.
    + split; [|done]. apply (Forall_impl _ _ _ HR). rewrite /before /=. intros y. lia.
    + split_and!; [|apply (Forall_impl _ _ _ HR); rewrite /before /=; intros y; lia|done].
      constructor; [rewrite /before /=; lia|]. apply (Forall_impl _ _ _ HR). rewrite /before /=. intros y. lia.
Qed.

Lemma free_at_joined p sp bp n1 R x : 0 ≤ sp → 0 ≤ n1 →
  free_at (joined p sp bp n1 R) x ↔ p ≤ x < p + 8 * sp ∨ bp ≤ x < bp + 8 * n1 ∨ free_at R x.
Proof.
  intros Hsp Hn. rewrite /joined. destruct (Z.eqb_spec (p + 8 * sp) bp); rewrite !free_at_cons; [|done]. split.
  - intros [?|?]; [|by right; right]. destruct (decide (x < bp)); [left; lia|right; left; lia].
  - intros [?|[?|?]]; [left; lia..|by right].
Qed.

Lemma ring_joined h L1 p sp L2 bp n1 R m :
  ring h (L1 ++ (p, sp) :: L2) → chain m (L1 ++ joined p sp bp n1 R) base → R `suffix_of` L2 →
  p + 8 ≤ bp → p + 8 * sp ≤ bp → 1 ≤ n1 → bp + 8 * n1 ≤ h_brk h →
  Forall (λ x, bp + 8 * n1 < x.1) R → ring (set_freep p (set_hmem m h)) (L1 ++ joined p sp bp n1 R).
Proof.
  intros HR HC HRs Hp Hpb Hn Hbr HF. destruct (rg_bound _ _ HR) as (Hb0 & Hbrk & Hb1).
  apply Forall_app in Hbrk as [HB1 [HBp HB2]%Forall_cons]. pose proof HRs as [L0 E2].
  assert (Forall (λ x, x.1 + 8 * x.2 ≤ h_brk h) R) as HBR by (rewrite E2 in HB2; by apply Forall_app in HB2 as [_ ?]).
  split; [done| |apply (sorted_joined _ _ _ L2); [apply HR|done..]| |].
  - destruct (rg_base _ _ HR) as (L' & EL & HL'). destruct L1 as [|x L1].
    + injection EL as -> -> E1. rewrite /joined. replace (base + 8 * 0 =? bp) with false by lia. simpl.
      exists ((bp, n1) :: R). split; [done|]. constructor; [done|]. rewrite -E1 E2 in HL'. by apply Forall_app in HL' as [_ ?].
    + injection EL as -> <-. exists (L1 ++ joined p sp bp n1 R). split; [done|]. rewrite !Forall_app Forall_cons E2 Forall_app in HL' |- *.
      destruct HL' as (? & ? & _ & ?). split; [done|]. rewrite /joined. simpl in *.
      destruct (_ =? _); repeat constructor; simpl; try done; lia.
  - exists (length L1). simpl. rewrite lookup_app_r // Nat.sub_diag /joined. destruct (_ =? _); by eexists.
  - split_and!; [done| |apply Hb1|apply Hb1]. simpl in *. apply Forall_app. split; [done|].
    rewrite /joined. destruct (Z.eqb_spec (p + 8 * sp) bp); repeat constructor; simpl; try done; lia.
Qed.

(** The index where the loop of free() stops. *)
Lemma cut_index L1 p sp L2 bp n i a s :
  StronglySorted before (L1 ++ (p, sp) :: L2) → p + 8 ≤ bp → 1 ≤ n → Forall (λ x, bp + 8 * n ≤ x.1) L2 →
  (L1 ++ (p, sp) :: L2) !! i = Some (a, s) → a ≠ bp ∧ (a < bp ↔ (i ≤ length L1)%nat).
Proof.
  intros HS Hp Hn HF Hi. assert ((L1 ++ (p, sp) :: L2) !! length L1 = Some (p, sp)) as Hj by by rewrite lookup_app_r // Nat.sub_diag.
  destruct (decide (i ≤ length L1)%nat) as [Hle|Hgt].
  - assert (a ≤ p); [|lia]. destruct (decide (i = length L1)) as [->|]; [rewrite Hj in Hi; injection Hi; lia|].
    destruct (before_lookup _ i (length L1) (a, s) (p, sp) HS ltac:(lia) Hi Hj) as [H _]. simpl in H. lia.
  - rewrite lookup_app_r in Hi; [lia|]. replace (i - length L1)%nat with (S (i - length L1 - 1)) in Hi by lia. simpl in Hi.
    apply list_elem_of_lookup_2, (proj1 (Forall_forall _ _) HF) in Hi. simpl in Hi. lia.
Qed.

(** free() of a block apart from the free ones: its addresses become free, and
    only headers of free blocks change. *)
Lemma free_block fuel h L bp n :
  ring h L → base + 8 ≤ bp → 1 ≤ n → bp + 8 * n ≤ h_brk h → load32 (h_mem h) (bp + 4) = n →
  (∀ x, bp ≤ x < bp + 8 * n → ¬ free_at L x) → (length L ≤ fuel)%nat →
  ∃ h' L', free fuel (bp + 8) h = Ok tt h' ∧ ring h' L' ∧ h_brk h' = h_brk h ∧ (length L' ≤ S (length L))%nat ∧
    (∀ x, free_at L' x ↔ free_at L x ∨ bp ≤ x < bp + 8 * n) ∧ (∃ a s, (a, s) ∈ L' ∧ n ≤ s) ∧
    ∀ x, ¬ free_at L x → ¬ base ≤ x < base + 8 → ¬ bp ≤ x < bp + 8 → byte (h_mem h') x = byte (h_mem h) x.
Proof.
  intros HR Hbp Hn Hbr Hs Hd Hf. destruct (rg_bound _ _ HR) as (Hb0 & Hbrk & Hb1).
  destruct (ring_cut h L bp n HR Hbp Hn Hd) as (L1 & p & sp & L2 & EL & Hp8 & Hpb & HL2).
  assert (padd (bp + 8) (-1) = bp) as Ep by (rewrite /padd /hdr_size u32_id; rewrite /KERNBASE in Hb1; lia).
  assert (L !! length L1 = Some (p, sp)) as Hj by by rewrite EL lookup_app_r // Nat.sub_diag.
  pose proof (rg_sorted _ _ HR) as HS. pose proof (rg_chain _ _ HR) as HC.
  assert (∀ i a s, L !! i = Some (a, s) → a ≠ bp ∧ (a < bp ↔ (i ≤ length L1)%nat)) as Hcut.
  { intros i a s Hi. rewrite EL in Hi, HS. by apply (cut_index L1 p sp L2 bp n i a s). }
  assert (∀ x, x ∈ L2 → after (bp + 8 * n) x) as Haf.
  { intros x Hx. pose proof (proj1 (Forall_forall _ _) HL2 x Hx). assert (x ∈ L) as HxL by (rewrite EL; set_solver).
    destruct (ring_blocks _ _ _ HR HxL) as [->|?]; simpl in *; [lia|]. rewrite /after. lia. }
  rewrite EL in HC. apply chain_app in HC as [HC1 (Cp1 & Cp2 & HC2)].
  destruct (join_right bp n L2 h) as (m1 & n1 & R & Hrun1 & J1 & J2 & J3 & J4 & J5 & J6 & J7 & J8);
    [lia|lia|done|lia|done|done| |by apply Forall_forall|].
  { rewrite EL in HS. by apply StronglySorted_app in HS as (_ & _ & [_ ?]%StronglySorted_cons). }
  assert (p = base ∧ sp = 0 ∨ base + 8 ≤ p ∧ 1 ≤ sp) as Hpp.
  { destruct (ring_blocks h L (p, sp) HR) as [[= -> ->]|?]; [rewrite EL; set_solver|by left|right; simpl in *; lia]. }
  assert (Forall (after (bp + 8 * n)) R) as HafR.
  { destruct J6 as [L0 E2]. apply Forall_forall. intros x Hx. apply Haf. rewrite E2. set_solver. }
  destruct J6 as [L0 E2]. pose proof HC2 as HC2'. rewrite E2 chain_app in HC2'. destruct HC2' as [_ HCR].
  destruct (join_left p sp bp n1 R (set_hmem m1 h)) as (m2 & Hrun2 & HC3 & Hout2);
    [lia|lia|done|done|lia|done| |done|done|by apply (head_after (bp + 8 * n)); [lia|lia|lia|]| |done|].
  { rewrite /= (load32_frame (h_mem h) m1); [intros x Hx; apply J5; lia|done]. }
  { apply (chain_frame (h_mem h)); [|done]. intros a s x Hin Hx. apply J5.
    apply (proj1 (Forall_forall _ _) HafR) in Hin as [Hin _]. simpl in Hin. lia. }
  assert (∀ x, ¬ p ≤ x < p + 8 → ¬ bp ≤ x < bp + 8 → byte m2 x = byte (h_mem h) x) as Hout.
  { intros x H1 H2. rewrite Hout2 //. by apply J5. }
  assert (∀ x, x ∈ L1 → x.1 + 8 ≤ p) as HL1.
  { intros x Hx. rewrite EL in HS. apply StronglySorted_app in HS as (HS & _). apply (HS x (p, sp) Hx), list_elem_of_here. }
  assert (bp + 8 * n1 ≤ h_brk h) as Hbr1.
  { destruct (proj2 (J8 (bp + 8 * n1 - 1))) as [?|(a & s & Hin & ?)]; [left; lia|lia|].
    rewrite EL in Hbrk. apply Forall_app in Hbrk as [_ [_ Hbrk]%Forall_cons].
    apply (proj1 (Forall_forall _ _) Hbrk) in Hin. simpl in Hin. lia. }
  exists (set_freep p (set_hmem m2 h)), (L1 ++ joined p sp bp n1 R).
  split_and!; [| |done| | | |].
  - rewrite /free Ep bind_gets (bind_Ok _ _ _ _ _ (free_scan_run h L bp (length L1) p sp HR ltac:(lia) Hj Hcut fuel Hf)).
    rewrite {1}/s_size bind_gets Hs {1}/s_ptr bind_gets Cp1 (bind_Ok _ _ _ _ _ Hrun1). exact Hrun2.
  - apply (ring_joined h L1 p sp L2); [by rewrite -EL| |by exists L0|done|done|lia|done|done].
    apply chain_app. split; [|done]. apply (chain_frame (h_mem h)).
    + intros a s x Hin Hx. specialize (HL1 _ Hin). simpl in HL1. apply Hout; lia.
    + replace (head_addr (joined p sp bp n1 R) base) with p; [exact HC1|]. rewrite /joined. by destruct (p + 8 * sp =? bp).
  - assert (length L = length L1 + S (length L0 + length R))%nat as -> by by rewrite EL E2 length_app /= length_app.
    rewrite length_app /joined. destruct (p + 8 * sp =? bp); simpl; lia.
  - intros x. rewrite EL !free_at_app free_at_cons free_at_joined; [lia|lia|]. specialize (J8 x). tauto.
  - rewrite /joined. destruct (p + 8 * sp =? bp); eexists _, _; (split; [apply elem_of_app; right|]).
    + apply list_elem_of_here.
    + lia.
    + apply list_elem_of_further, list_elem_of_here.
    + done.
  - intros x Hx Hb Hbx. apply Hout; [|done]. intros Hpx. destruct Hpp as [[-> ->]|[? ?]]; [done|].
    apply Hx. exists p, sp. split; [|lia]. rewrite EL. apply elem_of_app. right. apply list_elem_of_here.
Qed.

(** ** The allocator as its clients see it *)

(** The address [x] lies in the block [b], header included. *)
Definition in_block (b : Z * Z) (x : Z) : Prop := b.1 ≤ x < b.1 + 8 * b.2.

(** [A] is the list of the blocks handed out, by header address and units: they
    are apart from each other and from the free blocks. *)
Record heap_ok (h : arena) (L A : list (Z * Z)) : Prop := {
  ho_ring : ring h L;
  ho_blocks b : b ∈ A → 1 ≤ b.2 ∧ base + 8 ≤ b.1 ∧ b.1 + 8 * b.2 ≤ h_brk h ∧ load32 (h_mem h) (b.1 + 4) = b.2;
  ho_free b x : b ∈ A → in_block b x → ¬ free_at L x;
  ho_apart i j b c x : A !! i = Some b → A !! j = Some c → in_block b x → in_block c x → i = j
}.

(** Before the first call of malloc(), [freep] is 0. *)
Definition heap_inv (h : arena) (L A : list (Z * Z)) : Prop :=
  heap_ok h L A ∨ h_freep h = 0 ∧ L = [] ∧ A = [] ∧ 0 < base ∧ base + 8 ≤ h_brk h ≤ KERNBASE.

(** The memory a client may use in a block. *)
Definition kept (A : list (Z * Z)) (h h' : arena) : Prop :=
  ∀ b x, b ∈ A → in_block b x → byte (h_mem h') x = byte (h_mem h) x.

Lemma free_run fuel h L A i a n :
  heap_inv h L A → A !! i = Some (a, n) → (length L ≤ fuel)%nat →
  ∃ h' L', free fuel (a + 8) h = Ok tt h' ∧ heap_inv h' L' (delete i A) ∧ kept (delete i A) h h' ∧
    h_brk h' = h_brk h ∧ (length L' ≤ S (length L))%nat ∧
    StronglySorted before L' ∧ ∀ x, free_at L' x ↔ free_at L x ∨ in_block (a, n) x.
Proof.
  intros [HO|(_ & _ & -> & _)] Hi Hf; [|done]. assert ((a, n) ∈ A) as Hin by exact (list_elem_of_lookup_2 _ _ _ Hi).
  destruct (ho_blocks _ _ _ HO _ Hin) as (B1 & B2 & B3 & B4). simpl in *.
  destruct (free_block fuel h L a n) as (h' & L' & Hrun & HR & Hb & Hl & Hfr & _ & Hout); [apply HO|done..| |done|].
  { intros x Hx. by apply (ho_free _ _ _ HO (a, n)). }
  assert (∀ j b, delete i A !! j = Some b → ∃ j', A !! j' = Some b ∧ j' ≠ i ∧ (j' = j ∨ j' = S j) ∧ (j' = j ↔ (j < i)%nat)) as Hdel.
  { intros j b Hj. rewrite list_lookup_delete in Hj. destruct (decide (j < i)%nat); [exists j|exists (S j)]; split_and!; try done; lia. }
  assert (kept (delete i A) h h') as Hk.
  { intros b x (j & Hj)%list_elem_of_lookup Hx. destruct (Hdel j b Hj) as (j' & Hj' & Hne & _).
    assert (b ∈ A) as Hb' by exact (list_elem_of_lookup_2 _ _ _ Hj'). destruct (ho_blocks _ _ _ HO _ Hb') as (? & ? & ? & _).
    apply Hout; [by apply (ho_free _ _ _ HO b)|rewrite /in_block in Hx; lia|].
    intros Ha. apply Hne. apply (ho_apart _ _ _ HO j' i b (a, n) x); [done|done|done|]. rewrite /in_block /=. lia. }
  exists h', L'. split_and!; [done| |done|done|done|apply HR|done]. left. split; [done| | |].
  - intros b (j & Hj)%list_elem_of_lookup. destruct (Hdel j b Hj) as (j' & Hj' & _).
    assert (b ∈ A) as Hb' by exact (list_elem_of_lookup_2 _ _ _ Hj'). destruct (ho_blocks _ _ _ HO _ Hb') as (? & ? & ? & Es).
    rewrite Hb. split_and!; [done|done|done|]. rewrite -Es. apply load32_frame. intros x Hx. apply (Hk b); [exact (list_elem_of_lookup_2 _ _ _ Hj)|].
    rewrite /in_block. destruct (ho_blocks _ _ _ HO _ Hb') as (? & _). lia.
  - intros b x (j & Hj)%list_elem_of_lookup Hx. destruct (Hdel j b Hj) as (j' & Hj' & Hne & _). rewrite Hfr.
    intros [?|Ha]; [by apply (ho_free _ _ _ HO b x (list_elem_of_lookup_2 _ _ _ Hj'))|].
    apply Hne. by apply (ho_apart _ _ _ HO j' i b (a, n) x).
  - intros j1 j2 b c x H1 H2 Hx1 Hx2. destruct (Hdel _ _ H1) as (j1' & H1' & _ & ? & ?). destruct (Hdel _ _ H2) as (j2' & H2' & _ & ? & ?).
    assert (j1' = j2') by by apply (ho_apart _ _ _ HO j1' j2' b c x). lia.
Qed.

(** C31: free() of a block handed out makes exactly its memory free again, joined
    with the neighbours it touches, and changes no byte of the other blocks; the
    length of the free list bounds its search. *)
Theorem free_correct fuel h L A i a n :
  heap_inv h L A → A !! i = Some (a, n) → (length L ≤ fuel)%nat →
  ∃ h' L', free fuel (a + 8) h = Ok tt h' ∧ heap_inv h' L' (delete i A) ∧ kept (delete i A) h h' ∧
    h_brk h' = h_brk h ∧ (length L' ≤ S (length L))%nat ∧
    StronglySorted before L' ∧ ∀ x, free_at L' x ↔ free_at L x ∨ in_block (a, n) x.
Proof. apply free_run. Qed.

(** ** malloc(): the search *)

(** The loop variables [(prevp, p)] of malloc() at block [i]. *)
Definition stands (L : list (Z * Z)) (i : nat) (v : Z * Z) : Prop :=
  (∃ s, L !! i = Some (v.2, s)) ∧ match i with O => True | S i' => ∃ s, L !! i' = Some (v.1, s) end.

(** The block after block [i] on the ring. *)
Definition succ_of (L : list (Z * Z)) (i : nat) : nat := if (S i <? length L)%nat then S i else 0%nat.

(** [grant] as in sbrk(). *)
Context (grant : Z → Z → bool).
Local Notation malloc_step := (malloc_step grant).
Local Notation morecore := (morecore grant).
Local Notation malloc := (malloc base grant).

Section search.
Context (h : arena) (L : list (Z * Z)) (k : nat) (fuel0 : nat) (nunits sk : Z).
Hypothesis HR : ring h L.
Hypothesis Hk : L !! k = Some (h_freep h, sk).

Lemma ring_next i a s : L !! i = Some (a, s) →
  s_ptr a h = Ok (match L !! S i with Some x => x.1 | None => base end) h ∧ s_size a h = Ok s h.
Proof.
  intros Hi. destruct (chain_lookup _ _ _ _ _ _ (rg_chain _ _ HR) Hi) as [H1 H2].
  by rewrite /s_ptr /s_size /gets H1 H2 head_drop.
Qed.

Lemma stands_next i a s : L !! i = Some (a, s) →
  stands L (succ_of L i) (a, match L !! S i with Some x => x.1 | None => base end).
Proof.
  intros Hi. rewrite /succ_of. destruct (Nat.ltb_spec (S i) (length L)) as [Hl|Hl].
  - destruct (lookup_lt_is_Some_2 L (S i) Hl) as [[b t] Hb]. rewrite Hb. split; simpl; eauto.
  - rewrite (lookup_ge_None_2 L (S i)); [lia|]. destruct (rg_base _ _ HR) as (L' & EL & _).
    split; [|done]. exists 0. by rewrite EL.
Qed.

Lemma freep_index i a s : L !! i = Some (a, s) → a = h_freep h → i = k.
Proof.
  intros Hi ->. pose proof (rg_sorted _ _ HR) as HS.
  destruct (decide (i = k)) as [|Hne]; [done|].
  destruct (decide (i < k)%nat) as [Hlt|Hge].
  - destruct (before_lookup L i k _ _ HS Hlt Hi Hk) as [H _]. simpl in H. lia.
  - destruct (before_lookup L k i _ _ HS ltac:(lia) Hk Hi) as [H _]. simpl in H. lia.
Qed.

(** A block that is too small is passed over. *)
Lemma malloc_step_skip i v s :
  stands L i v → L !! i = Some (v.2, s) → s < nunits → i ≠ k →
  ∃ v', malloc_step fuel0 nunits v h = Ok (inl v') h ∧ stands L (succ_of L i) v'.
Proof.
  intros _ Hi Hs Hne. destruct v as [q a]. simpl in Hi. destruct (ring_next i a s Hi) as [H1 H2].
  eexists. split; [|exact (stands_next i a s Hi)].
  rewrite /malloc_step (bind_Ok _ _ _ _ _ H2). replace (s >=? nunits) with false by lia. rewrite bind_gets.
  rewrite (proj2 (Z.eqb_neq _ _)); [intros E; by apply Hne, (freep_index i a s)|]. by rewrite (bind_Ok _ _ _ _ _ H1).
Qed.

(** The search stops at block [f]: it is large enough, or it is the block the
    search ends with, and none of the blocks [P] was large enough. *)
Definition stops (P : nat → Prop) (f : nat) : Prop :=
  (∃ a s, L !! f = Some (a, s) ∧ nunits ≤ s) ∨
  f = k ∧ ∀ i a s, P i → L !! i = Some (a, s) → s < nunits.

Lemma search_up d i v fuel :
  stands L i v → (i + d = k)%nat → (d < fuel)%nat →
  ∃ d' f v', (d' ≤ d)%nat ∧ stands L f v' ∧ stops (λ j, i ≤ j ≤ k)%nat f ∧
    loop fuel (malloc_step fuel0 nunits) v h = loop (fuel - d') (malloc_step fuel0 nunits) v' h.
Proof.
  revert i v fuel. induction d as [|d IH]; intros i v fuel Hst Hd Hf; pose proof Hst as [[s Hi] _];
    (destruct (decide (nunits ≤ s)); [exists 0%nat, i, v; rewrite Nat.sub_0_r; split_and!; [lia|done|left; eauto|done]|]).
  - exists 0%nat, i, v. rewrite Nat.sub_0_r. split_and!; [lia|done| |done]. right. split; [lia|].
    intros j a t Hj Ht. replace j with i in Ht by lia. rewrite Hi in Ht. injection Ht as _ <-. lia.
  - destruct (malloc_step_skip i v s Hst Hi ltac:(lia) ltac:(lia)) as (v1 & Hrun & Hst1).
    apply lookup_lt_Some in Hk as Hkl. rewrite /succ_of (proj2 (Nat.ltb_lt _ _)) in Hst1; [lia|].
    destruct fuel as [|fuel]; [lia|].
    destruct (IH (S i) v1 fuel Hst1) as (d' & f & v' & ? & ? & Hstop & Hl); [lia|lia|].
    exists (S d'), f, v'. split_and!; [lia|done| |by rewrite (loop_S _ _ _ _ _ _ Hrun)].
    destruct Hstop as [?|[-> Hno]]; [by left|right]. split; [done|]. intros j a t Hj Ht.
    destruct (decide (j = i)) as [->|]; [rewrite Hi in Ht; injection Ht as _ <-; lia|]. apply (Hno j a t); [lia|done].
Qed.

Lemma search_around d i v fuel :
  stands L i v → (i + d = length L)%nat → (k < i)%nat → (d + k < fuel)%nat →
  ∃ d' f v', (d' ≤ d + k)%nat ∧ stands L f v' ∧ stops (λ j, i ≤ j ∨ j ≤ k)%nat f ∧
    loop fuel (malloc_step fuel0 nunits) v h = loop (fuel - d') (malloc_step fuel0 nunits) v' h.
Proof.
  revert i v fuel. induction d as [|d IH]; intros i v fuel Hst Hd Hki Hf; pose proof Hst as [[s Hi] _].
  { apply lookup_lt_Some in Hi. lia. }
  destruct (decide (nunits ≤ s)); [exists 0%nat, i, v; rewrite Nat.sub_0_r; split_and!; [lia|done|left; eauto|done]|].
  destruct (malloc_step_skip i v s Hst Hi ltac:(lia) ltac:(lia)) as (v1 & Hrun & Hst1).
  destruct fuel as [|fuel]; [lia|]. rewrite /succ_of in Hst1. destruct (Nat.ltb_spec (S i) (length L)) as [Hl|Hl].
  - destruct (IH (S i) v1 fuel Hst1) as (d' & f & v' & ? & ? & Hstop & Hlp); [lia|lia|lia|].
    exists (S d'), f, v'. split_and!; [lia|done| |by rewrite (loop_S _ _ _ _ _ _ Hrun)].
    destruct Hstop as [?|[-> Hno]]; [by left|right]. split; [done|]. intros j a t Hj Ht.
    destruct (decide (j = i)) as [->|]; [rewrite Hi in Ht; injection Ht as _ <-; lia|]. apply (Hno j a t); [lia|done].
  - destruct (search_up k 0 v1 fuel Hst1) as (d' & f & v' & ? & ? & Hstop & Hlp); [lia|lia|].
    exists (S d'), f, v'. split_and!; [lia|done| |by rewrite (loop_S _ _ _ _ _ _ Hrun)].
    destruct Hstop as [?|[-> Hno]]; [by left|right]. split; [done|]. intros j a t Hj Ht.
    destruct (decide (j = i)) as [->|]; [rewrite Hi in Ht; injection Ht as _ <-; lia|].
    apply (Hno j a t); [|done]. apply lookup_lt_Some in Ht. lia.
Qed.

(** From the block after [freep], every block is looked at. *)
Lemma search_all v fuel :
  stands L (succ_of L k) v → (length L ≤ fuel)%nat →
  ∃ d' f v', (d' < length L)%nat ∧ stands L f v' ∧ stops (λ _, True) f ∧
    loop fuel (malloc_step fuel0 nunits) v h = loop (fuel - d') (malloc_step fuel0 nunits) v' h.
Proof.
  intros Hst Hf. apply lookup_lt_Some in Hk as Hkl. rewrite /succ_of in Hst. destruct (Nat.ltb_spec (S k) (length L)) as [Hl|Hl].
  - destruct (search_around (length L - S k) (S k) v fuel Hst) as (d' & f & v' & ? & ? & Hstop & Hlp); [lia|lia|lia|].
    exists d', f, v'. split_and!; [lia|done| |done]. destruct Hstop as [?|[-> Hno]]; [by left|right].
    split; [done|]. intros j a t _. apply Hno. lia.
  - destruct (search_up k 0 v fuel Hst) as (d' & f & v' & ? & ? & Hstop & Hlp); [lia|lia|].
    exists d', f, v'. split_and!; [lia|done| |done]. destruct Hstop as [?|[-> Hno]]; [by left|right].
    split; [done|]. intros j a t _ Ht. apply (Hno j a t); [|done]. apply lookup_lt_Some in Ht. lia.
Qed.

End search.

(** ** malloc(): taking a block *)

(** What is left of a block [(a, s)] of which [n] units are taken. *)
Definition rest_of (a s n : Z) : list (Z * Z) := if s =? n then [] else [(a, s - n)].

Lemma sorted_shrink L0 q sq a s n L2 :
  1 ≤ n ≤ s → StronglySorted before (L0 ++ (q, sq) :: (a, s) :: L2) →
  StronglySorted before (L0 ++ (q, sq) :: rest_of a s n ++ L2).
Proof.
  intros Hn. rewrite /rest_of. rewrite !StronglySorted_app. intros (H1 & H2 & H3). split_and!; [|done|].
  - intros x y Hx Hy. destruct (Z.eqb_spec s n); simpl in Hy.
    + apply H1; [done|]. set_solver.
    + apply elem_of_cons in Hy as [->|[->|Hy]%elem_of_cons]; [apply H1; [done|set_solver]| |apply H1; [done|set_solver]].
      apply (H1 x (a, s) Hx). set_solver.
  - rewrite !StronglySorted_cons in H3 |- *. destruct H3 as ([Hqa HqL]%Forall_cons & Ha & HL).
    destruct (Z.eqb_spec s n); simpl; [done|]. rewrite StronglySorted_cons. split_and!; [by constructor| |done].
    apply (Forall_impl _ _ _ Ha). rewrite /before /=. intros y. lia.
Qed.

Lemma ring_shrink h L0 q sq a s n L2 m :
  1 ≤ n ≤ s → ring h (L0 ++ (q, sq) :: (a, s) :: L2) → chain m (L0 ++ (q, sq) :: rest_of a s n ++ L2) base →
  ring (set_freep q (set_hmem m h)) (L0 ++ (q, sq) :: rest_of a s n ++ L2).
Proof.
  intros Hn HR HC. destruct (rg_bound _ _ HR) as (Hb0 & Hbrk & Hb1).
  split; [done| |by apply sorted_shrink, HR|exists (length L0), sq; by rewrite lookup_app_r // Nat.sub_diag|].
  - destruct (rg_base _ _ HR) as (L' & EL & HL').
    assert (∀ X, Forall (λ x : Z * Z, 1 ≤ x.2) ((a, s) :: X) → Forall (λ x, 1 ≤ x.2) (rest_of a s n ++ X)) as Hrest.
    { intros X [? ?]%Forall_cons. rewrite /rest_of. destruct (Z.eqb_spec s n); [done|]. constructor; [simpl in *; lia|done]. }
    destruct L0 as [|x L0].
    + injection EL as -> -> <-. exists (rest_of a s n ++ L2). split; [done|]. by apply Hrest.
    + injection EL as -> <-. exists (L0 ++ (q, sq) :: rest_of a s n ++ L2). split; [done|].
      rewrite Forall_app Forall_cons in HL'. rewrite Forall_app Forall_cons. destruct HL' as (? & ? & ?).
      split_and!; [done|done|]. by apply Hrest.
  - split_and!; [done| |apply Hb1|apply Hb1]. simpl. rewrite !Forall_app !Forall_cons in Hbrk |- *.
    destruct Hbrk as (? & ? & ? & ?). split_and!; [done|done|]. rewrite /rest_of.
    destruct (Z.eqb_spec s n); [done|]. constructor; [simpl in *; lia|done].
Qed.

(** From [h] to [h'], the block of [n] units whose header is 8 bytes below [r] was
    taken from the free blocks. *)
Record taken (h : arena) (L : list (Z * Z)) (n r : Z) (h' : arena) (L' : list (Z * Z)) : Prop := {
  tk_ring : ring h' L';
  tk_brk : h_brk h' = h_brk h;
  tk_size : load32 (h_mem h') (r - 8 + 4) = n;
  tk_range : base + 8 ≤ r - 8 ∧ r - 8 + 8 * n ≤ h_brk h;
  tk_free x : free_at L x ↔ free_at L' x ∨ r - 8 ≤ x < r - 8 + 8 * n;
  tk_apart x : r - 8 ≤ x < r - 8 + 8 * n → ¬ free_at L' x;
  tk_frame x : ¬ free_at L x → ¬ base ≤ x < base + 8 → byte (h_mem h') x = byte (h_mem h) x
}.

Lemma free_at_rest a s n x : 1 ≤ n ≤ s →
  a ≤ x < a + 8 * s ↔ free_at (rest_of a s n) x ∨ a + 8 * (s - n) ≤ x < a + 8 * (s - n) + 8 * n.
Proof.
  intros Hn. rewrite /rest_of. destruct (Z.eqb_spec s n).
  - split; [intros ?; right; lia|]. intros [(b & t & ?%elem_of_nil & _)|?]; [done|lia].
  - rewrite free_at_cons. split.
    + intros ?. destruct (decide (x < a + 8 * (s - n))); [left; left; lia|right; lia].
    + intros [[?|(b & t & ?%elem_of_nil & _)]|?]; [lia|done|lia].
Qed.

(** A sorted list's blocks do not overlap. *)
Lemma split_apart L1 a s L2 x :
  1 ≤ s → StronglySorted before (L1 ++ (a, s) :: L2) → a ≤ x < a + 8 * s → ¬ free_at (L1 ++ L2) x.
Proof.
  intros Hs (H1 & _ & [HB _]%StronglySorted_cons)%StronglySorted_app Hx (b & t & [Hin|Hin]%elem_of_app & Hb).
  - destruct (H1 (b, t) (a, s) Hin (list_elem_of_here _ _)) as [_ ?]. simpl in *. lia.
  - apply (proj1 (Forall_forall _ _) HB) in Hin as [_ ?]. simpl in *. lia.
Qed.

Lemma taken_intro h L0 q sq a s L2 n m :
  1 ≤ n ≤ s → ring h (L0 ++ (q, sq) :: (a, s) :: L2) →
  chain m (L0 ++ (q, sq) :: rest_of a s n ++ L2) base → load32 m (a + 8 * (s - n) + 4) = n →
  (∀ x, ¬ q ≤ x < q + 8 → ¬ a ≤ x < a + 8 * s → byte m x = byte (h_mem h) x) →
  taken h (L0 ++ (q, sq) :: (a, s) :: L2) n (a + 8 * (s - n) + 8)
    (set_freep q (set_hmem m h)) (L0 ++ (q, sq) :: rest_of a s n ++ L2).
Proof.
  intros Hn HR HC Hs Hout. assert ((a, s) ∈ L0 ++ (q, sq) :: (a, s) :: L2) as Hin by set_solver.
  assert ((q, sq) ∈ L0 ++ (q, sq) :: (a, s) :: L2) as Hinq by set_solver.
  destruct (ring_blocks _ _ _ HR Hin) as [[= -> ->]|(B1 & B2 & B3)]; simpl in *; [lia|].
  replace (a + 8 * (s - n) + 8 - 8) with (a + 8 * (s - n)) in * by lia.
  assert (∀ x, a ≤ x < a + 8 * s → ¬ free_at (L0 ++ (q, sq) :: L2) x) as Hap.
  { intros x Hx. pose proof (rg_sorted _ _ HR) as HS.
    replace (L0 ++ (q, sq) :: L2) with ((L0 ++ [(q, sq)]) ++ L2) by by rewrite -app_assoc.
    replace (L0 ++ (q, sq) :: (a, s) :: L2) with ((L0 ++ [(q, sq)]) ++ (a, s) :: L2) in HS by by rewrite -app_assoc.
    apply (split_apart _ a s); [lia|done|done]. }
  split; rewrite ?Z.add_simpl_r; [by apply ring_shrink|done|done|lia| | |].
  - intros x. rewrite !free_at_app !free_at_cons free_at_app (free_at_rest a s n x Hn). tauto.
  - intros x Hx Hf. assert (a ≤ x < a + 8 * s) as Hx' by lia. apply (Hap x Hx').
    rewrite free_at_app free_at_cons free_at_app in Hf. rewrite free_at_app free_at_cons.
    destruct Hf as [?|[?|[Hf|?]]]; [tauto|tauto| |tauto]. exfalso. rewrite /rest_of in Hf.
    destruct (Z.eqb_spec s n); [by destruct Hf as (? & ? & ?%elem_of_nil & _)|].
    apply free_at_cons in Hf as [?|(? & ? & ?%elem_of_nil & _)]; [lia|done].
  - intros x Hf Hb. apply Hout.
    + intros Hq. destruct (ring_blocks _ _ _ HR Hinq) as [[= -> ->]|(C1 & C2 & C3)]; [done|]. simpl in *.
      apply Hf. exists q, sq. split; [done|lia].
    + intros Hx. apply Hf. by exists a, s.
Qed.

(** Unlinking a block that fits exactly, or cutting off the end of a larger one. *)
Lemma take_block h L0 q sq a s L2 n :
  ring h (L0 ++ (q, sq) :: (a, s) :: L2) → 1 ≤ n ≤ s →
  ∃ m, (p' ← (if s =? n then q0 ← s_ptr a; set_ptr q q0;; mret a
              else set_size a (s - n);; k ← s_size a; set_size (padd a k) n;; mret (padd a k));
        modify (set_freep q);; mret (inr (padd p' 1) : Z * Z + Z)) h
       = Ok (inr (a + 8 * (s - n) + 8)) (set_freep q (set_hmem m h)) ∧
    chain m (L0 ++ (q, sq) :: rest_of a s n ++ L2) base ∧ load32 m (a + 8 * (s - n) + 4) = n ∧
    ∀ x, ¬ q ≤ x < q + 8 → ¬ a ≤ x < a + 8 * s → byte m x = byte (h_mem h) x.
Proof.
  intros HR Hn. assert ((a, s) ∈ L0 ++ (q, sq) :: (a, s) :: L2) as Hin by set_solver.
  destruct (ring_blocks _ _ _ HR Hin) as [[= -> ->]|(B1 & B2 & B3)]; simpl in *; [lia|].
  destruct (rg_bound _ _ HR) as (Hb0 & _ & Hb1). rewrite /KERNBASE in Hb1.
  pose proof (rg_chain _ _ HR) as HC. pose proof (rg_sorted _ _ HR) as HS.
  rewrite chain_app in HC. destruct HC as (HC0 & Cq1 & Cq2 & Ca1 & Ca2 & HC2). simpl in Cq1, HC0.
  apply StronglySorted_app in HS as (HS0 & _ & [[[Hqa _] _]%Forall_cons [HS2 _]%StronglySorted_cons]%StronglySorted_cons). simpl in Hqa.
  assert (∀ x, x ∈ L0 → x.1 + 8 ≤ q) as HL0 by (intros x Hx; apply (HS0 x (q, sq) Hx), list_elem_of_here).
  rewrite Forall_forall in HS2.
  assert (∀ m, (∀ x, ¬ q ≤ x < q + 8 → ¬ a ≤ x < a + 8 * s → byte m x = byte (h_mem h) x) →
    chain m L0 q ∧ chain m L2 base) as Hkeep.
  { intros m Hm. split; (apply (chain_frame (h_mem h)); [|done]); intros b t x Hx Hb; apply Hm.
    1-2: specialize (HL0 _ Hx); simpl in *; lia.
    all: specialize (HS2 _ Hx) as [_ ?]; simpl in *; lia. }
  assert (0 < head_addr L2 base < 2 ^ 32) as Hh.
  { apply (head_after (a + 8 * s)); [lia|lia|rewrite /KERNBASE; lia|]. apply Forall_forall. intros x Hx.
    specialize (HS2 _ Hx) as [_ ?]. assert (x ∈ L0 ++ (q, sq) :: (a, s) :: L2) as Hx' by set_solver.
    destruct (ring_blocks _ _ _ HR Hx') as [->|?]; simpl in *; [lia|]. rewrite /after /KERNBASE. lia. }
  rewrite /s_ptr /s_size /set_ptr /set_size /rest_of /padd /hdr_size.
  destruct (Z.eqb_spec s n) as [->|Hne].
  - rewrite bind_assoc bind_gets bind_assoc !bind_modify bind_ret bind_modify Ca1.
    replace (a + 8 * (n - n)) with a by lia. rewrite Z.mul_1_r u32_id; [lia|].
    exists (store32 (h_mem h) q (head_addr L2 base)).
    assert (∀ x, ¬ q ≤ x < q + 8 → ¬ a ≤ x < a + 8 * n → byte (store32 (h_mem h) q (head_addr L2 base)) x = byte (h_mem h) x) as Hm
      by (intros x Hq _; rewrite byte_store32_out //; lia).
    destruct (Hkeep _ Hm) as [K0 K2]. split_and!; [done| |by rewrite load32_store32_ne; [lia|]|done].
    apply chain_app. simpl. rewrite load32_store32 u32_id; [lia|]. by rewrite load32_store32_ne; [lia|].
  - rewrite bind_assoc bind_modify bind_assoc bind_gets bind_assoc bind_modify bind_ret bind_modify /=.
    rewrite load32_store32 (u32_id (s - n)); [lia|]. rewrite (u32_id (a + 8 * (s - n))); [lia|].
    rewrite Z.mul_1_r u32_id; [lia|]. set (c := a + 8 * (s - n)).
    assert (a + 8 ≤ c ∧ c + 8 ≤ a + 8 * s) as Hc by (rewrite /c; lia).
    exists (store32 (store32 (h_mem h) (a + 4) (s - n)) (c + 4) n).
    assert (∀ x, ¬ q ≤ x < q + 8 → ¬ a ≤ x < a + 8 * s →
      byte (store32 (store32 (h_mem h) (a + 4) (s - n)) (c + 4) n) x = byte (h_mem h) x) as Hm
      by (intros x _ Ha; rewrite !byte_store32_out //; lia).
    destruct (Hkeep _ Hm) as [K0 K2]. split_and!; [done| |by rewrite load32_store32 u32_id; [lia|]|done].
    apply chain_app. simpl. split_and!; [done| | | | |done].
    1-3: rewrite !load32_store32_ne; [lia..|done].
    rewrite load32_store32_ne; [lia|]. rewrite load32_store32 u32_id //. lia.
Qed.

(** The search at a block that is large enough. *)
Lemma malloc_fit fuel0 h L f v s n :
  ring h L → stands L f v → L !! f = Some (v.2, s) → 1 ≤ n ≤ s →
  ∃ r h' L', malloc_step fuel0 n v h = Ok (inr r) h' ∧ taken h L n r h' L' ∧ (length L' ≤ length L)%nat.
Proof.
  intros HR [_ Hprev] Hf Hn. destruct (rg_base _ _ HR) as (L' & EL & _). destruct v as [q a]. simpl in *.
  destruct f as [|f]; [rewrite EL in Hf; injection Hf; lia|]. destruct Hprev as [sq Hq].
  assert (L = take f L ++ (q, sq) :: (a, s) :: drop (S (S f)) L) as E.
  { rewrite -{1}(take_drop_middle L f (q, sq) Hq). do 2 f_equal.
    rewrite -(take_drop_middle (drop (S f) L) 0 (a, s)); [by rewrite lookup_drop Nat.add_0_r|]. simpl. by rewrite drop_drop Nat.add_1_r. }
  destruct (ring_next h L HR (S f) a s Hf) as [_ Hs].
  set (L0 := take f L) in E. set (L2 := drop (S (S f)) L) in E. clearbody L0 L2. rewrite E in HR |- *.
  destruct (take_block h L0 q sq a s L2 n HR Hn) as (m & Hrun & M1 & M2 & M3).
  eexists _, _, _. split_and!; [|exact (taken_intro h L0 q sq a s L2 n m Hn HR M1 M2 M3)|].
  - rewrite /malloc_step (bind_Ok _ _ _ _ _ Hs). replace (s >=? n) with true by lia. exact Hrun.
  - rewrite !length_app /= length_app /rest_of. destruct (s =? n); simpl; lia.
Qed.

(** ** malloc(): more memory *)

Section grants.

(** The kernel keeps a program below KERNBASE (allocuvm() refuses more). *)
Hypothesis grant_ok : ∀ n b, grant n b = true → b + n < KERNBASE.

(** The units asked of the kernel for a request of [n]. *)
Definition core_units (n : Z) : Z := Z.max 4096 n.

Lemma head_below h L a s x : ring h L → (a, s) ∈ L → a ≤ x < a + 8 → x < h_brk h.
Proof.
  intros HR Hin Hx. destruct (rg_bound _ _ HR) as (_ & _ & Hb).
  destruct (ring_blocks _ _ _ HR Hin) as [[= -> ->]|?]; simpl in *; lia.
Qed.

Lemma ring_extend h L m b :
  ring h L → (∀ x, x < h_brk h → byte m x = byte (h_mem h) x) → h_brk h ≤ b ≤ KERNBASE →
  ring (Arena m (h_freep h) b) L.
Proof.
  intros HR Hm Hb. destruct (rg_bound _ _ HR) as (H1 & H2 & H3). split.
  - apply (chain_frame (h_mem h)); [|apply HR]. intros a s x Hin Hx. by apply Hm, (head_below h L a s).
  - apply HR.
  - apply HR.
  - apply HR.
  - split_and!; [done| |simpl; lia|simpl; lia]. apply (Forall_impl _ _ _ H2). simpl. lia.
Qed.

(** From [h] to [h'], the break moved up and the memory gained is free. *)
Record grew (h : arena) (L : list (Z * Z)) (n : Z) (h' : arena) (L' : list (Z * Z)) : Prop := {
  gw_ring : ring h' L';
  gw_brk : h_brk h' = h_brk h + 8 * n;
  gw_len : (length L' ≤ S (length L))%nat;
  gw_free x : free_at L' x ↔ free_at L x ∨ h_brk h ≤ x < h_brk h + 8 * n;
  gw_fit : ∃ a s, (a, s) ∈ L' ∧ n ≤ s;
  gw_frame x : ¬ free_at L x → ¬ base ≤ x < base + 8 → x < h_brk h → byte (h_mem h') x = byte (h_mem h) x
}.

Lemma morecore_run fuel h L n :
  ring h L → 1 ≤ n → 8 * n < 2 ^ 31 → (length L ≤ fuel)%nat →
  if grant (8 * core_units n) (h_brk h)
  then ∃ h' L', morecore fuel n h = Ok (h_freep h') h' ∧ grew h L (core_units n) h' L'
  else morecore fuel n h = Ok 0 h.
Proof.
  intros HR Hn Hn31 Hf. destruct (rg_bound _ _ HR) as (Hb0 & Hbl & Hb1). pose proof Hb1 as Hb2. rewrite /KERNBASE in Hb2.
  rewrite /morecore. replace (if n <? 4096 then 4096 else n) with (core_units n) by (rewrite /core_units; destruct (n <? 4096) eqn:?; lia).
  set (nu := core_units n). assert (4096 ≤ nu ∧ n ≤ nu ∧ 8 * nu < 2 ^ 31) as Hnu by (rewrite /nu /core_units; lia).
  replace (s32 (nu * hdr_size)) with (8 * nu) by (rewrite /hdr_size s32_id; lia).
  rewrite /sbrk bind_assoc bind_gets. destruct (grant (8 * nu) (h_brk h)) eqn:Hg; [|done].
  apply grant_ok in Hg as Hlt. rewrite /KERNBASE in Hlt. rewrite bind_assoc bind_modify bind_ret.
  change (u32 (-1)) with 4294967295. replace (h_brk h =? 4294967295) with false by lia. rewrite u32_id; [lia|].
  rewrite /set_size bind_modify. replace (padd (h_brk h) 1) with (h_brk h + 8) by (rewrite /padd /hdr_size u32_id; lia).
  set (h1 := set_hmem _ _). assert (h1 = Arena (store32 (h_mem h) (h_brk h + 4) nu) (h_freep h) (h_brk h + 8 * nu)) as E1 by done.
  assert (ring h1 L) as HR1.
  { rewrite E1. apply ring_extend; [done| |rewrite /KERNBASE; lia]. intros x Hx. apply byte_store32_out. lia. }
  destruct (free_block fuel h1 L (h_brk h) nu) as (h2 & L2 & Hrun & HR2 & B2 & Hl2 & Hfr & (a & s & Hin & Hs) & Hout);
    [done|lia|lia|rewrite E1 /=; lia|by rewrite E1 /= load32_store32 u32_id; [lia|]| |done|].
  { intros x Hx (a & s & Hin & Hxa). apply (proj1 (Forall_forall _ _) Hbl) in Hin. simpl in Hin. lia. }
  exists h2, L2. split; [by rewrite (bind_Ok _ _ _ _ _ Hrun)|]. split.
  - done.
  - by rewrite B2 E1.
  - done.
  - done.
  - exists a, s. split; [done|lia].
  - intros x H1 H2 H3. rewrite Hout; [done|done|lia|]. rewrite E1 /=. apply byte_store32_out. lia.
Qed.

(** The whole search when some block is large enough. *)
Lemma malloc_found h L k sk n fuel0 fuel v :
  ring h L → L !! k = Some (h_freep h, sk) → stands L (succ_of L k) v → 1 ≤ n → (length L ≤ fuel)%nat →
  (∃ a s, (a, s) ∈ L ∧ n ≤ s) →
  ∃ r h' L', loop fuel (malloc_step fuel0 n) v h = Ok r h' ∧ taken h L n r h' L' ∧ (length L' ≤ length L)%nat.
Proof.
  intros HR Hk Hst Hn Hf (a & s & [i Hi]%list_elem_of_lookup & Hs).
  destruct (search_all h L k fuel0 n sk HR Hk v fuel Hst Hf) as (d & f & v' & Hd & Hst' & [(b & t & Hb & Ht)|[_ Hno]] & ->).
  2:{ specialize (Hno i a s I Hi). lia. }
  destruct Hst' as [[t' Hf'] Hprev]. rewrite Hf' in Hb. injection Hb as <- <-.
  destruct (malloc_fit fuel0 h L f v' t' n) as (r & h' & L' & Hrun & Htk); [done|split; [by exists t'|done]|done|lia|].
  exists r, h', L'. split; [|done]. destruct (fuel - d)%nat as [|fuel'] eqn:E; [lia|]. by apply loop_done.
Qed.

(** The three ways malloc()'s loop ends. *)
Inductive outcome_of (h : arena) (L : list (Z * Z)) (n r : Z) (h' : arena) : Prop :=
| Fits L' : taken h L n r h' L' → (length L' ≤ S (length L))%nat → outcome_of h L n r h'
| Grows h1 L1 L' : grew h L (core_units n) h1 L1 → taken h1 L1 n r h' L' → (length L' ≤ S (length L))%nat → outcome_of h L n r h'
| Refused : grant (8 * core_units n) (h_brk h) = false → (∀ a s, (a, s) ∈ L → s < n) → r = 0 → h' = h → outcome_of h L n r h'.

Lemma malloc_search h L k sk n fuel0 fuel v :
  ring h L → L !! k = Some (h_freep h, sk) → stands L (succ_of L k) v → 1 ≤ n → 8 * n < 2 ^ 31 →
  (length L ≤ fuel0)%nat → (2 * length L + 2 ≤ fuel)%nat →
  ∃ r h', loop fuel (malloc_step fuel0 n) v h = Ok r h' ∧ outcome_of h L n r h'.
Proof.
  intros HR Hk Hst Hn Hn31 Hf0 Hf. destruct (decide (Exists (λ x, n ≤ x.2) L)) as [Hex|Hex].
  { apply Exists_exists in Hex as ([a s] & Hin & Hs).
    destruct (malloc_found h L k sk n fuel0 fuel v) as (r & h' & L' & Hrun & Htk & Hl); [done..|lia|eauto|].
    exists r, h'. split; [done|]. apply (Fits _ _ _ _ _ L'); [done|lia]. }
  assert (∀ a s, (a, s) ∈ L → s < n) as Hno.
  { intros a s Hin. apply Z.nle_gt. intros Hs. apply Hex, Exists_exists. by exists (a, s). }
  destruct (search_all h L k fuel0 n sk HR Hk v fuel Hst) as (d & f & v' & Hd & Hst' & Hstop & ->); [lia|].
  assert (f = k) as ->.
  { destruct Hstop as [(a & s & Hi & Hs)|[? _]]; [|done]. apply list_elem_of_lookup_2, Hno in Hi. lia. }
  destruct Hst' as [[s Hv] _]. rewrite Hk in Hv. injection Hv as Ev <-.
  assert (sk < n) as Hsk by (apply (Hno (h_freep h)), (list_elem_of_lookup_2 _ _ _ Hk)).
  destruct (ring_next h L HR k _ _ Hk) as [_ Hsz].
  destruct (fuel - d)%nat as [|fuel'] eqn:Efuel; [lia|].
  pose proof (morecore_run fuel0 h L n HR Hn Hn31 Hf0) as Hmore.
  assert (malloc_step fuel0 n v' h = (p' ← morecore fuel0 n;
      if p' =? 0 then mret (inr 0) else nx ← s_ptr p'; mret (inl (p', nx))) h) as Estep.
  { rewrite /malloc_step. destruct v' as [q a]. simpl in Ev. subst a. rewrite (bind_Ok _ _ _ _ _ Hsz).
    replace (sk >=? n) with false by lia. by rewrite bind_gets Z.eqb_refl. }
  destruct (grant (8 * core_units n) (h_brk h)) eqn:Hg.
  - destruct Hmore as (h1 & L1 & Hrun & Hgr). destruct (rg_freep _ _ (gw_ring _ _ _ _ _ Hgr)) as (k1 & s1 & Hk1).
    rewrite (bind_Ok _ _ _ _ _ Hrun) in Estep. pose proof (gw_ring _ _ _ _ _ Hgr) as HR1.
    assert (h_freep h1 ≠ 0) as Hne.
    { destruct (rg_bound _ _ HR1) as (? & _ & _). apply list_elem_of_lookup_2 in Hk1.
      destruct (ring_blocks _ _ _ HR1 Hk1) as [[= -> _]|[? _]]; simpl in *; lia. }
    rewrite (proj2 (Z.eqb_neq _ _) Hne) (bind_Ok _ _ _ _ _ (proj1 (ring_next h1 L1 HR1 k1 _ _ Hk1))) in Estep.
    rewrite (loop_S _ _ _ _ _ _ Estep). pose proof (gw_len _ _ _ _ _ Hgr).
    destruct (gw_fit _ _ _ _ _ Hgr) as (a & s & Hin & Hs).
    destruct (malloc_found h1 L1 k1 s1 n fuel0 fuel' (h_freep h1, match L1 !! S k1 with Some x => x.1 | None => base end))
      as (r & h' & L' & Hrun' & Htk & Hl); [done|done|by apply (stands_next h1 L1 HR1 k1 _ s1)|done|lia| |].
    { exists a, s. split; [done|]. rewrite /core_units in Hs. lia. }
    exists r, h'. split; [done|]. apply (Grows _ _ _ _ _ h1 L1 L'); [done|done|lia].
  - exists 0, h. split; [|by apply Refused]. apply loop_done. by rewrite Estep (bind_Ok _ _ _ _ _ Hmore).
Qed.

Lemma heap_frame h L A h' b :
  heap_ok h L A → kept A h h' → b ∈ A → load32 (h_mem h') (b.1 + 4) = load32 (h_mem h) (b.1 + 4).
Proof.
  intros HO Hk Hb. destruct (ho_blocks _ _ _ HO b Hb) as (? & _). apply load32_frame. intros x Hx.
  apply (Hk b x Hb). rewrite /in_block. lia.
Qed.

(** The free memory an operation may use: the free blocks and what the break
    moved over. *)
Lemma heap_taken h L A h1 L1 n r h' L' :
  heap_ok h L A → ring h1 L1 → h_brk h ≤ h_brk h1 →
  (∀ x, free_at L1 x ↔ free_at L x ∨ h_brk h ≤ x < h_brk h1) → kept A h h1 → 1 ≤ n →
  taken h1 L1 n r h' L' → heap_ok h' L' ((r - 8, n) :: A) ∧ kept A h h'.
Proof.
  intros HO HR1 Hb Hfr Hk Hn [T1 T2 T3 [T4 T5] T6 T7 T8].
  assert (∀ b x, b ∈ A → in_block b x → ¬ free_at L1 x ∧ base + 8 ≤ x) as Hlive.
  { intros b x Hin Hx. destruct (ho_blocks _ _ _ HO b Hin) as (? & ? & ? & _). rewrite Hfr. rewrite /in_block in Hx. split; [|lia].
    intros [Hf|?]; [|lia]. by apply (ho_free _ _ _ HO b x Hin). }
  assert (kept A h h') as Hk'.
  { intros b x Hin Hx. destruct (Hlive b x Hin Hx) as [H1 H2]. rewrite T8 //; [lia|]. by apply Hk with b. }
  assert (∀ b x, b ∈ A → in_block b x → ¬ in_block (r - 8, n) x) as Hnew.
  { intros b x Hin Hx Hr. destruct (Hlive b x Hin Hx) as [H1 _]. apply H1, T6. by right. }
  split; [|done]. split; [done| | |].
  - intros b [->|Hin]%elem_of_cons; simpl; [split_and!; [done|lia|lia|done]|].
    rewrite (heap_frame h L A h' b HO Hk' Hin). destruct (ho_blocks _ _ _ HO b Hin) as (? & ? & ? & ?). split_and!; [done|done|lia|done].
  - intros b x [->|Hin]%elem_of_cons Hx; [by apply T7|]. destruct (Hlive b x Hin Hx) as [H1 _]. intros Hf. apply H1, T6. by left.
  - intros [|i] [|j] b c x Hi Hj Hbx Hcx; simpl in *; [done| | |].
    + injection Hi as <-. by destruct (Hnew c x (list_elem_of_lookup_2 _ _ _ Hj) Hcx).
    + injection Hj as <-. by destruct (Hnew b x (list_elem_of_lookup_2 _ _ _ Hi) Hbx).
    + f_equal. by apply (ho_apart _ _ _ HO i j b c x).
Qed.

(** The first call of malloc() makes [base] the only block of the list. *)
Lemma ring_init h :
  0 < base → base + 8 ≤ h_brk h ≤ KERNBASE →
  ring (set_hmem (store32 (store32 (h_mem h) base base) (base + 4) 0) (set_freep base h)) [(base, 0)].
Proof.
  intros H0 H1. rewrite /KERNBASE in H1. split; simpl.
  - rewrite load32_store32_ne; [lia|]. rewrite !load32_store32 !u32_id //. lia.
  - by exists [].
  - repeat constructor.
  - exists 0%nat, 0. done.
  - split_and!; [done| |lia|rewrite /KERNBASE; lia]. repeat constructor. simpl. lia.
Qed.

Definition units (nbytes : Z) : Z := (nbytes + 7) / 8 + 1.

Lemma units_spec nbytes : 0 ≤ nbytes < 2 ^ 31 - 16 →
  u32 (u32 (nbytes + hdr_size - 1) / hdr_size + 1) = units nbytes ∧
  1 ≤ units nbytes ∧ 8 * units nbytes < 2 ^ 31 ∧ nbytes ≤ 8 * (units nbytes - 1).
Proof.
  intros H. rewrite /units /hdr_size. rewrite (u32_id (nbytes + 8 - 1)); [lia|].
  replace (nbytes + 8 - 1) with (nbytes + 7) by lia. rewrite u32_id; Z.to_euclidean_division_equations; lia.
Qed.

(** malloc() on a list of free blocks. *)
Lemma malloc_ok fuel nbytes h L A :
  heap_ok h L A → 0 ≤ nbytes < 2 ^ 31 - 16 → (2 * length L + 2 ≤ fuel)%nat →
  ∃ r h' L', malloc fuel nbytes h = Ok r h' ∧ kept A h h' ∧ (length L' ≤ S (length L))%nat ∧
    (r ≠ 0 ∧ heap_ok h' L' ((r - 8, units nbytes) :: A) ∧
       (∀ x, free_at L' x ∨ in_block (r - 8, units nbytes) x ↔ free_at L x ∨ h_brk h ≤ x < h_brk h') ∨
     r = 0 ∧ L' = L ∧ h' = h ∧ grant (8 * core_units (units nbytes)) (h_brk h) = false ∧ ∀ a s, (a, s) ∈ L → s < units nbytes).
Proof.
  intros HO Hn Hf. pose proof (ho_ring _ _ _ HO) as HR. destruct (units_spec nbytes Hn) as (En & U1 & U2 & _).
  rewrite /malloc En bind_gets. set (n := units nbytes) in *. destruct (rg_freep _ _ HR) as (k & sk & Hk).
  destruct (rg_bound _ _ HR) as (Hb0 & _).
  assert (h_freep h ≠ 0) as Hne.
  { destruct (ring_blocks _ _ _ HR (list_elem_of_lookup_2 _ _ _ Hk)) as [[= -> _]|[? _]]; simpl in *; lia. }
  rewrite (proj2 (Z.eqb_neq _ _) Hne) bind_ret (bind_Ok _ _ _ _ _ (proj1 (ring_next h L HR k _ _ Hk))).
  destruct (malloc_search h L k sk n fuel fuel (h_freep h, match L !! S k with Some x => x.1 | None => base end))
    as (r & h' & Hrun & Hout); [done|done|by apply (stands_next h L HR k _ sk)|done|done|lia|done|].
  assert (∀ b x, b ∈ A → in_block b x → ¬ free_at L x ∧ base + 8 ≤ x ∧ x < h_brk h) as Hlive.
  { intros b x Hin Hx. destruct (ho_blocks _ _ _ HO b Hin) as (? & ? & ? & _).
    split; [by apply (ho_free _ _ _ HO b x)|]. rewrite /in_block in Hx. lia. }
  destruct Hout as [L' Htk Hl|h1 L1 L' Hgr Htk Hl|Hg Hno -> ->].
  - destruct (heap_taken h L A h L n r h' L') as [H1 H2]; [done|done|lia| |done|done|done|].
    { intros x. split; [by left|]. intros [?|?]; [done|lia]. }
    exists r, h', L'. split_and!; [done|done|lia|]. left. destruct Htk as [T1 T2 T3 T4 T5 T6 T7].
    split_and!; [lia|done|]. intros x. rewrite T5 T2 /in_block /=. split; [|intros [?|?]; [done|lia]]. by left.
  - destruct (heap_taken h L A h1 L1 n r h' L') as [H1 H2];
      [done|apply Hgr|rewrite (gw_brk _ _ _ _ _ Hgr) /core_units; lia| | |done|done|].
    { intros x. by rewrite (gw_brk _ _ _ _ _ Hgr) (gw_free _ _ _ _ _ Hgr). }
    { intros b x Hin Hx. destruct (Hlive b x Hin Hx) as (? & ? & ?). apply (gw_frame _ _ _ _ _ Hgr); [done|lia|lia]. }
    exists r, h', L'. split_and!; [done|done|done|]. left. destruct Htk as [T1 T2 T3 T4 T5 T6 T7].
    split_and!; [lia|done|]. intros x. by rewrite T2 (gw_brk _ _ _ _ _ Hgr) -(gw_free _ _ _ _ _ Hgr) T5.
  - exists 0, h, L. split_and!; [done|done|lia|]. by right.
Qed.

Lemma malloc_run fuel nbytes h L A :
  heap_inv h L A → 0 ≤ nbytes < 2 ^ 31 - 16 → (2 * length L + 4 ≤ fuel)%nat →
  ∃ r h' L', malloc fuel nbytes h = Ok r h' ∧ kept A h h' ∧ (length L' ≤ 2 + length L)%nat ∧
    (r ≠ 0 ∧ nbytes ≤ 8 * (units nbytes - 1) ∧ heap_inv h' L' ((r - 8, units nbytes) :: A) ∧
       (∀ x, free_at L' x ∨ in_block (r - 8, units nbytes) x ↔ free_at L x ∨ h_brk h ≤ x < h_brk h') ∨
     r = 0 ∧ heap_inv h' L' A ∧ (∀ x, free_at L' x ↔ free_at L x) ∧
       grant (8 * core_units (units nbytes)) (h_brk h) = false ∧ ∀ a s, (a, s) ∈ L' → s < units nbytes).
Proof.
  intros [HO|(Hf & -> & -> & Hb0 & Hb1)] Hn Hfuel; destruct (units_spec nbytes Hn) as (En & _ & _ & Hu).
  - destruct (malloc_ok fuel nbytes h L A HO Hn) as (r & h' & L' & Hrun & Hk & Hl & Hcase); [lia|].
    exists r, h', L'. split_and!; [done|done|lia|]. destruct Hcase as [(? & ? & ?)|(-> & -> & -> & ? & ?)]; [left|right].
    + split_and!; [done|done|by left|done].
    + split_and!; [done|by left|done|done|done].
  - set (h0 := set_hmem (store32 (store32 (h_mem h) base base) (base + 4) 0) (set_freep base h)).
    assert (heap_ok h0 [(base, 0)] []) as HO.
    { split; [by apply ring_init|by intros b ?%elem_of_nil|by intros b x ?%elem_of_nil|by intros i j b c x Hi]. }
    destruct (malloc_ok fuel nbytes h0 [(base, 0)] [] HO Hn) as (r & h' & L' & Hrun & Hk & Hl & Hcase); [simpl in *; lia|].
    assert (∀ x, free_at [(base, 0)] x ↔ free_at [] x) as Hz by (intros x; rewrite free_at_cons; split; [intros [?|?]; [lia|done]|by right]).
    exists r, h', L'. split_and!; [|by intros b x ?%elem_of_nil|simpl in *; lia|].
    { rewrite -Hrun /malloc !bind_gets Hf /= bind_assoc bind_modify bind_assoc bind_modify bind_assoc bind_modify !bind_ret.
      by rewrite (proj2 (Z.eqb_neq base 0)); [lia|]. }
    destruct Hcase as [(? & ? & Hfr)|(-> & -> & -> & ? & ?)]; [left|right].
    + split_and!; [done|done|by left|]. intros x. by rewrite Hfr Hz.
    + split_and!; [done|by left|done|done|done].
Qed.

(** C9: for a request below 2 GB less 16 bytes, malloc() hands out a block of its own:
    at least [nbytes] bytes, apart from all blocks handed out before, whose bytes it does not change; what it takes is
    taken from the free blocks or the memory gained from sbrk(), and nothing else
    is lost. It returns 0 only when no free block is large enough and the kernel
    refuses more memory. Twice the length of the free list, plus 4, bounds the
    turns of its loop. *)
Theorem malloc_correct fuel nbytes h L A :
  heap_inv h L A → 0 ≤ nbytes < 2 ^ 31 - 16 → (2 * length L + 4 ≤ fuel)%nat →
  ∃ r h' L', malloc fuel nbytes h = Ok r h' ∧ kept A h h' ∧ (length L' ≤ 2 + length L)%nat ∧
    (r ≠ 0 ∧ nbytes ≤ 8 * (units nbytes - 1) ∧ heap_inv h' L' ((r - 8, units nbytes) :: A) ∧
       (∀ x, free_at L' x ∨ in_block (r - 8, units nbytes) x ↔ free_at L x ∨ h_brk h ≤ x < h_brk h') ∨
     r = 0 ∧ heap_inv h' L' A ∧ (∀ x, free_at L' x ↔ free_at L x) ∧
       grant (8 * core_units (units nbytes)) (h_brk h) = false ∧ ∀ a s, (a, s) ∈ L' → s < units nbytes).
Proof. apply malloc_run. Qed.

End grants.

(** Free blocks are at least 8 bytes apart: the break bounds their number. *)
Lemma ring_length h L : ring h L → 8 * Z.of_nat (length L) ≤ h_brk h.
Proof.
  intros HR. assert (∀ i a s, L !! i = Some (a, s) → 8 * Z.of_nat i < a) as Hi.
  { induction i as [|i IH]; intros a s Ha.
    - destruct (rg_bound _ _ HR) as (? & _). destruct (rg_base _ _ HR) as (L' & EL & _). rewrite EL in Ha. injection Ha as <- _. lia.
    - destruct (lookup_lt_is_Some_2 L i) as [[b t] Hb]; [apply lookup_lt_Some in Ha; lia|].
      destruct (before_lookup L i (S i) _ _ (rg_sorted _ _ HR) ltac:(lia) Hb Ha) as [H _]. specialize (IH b t Hb). simpl in H. lia. }
  destruct (rg_base _ _ HR) as (L' & EL & _).
  destruct (lookup_lt_is_Some_2 L (length L - 1)) as [[a s] Ha]; [rewrite EL /=; lia|].
  specialize (Hi _ _ _ Ha). pose proof (head_below h L a s (a + 7) HR (list_elem_of_lookup_2 _ _ _ Ha) ltac:(lia)).
  rewrite EL /= in Hi |- *. lia.
Qed.

(** A client may write in its blocks, and outside the heap. *)
Definition writable (h : arena) (A : list (Z * Z)) (x : Z) : Prop :=
  x < base ∨ h_brk h ≤ x ∨ ∃ b, b ∈ A ∧ b.1 + 8 ≤ x < b.1 + 8 * b.2.

Lemma heap_inv_write h L A m :
  heap_inv h L A → (∀ x, byte m x = byte (h_mem h) x ∨ writable h A x) → heap_inv (set_hmem m h) L A.
Proof.
  intros [HO|HI] Hm; [left|by right]. pose proof (ho_ring _ _ _ HO) as HR.
  assert (∀ x, base ≤ x < h_brk h → (∀ b, b ∈ A → ¬ b.1 + 8 ≤ x < b.1 + 8 * b.2) → byte m x = byte (h_mem h) x) as Hkeep.
  { intros x Hx Hno. destruct (Hm x) as [?|[?|[?|(b & Hb & ?)]]]; [done|lia|lia|]. by destruct (Hno b Hb). }
  split; [|intros b Hb|apply HO|apply HO].
  - destruct HR as [R1 R2 R3 R4 R5]. split; [|done..]. apply (chain_frame (h_mem h)); [|done]. intros a s x Hin Hx.
    pose proof (head_below h L a s x (ho_ring _ _ _ HO) Hin Hx) as Hbrk.
    destruct (ring_blocks _ _ _ (ho_ring _ _ _ HO) Hin) as [[= -> ->]|(B1 & B2 & _)]; simpl in *; (apply Hkeep; [lia|]); intros b Hb Hin'.
    + destruct (ho_blocks _ _ _ HO b Hb) as (_ & ? & _). lia.
    + apply (ho_free _ _ _ HO b x Hb); [rewrite /in_block; lia|]. exists a, s. split; [done|lia].
  - destruct (ho_blocks _ _ _ HO b Hb) as (B1 & B2 & B3 & B4). split_and!; [done..|]. simpl. rewrite -B4. apply load32_frame.
    intros x Hx. apply Hkeep; [lia|]. intros c Hc Hin. apply list_elem_of_lookup in Hb as [i Hi]. apply list_elem_of_lookup in Hc as [j Hj].
    assert (i = j) as <- by (apply (ho_apart _ _ _ HO i j b c x); [done|done|rewrite /in_block; lia..]).
    rewrite Hi in Hj. injection Hj as <-. lia.
Qed.

Definition heap_fuel (h : arena) : nat := (Z.to_nat (h_brk h / 4) + 6)%nat.

Lemma heap_fuel_enough h L A : heap_inv h L A → (2 * length L + 4 ≤ heap_fuel h)%nat.
Proof.
  intros [HO|(_ & -> & _)]; rewrite /heap_fuel; [|simpl; lia].
  pose proof (ring_length h L (ho_ring _ _ _ HO)). assert (2 * Z.of_nat (length L) ≤ h_brk h / 4); [|lia].
  apply Z.div_le_lower_bound; lia.
Qed.

End heap.

(** ** An instance *)

Definition demo_grant (n b : Z) : bool := b + n <? KERNBASE.

Lemma demo_grant_ok n b : demo_grant n b = true → b + n < KERNBASE.
Proof. rewrite /demo_grant. lia. Qed.

Definition demo_arena : arena := Arena ∅ 0 0x5000.

Lemma demo_heap : heap_inv 0x1000 demo_arena [] [].
Proof. right. rewrite /demo_arena /KERNBASE. by split_and!. Qed.

(** 100 bytes take 14 units at the end of the first 4096 units gained. *)
Lemma malloc_correct_witness :
  ∃ r h' L', malloc 0x1000 demo_grant 8 100 demo_arena = Ok r h' ∧ r = 0xCF98 ∧ heap_inv 0x1000 h' L' [(r - 8, 14)].
Proof.
  destruct (malloc_correct 0x1000 demo_grant demo_grant_ok 8 100 demo_arena [] [] demo_heap ltac:(lia) ltac:(simpl; lia))
    as (r & h' & L' & Hrun & _ & _ & Hcase).
  assert (r = 0xCF98) as ->.
  { assert (value_or 0 (malloc 0x1000 demo_grant 8 100 demo_arena) = 0xCF98) as E by by vm_compute. by rewrite Hrun in E. }
  exists 0xCF98, h', L'. split_and!; [exact Hrun|reflexivity|]. destruct Hcase as [(_ & _ & H & _)|(E & _)]; [|discriminate E].
  change (units 100) with 14 in H. exact H.
Defined.

Lemma free_correct_witness :
  ∃ h L h' L', heap_inv 0x1000 h L [(0xCF90, 14)] ∧ free 8 0xCF98 h = Ok tt h' ∧ heap_inv 0x1000 h' L' [].
Proof.
  destruct (malloc_ok 0x1000 demo_grant demo_grant_ok 8 100
    (set_hmem (store32 (store32 ∅ 0x1000 0x1000) (0x1000 + 4) 0) (set_freep 0x1000 demo_arena)) [(0x1000, 0)] [])
    as (r & h & L & Hrun & _ & Hl & Hcase).
  - split; [exact (ring_init 0x1000 demo_arena ltac:(lia) ltac:(rewrite /KERNBASE /=; lia))|by intros b ?%elem_of_nil|by intros b x ?%elem_of_nil|by intros i j b c x Hi].
  - lia.
  - simpl. lia.
  - assert (r = 0xCF98) as ->.
    { assert (value_or 0 (malloc 0x1000 demo_grant 8 100
        (set_hmem (store32 (store32 ∅ 0x1000 0x1000) (0x1000 + 4) 0) (set_freep 0x1000 demo_arena))) = 0xCF98) as E by by vm_compute.
      by rewrite Hrun in E. }
    destruct Hcase as [(_ & HO & _)|(E & _)]; [|discriminate E]. change (0xCF98 - 8) with 0xCF90 in HO. change (units 100) with 14 in HO.
    assert (heap_inv 0x1000 h L [(0xCF90, 14)]) as HI by (left; exact HO).
    destruct (free_correct 0x1000 8 h L [(0xCF90, 14)] 0 0xCF90 14 HI eq_refl ltac:(simpl in Hl; lia)) as (h' & L' & Hfree & HI' & _).
    exists h, L, h', L'. split_and!; [exact HI|exact Hfree|exact HI'].
Defined.

(** A request just below 2^32, such as a negative length converted to uint, wraps
    around in morecore(): the allocator asks sbrk() for -8 bytes, which takes
    memory away from the program, and reports success. *)
Lemma malloc_huge_shrinks :
  ∃ r h', malloc 0x1000 demo_grant 8 0xFFFFFFF0 demo_arena = Ok r h' ∧ r ≠ 0 ∧ h_brk h' = h_brk demo_arena - 8.
Proof.
  assert (value_or 0 (malloc 0x1000 demo_grant 8 0xFFFFFFF0 demo_arena) = 0x5008 ∧
          h_brk (state_or demo_arena (malloc 0x1000 demo_grant 8 0xFFFFFFF0 demo_arena)) = 0x5000 - 8) as [E1 E2] by by vm_compute.
  destruct (malloc 0x1000 demo_grant 8 0xFFFFFFF0 demo_arena) as [r h'| | | | |]; try done.
  exists r, h'. split_and!; [done|simpl in E1; lia|done].
Qed.
