(* ===== verification/Uthread.v ===== *)
(** * User-level threads: uthread.c

    Threads of one process, switched by uthread_yield(), which is also the
    handler of SIGALRM and draws the next thread by lottery. The state holds the
    thread pool and the other variables of uthread.c, the last argument of
    alarm(), the process's handler of SIGALRM, and the process's memory with the
    allocator's variables. Messages printed for tracing are left out. *)

From S2P Require Import Prelude Param.

(** ** uthread.h *)

Definition UTHREAD_QUANTA : Z := 5.
Definition NTICKET : Z := 5.
Definition STACK_SIZE : Z := 4096.
Definition MAX_THREADS : nat := 7.

Inductive uthread_state := FREE | RUNNING | RUNNABLE | SLEEP.

#[global] Instance uthread_state_eq_dec : EqDecision uthread_state.
Proof. solve_decision. Defined.

Record uthread := Uthread {
  tid : Z; esp : Z; ebp : Z; stack : Z; state : uthread_state; ntickets : Z
}.

Definition set_state (v : uthread_state) (t : uthread) : uthread :=
  Uthread (tid t) (esp t) (ebp t) (stack t) v (ntickets t).
Definition set_regs (e b : Z) (t : uthread) : uthread :=
  Uthread (tid t) e b (stack t) (state t) (ntickets t).

(** ** Memory and its allocator (umalloc.c), as their clients see them *)

(** [poke a v] stores the word [v] at the address [a]. *)
Class Malloc := {
  heap : Type;
  malloc : Z → heap → Z * heap;
  free : Z → heap → heap;
  poke : Z → Z → heap → heap
}.

Section uthread.
Context `{Malloc}.

Record ust := Ust {
  uthread_pool : list uthread;
  next_tid : Z;
  c_uthread_index : nat;
  current_ticket_num : Z;
  choosen : Z;
  randstate : Z;
  alarmed : Z;
  sigalrm_handler : Z;
  uheap : heap
}.

Definition set_pool (v : list uthread) (s : ust) : ust :=
  Ust v (next_tid s) (c_uthread_index s) (current_ticket_num s) (choosen s) (randstate s) (alarmed s)
      (sigalrm_handler s) (uheap s).
Definition set_index (v : nat) (s : ust) : ust :=
  Ust (uthread_pool s) (next_tid s) v (current_ticket_num s) (choosen s) (randstate s) (alarmed s)
      (sigalrm_handler s) (uheap s).
Definition set_next_tid (v : Z) (s : ust) : ust :=
  Ust (uthread_pool s) v (c_uthread_index s) (current_ticket_num s) (choosen s) (randstate s) (alarmed s)
      (sigalrm_handler s) (uheap s).
Definition set_lottery (n ch : Z) (s : ust) : ust :=
  Ust (uthread_pool s) (next_tid s) (c_uthread_index s) n ch (randstate s) (alarmed s)
      (sigalrm_handler s) (uheap s).
Definition set_rand (v : Z) (s : ust) : ust :=
  Ust (uthread_pool s) (next_tid s) (c_uthread_index s) (current_ticket_num s) (choosen s) v (alarmed s)
      (sigalrm_handler s) (uheap s).
Definition set_alarm (v : Z) (s : ust) : ust :=
  Ust (uthread_pool s) (next_tid s) (c_uthread_index s) (current_ticket_num s) (choosen s) (randstate s) v
      (sigalrm_handler s) (uheap s).
Definition set_handler (v : Z) (s : ust) : ust :=
  Ust (uthread_pool s) (next_tid s) (c_uthread_index s) (current_ticket_num s) (choosen s) (randstate s) (alarmed s)
      v (uheap s).
Definition set_heap (v : heap) (s : ust) : ust :=
  Ust (uthread_pool s) (next_tid s) (c_uthread_index s) (current_ticket_num s) (choosen s) (randstate s) (alarmed s)
      (sigalrm_handler s) v.

(** Leaving the CPU to another thread: it starts at execute_thread() with the
    given stack pointer, or goes on with its saved esp and ebp. *)
Inductive jump := Start (sp : Z) | Resume (sp bp : Z).

Abbreviation UT := (M jump ust).

Definition alarm (n : Z) : UT unit := modify (set_alarm n).

Definition getthread (i : nat) : UT uthread :=
  p ← gets uthread_pool;
  match p !! i with Some t => mret t | None => fault 0 end.

(** An index past the pool is a write outside the array. *)
Definition updthread (i : nat) (f : uthread → uthread) : UT unit :=
  p ← gets uthread_pool;
  match p !! i with
  | Some t => modify (set_pool (<[i := f t]> p))
  | None => fault 0
  end.

(** [unsigned long] has 32 bits. *)
Definition rand : UT Z :=
  r ← gets randstate;
  let r := u32 (r * 1664525 + 1013904223) in
  modify (set_rand r);;
  mret r.

(** ** uthread_yield *)

(** The total of the tickets, counted from -1. *)
Definition tickets (p : list uthread) : Z :=
  foldl (λ n t, if bool_decide (state t ≠ FREE ∧ state t ≠ SLEEP) then n + ntickets t else n) (-1) p.

(** The loop that looks for the thread number [ch] among the RUNNABLE ones; the
    value of [j] after it. *)
Fixpoint pick (ch : Z) (p : list uthread) (count : Z) (j : nat) : nat :=
  match p with
  | [] => j
  | t :: p' =>
      if bool_decide (state t = RUNNABLE) then
        if ch =? count + 1 then j else pick ch p' (count + 1) (S j)
      else pick ch p' count (S j)
  end.

Definition lottery : UT nat :=
  p ← gets uthread_pool;
  let n := tickets p in
  r ← rand;
  let randomTicket := s32 (r mod u32 n) in
  let ch := Z.quot randomTicket NTICKET in
  modify (set_lottery n ch);;
  mret (pick ch p (-1) 0).

Definition switch_to {A} (j : jump) : UT A := λ s, Switch j s.

(** uthread_yield() up to the lottery: the calling thread is suspended. *)
Definition yield_save (sp bp : Z) : UT unit :=
  alarm 0;;
  c ← gets c_uthread_index;
  t ← getthread c;
  when (bool_decide (state t = RUNNING)) (updthread c (set_state RUNNABLE));;
  updthread c (set_regs sp bp).

(** uthread_yield(), entered with the given esp and ebp. *)
Definition uthread_yield {A} (sp bp : Z) : UT A :=
  yield_save sp bp;;
  j ← lottery;
  modify (set_index j);;
  updthread j (set_state RUNNING);;
  t ← getthread j;
  if esp t =? 0 then switch_to (Start (u32 (stack t + STACK_SIZE - 12)))
  else alarm UTHREAD_QUANTA;; switch_to (Resume (esp t) (ebp t)).

(** ** The other operations *)

(** signal(SIGALRM, handler): the previous handler is returned. *)
Definition signal_alrm (h : Z) : UT Z :=
  o ← gets sigalrm_handler;
  modify (set_handler h);;
  mret o.

(** [yield_addr] is the address of uthread_yield(). *)
Definition uthread_init (yield_addr : Z) : UT Z :=
  p ← gets uthread_pool;
  modify (set_pool ((λ t, Uthread (tid t) (esp t) (ebp t) (stack t) FREE NTICKET) <$> p));;
  modify (set_next_tid 1);;
  modify (set_index 0);;
  updthread 0 (λ t, Uthread 0 (esp t) (ebp t) 0 RUNNING (ntickets t));;
  o ← signal_alrm yield_addr;
  if negb (o =? 0) then mret (-1) else
  alarm UTHREAD_QUANTA;;
  mret 0.

(** [*(int* )a = v] *)
Definition store_int (a v : Z) : UT unit := modify (λ s, set_heap (poke (u32 a) v (uheap s)) s).

Definition uthread_create (func arg : Z) : UT Z :=
  alarm 0;;
  p ← gets uthread_pool;
  match first (λ t, bool_decide (state t = FREE)) p with
  | None =>
      alarm UTHREAD_QUANTA;;
      mret (-1)
  | Some i =>
      n ← gets next_tid;
      modify (set_next_tid (s32 (n + 1)));;
      h ← gets uheap;
      let '(a, h') := malloc STACK_SIZE h in
      modify (set_heap h');;
      store_int (a + STACK_SIZE - 3 * 4) 0;;
      store_int (a + STACK_SIZE - 2 * 4) func;;
      store_int (a + STACK_SIZE - 4) arg;;
      updthread i (λ t, Uthread n 0 0 a RUNNABLE (ntickets t));;
      alarm UTHREAD_QUANTA;;
      mret n
  end.

(** uthread_exit(), entered with the given esp and ebp: the process exits
    (the call returns here) when no thread is left. *)
Definition uthread_exit (sp bp : Z) : UT unit :=
  alarm 0;;
  c ← gets c_uthread_index;
  t ← getthread c;
  when (negb (stack t =? 0)) (modify (λ s, set_heap (free (stack t) (uheap s)) s));;
  updthread c (set_state FREE);;
  modify (λ s, set_pool ((λ t, if bool_decide (state t = SLEEP) then set_state RUNNABLE t else t) <$> uthread_pool s) s);;
  p ← gets uthread_pool;
  if existsb (λ t, bool_decide (state t ≠ FREE)) p then uthread_yield sp bp else mret tt.

Definition uthred_self : UT Z :=
  c ← gets c_uthread_index;
  t ← getthread c;
  mret (tid t).

(** uthred_join(tid) from its label [loop] on. *)
Definition join_loop (id sp bp : Z) : UT Z :=
  alarm 0;;
  p ← gets uthread_pool;
  match first (λ t, tid t =? id) p with
  | Some _ =>
      c ← gets c_uthread_index;
      updthread c (set_state SLEEP);;
      uthread_yield sp bp
  | None =>
      alarm UTHREAD_QUANTA;;
      mret 0
  end.

Definition uthred_join (id sp bp : Z) : UT Z :=
  n ← gets next_tid;
  if (id >=? n) || (id <? 0) then mret (-1) else
  join_loop id sp bp.

End uthread.

(** ** The lottery *)

(** The threads that can be chosen. *)
Definition runnables (p : list uthread) : nat := length (filter (λ t, state t = RUNNABLE) p).

(** The position of the RUNNABLE thread before which there are [ch - count - 1]
    RUNNABLE ones. *)
Lemma pick_spec ch p count j0 :
  count + 1 ≤ ch → ch - count ≤ Z.of_nat (runnables p) →
  ∃ j t, pick ch p count j0 = (j0 + j)%nat ∧ p !! j = Some t ∧ state t = RUNNABLE ∧
         Z.of_nat (runnables (take j p)) = ch - count - 1.
Proof.
  revert count j0. induction p as [|t p IH]; intros count j0 Hlo Hhi; simpl.
  { rewrite /runnables /= in Hhi. lia. }
  rewrite /runnables filter_cons in Hhi. destruct (decide (state t = RUNNABLE)) as [Hs|Hs].
  - rewrite bool_decide_eq_true_2 //. destruct (Z.eqb_spec ch (count + 1)) as [E|E].
    + exists 0%nat, t. rewrite Nat.add_0_r. split_and!; [done..|]. rewrite /runnables /=. lia.
    + destruct (IH (count + 1) (S j0)) as (j & u & Hj & Hu & Hr & Hn); [lia|rewrite /runnables; simpl in Hhi; lia|].
      exists (S j), u. rewrite Hj Nat.add_succ_r. split_and!; [done..|].
      rewrite /runnables /= filter_cons decide_True //=. rewrite /runnables in Hn. lia.
  - rewrite bool_decide_eq_false_2 //. destruct (IH count (S j0)) as (j & u & Hj & Hu & Hr & Hn); [done..|].
    exists (S j), u. rewrite Hj Nat.add_succ_r. split_and!; [done..|].
    rewrite /runnables /= filter_cons decide_False //.
Qed.

Lemma tickets_spec p :
  Forall (λ t, ntickets t = NTICKET ∧ state t ≠ RUNNING) p →
  tickets p = NTICKET * Z.of_nat (runnables p) - 1.
Proof.
  intros HF. rewrite /tickets.
  enough (∀ n, foldl (λ n t, if bool_decide (state t ≠ FREE ∧ state t ≠ SLEEP) then n + ntickets t else n) n p =
               n + NTICKET * Z.of_nat (runnables p)) as -> by lia.
  induction HF as [|t p [Hn Hr] _ IH]; intros n; simpl; [rewrite /runnables /=; lia|].
  rewrite IH /runnables filter_cons. destruct (decide (state t = RUNNABLE)) as [Hs|Hs].
  - rewrite bool_decide_eq_true_2; [by rewrite Hs|]. simpl. lia.
  - rewrite bool_decide_eq_false_2 //. destruct (state t); naive_solver.
Qed.

Section lottery.
Context `{Malloc}.

(** The next random number, and the number of the runnable thread that owns the ticket
    drawn with it among the [k] runnable threads. *)
Definition next_rand (r : Z) : Z := u32 (r * 1664525 + 1013904223).
Definition drawn (r : Z) (k : nat) : Z := r mod (NTICKET * Z.of_nat k - 1) / NTICKET.

(** A drawn ticket belongs to one of the runnable threads. *)
Lemma ticket_range r k :
  0 ≤ r < 2 ^ 32 → (0 < k ≤ MAX_THREADS)%nat →
  Z.quot (s32 (r mod u32 (NTICKET * Z.of_nat k - 1))) NTICKET = drawn r k ∧ 0 ≤ drawn r k < Z.of_nat k.
Proof.
  intros Hr Hk. rewrite /drawn /NTICKET /MAX_THREADS in Hk |- *.
  rewrite u32_id; [lia|]. pose proof (Z.mod_pos_bound r (5 * Z.of_nat k - 1)).
  assert (s32 (r mod (5 * Z.of_nat k - 1)) = r mod (5 * Z.of_nat k - 1)) as ->.
  { rewrite /s32 u32_id; [lia|]. rewrite (proj2 (Z.ltb_lt _ _)); lia. }
  rewrite Z.quot_div_nonneg; [lia..|]. split_and!; [done|apply Z.div_pos; lia|]. apply Z.div_lt_upper_bound; lia.
Qed.

(** The pool with the current thread [c] suspended at the given registers. *)
Definition suspend (sp bp : Z) (t : uthread) : uthread :=
  set_regs sp bp (if bool_decide (state t = RUNNING) then set_state RUNNABLE t else t).

(** Seven threads with their tickets, of which at most the current one runs. *)
Definition pool_ok (s : ust) : Prop :=
  length (uthread_pool s) = MAX_THREADS ∧ (c_uthread_index s < MAX_THREADS)%nat ∧
  Forall (λ t, ntickets t = NTICKET) (uthread_pool s) ∧
  (∀ i t, uthread_pool s !! i = Some t → state t = RUNNING → i = c_uthread_index s).

Lemma suspended_ok s c t sp bp :
  pool_ok s → c_uthread_index s = c → uthread_pool s !! c = Some t →
  Forall (λ t, ntickets t = NTICKET ∧ state t ≠ RUNNING) (<[c := suspend sp bp t]> (uthread_pool s)).
Proof.
  intros (Hlen & Hc & Hn & Hrun) <- Ht. apply Forall_lookup. intros i u Hu.
  rewrite Forall_lookup in Hn. destruct (decide (i = c_uthread_index s)) as [->|Hne].
  - rewrite list_lookup_insert_eq in Hu; [exact (lookup_lt_Some _ _ _ Ht)|]. injection Hu as <-.
    rewrite /suspend /set_regs /set_state. split.
    + destruct (bool_decide _); simpl; exact (Hn _ _ Ht).
    + destruct (bool_decide_reflect (state t = RUNNING)); simpl; congruence.
  - rewrite list_lookup_insert_ne in Hu; [congruence|]. split; [exact (Hn _ _ Hu)|]. intros Hs.
    apply Hne. exact (Hrun _ _ Hu Hs).
Qed.

Lemma lottery_Ok s :
  Forall (λ t, ntickets t = NTICKET ∧ state t ≠ RUNNING) (uthread_pool s) →
  length (uthread_pool s) = MAX_THREADS → (0 < runnables (uthread_pool s))%nat →
  let r := next_rand (randstate s) in
  let ch := drawn r (runnables (uthread_pool s)) in
  ∃ j t, lottery s = Ok j (set_lottery (NTICKET * Z.of_nat (runnables (uthread_pool s)) - 1) ch (set_rand r s)) ∧
         uthread_pool s !! j = Some t ∧ state t = RUNNABLE ∧ Z.of_nat (runnables (take j (uthread_pool s))) = ch.
Proof.
  intros HF Hlen Hpos r ch. rewrite /lottery bind_gets. cbv zeta. rewrite /rand !bind_assoc bind_gets bind_assoc bind_modify bind_ret.
  rewrite bind_modify. fold (next_rand (randstate s)). fold r. rewrite tickets_spec //.
  assert (runnables (uthread_pool s) ≤ MAX_THREADS)%nat.
  { rewrite -Hlen. apply length_filter. }
  destruct (ticket_range r (runnables (uthread_pool s))) as (-> & H1 & H2); [apply u32_bound|lia|].
  fold ch in H1, H2 |- *. destruct (pick_spec ch (uthread_pool s) (-1) 0) as (j & t & Hj & Ht & Hs & Hn); [lia..|].
  exists j, t. rewrite Hj. split_and!; [done..|lia].
Qed.

Lemma updthread_Ok i f s t :
  uthread_pool s !! i = Some t → updthread i f s = Ok tt (set_pool (<[i := f t]> (uthread_pool s)) s).
Proof. intros Ht. by rewrite /updthread bind_gets Ht. Qed.

Lemma getthread_Ok i s t : uthread_pool s !! i = Some t → getthread i s = Ok t s.
Proof. intros Ht. by rewrite /getthread bind_gets Ht. Qed.

Lemma yield_save_Ok sp bp s t :
  uthread_pool s !! c_uthread_index s = Some t →
  yield_save sp bp s =
  Ok tt (set_pool (<[c_uthread_index s := suspend sp bp t]> (uthread_pool s)) (set_alarm 0 s)).
Proof.
  intros Ht. pose proof (lookup_lt_Some _ _ _ Ht) as Hlt. rewrite /yield_save /alarm bind_modify bind_gets.
  rewrite (bind_Ok _ _ _ _ _ (getthread_Ok _ (set_alarm 0 s) t Ht)) /when /suspend.
  destruct (bool_decide (state t = RUNNING)).
  - rewrite (bind_Ok _ _ _ _ _ (updthread_Ok _ _ (set_alarm 0 s) t Ht)).
    erewrite updthread_Ok; [|simpl; by apply list_lookup_insert_eq].
    simpl. f_equal. rewrite /set_pool /=. by rewrite list_insert_insert_eq.
  - rewrite bind_ret (updthread_Ok _ _ (set_alarm 0 s) t Ht) //.
Qed.

(** uthread_yield(), whatever it would return. *)
Lemma uthread_yield_run {A} sp bp s t :
  pool_ok s → uthread_pool s !! c_uthread_index s = Some t →
  let p := <[c_uthread_index s := suspend sp bp t]> (uthread_pool s) in
  (0 < runnables p)%nat →
  ∃ j u s',
    uthread_yield (A := A) sp bp s =
      Switch (if esp u =? 0 then Start (u32 (stack u + STACK_SIZE - 12)) else Resume (esp u) (ebp u)) s' ∧
    p !! j = Some u ∧ state u = RUNNABLE ∧ c_uthread_index s' = j ∧
    randstate s' = next_rand (randstate s) ∧
    Z.of_nat (runnables (take j p)) = drawn (randstate s') (runnables p) ∧
    uthread_pool s' = <[j := set_state RUNNING u]> p ∧
    alarmed s' = (if esp u =? 0 then 0 else UTHREAD_QUANTA) ∧
    uheap s' = uheap s ∧ pool_ok s'.
Proof.
  intros Hok Ht p Hpos. pose proof (suspended_ok s _ t sp bp Hok eq_refl Ht) as HF. fold p in HF.
  set (s1 := set_pool p (set_alarm 0 s)).
  assert (length p = MAX_THREADS) as Hlen by (rewrite /p length_insert; apply Hok).
  destruct (lottery_Ok s1 HF Hlen Hpos) as (j & u & Hl & Hu & Hs & Hn). cbn [uthread_pool randstate s1 set_pool set_alarm] in Hu, Hn.
  exists j, u. rewrite /uthread_yield (bind_Ok _ _ _ _ _ (yield_save_Ok sp bp s t Ht)). fold p s1.
  rewrite (bind_Ok _ _ _ _ _ Hl) bind_modify. set (s2 := set_index j _).
  rewrite (bind_Ok _ _ _ _ _ (updthread_Ok j _ s2 u Hu)). pose proof (lookup_lt_Some _ _ _ Hu) as Hlt.
  rewrite (bind_Ok _ _ _ _ _ (getthread_Ok j _ (set_state RUNNING u) _)); [by apply list_lookup_insert_eq|].
  change (esp (set_state RUNNING u)) with (esp u). change (ebp (set_state RUNNING u)) with (ebp u).
  assert (∀ s', uthread_pool s' = <[j := set_state RUNNING u]> p → c_uthread_index s' = j → pool_ok s') as Hinv.
  { intros s' Hp' Hj. rewrite /pool_ok Hp' Hj length_insert. split_and!; [done|lia| |].
    - apply Forall_insert; [by eapply Forall_impl; [exact HF|]; intros ? []|].
      by apply (Forall_lookup_1 _ _ _ _ HF Hu).
    - intros i v Hv Hr. destruct (decide (i = j)); [done|]. rewrite list_lookup_insert_ne in Hv; [congruence|].
      by destruct (Forall_lookup_1 _ _ _ _ HF Hv). }
  destruct (esp u =? 0); eexists; split_and!; try done; by apply Hinv.
Qed.

(** C30: uthread_yield() suspends the calling thread with its registers and, when a thread
    is RUNNABLE then, switches to the RUNNABLE thread that holds the ticket drawn with the
    next random number: the one before which the pool has as many RUNNABLE threads as
    the number of the ticket, below the number of tickets less one, divided by the
    tickets of a thread. That thread becomes the only RUNNING one and the current one, and
    continues with the registers it was suspended with, or starts on its new stack if it
    never ran. No other thread changes, so a suspended thread keeps its registers until
    it is chosen. *)
Theorem uthread_yield_correct sp bp s t :
  pool_ok s → uthread_pool s !! c_uthread_index s = Some t →
  let p := <[c_uthread_index s := suspend sp bp t]> (uthread_pool s) in
  (0 < runnables p)%nat →
  ∃ j u s',
    uthread_yield (A := unit) sp bp s =
      Switch (if esp u =? 0 then Start (u32 (stack u + STACK_SIZE - 12)) else Resume (esp u) (ebp u)) s' ∧
    p !! j = Some u ∧ state u = RUNNABLE ∧ c_uthread_index s' = j ∧
    randstate s' = u32 (randstate s * 1664525 + 1013904223) ∧
    Z.of_nat (runnables (take j p)) = randstate s' mod (NTICKET * Z.of_nat (runnables p) - 1) / NTICKET ∧
    uthread_pool s' = <[j := set_state RUNNING u]> p ∧
    alarmed s' = (if esp u =? 0 then 0 else UTHREAD_QUANTA) ∧ pool_ok s'.
Proof.
  intros Hok Ht p Hpos. destruct (uthread_yield_run (A := unit) sp bp s t Hok Ht Hpos) as (j & u & s' & ? & ? & ? & ? & ? & ? & ? & ? & _ & ?).
  by exists j, u, s'.
Qed.

(** The threads of a pool, by their states. *)
Definition demo_pool : list uthread :=
  (λ st, Uthread 0 0 0 0x5000 st NTICKET) <$> [RUNNING; RUNNABLE; FREE; SLEEP; FREE; FREE; FREE].

End lottery.

#[local] Instance demo_malloc : Malloc := { heap := unit; malloc n h := (0x4000, h); free a h := h; poke a v h := h }.

Definition demo_ust : ust := Ust demo_pool 4 0 0 0 4 5 0 tt.

(** Of two runnable threads, the second one is drawn, and starts. *)
Lemma uthread_yield_correct_witness :
  ∃ s', uthread_yield (A := unit) 0x2FF0 0x2FF8 demo_ust = Switch (Start 0x5FF4) s' ∧ c_uthread_index s' = 1%nat.
Proof.
  destruct (uthread_yield_correct 0x2FF0 0x2FF8 demo_ust (Uthread 0 0 0 0x5000 RUNNING NTICKET))
    as (j & u & s' & H1 & H2 & H3 & H4 & H5 & H6 & _).
  - split_and!; [reflexivity|rewrite /MAX_THREADS /=; lia| |].
    + repeat constructor.
    + intros i t. do 7 (destruct i as [|i]; [by intros [= <-]|]). done.
  - reflexivity.
  - vm_compute. lia.
  - exists s'. rewrite H5 in H6. destruct j as [|[|j]]; [discriminate H6| |].
    + injection H2 as <-. split; [exact H1|exact H4].
    + do 5 (destruct j as [|j]; [injection H2 as <-; discriminate H3|]). discriminate H2.
Defined.

(** ** Where the code does not do what it says *)

Section findings.
Context `{Malloc}.

(** signal() returns the previous handler, which is never 0 for a process that
    has not installed one: uthread_init() reports an error and leaves the alarm
    unarmed. *)
Lemma uthread_init_fails yield_addr s :
  length (uthread_pool s) = MAX_THREADS → sigalrm_handler s = defualtHandlerAdd →
  ∃ s', uthread_init yield_addr s = Ok (-1) s' ∧ alarmed s' = alarmed s.
Proof.
  intros Hlen Hh. rewrite /uthread_init bind_gets !bind_modify.
  destruct (uthread_pool s) as [|t p] eqn:E; [done|].
  erewrite bind_Ok; [|by apply updthread_Ok].
  rewrite /signal_alrm bind_assoc bind_gets bind_assoc bind_modify bind_ret /= Hh /=. by eexists.
Qed.

(** A thread number stays in the pool after its thread has exited, so a join
    with it goes to sleep again every time it looks. *)
Lemma join_exited_sleeps id sp bp s i t c u :
  uthread_pool s !! i = Some t → tid t = id → state t = FREE →
  c_uthread_index s = c → uthread_pool s !! c = Some u →
  0 ≤ id < next_tid s →
  uthred_join id sp bp s = (updthread c (set_state SLEEP);; uthread_yield sp bp) (set_alarm 0 s).
Proof.
  intros Hi Hid Hfree Hc Hu [Hlo Hhi]. rewrite /uthred_join bind_gets.
  rewrite (proj2 (orb_false_iff _ _)); [split; [rewrite Z.geb_leb; apply Z.leb_gt|apply Z.ltb_ge]; lia|].
  rewrite /join_loop /alarm bind_modify bind_gets.
  destruct (first _ _) as [j|] eqn:Hf; [by rewrite bind_gets /= Hc|].
  rewrite first_None in Hf. specialize (Hf i t Hi). apply Z.eqb_neq in Hf. congruence.
Qed.

End findings.
