(* ===== verification/UthreadHeap.v ===== *)
(** * Stacks of the threads

    uthread.c over the allocator of umalloc.c, in one memory: the stacks that malloc()
    gave the threads are blocks of their own in the heap, so no two threads share memory.
    uthread_create() does not look at what malloc() returns: a thread for which there was
    no memory has [stack] 0, and its first words are stored in the program's first page. *)

From S2P Require Import Prelude Param Bytes String Umalloc Uthread.

Section stacks.
Context (base : Z) (grant : Z → Z → bool).
Hypothesis grant_ok : ∀ n b, grant n b = true → b + n < KERNBASE.
(** The variables of umalloc.c lie above the first page. *)
Hypothesis base_high : STACK_SIZE ≤ base.

(** malloc() and free() of umalloc.c behind the interface of uthread.c. *)
#[local] Instance umalloc : Malloc := {
  heap := arena;
  Uthread.malloc n h := match Umalloc.malloc base grant (heap_fuel h) n h with Ok r h' => (r, h') | _ => (0, h) end;
  Uthread.free a h := match Umalloc.free (heap_fuel h) a h with Ok _ h' => h' | _ => h end;
  poke a v h := set_hmem (store32 (h_mem h) a v) h
}.

(** A thread that exists and has a stack from malloc(); the first thread runs on the
    stack of the process and has [stack] 0, as has one for which malloc() failed. *)
Definition has_stack (t : uthread) : Prop := state t ≠ FREE ∧ stack t ≠ 0.

(** The block of a thread's stack, its header included. *)
Definition stack_block (t : uthread) : Z * Z := (stack t - 8, units STACK_SIZE).

(** The stacks are blocks handed out by malloc(), a different one for each thread. *)
Definition stacks_in (p : list uthread) (A : list (Z * Z)) : Prop :=
  (∀ i t, p !! i = Some t → has_stack t → stack_block t ∈ A) ∧
  (∀ i j t u, p !! i = Some t → p !! j = Some u → has_stack t → has_stack u → stack t = stack u → i = j).

Definition stacks_ok (s : ust) : Prop :=
  ∃ L A, heap_inv base (uheap s) L A ∧ stacks_in (uthread_pool s) A.

(** The bytes of the stacks of the threads [P], in the end as at first. *)
Definition stacks_kept (P : nat → Prop) (s s' : ust) : Prop :=
  ∀ i t x, P i → uthread_pool s !! i = Some t → has_stack t → in_block (stack_block t) x →
    byte (h_mem (uheap s')) x = byte (h_mem (uheap s)) x.

(** What uthread_create() stores at the top of the stack at [a]. *)
Definition first_words (a func arg : Z) (m : mem) : mem :=
  store32 (store32 (store32 m (a + STACK_SIZE - 12) 0) (a + STACK_SIZE - 8) func) (a + STACK_SIZE - 4) arg.

Lemma first_words_out a func arg m x :
  ¬ a + STACK_SIZE - 12 ≤ x < a + STACK_SIZE → byte (first_words a func arg m) x = byte m x.
Proof. intros Hx. rewrite /first_words !byte_store32_out; lia || done. Qed.

(** A new thread, or none when the pool is full. *)
Definition created (func arg : Z) (s : ust) (n : Z) (s' : ust) : Prop :=
  n = -1 ∧ (∀ i t, uthread_pool s !! i = Some t → state t ≠ FREE) ∧ uthread_pool s' = uthread_pool s ∧ uheap s' = uheap s ∨
  n = next_tid s ∧ ∃ i t a, uthread_pool s !! i = Some t ∧ state t = FREE ∧
    uthread_pool s' = <[i := Uthread n 0 0 a RUNNABLE (ntickets t)]> (uthread_pool s) ∧
    let m := h_mem (uheap s') in
    load32 m (a + STACK_SIZE - 12) = 0 ∧ load32 m (a + STACK_SIZE - 8) = u32 func ∧ load32 m (a + STACK_SIZE - 4) = u32 arg.

(** Threads that keep their stacks and come into existence by no other way. *)
Lemma stacks_in_sub p p' A :
  (∀ i t', p' !! i = Some t' → has_stack t' → ∃ t, p !! i = Some t ∧ has_stack t ∧ stack t = stack t') →
  stacks_in p A → stacks_in p' A.
Proof.
  intros Hsub [H1 H2]. split.
  - intros i t' Hi Ht'. destruct (Hsub i t' Hi Ht') as (t & Ht & Hs & E). rewrite /stack_block -E. by apply (H1 i t).
  - intros i j t' u' Hi Hj Ht' Hu' E. destruct (Hsub i t' Hi Ht') as (t & Ht & Hs & E1).
    destruct (Hsub j u' Hj Hu') as (u & Hu & Hs' & E2). apply (H2 i j t u); [done..|congruence].
Qed.

(** Two live blocks with the same address are the same. *)
Lemma live_nodup h L A i j b c :
  heap_inv base h L A → A !! i = Some b → A !! j = Some c → b.1 = c.1 → i = j.
Proof.
  intros [HO|(_ & _ & -> & _)] Hb Hc E; [|done].
  destruct (ho_blocks _ _ _ _ HO b (list_elem_of_lookup_2 _ _ _ Hb)) as (? & _).
  destruct (ho_blocks _ _ _ _ HO c (list_elem_of_lookup_2 _ _ _ Hc)) as (? & _).
  apply (ho_apart _ _ _ _ HO i j b c b.1); [done|done|rewrite /in_block; lia|rewrite /in_block; lia].
Qed.

(** A new thread takes the slot [i], which was FREE. *)
Lemma stacks_in_new h L p A i t r n :
  heap_inv base h L ((r - 8, units STACK_SIZE) :: A) → p !! i = Some t → stacks_in p A →
  stacks_in (<[i := Uthread n 0 0 r RUNNABLE (ntickets t)]> p) ((r - 8, units STACK_SIZE) :: A).
Proof.
  intros HI Hi [H1 H2]. pose proof (lookup_lt_Some _ _ _ Hi) as Hlt.
  assert (∀ j u, p !! j = Some u → has_stack u → stack u ≠ r) as Hfresh.
  { intros j u Hj Hu E. apply (H1 j u Hj) in Hu as [k Hk]%list_elem_of_lookup.
    assert (0%nat = S k) as [=]. apply (live_nodup h L _ 0 (S k) (r - 8, units STACK_SIZE) (stack_block u) HI); [done|done|]. simpl. lia. }
  split.
  - intros j u [(-> & <- & _)|[_ Hj]]%list_lookup_insert_Some Hu; [apply list_elem_of_here|].
    apply list_elem_of_further. by apply (H1 j u).
  - intros j k u v [(-> & <- & _)|[? Hj]]%list_lookup_insert_Some [(-> & <- & _)|[? Hk]]%list_lookup_insert_Some Hu Hv E; simpl in *.
    + done.
    + by destruct (Hfresh k v).
    + by destruct (Hfresh j u).
    + by apply (H2 j k u v).
Qed.

(** The words stored for a thread touch no other block, with or without a stack. *)
Lemma first_words_ok a func arg h L A :
  heap_inv base h L A → a = 0 ∨ (a - 8, units STACK_SIZE) ∈ A →
  heap_inv base (set_hmem (first_words a func arg (h_mem h)) h) L A ∧ 0 ≤ a < KERNBASE ∧
  ∀ b x, b ∈ A → b.1 ≠ a - 8 → in_block b x → byte (first_words a func arg (h_mem h)) x = byte (h_mem h) x.
Proof.
  intros HI Ha. assert (∀ b, b ∈ A → ∃ i, heap_ok base h L A ∧ A !! i = Some b ∧ 1 ≤ b.2 ∧ base + 8 ≤ b.1 ∧ b.1 + 8 * b.2 ≤ KERNBASE) as Hb.
  { intros b Hb. destruct HI as [HO|(_ & _ & -> & _)]; [|by apply elem_of_nil in Hb].
    destruct (ho_blocks _ _ _ _ HO b Hb) as (? & ? & ? & _). destruct (rg_bound _ _ _ (ho_ring _ _ _ _ HO)) as (_ & _ & ?).
    apply list_elem_of_lookup in Hb as [i Hi]. exists i. split_and!; [done..|lia]. }
  change (units STACK_SIZE) with 513 in *. pose proof base_high as Hbase. rewrite /STACK_SIZE in Hbase.
  split_and!; [apply heap_inv_write; [done|]|..].
  - intros x. destruct (decide (a + STACK_SIZE - 12 ≤ x < a + STACK_SIZE)) as [Hx|Hx]; [|left; by apply first_words_out].
    right. rewrite /STACK_SIZE in Hx. destruct Ha as [->|Ha]; [left; lia|]. right. right. exists (a - 8, 513). split; [done|simpl; lia].
  - destruct Ha as [->|Ha]; [lia|]. destruct (Hb _ Ha) as (_ & _ & _ & _ & ? & _). simpl in *. lia.
  - destruct Ha as [->|Ha]; [done|]. destruct (Hb _ Ha) as (_ & _ & _ & _ & _ & ?). simpl in *. lia.
  - intros b x Hin Hne Hx. apply first_words_out. rewrite /STACK_SIZE. intros Hx'. destruct (Hb b Hin) as (i & HO & Hi & _ & H1 & _).
    destruct Ha as [->|Ha]; [rewrite /in_block in Hx; lia|]. destruct (Hb _ Ha) as (j & _ & Hj & _).
    assert (i = j) as <- by (apply (ho_apart _ _ _ _ HO i j b (a - 8, 513) x); [done|done|done|rewrite /in_block /=; lia]).
    rewrite Hi in Hj. by injection Hj as ->.
Qed.

(** malloc() for the stack of a thread in the slot [i]. *)
Lemma malloc_stack h L A p i t :
  heap_inv base h L A → stacks_in p A → p !! i = Some t →
  ∃ r h' L' A', Umalloc.malloc base grant (heap_fuel h) STACK_SIZE h = Ok r h' ∧ kept A h h' ∧ heap_inv base h' L' A' ∧
    (r = 0 ∨ (r - 8, units STACK_SIZE) ∈ A') ∧ (∀ b, b ∈ A → b ∈ A' ∧ b.1 ≠ r - 8) ∧
    ∀ n, stacks_in (<[i := Uthread n 0 0 r RUNNABLE (ntickets t)]> p) A'.
Proof.
  intros HI HS Ht.
  destruct (malloc_run base grant grant_ok (heap_fuel h) STACK_SIZE h L A HI) as (r & h' & L' & Hrun & Hk & _ & Hcase);
    [rewrite /STACK_SIZE; lia|by apply (heap_fuel_enough base _ _ A)|].
  destruct Hcase as [(Hr & _ & HI' & _)|(-> & HI' & _)].
  - exists r, h', L', ((r - 8, units STACK_SIZE) :: A). split_and!; [done..|right; apply list_elem_of_here| |intros n; by apply (stacks_in_new h' L')].
    intros b Hb. split; [by apply list_elem_of_further|]. intros E. apply list_elem_of_lookup in Hb as [k Hk'].
    assert (0%nat = S k) as [=]. by apply (live_nodup h' L' _ 0 (S k) (r - 8, units STACK_SIZE) b HI').
  - exists 0, h', L', A. split_and!; [done..|by left| |].
    + intros b Hb. split; [done|]. destruct HI as [HO|(_ & _ & -> & _)]; [|by apply elem_of_nil in Hb].
      destruct (ho_blocks _ _ _ _ HO b Hb) as (_ & ? & _). pose proof base_high. rewrite /STACK_SIZE in H0. lia.
    + intros n. apply (stacks_in_sub p); [|done].
      intros j u [(-> & <- & _)|[_ Hj]]%list_lookup_insert_Some [H1 H2]; [done|]. exists u. done.
Qed.

Lemma create_stacks func arg s :
  stacks_ok s →
  ∃ n s', uthread_create func arg s = Ok n s' ∧ stacks_ok s' ∧ stacks_kept (λ _, True) s s' ∧ created func arg s n s'.
Proof.
  intros (L & A & HI & HS). rewrite /uthread_create /alarm bind_modify bind_gets.
  change (uthread_pool (set_alarm 0 s)) with (uthread_pool s).
  destruct (first _ (uthread_pool s)) as [i|] eqn:Hf.
  2:{ eexists _, _. split; [done|]. split_and!; [by exists L, A|done|]. left. split_and!; [done| |done|done].
      intros i t Hi. rewrite first_None in Hf. by specialize (Hf i t Hi) as ?%bool_decide_eq_false. }
  apply first_Some in Hf as (t & Ht & Hfree%bool_decide_eq_true & _).
  rewrite bind_gets bind_modify bind_gets. change (uheap _) with (uheap s). change (next_tid _) with (next_tid s).
  destruct (malloc_stack (uheap s) L A (uthread_pool s) i t HI HS Ht) as (r & h' & L' & A' & Hrun & Hk & HI' & Hr & Hsub & HS').
  rewrite /Uthread.malloc /umalloc Hrun bind_modify /store_int !bind_modify.
  destruct (first_words_ok r func arg h' L' A' HI' Hr) as (HI2 & Hrb & Hk2). rewrite /KERNBASE in Hrb.
  set (s2 := set_heap _ _). assert (uheap s2 = set_hmem (first_words r func arg (h_mem h')) h') as Eh.
  { rewrite /s2 /STACK_SIZE /=. rewrite !u32_id; [lia..|]. done. }
  assert (uthread_pool s2 !! i = Some t) as Ht2 by done.
  rewrite (bind_Ok _ _ _ _ _ (updthread_Ok i _ s2 t Ht2)). eexists _, _. split; [done|]. split_and!.
  - exists L', A'. split; [by rewrite -Eh in HI2|apply HS'].
  - intros j u x _ Hj Hu Hx. change (byte (h_mem (uheap s2)) x = byte (h_mem (uheap s)) x). rewrite Eh /=.
    assert (stack_block u ∈ A) as Hin by by apply (proj1 HS j u). destruct (Hsub _ Hin) as [? ?]. rewrite (Hk2 (stack_block u)) //. by apply (Hk (stack_block u)).
  - right. split; [done|]. exists i, t, r. cbv zeta. split_and!; [done|done|done| | |]; change (h_mem _) with (h_mem (uheap s2)); rewrite Eh /= /first_words.
    + do 2 (rewrite load32_store32_ne; [lia|]). apply load32_store32.
    + rewrite load32_store32_ne; [lia|]. apply load32_store32.
    + apply load32_store32.
Qed.

Lemma elem_of_delete {B} (l : list B) k k' x : l !! k' = Some x → k' ≠ k → x ∈ delete k l.
Proof.
  intros Hx Hne. apply list_elem_of_lookup. destruct (decide (k' < k)%nat).
  - exists k'. by rewrite list_lookup_delete_lt.
  - exists (k' - 1)%nat. rewrite list_lookup_delete_ge; [lia|]. by replace (S (k' - 1)) with k' by lia.
Qed.

(** The thread [c] has gone and its stack, block [k], is given back. *)
Lemma stacks_in_gone p A c t k :
  p !! c = Some t → has_stack t → A !! k = Some (stack_block t) → stacks_in p A →
  stacks_in (<[c := set_state FREE t]> p) (delete k A).
Proof.
  intros Hc Ht Hk [H1 H2]. split.
  - intros i u [(-> & <- & _)|[Hne Hi]]%list_lookup_insert_Some Hu; [by destruct Hu|].
    destruct (proj1 (list_elem_of_lookup _ _) (H1 i u Hi Hu)) as [k' Hk']. apply (elem_of_delete A k k'); [done|].
    intros ->. apply Hne. apply (H2 c i t u); [done..|]. rewrite Hk in Hk'. injection Hk'. lia.
  - intros i j u v [(-> & <- & _)|[? Hi]]%list_lookup_insert_Some [(-> & <- & _)|[? Hj]]%list_lookup_insert_Some Hu Hv E;
      [done|by destruct Hu|by destruct Hv|]. by apply (H2 i j u v).
Qed.

Lemma stacks_in_free p A c t :
  stacks_in p A → p !! c = Some t → stacks_in (<[c := set_state FREE t]> p) A.
Proof.
  intros HS Hc. apply (stacks_in_sub p); [|done].
  intros j u [(-> & <- & _)|[_ Hj]]%list_lookup_insert_Some Hu; [by destruct Hu|by exists u].
Qed.

(** uthread_exit() up to the point where it looks for another thread. *)
Definition woken (t : uthread) : uthread := if bool_decide (state t = SLEEP) then set_state RUNNABLE t else t.

Definition exited (s : ust) (t : uthread) : ust :=
  set_pool (woken <$> <[c_uthread_index s := set_state FREE t]> (uthread_pool s))
    (set_heap (if stack t =? 0 then uheap s else Uthread.free (stack t) (uheap s)) (set_alarm 0 s)).

Lemma exit_run sp bp s t :
  uthread_pool s !! c_uthread_index s = Some t →
  uthread_exit sp bp s =
    (if existsb (λ t, bool_decide (state t ≠ FREE)) (uthread_pool (exited s t)) then uthread_yield sp bp (exited s t)
     else Ok tt (exited s t)).
Proof.
  intros Ht. rewrite /uthread_exit /alarm bind_modify bind_gets.
  rewrite (bind_Ok _ _ _ _ _ (getthread_Ok _ (set_alarm 0 s) t Ht)) /exited /when.
  set (s1 := set_heap (if stack t =? 0 then uheap s else Uthread.free (stack t) (uheap s)) (set_alarm 0 s)).
  assert ((if negb (stack t =? 0) then modify (λ s, set_heap (Uthread.free (stack t) (uheap s)) s) else mret tt : M jump ust unit)
             (set_alarm 0 s) = Ok tt s1) as Hfree by (rewrite /s1; destruct (stack t =? 0); [by destruct s|done]).
  rewrite (bind_Ok _ _ _ _ _ Hfree) (bind_Ok _ _ _ _ _ (updthread_Ok _ _ s1 t Ht)) bind_modify bind_gets.
  by destruct (existsb _ _).
Qed.

Lemma exited_stacks s t :
  uthread_pool s !! c_uthread_index s = Some t → state t ≠ FREE → stacks_ok s →
  stacks_ok (exited s t) ∧ stacks_kept (.≠ c_uthread_index s) s (exited s t).
Proof.
  intros Ht Hs (L & A & HI & HS). set (p1 := <[c_uthread_index s := set_state FREE t]> (uthread_pool s)).
  assert (∀ B, stacks_in p1 B → stacks_in (woken <$> p1) B) as Hw.
  { intros B. apply stacks_in_sub. intros i u' [u [-> Hu]]%list_lookup_fmap_Some [Hf Hst]. exists u.
    rewrite /woken in Hf, Hst |- *. rewrite /has_stack. destruct (bool_decide_reflect (state u = SLEEP)) as [E|]; simpl in *; [|done].
    by rewrite E. }
  rewrite /stacks_ok /stacks_kept /exited /=. destruct (Z.eqb_spec (stack t) 0) as [E|E].
  - split; [|done]. exists L, A. split; [done|]. by apply Hw, stacks_in_free.
  - assert (stack_block t ∈ A) as [k Hk]%list_elem_of_lookup by by apply (proj1 HS (c_uthread_index s)).
    destruct (free_run base (heap_fuel (uheap s)) (uheap s) L A k (stack t - 8) (units STACK_SIZE)) as (h' & L' & Hrun & HI' & Hk' & _);
      [done|done|pose proof (heap_fuel_enough base _ _ _ HI); lia|].
    replace (stack t - 8 + 8) with (stack t) in Hrun by lia. rewrite Hrun. split.
    + exists L', (delete k A). split; [done|]. apply Hw. by apply stacks_in_gone.
    + intros j u x Hne Hj Hu Hx. apply (Hk' (stack_block u)); [|done]. destruct HS as [H1 H2].
      apply (proj1 (stacks_in_gone (uthread_pool s) A _ t k Ht (conj Hs E) Hk (conj H1 H2)) j); [|done].
      rewrite list_lookup_insert_ne; [congruence|done].
Qed.

Lemma exited_pool s t :
  pool_ok s → uthread_pool s !! c_uthread_index s = Some t → pool_ok (exited s t) ∧
  ∀ i u, uthread_pool (exited s t) !! i = Some u → state u ≠ FREE → i ≠ c_uthread_index s ∧ state u = RUNNABLE.
Proof.
  intros (H1 & H2 & H3 & H4) Ht. pose proof (lookup_lt_Some _ _ _ Ht) as Hlt.
  assert (∀ i u, uthread_pool (exited s t) !! i = Some u →
    ntickets u = NTICKET ∧ (state u ≠ FREE → i ≠ c_uthread_index s ∧ state u = RUNNABLE)) as Hall.
  { intros i u' [u [-> Hu]]%list_lookup_fmap_Some. rewrite Forall_lookup in H3.
    assert (ntickets (woken u) = ntickets u) as -> by (rewrite /woken; by destruct (bool_decide _)).
    apply list_lookup_insert_Some in Hu as [(-> & <- & _)|[Hne Hi]]; [split; [by apply (H3 _ t Ht)|done]|].
    split; [by apply (H3 i)|]. intros Hs. split; [congruence|]. rewrite /woken in Hs |- *.
    destruct (bool_decide_reflect (state u = SLEEP)); [done|]. destruct (state u) eqn:E; try done.
    by destruct (Hne (eq_sym (H4 i u Hi E))). }
  split; [|intros i u Hu; apply (Hall i u Hu)].
  split_and!; [by rewrite /= length_fmap length_insert|done| |].
  - apply Forall_lookup. intros i u Hu. by apply Hall in Hu as [? _].
  - intros i u Hu Hs. destruct (Hall i u Hu) as [_ Hr]. destruct Hr as [_ Hr]; congruence.
Qed.

Lemma runnables_pos p i u : p !! i = Some u → state u = RUNNABLE → (0 < runnables p)%nat.
Proof.
  intros Hi Hu. rewrite /runnables. assert (u ∈ filter (λ t, state t = RUNNABLE) p) as Hin
    by (apply list_elem_of_filter; split; [done|exact (list_elem_of_lookup_2 _ _ _ Hi)]).
  destruct (filter _ p); [by apply elem_of_nil in Hin|simpl; lia].
Qed.

(** uthread_yield() moves no stack. *)
Lemma yield_stacks {B} sp bp s t :
  pool_ok s → uthread_pool s !! c_uthread_index s = Some t →
  (0 < runnables (<[c_uthread_index s := suspend sp bp t]> (uthread_pool s)))%nat → stacks_ok s →
  ∃ j s', uthread_yield (A := B) sp bp s = Switch j s' ∧ stacks_ok s' ∧ uheap s' = uheap s.
Proof.
  intros Hok Ht Hpos (L & A & HI & HS).
  destruct (uthread_yield_run (A := B) sp bp s t Hok Ht Hpos) as (j & u & s' & Hrun & Hu & Hr & _ & _ & _ & Hp & _ & Hh & _).
  eexists _, s'. split; [exact Hrun|]. split; [|exact Hh]. exists L, A. rewrite Hh Hp. split; [done|].
  apply (stacks_in_sub (uthread_pool s)); [|done].
  assert (∀ v, state (suspend sp bp v) ≠ FREE → state v ≠ FREE) as Hsus
    by (intros v; rewrite /suspend; destruct (bool_decide_reflect (state v = RUNNING)) as [->|]; simpl; done).
  assert (∀ i v, <[c_uthread_index s := suspend sp bp t]> (uthread_pool s) !! i = Some v → has_stack v →
    ∃ w, uthread_pool s !! i = Some w ∧ has_stack w ∧ stack w = stack v) as Hback.
  { intros i v [(<- & <- & _)|[_ Hi]]%list_lookup_insert_Some [Hf Hs]; [|by exists v].
    assert (stack (suspend sp bp t) = stack t) as E by (rewrite /suspend; by destruct (bool_decide _)).
    exists t. rewrite E in Hs |- *. split_and!; [done| |done]. split; [by apply Hsus|done]. }
  intros i v [(-> & <- & _)|[_ Hi]]%list_lookup_insert_Some Hv; [|by apply Hback].
  apply (Hback _ u Hu). split; [by rewrite Hr|apply Hv].
Qed.


End stacks.

(** ** An instance: no thread has a stack yet *)

Definition demo_threads : list uthread :=
  (λ st, Uthread 0 0 0 0 st NTICKET) <$> [RUNNING; FREE; FREE; FREE; FREE; FREE; FREE].

